(* ===== verification/_CoqProject ===== *)
-Q . S2P
Prelude.v
Errors.v
SpvTypes.v
SpvValidation.v
SpvChain.v
SpvConcrete.v
SpvChainSpec.v
SpvChainFacts.v
SpvChainProps.v
SpvServer.v
SpvMerkle.v
ReplayGuard.v
ResultCache.v
RefillRate.v
EnclaveState.v
EnclaveStateProps.v
Attestation.v
AttestationSample.v
AttestationProps.v
Lengths.v
Framing.v
RustText.v
Rlp.v
Ber.v
PsbtTypes.v
PsbtSize.v
PsbtKeys.v
PsbtSample.v
PsbtKeysProps.v
PsbtPolicy.v
PsbtPolicyProps.v
RgbCommit.v
RgbSample.v
RgbCommitProps.v
GasTx.v
AttestedPolicy.v
AttestedKeys.v
ParentAttest.v
ParentAttestProps.v
Cloning.v
CloningProps.v
SpvCrosscheck.v
EvmRelease.v
EvmReleaseProps.v
EvmEvents.v
EvmEventsProps.v
RgbMint.v
RgbMintProps.v
MintSign.v
MintSignProps.v
EvmRelay.v
EvmRelayProps.v
LaunchConfig.v
LaunchPolicy.v
LaunchExpect.v
LaunchProps.v
Io.v
KmsClient.v
SeedPersistence.v
SeedBroker.v
SeedProps.v
RejectList.v
RgbTransfer.v
RgbCost.v
Consensus.v
Validation.v
BurnSource.v
ConsensusProps.v
BurnSourceProps.v
ConsensusSample.v
EvmDigest.v
BurnSign.v
BurnSignProps.v
SignedResponses.v
HeaderSync.v
Dispatch.v
Perimeter.v
GrpcServer.v
GrpcProps.v
Operator.v
