(* ===== verification/Prelude.v ===== *)
(** * enclave-signer: verification development

    enclave-signer signs for the UTEXO bridge from inside an AWS Nitro Enclave.
    The enclave holds the keys, checks every bridge operation itself, and signs
    only when all checks pass; the host (the [parent] crate), its listener and
    every byte they send are untrusted.  In the burn flow (RGB to EVM) it signs
    an EIP-712 release and the gas transaction that carries it; in the mint
    flow (EVM to RGB) a Bitcoin PSBT.

    ** Parts of the program and how they interact

    - Launch.  The operator sends the endpoints once ([SetEndpoints]); config.rs
      and policy.rs turn the environment of the image and the endpoints into
      the policy the enclave runs under and attests.  The operator's tool
      (parent/src/launch_check.rs) computes the same policy from the image.
      seed_persistence.rs then recovers or creates the seed: kms/ decrypts and
      generates it for an attested one-shot key, the broker of the parent
      (parent/src/seed_persistence.rs) keeps the ciphertext in S3.
    - Requests.  A node calls the gRPC service (parent/src/grpc_server.rs) behind
      mutual TLS and roles (transport_security.rs) and the shape check
      (request_shape.rs); kept replies (signed_responses.rs) answer retries.
      framing.rs reads the request in the enclave under a bound on its decoded
      size, which memory.rs charges; server/dispatch.rs routes it by build and
      launch, and server/wire.rs commits a reservation once the reply is
      written.
    - Headers.  The parent syncs Bitcoin headers from Electrum (header_sync.rs);
      server/spv.rs meters them (rate_limit.rs) and hands them to the header
      chain (networks/rgb/spv), which validates them from a checkpoint.
    - A burn request carries a consignment, Merkle proofs and EVM calldata.
      networks/rgb/validation/ bounds the work of the consignment, validates it
      with rgb-lib under resolvers of its own, and reads the burn and the mint
      locks from it; the reject list of the pinned chain is read by
      networks/evm/reject_list.rs; spv_crosscheck.rs proves the witness
      transactions in the header chain and pins the blocks it used;
      networks/evm/validation.rs checks the destination, crosscheck.rs binds
      the calldata to the burn, signing.rs hashes it; server/signers.rs checks
      the pins again under the chain lock and uses the key.
    - A mint request carries a PSBT and the fascia of its RGB transition.
      psbt_commit.rs finds the one transition the transaction commits,
      parent_proof.rs the output its mint right is on, psbt_validation/ the
      rules of mints and refills; networks/evm/events.rs verifies the deposit
      on the EVM side; server/sign.rs reserves the operation, signs and keeps
      the reply for retries; signing/taproot.rs chooses inputs and keys.
    - The gas key signs only transactions that networks/evm/gas_tx.rs decodes
      canonically and that the operator's pins allow.
    - state/ holds what lives across requests: phase and keys (enclave.rs), used
      nonces and operations (replay_guard.rs), kept replies (result_cache.rs),
      the refill rate (refill_rate.rs).  Keys can also come from another enclave
      by the cloning handshake (cloning.rs, server/cloning.rs), which the CLI of
      the parent drives (bin/cli.rs, clone_completion.rs).
    - attestation-verify/ verifies NSM documents and encodes the policy they
      commit to; donor and requester of a clone use it on each other, the
      operator (parent/src/attest_verify.rs, launch_check.rs) on a signer.

    ** Files

    - [Prelude]: results, panics, machine integers, clocks, mutexes, bytes,
      tactics, shared lemmas.  [Errors]: error.rs.  [Lengths]: sums of lengths.
      [RustText]: the operations of Rust on strings.
    - [SpvTypes], [SpvValidation], [SpvChain]: spv/types.rs, checkpoint.rs (the
      constants and boot assertions), validation.rs and chain.rs, one
      definition per function, over the interface [BitcoinCrate] of the
      [bitcoin] crate.  [SpvConcrete] is an instance that evaluates.
      [SpvChainSpec] states when a list of headers is valid ([valid_chain]) and
      the invariant [chain_inv]; [SpvChainFacts] and [SpvChainProps] prove that
      [submit_headers] implements it.
    - [SpvServer]: the handlers and the rate limiter.  [SpvMerkle]:
      spv/merkle.rs against Bitcoin's Merkle tree and transaction format.
      [SpvCrosscheck]: spv_crosscheck.rs with [ChainPins].
    - [ReplayGuard], [ResultCache], [RefillRate], [EnclaveState] with
      [EnclaveStateProps]: state/.  [EnclaveStateProps.step] is the step
      relation of all callers together, with requests in flight and the
      monotonic clock that decides when a cloning session is over.
    - [Attestation], [AttestationSample], [AttestationProps]:
      attestation-verify/src/lib.rs, with an instance that evaluates and
      RFC 5280 paths as a relation.  [AttestedPolicy]: policy.rs of that crate,
      each field's reader and writer an instance of the class [Codec].
      [AttestedKeys]: the answers of server/keys.rs that commit to keys.
      [ParentAttest], [ParentAttestProps]: the operator's checks.
    - [Cloning], [CloningProps]: cloning.rs, the handlers of server/cloning.rs
      and [handle_initialize].
    - [LaunchConfig], [LaunchPolicy], [LaunchExpect], [LaunchProps]: config.rs
      (also the SPV_CHECKPOINT override of checkpoint.rs), policy.rs with
      server/endpoints.rs, launch_check.rs.
    - [Io]: a monad of calls to an untrusted peer.  [KmsClient]: kms/mod.rs and
      kms/recipient.rs.  [SeedPersistence], [SeedBroker]: both ends of the seed
      protocol.  [SeedProps]: the protocol over them.  [Ber]: kms/ber.rs against
      a grammar of BER, the joining of chunked strings and a grammar of DER.
    - [Framing]: framing.rs, its mirror in request_shape.rs and memory.rs.
      [Dispatch]: server/dispatch.rs, wire.rs and health.rs over the interface
      [Handlers].
    - [Rlp], [GasTx]: gas_tx.rs.
    - [PsbtTypes], [PsbtSample]: the PSBT data and the interfaces [Bip32],
      [Bitcoin], [PsbtCodec], [TapSigner], with instances.  [PsbtSize]:
      psbt_fee_size.rs.  [PsbtKeys], [PsbtKeysProps]: signing/taproot.rs and the
      ownership of inputs and outputs.  [PsbtPolicy], [PsbtPolicyProps]:
      psbt_validation.rs, btc_ownership.rs, btc_crosscheck.rs and the plain-BTC
      handler.
    - [RgbCommit], [RgbSample], [RgbCommitProps]: psbt_commit.rs,
      parent_proof.rs and the transition helpers, over [RgbStd] and
      [BfaSchema].  [RgbMint], [RgbMintProps]: psbt_validation/mint.rs,
      refill.rs, invoice.rs.  [MintSign], [MintSignProps]: [handle_sign] of a
      mint signer, the refill and PSBT handlers, route.rs.
    - [RgbTransfer], [RgbCost]: reading a consignment and the bound on its work
      (validation/consignment.rs, schema.rs, cost.rs).  [Validation],
      [Consensus], [ConsensusProps], [ConsensusSample]: types.rs, bfa.rs,
      witness.rs, scratch.rs and consensus.rs.  [BurnSource],
      [BurnSourceProps]: source.rs and indexer.rs.  [RejectList]: the reject
      list on the EVM side and its resolver.
    - [EvmRelease], [EvmReleaseProps]: lz_options.rs, burn_destination.rs,
      validation.rs and the binds of crosscheck.rs.  [EvmRelay],
      [EvmRelayProps]: the BtcRelay agreement, [apply_funds_out_binding] and
      [sign_with_chain_pins_unchanged].  [EvmEvents], [EvmEventsProps]:
      events.rs, every RPC a step of a monad that counts the calls, so that the
      node may answer differently each time.  [EvmDigest]: signing.rs.
      [BurnSign], [BurnSignProps]: [handle_sign] of a burn signer, the gas and
      Concordium handlers.
    - [SignedResponses], [HeaderSync], [Perimeter], [GrpcServer], [GrpcProps],
      [Operator]: the parent, file by file; [Operator] has its settings, the
      direct client, the CLI and the readiness answer.  The messages of the
      node in [GrpcServer] are types of their own, converted field by field
      into those of the enclave; a SetClone of [Operator.complete] that misses
      its deadline lands before the key read or after it.

    ** How the model corresponds to the code

    A Rust call returns [res]: [Ok], [Err] or [Panic] (an [expect], an index or
    a slice out of range).  Integers are [Z]; every wrapping, saturating or
    checked operation is written out, and the theorems show which of them
    cannot overflow.  A struct behind a [Mutex] carries its poison flag; a
    clock reading or a random value is an argument of the operation.  An error
    keeps the fixed text of its message.  State is passed explicitly, and an
    operation that fails after a change returns the changed state; a guard that
    Rust drops at the end of a scope is dropped explicitly on every path.
    Interleaved tasks (the callers of the enclave state, the requests in flight
    of the parent, the launches of a deployment) are step relations.

    Recursion that is not structural has a measure.  [Rlp.decode_list] takes the
    buffer's length as fuel (every item consumes a byte), [Rlp.decode_one] the
    levels of nesting left; the loops of [Ber] and of the frame walk take the
    length of what is left to read, with running out a [Panic] that the theorems
    exclude; the walk of [RgbCost] two more than the edges of the graph, the
    header loop of [HeaderSync] the number of headers asked for and its rate
    loop the entries of the window, the word splitter of [Perimeter] the length
    of the line.  The theorems prove that none of them runs out.

    Code outside the repository is a parameter: the [bitcoin] crate
    ([BitcoinCrate] for headers, [Bitcoin] and [PsbtCodec] for PSBTs, with the
    documented facts in [BitcoinCrateLaws], [BitcoinLaws], [PsbtCodecLaws]),
    key derivation and signatures ([Bip32], [TapSigner], [Keys], [KeyOps]), the
    RGB libraries ([RgbStd], [BfaSchema], [TransferStd], [BfaBurnSchema],
    [RgbLib], a tree of the questions rgb-lib asks), the indexer ([Indexer]),
    the ABI codec ([AbiCodec], [AbiTyped]), the EVM node ([EvmReceiptProvider],
    [ListNode]), the Electrum server ([ElectrumServer], with [HonestServer] where
    a theorem needs honesty), protobuf ([Prost]), CBOR, X.509 and P-384
    ([Ciborium], [X509], [P384]), DNS names ([TlsNames]), the Nitro module
    ([Nsm]), the AWS SDK with its CMS and RSA ([KmsCrates]), the link to the
    broker ([BrokerLink]) and its host ([Host]), X25519, HMAC, HKDF and
    ChaCha20-Poly1305 ([X25519], [CloneCrypto]), text codecs ([TextCodecs]),
    SHA-256, Keccak-256, header serialization, [ChainNet::prefix], the BFA
    schema ids, URIs and the numbers of the gRPC schema.  Collision resistance
    is a hypothesis on the strings at hand, never on all strings.  The trust in
    AWS is [trusted_pki]: keys of issued certificates sign only certificates
    and payloads that are genuine; [requested] lists the five uses of the
    module in the image (keys, a policy alone, the two ends of a clone, the
    one-shot key of a KMS call); [honest_node] says that the EVM node reports a
    hash-linked chain.  Every such theorem has a witness at concrete functions.

    ** What the theorems show

    - Mint (C1, C3, C24, C25): what a signed mint rests on; one deposit backs one
      mint; the node's request is the handler's; a lost reply.  Refill (C23): no
      right is given away.
    - Burn (C2, C4, C5, C30-C32, C37, C38): a signed release names the validated
      burn, its amount, payee and deposits and a block still in the chain; the
      digest binds the call; what a validated consignment proves; the reject
      list in force; exactly the bounded consignments are validated; the
      accepted destinations; the replay key.  Gas (C35).
    - PSBTs (C8, C22): the loss of a plain-BTC request, the inputs signed.
    - Header chain (C7, C16, C27, C28): every reachable chain is consensus-valid
      above its checkpoint; a batch is all or nothing; the sync catches up with
      a valid chain through the real submit handler and never exceeds its rate.  Merkle proofs (C17).
    - Attestation and launch (C9-C11, C14, C36): exactly which documents pass;
      accepted keys are the enclave's; the launch check agrees with the enclave;
      the policy a release build runs under; its encoding.
    - Keys (C6, C12, C13, C15, C19, C20, C29, C33): to whom a seed is sealed; all
      launches end with one seed, their own; the cloning handshake works and its
      command reports the truth; the phase machine; replay protection.
    - Parent (C18, C21, C26): who passes the perimeter and how often; one
      exchange in flight per request.
    - Wire formats (C34, C39, C40): RLP, BER to DER, request frames.

    Further theorems without a number state what these leave out: the guards of
    a batch, reorg depth and work, the period rules of mainnet and testnets,
    checkpoints that never wedge, the boot checkpoint, the rate limit's real
    bound, completeness of Merkle proofs, the deposit check, retries and
    rollback of reservations, the export cap, exclusive recovery, all-or-nothing
    initialization, the reply cache, the relay agreement, payout uniqueness, the
    fee thresholds, the memory budget, sockets and [Sign] requests at once,
    readiness, settings, status codes.

    ** Not modelled

    Sockets, TLS, tonic, axum and tokio plumbing, the process boot with its
    forwarders and clock sync, the printing and the interactive prompt of the
    CLI, logging, and test support.  What these give (an answer, a failure, a
    clock reading) is an argument of the definitions that use it.  The token
    bucket of the seed broker counts in [f64]; only its verdict is modelled.  A
    combined build runs both directions of [handle_sign]; each is modelled by
    itself, as the build with one direction compiles it. *)

From Stdlib Require Import ZArith Lia.
From Stdlib Require Strings.Byte.
From Corelib Require Export Init.Byte.
From stdpp Require Import sorting base gmap numbers list list_numbers.

#[global] Open Scope Z_scope.

(** ** Outcomes of a Rust call

    [Ok] and [Err] are [Result]; [Panic] is an unwinding or aborting call
    ([expect], an out-of-range slice). *)

Inductive res (E A : Type) : Type :=
| Ok (a : A)
| Err (e : E)
| Panic.

Arguments Ok {E A} a.
Arguments Err {E A} e.
Arguments Panic {E A}.

Definition rbind {E A B : Type} (c : res E A) (k : A -> res E B) : res E B :=
  match c with
  | Ok a => k a
  | Err e => Err e
  | Panic => Panic
  end.

Definition rmap_err {E F A : Type} (f : E -> F) (c : res E A) : res F A :=
  match c with
  | Ok a => Ok a
  | Err e => Err (f e)
  | Panic => Panic
  end.

(** [Option::ok_or] and [Option::expect]. *)
Definition ok_or {E A : Type} (o : option A) (e : E) : res E A :=
  match o with
  | Some a => Ok a
  | None => Err e
  end.

Definition expect {E A : Type} (o : option A) : res E A :=
  match o with
  | Some a => Ok a
  | None => Panic
  end.

Declare Scope rust_scope.
Delimit Scope rust_scope with rust.
Notation "'let?' x ':=' c 'in' k" := (rbind c (fun x => k))
  (at level 10, x pattern, c at level 100, k at level 200,
   format "'let?'  x  ':='  c  'in' '//' k") : rust_scope.
#[global] Open Scope rust_scope.

(** ** Machine integers

    A [w]-bit unsigned integer is a [Z]; the wrap-around of the release
    profile (no overflow checks) is written out. *)

Definition u32_max : Z := 2 ^ 32 - 1.
Definition u64_max : Z := 2 ^ 64 - 1.
Definition wrap32 (z : Z) : Z := z mod 2 ^ 32.
Definition wrap64 (z : Z) : Z := z mod 2 ^ 64.
Definition sat_add64 (a b : Z) : Z := Z.min (a + b) u64_max.
Definition sat_sub (a b : Z) : Z := Z.max 0 (a - b).
Definition is_u8 (z : Z) : Prop := 0 <= z < 2 ^ 8.
Definition is_u32 (z : Z) : Prop := 0 <= z < 2 ^ 32.
Definition is_u64 (z : Z) : Prop := 0 <= z < 2 ^ 64.
Definition is_u128 (z : Z) : Prop := 0 <= z < 2 ^ 128.

(** [Vec::len] as a number. *)
Definition zlen {A : Type} (l : list A) : Z := Z.of_nat (length l).

(** ** Clocks and locks

    An [Instant] is a [Z] (nanoseconds of the monotonic clock), a [Duration]
    a non-negative [Z].  [saturating_duration_since] is [sat_sub].  A [Mutex]
    carries its poison flag. *)

Definition secs (n : Z) : Z := n * 1000000000.

Record mutex (A : Type) : Type := Mutex { poisoned : bool; contents : A }.
Arguments Mutex {A} poisoned contents.
Arguments poisoned {A} m.
Arguments contents {A} m.

Definition new_mutex {A : Type} (a : A) : mutex A := Mutex false a.
Definition set_contents {A : Type} (m : mutex A) (a : A) : mutex A :=
  Mutex (poisoned m) a.

(** ** Bytes *)

Abbreviation bytes := (list byte).

Definition b2z (b : byte) : Z := Z.of_N (Byte.to_N b).

Definition z2b (z : Z) : byte :=
  match Byte.of_N (Z.to_N (z mod 256)) with
  | Some b => b
  | None => x00
  end.

#[export] Instance byte_eq_decision : EqDecision byte := Byte.byte_eq_dec.

#[export] Program Instance byte_countable : Countable byte :=
  inj_countable Byte.to_N Byte.of_N _.
Next Obligation. intros b. apply Byte.of_to_N. Qed.

(** Big-endian value, [uN::from_be_bytes]. *)
Definition be_combine (bs : bytes) : Z :=
  fold_left (fun acc b => acc * 256 + b2z b) bs 0.

(** The [n] low bytes of [z], big-endian, [uN::to_be_bytes]. *)
Fixpoint be_split (n : nat) (z : Z) : bytes :=
  match n with
  | O => []
  | S n => be_split n (z / 256) ++ [z2b z]
  end.

(** Little-endian value, [uN::from_le_bytes]. *)
Fixpoint le_combine (bs : bytes) : Z :=
  match bs with
  | [] => 0
  | b :: bs => b2z b + 256 * le_combine bs
  end.

(** ** Tactics and hint databases *)

Create HintDb rust.
Create Rewrite HintDb rust.

(** Split every [rbind] and conditional of the hypothesis [H : _ = Ok _]. *)
Ltac inv_ok H :=
  repeat match type of H with
  | rbind ?c _ = Ok _ =>
      let E := fresh "E" in destruct c eqn:E; cbn [rbind] in H; try discriminate H
  | (if ?b then _ else _) = Ok _ =>
      let E := fresh "E" in destruct b eqn:E; try discriminate H
  | Ok _ = Ok _ => injection H as H
  end.

(** Turn boolean comparisons on [Z] in the context into propositions. *)
Ltac zbool :=
  repeat progress (rewrite
    ?Bool.orb_true_iff, ?Bool.orb_false_iff, ?Bool.andb_true_iff, ?Bool.andb_false_iff,
    ?Bool.negb_true_iff, ?Bool.negb_false_iff,
    ?Z.eqb_eq, ?Z.eqb_neq, ?Z.ltb_lt, ?Z.ltb_ge, ?Z.leb_le, ?Z.leb_gt, ?Z.gtb_lt in * ).

(** ** Shared lemmas *)

Lemma wrap32_small (z : Z) : is_u32 z -> wrap32 z = z.
Proof. intros H. apply Z.mod_small, H. Qed.

Lemma wrap64_small (z : Z) : is_u64 z -> wrap64 z = z.
Proof. intros H. apply Z.mod_small, H. Qed.

Lemma zlen_nonneg {A} (l : list A) : 0 <= zlen l.
Proof. unfold zlen. lia. Qed.

Lemma zlen_app {A} (l k : list A) : zlen (l ++ k) = zlen l + zlen k.
Proof. unfold zlen. rewrite length_app. lia. Qed.

Lemma zlen_cons {A} (a : A) (l : list A) : zlen (a :: l) = 1 + zlen l.
Proof. unfold zlen. cbn [length]. lia. Qed.

Lemma zlen_nil {A} : zlen (@nil A) = 0.
Proof. reflexivity. Qed.

#[export] Hint Rewrite @zlen_app @zlen_cons @zlen_nil : rust.
#[export] Hint Resolve zlen_nonneg : rust.

Lemma b2z_range (b : byte) : 0 <= b2z b < 256.
Proof. unfold b2z. pose proof (Byte.to_N_bounded b). lia. Qed.

Lemma z2b_b2z (b : byte) : z2b (b2z b) = b.
Proof. by destruct b. Qed.

Lemma b2z_z2b (z : Z) : b2z (z2b z) = z mod 256.
Proof.
  unfold z2b, b2z.
  pose proof (Z.mod_pos_bound z 256 eq_refl) as Hm.
  destruct (Byte.of_N (Z.to_N (z mod 256))) as [b|] eqn:E.
  - apply Byte.to_of_N in E. rewrite E. lia.
  - apply Byte.of_N_None_iff in E. lia.
Qed.

Lemma b2z_small (z : Z) : 0 <= z < 256 -> b2z (z2b z) = z.
Proof. intros Hz. rewrite b2z_z2b. by apply Z.mod_small. Qed.

Lemma b2z_inj (a b : byte) : b2z a = b2z b -> a = b.
Proof. intros H. by rewrite <- (z2b_b2z a), H, z2b_b2z. Qed.
#[export] Hint Resolve b2z_range : rust.

Lemma be_combine_snoc (bs : bytes) (b : byte) :
  be_combine (bs ++ [b]) = be_combine bs * 256 + b2z b.
Proof. unfold be_combine. by rewrite fold_left_app. Qed.

Lemma be_split_length (n : nat) (z : Z) : length (be_split n z) = n.
Proof.
  revert z; induction n as [|n IH]; intros z; cbn [be_split]; [done|].
  rewrite length_app, IH. cbn. lia.
Qed.

Lemma be_combine_bound (bs : bytes) : 0 <= be_combine bs < 256 ^ zlen bs.
Proof.
  induction bs as [|b bs IH] using rev_ind; [by vm_compute|].
  rewrite be_combine_snoc, zlen_app. change (zlen [b]) with 1.
  rewrite Z.pow_add_r by (unfold zlen; lia).
  pose proof (b2z_range b). nia.
Qed.

Lemma be_combine_split (n : nat) (z : Z) :
  0 <= z < 256 ^ Z.of_nat n -> be_combine (be_split n z) = z.
Proof.
  revert z; induction n as [|n IH]; intros z Hz.
  - change (256 ^ Z.of_nat 0) with 1 in Hz. change (be_combine (be_split 0 z)) with 0. lia.
  - cbn [be_split]. rewrite be_combine_snoc, IH, b2z_z2b.
    + pose proof (Z.div_mod z 256). lia.
    + rewrite Nat2Z.inj_succ, Z.pow_succ_r in Hz by lia.
      split; [apply Z.div_pos; lia|]. apply Z.div_lt_upper_bound; lia.
Qed.

Lemma be_split_combine (bs : bytes) : be_split (length bs) (be_combine bs) = bs.
Proof.
  induction bs as [|b bs IH] using rev_ind; [done|].
  rewrite length_app, be_combine_snoc. cbn [length].
  rewrite Nat.add_1_r. cbn [be_split]. pose proof (b2z_range b).
  rewrite Z.div_add_l, (Z.div_small (b2z b)), Z.add_0_r, IH by lia.
  f_equal. f_equal. apply b2z_inj. rewrite b2z_z2b.
  rewrite Z.add_comm, Z.mod_add, Z.mod_small; lia.
Qed.

(** Sequencing unit-valued checks: all of them pass. *)
Lemma rbind_unit_ok {E A} (c : res E unit) (k : res E A) (a : A) :
  rbind c (fun _ => k) = Ok a <-> c = Ok tt /\ k = Ok a.
Proof. destruct c as [[]|e|]; cbn; intuition congruence. Qed.

(** A refusal followed by success: the condition is false. *)
Lemma refuse_ok {E} (b : bool) (e : E) : (if b then Err e else Ok tt) = Ok tt <-> b = false.
Proof. destruct b; intuition congruence. Qed.

Lemma require_ok {E} (b : bool) (e : E) : (if b then Ok tt else Err e) = Ok tt <-> b = true.
Proof. destruct b; intuition congruence. Qed.

Lemma ok_or_ok {E A} (o : option A) (e : E) a : ok_or o e = Ok a <-> o = Some a.
Proof. destruct o; cbn; split; intros H; congruence. Qed.

Lemma rbind_ok {E A C} (c : res E A) (k : A -> res E C) (x : C) :
  rbind c k = Ok x <-> exists a, c = Ok a /\ k a = Ok x.
Proof. destruct c; cbn; split; try (intros (? & ? & ?)); try congruence; eauto. Qed.

(** The value of the first step of a sequence that succeeded. *)
Ltac inv_bind H x Hx := apply rbind_ok in H as (x & Hx & H).

(** A [for] loop that collects results and stops at the first failure. *)
Fixpoint rmapM {E A C : Type} (f : A -> res E C) (l : list A) : res E (list C) :=
  match l with
  | [] => Ok []
  | a :: l => let? c := f a in let? cs := rmapM f l in Ok (c :: cs)
  end.

(** [&v[i..]] panics when [i] is past the end. *)
Definition slice_from {A : Type} (l : list A) (i : nat) : option (list A) :=
  if (i <=? length l)%nat then Some (drop i l) else None.

Lemma rmapM_fmap {E A C} (f : A -> res E C) (g : A -> C) (l : list A) :
  (forall a, a ∈ l -> f a = Ok (g a)) -> rmapM f l = Ok (g <$> l).
Proof.
  induction l as [|a l IH]; intros H; cbn [rmapM]; [done|].
  rewrite H by apply list_elem_of_here. cbn [rbind].
  rewrite IH; [done|]. intros a' Ha'. apply H. by apply list_elem_of_further.
Qed.

(** The last element of a non-empty prefix. *)
Lemma last_take_lookup {A} (l : list A) (n : nat) :
  (0 < n <= length l)%nat -> last (take n l) = l !! pred n.
Proof.
  intros Hn. rewrite last_lookup, length_take, Nat.min_l by lia.
  apply lookup_take_lt. lia.
Qed.

Lemma rmapM_ok {E A C} (f : A -> res E C) (l : list A) (cs : list C) :
  rmapM f l = Ok cs <-> Forall2 (fun a c => f a = Ok c) l cs.
Proof.
  revert cs. induction l as [|a l IH]; intros cs; cbn [rmapM].
  - split; [intros [= <-]; constructor|]. by inversion 1.
  - rewrite rbind_ok. split.
    + intros (c & Hc & H). apply rbind_ok in H as (cs' & Hcs & [= <-]). constructor; [done|by apply IH].
    + inversion 1 as [|? c ? cs' Hc Hcs]; subst. exists c. split; [done|].
      apply IH in Hcs. by rewrite Hcs.
Qed.

(** A loop of checks passes when each of them does. *)
Lemma rmapM_unit_ok {E A C} (f : A -> res E unit) (k : res E C) (l : list A) (x : C) :
  rbind (rmapM f l) (fun _ => k) = Ok x <-> Forall (fun a => f a = Ok tt) l /\ k = Ok x.
Proof.
  rewrite rbind_ok. split.
  - intros (cs & Hcs & Hk). split; [|done]. apply rmapM_ok in Hcs.
    induction Hcs as [|? [] ? ? ? ? IH]; constructor; [done|apply IH].
  - intros [Hf Hk]. exists (replicate (length l) tt). split; [|done]. apply rmapM_ok.
    induction Hf; cbn; constructor; done.
Qed.
