(* ===== verification/Errors.v ===== *)
(** * Errors of the enclave (src/enclave/src/error.rs)

    One constructor per variant of [EnclaveError] and [CustodyFailure].  A
    message is kept as the fixed text of its format string; the interpolated
    values are dropped, except where a variant carries them as fields. *)

From stdpp Require Import base strings.
From S2P Require Import Prelude.

#[global] Open Scope string_scope.
#[global] Open Scope Z_scope.

(** [attestation_verify::EvmFinalityTag], a field of [EvmFinalityPending]. *)
Inductive EvmFinalityTag : Type :=
| Latest
| Safe
| Finalized.

Inductive CustodyFailure : Type :=
| Configuration
| AccessDenied
| Unavailable
| InvalidCiphertext
| KeyOrCiphertext
| InvalidResponse
| CustodyInternal.

Inductive EnclaveError : Type :=
| Custody (service : string) (failure : CustodyFailure)
| KeyNotInitialized
| AlreadyInitialized
| InvalidKey (m : string)
| InvalidRequest (m : string)
| Framing (m : string)
| ProtobufDecode
| Io
| Signing (m : string)
| CrossCheck (m : string)
| EvmFinalityPending (receipt_block : Z) (tag : EvmFinalityTag) (finality_block : Z)
| Internal (m : string)
| NotReady (state : string)
| Attestation (m : string)
| Certificate (m : string)
| CloneFailed (m : string)
| PcrMismatch (pcr : Z) (expected actual : string)
| NonceReplay
| ExportCapReached (used cap : Z)
| DigestMismatch
| PubkeyMismatch
| IdentityMismatch
| Spv (m : string).

(** [EnclaveError::error_code]. *)
Definition error_code (e : EnclaveError) : Z :=
  match e with
  | Custody _ Unavailable => 2
  | CrossCheck _ => 3
  | Spv _ => 3
  | NotReady _ => 2
  | EvmFinalityPending _ _ _ => 8
  | _ => 1
  end.

(** [EnclaveError::clone_error_code]. *)
Definition clone_error_code (e : EnclaveError) : Z :=
  match e with
  | InvalidRequest _ => 4
  | DigestMismatch | PubkeyMismatch | Attestation _ | Certificate _
  | PcrMismatch _ _ _ => 5
  | NonceReplay => 6
  | ExportCapReached _ _ => 7
  | KeyNotInitialized => 3
  | _ => error_code e
  end.

(** A call of the enclave: [crate::error::Result]. *)
Abbreviation enclave_result := (res EnclaveError).
