(* ===== verification/SpvTypes.v ===== *)
(** * SPV types, networks and checkpoints

    Models src/enclave/src/networks/rgb/spv/types.rs and
    src/enclave/src/networks/rgb/spv/checkpoint.rs (the constants and the boot
    assertions).  The [bitcoin] crate is not part of the repository: what the
    SPV code calls of it is the interface [BitcoinCrate], and the documented
    facts the theorems need of it are [BitcoinCrateLaws]. *)

From stdpp Require Import base list strings.
From S2P Require Import Prelude Errors.

(** ** The [bitcoin] crate *)

(** The operations of the [bitcoin] crate the SPV code uses: headers, their
    proof of work and the consensus parameters. *)
Class BitcoinCrate : Type := {
  Header : Type;
  Params : Type;
  (** [bitcoin::consensus::deserialize::<Header>]; the error's text. *)
  deserialize_header : bytes -> Header + string;
  (** [header.prev_blockhash], internal byte order. *)
  prev_blockhash : Header -> bytes;
  (** [header.merkle_root], internal byte order. *)
  header_merkle_root : Header -> bytes;
  (** [header.time]. *)
  time : Header -> Z;
  (** [header.bits.to_consensus()]. *)
  bits : Header -> Z;
  (** [header.block_hash()], internal byte order. *)
  block_hash : Header -> bytes;
  (** [header.validate_pow(header.target()).is_ok()]. *)
  validate_pow : Header -> bool;
  (** [header.work()] and [Work + Work]. *)
  work : Header -> Z;
  work_add : Z -> Z -> Z;
  (** [CompactTarget::from_next_work_required(base, timespan, params)] on
      consensus encodings. *)
  from_next_work_required : Z -> Z -> Params -> Z;
  (** [bitcoin::consensus::params]. *)
  MAINNET : Params;
  SIGNET : Params;
  TESTNET3 : Params;
  TESTNET4 : Params;
  REGTEST : Params;
  pow_target_spacing : Params -> Z;
  allow_min_difficulty_blocks : Params -> bool;
  (** [max_attainable_target.to_compact_lossy().to_consensus()]. *)
  max_attainable_bits : Params -> Z
}.

(** What the theorems rely on: field widths, [Work] as 256-bit addition, the
    ten-minute block spacing and the networks with the min-difficulty rule. *)
Class BitcoinCrateLaws (B : BitcoinCrate) : Prop := {
  time_u32 : forall h, is_u32 (time h);
  work_nonneg : forall h, 0 <= work h;
  work_add_exact : forall a b, 0 <= a -> 0 <= b -> a + b < 2 ^ 256 -> work_add a b = a + b;
  spacing_600 : forall p, pow_target_spacing p = 600;
  min_difficulty_mainnet : allow_min_difficulty_blocks MAINNET = false;
  min_difficulty_testnet3 : allow_min_difficulty_blocks TESTNET3 = true;
  min_difficulty_testnet4 : allow_min_difficulty_blocks TESTNET4 = true
}.

(** ** Networks *)

Inductive Network : Type :=
| Mainnet
| Signet
| SignetCustom
| Testnet3
| Testnet4
| Regtest.

#[export] Instance network_eq_dec : EqDecision Network.
Proof. solve_decision. Defined.

(** [Network::from_env_str]; the error text is the only one there is. *)
Definition from_env_str (s : string) : option Network :=
  if String.eqb s "bitcoin" || String.eqb s "mainnet" then Some Mainnet
  else if String.eqb s "signet" then Some Signet
  else if String.eqb s "signetcustom" then Some SignetCustom
  else if String.eqb s "testnet" || String.eqb s "testnet3" then Some Testnet3
  else if String.eqb s "testnet4" then Some Testnet4
  else if String.eqb s "regtest" then Some Regtest
  else None.

Definition enforces_pow (n : Network) : bool :=
  match n with
  | Mainnet | Testnet3 | Testnet4 => true
  | _ => false
  end.

Definition bip94 (n : Network) : bool :=
  match n with
  | Testnet4 => true
  | _ => false
  end.

Definition as_bitcoin_params {B : BitcoinCrate} (n : Network) : Params :=
  match n with
  | Mainnet => MAINNET
  | Signet | SignetCustom => SIGNET
  | Testnet3 => TESTNET3
  | Testnet4 => TESTNET4
  | Regtest => REGTEST
  end.

Definition allows_min_difficulty {B : BitcoinCrate} (n : Network) : bool :=
  enforces_pow n && allow_min_difficulty_blocks (as_bitcoin_params n).

Definition pow_limit_bits {B : BitcoinCrate} (n : Network) : Z :=
  max_attainable_bits (as_bitcoin_params n).

(** ** Errors *)

Inductive SpvError : Type :=
| HeaderParse (index : Z) (message : string)
| ChainLinkage (height : Z)
| PowFailed (height : Z)
| BitsMismatch (height got expected : Z)
| NonContiguous (got tip : Z)
| BelowCheckpoint (got checkpoint : Z)
| ReorgTooDeep (depth max : Z)
| WeakerChain
| BatchTooLarge (len max : Z)
| ChainTooLong (len max : Z)
| Timewarp (height time prev_time : Z)
| TimeTooNew (height time now : Z)
| TimeTooOld (height time median_time_past : Z)
| HeaderNotFound (height : Z)
| CheckpointPlaceholder.

(** ** Checkpoints *)

Record Checkpoint : Type := {
  cp_height : Z;
  cp_hash : bytes;
  cp_bits : Z;
  cp_time : Z;
  cp_is_real : bool;
  cp_chain_work : option bytes
}.

Definition MAINNET_CHECKPOINT : Checkpoint := {|
  cp_height := 951552;
  cp_hash :=
    [x64; xbb; x14; xbd; xb8; x12; x9e; xe3; x4b; xb1; x9f; x60; x86; x82; x8c;
      x14; x86; x2f; x92; xf1; x72; xb4; x01; x00; x00; x00; x00; x00; x00;
      x00; x00; x00];
  cp_bits := 0x1702068f;
  cp_time := 1780050586;
  cp_is_real := true;
  cp_chain_work :=
    Some [x00; x00; x00; x00; x00; x00; x00; x00; x00; x00; x00; x00; x00; x00;
      x00; x00; x00; x00; x00; x01; x2b; xc5; x2b; x13; xac; x6c; x5e; xd1;
      x70; x41; x49; xf2] |}.

Definition SIGNET_CHECKPOINT : Checkpoint := {|
  cp_height := 334000;
  cp_hash :=
    [x66; xeb; x3a; x9f; xc3; xa2; xc6; x39; x83; x9c; xf2; xc8; x90; x51; xb6;
      x4f; x4b; x16; x2e; x95; x59; xf8; x3b; x6d; xa2; xb8; xcc; x5f; xac;
      x00; x00; x00];
  cp_bits := 0x1e0377ae;
  cp_time := 1780464472;
  cp_is_real := true;
  cp_chain_work :=
    None |}.

Definition TESTNET3_CHECKPOINT : Checkpoint := {|
  cp_height := 0;
  cp_hash :=
    replicate 32 x00;
  cp_bits := 0;
  cp_time := 0;
  cp_is_real := false;
  cp_chain_work :=
    None |}.

Definition TESTNET4_CHECKPOINT : Checkpoint := {|
  cp_height := 155232;
  cp_hash :=
    [x5b; x34; x40; x2d; x57; x0e; xb4; x29; x96; x97; x99; xfe; x0d; xc8; xd2;
      x22; x8b; x40; x75; x01; xb9; xc5; x4d; x31; x02; x00; x00; x00; x00;
      x00; x00; x00];
  cp_bits := 0x19037e43;
  cp_time := 1791203299;
  cp_is_real := true;
  cp_chain_work :=
    None |}.

Definition REGTEST_CHECKPOINT : Checkpoint := {|
  cp_height := 0;
  cp_hash :=
    [x06; x22; x6e; x46; x11; x1a; x0b; x59; xca; xaf; x12; x60; x43; xeb; x5b;
      xbf; x28; xc3; x4f; x3a; x5e; x33; x2a; x1f; xc7; xb2; xb7; x3c; xf1;
      x88; x91; x0f];
  cp_bits := 0x207fffff;
  cp_time := 1296688602;
  cp_is_real := true;
  cp_chain_work :=
    Some [x00; x00; x00; x00; x00; x00; x00; x00; x00; x00; x00; x00; x00; x00;
      x00; x00; x00; x00; x00; x00; x00; x00; x00; x00; x00; x00; x00; x00;
      x00; x00; x00; x02] |}.
Definition checkpoint_for (n : Network) : Checkpoint :=
  match n with
  | Mainnet => MAINNET_CHECKPOINT
  | Signet | SignetCustom => SIGNET_CHECKPOINT
  | Testnet3 => TESTNET3_CHECKPOINT
  | Testnet4 => TESTNET4_CHECKPOINT
  | Regtest => REGTEST_CHECKPOINT
  end.

(** The [cfg!] switches the checkpoint code reads. *)
Record BuildCfg : Type := {
  debug_assertions : bool;
  cfg_test : bool;
  allow_seed_import : bool
}.

(** [checkpoint_override_allowed]: also the exemption of
    [assert_real_in_release]. *)
Definition checkpoint_override_allowed (b : BuildCfg) : bool :=
  debug_assertions b || cfg_test b || allow_seed_import b.

Definition assert_real_in_release (b : BuildCfg) (c : Checkpoint) : res string unit :=
  if debug_assertions b || cfg_test b || allow_seed_import b then Ok tt
  else if negb (cp_is_real c) then
    Err "SPV checkpoint is a placeholder - refuse to start a release build"
  else Ok tt.

(** Bitcoin's retarget interval (validation.rs). *)
Definition RETARGET_INTERVAL : Z := 2016.

(** [height.is_multiple_of(RETARGET_INTERVAL)]. *)
Definition is_retarget_height (height : Z) : bool :=
  height mod RETARGET_INTERVAL =? 0.

Definition assert_retarget_aligned (c : Checkpoint) (n : Network) : res string unit :=
  if enforces_pow n && negb (is_retarget_height (cp_height c)) then
    Err "SPV checkpoint is not on a retarget boundary"
  else Ok tt.

(** A checkpoint as the type system keeps it: unsigned 32-bit fields. *)
Definition checkpoint_typed (c : Checkpoint) : Prop :=
  is_u32 (cp_height c) /\ is_u32 (cp_bits c) /\ is_u32 (cp_time c).

Lemma checkpoint_for_typed (n : Network) : checkpoint_typed (checkpoint_for n).
Proof. by destruct n; vm_compute. Qed.

Lemma checkpoint_for_aligned (n : Network) :
  assert_retarget_aligned (checkpoint_for n) n = Ok tt.
Proof. by destruct n. Qed.
