(* ===== verification/SpvValidation.v ===== *)
(** * Header rules (src/enclave/src/networks/rgb/spv/validation.rs)

    The per-header checks: linkage, BIP94 timewarp, the clock bound, the
    median time past, [nBits] and proof of work.  They hold no chain state. *)

From stdpp Require Import sorting base numbers list list_numbers.
From S2P Require Import Prelude Errors SpvTypes.

Definition MAX_TIMEWARP_SECS : Z := 600.
Definition MAX_FUTURE_BLOCK_TIME_SECS : Z := 2 * 60 * 60.
Definition MEDIAN_TIME_SPAN : Z := 11.

Section Rules.
Context {B : BitcoinCrate}.

Definition check_linkage (h : Header) (expected_prev_hash : bytes) (height : Z)
    : res SpvError unit :=
  if bool_decide (prev_blockhash h = expected_prev_hash) then Ok tt
  else Err (ChainLinkage height).

Definition check_pow (h : Header) (height : Z) (n : Network) : res SpvError unit :=
  if negb (enforces_pow n) then Ok tt
  else if validate_pow h then Ok tt
  else Err (PowFailed height).

(** What the [nBits] rule reads from the chain below the header. *)
Record BitsInput : Type := {
  bi_height : Z;
  bi_header_time : Z;
  bi_prev_bits : Z;
  bi_prev_time : Z;
  bi_period_bits : Z;
  bi_epoch_first_bits : Z;
  bi_epoch_first_time : Z
}.

Definition expected_bits (input : BitsInput) (n : Network) : option Z :=
  if negb (enforces_pow n) then None
  else
    let params := as_bitcoin_params n in
    if negb (is_retarget_height (bi_height input)) then
      if negb (allows_min_difficulty n) then Some (bi_prev_bits input)
      else
        let min_difficulty_after :=
          wrap64 (bi_prev_time input + wrap64 (2 * pow_target_spacing params)) in
        if min_difficulty_after <? bi_header_time input then Some (pow_limit_bits n)
        else Some (bi_period_bits input)
    else
      let base := if bip94 n then bi_epoch_first_bits input else bi_prev_bits input in
      let actual_timespan := sat_sub (bi_prev_time input) (bi_epoch_first_time input) in
      Some (from_next_work_required base actual_timespan params).

Definition check_timewarp (height time prev_time : Z) (n : Network) : res SpvError unit :=
  if negb (bip94 n) || negb (is_retarget_height height) then Ok tt
  else if wrap64 (time + MAX_TIMEWARP_SECS) <? prev_time then
    Err (Timewarp height time prev_time)
  else Ok tt.

Definition check_future_time (height time now_unix : Z) : res SpvError unit :=
  if sat_add64 now_unix MAX_FUTURE_BLOCK_TIME_SECS <? time then
    Err (TimeTooNew height time now_unix)
  else Ok tt.

(** [times.sort_unstable(); times[times.len() / 2]]; indexing an empty slice
    panics. *)
Definition median_time_past (times : list Z) : res SpvError Z :=
  expect (merge_sort Z.le times !! (length times / 2)%nat).

Definition check_time_too_old (height time : Z) (mtp : option Z) : res SpvError unit :=
  match mtp with
  | Some m => if time <=? m then Err (TimeTooOld height time m) else Ok tt
  | None => Ok tt
  end.

Record Predecessor : Type := { pred_hash : bytes; pred_time : Z }.

Definition validate_header_full (h : Header) (height : Z) (prev : Predecessor)
    (mtp : option Z) (expected_bits_value : option Z) (n : Network) (now_unix : Z)
    : res SpvError unit :=
  let? _ := check_linkage h (pred_hash prev) height in
  let? _ := check_timewarp height (time h) (pred_time prev) n in
  let? _ := check_future_time height (time h) now_unix in
  let? _ := check_time_too_old height (time h) mtp in
  let? _ :=
    match expected_bits_value with
    | Some expected =>
        if negb (bits h =? expected) then Err (BitsMismatch height (bits h) expected)
        else Ok tt
    | None => Ok tt
    end in
  check_pow h height n.

End Rules.

(** ** What an accepted header satisfies *)

(** The rules of one header, as propositions. *)
Record header_rules {B : BitcoinCrate} (h : Header) (height : Z) (prev : Predecessor)
    (mtp expected : option Z) (n : Network) (now_unix : Z) : Prop := {
  hr_link : prev_blockhash h = pred_hash prev;
  hr_timewarp : bip94 n = true -> is_retarget_height height = true ->
    pred_time prev <= time h + MAX_TIMEWARP_SECS;
  hr_future : time h <= now_unix + MAX_FUTURE_BLOCK_TIME_SECS;
  hr_mtp : forall m, mtp = Some m -> m < time h;
  hr_bits : forall e, expected = Some e -> bits h = e;
  hr_pow : enforces_pow n = true -> validate_pow h = true
}.

(** Core's median of a window, as a specification: [m] is a member, at most
    half of the window is below it and at most half above it (counting the
    lower half as the smaller one). *)
Definition is_median (m : Z) (window : list Z) : Prop :=
  exists lower upper : list Z,
    window ≡ₚ lower ++ m :: upper /\
    length lower = (length window / 2)%nat /\
    Forall (fun t => t <= m) lower /\ Forall (fun t => m <= t) upper.

Section Facts.
Context {B : BitcoinCrate} {L : BitcoinCrateLaws B}.

Lemma median_time_past_nonempty (times : list Z) :
  times <> [] -> exists m, median_time_past times = Ok m.
Proof.
  intros Hne. unfold median_time_past.
  destruct (lookup_lt_is_Some_2 (merge_sort Z.le times) (length times / 2)) as [m Hm].
  - rewrite (Permutation_length (merge_sort_Permutation Z.le times)).
    destruct times as [|t ts]; [done|]. cbn [length].
    apply Nat.div_lt; lia.
  - exists m. by rewrite Hm.
Qed.

Lemma median_time_past_is_median (times : list Z) (m : Z) :
  median_time_past times = Ok m -> is_median m times.
Proof.
  unfold median_time_past, expect. intros H.
  destruct (merge_sort Z.le times !! _) as [m'|] eqn:E; [|done].
  injection H as ->.
  pose proof (StronglySorted_merge_sort Z.le times) as Hs.
  pose proof (merge_sort_Permutation Z.le times) as Hp.
  exists (take (length times / 2) (merge_sort Z.le times)),
    (drop (S (length times / 2)) (merge_sort Z.le times)).
  pose proof (take_drop_middle _ _ _ E) as Hmid.
  assert (Hlen : length (take (length times / 2) (merge_sort Z.le times))
                 = (length times / 2)%nat).
  { rewrite length_take, (Permutation_length Hp). apply lookup_lt_Some in E.
    rewrite (Permutation_length Hp) in E. lia. }
  rewrite Hmid. split; [by symmetry|]. split; [done|].
  rewrite <- Hmid in Hs at 1. apply StronglySorted_app in Hs as (Hcross & _ & Hs2).
  apply StronglySorted_inv in Hs2 as [_ Hup]. split; [|done].
  apply Forall_forall. intros t Ht. apply Hcross; [done|]. apply list_elem_of_here.
Qed.

(** A window has one median, and the code finds it. *)
Lemma is_median_median_time_past (times : list Z) (m : Z) :
  is_median m times -> median_time_past times = Ok m.
Proof.
  intros (lower & upper & Hp & Hlen & Hlo & Hup). unfold median_time_past.
  assert (merge_sort Z.le times = merge_sort Z.le lower ++ m :: merge_sort Z.le upper) as ->.
  { apply (StronglySorted_unique Z.le); [apply StronglySorted_merge_sort; apply _| |].
    - apply StronglySorted_app. split_and!.
      + intros x y Hx Hy. rewrite merge_sort_Permutation in Hx.
        apply (proj1 (Forall_forall _ _)) with (x := x) in Hlo; [|done].
        apply elem_of_cons in Hy as [->|Hy]; [done|].
        rewrite merge_sort_Permutation in Hy.
        apply (proj1 (Forall_forall _ _)) with (x := y) in Hup; [|done]. lia.
      + apply StronglySorted_merge_sort; apply _.
      + constructor; [apply StronglySorted_merge_sort; apply _|].
        by rewrite merge_sort_Permutation.
    - by rewrite !merge_sort_Permutation. }
  rewrite <- Hlen, <- (Permutation_length (merge_sort_Permutation Z.le lower)).
  by rewrite list_lookup_middle.
Qed.

Lemma median_time_past_perm (t1 t2 : list Z) :
  t1 ≡ₚ t2 -> median_time_past t1 = median_time_past t2.
Proof.
  intros Hp. unfold median_time_past.
  assert (merge_sort Z.le t1 = merge_sort Z.le t2) as ->.
  { apply (StronglySorted_unique Z.le); try apply StronglySorted_merge_sort; try apply _.
    by rewrite !merge_sort_Permutation. }
  by rewrite (Permutation_length Hp).
Qed.

Lemma time_plus_timewarp (h : Header) :
  wrap64 (time h + MAX_TIMEWARP_SECS) = time h + MAX_TIMEWARP_SECS.
Proof. apply wrap64_small. destruct (time_u32 h). unfold is_u64, MAX_TIMEWARP_SECS. lia. Qed.

Lemma check_timewarp_ok (h : Header) (height prev_time : Z) (n : Network) :
  check_timewarp height (time h) prev_time n = Ok tt <->
  (bip94 n = true -> is_retarget_height height = true ->
   prev_time <= time h + MAX_TIMEWARP_SECS).
Proof.
  unfold check_timewarp. rewrite time_plus_timewarp.
  destruct (bip94 n), (is_retarget_height height); cbn [negb orb];
    rewrite ?refuse_ok, ?Z.ltb_ge; naive_solver.
Qed.

Lemma check_future_time_ok (h : Header) (height now_unix : Z) :
  check_future_time height (time h) now_unix = Ok tt <->
  time h <= now_unix + MAX_FUTURE_BLOCK_TIME_SECS.
Proof.
  unfold check_future_time. rewrite refuse_ok, Z.ltb_ge.
  pose proof (time_u32 h). unfold sat_add64, u64_max, is_u32 in *. lia.
Qed.

Lemma check_time_too_old_ok (height t : Z) (mtp : option Z) :
  check_time_too_old height t mtp = Ok tt <-> (forall m, mtp = Some m -> m < t).
Proof.
  destruct mtp as [m|]; cbn [check_time_too_old]; [|naive_solver].
  rewrite refuse_ok, Z.leb_gt. naive_solver.
Qed.

Lemma check_pow_ok (h : Header) (height : Z) (n : Network) :
  check_pow h height n = Ok tt <-> (enforces_pow n = true -> validate_pow h = true).
Proof. unfold check_pow. destruct (enforces_pow n), (validate_pow h); naive_solver. Qed.

(** [validate_header_full] accepts exactly the headers that satisfy the rules;
    the clock bound saturates at [u64::MAX], above every [u32] time. *)
Lemma validate_header_full_iff (h : Header) (height : Z) (prev : Predecessor)
    (mtp expected : option Z) (n : Network) (now_unix : Z) :
  validate_header_full h height prev mtp expected n now_unix = Ok tt <->
  header_rules h height prev mtp expected n now_unix.
Proof.
  unfold validate_header_full, check_linkage.
  rewrite !rbind_unit_ok, require_ok, bool_decide_eq_true, check_timewarp_ok,
    check_future_time_ok, check_time_too_old_ok, check_pow_ok.
  assert (Hb : match expected with
               | Some e => if negb (bits h =? e) then Err (BitsMismatch height (bits h) e)
                           else Ok tt
               | None => Ok tt
               end = Ok tt <-> (forall e, expected = Some e -> bits h = e)).
  { destruct expected as [e|]; [|naive_solver].
    rewrite refuse_ok, negb_false_iff, Z.eqb_eq. naive_solver. }
  rewrite Hb. split.
  - intros (?&?&?&?&?&?). by constructor.
  - intros []. by split_and!.
Qed.

Lemma validate_header_full_no_panic (h : Header) (height : Z) (prev : Predecessor)
    (mtp expected : option Z) (n : Network) (now_unix : Z) :
  validate_header_full h height prev mtp expected n now_unix <> Panic.
Proof.
  unfold validate_header_full, check_linkage, check_timewarp, check_future_time,
    check_time_too_old, check_pow.
  repeat (case_match; cbn [rbind]; try discriminate).
Qed.
End Facts.
