(* ===== verification/SpvChain.v ===== *)
(** * The header chain (src/enclave/src/networks/rgb/spv/chain.rs)

    [HeaderChain] and its operations, in particular [submit_headers]: batch
    extension and bounded reorg of the in-memory chain above a checkpoint. *)

From stdpp Require Import sorting base numbers list list_numbers.
From S2P Require Import Prelude Errors SpvTypes SpvValidation.

Definition MAX_REORG_DEPTH : Z := 100.
Definition MAX_STORED_HEADERS : Z := 1000000.
Definition MAX_HEADERS_PER_SUBMIT : Z := 10000.

Record SubmitOutcome : Type := {
  last_block_height : Z;
  last_block_hash : bytes;
  headers_accepted : Z;
  reorg_depth : Z
}.

Section Chain.
Context {B : BitcoinCrate}.

Record HeaderChain : Type := {
  hc_network : Network;
  hc_checkpoint : Checkpoint;
  hc_base_height : Z;
  hc_base_hash : bytes;
  hc_base_bits : Z;
  hc_base_time : Z;
  hc_headers : list Header;
  hc_hashes : list bytes;
  hc_max_stored_headers : Z
}.

(** [HeaderChain::new]. *)
Definition new_chain (n : Network) (cp : Checkpoint) : HeaderChain := {|
  hc_network := n;
  hc_checkpoint := cp;
  hc_base_height := cp_height cp;
  hc_base_hash := cp_hash cp;
  hc_base_bits := cp_bits cp;
  hc_base_time := cp_time cp;
  hc_headers := [];
  hc_hashes := [];
  hc_max_stored_headers := MAX_STORED_HEADERS
|}.

Definition set_headers (c : HeaderChain) (hs : list Header) (hashes : list bytes)
    : HeaderChain := {|
  hc_network := hc_network c;
  hc_checkpoint := hc_checkpoint c;
  hc_base_height := hc_base_height c;
  hc_base_hash := hc_base_hash c;
  hc_base_bits := hc_base_bits c;
  hc_base_time := hc_base_time c;
  hc_headers := hs;
  hc_hashes := hashes;
  hc_max_stored_headers := hc_max_stored_headers c
|}.

Definition tip_height (c : HeaderChain) : Z :=
  wrap32 (hc_base_height c + wrap32 (zlen (hc_headers c))).

Definition tip_hash (c : HeaderChain) : bytes :=
  match last (hc_hashes c) with
  | Some h => h
  | None => cp_hash (hc_checkpoint c)
  end.

Definition tip_time (c : HeaderChain) : Z :=
  match last (hc_headers c) with
  | Some h => time h
  | None => cp_time (hc_checkpoint c)
  end.

Definition header_at (c : HeaderChain) (height : Z) : option Header :=
  if height <=? hc_base_height c then None
  else hc_headers c !! Z.to_nat (wrap32 (height - hc_base_height c - 1)).

Definition hash_at (c : HeaderChain) (height : Z) : option bytes :=
  if height =? hc_base_height c then Some (hc_base_hash c)
  else if height <? hc_base_height c then None
  else hc_hashes c !! Z.to_nat (wrap32 (height - hc_base_height c - 1)).

Definition confirmations (c : HeaderChain) (height cap : Z) : Z :=
  match header_at c height with
  | None => 0
  | Some _ => Z.min (wrap32 (tip_height c - height + 1)) cap
  end.

(** [HeaderChain::block_at]: the staged batch first, then the committed chain,
    then the checkpoint. *)
Definition block_at (c : HeaderChain) (height batch_start_height : Z)
    (staged : list (Header * bytes)) : res SpvError (Z * Z) :=
  let staged_header :=
    if height <? batch_start_height then None
    else fst <$> staged !! Z.to_nat (height - batch_start_height) in
  let found :=
    match staged_header with
    | Some h => Some h
    | None => header_at c height
    end in
  match found with
  | Some h => Ok (time h, bits h)
  | None =>
      if height =? hc_base_height c then Ok (hc_base_time c, hc_base_bits c)
      else Err (HeaderNotFound height)
  end.

Definition bits_input (c : HeaderChain) (height header_time prev_bits prev_time : Z)
    (batch_start_height : Z) (staged : list (Header * bytes)) : res SpvError BitsInput :=
  let input := fun period_bits first_bits first_time => {|
    bi_height := height;
    bi_header_time := header_time;
    bi_prev_bits := prev_bits;
    bi_prev_time := prev_time;
    bi_period_bits := period_bits;
    bi_epoch_first_bits := first_bits;
    bi_epoch_first_time := first_time |} in
  if is_retarget_height height then
    let? first :=
      ok_or (if height <? RETARGET_INTERVAL then None else Some (height - RETARGET_INTERVAL))
        (HeaderNotFound 0) in
    let? (t, b) := block_at c first batch_start_height staged in
    Ok (input 0 b t)
  else if allows_min_difficulty (hc_network c) then
    let period_start := height - height mod RETARGET_INTERVAL in
    let? (_, b) := block_at c period_start batch_start_height staged in
    Ok (input b 0 0)
  else Ok (input 0 0 0).

Definition median_time_past_below (c : HeaderChain) (height batch_start_height : Z)
    (staged : list (Header * bytes)) : res SpvError (option Z) :=
  let first := sat_sub height MEDIAN_TIME_SPAN in
  if first <? hc_base_height c then Ok None
  else
    let? times :=
      rmapM (fun h => let? (t, _) := block_at c h batch_start_height staged in Ok t)
        (seqZ first (height - first)) in
    let? m := median_time_past times in
    Ok (Some m).

(** [sum_work]: [None] when empty. *)
Definition sum_work (headers : list Header) : option Z :=
  match headers with
  | [] => None
  | h :: hs => Some (fold_left (fun acc h => work_add acc (work h)) hs (work h))
  end.

(** The staging loop of [submit_headers]: the [i]-th header of the batch, with
    [pred] the block below the batch. *)
Fixpoint stage_headers (c : HeaderChain) (start_height : Z) (pred : bytes * Z * Z)
    (now_unix : Z) (i : Z) (raw_headers : list bytes) (staged : list (Header * bytes))
    : res SpvError (list (Header * bytes)) :=
  match raw_headers with
  | [] => Ok staged
  | raw :: rest =>
      match deserialize_header raw with
      | inr message => Err (HeaderParse i message)
      | inl header =>
          let height := wrap32 (start_height + wrap32 i) in
          let '(prev_hash, prev_bits, prev_time) :=
            match last staged with
            | Some (prev_h, prev_hash) => (prev_hash, bits prev_h, time prev_h)
            | None => pred
            end in
          let? expected_bits_value :=
            if enforces_pow (hc_network c) then
              let? input :=
                bits_input c height (time header) prev_bits prev_time start_height staged in
              Ok (expected_bits input (hc_network c))
            else Ok None in
          let? mtp := median_time_past_below c height start_height staged in
          let? _ :=
            validate_header_full header height
              {| pred_hash := prev_hash; pred_time := prev_time |}
              mtp expected_bits_value (hc_network c) now_unix in
          stage_headers c start_height pred now_unix (i + 1) rest
            (staged ++ [(header, block_hash header)])
      end
  end.

(** [HeaderChain::submit_headers]: the chain after the call and its result. *)
Definition submit_headers (c : HeaderChain) (start_height : Z) (raw_headers : list bytes)
    (now_unix : Z) : HeaderChain * res SpvError SubmitOutcome :=
  let tip := tip_height c in
  if MAX_HEADERS_PER_SUBMIT <? zlen raw_headers then
    (c, Err (BatchTooLarge (zlen raw_headers) MAX_HEADERS_PER_SUBMIT))
  else if zlen raw_headers =? 0 then
    (c, Ok {| last_block_height := tip; last_block_hash := tip_hash c;
              headers_accepted := 0; reorg_depth := 0 |})
  else if start_height <=? cp_height (hc_checkpoint c) then
    (c, Err (BelowCheckpoint start_height (cp_height (hc_checkpoint c))))
  else if wrap32 (tip + 1) <? start_height then
    (c, Err (NonContiguous start_height tip))
  else
    let depth := sat_sub (wrap32 (tip + 1)) start_height in
    if MAX_REORG_DEPTH <? depth then (c, Err (ReorgTooDeep depth MAX_REORG_DEPTH))
    else
      let retained_below_batch := wrap32 (start_height - 1 - hc_base_height c) in
      let projected_len := retained_below_batch + zlen raw_headers in
      if hc_max_stored_headers c <? projected_len then
        (c, Err (ChainTooLong projected_len (hc_max_stored_headers c)))
      else
        let pred_height := start_height - 1 in
        let staged :=
          let? pred :=
            if pred_height =? hc_base_height c then
              Ok (hc_base_hash c, hc_base_bits c, hc_base_time c)
            else
              let? h := ok_or (header_at c pred_height) (HeaderNotFound pred_height) in
              let? hash := ok_or (hash_at c pred_height) (HeaderNotFound pred_height) in
              Ok (hash, bits h, time h) in
          stage_headers c start_height pred now_unix 0 raw_headers [] in
        match staged with
        | Err e => (c, Err e)
        | Panic => (c, Panic)
        | Ok staged =>
            let truncate_idx := Z.to_nat (wrap32 (pred_height - hc_base_height c)) in
            let weaker :=
              if 0 <? depth then
                let? existing := expect (slice_from (hc_headers c) truncate_idx) in
                let? existing_work := expect (sum_work existing) in
                let? new_work := expect (sum_work (fst <$> staged)) in
                Ok (new_work <=? existing_work)
              else Ok false in
            match weaker with
            | Err e => (c, Err e)
            | Panic => (c, Panic)
            | Ok true => (c, Err WeakerChain)
            | Ok false =>
                let kept :=
                  if 0 <? depth then
                    set_headers c (take truncate_idx (hc_headers c))
                      (take truncate_idx (hc_hashes c))
                  else c in
                let c' :=
                  set_headers kept (hc_headers kept ++ (fst <$> staged))
                    (hc_hashes kept ++ (snd <$> staged)) in
                (c', Ok {| last_block_height := tip_height c';
                           last_block_hash := tip_hash c';
                           headers_accepted := wrap32 (zlen staged);
                           reorg_depth := depth |})
            end
        end.

End Chain.
