(* ===== verification/SpvConcrete.v ===== *)
(** * A concrete instance of the [bitcoin] crate interface

    Seven-byte headers with one-byte hashes: small enough to evaluate the chain
    operations in the examples, and a proof that the laws of [BitcoinCrateLaws]
    can hold together. *)

From stdpp Require Import base list strings.
From S2P Require Import Prelude Errors SpvTypes SpvChain.

Record small_header : Type := {
  sh_prev : byte;
  sh_time : bytes;
  sh_bits : byte;
  sh_id : byte
}.

Definition small_deserialize (raw : bytes) : small_header + string :=
  match raw with
  | [p; t3; t2; t1; t0; b; i] =>
      inl {| sh_prev := p; sh_time := [t3; t2; t1; t0]; sh_bits := b; sh_id := i |}
  | _ => inr "bad length"%string
  end.

#[export] Instance small_crate : BitcoinCrate := {|
  Header := small_header;
  Params := bool;
  deserialize_header := small_deserialize;
  prev_blockhash := fun h => [sh_prev h];
  header_merkle_root := fun h => [sh_id h];
  time := fun h => be_combine (sh_time h) mod 2 ^ 32;
  bits := fun h => b2z (sh_bits h);
  block_hash := fun h => [sh_id h];
  validate_pow := fun h => b2z (sh_id h) <? 200;
  work := fun h => 1 + b2z (sh_bits h);
  work_add := fun a b => (a + b) mod 2 ^ 256;
  from_next_work_required := fun base _ _ => base;
  MAINNET := false;
  SIGNET := false;
  TESTNET3 := true;
  TESTNET4 := true;
  REGTEST := true;
  pow_target_spacing := fun _ => 600;
  allow_min_difficulty_blocks := fun b => b;
  max_attainable_bits := fun _ => 255
|}.

#[export] Instance small_crate_laws : BitcoinCrateLaws small_crate.
Proof.
  constructor; try done.
  - intros h. apply Z.mod_pos_bound. done.
  - intros h. change (0 <= 1 + b2z (sh_bits h)). pose proof (b2z_range (sh_bits h)). lia.
  - intros a b Ha Hb Hab. apply Z.mod_small. lia.
Qed.

(** A header with predecessor [p], time [t], bits [b] and hash [i]. *)
Definition raw_header (p : byte) (t : Z) (b i : byte) : bytes :=
  p :: be_split 4 t ++ [b; i].

Definition small_checkpoint : Checkpoint := {|
  cp_height := 2016;
  cp_hash := [x00];
  cp_bits := 7;
  cp_time := 10000;
  cp_is_real := true;
  cp_chain_work := None
|}.

(** Three blocks above the checkpoint, and a longer branch from the first. *)
Definition small_chain (n : Network) : HeaderChain :=
  fst (submit_headers (new_chain n small_checkpoint) 2017
         [raw_header x00 10600 x07 x01; raw_header x01 11200 x07 x02;
          raw_header x02 11800 x07 x03] 20000).

Definition small_fork : list bytes :=
  [raw_header x01 11300 x07 x12; raw_header x12 11900 x07 x13; raw_header x13 12500 x07 x14].

Example small_chain_accepted :
  tip_height (small_chain Mainnet) = 2019 /\
  tip_hash (fst (submit_headers (small_chain Mainnet) 2018 small_fork 20000)) = [x14].
Proof. by vm_compute. Qed.
