(* ===== verification/SpvChainSpec.v ===== *)
(** * What a header chain is: consensus validity above the checkpoint

    The reference semantics of the header chain: a list of headers is valid
    above a checkpoint when each header satisfies the consensus rules judged
    against the headers below it, with no notion of batches or reorgs.  The
    lemmas show that [stage_headers] reads exactly that context. *)

From stdpp Require Import sorting base numbers list list_numbers.
From S2P Require Import Prelude Errors SpvTypes SpvValidation SpvChain.

Section Spec.
Context {B : BitcoinCrate}.

(** [(time, bits)] of the block at [height] in the chain made of the
    checkpoint of [c] and the headers [below]. *)
Definition block_below (c : HeaderChain) (below : list Header) (height : Z)
    : option (Z * Z) :=
  if height =? hc_base_height c then Some (hc_base_time c, hc_base_bits c)
  else if height <? hc_base_height c then None
  else (fun h => (time h, bits h)) <$> below !! Z.to_nat (height - hc_base_height c - 1).

(** The height of the block on top of [below]. *)
Definition next_height (c : HeaderChain) (below : list Header) : Z :=
  hc_base_height c + 1 + zlen below.

(** Hash, bits and time of the top block. *)
Definition top_block (c : HeaderChain) (below : list Header) : bytes * Z * Z :=
  match last below with
  | Some h => (block_hash h, bits h, time h)
  | None => (hc_base_hash c, hc_base_bits c, hc_base_time c)
  end.

(** The times of the median-time-past window under the next block. *)
Definition window_below (c : HeaderChain) (below : list Header) : option (list Z) :=
  let height := next_height c below in
  let first := sat_sub height MEDIAN_TIME_SPAN in
  if first <? hc_base_height c then None
  else Some (fst <$> omap (block_below c below) (seqZ first (height - first))).

(** The [nBits] consensus requires of the next block, dated [t]. *)
Definition required_bits (c : HeaderChain) (below : list Header) (t : Z) : option Z :=
  let height := next_height c below in
  let '(_, prev_bits, prev_time) := top_block c below in
  let params := as_bitcoin_params (hc_network c) in
  if is_retarget_height height then
    match block_below c below (height - RETARGET_INTERVAL) with
    | Some (first_time, first_bits) =>
        Some (from_next_work_required (if bip94 (hc_network c) then first_bits else prev_bits)
                (sat_sub prev_time first_time) params)
    | None => None
    end
  else if allows_min_difficulty (hc_network c) then
    match block_below c below (height - height mod RETARGET_INTERVAL) with
    | Some (_, period_bits) =>
        Some (if prev_time + 1200 <? t then pow_limit_bits (hc_network c) else period_bits)
    | None => None
    end
  else Some prev_bits.

(** The consensus rules of the block [h] on top of [below], at clock [now]. *)
Record header_ok (c : HeaderChain) (below : list Header) (h : Header) (now : Z) : Prop := {
  ho_link : prev_blockhash h = fst (fst (top_block c below));
  ho_timewarp :
    bip94 (hc_network c) = true -> is_retarget_height (next_height c below) = true ->
    snd (top_block c below) <= time h + MAX_TIMEWARP_SECS;
  ho_future : time h <= now + MAX_FUTURE_BLOCK_TIME_SECS;
  ho_mtp : forall w m, window_below c below = Some w -> is_median m w -> m < time h;
  ho_bits : enforces_pow (hc_network c) = true ->
    required_bits c below (time h) = Some (bits h);
  ho_pow : enforces_pow (hc_network c) = true -> validate_pow h = true
}.

(** Chains built block by block, every block valid on the blocks below it. *)
Inductive valid_chain (c : HeaderChain) : list Header -> Prop :=
| valid_nil : valid_chain c []
| valid_snoc hs h now :
    valid_chain c hs -> header_ok c hs h now -> valid_chain c (hs ++ [h]).

(** Well-formedness of the stored chain: the base is the checkpoint, the cached
    hashes are those of the headers, the retention cap holds and no [u32]
    height can wrap. *)
Record chain_wf (c : HeaderChain) : Prop := {
  wf_height : hc_base_height c = cp_height (hc_checkpoint c);
  wf_hash : hc_base_hash c = cp_hash (hc_checkpoint c);
  wf_bits : hc_base_bits c = cp_bits (hc_checkpoint c);
  wf_time : hc_base_time c = cp_time (hc_checkpoint c);
  wf_time_u32 : is_u32 (hc_base_time c);
  wf_hashes : hc_hashes c = block_hash <$> hc_headers c;
  wf_len : zlen (hc_headers c) <= hc_max_stored_headers c;
  wf_base : 0 <= hc_base_height c;
  wf_room : hc_base_height c + hc_max_stored_headers c + 1 < 2 ^ 32
}.

(** The invariant of the chain. *)
Definition chain_inv (c : HeaderChain) : Prop :=
  chain_wf c /\ valid_chain c (hc_headers c).

(** A staged batch of the headers [hs]. *)
Definition stage (hs : list Header) : list (Header * bytes) :=
  (fun h => (h, block_hash h)) <$> hs.

(** The headers a batch at [start_height] is put on. *)
Definition kept_headers (c : HeaderChain) (start_height : Z) : list Header :=
  take (Z.to_nat (start_height - 1 - hc_base_height c)) (hc_headers c).

End Spec.

Section Facts.
Context {B : BitcoinCrate} {L : BitcoinCrateLaws B}.

Lemma stage_app (h k : list Header) : stage (h ++ k) = stage h ++ stage k.
Proof. apply fmap_app. Qed.

Lemma stage_fst (h : list Header) : fst <$> stage h = h.
Proof. unfold stage. rewrite <- list_fmap_compose. apply list_fmap_id. Qed.

Lemma stage_snd (h : list Header) : snd <$> stage h = block_hash <$> h.
Proof. unfold stage. by rewrite <- list_fmap_compose. Qed.

Lemma stage_zlen (h : list Header) : zlen (stage h) = zlen h.
Proof. unfold stage, zlen. by rewrite length_fmap. Qed.

(** A batch start that the guards of [submit_headers] let through. *)
Definition start_ok (c : HeaderChain) (start : Z) : Prop :=
  hc_base_height c < start <= hc_base_height c + zlen (hc_headers c) + 1.

Lemma kept_zlen c start :
  start_ok c start -> zlen (kept_headers c start) = start - 1 - hc_base_height c.
Proof.
  intros [H1 H2]. unfold kept_headers, zlen in *. rewrite length_take. lia.
Qed.

Lemma tip_height_eq c : chain_wf c -> tip_height c = hc_base_height c + zlen (hc_headers c).
Proof.
  intros W. destruct W. unfold tip_height.
  pose proof (zlen_nonneg (hc_headers c)).
  rewrite (wrap32_small (zlen _)), wrap32_small; unfold is_u32; lia.
Qed.

Lemma header_at_eq c k :
  chain_wf c -> hc_base_height c < k < 2 ^ 32 ->
  header_at c k = hc_headers c !! Z.to_nat (k - hc_base_height c - 1).
Proof.
  intros W Hk. destruct W. unfold header_at.
  destruct (k <=? hc_base_height c) eqn:E; zbool; [lia|].
  rewrite wrap32_small; [done|]. unfold is_u32. lia.
Qed.

(** The lookup of [block_at] is the lookup in the chain as it will be: the
    kept headers followed by the staged ones. *)
Lemma block_at_spliced c start hs k :
  chain_wf c -> start_ok c start -> k < start + zlen hs -> start + zlen hs < 2 ^ 32 ->
  block_at c k start (stage hs) =
  ok_or (block_below c (kept_headers c start ++ hs) k) (HeaderNotFound k).
Proof.
  intros W Hs Hk Hr. pose proof (kept_zlen c start Hs) as Hkl.
  assert (Hln : length (kept_headers c start) = Z.to_nat (start - 1 - hc_base_height c))
    by (unfold zlen in Hkl; lia).
  destruct Hs as [H1 H2]. unfold block_at, block_below.
  destruct (k <? start) eqn:E1; zbool.
  - destruct (Z.lt_trichotomy k (hc_base_height c)) as [Hlt|[->|Hgt]].
    + unfold header_at. rewrite (proj2 (Z.leb_le _ _)), (proj2 (Z.eqb_neq _ _)) by lia.
      by rewrite (proj2 (Z.ltb_lt _ _)) by lia.
    + unfold header_at. by rewrite Z.leb_refl, Z.eqb_refl.
    + rewrite header_at_eq by (done || lia).
      rewrite (proj2 (Z.eqb_neq _ _)), (proj2 (Z.ltb_ge _ _)) by lia.
      rewrite lookup_app_l by lia. unfold kept_headers. rewrite lookup_take_lt by lia.
      by destruct (hc_headers c !! _).
  - rewrite (proj2 (Z.eqb_neq _ _)), (proj2 (Z.ltb_ge _ _)) by lia.
    rewrite lookup_app_r by lia.
    replace (Z.to_nat (k - hc_base_height c - 1) - length (kept_headers c start))%nat
      with (Z.to_nat (k - start)) by lia.
    unfold stage. rewrite list_lookup_fmap.
    destruct (lookup_lt_is_Some_2 hs (Z.to_nat (k - start))) as [h Hh];
      [unfold zlen in Hk; lia|]. by rewrite Hh.
Qed.

Lemma block_below_is_Some c below k :
  hc_base_height c <= k < next_height c below -> is_Some (block_below c below k).
Proof.
  intros Hk. unfold block_below, next_height in *.
  destruct (k =? hc_base_height c) eqn:E1; [by eexists|].
  destruct (k <? hc_base_height c) eqn:E2; zbool; [lia|].
  apply fmap_is_Some, lookup_lt_is_Some_2. unfold zlen in Hk. lia.
Qed.

Lemma omap_all_Some {A C} (f : A -> option C) (g : A -> C) (l : list A) :
  (forall a, a ∈ l -> f a = Some (g a)) -> omap f l = g <$> l.
Proof.
  induction l as [|a l IH]; intros H; cbn; [done|].
  rewrite H by apply list_elem_of_here. f_equal. apply IH.
  intros a' Ha'. apply H. by apply list_elem_of_further.
Qed.

(** The median-time-past of the code is the median of the window; it is
    computed without a failure. *)
Lemma median_time_past_below_spec c start hs :
  chain_wf c -> start_ok c start -> start + zlen hs < 2 ^ 32 ->
  let below := kept_headers c start ++ hs in
  exists mtp,
    median_time_past_below c (next_height c below) start (stage hs) = Ok mtp /\
    match window_below c below with
    | Some w => exists m, mtp = Some m /\ median_time_past w = Ok m
    | None => mtp = None
    end.
Proof.
  intros W Hs Hr below. pose proof (kept_zlen c start Hs) as Hkl.
  assert (Hn : next_height c below = start + zlen hs)
    by (unfold next_height, below; rewrite zlen_app; lia).
  pose proof (wf_base c W) as Hb. destruct Hs as [H1 H2].
  pose proof (zlen_nonneg hs) as Hh0.
  unfold median_time_past_below, window_below.
  set (first := sat_sub (next_height c below) MEDIAN_TIME_SPAN).
  destruct (first <? hc_base_height c) eqn:E; [by eexists|]. zbool.
  set (g := fun k => default (0, 0) (block_below c below k)).
  assert (Hg : forall k, k ∈ seqZ first (next_height c below - first) ->
                 block_below c below k = Some (g k)).
  { intros k Hk%elem_of_seqZ. unfold g.
    destruct (block_below_is_Some c below k) as [x Hx]; [lia|]. by rewrite Hx. }
  rewrite (rmapM_fmap _ (fun k => fst (g k))).
  2:{ intros k Hk. pose proof (proj1 (elem_of_seqZ _ _ _) Hk).
      rewrite block_at_spliced by (done || lia). fold below. rewrite Hg by done. cbn.
      by destruct (g k). }
  cbn [rbind].
  destruct (median_time_past_nonempty ((fun k => fst (g k)) <$> seqZ first (next_height c below - first)))
    as [m Hm].
  { intros Hnil%fmap_nil_inv. apply (f_equal length) in Hnil.
    rewrite length_seqZ in Hnil. cbn in Hnil. unfold first, sat_sub, MEDIAN_TIME_SPAN in *. lia. }
  rewrite Hm. cbn [rbind]. exists (Some m). split; [done|]. exists m. split; [done|].
  rewrite (omap_all_Some _ g) by done. by rewrite <- list_fmap_compose.
Qed.

Lemma top_block_staged c below hs :
  match last (stage hs) with
  | Some (prev_h, prev_hash) => (prev_hash, bits prev_h, time prev_h)
  | None => top_block c below
  end = top_block c (below ++ hs).
Proof.
  unfold stage, top_block. rewrite fmap_last, last_app. by destruct (last hs).
Qed.

Lemma top_time_u32 c below : chain_wf c -> is_u32 (snd (top_block c below)).
Proof.
  intros W. unfold top_block. destruct (last below) as [h|]; cbn.
  - apply time_u32.
  - apply (wf_time_u32 c W).
Qed.

(** The height whose absence makes the [nBits] rule fail. *)
Definition bits_missing (height : Z) : Z :=
  if is_retarget_height height then
    (if height <? RETARGET_INTERVAL then 0 else height - RETARGET_INTERVAL)
  else height - height mod RETARGET_INTERVAL.

Lemma block_below_None c below k :
  k < hc_base_height c -> block_below c below k = None.
Proof.
  intros Hk. unfold block_below.
  rewrite (proj2 (Z.eqb_neq _ _)), (proj2 (Z.ltb_lt _ _)) by lia. done.
Qed.

(** The [nBits] the code computes is the one consensus requires; it fails
    exactly when the chain does not reach back far enough. *)
Lemma expected_bits_spec c start hs below t prev_hash prev_bits prev_time :
  chain_wf c -> start_ok c start -> start + zlen hs < 2 ^ 32 ->
  enforces_pow (hc_network c) = true ->
  below = kept_headers c start ++ hs ->
  top_block c below = (prev_hash, prev_bits, prev_time) ->
  (let? input :=
     bits_input c (next_height c below) t prev_bits prev_time start (stage hs) in
   Ok (expected_bits input (hc_network c))) =
  match required_bits c below t with
  | Some b => Ok (Some b)
  | None => Err (HeaderNotFound (bits_missing (next_height c below)))
  end.
Proof.
  intros W Hs Hr Hpow Hbelow Htop. pose proof (kept_zlen c start Hs) as Hkl.
  assert (Hn : next_height c below = start + zlen hs)
    by (rewrite Hbelow; unfold next_height; rewrite zlen_app; lia).
  pose proof (top_time_u32 c below W) as Htt. unfold is_u32 in Htt. rewrite Htop in Htt.
  pose proof (zlen_nonneg hs) as Hz. pose proof (wf_base c W) as Hb.
  unfold required_bits, bits_missing, bits_input. rewrite Htop. cbn [snd] in Htt.
  destruct (is_retarget_height (next_height c below)) eqn:Er.
  - destruct (next_height c below <? RETARGET_INTERVAL) eqn:E; zbool; cbn [ok_or rbind].
    + rewrite block_below_None; [done|]. unfold RETARGET_INTERVAL in *.
      unfold is_retarget_height, RETARGET_INTERVAL in Er. zbool.
      rewrite Z.mod_small in Er; destruct Hs; lia.
    + unfold RETARGET_INTERVAL in *. rewrite block_at_spliced by (done || lia).
      rewrite <- Hbelow. destruct (block_below c below _) as [[ft fb]|]; [|done].
      cbn. unfold expected_bits. rewrite Hpow. cbn [negb bi_height].
      by rewrite Er.
  - destruct (allows_min_difficulty (hc_network c)) eqn:Em.
    + rewrite block_at_spliced; [|done|done| |done].
      2:{ pose proof (Z.mod_pos_bound (next_height c below) RETARGET_INTERVAL eq_refl).
          unfold is_retarget_height in Er. zbool. lia. }
      rewrite <- Hbelow. destruct (block_below c below _) as [[ft fb]|]; [|done].
      cbn. unfold expected_bits. rewrite Hpow. cbn [negb bi_height].
      rewrite Er, Em. cbn [negb bi_prev_time bi_header_time bi_period_bits].
      rewrite spacing_600, (wrap64_small (2 * 600)), wrap64_small by (unfold is_u64; lia).
      replace (prev_time + 2 * 600) with (prev_time + 1200) by lia. by destruct (_ <? _).
    + cbn [rbind]. unfold expected_bits. rewrite Hpow. cbn [negb bi_height].
      by rewrite Er, Em.
Qed.

(** The check of one header on the blocks below it, with no batch. *)
Definition next_check (c : HeaderChain) (below : list Header) (h : Header) (now : Z)
    : res SpvError unit :=
  let height := next_height c below in
  let '(prev_hash, prev_bits, prev_time) := top_block c below in
  let? expected :=
    if enforces_pow (hc_network c) then
      match required_bits c below (time h) with
      | Some b => Ok (Some b)
      | None => Err (HeaderNotFound (bits_missing height))
      end
    else Ok None in
  let? mtp :=
    match window_below c below with
    | Some w => let? m := median_time_past w in Ok (Some m)
    | None => Ok None
    end in
  validate_header_full h height {| pred_hash := prev_hash; pred_time := prev_time |}
    mtp expected (hc_network c) now.

Lemma window_below_nonempty c below w :
  chain_wf c -> window_below c below = Some w -> w <> [].
Proof.
  intros W. unfold window_below. pose proof (wf_base c W).
  pose proof (zlen_nonneg below).
  destruct (_ <? _) eqn:E; [done|]. intros [= <-]. zbool.
  intros Hnil%fmap_nil_inv.
  set (k := next_height c below - 1).
  destruct (block_below_is_Some c below k) as [x Hx];
    [unfold k, next_height, sat_sub, MEDIAN_TIME_SPAN in *; lia|].
  assert (Hin : x ∈ omap (block_below c below)
                  (seqZ (sat_sub (next_height c below) MEDIAN_TIME_SPAN)
                     (next_height c below - sat_sub (next_height c below) MEDIAN_TIME_SPAN))).
  { apply list_elem_of_omap. exists k. split; [|done]. apply elem_of_seqZ.
    unfold k, next_height, sat_sub, MEDIAN_TIME_SPAN in *. lia. }
  rewrite Hnil in Hin. by apply elem_of_nil in Hin.
Qed.

Lemma next_check_ok_iff c below h now :
  chain_wf c -> next_check c below h now = Ok tt <-> header_ok c below h now.
Proof.
  intros W. unfold next_check.
  destruct (top_block c below) as [[ph pb] pt] eqn:Et.
  rewrite rbind_ok. split.
  - intros (e & He & H). apply rbind_ok in H as (mtp & Hm & H).
    apply validate_header_full_iff in H as []. constructor; rewrite ?Et; try done.
    + intros w m Hw Hmed. rewrite Hw in Hm.
      rewrite (is_median_median_time_past _ _ Hmed) in Hm. injection Hm as <-. by apply hr_mtp.
    + intros Hpow. rewrite Hpow in He. destruct (required_bits _ _ _); [|done].
      injection He as <-. f_equal. symmetry. by apply hr_bits.
  - intros [Hl Hw Hf Hmtp Hbits Hpow]. rewrite Et in *. cbn [fst snd] in *.
    exists (if enforces_pow (hc_network c) then Some (bits h) else None). split.
    { destruct (enforces_pow _); [|done]. by rewrite Hbits. }
    apply rbind_ok.
    destruct (window_below c below) as [w|] eqn:Ew.
    + destruct (median_time_past_nonempty w (window_below_nonempty _ _ _ W Ew)) as [m Hm].
      exists (Some m). rewrite Hm. split; [done|]. apply validate_header_full_iff.
      constructor; try done.
      * intros m' [= <-]. apply (Hmtp w); [done|]. by apply median_time_past_is_median.
      * intros e. by destruct (enforces_pow _); intros [= <-].
    + exists None. split; [done|]. apply validate_header_full_iff.
      constructor; try done. intros e. by destruct (enforces_pow _); intros [= <-].
Qed.

Lemma next_check_no_panic c below h now : chain_wf c -> next_check c below h now <> Panic.
Proof.
  intros W. unfold next_check. destruct (top_block c below) as [[ph pb] pt].
  destruct (if enforces_pow _ then _ else _) as [e| |] eqn:E1; cbn [rbind]; [|done|].
  2:{ by repeat case_match. }
  destruct (window_below c below) as [w|] eqn:Ew; cbn [rbind].
  - destruct (median_time_past_nonempty w (window_below_nonempty _ _ _ W Ew)) as [m ->].
    apply validate_header_full_no_panic.
  - apply validate_header_full_no_panic.
Qed.

(** One iteration of the staging loop is [next_check] on the chain as it will
    be. *)
Lemma stage_headers_step c start now raw rest hs :
  chain_wf c -> start_ok c start -> start + zlen hs < 2 ^ 32 ->
  stage_headers c start (top_block c (kept_headers c start)) now (zlen hs)
    (raw :: rest) (stage hs) =
  match deserialize_header raw with
  | inr message => Err (HeaderParse (zlen hs) message)
  | inl h =>
      let? _ := next_check c (kept_headers c start ++ hs) h now in
      stage_headers c start (top_block c (kept_headers c start)) now
        (zlen (hs ++ [h])) rest (stage (hs ++ [h]))
  end.
Proof.
  intros W Hs Hr. cbn [stage_headers].
  destruct (deserialize_header raw) as [h|m]; [|done].
  rewrite top_block_staged. set (below := kept_headers c start ++ hs).
  assert (Hn : wrap32 (start + wrap32 (zlen hs)) = next_height c below).
  { pose proof (kept_zlen c start Hs). pose proof (zlen_nonneg hs). destruct Hs as [H1 H2].
    pose proof (wf_base c W).
    rewrite (wrap32_small (zlen hs)), wrap32_small by (unfold is_u32; lia).
    unfold next_height, below. rewrite zlen_app. lia. }
  rewrite Hn. unfold next_check.
  destruct (median_time_past_below_spec c start hs W Hs Hr) as (mtp & Hm & Hw).
  fold below in Hm, Hw.
  destruct (top_block c below) as [[ph pb] pt] eqn:Et.
  destruct (enforces_pow (hc_network c)) eqn:Ep.
  - rewrite (expected_bits_spec c start hs below (time h) ph pb pt) by done.
    destruct (required_bits c below (time h)); [|done].
    cbn [rbind]. rewrite Hm. cbn [rbind].
    destruct (window_below c below) as [w|]; [destruct Hw as (m & -> & ->)|subst mtp];
      cbn [rbind]; rewrite stage_app, zlen_app; done.
  - cbn [rbind]. rewrite Hm. cbn [rbind].
    destruct (window_below c below) as [w|]; [destruct Hw as (m & -> & ->)|subst mtp];
      cbn [rbind]; rewrite stage_app, zlen_app; done.
Qed.

End Facts.
