(* ===== verification/SpvChainFacts.v ===== *)
(** * Lemmas on [submit_headers]

    The batch loop as block-by-block validation, and the outcome of
    [submit_headers] on every branch. *)

From stdpp Require Import sorting base numbers list list_numbers.
From S2P Require Import Prelude Errors SpvTypes SpvValidation SpvChain SpvChainSpec.

Section Facts.
Context {B : BitcoinCrate} {L : BitcoinCrateLaws B}.

(** The chain [c] with the headers [hs]. *)
Definition extend_chain (c : HeaderChain) (hs : list Header) : HeaderChain :=
  set_headers c hs (block_hash <$> hs).

Lemma header_ok_set_headers c hs hashes below h now :
  header_ok c below h now -> header_ok (set_headers c hs hashes) below h now.
Proof. intros []. by constructor. Qed.

Lemma valid_chain_set_headers c hs hashes l :
  valid_chain c l -> valid_chain (set_headers c hs hashes) l.
Proof.
  induction 1 as [|l h now _ IH Hok]; [constructor|].
  eapply valid_snoc; [done|]. by apply header_ok_set_headers.
Qed.

Lemma valid_chain_app_inv c l1 l2 : valid_chain c (l1 ++ l2) -> valid_chain c l1.
Proof.
  induction l2 as [|h l2 IH] using rev_ind; [by rewrite app_nil_r|].
  rewrite app_assoc. intros H. apply IH.
  inversion H as [Heq|hs h' now Hv Hok Heq].
  - by destruct (l1 ++ l2).
  - by apply app_inj_tail in Heq as [-> ->].
Qed.

Lemma valid_chain_take c l n : valid_chain c l -> valid_chain c (take n l).
Proof. intros H. rewrite <- (take_drop n l) in H. by apply valid_chain_app_inv in H. Qed.

(** Every block of a valid chain is valid on the blocks below it. *)
Lemma valid_chain_lookup c l i h :
  valid_chain c l -> l !! i = Some h -> exists now, header_ok c (take i l) h now.
Proof.
  intros Hv Hi. apply (valid_chain_take _ _ (S i)) in Hv.
  rewrite (take_S_r _ _ h) in Hv by done.
  inversion Hv as [Heq|hs h' now Hv' Hok Heq].
  - by destruct (take i l).
  - apply app_inj_tail in Heq as [-> ->]. by exists now.
Qed.

Lemma stage_headers_ok c start now raws : forall hs staged',
  chain_wf c -> start_ok c start -> start + zlen hs + zlen raws <= 2 ^ 32 ->
  valid_chain c (kept_headers c start ++ hs) ->
  stage_headers c start (top_block c (kept_headers c start)) now (zlen hs) raws (stage hs)
    = Ok staged' ->
  exists new, staged' = stage (hs ++ new) /\
    Forall2 (fun raw h => deserialize_header raw = inl h) raws new /\
    valid_chain c (kept_headers c start ++ hs ++ new).
Proof.
  induction raws as [|raw raws IH]; intros hs staged' W Hs Hr Hv H.
  - cbn in H. injection H as <-. exists []. rewrite app_nil_r.
    split_and!; [done|constructor|done].
  - rewrite zlen_cons in Hr. pose proof (zlen_nonneg raws).
    rewrite stage_headers_step in H by (done || lia).
    destruct (deserialize_header raw) as [h|] eqn:Ed; [|done].
    apply rbind_unit_ok in H as [Hc H].
    apply (next_check_ok_iff c _ h now W) in Hc.
    apply IH in H as (new & -> & Hf & Hv'); [|done|done| |].
    + exists (h :: new). rewrite <- app_assoc in *. cbn in *.
      split_and!; [done|by constructor|done].
    + rewrite zlen_app, zlen_cons, zlen_nil. lia.
    + rewrite app_assoc. by eapply valid_snoc.
Qed.

Lemma stage_headers_no_panic c start now raws : forall hs,
  chain_wf c -> start_ok c start -> start + zlen hs + zlen raws <= 2 ^ 32 ->
  stage_headers c start (top_block c (kept_headers c start)) now (zlen hs) raws (stage hs)
    <> Panic.
Proof.
  induction raws as [|raw raws IH]; intros hs W Hs Hr; [done|].
  rewrite zlen_cons in Hr. pose proof (zlen_nonneg raws).
  rewrite stage_headers_step by (done || lia).
  destruct (deserialize_header raw) as [h|]; [|done].
  pose proof (next_check_no_panic c (kept_headers c start ++ hs) h now W).
  destruct (next_check _ _ _ _); cbn [rbind]; [|done|done].
  apply IH; [done|done|]. rewrite zlen_app, zlen_cons, zlen_nil. lia.
Qed.

Lemma stage_headers_length c start pred now raws : forall i staged staged',
  stage_headers c start pred now i raws staged = Ok staged' ->
  length staged' = (length staged + length raws)%nat.
Proof.
  induction raws as [|raw raws IH]; intros i staged staged' H; cbn [stage_headers] in H.
  - injection H as <-. cbn. lia.
  - destruct (deserialize_header raw) as [h|]; [|done].
    destruct (match last staged with Some _ => _ | None => _ end) as [[ph pb] pt].
    apply rbind_ok in H as (e & _ & H). apply rbind_ok in H as (m & _ & H).
    apply rbind_ok in H as (u & _ & H).
    apply IH in H. rewrite H, length_app. cbn. lia.
Qed.

(** The predecessor lookup of [submit_headers] is the top of the kept chain. *)
Lemma predecessor_lookup c start :
  chain_wf c -> start_ok c start ->
  (if start - 1 =? hc_base_height c then
     Ok (hc_base_hash c, hc_base_bits c, hc_base_time c)
   else
     let? h := ok_or (header_at c (start - 1)) (HeaderNotFound (start - 1)) in
     let? hash := ok_or (hash_at c (start - 1)) (HeaderNotFound (start - 1)) in
     Ok (hash, bits h, time h)) =
  Ok (top_block c (kept_headers c start)).
Proof.
  intros W [H1 H2]. unfold top_block, kept_headers.
  destruct (start - 1 =? hc_base_height c) eqn:E; zbool.
  - replace (Z.to_nat (start - 1 - hc_base_height c)) with 0%nat by lia. done.
  - pose proof W as W'. destruct W'. unfold zlen in *.
    rewrite last_take_lookup by lia.
    rewrite header_at_eq by (done || lia).
    unfold hash_at. rewrite (proj2 (Z.eqb_neq _ _)), (proj2 (Z.ltb_ge _ _)) by lia.
    rewrite wrap32_small by (unfold is_u32; lia).
    rewrite wf_hashes, list_lookup_fmap.
    replace (Z.to_nat (start - 1 - hc_base_height c - 1))
      with (pred (Z.to_nat (start - 1 - hc_base_height c))) by lia.
    destruct (lookup_lt_is_Some_2 (hc_headers c)
                (pred (Z.to_nat (start - 1 - hc_base_height c)))) as [h Hh]; [lia|].
    by rewrite Hh.
Qed.

(** The guards of [submit_headers], in order. *)
Definition submit_guard (c : HeaderChain) (start : Z) (raws : list bytes) : option SpvError :=
  let tip := hc_base_height c + zlen (hc_headers c) in
  if MAX_HEADERS_PER_SUBMIT <? zlen raws then
    Some (BatchTooLarge (zlen raws) MAX_HEADERS_PER_SUBMIT)
  else if zlen raws =? 0 then None
  else if start <=? hc_base_height c then Some (BelowCheckpoint start (hc_base_height c))
  else if tip + 1 <? start then Some (NonContiguous start tip)
  else if MAX_REORG_DEPTH <? tip + 1 - start then
    Some (ReorgTooDeep (tip + 1 - start) MAX_REORG_DEPTH)
  else if hc_max_stored_headers c <? start - 1 - hc_base_height c + zlen raws then
    Some (ChainTooLong (start - 1 - hc_base_height c + zlen raws) (hc_max_stored_headers c))
  else None.

(** A reorg at [start] of the headers [new] does not have more work. *)
Definition weaker_reorg (c : HeaderChain) (start : Z) (new : list Header) : bool :=
  match sum_work (drop (Z.to_nat (start - 1 - hc_base_height c)) (hc_headers c)),
        sum_work new with
  | Some existing_work, Some new_work => new_work <=? existing_work
  | _, _ => false
  end.

(** [submit_headers] in normal form: guards, then the staged batch, then the
    work comparison, then the splice. *)
Lemma submit_headers_eq c start raws now :
  chain_wf c ->
  submit_headers c start raws now =
  match submit_guard c start raws with
  | Some e => (c, Err e)
  | None =>
      if zlen raws =? 0 then
        (c, Ok {| last_block_height := tip_height c; last_block_hash := tip_hash c;
                  headers_accepted := 0; reorg_depth := 0 |})
      else
        match stage_headers c start (top_block c (kept_headers c start)) now 0 raws [] with
        | Err e => (c, Err e)
        | Panic => (c, Panic)
        | Ok staged =>
            if weaker_reorg c start (fst <$> staged) then (c, Err WeakerChain)
            else
              let c' :=
                set_headers c (kept_headers c start ++ (fst <$> staged))
                  ((block_hash <$> kept_headers c start) ++ (snd <$> staged)) in
              (c', Ok {| last_block_height := tip_height c'; last_block_hash := tip_hash c';
                         headers_accepted := wrap32 (zlen staged);
                         reorg_depth := hc_base_height c + zlen (hc_headers c) + 1 - start |})
        end
  end.
Proof.
  intros W. unfold submit_headers, submit_guard.
  rewrite tip_height_eq by done.
  pose proof (zlen_nonneg (hc_headers c)) as Hl0. pose proof (zlen_nonneg raws) as Hr0.
  pose proof W as W'. destruct W'.
  rewrite wrap32_small by (unfold is_u32; lia).
  rewrite <- wf_height.
  destruct (MAX_HEADERS_PER_SUBMIT <? zlen raws) eqn:E1; [done|].
  destruct (zlen raws =? 0) eqn:E2; [done|].
  destruct (start <=? hc_base_height c) eqn:E3; [done|].
  destruct (_ + 1 <? start) eqn:E4; [done|]. zbool.
  assert (Hs : start_ok c start) by (split; lia).
  replace (sat_sub (hc_base_height c + zlen (hc_headers c) + 1) start)
    with (hc_base_height c + zlen (hc_headers c) + 1 - start) by (unfold sat_sub; lia).
  destruct (MAX_REORG_DEPTH <? _) eqn:E5; [done|].
  rewrite (wrap32_small (start - 1 - hc_base_height c)) by (unfold is_u32; lia).
  destruct (hc_max_stored_headers c <? _) eqn:E6; [done|]. zbool.
  rewrite predecessor_lookup by done. cbn [rbind].
  pose proof (stage_headers_no_panic c start now raws [] W Hs) as Hnp.
  change (stage []) with (@nil (Header * bytes)) in Hnp. change (zlen (@nil Header)) with 0 in Hnp.
  destruct (stage_headers _ _ _ _ _ _ _) as [staged| |] eqn:Est; [|done|done].
  set (n := Z.to_nat (start - 1 - hc_base_height c)).
  unfold weaker_reorg, kept_headers. fold n.
  assert (Hn : (n <= length (hc_headers c))%nat) by (unfold n, zlen in *; lia).
  unfold slice_from. rewrite (proj2 (Nat.leb_le _ _) Hn). cbn [expect rbind].
  destruct (0 <? _) eqn:E7; zbool.
  - destruct (drop n (hc_headers c)) as [|d ds] eqn:Ed.
    { apply (f_equal length) in Ed. rewrite length_drop in Ed. cbn in Ed.
      unfold n, zlen in *. lia. }
    cbn [sum_work expect rbind].
    destruct staged as [|[h hh] staged].
    { apply stage_headers_length in Est. destruct raws; [|done]. by rewrite zlen_nil in E2. }
    cbn [fmap list_fmap sum_work expect rbind fst].
    destruct (_ <=? _); [done|]. cbn [set_headers hc_headers hc_hashes].
    by rewrite wf_hashes, fmap_take.
  - rewrite drop_ge by (unfold n, zlen in *; lia). cbn [sum_work].
    rewrite take_ge by (unfold n, zlen in *; lia). by rewrite wf_hashes.
Qed.

End Facts.
