(* ===== verification/SpvChainProps.v ===== *)
(** * Theorems on the header chain

    Invariant, atomicity, work, depth, liveness and difficulty properties of
    [HeaderChain], for every reachable chain and every batch the untrusted
    parent may send. *)

From stdpp Require Import sorting base numbers list list_numbers.
From S2P Require Import Prelude Errors SpvTypes SpvValidation SpvChain SpvChainSpec.
From S2P Require Import SpvConcrete SpvChainFacts.

Section Defs.
Context {B : BitcoinCrate}.

(** The chains the enclave can hold: the empty chain at the checkpoint and
    whatever calls of [submit_headers], accepted or refused, make of it. *)
Inductive reachable (n : Network) (cp : Checkpoint) : HeaderChain -> Prop :=
| reach_new : reachable n cp (new_chain n cp)
| reach_submit c start raws now :
    reachable n cp c -> reachable n cp (fst (submit_headers c start raws now)).

(** Total work of a list of headers, without the 256-bit bound. *)
Definition chain_work (hs : list Header) : Z := foldr Z.add 0 (work <$> hs).

(** Bitcoin Core's walk back to the last block not mined under the 20-minute
    rule: from the block at [height], skip min-difficulty blocks down to the
    first block of the period. *)
Fixpoint walk_back (c : HeaderChain) (hs : list Header) (fuel : nat) (height : Z) : option Z :=
  match block_below c hs height with
  | None => None
  | Some (_, b) =>
      match fuel with
      | O => Some b
      | S fuel =>
          if negb (is_retarget_height height) && (b =? pow_limit_bits (hc_network c))
          then walk_back c hs fuel (height - 1)
          else Some b
      end
  end.

End Defs.

Section Facts.
Context {B : BitcoinCrate} {L : BitcoinCrateLaws B}.

Lemma new_chain_inv n cp :
  checkpoint_typed cp -> cp_height cp + MAX_STORED_HEADERS + 1 < 2 ^ 32 ->
  chain_inv (new_chain n cp).
Proof.
  intros (Hh & Hb & Ht) Hr. unfold is_u32 in *. split; [|constructor].
  constructor; cbn; try done; unfold MAX_STORED_HEADERS, zlen in *; cbn; lia.
Qed.

(** What an accepted non-empty batch does. *)
Record accepted (c : HeaderChain) (start : Z) (raws : list bytes) (new : list Header)
    (c' : HeaderChain) (o : SubmitOutcome) : Prop := {
  acc_start : start_ok c start;
  acc_depth : hc_base_height c + zlen (hc_headers c) + 1 - start <= MAX_REORG_DEPTH;
  acc_room : start - 1 - hc_base_height c + zlen raws <= hc_max_stored_headers c;
  acc_new : Forall2 (fun raw h => deserialize_header raw = inl h) raws new;
  acc_chain : c' = extend_chain c (kept_headers c start ++ new);
  acc_valid : valid_chain c (kept_headers c start ++ new);
  acc_stronger : weaker_reorg c start new = false;
  acc_outcome : o = {| last_block_height := tip_height c';
                       last_block_hash := tip_hash c';
                       headers_accepted := zlen raws;
                       reorg_depth := hc_base_height c + zlen (hc_headers c) + 1 - start |}
}.

Lemma submit_guard_None c start raws :
  zlen raws <> 0 -> submit_guard c start raws = None ->
  zlen raws <= MAX_HEADERS_PER_SUBMIT /\ start_ok c start /\
  hc_base_height c + zlen (hc_headers c) + 1 - start <= MAX_REORG_DEPTH /\
  start - 1 - hc_base_height c + zlen raws <= hc_max_stored_headers c.
Proof.
  unfold submit_guard, start_ok. intros Hne H.
  repeat match type of H with
  | (if ?b then _ else _) = None => destruct b eqn:?; try discriminate H
  end; zbool; lia.
Qed.

Lemma submit_headers_cases c start raws now :
  chain_inv c ->
  (exists e, submit_headers c start raws now = (c, Err e)) \/
  (raws = [] /\ submit_headers c start raws now =
     (c, Ok {| last_block_height := tip_height c; last_block_hash := tip_hash c;
               headers_accepted := 0; reorg_depth := 0 |})) \/
  (raws <> [] /\ exists new c' o,
     submit_headers c start raws now = (c', Ok o) /\ accepted c start raws new c' o).
Proof.
  intros [W V]. rewrite submit_headers_eq by done.
  destruct (submit_guard c start raws) as [e|] eqn:Eg; [left; by eexists|].
  destruct (zlen raws =? 0) eqn:E0; zbool.
  { right; left. destruct raws; [done|]. rewrite zlen_cons in E0.
    pose proof (zlen_nonneg raws). lia. }
  apply submit_guard_None in Eg as (Hm & Hs & Hd & Hr); [|done].
  assert (Hbound : start + zlen raws <= 2 ^ 32).
  { pose proof (wf_room c W). lia. }
  pose proof (stage_headers_ok c start now raws [] ) as Hok.
  pose proof (stage_headers_no_panic c start now raws []) as Hnp.
  change (stage []) with (@nil (Header * bytes)) in *. rewrite zlen_nil in *.
  destruct (stage_headers _ _ _ _ _ _ _) as [staged|e|] eqn:Est.
  - destruct (Hok staged W Hs) as (new & -> & Hf & Hv); [lia| |done|].
    { rewrite app_nil_r. by apply valid_chain_take. }
    cbn [app] in *. rewrite stage_fst, stage_snd.
    destruct (weaker_reorg c start new) eqn:Ew; [left; by eexists|].
    right; right. split; [by destruct raws|]. eexists new, _, _. split; [reflexivity|].
    constructor; try done.
    + unfold extend_chain. by rewrite fmap_app.
    + f_equal. rewrite stage_zlen. unfold zlen. rewrite <- (Forall2_length _ _ _ Hf).
      rewrite wrap32_small; [done|]. unfold is_u32, zlen, MAX_HEADERS_PER_SUBMIT in *. lia.
  - left; by eexists.
  - exfalso. apply Hnp; [done|done| |done]. lia.
Qed.

Lemma kept_app_zlen c start new :
  start_ok c start ->
  zlen (kept_headers c start ++ new) = start - 1 - hc_base_height c + zlen new.
Proof. intros Hs. by rewrite zlen_app, kept_zlen. Qed.

Lemma accepted_new_zlen c start raws new c' o :
  accepted c start raws new c' o -> zlen new = zlen raws.
Proof. intros A. unfold zlen. by rewrite (Forall2_length _ _ _ (acc_new _ _ _ _ _ _ A)). Qed.

Lemma accepted_inv c start raws new c' o :
  chain_inv c -> accepted c start raws new c' o -> chain_inv c'.
Proof.
  intros [W V] A. pose proof (accepted_new_zlen _ _ _ _ _ _ A) as Hz.
  destruct A. subst c'. destruct W. split.
  - constructor; cbn; try done. rewrite kept_app_zlen by done. lia.
  - cbn. by apply valid_chain_set_headers.
Qed.

Lemma submit_headers_inv c start raws now :
  chain_inv c -> chain_inv (fst (submit_headers c start raws now)).
Proof.
  intros I. destruct (submit_headers_cases c start raws now I)
    as [(e & ->)|[(-> & ->)|(Hne & new & c' & o & -> & A)]]; [done|done|].
  by eapply accepted_inv.
Qed.

Lemma reachable_inv n cp c :
  checkpoint_typed cp -> cp_height cp + MAX_STORED_HEADERS + 1 < 2 ^ 32 ->
  reachable n cp c -> chain_inv c.
Proof. intros Ht Hr. induction 1; [by apply new_chain_inv|by apply submit_headers_inv]. Qed.

End Facts.

Section MoreFacts.
Context {B : BitcoinCrate} {L : BitcoinCrateLaws B}.

Lemma chain_work_app hs ks : chain_work (hs ++ ks) = chain_work hs + chain_work ks.
Proof.
  unfold chain_work. induction hs as [|h hs IH]; [done|].
  rewrite <- app_comm_cons, !fmap_cons. cbn [foldr]. lia.
Qed.

Lemma chain_work_nonneg hs : 0 <= chain_work hs.
Proof.
  unfold chain_work. induction hs as [|h hs IH]; [done|]. cbn.
  pose proof (work_nonneg h). lia.
Qed.

(** Below 2^256 the saturating sum of the crate is the plain sum. *)
Lemma sum_work_chain_work h hs :
  chain_work (h :: hs) < 2 ^ 256 -> sum_work (h :: hs) = Some (chain_work (h :: hs)).
Proof.
  cbn [sum_work]. intros Hb. f_equal.
  assert (forall hs acc, 0 <= acc -> acc + chain_work hs < 2 ^ 256 ->
            fold_left (fun acc h => work_add acc (work h)) hs acc = acc + chain_work hs) as H.
  { clear h hs Hb. induction hs as [|h hs IH]; intros acc Ha Hb.
    - unfold chain_work. cbn. lia.
    - cbn [fold_left]. pose proof (work_nonneg h). pose proof (chain_work_nonneg hs).
      change (chain_work (h :: hs)) with (work h + chain_work hs) in *.
      rewrite work_add_exact by lia. rewrite IH by lia. lia. }
  apply H; [apply work_nonneg|]. done.
Qed.

Lemma headers_split c start :
  hc_headers c = kept_headers c start ++
                 drop (Z.to_nat (start - 1 - hc_base_height c)) (hc_headers c).
Proof. unfold kept_headers. by rewrite take_drop. Qed.

(** The first block at or above the checkpoint that a period lookup needs. *)
Lemma aligned_period c below :
  is_retarget_height (hc_base_height c) = true -> 0 <= hc_base_height c ->
  is_retarget_height (next_height c below) = false ->
  hc_base_height c <= next_height c below - next_height c below mod RETARGET_INTERVAL
    < next_height c below.
Proof.
  unfold is_retarget_height, next_height, RETARGET_INTERVAL. intros Ha Hb Hr. zbool.
  pose proof (zlen_nonneg below).
  set (b := hc_base_height c) in *. set (z := b + 1 + zlen below) in *.
  pose proof (Z.mod_pos_bound z 2016 eq_refl).
  pose proof (Z.div_mod b 2016 ltac:(lia)). pose proof (Z.div_mod z 2016 ltac:(lia)).
  assert (b / 2016 <= z / 2016) by (apply Z.div_le_mono; lia). lia.
Qed.

Lemma aligned_epoch c below :
  is_retarget_height (hc_base_height c) = true -> 0 <= hc_base_height c ->
  is_retarget_height (next_height c below) = true ->
  hc_base_height c <= next_height c below - RETARGET_INTERVAL < next_height c below.
Proof.
  unfold is_retarget_height, next_height, RETARGET_INTERVAL. intros Ha Hb Hr. zbool.
  pose proof (zlen_nonneg below).
  set (b := hc_base_height c) in *. set (z := b + 1 + zlen below) in *.
  pose proof (Z.div_mod b 2016 ltac:(lia)). pose proof (Z.div_mod z 2016 ltac:(lia)).
  assert (b / 2016 < z / 2016) by (apply Z.div_lt_upper_bound; lia). lia.
Qed.

Lemma required_bits_aligned c below t :
  is_retarget_height (hc_base_height c) = true -> 0 <= hc_base_height c ->
  is_Some (required_bits c below t).
Proof.
  intros Ha Hb. unfold required_bits. destruct (top_block c below) as [[ph pb] pt].
  destruct (is_retarget_height (next_height c below)) eqn:Er.
  - destruct (block_below_is_Some c below (next_height c below - RETARGET_INTERVAL))
      as [[ft fb] ->]; [by apply aligned_epoch|]. done.
  - destruct (allows_min_difficulty _); [|done].
    destruct (block_below_is_Some c below
      (next_height c below - next_height c below mod RETARGET_INTERVAL)) as [[ft fb] ->];
      [by apply aligned_period|]. done.
Qed.

Lemma next_check_found c below h now k :
  chain_wf c -> (enforces_pow (hc_network c) = true -> is_retarget_height (hc_base_height c) = true) ->
  next_check c below h now <> Err (HeaderNotFound k).
Proof.
  intros W Ha. unfold next_check. destruct (top_block c below) as [[ph pb] pt].
  assert (Hv : forall mtp e, validate_header_full h (next_height c below)
            {| pred_hash := ph; pred_time := pt |} mtp e (hc_network c) now
            <> Err (HeaderNotFound k)).
  { intros. unfold validate_header_full, check_linkage, check_timewarp, check_future_time,
      check_time_too_old, check_pow. repeat (case_match; cbn [rbind]; try discriminate). }
  destruct (enforces_pow (hc_network c)) eqn:Ep.
  - destruct (required_bits_aligned c below (time h)) as [b ->];
      [by apply Ha|by apply wf_base|]. cbn [rbind].
    destruct (window_below c below) as [w|] eqn:Ew; cbn [rbind]; [|apply Hv].
    destruct (median_time_past_nonempty w (window_below_nonempty _ _ _ W Ew)) as [m ->].
    apply Hv.
  - cbn [rbind]. destruct (window_below c below) as [w|] eqn:Ew; cbn [rbind]; [|apply Hv].
    destruct (median_time_past_nonempty w (window_below_nonempty _ _ _ W Ew)) as [m ->].
    apply Hv.
Qed.

Lemma stage_headers_found c start now k raws : forall hs,
  chain_wf c -> start_ok c start -> start + zlen hs + zlen raws <= 2 ^ 32 ->
  (enforces_pow (hc_network c) = true -> is_retarget_height (hc_base_height c) = true) ->
  stage_headers c start (top_block c (kept_headers c start)) now (zlen hs) raws (stage hs)
    <> Err (HeaderNotFound k).
Proof.
  induction raws as [|raw raws IH]; intros hs W Hs Hr Ha; [done|].
  rewrite zlen_cons in Hr. pose proof (zlen_nonneg raws).
  rewrite stage_headers_step by (done || lia).
  destruct (deserialize_header raw) as [h|]; [|done].
  pose proof (next_check_found c (kept_headers c start ++ hs) h now k W Ha).
  destruct (next_check _ _ _ _); cbn [rbind]; [|by intros [= ->]|done].
  apply IH; [done|done| |done]. rewrite zlen_app, zlen_cons, zlen_nil. lia.
Qed.

(** [header_ok] of the block at a height, with the blocks below it as lookups
    in the whole chain. *)
Lemma block_below_take c hs k i :
  k <= hc_base_height c + Z.of_nat i -> block_below c (take i hs) k = block_below c hs k.
Proof.
  intros Hk. unfold block_below.
  destruct (k =? hc_base_height c) eqn:E1; [done|].
  destruct (k <? hc_base_height c) eqn:E2; [done|]. zbool.
  by rewrite lookup_take_lt by lia.
Qed.

Lemma next_height_take c hs i :
  (i <= length hs)%nat -> next_height c (take i hs) = hc_base_height c + 1 + Z.of_nat i.
Proof. intros Hi. unfold next_height, zlen. rewrite length_take. lia. Qed.

Lemma top_bits_take c hs i :
  (i <= length hs)%nat ->
  Some (snd (top_block c (take i hs)), snd (fst (top_block c (take i hs))))
    = block_below c hs (hc_base_height c + Z.of_nat i).
Proof.
  intros Hi. unfold top_block, block_below.
  destruct (decide (i = 0%nat)) as [->|Hi0].
  - rewrite Z.add_0_r, Z.eqb_refl. done.
  - rewrite last_take_lookup by lia.
    rewrite (proj2 (Z.eqb_neq _ _)), (proj2 (Z.ltb_ge _ _)) by lia.
    replace (Z.to_nat (hc_base_height c + Z.of_nat i - hc_base_height c - 1))
      with (pred i) by lia.
    destruct (lookup_lt_is_Some_2 hs (pred i)) as [h Hh]; [lia|]. by rewrite Hh.
Qed.

(** Off a boundary, a block carries the bits its network requires. *)
Lemma block_bits_step c hs k t b :
  valid_chain c hs -> enforces_pow (hc_network c) = true ->
  hc_base_height c < k -> block_below c hs k = Some (t, b) ->
  is_retarget_height k = false ->
  exists pt pb, block_below c hs (k - 1) = Some (pt, pb) /\
    (if allows_min_difficulty (hc_network c) then
      exists ft fb, block_below c hs (k - k mod RETARGET_INTERVAL) = Some (ft, fb) /\
        b = (if pt + 1200 <? t then pow_limit_bits (hc_network c) else fb)
     else b = pb).
Proof.
  intros V Hp Hk Hb Hr. unfold block_below in Hb.
  rewrite (proj2 (Z.eqb_neq _ _)), (proj2 (Z.ltb_ge _ _)) in Hb by lia.
  set (i := Z.to_nat (k - hc_base_height c - 1)) in *.
  destruct (hs !! i) as [h|] eqn:Eh; [|done]. injection Hb as <- <-.
  pose proof (lookup_lt_Some _ _ _ Eh) as Hi.
  destruct (valid_chain_lookup c hs i h V Eh) as [now Hok].
  pose proof (ho_bits _ _ _ _ Hok Hp) as Hreq.
  pose proof (top_bits_take c hs i ltac:(lia)) as Htop.
  unfold required_bits in Hreq. rewrite next_height_take in Hreq by lia.
  replace (hc_base_height c + 1 + Z.of_nat i) with k in Hreq by lia.
  replace (hc_base_height c + Z.of_nat i) with (k - 1) in Htop by lia.
  destruct (top_block c (take i hs)) as [[ph pb] pt]. cbn [fst snd] in Htop.
  exists pt, pb. split; [done|]. rewrite Hr in Hreq.
  destruct (allows_min_difficulty (hc_network c)); [|congruence].
  pose proof (Z.mod_pos_bound k RETARGET_INTERVAL eq_refl).
  unfold is_retarget_height in Hr. zbool.
  rewrite block_below_take in Hreq by lia.
  destruct (block_below c hs _) as [[ft fb]|]; [|done].
  exists ft, fb. split; [done|]. congruence.
Qed.

Lemma same_period_not_boundary j k :
  0 <= j < k -> j / RETARGET_INTERVAL = k / RETARGET_INTERVAL -> is_retarget_height k = false.
Proof.
  unfold is_retarget_height, RETARGET_INTERVAL. intros Hjk Hp. apply Z.eqb_neq. intros H0.
  pose proof (Z.div_mod j 2016 ltac:(lia)). pose proof (Z.div_mod k 2016 ltac:(lia)).
  pose proof (Z.mod_pos_bound j 2016 eq_refl). lia.
Qed.

Lemma mod_pred k :
  0 < k mod RETARGET_INTERVAL -> (k - 1) mod RETARGET_INTERVAL = k mod RETARGET_INTERVAL - 1.
Proof.
  unfold RETARGET_INTERVAL. intros H. pose proof (Z.mod_pos_bound k 2016 eq_refl).
  symmetry. apply Z.mod_unique with (k / 2016); [lia|].
  pose proof (Z.div_mod k 2016 ltac:(lia)). lia.
Qed.

(** The reported tip hash is the hash at the tip height. *)
Lemma hash_at_tip c : chain_inv c -> hash_at c (tip_height c) = Some (tip_hash c).
Proof.
  intros [W V]. rewrite (tip_height_eq c W). unfold hash_at, tip_hash.
  pose proof W as W'. destruct W'. pose proof (zlen_nonneg (hc_headers c)) as Hz.
  destruct (_ =? _) eqn:E; zbool.
  - assert (hc_headers c = []) as Hnil by (apply length_zero_iff_nil; unfold zlen in *; lia).
    by rewrite wf_hashes, Hnil, wf_hash.
  - rewrite (proj2 (Z.ltb_ge _ _)), wrap32_small by (unfold is_u32; lia).
    rewrite last_lookup, wf_hashes, length_fmap.
    replace (Z.to_nat (hc_base_height c + zlen (hc_headers c) - hc_base_height c - 1))
      with (pred (length (hc_headers c))) by (unfold zlen; lia).
    rewrite list_lookup_fmap.
    destruct (lookup_lt_is_Some_2 (hc_headers c) (pred (length (hc_headers c)))) as [h Hh];
      [unfold zlen in *; lia|]. by rewrite Hh.
Qed.

End MoreFacts.

Section Claims.
Context {B : BitcoinCrate} {L : BitcoinCrateLaws B}.

(** C7: every chain the enclave can reach, by whatever sequence of accepted and
    refused [SubmitHeaders] batches and reorgs, is well-formed (base fields,
    cached hashes, retention cap) and consensus-valid above its checkpoint:
    each stored header passes linkage, timewarp, clock, median-time-past,
    [nBits] and PoW judged against the headers now below it. *)
Theorem reachable_chain_valid n cp c :
  checkpoint_typed cp -> cp_height cp + MAX_STORED_HEADERS + 1 < 2 ^ 32 ->
  reachable n cp c ->
  chain_wf c /\ valid_chain c (hc_headers c).
Proof. apply reachable_inv. Qed.

(** C16: [submit_headers] is all-or-nothing and never panics: an error leaves
    the chain as it was; an accepted batch replaces everything from
    [start_height] up by exactly the decoded headers, and the outcome reports
    the new tip height, its hash, the batch length and the displaced depth. *)
Theorem submit_headers_functional c start raws now :
  chain_inv c ->
  match submit_headers c start raws now with
  | (c', Err _) => c' = c
  | (_, Panic) => False
  | (c', Ok o) =>
      (raws = [] /\ c' = c /\ last_block_height o = tip_height c) \/
      (exists new,
         Forall2 (fun raw h => deserialize_header raw = inl h) raws new /\
         hc_headers c' = kept_headers c start ++ new /\
         last_block_height o = start + zlen raws - 1 /\
         hash_at c' (last_block_height o) = Some (last_block_hash o) /\
         headers_accepted o = zlen raws /\
         reorg_depth o = tip_height c + 1 - start)
  end.
Proof.
  intros I. destruct (submit_headers_cases c start raws now I)
    as [(e & ->)|[(-> & ->)|(Hne & new & c' & o & -> & A)]]; [done|by left|].
  right. exists new. pose proof (accepted_inv _ _ _ _ _ _ I A) as I'.
  pose proof (accepted_new_zlen _ _ _ _ _ _ A) as Hz. destruct I as [W V].
  pose proof (tip_height_eq c' (proj1 I')) as Ht'. pose proof (tip_height_eq c W) as Ht.
  destruct A. subst o. cbn [last_block_height last_block_hash headers_accepted reorg_depth].
  assert (Hh : hc_headers c' = kept_headers c start ++ new) by by subst c'.
  assert (Hb : hc_base_height c' = hc_base_height c) by by subst c'.
  split_and!; [done|done| |by apply hash_at_tip|done|lia].
  rewrite Ht', Hh, kept_app_zlen by done. lia.
Qed.

(** A non-empty batch within the per-call cap is refused with
    [BelowCheckpoint], [NonContiguous], [ReorgTooDeep] or [ChainTooLong] when it
    starts at or below the checkpoint, leaves a gap, rewrites more than 100
    headers or outgrows the retention cap; a larger batch with
    [BatchTooLarge].  No [u32] computation of a guard wraps around. *)
Theorem submit_headers_guards c start raws now :
  chain_inv c -> raws <> [] ->
  let refused e := submit_headers c start raws now = (c, Err e) in
  let tip := hc_base_height c + zlen (hc_headers c) in
  (MAX_HEADERS_PER_SUBMIT < zlen raws ->
     refused (BatchTooLarge (zlen raws) MAX_HEADERS_PER_SUBMIT)) /\
  (zlen raws <= MAX_HEADERS_PER_SUBMIT ->
     (start <= hc_base_height c -> refused (BelowCheckpoint start (hc_base_height c))) /\
     (tip + 1 < start -> refused (NonContiguous start tip)) /\
     (hc_base_height c < start -> MAX_REORG_DEPTH < tip + 1 - start ->
        refused (ReorgTooDeep (tip + 1 - start) MAX_REORG_DEPTH)) /\
     (hc_base_height c < start -> 0 <= tip + 1 - start <= MAX_REORG_DEPTH ->
        let len := start - 1 - hc_base_height c + zlen raws in
        hc_max_stored_headers c < len ->
        refused (ChainTooLong len (hc_max_stored_headers c)))).
Proof.
  intros [W V] Hne refused tip. unfold refused, tip.
  assert (Hz : 0 < zlen raws).
  { destruct raws; [done|]. rewrite zlen_cons. pose proof (zlen_nonneg raws). lia. }
  pose proof (zlen_nonneg (hc_headers c)).
  split; [|intros Hm; split_and!]; intros; cbv zeta; intros;
    rewrite submit_headers_eq by done; unfold submit_guard, MAX_REORG_DEPTH in *;
    repeat match goal with |- context [if ?b then _ else _] => destruct b eqn:? end;
    zbool; (done || lia).
Qed.

(** An accepted batch never lowers the total work of the chain, and a reorg
    strictly raises it (ties go to the existing chain), as long as the 256-bit
    sums of the displaced and of the new headers do not overflow. *)
Theorem accepted_batch_work c start raws now c' o :
  chain_inv c ->
  submit_headers c start raws now = (c', Ok o) ->
  chain_work (drop (Z.to_nat (start - 1 - hc_base_height c)) (hc_headers c)) < 2 ^ 256 ->
  chain_work (drop (Z.to_nat (start - 1 - hc_base_height c)) (hc_headers c')) < 2 ^ 256 ->
  chain_work (hc_headers c) <= chain_work (hc_headers c') /\
  (0 < reorg_depth o -> chain_work (hc_headers c) < chain_work (hc_headers c')).
Proof.
  intros I Hsub Hb1 Hb2. destruct (submit_headers_cases c start raws now I)
    as [(e & H)|[(-> & H)|(Hne & new & d & o' & H & A)]]; rewrite H in Hsub; [done| |].
  { injection Hsub as <- <-. cbn. lia. }
  injection Hsub as -> ->. destruct I as [W V].
  pose proof (kept_zlen c start (acc_start _ _ _ _ _ _ A)) as Hk.
  destruct A. subst c'. cbn [extend_chain set_headers hc_headers] in *.
  rewrite (headers_split c start), !chain_work_app.
  rewrite drop_app_length' in Hb2 by (unfold zlen in Hk; lia).
  unfold weaker_reorg in acc_stronger0. subst o. cbn [reorg_depth].
  destruct (drop _ (hc_headers c)) as [|d ds] eqn:Ed.
  - pose proof (chain_work_nonneg new). change (chain_work []) with 0. split; [lia|].
    apply (f_equal length) in Ed. rewrite length_drop in Ed. cbn in Ed.
    destruct acc_start0. unfold zlen in *. lia.
  - destruct new as [|h new]; [by apply Forall2_nil_inv_r in acc_new0|].
    rewrite !sum_work_chain_work in acc_stronger0 by done. zbool. lia.
Qed.

(** An accepted batch displaces at most [MAX_REORG_DEPTH] headers: every
    header more than 100 blocks below the old tip stays at its height. *)
Theorem reorg_depth_bounded c start raws now c' o :
  chain_inv c -> submit_headers c start raws now = (c', Ok o) ->
  0 <= reorg_depth o <= MAX_REORG_DEPTH /\
  forall k, k <= tip_height c - MAX_REORG_DEPTH -> header_at c' k = header_at c k.
Proof.
  intros I Hsub. destruct (submit_headers_cases c start raws now I)
    as [(e & H)|[(-> & H)|(Hne & new & d & o' & H & A)]]; rewrite H in Hsub; [done| |].
  { by injection Hsub as <- <-. }
  injection Hsub as -> ->. rewrite (tip_height_eq c (proj1 I)).
  pose proof (kept_zlen c start (acc_start _ _ _ _ _ _ A)) as Hk.
  destruct A. destruct acc_start0. subst c' o. cbn [reorg_depth]. split; [lia|].
  intros k Hkt. unfold header_at. cbn [extend_chain set_headers hc_headers hc_base_height].
  destruct (k <=? hc_base_height c) eqn:E; [done|]. zbool.
  destruct (proj1 I) as []. rewrite wrap32_small by (unfold is_u32; lia).
  unfold zlen in Hk. rewrite lookup_app_l by lia.
  unfold kept_headers. by rewrite lookup_take_lt by lia.
Qed.

(** Above a checkpoint that [assert_retarget_aligned] accepts, no batch is
    ever refused for a missing block: the retarget, period and median lookups
    always find their header, so the chain cannot wedge. *)
Theorem aligned_chain_never_wedges c start raws now k :
  chain_inv c ->
  assert_retarget_aligned (hc_checkpoint c) (hc_network c) = Ok tt ->
  snd (submit_headers c start raws now) <> Err (HeaderNotFound k).
Proof.
  intros [W V] Ha. rewrite submit_headers_eq by done.
  assert (Ha' : enforces_pow (hc_network c) = true ->
                is_retarget_height (hc_base_height c) = true).
  { unfold assert_retarget_aligned in Ha. apply refuse_ok in Ha.
    rewrite (wf_height c W). intros Hp. rewrite Hp in Ha. by destruct (is_retarget_height _). }
  destruct (submit_guard c start raws) as [e|] eqn:Eg.
  { unfold submit_guard in Eg. repeat case_match; simplify_eq; done. }
  destruct (zlen raws =? 0) eqn:E0; [done|]. zbool.
  apply submit_guard_None in Eg as (Hm & Hs & Hd & Hr); [|done].
  pose proof (stage_headers_found c start now k raws [] W Hs) as Hf.
  change (stage []) with (@nil (Header * bytes)) in Hf. rewrite zlen_nil in Hf.
  pose proof (wf_room c W).
  destruct (stage_headers _ _ _ _ _ _ _) as [staged|e|]; cbn [snd].
  - by destruct (weaker_reorg _ _ _).
  - intros [= ->]. apply Hf; [lia|done|done].
  - done.
Qed.

(** Above a checkpoint off the retarget grid of a PoW network, the first
    boundary block is refused whatever the header says: the block 2016 below
    it is not stored.  [assert_retarget_aligned] is what prevents it. *)
Theorem unaligned_chain_wedges c raw h now :
  chain_inv c -> enforces_pow (hc_network c) = true ->
  is_retarget_height (tip_height c + 1) = true ->
  tip_height c + 1 - RETARGET_INTERVAL < hc_base_height c ->
  zlen (hc_headers c) < hc_max_stored_headers c ->
  deserialize_header raw = inl h ->
  exists k, submit_headers c (tip_height c + 1) [raw] now = (c, Err (HeaderNotFound k)).
Proof.
  intros [W V] Hp Hr Hlow Hroom Hd. rewrite submit_headers_eq by done.
  rewrite tip_height_eq in * by done. pose proof (zlen_nonneg (hc_headers c)) as Hz.
  set (start := hc_base_height c + zlen (hc_headers c) + 1) in *.
  assert (Hs : start_ok c start) by (unfold start_ok, start; lia).
  assert (submit_guard c start [raw] = None) as ->.
  { unfold submit_guard, MAX_HEADERS_PER_SUBMIT, MAX_REORG_DEPTH. change (zlen [raw]) with 1.
    repeat case_match; zbool; unfold start in *; try done; lia. }
  change (zlen [raw] =? 0) with false.
  pose proof (wf_room c W). pose proof (stage_headers_step c start now raw [] [] W Hs) as Hst.
  change (stage []) with (@nil (Header * bytes)) in Hst. rewrite zlen_nil, Hd in Hst.
  rewrite Hst by (unfold start; lia). rewrite app_nil_r.
  unfold next_check. rewrite Hp.
  assert (Hn : next_height c (kept_headers c start) = start).
  { unfold next_height. rewrite kept_zlen by done. lia. }
  unfold required_bits. rewrite Hn, Hr.
  destruct (top_block c (kept_headers c start)) as [[ph pb] pt].
  rewrite block_below_None by lia. cbn [rbind]. by eexists.
Qed.

(** On mainnet all blocks of one retarget period that the chain knows,
    the checkpoint included, carry the same [nBits]. *)
Theorem mainnet_period_bits c j k tj bj tk bk :
  chain_inv c -> hc_network c = Mainnet ->
  hc_base_height c <= j <= k ->
  j / RETARGET_INTERVAL = k / RETARGET_INTERVAL ->
  block_below c (hc_headers c) j = Some (tj, bj) ->
  block_below c (hc_headers c) k = Some (tk, bk) ->
  bj = bk.
Proof.
  intros [W V] Hn Hjk Hper Hj. pose proof (wf_base c W) as Hb0.
  assert (Hm : allows_min_difficulty (hc_network c) = false).
  { rewrite Hn. apply min_difficulty_mainnet. }
  revert tk bk Hper. replace k with (j + Z.of_nat (Z.to_nat (k - j))) by lia.
  assert (Hb : hc_base_height c <= j) by lia.
  generalize (Z.to_nat (k - j)) as d. clear k Hjk.
  induction d as [|d IH]; intros tk bk Hper Hk.
  - rewrite Z.add_0_r in Hk. congruence.
  - assert (Hr : is_retarget_height (j + Z.of_nat (S d)) = false).
    { apply same_period_not_boundary with j; [lia|done]. }
    destruct (block_bits_step c _ (j + Z.of_nat (S d)) tk bk V) as (pt & pb & Hprev & Hbits);
      [by rewrite Hn|lia|done|done|]. rewrite Hm in Hbits. subst pb.
    replace (j + Z.of_nat (S d) - 1) with (j + Z.of_nat d) in Hprev by lia.
    apply (IH pt bk); [|done].
    apply Z.le_antisymm; [apply Z.div_le_mono; unfold RETARGET_INTERVAL; lia|].
    rewrite Hper. apply Z.div_le_mono; unfold RETARGET_INTERVAL; lia.
Qed.

(** On the testnets the lookup of the period's first block that
    [expected_bits] uses is Bitcoin Core's walk back over min-difficulty
    blocks: on every valid chain both give the same [nBits]. *)
Theorem period_bits_is_walk_back c k :
  chain_inv c -> allows_min_difficulty (hc_network c) = true ->
  assert_retarget_aligned (hc_checkpoint c) (hc_network c) = Ok tt ->
  hc_base_height c <= k <= tip_height c ->
  walk_back c (hc_headers c) (Z.to_nat (k mod RETARGET_INTERVAL)) k =
  snd <$> block_below c (hc_headers c) (k - k mod RETARGET_INTERVAL).
Proof.
  intros [W V] Hm Ha Hk. pose proof (wf_base c W) as Hb0.
  assert (Hp : enforces_pow (hc_network c) = true) by (apply andb_true_iff in Hm; tauto).
  assert (Hal : hc_base_height c mod RETARGET_INTERVAL = 0).
  { unfold assert_retarget_aligned in Ha. apply refuse_ok in Ha. rewrite Hp in Ha.
    rewrite (wf_height c W). cbn [andb] in Ha. apply negb_false_iff in Ha.
    by apply Z.eqb_eq in Ha. }
  rewrite tip_height_eq in Hk by done.
  remember (Z.to_nat (k mod RETARGET_INTERVAL)) as f eqn:Ef. revert k Hk Ef.
  induction f as [|f IH]; intros k Hk Ef.
  all: pose proof (Z.mod_pos_bound k RETARGET_INTERVAL eq_refl) as Hmod.
  all: destruct (block_below_is_Some c (hc_headers c) k) as [[t b] Hb];
    [unfold next_height; lia|]; cbn [walk_back]; rewrite Hb.
  - replace (k - k mod RETARGET_INTERVAL) with k by lia. by rewrite Hb.
  - assert (Hr : is_retarget_height k = false) by (apply Z.eqb_neq; lia).
    assert (Hbk : hc_base_height c < k).
    { destruct (decide (k = hc_base_height c)); [|lia]. subst k. lia. }
    rewrite Hr. cbn [negb andb].
    destruct (block_bits_step c _ _ t b V Hp Hbk Hb Hr) as (pt & pb & Hprev & Hbits).
    rewrite Hm in Hbits. destruct Hbits as (ft & fb & Hf & Hbv).
    destruct (b =? pow_limit_bits (hc_network c)) eqn:Eb.
    + assert (Hpm : (k - 1) mod RETARGET_INTERVAL = k mod RETARGET_INTERVAL - 1)
        by (apply mod_pred; lia).
      rewrite IH by lia. f_equal. f_equal. lia.
    + rewrite Hf. zbool. cbn. f_equal. destruct (pt + 1200 <? t); congruence.
Qed.

(** [confirmations] is the number of headers from the given height to the
    tip, capped, and zero where the chain holds no header. *)
Lemma confirmations_spec c height cap :
  chain_inv c -> is_u32 height ->
  confirmations c height cap =
  if (hc_base_height c <? height) && (height <=? tip_height c)
  then Z.min (tip_height c - height + 1) cap else 0.
Proof.
  intros [W V] Hh. unfold confirmations, is_u32 in *.
  pose proof (tip_height_eq c W) as Ht. pose proof (wf_base c W). pose proof (wf_len c W).
  pose proof (wf_room c W).
  destruct (hc_base_height c <? height) eqn:E1; zbool; cbn [andb].
  - rewrite header_at_eq by (done || lia).
    destruct (height <=? tip_height c) eqn:E2; zbool.
    + destruct (lookup_lt_is_Some_2 (hc_headers c)
        (Z.to_nat (height - hc_base_height c - 1))) as [h ->]; [unfold zlen in *; lia|].
      rewrite wrap32_small; [done|]. unfold is_u32. lia.
    + by rewrite lookup_ge_None_2 by (unfold zlen in *; lia).
  - unfold header_at. by rewrite (proj2 (Z.leb_le _ _)) by lia.
Qed.

(** The stored hashes form a chain: the header at height [k + 1] names the
    hash the chain reports at height [k], down to the checkpoint hash. *)
Theorem hash_at_linkage c k h :
  chain_inv c -> is_u32 k -> header_at c (k + 1) = Some h ->
  hash_at c k = Some (prev_blockhash h).
Proof.
  intros [W V] Hk Hh. assert (Hb : hc_base_height c <= k).
  { unfold header_at in Hh. destruct (_ <=? _) eqn:E; zbool; [done|lia]. }
  assert (Hk2 : k + 1 < 2 ^ 32).
  { destruct (decide (k + 1 = 2 ^ 32)) as [E|]; [|unfold is_u32 in Hk; lia].
    exfalso. destruct W. unfold header_at in Hh.
    rewrite (proj2 (Z.leb_gt _ _)) in Hh by lia.
    rewrite wrap32_small in Hh by (unfold is_u32; lia).
    apply lookup_lt_Some in Hh. unfold zlen in *. lia. }
  rewrite header_at_eq in Hh by (done || lia).
  destruct (valid_chain_lookup _ _ _ _ V Hh) as [now Hok].
  rewrite (ho_link _ _ _ _ Hok). apply lookup_lt_Some in Hh.
  unfold top_block, hash_at.
  destruct (k =? hc_base_height c) eqn:E; zbool.
  - subst k. replace (Z.to_nat (hc_base_height c + 1 - hc_base_height c - 1)) with 0%nat by lia.
    done.
  - pose proof (wf_base c W). rewrite (proj2 (Z.ltb_ge _ _)) by lia. rewrite wrap32_small by (unfold is_u32 in *; lia).
    rewrite last_take_lookup by lia. rewrite (wf_hashes c W), list_lookup_fmap.
    replace (pred (Z.to_nat (k + 1 - hc_base_height c - 1)))
      with (Z.to_nat (k - hc_base_height c - 1)) by lia.
    destruct (lookup_lt_is_Some_2 (hc_headers c) (Z.to_nat (k - hc_base_height c - 1)))
      as [h' Hh']; [lia|]. by rewrite Hh'.
Qed.

End Claims.

(** ** Examples: the theorems at a concrete chain *)

Lemma small_chain_inv n : chain_inv (small_chain n).
Proof. apply submit_headers_inv, new_chain_inv; by vm_compute. Qed.

Lemma reachable_chain_valid_witness :
  chain_wf (small_chain Mainnet) /\
  valid_chain (small_chain Mainnet) (hc_headers (small_chain Mainnet)).
Proof.
  apply (reachable_chain_valid Mainnet small_checkpoint); [by vm_compute|by vm_compute|].
  apply reach_submit, reach_new.
Defined.

(** The outcome of the example reorg. *)
Definition fork_outcome : SubmitOutcome := {|
  last_block_height := 2020; last_block_hash := [x14];
  headers_accepted := 3; reorg_depth := 2 |}.

Lemma small_fork_accepted :
  submit_headers (small_chain Mainnet) 2018 small_fork 20000 =
  (fst (submit_headers (small_chain Mainnet) 2018 small_fork 20000), Ok fork_outcome).
Proof.
  assert (snd (submit_headers (small_chain Mainnet) 2018 small_fork 20000) = Ok fork_outcome)
    as <- by (vm_compute; reflexivity).
  apply surjective_pairing.
Qed.

Lemma submit_headers_functional_witness :
  exists new,
    hc_headers (fst (submit_headers (small_chain Mainnet) 2018 small_fork 20000)) =
      kept_headers (small_chain Mainnet) 2018 ++ new /\
    reorg_depth fork_outcome = tip_height (small_chain Mainnet) + 1 - 2018.
Proof.
  pose proof (submit_headers_functional (small_chain Mainnet) 2018 small_fork 20000
                (small_chain_inv Mainnet)) as H.
  rewrite small_fork_accepted in H.
  destruct H as [(H & _)|(new & _ & H1 & _ & _ & _ & H2)]; [discriminate H|].
  exists new. by split.
Defined.

Lemma submit_headers_guards_witness :
  submit_headers (small_chain Mainnet) 2021 small_fork 20000
  = (small_chain Mainnet, Err (NonContiguous 2021 2019)).
Proof.
  apply (submit_headers_guards (small_chain Mainnet) 2021 small_fork 20000
           (small_chain_inv Mainnet)); by vm_compute.
Defined.

Lemma accepted_batch_work_witness :
  chain_work (hc_headers (small_chain Mainnet)) <
  chain_work (hc_headers (fst (submit_headers (small_chain Mainnet) 2018 small_fork 20000))).
Proof.
  apply (accepted_batch_work (small_chain Mainnet) 2018 small_fork 20000 _
           fork_outcome (small_chain_inv Mainnet) small_fork_accepted); by vm_compute.
Defined.

Lemma reorg_depth_bounded_witness :
  0 <= 2 <= MAX_REORG_DEPTH.
Proof.
  apply (reorg_depth_bounded (small_chain Mainnet) 2018 small_fork 20000
           (fst (submit_headers (small_chain Mainnet) 2018 small_fork 20000))
           fork_outcome (small_chain_inv Mainnet) small_fork_accepted).
Defined.

Lemma aligned_chain_never_wedges_witness :
  snd (submit_headers (small_chain Testnet4) 2018 small_fork 20000) <> Err (HeaderNotFound 0).
Proof.
  apply (aligned_chain_never_wedges (small_chain Testnet4) 2018 small_fork 20000 0
           (small_chain_inv Testnet4)). by vm_compute.
Defined.

(** A checkpoint one block below a boundary. *)
Definition unaligned_checkpoint : Checkpoint := {|
  cp_height := 4031; cp_hash := [x00]; cp_bits := 7; cp_time := 10000;
  cp_is_real := true; cp_chain_work := None |}.

Lemma unaligned_chain_wedges_witness :
  exists k, submit_headers (new_chain Mainnet unaligned_checkpoint) 4032
              [raw_header x00 10600 x07 x01] 20000
            = (new_chain Mainnet unaligned_checkpoint, Err (HeaderNotFound k)).
Proof.
  apply (unaligned_chain_wedges (B := small_crate) (new_chain Mainnet unaligned_checkpoint)
           (raw_header x00 10600 x07 x01)
           {| sh_prev := x00; sh_time := be_split 4 10600; sh_bits := x07; sh_id := x01 |});
    [apply new_chain_inv|..]; by vm_compute.
Defined.

Lemma mainnet_period_bits_witness : 7 = b2z x07.
Proof.
  apply (mainnet_period_bits (small_chain Mainnet) 2016 2019 10000 7 11800 (b2z x07)
           (small_chain_inv Mainnet)); by vm_compute.
Defined.

(** A testnet4 chain whose second block is more than 20 minutes late. *)
Definition testnet_chain : HeaderChain :=
  fst (submit_headers (new_chain Testnet4 small_checkpoint) 2017
         [raw_header x00 10600 x07 x01; raw_header x01 12200 xff x02;
          raw_header x02 12300 x07 x03; raw_header x03 15000 xff x04] 20000).

Lemma testnet_chain_inv : chain_inv testnet_chain.
Proof. apply submit_headers_inv, new_chain_inv; by vm_compute. Qed.

Lemma period_bits_is_walk_back_witness :
  walk_back testnet_chain (hc_headers testnet_chain)
    (Z.to_nat (2020 mod RETARGET_INTERVAL)) 2020 = Some 7.
Proof.
  rewrite (period_bits_is_walk_back testnet_chain 2020 testnet_chain_inv); by vm_compute.
Defined.

Example confirmations_small : confirmations (small_chain Mainnet) 2018 6 = 2.
Proof. by vm_compute. Qed.

Lemma hash_at_linkage_witness : hash_at (small_chain Mainnet) 2018 = Some [x02].
Proof.
  apply (hash_at_linkage (B := small_crate) (small_chain Mainnet) 2018
           {| sh_prev := x02; sh_time := be_split 4 11800; sh_bits := x07; sh_id := x03 |}
           (small_chain_inv Mainnet)); by vm_compute.
Defined.
