(* ===== verification/SpvServer.v ===== *)
(** * SPV requests (src/enclave/src/server/rate_limit.rs, server/spv.rs)

    The fixed-window rate limit of [SubmitHeaders], and the two SPV handlers
    over the shared limiter and header chain.  A [SystemTime] is a [Z],
    nanoseconds since the Unix epoch; it may run backwards. *)

From stdpp Require Import sorting base numbers list list_numbers strings.
From S2P Require Import Prelude Errors SpvTypes SpvValidation SpvChain SpvChainSpec.
From S2P Require Import SpvConcrete SpvChainFacts SpvChainProps.

(** ** The rate limiter *)

Definition MAX_HEADERS_PER_RATE_WINDOW : Z := 100000.
Definition RATE_LIMIT_WINDOW : Z := secs 60.

Record SubmitRateLimiter : Type := {
  window_start : option Z;
  headers_in_window : Z
}.

Definition default_limiter : SubmitRateLimiter :=
  {| window_start := None; headers_in_window := 0 |}.

(** [SubmitRateLimiter::check]; [duration_since] fails when the clock is
    before the start of the window. *)
Definition check (l : SubmitRateLimiter) (count now : Z)
    : SubmitRateLimiter * enclave_result unit :=
  let reset :=
    match window_start l with
    | None => true
    | Some start =>
        if start <=? now then RATE_LIMIT_WINDOW <=? now - start else true
    end in
  let l := if reset then {| window_start := Some now; headers_in_window := 0 |} else l in
  let l := {| window_start := window_start l;
              headers_in_window := sat_add64 (headers_in_window l) count |} in
  if MAX_HEADERS_PER_RATE_WINDOW <? headers_in_window l then
    (l, Err (Spv "SubmitHeaders rate limit exceeded"))
  else (l, Ok tt).

(** ** The handlers *)

(** [SpvError]'s [Display], without the interpolated values. *)
Definition spv_message (e : SpvError) : string :=
  match e with
  | HeaderParse _ m => "header parse failed: " +:+ m
  | ChainLinkage _ => "chain linkage broken: prev_blockhash mismatch"
  | PowFailed _ => "header fails PoW: hash > target"
  | BitsMismatch _ _ _ => "nBits mismatch"
  | NonContiguous _ _ => "batch start_height leaves a gap above tip"
  | BelowCheckpoint _ _ => "batch start_height is at or below checkpoint"
  | ReorgTooDeep _ _ => "reorg depth exceeds maximum"
  | WeakerChain => "alternative chain has weaker or equal cumulative work"
  | BatchTooLarge _ _ => "submitted batch exceeds the per-call cap"
  | ChainTooLong _ _ => "accepting this batch would exceed the total-retention cap"
  | Timewarp _ _ _ => "header breaks the BIP94 timewarp rule"
  | TimeTooNew _ _ _ => "header time is more than 2h after the enclave clock"
  | TimeTooOld _ _ _ => "header time is at or before the median time past"
  | HeaderNotFound _ => "no header at height"
  | CheckpointPlaceholder => "checkpoint placeholder - refusing to operate"
  end.

Definition spv_error (e : SpvError) : EnclaveError := Spv (spv_message e).

Record SubmitHeadersRequest : Type := {
  shr_start_height : Z;
  shr_headers : list bytes
}.

Record SubmitHeadersResponse : Type := {
  shs_last_block_height : Z;
  shs_last_block_hash : bytes;
  shs_headers_accepted : Z
}.

Record GetLastSavedBlockResponse : Type := {
  gls_block_height : Z;
  gls_block_hash : bytes
}.

Section Handlers.
Context {B : BitcoinCrate}.

(** The two fields of [ServerContext] the handlers use. *)
Record SpvContext : Type := {
  submit_rate_limiter : mutex SubmitRateLimiter;
  header_chain : mutex HeaderChain
}.

(** [handle_submit_headers] at the clock reading [now].  Both locks recover
    from poison. *)
Definition handle_submit_headers (ctx : SpvContext) (req : SubmitHeadersRequest) (now : Z)
    : SpvContext * enclave_result SubmitHeadersResponse :=
  let '(limiter, admitted) :=
    check (contents (submit_rate_limiter ctx)) (zlen (shr_headers req)) now in
  let ctx := {| submit_rate_limiter := set_contents (submit_rate_limiter ctx) limiter;
                header_chain := header_chain ctx |} in
  match admitted with
  | Err e => (ctx, Err e)
  | Panic => (ctx, Panic)
  | Ok _ =>
      if now <? 0 then (ctx, Err (Internal "system clock is before UNIX_EPOCH"))
      else
        let now_unix := now / secs 1 in
        let '(chain, outcome) :=
          submit_headers (contents (header_chain ctx)) (shr_start_height req)
            (shr_headers req) now_unix in
        let ctx := {| submit_rate_limiter := submit_rate_limiter ctx;
                      header_chain := set_contents (header_chain ctx) chain |} in
        (ctx,
         let? o := rmap_err spv_error outcome in
         Ok {| shs_last_block_height := last_block_height o;
               shs_last_block_hash := last_block_hash o;
               shs_headers_accepted := headers_accepted o |})
  end.

Definition handle_get_last_saved_block (ctx : SpvContext) : GetLastSavedBlockResponse :=
  let chain := contents (header_chain ctx) in
  {| gls_block_height := tip_height chain; gls_block_hash := tip_hash chain |}.

End Handlers.

(** ** What the limiter promises *)

(** The calls [(count, now)] in order, each with whether it was admitted. *)
Fixpoint run_checks (l : SubmitRateLimiter) (calls : list (Z * Z)) : list (Z * Z * bool) :=
  match calls with
  | [] => []
  | (count, now) :: calls =>
      let '(l', r) := check l count now in
      (count, now, match r with Ok _ => true | _ => false end) :: run_checks l' calls
  end.

(** Headers of the admitted calls in [lo, hi). *)
Definition admitted_between (lo hi : Z) (log : list (Z * Z * bool)) : Z :=
  foldr Z.add 0
    (map (fun '(count, now, ok) =>
            if ok && (lo <=? now) && (now <? hi) then count else 0) log).

Definition budget_left (l : SubmitRateLimiter) : Z :=
  Z.max 0 (MAX_HEADERS_PER_RATE_WINDOW - headers_in_window l).

Definition calls_ok (from : Z) (calls : list (Z * Z)) : Prop :=
  Sorted Z.le (from :: map snd calls) /\ Forall (fun '(c, _) => 0 <= c) calls.

(** The window [l] holds covers [now]. *)
Definition in_window (l : SubmitRateLimiter) (now : Z) : bool :=
  match window_start l with
  | None => false
  | Some start => (start <=? now) && (now - start <? RATE_LIMIT_WINDOW)
  end.

Ltac limiter_case :=
  case_match eqn:Ec; zbool; cbn [fst snd];
  do 2 eexists; (split; [reflexivity|]); (split; [done|]); (split; [done|]);
  (split; [split; intros ?; (lia || done)|done]).

Lemma check_cases l count now :
  0 <= count -> 0 <= headers_in_window l ->
  exists s n, fst (check l count now) = {| window_start := Some s; headers_in_window := n |} /\
    (if in_window l now then window_start l = Some s else s = now) /\
    n = Z.min ((if in_window l now then headers_in_window l else 0) + count) u64_max /\
    (snd (check l count now) = Ok tt <-> n <= MAX_HEADERS_PER_RATE_WINDOW) /\
    (snd (check l count now) <> Ok tt ->
     snd (check l count now) = Err (Spv "SubmitHeaders rate limit exceeded")).
Proof.
  intros Hc Hh. unfold check, in_window, sat_add64. destruct (window_start l) as [s|] eqn:Es.
  - replace (if s <=? now then RATE_LIMIT_WINDOW <=? now - s else true)
      with (negb ((s <=? now) && (now - s <? RATE_LIMIT_WINDOW))).
    2: { rewrite (Z.leb_antisym _ RATE_LIMIT_WINDOW). by destruct (s <=? now), (now - s <? RATE_LIMIT_WINDOW). }
    destruct ((s <=? now) && _); cbn [negb window_start headers_in_window]; rewrite ?Es;
      limiter_case.
  - cbn [window_start headers_in_window]. limiter_case.
Qed.

Lemma check_result l count now :
  snd (check l count now) = Ok tt \/
  snd (check l count now) = Err (Spv "SubmitHeaders rate limit exceeded").
Proof. unfold check. case_match; [by right|by left]. Qed.

Lemma admitted_between_cons lo hi e log :
  admitted_between lo hi (e :: log) =
  (let '(count, now, ok) := e in if ok && (lo <=? now) && (now <? hi) then count else 0)
  + admitted_between lo hi log.
Proof. done. Qed.

Lemma calls_ok_cons from count now calls :
  calls_ok from ((count, now) :: calls) ->
  0 <= count /\ from <= now /\ calls_ok now calls.
Proof.
  intros [Hs Hf]. apply Forall_cons in Hf as [Hc Hf]. cbn in Hs.
  apply Sorted_inv in Hs as [Hs Hh]. apply HdRel_inv in Hh. done.
Qed.

(** One call admits at most what the budget loses. *)
Lemma run_checks_cons l count now calls :
  0 <= count -> 0 <= headers_in_window l ->
  exists l' ok, run_checks l ((count, now) :: calls) = (count, now, ok) :: run_checks l' calls /\
    0 <= headers_in_window l' /\
    (exists s, window_start l' = Some s /\
       if in_window l now then window_start l = Some s else s = now) /\
    (if ok then count else 0) + budget_left l' <=
      (if in_window l now then budget_left l else MAX_HEADERS_PER_RATE_WINDOW).
Proof.
  intros Hc Hh. destruct (check_cases l count now Hc Hh) as (s & n & E & Hw & En & Hok & Herr).
  cbn [run_checks]. destruct (check l count now) as [l' r]. cbn [fst snd] in *. subst l'.
  assert (Hn : 0 <= n) by (subst n; unfold u64_max; destruct (in_window l now); lia).
  eexists _, _. split; [reflexivity|]. cbn [headers_in_window window_start].
  split; [done|]. split; [by exists s|].
  unfold budget_left, u64_max, MAX_HEADERS_PER_RATE_WINDOW in *. cbn [headers_in_window].
  destruct (decide (n <= 100000)) as [Hle|Hgt].
  - rewrite (proj2 Hok Hle). destruct (in_window l now); lia.
  - rewrite Herr by tauto. destruct (in_window l now); lia.
Qed.

(** Inside the window of [l], only its budget can be admitted. *)
Lemma admitted_in_window lo l s from calls :
  calls_ok from calls -> 0 <= headers_in_window l ->
  window_start l = Some s -> lo <= s <= from ->
  admitted_between lo (lo + RATE_LIMIT_WINDOW) (run_checks l calls) <= budget_left l.
Proof.
  revert l s from. induction calls as [|[count now] calls IH]; intros l s from Hc Hh Hs Hlo.
  { cbn. unfold budget_left. lia. }
  apply calls_ok_cons in Hc as (Hc0 & Hfrom & Hc).
  destruct (run_checks_cons l count now calls Hc0 Hh)
    as (l' & ok & -> & Hh' & (s' & Hs' & Hw) & Hb).
  rewrite admitted_between_cons. unfold in_window in Hw, Hb. rewrite Hs in Hw, Hb.
  destruct ((s <=? now) && (now - s <? RATE_LIMIT_WINDOW)) eqn:E.
  - injection Hw as <-. specialize (IH l' s now Hc Hh' Hs'). zbool.
    destruct (ok && _ && _) eqn:E2; [|destruct ok; lia].
    apply andb_true_iff in E2 as [E2 _]. apply andb_true_iff in E2 as [-> _]. lia.
  - subst s'. specialize (IH l' now now Hc Hh' Hs'). zbool.
    assert (Hout : lo + RATE_LIMIT_WINDOW <= now) by lia.
    rewrite (proj2 (Z.ltb_ge _ _) Hout), andb_false_r.
    assert (0 <= budget_left l) by (unfold budget_left; lia).
    enough (admitted_between lo (lo + RATE_LIMIT_WINDOW) (run_checks l' calls) <= 0) by lia.
    clear - Hc Hout. revert now l' Hc Hout.
    induction calls as [|[c n] calls IH]; intros now l' Hc Hout; [done|].
    apply calls_ok_cons in Hc as (Hc0 & Hn & Hc). cbn [run_checks].
    destruct (check l' c n) as [l2 r]. rewrite admitted_between_cons.
    rewrite (proj2 (Z.ltb_ge n _)) by lia. rewrite andb_false_r.
    specialize (IH n l2 Hc). lia.
Qed.

(** The calls from [lo] on: the old window's budget, then one new window. *)
Lemma admitted_from lo l from calls :
  calls_ok from calls -> 0 <= headers_in_window l -> lo <= from ->
  admitted_between lo (lo + RATE_LIMIT_WINDOW) (run_checks l calls) <=
    budget_left l + MAX_HEADERS_PER_RATE_WINDOW.
Proof.
  revert l from. induction calls as [|[count now] calls IH]; intros l from Hc Hh Hlo.
  { cbn. unfold budget_left, MAX_HEADERS_PER_RATE_WINDOW. lia. }
  apply calls_ok_cons in Hc as (Hc0 & Hfrom & Hc).
  destruct (run_checks_cons l count now calls Hc0 Hh)
    as (l' & ok & -> & Hh' & (s' & Hs' & Hw) & Hb).
  rewrite admitted_between_cons.
  assert (Hhead : (if ok && (lo <=? now) && (now <? lo + RATE_LIMIT_WINDOW) then count else 0)
                  <= (if ok then count else 0)).
  { destruct ok; [|done]. destruct (lo <=? now), (now <? lo + RATE_LIMIT_WINDOW); cbn; lia. }
  destruct (in_window l now).
  - specialize (IH l' now Hc Hh' ltac:(lia)). lia.
  - subst s'. pose proof (admitted_in_window lo l' now now calls Hc Hh' Hs').
    assert (0 <= budget_left l) by (unfold budget_left; lia). lia.
Qed.

Lemma admitted_any lo l from calls :
  calls_ok from calls -> 0 <= headers_in_window l ->
  admitted_between lo (lo + RATE_LIMIT_WINDOW) (run_checks l calls) <=
    2 * MAX_HEADERS_PER_RATE_WINDOW.
Proof.
  revert l from. induction calls as [|[count now] calls IH]; intros l from Hc Hh; [done|].
  destruct (decide (lo <= now)) as [Hle|Hgt].
  - assert (Hb : budget_left l <= MAX_HEADERS_PER_RATE_WINDOW).
    { unfold budget_left, MAX_HEADERS_PER_RATE_WINDOW. lia. }
    enough (admitted_between lo (lo + RATE_LIMIT_WINDOW) (run_checks l ((count, now) :: calls))
            <= budget_left l + MAX_HEADERS_PER_RATE_WINDOW) by lia.
    apply (admitted_from lo l now); [|done|done].
    destruct Hc as [Hs Hf]. split; [|done]. cbn in *. apply Sorted_inv in Hs as [Hs _].
    constructor; [done|]. constructor. lia.
  - apply calls_ok_cons in Hc as (Hc0 & Hfrom & Hc).
    destruct (run_checks_cons l count now calls Hc0 Hh) as (l' & ok & -> & Hh' & _ & _).
    rewrite admitted_between_cons, (proj2 (Z.leb_gt lo now)) by lia.
    rewrite andb_false_r. cbn [andb]. specialize (IH l' now Hc Hh'). lia.
Qed.

(** ** Theorems *)

(** With a clock that does not go back, the calls of one fixed window
    admit at most [MAX_HEADERS_PER_RATE_WINDOW] headers, refused calls not
    counted; and any span of [RATE_LIMIT_WINDOW], wherever it starts, sees at
    most twice that (the end of one window and the start of the next). *)
Theorem rate_limit_bound l count now calls :
  0 <= headers_in_window l -> calls_ok now ((count, now) :: calls) ->
  (in_window l now = false ->
   admitted_between now (now + RATE_LIMIT_WINDOW) (run_checks l ((count, now) :: calls))
     <= MAX_HEADERS_PER_RATE_WINDOW) /\
  forall lo,
   admitted_between lo (lo + RATE_LIMIT_WINDOW) (run_checks l ((count, now) :: calls))
     <= 2 * MAX_HEADERS_PER_RATE_WINDOW.
Proof.
  intros Hh Hc. split; [|intros lo; by apply (admitted_any lo l now)].
  intros Hw. pose proof Hc as (Hc0 & _ & Hc')%calls_ok_cons.
  destruct (run_checks_cons l count now calls Hc0 Hh)
    as (l' & ok & -> & Hh' & (s & Hs & Hs') & Hb).
  rewrite Hw in Hs', Hb. subst s.
  pose proof (admitted_in_window now l' now now calls Hc' Hh' Hs ltac:(lia)).
  rewrite admitted_between_cons.
  rewrite (proj2 (Z.leb_le now now)), (proj2 (Z.ltb_lt now _)), !andb_true_r
    by (unfold RATE_LIMIT_WINDOW, secs; lia). lia.
Qed.

(** Two windows back to back: 200,000 headers in two seconds. *)
Definition burst_calls : list (Z * Z) :=
  [(100000, secs 59); (1, secs 60); (100000, secs 61)].

Lemma rate_limit_bound_witness :
  admitted_between (secs 1) (secs 1 + RATE_LIMIT_WINDOW)
    (run_checks default_limiter ((0, secs 1) :: burst_calls)) <= MAX_HEADERS_PER_RATE_WINDOW /\
  admitted_between (secs 59) (secs 59 + RATE_LIMIT_WINDOW)
    (run_checks default_limiter ((0, secs 1) :: burst_calls)) = 2 * MAX_HEADERS_PER_RATE_WINDOW.
Proof.
  split; [|by vm_compute].
  apply (rate_limit_bound default_limiter 0 (secs 1) burst_calls); [done| |done].
  split; [|by repeat constructor].
  repeat first [apply Sorted_cons | apply Sorted_nil | apply HdRel_nil
               | apply HdRel_cons; cbn [snd]; unfold secs; lia].
Defined.

Section Claims.
Context {B : BitcoinCrate} {L : BitcoinCrateLaws B}.

(** [handle_submit_headers] never panics on a valid chain and keeps it
    valid.  When it succeeds, every header of the request was accepted and
    [handle_get_last_saved_block] reports the returned tip; when it fails, the
    header chain is untouched and the error is an SPV one or the clock's. *)
Theorem handle_submit_headers_spec ctx req now :
  chain_inv (contents (header_chain ctx)) ->
  let '(ctx', r) := handle_submit_headers ctx req now in
  chain_inv (contents (header_chain ctx')) /\
  match r with
  | Ok resp =>
      handle_get_last_saved_block ctx' =
        {| gls_block_height := shs_last_block_height resp;
           gls_block_hash := shs_last_block_hash resp |} /\
      shs_headers_accepted resp = zlen (shr_headers req) /\
      (shr_headers req <> [] ->
       shs_last_block_height resp = shr_start_height req + zlen (shr_headers req) - 1)
  | Err e =>
      header_chain ctx' = header_chain ctx /\ (error_code e = 3 \/ now < 0)
  | Panic => False
  end.
Proof.
  intros I. unfold handle_submit_headers.
  pose proof (check_result (contents (submit_rate_limiter ctx)) (zlen (shr_headers req)) now)
    as Hr.
  destruct (check _ _ _) as [l r]. cbn [snd] in Hr. destruct Hr as [-> | ->]; [|by eauto].
  cbn [header_chain]. destruct (now <? 0) eqn:En; [by zbool; eauto|].
  destruct (submit_headers_cases (contents (header_chain ctx)) (shr_start_height req)
              (shr_headers req) (now / secs 1) I)
    as [(e & ->)|[(E & ->)|(Hne & new & c' & o & -> & A)]]; cbn.
  - split; [done|]. split; [by destruct (header_chain ctx)|by left].
  - rewrite E. split; [done|]. split; [done|]. split; [done|]. by intros [].
  - pose proof (accepted_inv _ _ _ _ _ _ I A) as I'. split; [done|].
    pose proof (accepted_new_zlen _ _ _ _ _ _ A) as Hz.
    pose proof (tip_height_eq c' (proj1 I')) as Ht. destruct A as [Hs _ _ _ Hc _ _ ->]. cbn.
    split; [done|]. split; [done|]. intros _. rewrite Ht, Hc.
    cbn [extend_chain set_headers hc_headers hc_base_height].
    rewrite kept_app_zlen by done. lia.
Qed.

End Claims.

Definition small_context : SpvContext := {|
  submit_rate_limiter := new_mutex default_limiter;
  header_chain := new_mutex (small_chain Mainnet) |}.

Lemma handle_submit_headers_spec_witness :
  let r := handle_submit_headers small_context
             {| shr_start_height := 2018; shr_headers := small_fork |} (secs 20000) in
  chain_inv (contents (header_chain (fst r))) /\
  gls_block_height (handle_get_last_saved_block (fst r)) = 2020.
Proof.
  pose proof (handle_submit_headers_spec small_context
    {| shr_start_height := 2018; shr_headers := small_fork |} (secs 20000)
    (small_chain_inv Mainnet)) as H.
  destruct (handle_submit_headers _ _ _) as [ctx' r] eqn:E. cbn. split; [apply H|].
  assert (ctx' = fst (handle_submit_headers small_context
    {| shr_start_height := 2018; shr_headers := small_fork |} (secs 20000))) as -> by
    by rewrite E.
  vm_compute. reflexivity.
Defined.
