(* ===== verification/SpvMerkle.v ===== *)
(** * Merkle inclusion proofs (src/enclave/src/networks/rgb/spv/merkle.rs)

    [verify_merkle_proof] and its refusal of 64-byte transactions, against a
    reference definition of Bitcoin's Merkle tree and of the transaction
    serialization.  [sha256d] is a parameter. *)

From stdpp Require Import sorting base numbers sets list list_numbers.
From S2P Require Import Prelude.

Definition MAX_MERKLE_PATH_DEPTH : Z := 32.
Definition MAX_MONEY_SATS : Z := 21000000 * 100000000.

Inductive MerkleError : Type :=
| BadSiblingLength (index len : Z)
| RootMismatch (computed expected : bytes)
| PositionOutOfRange (position depth : Z)
| TransactionShapedNode (level : Z).

(** [node[i]] of a 64-byte array; the indices used are all below 60. *)
Definition byte_at (node : bytes) (i : Z) : Z := b2z (nth (Z.to_nat i) node x00).

Definition is_64_byte_transaction (node : bytes) : bool :=
  if negb (byte_at node 4 =? 1) then false
  else
    let s := byte_at node 41 in
    if (4 <? s) || negb (byte_at node (46 + s) =? 1) then false
    else
      let value := take 8 (drop (Z.to_nat (47 + s)) node) in
      (le_combine value <=? MAX_MONEY_SATS) && (byte_at node (55 + s) =? 4 - s).

Section Verify.
Variable sha256d : bytes -> bytes.

(** The 64 bytes hashed at one level. *)
Definition node_buf (idx : Z) (current sibling : bytes) : bytes :=
  if Z.land idx 1 =? 0 then current ++ sibling else sibling ++ current.

(** The loop: the hash and the position bits left after the path. *)
Fixpoint merkle_loop (i : Z) (current : bytes) (idx : Z) (path : list bytes)
    : res MerkleError (bytes * Z) :=
  match path with
  | [] => Ok (current, idx)
  | sibling :: path =>
      if negb (zlen sibling =? 32) then Err (BadSiblingLength i (zlen sibling))
      else
        let buf := node_buf idx current sibling in
        if is_64_byte_transaction buf then Err (TransactionShapedNode i)
        else merkle_loop (i + 1) (sha256d buf) (Z.shiftr idx 1) path
  end.

Definition verify_merkle_proof (txid : bytes) (position : Z) (path : list bytes)
    (merkle_root : bytes) : res MerkleError unit :=
  let? (current, idx) := merkle_loop 0 txid position path in
  if negb (idx =? 0) then Err (PositionOutOfRange position (zlen path))
  else if bool_decide (current = merkle_root) then Ok tt
  else Err (RootMismatch current merkle_root).

(** ** Reference: Bitcoin's Merkle tree *)

(** One level up: pairs are concatenated, an odd last node with itself. *)
Fixpoint level_nodes (hs : list bytes) : list bytes :=
  match hs with
  | a :: b :: hs => (a ++ b) :: level_nodes hs
  | [a] => [a ++ a]
  | [] => []
  end.

(** The levels above [hs], as the 64-byte nodes that are hashed. *)
Fixpoint tree_nodes (fuel : nat) (hs : list bytes) : list bytes :=
  match fuel with
  | O => []
  | S fuel =>
      if (length hs <=? 1)%nat then []
      else level_nodes hs ++ tree_nodes fuel (sha256d <$> level_nodes hs)
  end.

Fixpoint tree_root (fuel : nat) (hs : list bytes) : option bytes :=
  match hs with
  | [h] => Some h
  | _ =>
      match fuel with
      | O => None
      | S fuel => tree_root fuel (sha256d <$> level_nodes hs)
      end
  end.

(** The prover's path: the sibling at each level, the node itself where the
    level ends with it. *)
Fixpoint tree_path (fuel : nat) (hs : list bytes) (pos : nat) : list bytes :=
  match fuel with
  | O => []
  | S fuel =>
      if (length hs <=? 1)%nat then []
      else
        let sibling :=
          if Nat.even pos then nth (S pos) hs (nth pos hs []) else nth (pred pos) hs [] in
        sibling :: tree_path fuel (sha256d <$> level_nodes hs) (Nat.div2 pos)
  end.

(** The nodes a proof hashes. *)
Fixpoint path_nodes (current : bytes) (idx : Z) (path : list bytes) : list bytes :=
  match path with
  | [] => []
  | sibling :: path =>
      let buf := node_buf idx current sibling in
      buf :: path_nodes (sha256d buf) (Z.shiftr idx 1) path
  end.

(** No two of the given strings collide. *)
Definition collision_free (xs : list bytes) : Prop :=
  forall x y, x ∈ xs -> y ∈ xs -> sha256d x = sha256d y -> x = y.

End Verify.

(** ** Reference: the legacy transaction serialization *)

Record TxIn : Type := {
  outpoint : bytes;
  script_sig : bytes;
  sequence : bytes
}.

Record TxOut : Type := {
  out_value : Z;
  script_pubkey : bytes
}.

Record Tx : Type := {
  version : bytes;
  tx_inputs : list TxIn;
  tx_outputs : list TxOut;
  lock_time : bytes
}.

Fixpoint le_split (n : nat) (z : Z) : bytes :=
  match n with
  | O => []
  | S n => z2b z :: le_split n (z / 256)
  end.

Definition compact_size (n : Z) : bytes :=
  if n <? 253 then [z2b n]
  else if n <? 2 ^ 16 then xfd :: le_split 2 n
  else if n <? 2 ^ 32 then xfe :: le_split 4 n
  else xff :: le_split 8 n.

Definition serialize_in (i : TxIn) : bytes :=
  outpoint i ++ compact_size (zlen (script_sig i)) ++ script_sig i ++ sequence i.

Definition serialize_out (o : TxOut) : bytes :=
  le_split 8 (out_value o) ++ compact_size (zlen (script_pubkey o)) ++ script_pubkey o.

Definition serialize_tx (t : Tx) : bytes :=
  version t ++ compact_size (zlen (tx_inputs t)) ++ concat (serialize_in <$> tx_inputs t) ++
  compact_size (zlen (tx_outputs t)) ++ concat (serialize_out <$> tx_outputs t) ++ lock_time t.

Definition in_wf (i : TxIn) : Prop := zlen (outpoint i) = 36 /\ zlen (sequence i) = 4.

Definition out_wf (o : TxOut) : Prop := 0 <= out_value o <= MAX_MONEY_SATS.

(** Field widths, at least one input and output, values in the money range. *)
Record tx_wf (t : Tx) : Prop := {
  wf_version : zlen (version t) = 4;
  wf_lock_time : zlen (lock_time t) = 4;
  wf_ins : Forall in_wf (tx_inputs t);
  wf_outs : Forall out_wf (tx_outputs t);
  wf_ins_ne : tx_inputs t <> [];
  wf_outs_ne : tx_outputs t <> []
}.

(** ** The 64-byte transactions *)

Lemma le_split_length n z : length (le_split n z) = n.
Proof. revert z; induction n; intros z; cbn; [done|]. by f_equal. Qed.

Lemma le_combine_split n z : 0 <= z < 256 ^ Z.of_nat n -> le_combine (le_split n z) = z.
Proof.
  revert z; induction n as [|n IH]; intros z Hz.
  - change (256 ^ Z.of_nat 0) with 1 in Hz. cbn. lia.
  - cbn [le_split le_combine]. rewrite Nat2Z.inj_succ, Z.pow_succ_r in Hz by lia.
    rewrite b2z_z2b, IH.
    + pose proof (Z.div_mod z 256). lia.
    + split; [apply Z.div_pos; lia|]. apply Z.div_lt_upper_bound; lia.
Qed.

Lemma le_split_combine bs : le_split (length bs) (le_combine bs) = bs.
Proof.
  induction bs as [|b bs IH]; [done|]. cbn [length le_split le_combine].
  pose proof (b2z_range b).
  assert (b2z b + 256 * le_combine bs = le_combine bs * 256 + b2z b) as -> by lia.
  rewrite Z.div_add_l, (Z.div_small (b2z b)), Z.add_0_r, IH by lia. f_equal.
  apply b2z_inj. rewrite b2z_z2b, Z.add_comm, Z.mod_add, Z.mod_small; lia.
Qed.

Lemma le_combine_nonneg bs : 0 <= le_combine bs.
Proof. induction bs as [|b bs IH]; cbn; [done|]. pose proof (b2z_range b). lia. Qed.

Lemma compact_size_nonempty n : 1 <= zlen (compact_size n).
Proof. unfold compact_size. repeat case_match; done. Qed.

Lemma compact_size_small n : n < 253 -> compact_size n = [z2b n].
Proof. intros Hn. unfold compact_size. by rewrite (proj2 (Z.ltb_lt _ _)). Qed.

Lemma serialize_in_size i : in_wf i -> 41 + zlen (script_sig i) <= zlen (serialize_in i).
Proof.
  intros [H1 H2]. unfold serialize_in. rewrite !zlen_app.
  pose proof (compact_size_nonempty (zlen (script_sig i))). lia.
Qed.

Lemma serialize_out_size o : 9 + zlen (script_pubkey o) <= zlen (serialize_out o).
Proof.
  unfold serialize_out. rewrite !zlen_app.
  pose proof (compact_size_nonempty (zlen (script_pubkey o))).
  assert (zlen (le_split 8 (out_value o)) = 8) by done. lia.
Qed.

(** A 64-byte transaction has one input, one output and four script bytes. *)
Lemma tx_64_shape t :
  tx_wf t -> zlen (serialize_tx t) = 64 ->
  exists i o, tx_inputs t = [i] /\ tx_outputs t = [o] /\ in_wf i /\ out_wf o /\
    zlen (script_sig i) + zlen (script_pubkey o) = 4.
Proof.
  intros [Hv Hl Hi Ho Hin Hon] H64. unfold serialize_tx in H64. rewrite !zlen_app in H64.
  pose proof (compact_size_nonempty (zlen (tx_inputs t))) as Hci.
  pose proof (compact_size_nonempty (zlen (tx_outputs t))) as Hco.
  destruct (tx_inputs t) as [|i [|i' ins]]; [done| |].
  - destruct (tx_outputs t) as [|o [|o' os]]; [done| |].
    + apply Forall_cons in Hi as [Hi _]. apply Forall_cons in Ho as [Ho _]. exists i, o. split_and!; try done.
      pose proof (serialize_in_size i Hi) as Hsi. pose proof (serialize_out_size o) as Hso.
      rewrite !fmap_cons in H64. cbn [concat fmap list_fmap] in H64. rewrite !app_nil_r in H64.
      pose proof (zlen_nonneg (script_sig i)). pose proof (zlen_nonneg (script_pubkey o)).
      change (zlen (compact_size (zlen [i]))) with 1 in H64.
      change (zlen (compact_size (zlen [o]))) with 1 in H64.
      destruct Hi as [Hi1 Hi2].
      assert (Es : zlen (serialize_in i) = 41 + zlen (script_sig i)).
      { unfold serialize_in in *. rewrite compact_size_small in * by lia.
        rewrite !zlen_app in *. change (zlen [z2b (zlen (script_sig i))]) with 1 in *. lia. }
      assert (Eo : zlen (serialize_out o) = 9 + zlen (script_pubkey o)).
      { unfold serialize_out in *. rewrite compact_size_small in * by lia.
        rewrite !zlen_app in *. change (zlen [z2b (zlen (script_pubkey o))]) with 1 in *.
        change (zlen (le_split 8 (out_value o))) with 8 in *. lia. }
      lia.
    + apply Forall_cons in Hi as [Hi _]. pose proof (serialize_in_size i Hi).
      pose proof (serialize_out_size o). pose proof (serialize_out_size o').
      rewrite !fmap_cons in H64. cbn [concat] in H64. rewrite !zlen_app in H64.
      pose proof (zlen_nonneg (script_sig i)). pose proof (zlen_nonneg (script_pubkey o)).
      pose proof (zlen_nonneg (script_pubkey o')).
      pose proof (zlen_nonneg (concat (serialize_out <$> os))). pose proof (zlen_nonneg (concat (serialize_in <$> []))). lia.
  - apply Forall_cons in Hi as [Hi [Hi' _]%Forall_cons].
    pose proof (serialize_in_size i Hi). pose proof (serialize_in_size i' Hi').
    rewrite !fmap_cons in H64. cbn [concat] in H64. rewrite !zlen_app in H64.
    pose proof (zlen_nonneg (script_sig i)). pose proof (zlen_nonneg (script_sig i')).
    pose proof (zlen_nonneg (concat (serialize_in <$> ins))).
    pose proof (zlen_nonneg (concat (serialize_out <$> tx_outputs t))). lia.
Qed.

(** The fixed layout, as the source's comment gives the offsets. *)
Definition layout (v o sig sq value pk lt : bytes) : bytes :=
  v ++ [x01] ++ o ++ [z2b (zlen sig)] ++ sig ++ sq ++ [x01] ++ value ++
  [z2b (zlen pk)] ++ pk ++ lt.

Lemma byte_at_mid (l1 l2 : bytes) b i : zlen l1 = i -> byte_at (l1 ++ b :: l2) i = b2z b.
Proof. intros <-. unfold byte_at, zlen. by rewrite Nat2Z.id, nth_middle. Qed.


Lemma is_64_layout v o sig sq value pk lt :
  zlen v = 4 -> zlen o = 36 -> zlen sq = 4 -> zlen value = 8 -> zlen sig + zlen pk = 4 ->
  is_64_byte_transaction (layout v o sig sq value pk lt) =
  (le_combine value <=? MAX_MONEY_SATS).
Proof.
  intros Hv Ho Hsq Hval Hs. pose proof (zlen_nonneg sig). pose proof (zlen_nonneg pk).
  set (node := layout v o sig sq value pk lt).
  assert (E4 : byte_at node 4 = 1) by by apply (byte_at_mid v).
  assert (E41 : byte_at node 41 = zlen sig).
  { unfold node, layout. rewrite (app_assoc v), (app_assoc (v ++ _)).
    rewrite <- (b2z_small (zlen sig)) at 2 by lia. apply byte_at_mid.
    rewrite !zlen_app. change (zlen [x01]) with 1. lia. }
  assert (E46 : byte_at node (46 + zlen sig) = 1).
  { unfold node, layout. rewrite (app_assoc v), (app_assoc (v ++ _)), (app_assoc (_ ++ o)),
      (app_assoc (_ ++ [_])), (app_assoc (_ ++ sig)). apply byte_at_mid.
    autorewrite with rust. lia. }
  unfold is_64_byte_transaction. rewrite E4, E41, E46.
  rewrite (proj2 (Z.ltb_ge 4 (zlen sig))) by lia. cbn [negb Z.eqb orb Pos.eqb].
  assert (E55 : byte_at node (55 + zlen sig) = zlen pk).
  { unfold node, layout. rewrite (app_assoc v), (app_assoc (v ++ _)), (app_assoc (_ ++ o)),
      (app_assoc (_ ++ [_])), (app_assoc (_ ++ sig)), (app_assoc (_ ++ sq)),
      (app_assoc (_ ++ [x01])).
    rewrite <- (b2z_small (zlen pk)) at 2 by lia. apply byte_at_mid.
    autorewrite with rust. lia. }
  rewrite E55, (proj2 (Z.eqb_eq (zlen pk) _)), andb_true_r by lia. f_equal. f_equal.
  unfold node, layout. rewrite (app_assoc v), (app_assoc (v ++ _)), (app_assoc (_ ++ o)),
      (app_assoc (_ ++ [_])), (app_assoc (_ ++ sig)), (app_assoc (_ ++ sq)).
  rewrite drop_app_length', take_app_length'; [done|unfold zlen in *; lia|].
  rewrite !length_app. unfold zlen in *. cbn [length]. lia.
Qed.

(** Name the bytes of a list of known length. *)
Ltac name_bytes l H :=
  let rec go l H :=
    lazymatch type of H with
    | _ = O => destruct l; [|discriminate H]
    | _ => let b := fresh "b" in let l' := fresh "l" in
           destruct l as [|b l']; [discriminate H|]; injection H as H; go l' H
    end in
  cbn [length] in H; go l H.


(** A node the code refuses has the layout. *)
Lemma is_64_layout_inv node :
  zlen node = 64 -> is_64_byte_transaction node = true ->
  exists v o sig sq value pk lt,
    node = layout v o sig sq value pk lt /\
    zlen v = 4 /\ zlen o = 36 /\ zlen sq = 4 /\ zlen value = 8 /\ zlen lt = 4 /\
    zlen sig + zlen pk = 4 /\ le_combine value <= MAX_MONEY_SATS.
Proof.
  intros Hlen. assert (H64 : length node = 64%nat) by (unfold zlen in Hlen; lia). clear Hlen.
  unfold is_64_byte_transaction. intros H.
  destruct (byte_at node 4 =? 1) eqn:E4; [|done].
  destruct (4 <? byte_at node 41) eqn:E41; [done|].
  destruct (byte_at node (46 + byte_at node 41) =? 1) eqn:E46; [|done].
  cbn [negb orb] in H. apply andb_true_iff in H as [Hval H55]. zbool.
  assert (Hs : 0 <= byte_at node 41) by apply b2z_range.
  remember (byte_at node 41) as s eqn:Es.
  set (k := Z.to_nat s). assert (s = Z.of_nat k) as Esk by lia. rewrite Esk in *.
  exists (take 4 node), (take 36 (drop 5 node)), (take k (drop 42 node)),
    (take 4 (drop (42 + k) node)), (take 8 (drop (47 + k) node)),
    (take (4 - k) (drop (56 + k) node)), (drop 60 node).
  assert (Hk : (k = 0 \/ k = 1 \/ k = 2 \/ k = 3 \/ k = 4)%nat) by lia. clearbody k. clear Esk.
  assert (Hb : forall b z, b2z b = z -> b = z2b z) by (intros b z <-; by rewrite z2b_b2z).
  name_bytes node H64.
  destruct Hk as [Hk|[Hk|[Hk|[Hk|Hk]]]]; subst k;
    apply Hb in E4, E46, H55; symmetry in Es; apply Hb in Es;
    vm_compute in E4, E46, H55, Es; subst; split_and!; done.
Qed.

Lemma serialize_one_layout v i o lt :
  zlen (script_sig i) < 253 -> zlen (script_pubkey o) < 253 ->
  serialize_tx {| version := v; tx_inputs := [i]; tx_outputs := [o]; lock_time := lt |} =
  layout v (outpoint i) (script_sig i) (sequence i) (le_split 8 (out_value o))
    (script_pubkey o) lt.
Proof.
  intros Hi Ho. unfold serialize_tx, layout. cbn [version tx_inputs tx_outputs lock_time].
  rewrite !fmap_cons. cbn [concat fmap list_fmap]. rewrite !app_nil_r.
  unfold serialize_in, serialize_out.
  rewrite (compact_size_small (zlen (script_sig i))), (compact_size_small (zlen (script_pubkey o)))
    by done.
  change (compact_size (zlen [i])) with [x01]. change (compact_size (zlen [o])) with [x01].
  by rewrite <- !app_assoc.
Qed.

(** Every 64-byte transaction is refused as a node. *)
Lemma tx_64_refused t :
  tx_wf t -> zlen (serialize_tx t) = 64 -> is_64_byte_transaction (serialize_tx t) = true.
Proof.
  intros W H64. destruct (tx_64_shape t W H64) as (i & o & Ei & Eo & [Hi1 Hi2] & Ho & Hs).
  pose proof (zlen_nonneg (script_sig i)). pose proof (zlen_nonneg (script_pubkey o)).
  destruct W as [Hv Hl _ _ _ _]. destruct t as [v ins outs lt]. cbn [version tx_inputs tx_outputs lock_time] in *. subst ins outs.
  rewrite serialize_one_layout, is_64_layout by (done || lia).
  unfold out_wf, MAX_MONEY_SATS in *. rewrite le_combine_split by lia. by apply Z.leb_le, Ho.
Qed.

(** A 64-byte node is refused exactly when it is the legacy serialization
    of some transaction, with any number of inputs and outputs, that passes
    the consensus checks on counts and values. *)
Theorem is_64_byte_transaction_iff node :
  zlen node = 64 ->
  is_64_byte_transaction node = true <-> exists t, tx_wf t /\ serialize_tx t = node.
Proof.
  intros H64. split.
  - intros H. destruct (is_64_layout_inv node H64 H)
      as (v & o & sig & sq & value & pk & lt & -> & Hv & Ho & Hsq & Hval & Hlt & Hs & Hm).
    pose proof (zlen_nonneg sig). pose proof (zlen_nonneg pk).
    exists {| version := v;
              tx_inputs := [{| outpoint := o; script_sig := sig; sequence := sq |}];
              tx_outputs := [{| out_value := le_combine value; script_pubkey := pk |}];
              lock_time := lt |}.
    split.
    + constructor; cbn; try done; repeat constructor; cbn; try done.
      apply le_combine_nonneg.
    + rewrite serialize_one_layout by (cbn; lia). cbn [outpoint script_sig sequence out_value script_pubkey]. f_equal.
      replace 8%nat with (length value) by (unfold zlen in Hval; lia). apply le_split_combine.
  - intros (t & W & <-). by apply tx_64_refused.
Qed.

(** A transaction with a three-byte scriptSig and a one-byte scriptPubKey. *)
Definition tx64 : Tx := {|
  version := [x01; x00; x00; x00];
  tx_inputs := [{| outpoint := replicate 36 xaa; script_sig := [x02; x01; x01];
                   sequence := [xff; xff; xff; xff] |}];
  tx_outputs := [{| out_value := 5000; script_pubkey := [x51] |}];
  lock_time := replicate 4 x00 |}.

Lemma tx64_wf : tx_wf tx64.
Proof. constructor; try done; repeat constructor; done. Qed.

Lemma is_64_byte_transaction_iff_witness :
  is_64_byte_transaction (serialize_tx tx64) = true.
Proof.
  apply (is_64_byte_transaction_iff (serialize_tx tx64)); [by vm_compute|].
  exists tx64. split; [apply tx64_wf|reflexivity].
Defined.

(** ** Paths and levels *)

Section Facts.
Variable sha256d : bytes -> bytes.
Hypothesis sha256d_len : forall x, zlen (sha256d x) = 32.

(** The [k]-th level above [hs]. *)
Fixpoint level (k : nat) (hs : list bytes) : list bytes :=
  match k with
  | O => hs
  | S k => sha256d <$> level_nodes (level k hs)
  end.

Lemma level_nodes_ind (P : list bytes -> Prop) :
  P [] -> (forall a, P [a]) -> (forall a b hs, P hs -> P (a :: b :: hs)) -> forall hs, P hs.
Proof.
  intros H0 H1 H2 hs. assert (P hs /\ forall a, P (a :: hs)) as [H _]; [|done].
  induction hs as [|b hs [IH1 IH2]]; split; auto.
Qed.

Lemma level_nodes_elem hs n :
  n ∈ level_nodes hs -> exists a b, a ∈ hs /\ b ∈ hs /\ n = a ++ b.
Proof.
  induction hs as [|a|a b hs IH] using level_nodes_ind; cbn.
  - by intros ?%elem_of_nil.
  - intros ->%list_elem_of_singleton. exists a, a. set_solver.
  - intros [->|Hn]%elem_of_cons.
    + exists a, b. set_solver.
    + destruct (IH Hn) as (x & y & Hx & Hy & ->). exists x, y.
      split_and!; [by do 2 apply list_elem_of_further|by do 2 apply list_elem_of_further|done].
Qed.

Lemma level_shift k hs : level k (sha256d <$> level_nodes hs) = level (S k) hs.
Proof. induction k as [|k IH]; [done|]. cbn [level] in *. by rewrite IH. Qed.

Lemma tree_root_nil fuel : tree_root sha256d fuel [] = None.
Proof. by induction fuel. Qed.

(** The root is the only node of some level, and the nodes below it are all
    among [tree_nodes]. *)
Lemma tree_root_level fuel hs r :
  tree_root sha256d fuel hs = Some r ->
  exists d, level d hs = [r] /\
    forall j n, (j < d)%nat -> n ∈ level_nodes (level j hs) -> n ∈ tree_nodes sha256d fuel hs.
Proof.
  revert hs. induction fuel as [|fuel IH]; intros hs H.
  - destruct hs as [|h [|]]; [done| |done]. injection H as <-. exists O. split; [done|lia].
  - destruct hs as [|h [|h' hs]].
    + cbn in H. by rewrite tree_root_nil in H.
    + injection H as <-. exists O. split; [done|lia].
    + change (tree_root sha256d fuel (sha256d <$> level_nodes (h :: h' :: hs)) = Some r) in H.
      destruct (IH _ H) as (d & Hd & Hn). exists (S d). split; [by rewrite <- level_shift|].
      intros [|j] n Hj Hin.
      * apply elem_of_app. by left.
      * apply elem_of_app. right. apply (Hn j); [lia|]. by rewrite level_shift.
Qed.

Lemma merkle_loop_snoc path : forall i cur idx s,
  merkle_loop sha256d i cur idx (path ++ [s]) =
  let? (c, x) := merkle_loop sha256d i cur idx path in
  merkle_loop sha256d (i + zlen path) c x [s].
Proof.
  induction path as [|p path IH]; intros i cur idx s.
  - rewrite zlen_nil, Z.add_0_r. done.
  - rewrite <- app_comm_cons, zlen_cons. cbn [merkle_loop].
    destruct (negb _); [done|]. destruct (is_64_byte_transaction _); [done|].
    rewrite IH. by rewrite Z.add_assoc.
Qed.

Lemma path_nodes_snoc path : forall i cur idx s c x,
  merkle_loop sha256d i cur idx path = Ok (c, x) ->
  path_nodes sha256d cur idx (path ++ [s]) =
  path_nodes sha256d cur idx path ++ [node_buf x c s].
Proof.
  induction path as [|p path IH]; intros i cur idx s c x H.
  - by injection H as -> ->.
  - cbn [merkle_loop] in H. destruct (negb _); [done|].
    destruct (is_64_byte_transaction _); [done|]. rewrite <- app_comm_cons. cbn [path_nodes].
    by rewrite (IH _ _ _ _ _ _ H).
Qed.

Lemma merkle_loop_idx path : forall i cur idx c x,
  merkle_loop sha256d i cur idx path = Ok (c, x) -> x = Z.shiftr idx (zlen path).
Proof.
  induction path as [|p path IH]; intros i cur idx c x H.
  - injection H as _ <-. by rewrite zlen_nil, Z.shiftr_0_r.
  - cbn [merkle_loop] in H. destruct (negb _); [done|].
    destruct (is_64_byte_transaction _); [done|]. apply IH in H as ->.
    rewrite zlen_cons, Z.shiftr_shiftr by apply zlen_nonneg. done.
Qed.

Lemma merkle_loop_len path i cur idx c x :
  merkle_loop sha256d i cur idx path = Ok (c, x) -> zlen cur = 32 -> zlen c = 32.
Proof.
  revert i cur idx. induction path as [|p path IH]; intros i cur idx H Hc.
  - by injection H as -> ->.
  - cbn [merkle_loop] in H. destruct (negb _); [done|].
    destruct (is_64_byte_transaction _); [done|]. by eapply IH.
Qed.

(** The path followed downwards from a node of a level stays in the tree. *)
Lemma merkle_loop_in_tree (txs : list Tx) (known : list bytes) path : forall i cur idx h x k,
  let hs := sha256d <$> (serialize_tx <$> txs) in
  Forall tx_wf txs -> collision_free sha256d known ->
  (forall n, n ∈ path_nodes sha256d cur idx path -> n ∈ known) ->
  (forall t, t ∈ txs -> serialize_tx t ∈ known) ->
  (forall j n, (j < k)%nat -> n ∈ level_nodes (level j hs) -> n ∈ known) ->
  merkle_loop sha256d i cur idx path = Ok (h, x) -> zlen cur = 32 -> h ∈ level k hs ->
  exists j, (j <= k)%nat /\ cur ∈ level j hs.
Proof.
  induction path as [|s path IH] using rev_ind; intros i cur idx h x k hs Hwf Hcf Hp Ht Hl Hm H32 Hin.
  { injection Hm as -> ->. by exists k. }
  rewrite merkle_loop_snoc in Hm.
  destruct (merkle_loop sha256d i cur idx path) as [[c y]| |] eqn:E; cbn [rbind] in Hm; [|done|done].
  pose proof (merkle_loop_len _ _ _ _ _ _ E H32) as Hc.
  pose proof (path_nodes_snoc path i cur idx s c y E) as Hps. cbn [merkle_loop] in Hm.
  destruct (zlen s =? 32) eqn:Es; [|done]. cbn [negb] in Hm. apply Z.eqb_eq in Es.
  destruct (is_64_byte_transaction (node_buf y c s)) eqn:E64; [done|].
  injection Hm as <- _.
  assert (Hbuf : node_buf y c s ∈ known) by (apply Hp; rewrite Hps; set_solver).
  assert (Hblen : zlen (node_buf y c s) = 64).
  { unfold node_buf. destruct (_ =? _); rewrite zlen_app; lia. }
  destruct k as [|k].
  - cbn [level] in Hin. unfold hs in Hin.
    apply list_elem_of_fmap in Hin as (b & Hb & (t & -> & Htx)%list_elem_of_fmap).
    apply Hcf in Hb; [|done|by apply Ht]. rewrite Hb in E64, Hblen.
    apply list_elem_of_lookup in Htx as [j Hj].
    rewrite tx_64_refused in E64; [done| |done]. by eapply Forall_lookup_1.
  - cbn [level] in Hin. apply list_elem_of_fmap in Hin as (n & Hn & Hin).
    apply Hcf in Hn; [|done|by apply (Hl k); [lia|]].
    destruct (level_nodes_elem _ _ Hin) as (a & b & Ha & Hb & Hab).
    assert (Hlv : forall z, z ∈ level k hs -> length z = 32%nat).
    { intros z Hz. destruct k; cbn [level] in Hz; unfold hs in Hz;
        apply list_elem_of_fmap in Hz as (w & -> & _);
        pose proof (sha256d_len w); unfold zlen in *; lia. }
    assert (c ∈ level k hs) as Hck.
    { subst n. unfold node_buf in Hab. unfold zlen in Hc, Es.
      destruct (_ =? _); apply app_inj_1 in Hab as [-> ->]; try done;
        rewrite (Hlv _ Ha); lia. }
    destruct (IH i cur idx c y k) as (j & Hj & Hcj); try done.
    + intros m Hmm. apply Hp. rewrite Hps. set_solver.
    + intros j m Hj. apply Hl. lia.
    + exists j. split; [lia|done].
Qed.

Lemma verify_ok_loop txid pos path root :
  verify_merkle_proof sha256d txid pos path root = Ok tt ->
  merkle_loop sha256d 0 txid pos path = Ok (root, 0).
Proof.
  unfold verify_merkle_proof.
  destruct (merkle_loop sha256d 0 txid pos path) as [[c x]| |]; cbn [rbind]; [|done|done].
  destruct (x =? 0) eqn:Ex; [|done]. apply Z.eqb_eq in Ex as ->. cbn [negb].
  case_bool_decide as Hc; [|done]. by subst c.
Qed.

(** C17: a proof accepted against the Merkle root of a block shows that the
    transaction is in that block.  The transaction is any string other than
    64 bytes long, the block any list of consensus-valid transactions, the
    path of any length; the one assumption is that no two of the strings
    hashed by the block, by the proof and for the txid collide.  The position
    is also within the path's reach. *)
Theorem merkle_proof_sound (txs : list Tx) (tx : bytes) (pos : Z) (path : list bytes)
    (root : bytes) :
  let leaves := serialize_tx <$> txs in
  let hs := sha256d <$> leaves in
  Forall tx_wf txs -> zlen tx <> 64 -> 0 <= pos ->
  tree_root sha256d (length txs) hs = Some root ->
  collision_free sha256d (tx :: leaves ++ tree_nodes sha256d (length txs) hs ++
                          path_nodes sha256d (sha256d tx) pos path) ->
  verify_merkle_proof sha256d (sha256d tx) pos path root = Ok tt ->
  tx ∈ leaves /\ pos < 2 ^ zlen path.
Proof.
  intros leaves hs Hwf H64 Hpos Hroot Hcf Hv. apply verify_ok_loop in Hv. split.
  - destruct (tree_root_level _ _ _ Hroot) as (d & Hd & Hn).
    destruct (merkle_loop_in_tree txs _ path 0 (sha256d tx) pos root 0 d Hwf Hcf)
      as (j & Hj & Hin).
    + intros n Hnn. set_solver.
    + intros t Ht. apply elem_of_cons; right. apply elem_of_app; left.
      by apply list_elem_of_fmap_2.
    + intros k n Hk Hkn. pose proof (Hn k n Hk Hkn). set_solver.
    + exact Hv.
    + apply sha256d_len.
    + change (root ∈ level d hs). rewrite Hd. apply list_elem_of_here.
    + change (sha256d tx ∈ level j hs) in Hin. destruct j as [|j]; cbn [level] in Hin.
      * apply list_elem_of_fmap in Hin as (t & Ht & Hin). apply Hcf in Ht as ->;
          [done|apply list_elem_of_here|]. apply elem_of_cons; right. by apply elem_of_app; left.
      * exfalso. apply list_elem_of_fmap in Hin as (n & Ht & Hin).
        pose proof (Hn j n ltac:(lia) Hin) as Hjn.
        apply Hcf in Ht; [|set_solver|set_solver]. subst n.
        apply level_nodes_elem in Hin as (a & b & Ha & Hb & ->).
        apply H64. rewrite zlen_app.
        assert (Hlv : forall z, z ∈ level j hs -> zlen z = 32).
        { intros z Hz. destruct j; cbn [level] in Hz; unfold hs in Hz;
            apply list_elem_of_fmap in Hz as (w & -> & _); apply sha256d_len. }
        rewrite (Hlv a Ha), (Hlv b Hb). done.
  - apply merkle_loop_idx in Hv. rewrite Z.shiftr_div_pow2 in Hv by apply zlen_nonneg.
    pose proof (zlen_nonneg path).
    assert (0 < 2 ^ zlen path) by (apply Z.pow_pos_nonneg; lia).
    symmetry in Hv. apply Z.div_small_iff in Hv; lia.
Qed.

(** ** Completeness *)

Lemma level_nodes_length hs : length (level_nodes hs) = Nat.div2 (S (length hs)).
Proof.
  induction hs as [|a|a b hs IH] using level_nodes_ind; [done|done|].
  cbn [level_nodes length]. by rewrite IH.
Qed.

Lemma land_1_even pos : (Z.land (Z.of_nat pos) 1 =? 0) = Nat.even pos.
Proof.
  change 1 with (Z.ones 1). rewrite Z.land_ones by lia. change (2 ^ 1) with 2.
  destruct (Nat.even pos) eqn:E.
  - apply Nat.even_spec in E as [k ->]. apply Z.eqb_eq.
    replace (Z.of_nat (2 * k)) with (Z.of_nat k * 2) by lia. apply Z.mod_mul. lia.
  - assert (Nat.odd pos = true) as [k ->]%Nat.odd_spec by (unfold Nat.odd; by rewrite E).
    apply Z.eqb_neq. replace (Z.of_nat (2 * k + 1)) with (1 + Z.of_nat k * 2) by lia.
    rewrite Z.mod_add by lia. done.
Qed.

Lemma shiftr_div2 pos : Z.shiftr (Z.of_nat pos) 1 = Z.of_nat (Nat.div2 pos).
Proof.
  rewrite Z.shiftr_div_pow2 by lia. change (2 ^ 1) with (Z.of_nat 2).
  rewrite <- Nat2Z.inj_div, Nat.div2_div. done.
Qed.

(** The sibling the prover sends. *)
Definition sibling (hs : list bytes) (pos : nat) : bytes :=
  if Nat.even pos then nth (S pos) hs (nth pos hs []) else nth (pred pos) hs [].

Lemma level_nodes_lookup hs : forall pos,
  (pos < length hs)%nat ->
  level_nodes hs !! Nat.div2 pos =
  Some (node_buf (Z.of_nat pos) (nth pos hs []) (sibling hs pos)).
Proof.
  induction hs as [|a|a b hs IH] using level_nodes_ind; intros pos Hpos; cbn in Hpos; [lia| |].
  - by replace pos with 0%nat by lia.
  - destruct pos as [|[|pos]]; [done|done|].
    change (Nat.div2 (S (S pos))) with (S (Nat.div2 pos)).
    change (level_nodes (a :: b :: hs) !! S (Nat.div2 pos)) with (level_nodes hs !! Nat.div2 pos).
    rewrite IH by lia. f_equal. unfold node_buf, sibling. rewrite !land_1_even.
    change (Nat.even (S (S pos))) with (Nat.even pos).
    destruct (Nat.even pos) eqn:Ee; [done|]. by destruct pos.
Qed.

Lemma sibling_len hs pos :
  Forall (fun h => zlen h = 32) hs -> (pos < length hs)%nat -> zlen (sibling hs pos) = 32.
Proof.
  intros Hf Hp. rewrite Forall_forall in Hf.
  assert (Hn : forall k, (k < length hs)%nat -> zlen (nth k hs []) = 32).
  { intros k Hk. apply Hf. rewrite list_elem_of_In. by apply nth_In. }
  unfold sibling. destruct (Nat.even pos).
  - destruct (decide (S pos < length hs)%nat) as [H|H].
    + rewrite (nth_indep _ _ []) by lia. by apply Hn.
    + rewrite nth_overflow by lia. by apply Hn.
  - apply Hn. lia.
Qed.

Lemma div2_S_bound n d : (2 <= n)%nat -> (n <= 2 ^ S d)%nat -> (Nat.div2 (S n) <= 2 ^ d)%nat.
Proof.
  intros Hn Hd. cbn [Nat.pow] in Hd. rewrite Nat.div2_div.
  pose proof (Nat.div_mod (S n) 2). pose proof (Nat.mod_upper_bound (S n) 2). lia.
Qed.

Lemma merkle_loop_complete fuel : forall hs pos i,
  (pos < length hs <= fuel)%nat -> Forall (fun h => zlen h = 32) hs ->
  exists root, tree_root sha256d fuel hs = Some root /\
    (forall d, (length hs <= 2 ^ d)%nat -> (length (tree_path sha256d fuel hs pos) <= d)%nat) /\
    (Forall (fun n => is_64_byte_transaction n = false) (tree_nodes sha256d fuel hs) ->
     merkle_loop sha256d i (nth pos hs []) (Z.of_nat pos) (tree_path sha256d fuel hs pos)
       = Ok (root, 0)).
Proof.
  induction fuel as [|fuel IH]; intros hs pos i Hp H32; [lia|].
  destruct hs as [|h [|h' hs0]]; [cbn in Hp; lia| |].
  { cbn in Hp. replace pos with 0%nat by lia. exists h. split; [done|]. split; [|done].
    intros d _. cbn. lia. }
  set (hs := h :: h' :: hs0) in *.
  assert (Hlen2 : (2 <= length hs)%nat) by (cbn; lia).
  set (up := sha256d <$> level_nodes hs).
  assert (Hup : length up = Nat.div2 (S (length hs))).
  { unfold up. by rewrite length_fmap, level_nodes_length. }
  pose proof (Nat.div2_div (S (length hs))) as Hd1. pose proof (Nat.div2_div pos) as Hd2.
  pose proof (Nat.div_mod (S (length hs)) 2). pose proof (Nat.mod_upper_bound (S (length hs)) 2).
  pose proof (Nat.div_mod pos 2). pose proof (Nat.mod_upper_bound pos 2).
  destruct (IH up (Nat.div2 pos) (i + 1)) as (root & Hr & Hd & Hm).
  { lia. }
  { unfold up. apply Forall_fmap, Forall_true. intros n. apply sha256d_len. }
  exists root. split; [exact Hr|].
  assert (Etp : tree_path sha256d (S fuel) hs pos =
                sibling hs pos :: tree_path sha256d fuel up (Nat.div2 pos)) by done.
  rewrite Etp. split.
  - intros [|d] Hdd; [cbn [Nat.pow] in Hdd; lia|]. cbn [length].
    apply le_n_S, Hd. rewrite Hup. by apply div2_S_bound.
  - intros Hf. change (tree_nodes sha256d (S fuel) hs)
      with (level_nodes hs ++ tree_nodes sha256d fuel up) in Hf.
    apply Forall_app in Hf as [Hf1 Hf2]. cbn [merkle_loop].
    rewrite (sibling_len hs pos H32) by lia. cbn [Z.eqb Pos.eqb negb].
    pose proof (level_nodes_lookup hs pos ltac:(lia)) as Hnode.
    rewrite (Forall_lookup_1 _ _ _ _ Hf1 Hnode), shiftr_div2.
    rewrite <- (Hm Hf2). f_equal. symmetry. apply nth_lookup_Some.
    unfold up. rewrite list_lookup_fmap, Hnode. done.
Qed.

(** The proof that Bitcoin's tree gives for a transaction of the block is
    accepted, odd levels included, unless the block holds a node that is a
    64-byte transaction; and a block of up to 2^32 transactions needs no more
    than [MAX_MERKLE_PATH_DEPTH] siblings. *)
Theorem merkle_proof_complete (hs : list bytes) (pos : nat) (txid : bytes) :
  hs !! pos = Some txid -> Forall (fun h => zlen h = 32) hs ->
  Forall (fun n => is_64_byte_transaction n = false) (tree_nodes sha256d (length hs) hs) ->
  exists root, tree_root sha256d (length hs) hs = Some root /\
    verify_merkle_proof sha256d txid (Z.of_nat pos) (tree_path sha256d (length hs) hs pos) root
      = Ok tt /\
    (zlen hs <= 2 ^ 32 -> zlen (tree_path sha256d (length hs) hs pos) <= MAX_MERKLE_PATH_DEPTH).
Proof.
  intros Htx H32 Hf. pose proof (lookup_lt_Some _ _ _ Htx) as Hpos.
  destruct (merkle_loop_complete (length hs) hs pos 0 ltac:(lia) H32) as (root & Hr & Hd & Hm).
  exists root. split; [done|]. split.
  - unfold verify_merkle_proof. rewrite <- (nth_lookup_Some hs pos [] txid Htx), (Hm Hf).
    cbn [rbind Z.eqb negb]. by rewrite bool_decide_eq_true_2.
  - intros Hz. unfold zlen, MAX_MERKLE_PATH_DEPTH in *.
    pose proof (Hd 32%nat) as H.
    enough (length (tree_path sha256d (length hs) hs pos) <= 32)%nat by lia. apply H.
    apply Nat2Z.inj_le. rewrite Nat2Z.inj_pow. exact Hz.
Qed.

End Facts.

(** ** Example: a block of three transactions with a toy hash *)

Definition collision_freeb (sha : bytes -> bytes) (xs : list bytes) : bool :=
  let ps := map (fun x => (x, sha x)) xs in
  forallb (fun p => forallb (fun q =>
    bool_decide (p.1 = q.1) || negb (bool_decide (p.2 = q.2))) ps) ps.

Lemma collision_freeb_ok sha xs : collision_freeb sha xs = true -> collision_free sha xs.
Proof.
  unfold collision_freeb. intros H x y Hx Hy E. rewrite list_elem_of_In in Hx, Hy.
  apply (in_map (fun x => (x, sha x))) in Hx, Hy.
  rewrite forallb_forall in H. specialize (H _ Hx). rewrite forallb_forall in H.
  specialize (H _ Hy). cbn in H. rewrite (bool_decide_eq_true_2 _ E), orb_false_r in H.
  by apply bool_decide_eq_true in H.
Qed.

Lemma forallb_negb_Forall {A} (f : A -> bool) xs :
  forallb (fun x => negb (f x)) xs = true -> Forall (fun x => f x = false) xs.
Proof.
  induction xs as [|x xs IH]; cbn; [constructor|].
  intros [Hx Hxs]%andb_true_iff. constructor; [by destruct (f x)|auto].
Qed.

(** A 32-byte polynomial hash. *)
Definition toy_hash (x : bytes) : bytes :=
  be_split 32 (fold_left (fun acc b => (acc * 7919 + b2z b + 1) mod 2 ^ 256) x 0).

Lemma toy_hash_len x : zlen (toy_hash x) = 32.
Proof. unfold zlen, toy_hash. by rewrite be_split_length. Qed.

Definition small_tx (b : byte) : Tx := {|
  version := [b; x00; x00; x00];
  tx_inputs := [{| outpoint := replicate 36 b; script_sig := [];
                   sequence := [xff; xff; xff; xff] |}];
  tx_outputs := [{| out_value := 70000; script_pubkey := [x6a; x01; b] |}];
  lock_time := replicate 4 x00 |}.

Definition small_block : list Tx := [small_tx x01; small_tx x02; small_tx x03].

Definition small_hashes : list bytes := toy_hash <$> (serialize_tx <$> small_block).

Lemma merkle_proof_complete_witness :
  exists root, tree_root toy_hash 3 small_hashes = Some root /\
    verify_merkle_proof toy_hash (toy_hash (serialize_tx (small_tx x03))) 2
      (tree_path toy_hash 3 small_hashes 2) root = Ok tt.
Proof.
  destruct (merkle_proof_complete toy_hash toy_hash_len small_hashes 2
              (toy_hash (serialize_tx (small_tx x03)))) as (root & H1 & H2 & _).
  - reflexivity.
  - repeat constructor; apply toy_hash_len.
  - apply forallb_negb_Forall. vm_compute. reflexivity.
  - exists root. by split.
Defined.

Lemma merkle_proof_sound_witness :
  exists root, tree_root toy_hash 3 small_hashes = Some root /\
    serialize_tx (small_tx x03) ∈ serialize_tx <$> small_block /\ 2 < 2 ^ 2.
Proof.
  eexists. split; [vm_compute; reflexivity|].
  eapply (merkle_proof_sound toy_hash toy_hash_len small_block (serialize_tx (small_tx x03)) 2
            (tree_path toy_hash 3 small_hashes 2)).
  - repeat constructor; done.
  - by vm_compute.
  - done.
  - vm_compute; reflexivity.
  - apply collision_freeb_ok. vm_compute. reflexivity.
  - vm_compute. reflexivity.
Defined.
