(* ===== verification/ReplayGuard.v ===== *)
(** * Replay guards (src/enclave/src/state/replay_guard.rs)

    [NonceReplayGuard]: the time- and count-limited set of nonces behind the
    attestation and the bridge-operation guards, with reservations that roll
    back on drop.  Every method runs under one mutex, so concurrent callers
    are a sequence of the operations below. *)

From stdpp Require Import strings sorting base gmap numbers list.
From S2P Require Import Prelude Errors.

#[local] Open Scope list_scope.
#[local] Open Scope Z_scope.

Definition DEFAULT_NONCE_TTL : Z := secs (60 * 60).
Definition DEFAULT_NONCE_MAX : Z := 10000.
Definition DEFAULT_OP_DEDUP_TTL : Z := secs (60 * 60).
Definition DEFAULT_OP_DEDUP_MAX : Z := 100000.

Record GuardState : Type := {
  seen : gmap bytes Z;
  next_generation : Z;
  order : list (Z * bytes)
}.

Record NonceReplayGuard : Type := {
  g_inner : mutex GuardState;
  g_max : Z;
  g_ttl : Z
}.

Definition with_capacity (max ttl : Z) : NonceReplayGuard := {|
  g_inner := new_mutex {| seen := ∅; next_generation := 0; order := [] |};
  g_max := max;
  g_ttl := ttl
|}.

Definition default_guard : NonceReplayGuard :=
  with_capacity DEFAULT_NONCE_MAX DEFAULT_NONCE_TTL.

Definition set_guard (g : NonceReplayGuard) (s : GuardState) : NonceReplayGuard := {|
  g_inner := set_contents (g_inner g) s;
  g_max := g_max g;
  g_ttl := g_ttl g
|}.

(** [NonceReplayGuard::check] at the clock reading [now]. *)
Definition guard_check (g : NonceReplayGuard) (nonce : bytes) (now : Z) : enclave_result unit :=
  if poisoned (g_inner g) then Err (Internal "replay guard poisoned")
  else
    let s := contents (g_inner g) in
    if bool_decide (is_Some (seen s !! nonce))
       && existsb (fun '(seen_at, key) =>
                     bool_decide (key = nonce) && (sat_sub now seen_at <? g_ttl g)) (order s)
    then Err NonceReplay
    else Ok tt.

(** The two eviction loops; both consume [order] from the front. *)
Fixpoint evict_expired (ttl now : Z) (m : gmap bytes Z) (q : list (Z * bytes))
    : gmap bytes Z * list (Z * bytes) :=
  match q with
  | (seen_at, old) :: q' =>
      if ttl <=? sat_sub now seen_at then evict_expired ttl now (delete old m) q'
      else (m, q)
  | [] => (m, [])
  end.

Fixpoint evict_oldest (max : Z) (m : gmap bytes Z) (q : list (Z * bytes))
    : gmap bytes Z * list (Z * bytes) :=
  if max <=? Z.of_nat (size m) then
    match q with
    | (_, old) :: q' => evict_oldest max (delete old m) q'
    | [] => (m, [])
    end
  else (m, q).

(** [check_and_record_at]: the guard after the call and the generation. *)
Definition check_and_record_at (g : NonceReplayGuard) (nonce : bytes) (now : Z)
    : NonceReplayGuard * enclave_result Z :=
  if poisoned (g_inner g) then (g, Err (Internal "replay guard poisoned"))
  else
    let s := contents (g_inner g) in
    let '(m, q) := evict_expired (g_ttl g) now (seen s) (order s) in
    let s := {| seen := m; next_generation := next_generation s; order := q |} in
    if bool_decide (is_Some (seen s !! nonce)) then (set_guard g s, Err NonceReplay)
    else
      let generation := next_generation s in
      if generation =? u64_max then
        (set_guard g s, Err (Internal "replay reservation generation exhausted"))
      else
        let '(m, q) := evict_oldest (g_max g) (seen s) (order s) in
        (set_guard g {| seen := <[nonce := generation]> m;
                        next_generation := generation + 1;
                        order := q ++ [(now, nonce)] |},
         Ok generation).

(** [check_and_record]. *)
Definition check_and_record (g : NonceReplayGuard) (nonce : bytes) (now : Z)
    : NonceReplayGuard * enclave_result unit :=
  let '(g', r) := check_and_record_at g nonce now in (g', let? _ := r in Ok tt).

Record ReplayReservation : Type := {
  rr_nonce : bytes;
  rr_generation : Z;
  rr_committed : bool
}.

Definition reserve_at (g : NonceReplayGuard) (nonce : bytes) (now : Z)
    : NonceReplayGuard * enclave_result ReplayReservation :=
  let '(g', r) := check_and_record_at g nonce now in
  (g', let? generation := r in
       Ok {| rr_nonce := nonce; rr_generation := generation; rr_committed := false |}).

(** The first entry of [nonce], removed. *)
Fixpoint remove_first (nonce : bytes) (q : list (Z * bytes)) : list (Z * bytes) :=
  match q with
  | [] => []
  | (t, k) :: q' => if bool_decide (k = nonce) then q' else (t, k) :: remove_first nonce q'
  end.

(** [remove]: recovers a poisoned lock. *)
Definition guard_remove (g : NonceReplayGuard) (nonce : bytes) (generation : Z)
    : NonceReplayGuard :=
  let s := contents (g_inner g) in
  if bool_decide (seen s !! nonce = Some generation) then
    set_guard g {| seen := delete nonce (seen s);
                   next_generation := next_generation s;
                   order := remove_first nonce (order s) |}
  else g.

Definition commit (r : ReplayReservation) : ReplayReservation :=
  {| rr_nonce := rr_nonce r; rr_generation := rr_generation r; rr_committed := true |}.

Definition drop_reservation (g : NonceReplayGuard) (r : ReplayReservation) : NonceReplayGuard :=
  if rr_committed r then g else guard_remove g (rr_nonce r) (rr_generation r).

(** ** Invariant *)

(** A map and a queue that agree: the queue lists each key once. *)
Record agree (m : gmap bytes Z) (q : list (Z * bytes)) : Prop := {
  agree_nodup : NoDup q.*2;
  agree_dom : forall k, is_Some (m !! k) <-> k ∈ q.*2
}.

(** Generations are below the next one and name their entry; the set is within
    its capacity (one entry when the capacity is zero). *)
Record state_inv (max : Z) (s : GuardState) : Prop := {
  inv_agree : agree (seen s) (order s);
  inv_gen : forall k n, seen s !! k = Some n -> 0 <= n < next_generation s;
  inv_gen_inj : forall j k n, seen s !! j = Some n -> seen s !! k = Some n -> j = k;
  inv_next : 0 <= next_generation s <= u64_max;
  inv_size : zlen (order s) <= Z.max 1 max
}.

Definition guard_inv (g : NonceReplayGuard) : Prop := state_inv (g_max g) (contents (g_inner g)).

Lemma agree_size m q : agree m q -> size m = length q.
Proof.
  intros [Hn Hd]. rewrite <- size_dom, <- (length_fmap snd).
  rewrite <- (size_list_to_set (C := gset bytes)) by done. f_equal.
  apply set_eq. intros k. rewrite elem_of_dom, elem_of_list_to_set. apply Hd.
Qed.

Lemma agree_pop m t k q : agree m ((t, k) :: q) -> agree (delete k m) q.
Proof.
  intros [Hn Hd]. cbn in Hn. apply NoDup_cons in Hn as [Hk Hn]. split; [done|].
  intros j. rewrite lookup_delete_is_Some, Hd. cbn. rewrite elem_of_cons.
  split; [intros [? [?|?]]; congruence|]. intros Hj. split; [congruence|by right].
Qed.

(** [m] without the keys of the queue prefix [pre]. *)
Definition without (pre : list (Z * bytes)) (m : gmap bytes Z) : gmap bytes Z :=
  filter (fun p => p.1 ∉ pre.*2) m.

Lemma without_nil m : without [] m = m.
Proof. apply map_filter_id. intros. by apply not_elem_of_nil. Qed.

Lemma without_cons t k pre m : without pre (delete k m) = without ((t, k) :: pre) m.
Proof.
  apply map_eq. intros j. apply option_eq. intros x. unfold without.
  rewrite !map_lookup_filter_Some, lookup_delete_Some. cbn. rewrite not_elem_of_cons.
  intuition congruence.
Qed.

Lemma without_lookup pre m k x : without pre m !! k = Some x <-> m !! k = Some x /\ k ∉ pre.*2.
Proof. unfold without. by rewrite map_lookup_filter_Some. Qed.

Lemma without_app pre pre' m : without pre' (without pre m) = without (pre ++ pre') m.
Proof.
  apply map_eq. intros j. apply option_eq. intros x.
  rewrite !without_lookup, fmap_app, not_elem_of_app. tauto.
Qed.

Lemma agree_without m pre q : agree m (pre ++ q) -> agree (without pre m) q.
Proof.
  revert m. induction pre as [|[t k] pre IH]; intros m Ha; [by rewrite without_nil|].
  rewrite <- without_cons. eapply IH. by eapply agree_pop.
Qed.

(** Both loops drop a prefix of the queue, and its keys from the map. *)
Lemma evict_expired_spec ttl now m q :
  exists pre q', q = pre ++ q' /\
    evict_expired ttl now m q = (without pre m, q') /\
    Forall (fun p => ttl <= sat_sub now p.1) pre /\
    (forall p, head q' = Some p -> sat_sub now p.1 < ttl).
Proof.
  revert m. induction q as [|[t k] q IH]; intros m.
  - exists [], []. by rewrite without_nil.
  - cbn [evict_expired]. destruct (ttl <=? sat_sub now t) eqn:E; zbool.
    + destruct (IH (delete k m)) as (pre & q' & -> & -> & Hf & Hh).
      exists ((t, k) :: pre), q'. rewrite (without_cons t). split_and!; try done. by constructor.
    + exists [], ((t, k) :: q). rewrite without_nil. split_and!; try done.
      by intros p [= <-].
Qed.

Lemma evict_oldest_spec max m q :
  agree m q ->
  exists pre q', q = pre ++ q' /\ evict_oldest max m q = (without pre m, q') /\
    (q' = [] \/ zlen q' < max) /\ (pre = [] \/ max <= zlen q' + 1).
Proof.
  revert m. induction q as [|[t k] q IH]; intros m Ha.
  - exists [], []. rewrite without_nil. cbn. split; [done|]. split; [by case_match|]. split; by left.
  - cbn [evict_oldest]. rewrite (agree_size _ _ Ha). fold (zlen ((t, k) :: q)).
    destruct (max <=? zlen ((t, k) :: q)) eqn:E; zbool.
    + destruct (IH _ (agree_pop _ _ _ _ Ha)) as (pre & q' & -> & -> & H1 & H2).
      exists ((t, k) :: pre), q'. rewrite (without_cons t). split_and!; try done.
      right. destruct H2 as [->|H2]; [|done]. rewrite zlen_cons in E. cbn [app] in E. lia.
    + exists [], ((t, k) :: q). rewrite without_nil. split_and!; auto.
Qed.

(** The three outcomes of a call on an unpoisoned guard. *)
Lemma record_cases g n now :
  guard_inv g -> poisoned (g_inner g) = false ->
  let s := contents (g_inner g) in
  exists expired live, order s = expired ++ live /\
    Forall (fun p => g_ttl g <= sat_sub now p.1) expired /\
    (forall p, head live = Some p -> sat_sub now p.1 < g_ttl g) /\
    ((n ∈ live.*2) /\
       check_and_record_at g n now =
         (set_guard g {| seen := without expired (seen s);
                         next_generation := next_generation s; order := live |},
          Err NonceReplay) \/
     (n ∉ live.*2) /\ next_generation s = u64_max /\
       check_and_record_at g n now =
         (set_guard g {| seen := without expired (seen s);
                         next_generation := next_generation s; order := live |},
          Err (Internal "replay reservation generation exhausted")) \/
     (n ∉ live.*2) /\ next_generation s < u64_max /\
       exists old kept, live = old ++ kept /\
         (kept = [] \/ zlen kept < g_max g) /\ (old = [] \/ g_max g <= zlen kept + 1) /\
         check_and_record_at g n now =
           (set_guard g {| seen := <[n := next_generation s]> (without (expired ++ old) (seen s));
                           next_generation := next_generation s + 1;
                           order := kept ++ [(now, n)] |},
            Ok (next_generation s))).
Proof.
  intros I Hp s. unfold check_and_record_at. rewrite Hp. fold s.
  destruct (evict_expired_spec (g_ttl g) now (seen s) (order s))
    as (expired & live & Eq & -> & He & Hh).
  exists expired, live. split; [done|]. split; [done|]. split; [done|]. cbn [seen order next_generation].
  pose proof (inv_agree _ _ I) as Ha. fold s in Ha. rewrite Eq in Ha. apply agree_without in Ha.
  pose proof (inv_next _ _ I) as Hn. fold s in Hn.
  case_bool_decide as Hs; rewrite (agree_dom _ _ Ha) in Hs; [by left|right].
  destruct (next_generation s =? u64_max) eqn:Eg; zbool; [by left|right].
  split; [done|]. split; [lia|].
  destruct (evict_oldest_spec (g_max g) _ _ Ha) as (old & kept & -> & -> & H1 & H2).
  exists old, kept. by rewrite without_app.
Qed.

Lemma agree_insert m q n x now : agree m q -> n ∉ q.*2 -> agree (<[n := x]> m) (q ++ [(now, n)]).
Proof.
  intros [Hn Hd] Hnew. split.
  - rewrite fmap_app. apply NoDup_app. split; [done|]. split; [|by apply NoDup_singleton].
    intros k Hk ->%list_elem_of_singleton. done.
  - intros k. rewrite lookup_insert_is_Some', Hd, fmap_app, elem_of_app. cbn.
    rewrite list_elem_of_singleton. split; intros [|]; subst; auto.
Qed.

Lemma without_gen max s pre q nx :
  state_inv max s -> order s = pre ++ q -> nx = next_generation s ->
  state_inv max {| seen := without pre (seen s); next_generation := nx; order := q |}.
Proof.
  intros I Eq ->. destruct I as [Ha Hg Hi Hn Hz]. rewrite Eq in Ha, Hz.
  constructor; cbn.
  - by apply agree_without.
  - intros k x [H _]%without_lookup. eauto.
  - intros j k x [H1 _]%without_lookup [H2 _]%without_lookup. eauto.
  - done.
  - rewrite zlen_app in Hz. pose proof (zlen_nonneg pre). lia.
Qed.

Lemma record_inv g n now : guard_inv g -> guard_inv (fst (check_and_record_at g n now)).
Proof.
  intros I. destruct (poisoned (g_inner g)) eqn:Hp.
  { unfold check_and_record_at. by rewrite Hp. }
  destruct (record_cases g n now I Hp)
    as (expired & live & Eq & _ & _ & [(_ & ->)|[(_ & _ & ->)|(Hn & Hlt & old & kept & -> & H1 & H2 & ->)]]);
    [by eapply without_gen|by eapply without_gen|].
  rewrite app_assoc in Eq. cbn.
  pose proof (without_gen _ _ _ _ _ I Eq eq_refl) as [Ha Hg Hi Hnx Hz]. cbn in *.
  assert (Hnk : n ∉ kept.*2) by (rewrite fmap_app, not_elem_of_app in Hn; tauto).
  constructor; cbn.
  - by apply agree_insert.
  - intros k x. rewrite lookup_insert_Some. intros [[<- <-]|[_ Hk]]; [lia|].
    apply Hg in Hk. lia.
  - intros j k x. rewrite !lookup_insert_Some.
    intros [[<- <-]|[Hj1 Hj]] [[<- E]|[Hk1 Hk]]; try done.
    + apply Hg in Hk. lia.
    + subst x. apply Hg in Hj. lia.
    + eauto.
  - lia.
  - rewrite zlen_app. change (zlen [(now, n)]) with 1. destruct H1 as [->|H1]; [rewrite zlen_nil|]; lia.
Qed.

Lemma remove_first_split n q t pre post :
  q = pre ++ (t, n) :: post -> n ∉ pre.*2 -> remove_first n q = pre ++ post.
Proof.
  intros ->. induction pre as [|[t' k] pre IH]; intros Hn; cbn.
  - by rewrite bool_decide_eq_true_2.
  - cbn in Hn. apply not_elem_of_cons in Hn as [Hk Hn].
    rewrite bool_decide_eq_false_2 by congruence. by rewrite IH.
Qed.

Lemma remove_first_elem n q k : k ∈ (remove_first n q).*2 -> k ∈ q.*2.
Proof.
  induction q as [|[t j] q IH]; cbn; [done|]. case_bool_decide; cbn; rewrite !elem_of_cons; tauto.
Qed.

Lemma agree_remove m q n : agree m q -> agree (delete n m) (remove_first n q).
Proof.
  intros [Hn Hd]. destruct (decide (n ∈ q.*2)) as [Hin|Hout].
  - apply list_elem_of_fmap in Hin as ([t n'] & -> & (pre & post & ->)%list_elem_of_split).
    cbn [snd] in *. rewrite fmap_app, fmap_cons in Hn.
    pose proof Hn as (Hn1 & Hdis & [Hnp Hn2]%NoDup_cons)%NoDup_app.
    assert (Hpre : n' ∉ pre.*2) by (intros H; apply (Hdis _ H), list_elem_of_here).
    rewrite (remove_first_split n' _ t pre post) by done. split.
    + rewrite fmap_app. apply NoDup_app. split_and!; try done.
      intros k Hk Hk'. by apply (Hdis k Hk), list_elem_of_further.
    + intros k. rewrite lookup_delete_is_Some, Hd, !fmap_app, fmap_cons, !elem_of_app,
        elem_of_cons. cbn. split; [intuition congruence|].
      intros [H|H]; (split; [intros ->; done|auto]).
  - assert (E : remove_first n q = q).
    { clear -Hout. induction q as [|[t k] q IH]; [done|]. cbn in *.
      apply not_elem_of_cons in Hout as [H1 H2]. rewrite bool_decide_eq_false_2 by congruence.
      by rewrite IH. }
    rewrite E. rewrite delete_id; [done|]. apply eq_None_not_Some. by rewrite Hd.
Qed.

Lemma remove_first_zlen n q : zlen (remove_first n q) <= zlen q.
Proof.
  induction q as [|[t k] q IH]; cbn; [done|].
  case_bool_decide; rewrite !zlen_cons; pose proof (zlen_nonneg q); lia.
Qed.

Lemma remove_inv g n gen : guard_inv g -> guard_inv (guard_remove g n gen).
Proof.
  intros I. unfold guard_remove. case_bool_decide as Hs; [|done].
  destruct I as [Ha Hg Hi Hn Hz]. constructor; cbn.
  - by apply agree_remove.
  - intros k x [_ H]%lookup_delete_Some. eauto.
  - intros j k x [_ H1]%lookup_delete_Some [_ H2]%lookup_delete_Some. eauto.
  - done.
  - pose proof (remove_first_zlen n (order (contents (g_inner g)))). lia.
Qed.

(** ** Sequences of operations

    A reservation is a record; a commit changes nothing; dropping an
    uncommitted reservation is a removal of its generation. *)

Inductive guard_op : Type :=
| OpRecord (nonce : bytes) (now : Z)
| OpRemove (nonce : bytes) (generation : Z).

Definition run_op (g : NonceReplayGuard) (o : guard_op) : NonceReplayGuard :=
  match o with
  | OpRecord n now => fst (check_and_record_at g n now)
  | OpRemove n gen => guard_remove g n gen
  end.

Definition run_ops (ops : list guard_op) (g : NonceReplayGuard) : NonceReplayGuard :=
  fold_left run_op ops g.

(** Number of records, and the bounds on one operation. *)
Definition is_record (o : guard_op) : bool :=
  match o with OpRecord _ _ => true | _ => false end.

Definition records (ops : list guard_op) : Z := zlen (filter is_record ops).

Definition op_before (limit : Z) (o : guard_op) : Prop :=
  match o with OpRecord _ now => now < limit | _ => True end.

Definition op_keeps (gen : Z) (o : guard_op) : Prop :=
  match o with OpRemove _ gen' => gen' <> gen | _ => True end.

Lemma run_op_inv g o : guard_inv g -> guard_inv (run_op g o).
Proof. destruct o; [apply record_inv|apply remove_inv]. Qed.

Lemma run_ops_inv ops g : guard_inv g -> guard_inv (run_ops ops g).
Proof.
  revert g. induction ops as [|o ops IH]; intros g I; [done|]. by apply IH, run_op_inv.
Qed.

Lemma run_op_frame g o :
  g_max (run_op g o) = g_max g /\ g_ttl (run_op g o) = g_ttl g /\
  poisoned (g_inner (run_op g o)) = poisoned (g_inner g).
Proof.
  destruct o as [n now|n gen]; cbn.
  - unfold check_and_record_at. repeat case_match; done.
  - unfold guard_remove. by case_match.
Qed.

Lemma with_capacity_inv max ttl : guard_inv (with_capacity max ttl).
Proof.
  constructor; cbn; try done; [|unfold zlen; cbn; lia].
  split; [constructor|]. intros k. rewrite lookup_empty. split; [by intros []|by intros ?%elem_of_nil].
Qed.

(** The nonce is recorded at [t] under [gen], with at most [k] entries after it. *)
Definition holds (g : NonceReplayGuard) (n : bytes) (gen t k : Z) : Prop :=
  seen (contents (g_inner g)) !! n = Some gen /\
  exists pre post, order (contents (g_inner g)) = pre ++ (t, n) :: post /\ zlen post <= k.

(** A queue prefix without [n], cut from a queue that holds it. *)
Lemma prefix_split (q1 q2 pre post : list (Z * bytes)) e :
  q1 ++ q2 = pre ++ e :: post -> e ∉ q1 -> exists pre', q2 = pre' ++ e :: post /\ pre = q1 ++ pre'.
Proof.
  revert pre. induction q1 as [|a q1 IH]; intros pre E Hn; [by exists pre|].
  destruct pre as [|b pre]; cbn in E; injection E as -> E.
  - exfalso. by apply Hn, list_elem_of_here.
  - apply not_elem_of_cons in Hn as [_ Hn]. destruct (IH pre E Hn) as (pre' & -> & ->).
    by exists pre'.
Qed.

(** In a duplicate-free queue, a prefix that has the key of [e] has [e]. *)
Lemma prefix_key (q1 q2 pre post : list (Z * bytes)) t n :
  NoDup (q1 ++ q2).*2 -> q1 ++ q2 = pre ++ (t, n) :: post ->
  n ∈ q1.*2 -> (t, n) ∈ q1 /\ zlen q2 <= zlen post.
Proof.
  revert pre. induction q1 as [|[t' k] q1 IH]; intros pre Hnd E Hin.
  - by apply elem_of_nil in Hin.
  - cbn in Hnd, Hin. apply NoDup_cons in Hnd as [Hk Hnd].
    destruct pre as [|b pre]; cbn in E.
    + injection E as -> -> E. split; [apply list_elem_of_here|].
      subst post. rewrite zlen_app. pose proof (zlen_nonneg q1). lia.
    + injection E as <- E. apply elem_of_cons in Hin as [->|Hin].
      * exfalso. apply Hk. rewrite E, fmap_app, elem_of_app. right. apply list_elem_of_here.
      * destruct (IH pre Hnd E Hin). split; [by apply list_elem_of_further|done].
Qed.

Lemma holds_record g n gen t k n' now :
  guard_inv g -> holds g n gen t k -> now - t < g_ttl g -> 0 < g_ttl g -> k + 1 < g_max g ->
  holds (fst (check_and_record_at g n' now)) n gen t (k + 1).
Proof.
  intros I (Hs & pre & post & Eo & Hk) Hnow Httl Hmax.
  destruct (poisoned (g_inner g)) eqn:Hp.
  { unfold check_and_record_at. rewrite Hp. split; [done|]. exists pre, post. split; [done|lia]. }
  pose proof (inv_agree _ _ I) as Ha.
  destruct (record_cases g n' now I Hp) as (expired & live & Eq & He & _ & Hcase).
  assert (Hexp : n ∉ expired.*2).
  { intros Hin. pose proof (agree_nodup _ _ Ha) as Hnd. rewrite Eq in Hnd, Eo.
    destruct (prefix_key _ _ _ _ _ _ Hnd Eo Hin) as [Hte _].
    rewrite Forall_forall in He. apply He in Hte. unfold sat_sub in Hte. cbn in Hte. lia. }
  assert (Hpe : (t, n) ∉ expired) by (intros H; by apply Hexp, (list_elem_of_fmap_2 snd _ _ H)).
  rewrite Eq in Eo. destruct (prefix_split _ _ _ _ _ Eo Hpe) as (pre' & El & _).
  destruct Hcase as [(_ & ->)|[(_ & _ & ->)|(Hn & Hlt & old & kept & E2 & H1 & H2 & ->)]]; unfold holds;
    cbn [fst set_guard g_inner set_contents contents seen order].
  1,2: split; [by apply without_lookup|]; exists pre', post; split; [done|lia].
  assert (Hold : n ∉ old.*2).
  { intros Hin. rewrite E2 in El, Eq.
    assert (Hnd : NoDup (old ++ kept).*2).
    { pose proof (agree_nodup _ _ Ha) as Hnd. rewrite Eq, fmap_app in Hnd.
      by apply NoDup_app in Hnd as (_ & _ & Hnd). }
    destruct (prefix_key _ _ _ _ _ _ Hnd El Hin) as [Hto Hkz].
    destruct H2 as [->|H2]; [by apply elem_of_nil in Hto|]. lia. }
  assert (Hne : n <> n').
  { intros <-. apply Hn. rewrite El, fmap_app, elem_of_app. right. apply list_elem_of_here. }
  split.
  - rewrite lookup_insert_ne by congruence. apply without_lookup. split; [done|].
    by rewrite fmap_app, not_elem_of_app.
  - rewrite E2 in El.
    assert (Hpo : (t, n) ∉ old) by (intros H; by apply Hold, (list_elem_of_fmap_2 snd _ _ H)).
    destruct (prefix_split _ _ _ _ _ El Hpo) as (pre2 & -> & _).
    exists pre2, (post ++ [(now, n')]). split; [by rewrite <- app_assoc|].
    rewrite zlen_app. change (zlen [(now, n')]) with 1. lia.
Qed.

Lemma holds_remove g n gen t k n' gen' :
  guard_inv g -> holds g n gen t k -> gen' <> gen -> holds (guard_remove g n' gen') n gen t k.
Proof.
  intros I (Hs & pre & post & Eo & Hk) Hg. unfold guard_remove.
  case_bool_decide as Hr; [|split; [done|by exists pre, post]].
  assert (Hne : n <> n') by (intros <-; congruence).
  unfold holds. cbn [set_guard g_inner set_contents contents seen order].
  split; [by rewrite lookup_delete_ne by congruence|].
  assert (Hin : n' ∈ (order (contents (g_inner g))).*2).
  { apply (agree_dom _ _ (inv_agree _ _ I)). by eexists. }
  rewrite Eo in *. clear - Hne Hk.
  destruct (decide (n' ∈ pre.*2)) as [Hp|Hp].
  - exists (remove_first n' pre), post. split; [|done].
    induction pre as [|[t' j] pre IH]; [by apply elem_of_nil in Hp|]. cbn in *.
    case_bool_decide; [done|]. apply elem_of_cons in Hp as [->|Hp]; [done|]. by rewrite IH.
  - exists pre, (remove_first n' post). split.
    + induction pre as [|[t' j] pre IH]; cbn.
      * by rewrite bool_decide_eq_false_2 by congruence.
      * cbn in Hp. apply not_elem_of_cons in Hp as [Hj Hp].
        rewrite bool_decide_eq_false_2 by congruence. by rewrite IH.
    + pose proof (remove_first_zlen n' post). lia.
Qed.

Lemma holds_ops ops : forall g n gen t k,
  guard_inv g -> holds g n gen t k -> 0 < g_ttl g ->
  Forall (op_before (t + g_ttl g)) ops -> Forall (op_keeps gen) ops ->
  k + records ops < g_max g -> holds (run_ops ops g) n gen t (k + records ops).
Proof.
  induction ops as [|o ops IH]; intros g n gen t k I H Httl Hb Hr Hm.
  { change (records []) with 0. by rewrite Z.add_0_r. }
  apply Forall_cons in Hb as [Hb Hbs]. apply Forall_cons in Hr as [Hr Hrs].
  destruct (run_op_frame g o) as (Em & Et & _).
  assert (Hz : 0 <= records ops) by apply zlen_nonneg.
  change (run_ops (o :: ops) g) with (run_ops ops (run_op g o)).
  destruct o as [n' now|n' gen'].
  - change (records (OpRecord n' now :: ops)) with (zlen (OpRecord n' now :: filter is_record ops)) in *.
    rewrite zlen_cons in *. fold (records ops) in *. rewrite Z.add_assoc.
    apply IH; rewrite ?Em, ?Et; try done; try lia; [by apply run_op_inv|].
    cbn in Hb. apply holds_record; try done; lia.
  - apply IH; rewrite ?Em, ?Et; try done; [by apply run_op_inv|].
    by apply holds_remove.
Qed.

(** After a successful record the guard holds the nonce. *)
Lemma record_holds g n now g' gen :
  guard_inv g -> check_and_record_at g n now = (g', Ok gen) -> holds g' n gen now 0.
Proof.
  intros I H. destruct (poisoned (g_inner g)) eqn:Hp.
  { unfold check_and_record_at in H. by rewrite Hp in H. }
  destruct (record_cases g n now I Hp)
    as (expired & live & Eq & _ & _ & [(_ & E)|[(_ & _ & E)|(Hn & Hlt & old & kept & E2 & H1 & H2 & E)]]);
    rewrite E in H; try done. injection H as <- <-.
  unfold holds. cbn [set_guard g_inner set_contents contents seen order].
  split; [by rewrite lookup_insert_eq|]. by exists kept, [].
Qed.

(** [check] refuses what was just recorded, while it lives. *)
Lemma record_then_check g n t g' gen now :
  check_and_record_at g n t = (g', Ok gen) -> sat_sub now t < g_ttl g ->
  guard_check g' n now = Err NonceReplay.
Proof.
  unfold check_and_record_at. destruct (poisoned (g_inner g)) eqn:Hp; [done|].
  destruct (evict_expired _ _ _ _) as [m q]. cbn [seen order next_generation]. case_bool_decide; [done|].
  destruct (_ =? u64_max); [done|]. destruct (evict_oldest _ _ _) as [m' q']. intros [= <- <-] Ht.
  unfold guard_check, set_guard. cbn [g_inner poisoned set_contents contents seen order g_ttl]. rewrite Hp.
  rewrite lookup_insert_eq, bool_decide_eq_true_2 by done. rewrite existsb_app. cbn [existsb].
  rewrite bool_decide_eq_true_2, (proj2 (Z.ltb_lt _ _)) by done. by rewrite !orb_true_r.
Qed.

Lemma holds_refused g n gen t k now :
  guard_inv g -> poisoned (g_inner g) = false -> holds g n gen t k ->
  now - t < g_ttl g -> 0 < g_ttl g ->
  snd (check_and_record_at g n now) = Err NonceReplay.
Proof.
  intros I Hp (Hs & pre & post & Eo & Hk) Hnow Httl.
  destruct (record_cases g n now I Hp) as (expired & live & Eq & He & _ & Hcase).
  assert (n ∈ live.*2) as Hl.
  { pose proof (inv_agree _ _ I) as [Hnd _]. rewrite Eq in Hnd, Eo.
    assert (Hpe : (t, n) ∉ expired).
    { intros Hte. rewrite Forall_forall in He. apply He in Hte. unfold sat_sub in Hte.
      cbn in Hte. lia. }
    destruct (prefix_split _ _ _ _ _ Eo Hpe) as (pre' & -> & _).
    rewrite fmap_app, elem_of_app. right. apply list_elem_of_here. }
  destruct Hcase as [(_ & ->)|[(Hn & _)|(Hn & _)]]; done.
Qed.

(** Generations only grow, and later entries of a nonce are newer. *)
Definition newer (n : bytes) (gen : Z) (g : NonceReplayGuard) : Prop :=
  gen < next_generation (contents (g_inner g)) /\
  forall x, seen (contents (g_inner g)) !! n = Some x -> gen < x.

Lemma run_op_next g o :
  guard_inv g ->
  next_generation (contents (g_inner g)) <= next_generation (contents (g_inner (run_op g o))).
Proof.
  intros I. destruct o as [n now|n gen]; cbn [run_op].
  - destruct (poisoned (g_inner g)) eqn:Hp.
    { unfold check_and_record_at. by rewrite Hp. }
    destruct (record_cases g n now I Hp)
      as (expired & live & _ & _ & _ & [(_ & ->)|[(_ & _ & ->)|(_ & _ & old & kept & _ & _ & _ & ->)]]);
      cbn [fst set_guard g_inner set_contents contents next_generation]; lia.
  - unfold guard_remove. by case_match.
Qed.

Lemma run_op_newer g o n gen : guard_inv g -> newer n gen g -> newer n gen (run_op g o).
Proof.
  intros I [Hlt Hs]. split; [pose proof (run_op_next g o I); lia|]. intros x.
  destruct o as [n' now|n' gen']; cbn [run_op].
  - destruct (poisoned (g_inner g)) eqn:Hp.
    { unfold check_and_record_at. rewrite Hp. apply Hs. }
    destruct (record_cases g n' now I Hp)
      as (expired & live & _ & _ & _ & [(_ & ->)|[(_ & _ & ->)|(_ & _ & old & kept & _ & _ & _ & ->)]]);
      cbn [fst set_guard g_inner set_contents contents seen].
    + intros [H _]%without_lookup. by apply Hs.
    + intros [H _]%without_lookup. by apply Hs.
    + rewrite lookup_insert_Some. intros [[_ <-]|[_ [H _]%without_lookup]]; [lia|by apply Hs].
  - unfold guard_remove. case_match; [|apply Hs].
    cbn [set_guard g_inner set_contents contents seen]. intros [_ Hd]%lookup_delete_Some.
    by apply Hs.
Qed.

Lemma run_ops_newer ops g n gen : guard_inv g -> newer n gen g -> newer n gen (run_ops ops g).
Proof.
  revert g. induction ops as [|o ops IH]; intros g I H; [done|].
  apply IH; [by apply run_op_inv|by apply run_op_newer].
Qed.

Lemma run_ops_next ops g :
  guard_inv g ->
  next_generation (contents (g_inner g)) <= next_generation (contents (g_inner (run_ops ops g))).
Proof.
  revert g. induction ops as [|o ops IH]; intros g I; [done|].
  pose proof (run_op_next g o I). pose proof (IH (run_op g o) (run_op_inv g o I)).
  change (run_ops (o :: ops) g) with (run_ops ops (run_op g o)). lia.
Qed.

(** A successful record takes the next generation. *)
Lemma record_gen g n now g' gen :
  guard_inv g -> check_and_record_at g n now = (g', Ok gen) ->
  gen = next_generation (contents (g_inner g)) /\
  next_generation (contents (g_inner g')) = gen + 1.
Proof.
  intros I H. destruct (poisoned (g_inner g)) eqn:Hp.
  { unfold check_and_record_at in H. by rewrite Hp in H. }
  destruct (record_cases g n now I Hp)
    as (expired & live & Eq & _ & _ & [(_ & E)|[(_ & _ & E)|(Hn & Hlt & old & kept & E2 & H1 & H2 & E)]]);
    rewrite E in H; try done. by injection H as <- <-.
Qed.

Lemma reserve_at_ok g n now g' r :
  reserve_at g n now = (g', Ok r) ->
  check_and_record_at g n now = (g', Ok (rr_generation r)) /\ rr_nonce r = n /\
  rr_committed r = false.
Proof.
  unfold reserve_at. destruct (check_and_record_at g n now) as [g1 [gen|e|]]; [|done|done].
  by intros [= <- <-].
Qed.

(** ** Theorems *)

(** Whatever sequence of records and rollbacks reaches a guard, its queue
    lists exactly the recorded nonces, each once, generations identify their
    entries, and it never holds more than [max] of them (one when [max] is
    zero). *)
Theorem guard_invariant max ttl ops :
  let s := contents (g_inner (run_ops ops (with_capacity max ttl))) in
  NoDup (order s).*2 /\ (forall k, is_Some (seen s !! k) <-> k ∈ (order s).*2) /\
  (forall j k n, seen s !! j = Some n -> seen s !! k = Some n -> j = k) /\
  Z.of_nat (size (seen s)) <= Z.max 1 max.
Proof.
  pose proof (run_ops_inv ops _ (with_capacity_inv max ttl)) as I.
  assert (Em : g_max (run_ops ops (with_capacity max ttl)) = max).
  { clear I. change max with (g_max (with_capacity max ttl)) at 2.
    generalize (with_capacity max ttl). induction ops as [|o ops IH]; intros g; [done|].
    rewrite <- (proj1 (run_op_frame g o)). apply IH. }
  destruct I as [Ha Hg Hi Hn Hz]. rewrite Em in Hz. cbn zeta.
  rewrite (agree_size _ _ Ha). destruct Ha. by split_and!.
Qed.

(** C33: a recorded nonce is refused for the whole TTL.  Between the record at
    [t] and the second use at [now], any operations of any callers may run, as
    long as they come before the TTL has passed, fewer than [max] records are
    made, and the reservation itself is not rolled back. *)
Theorem replay_refused g n t g1 gen ops now :
  guard_inv g -> check_and_record_at g n t = (g1, Ok gen) ->
  Forall (op_before (t + g_ttl g)) ops -> Forall (op_keeps gen) ops ->
  records ops < g_max g -> now < t + g_ttl g -> 0 < g_ttl g ->
  snd (check_and_record_at (run_ops ops g1) n now) = Err NonceReplay.
Proof.
  intros I H Hb Hk Hr Hnow Httl. pose proof (record_inv g n t I) as I1.
  pose proof (record_holds g n t g1 gen I H) as Hh.
  destruct (run_op_frame g (OpRecord n t)) as (Em & Et & Ep). cbn [run_op] in *.
  rewrite H in I1, Em, Et, Ep. cbn [fst] in *.
  assert (Hp : poisoned (g_inner g) = false).
  { unfold check_and_record_at in H. by destruct (poisoned (g_inner g)). }
  assert (Hfr : g_ttl (run_ops ops g1) = g_ttl g /\ poisoned (g_inner (run_ops ops g1)) = false).
  { rewrite <- Et, <- Hp, <- Ep. clear. revert g1. induction ops as [|o ops IH]; intros g; [done|].
    destruct (run_op_frame g o) as (_ & <- & <-). apply IH. }
  destruct Hfr as [Ht2 Hp2]. rewrite <- Et in Hb.
  apply (holds_refused _ n gen t (0 + records ops)); [by apply run_ops_inv|done| |lia|lia].
  apply holds_ops; try done; lia.
Qed.

Lemma replay_refused_witness :
  snd (check_and_record_at
         (run_ops [OpRecord [x02] (secs 5); OpRemove [x02] 1; OpRecord [x03] (secs 10)]
            (fst (check_and_record_at (with_capacity 4 (secs 60)) [x01] 0)))
         [x01] (secs 59)) = Err NonceReplay.
Proof.
  apply (replay_refused (with_capacity 4 (secs 60)) [x01] 0 _ 0);
    [apply with_capacity_inv|by vm_compute|by repeat constructor|by repeat constructor
    |by vm_compute|by vm_compute|by vm_compute].
Defined.

(** A stale reservation cannot undo its replacement.  When the same nonce
    is reserved again, after whatever operations evicted the first one, then
    dropping the first reservation, at that point or after any further
    operations, changes nothing. *)
Theorem stale_rollback_harmless g n t1 g1 r1 ops t2 g2 r2 ops2 :
  guard_inv g -> reserve_at g n t1 = (g1, Ok r1) ->
  reserve_at (run_ops ops g1) n t2 = (g2, Ok r2) ->
  drop_reservation (run_ops ops2 g2) r1 = run_ops ops2 g2.
Proof.
  intros I (H1 & En & Ec)%reserve_at_ok (H2 & _ & _)%reserve_at_ok.
  pose proof (record_inv g n t1 I) as I1. rewrite H1 in I1. cbn [fst] in I1.
  pose proof (run_ops_inv ops g1 I1) as I1'.
  pose proof (record_inv (run_ops ops g1) n t2 I1') as I2. rewrite H2 in I2. cbn [fst] in I2.
  destruct (record_gen _ _ _ _ _ I H1) as [_ E1].
  destruct (record_gen _ _ _ _ _ I1' H2) as [E2 E2'].
  pose proof (run_ops_next ops g1 I1) as Hnx.
  destruct (record_holds _ _ _ _ _ I1' H2) as [Hs _].
  assert (Hnew : newer n (rr_generation r1) (run_ops ops2 g2)).
  { apply run_ops_newer; [done|]. split; [lia|]. intros x Hx.
    rewrite Hs in Hx. injection Hx as <-. lia. }
  unfold drop_reservation. rewrite Ec, En. unfold guard_remove.
  case_bool_decide as Hd; [|done]. apply Hnew in Hd. lia.
Qed.

Lemma stale_rollback_harmless_witness :
  let g1 := fst (reserve_at (with_capacity 4 (secs 60)) [x01] 0) in
  let g2 := fst (reserve_at g1 [x01] (secs 60)) in
  drop_reservation g2 {| rr_nonce := [x01]; rr_generation := 0; rr_committed := false |} = g2.
Proof.
  apply (stale_rollback_harmless (with_capacity 4 (secs 60)) [x01] 0
    (fst (reserve_at (with_capacity 4 (secs 60)) [x01] 0)) _ [] (secs 60) _
    {| rr_nonce := [x01]; rr_generation := 1; rr_committed := false |} []);
    [apply with_capacity_inv|by vm_compute|by vm_compute].
Defined.

(** A failed operation does not consume its key, and a successful one
    does: dropping an uncommitted reservation leaves the guard without the
    nonce, so it can be reserved again at once; dropping a committed one
    changes nothing. *)
Theorem rollback_releases g n t g1 r t2 :
  guard_inv g -> reserve_at g n t = (g1, Ok r) -> rr_generation r + 1 < u64_max ->
  seen (contents (g_inner (drop_reservation g1 r))) !! n = None /\
  snd (check_and_record_at (drop_reservation g1 r) n t2) = Ok (rr_generation r + 1) /\
  drop_reservation g1 (commit r) = g1.
Proof.
  intros I (H1 & En & Ec)%reserve_at_ok Hg. split; [|split; [|done]].
  all: pose proof (record_inv g n t I) as I1; rewrite H1 in I1; cbn [fst] in I1.
  all: destruct (record_gen _ _ _ _ _ I H1) as [_ E1].
  all: destruct (record_holds _ _ _ _ _ I H1) as [Hs _].
  all: assert (Hp : poisoned (g_inner g1) = false) by
    (destruct (run_op_frame g (OpRecord n t)) as (_ & _ & Ep); cbn [run_op] in Ep;
     rewrite H1 in Ep; cbn [fst] in Ep; rewrite Ep;
     unfold check_and_record_at in H1; by destruct (poisoned (g_inner g))).
  all: unfold drop_reservation; rewrite Ec, En.
  all: pose proof (remove_inv g1 n (rr_generation r) I1) as I2.
  all: unfold guard_remove in *; rewrite bool_decide_eq_true_2 in * by done.
  - cbn [set_guard g_inner set_contents contents seen]. apply lookup_delete_eq.
  - match goal with |- snd (check_and_record_at ?g _ _) = _ => set (g2 := g) in * end.
    destruct (record_cases g2 n t2 I2 Hp) as (expired & live & Eq & _ & _ & Hcase).
    assert (Hn : n ∉ live.*2).
    { intros Hin. assert (Hin2 : n ∈ (order (contents (g_inner g2))).*2).
      { rewrite Eq, fmap_app, elem_of_app. by right. }
      apply (agree_dom _ _ (inv_agree _ _ I2)) in Hin2.
      cbn [g2 set_guard g_inner set_contents contents seen] in Hin2.
      rewrite lookup_delete_eq in Hin2. by destruct Hin2. }
    destruct Hcase as [(Hin & _)|[(_ & Hx & _)|(_ & _ & old & kept & _ & _ & _ & ->)]]; [done| |].
    + cbn in Hx. lia.
    + cbn. by rewrite E1.
Qed.

Lemma rollback_releases_witness :
  let g1 := fst (reserve_at default_guard [x01] 0) in
  snd (check_and_record_at
         (drop_reservation g1 {| rr_nonce := [x01]; rr_generation := 0; rr_committed := false |})
         [x01] (secs 1)) = Ok 1.
Proof.
  apply (rollback_releases default_guard [x01] 0 _
           {| rr_nonce := [x01]; rr_generation := 0; rr_committed := false |} (secs 1));
    [apply with_capacity_inv|by vm_compute|by vm_compute].
Defined.

(** ** A clock that does not go back *)

Definition older (a b : Z * bytes) : Prop := a.1 <= b.1.

(** The queue is ordered by time, up to [lim]. *)
Definition queue_ok (lim : Z) (q : list (Z * bytes)) : Prop :=
  StronglySorted older q /\ Forall (fun p => p.1 <= lim) q.

Fixpoint clock_ok (lim : Z) (ops : list guard_op) : Prop :=
  match ops with
  | [] => True
  | OpRecord _ now :: ops => lim <= now /\ clock_ok now ops
  | OpRemove _ _ :: ops => clock_ok lim ops
  end.

Lemma queue_ok_suffix lim pre q : queue_ok lim (pre ++ q) -> queue_ok lim q.
Proof.
  intros [Hs Hf]. apply Forall_app in Hf as [_ Hf]. split; [|done].
  induction pre as [|p pre IH]; [done|]. apply IH. by apply StronglySorted_inv in Hs as [Hs _].
Qed.

Lemma queue_ok_snoc lim q now n : queue_ok lim q -> lim <= now -> queue_ok now (q ++ [(now, n)]).
Proof.
  intros [Hs Hf] Hl. assert (Hf' : Forall (fun p => p.1 <= now) q).
  { eapply Forall_impl; [exact Hf|]. cbn. lia. }
  split; [|apply Forall_app; split; [done|by repeat constructor]].
  clear Hf. induction q as [|p q IH]; [by repeat constructor|].
  apply StronglySorted_inv in Hs as [Hs Hp]. apply Forall_cons in Hf' as [Hp' Hf'].
  cbn. constructor; [by apply IH|]. apply Forall_app. split; [done|]. by repeat constructor.
Qed.

Lemma remove_first_Forall (P : Z * bytes -> Prop) n q : Forall P q -> Forall P (remove_first n q).
Proof.
  induction 1 as [|[t k] q Hp Hq IH]; cbn; [constructor|]. case_bool_decide; [done|].
  by constructor.
Qed.

Lemma queue_ok_remove lim n q : queue_ok lim q -> queue_ok lim (remove_first n q).
Proof.
  intros [Hs Hf]. split; [|by apply remove_first_Forall].
  clear Hf. induction Hs as [|[t k] q Hs IH Hp]; cbn; [constructor|].
  case_bool_decide; [done|]. constructor; [done|]. by apply remove_first_Forall.
Qed.

Lemma run_ops_queue_ok ops : forall lim g,
  guard_inv g -> queue_ok lim (order (contents (g_inner g))) -> clock_ok lim ops ->
  exists lim', queue_ok lim' (order (contents (g_inner (run_ops ops g)))).
Proof.
  induction ops as [|o ops IH]; intros lim g I Hq Hc; [by exists lim|].
  pose proof (run_op_inv g o I) as I'. change (run_ops (o :: ops) g) with (run_ops ops (run_op g o)).
  destruct o as [n now|n gen]; cbn [clock_ok] in Hc.
  - destruct Hc as [Hl Hc]. apply (IH now); [done| |done]. cbn [run_op].
    assert (Hnow : forall q, queue_ok lim q -> queue_ok now q).
    { intros q [H1 H2]. split; [done|]. eapply Forall_impl; [exact H2|]. cbn. lia. }
    destruct (poisoned (g_inner g)) eqn:Hp.
    { unfold check_and_record_at. rewrite Hp. by apply Hnow. }
    destruct (record_cases g n now I Hp)
      as (expired & live & Eq & _ & _ & [(_ & ->)|[(_ & _ & ->)|(_ & _ & old & kept & -> & _ & _ & ->)]]);
      rewrite Eq in Hq; cbn [fst set_guard g_inner set_contents contents order].
    + by eapply Hnow, queue_ok_suffix.
    + by eapply Hnow, queue_ok_suffix.
    + apply (queue_ok_snoc lim); [|done]. by eapply queue_ok_suffix, queue_ok_suffix.
  - apply (IH lim); [done| |done]. cbn [run_op]. unfold guard_remove. case_match; [|done].
    by apply queue_ok_remove.
Qed.

(** With an ordered queue the entries after the eviction are the live ones. *)
Lemma record_live g n now lim :
  guard_inv g -> poisoned (g_inner g) = false -> queue_ok lim (order (contents (g_inner g))) ->
  snd (check_and_record_at g n now) = Err NonceReplay <->
  exists t, (t, n) ∈ order (contents (g_inner g)) /\ sat_sub now t < g_ttl g.
Proof.
  intros I Hp Hq. destruct (record_cases g n now I Hp) as (expired & live & Eq & He & Hh & Hcase).
  assert (Hl : n ∈ live.*2 <->
               exists t, (t, n) ∈ order (contents (g_inner g)) /\ sat_sub now t < g_ttl g).
  { rewrite Eq in *. split.
    - intros ([t n'] & -> & Hin)%list_elem_of_fmap. exists t.
      split; [apply elem_of_app; by right|].
      apply queue_ok_suffix in Hq as [Hs _]. destruct live as [|p live]; [by apply elem_of_nil in Hin|].
      specialize (Hh p eq_refl). apply StronglySorted_inv in Hs as [_ Hs].
      apply elem_of_cons in Hin as [<-|Hin]; [done|]. rewrite Forall_forall in Hs.
      specialize (Hs _ Hin). unfold older, sat_sub in *. cbn in *. lia.
    - intros (t & [Hin|Hin]%elem_of_app & Ht).
      + rewrite Forall_forall in He. apply He in Hin. cbn in Hin. lia.
      + by apply (list_elem_of_fmap_2 snd) in Hin. }
  rewrite <- Hl.
  destruct Hcase as [(Hin & ->)|[(Hn & _ & ->)|(Hn & _ & old & kept & _ & _ & _ & ->)]];
    cbn [snd]; split; done.
Qed.

(** With a clock that does not go back, the cheap [check] answers exactly
    what [check_and_record_at] would: a nonce is refused iff it was recorded
    less than the TTL ago and is still held.  So an expired nonce is accepted,
    and a check that passes can only be overtaken by another record. *)
Theorem check_agrees_with_record max ttl ops start n now :
  clock_ok start ops ->
  let g := run_ops ops (with_capacity max ttl) in
  (guard_check g n now = Err NonceReplay <->
   snd (check_and_record_at g n now) = Err NonceReplay) /\
  (snd (check_and_record_at g n now) = Err NonceReplay <->
   exists t, (t, n) ∈ order (contents (g_inner g)) /\ sat_sub now t < ttl).
Proof.
  intros Hc g. pose proof (with_capacity_inv max ttl) as I0.
  pose proof (run_ops_inv ops _ I0) as I. fold g in I.
  destruct (run_ops_queue_ok ops start _ I0) as [lim Hq]; [repeat constructor|done|]. fold g in Hq.
  assert (Hfr : g_ttl g = ttl /\ poisoned (g_inner g) = false).
  { unfold g. change ttl with (g_ttl (with_capacity max ttl)) at 2.
    change false with (poisoned (g_inner (with_capacity max ttl))).
    clear. generalize (with_capacity max ttl). induction ops as [|o ops IH]; intros g; [done|].
    destruct (run_op_frame g o) as (_ & <- & <-). apply IH. }
  destruct Hfr as [Ht Hp].
  pose proof (record_live g n now lim I Hp Hq) as Hr. rewrite Ht in Hr. split; [|done].
  rewrite Hr. unfold guard_check. rewrite Hp, Ht.
  assert (Hex : existsb (fun '(seen_at, key) => bool_decide (key = n) && (sat_sub now seen_at <? ttl))
                  (order (contents (g_inner g))) = true <->
                exists t, (t, n) ∈ order (contents (g_inner g)) /\ sat_sub now t < ttl).
  { rewrite existsb_exists. split.
    - intros ([t k] & Hin & [Hk%bool_decide_eq_true Hlt%Z.ltb_lt]%andb_true_iff). subst k.
      exists t. by rewrite list_elem_of_In.
    - intros (t & Hin & Hlt). exists (t, n). rewrite <- list_elem_of_In. split; [done|].
      rewrite bool_decide_eq_true_2 by done. by apply Z.ltb_lt. }
  rewrite <- Hex. destruct (existsb _ _).
  - rewrite bool_decide_eq_true_2; [done|].
    destruct (proj1 Hex eq_refl) as (t & Hin & _).
    apply (agree_dom _ _ (inv_agree _ _ I)). by apply (list_elem_of_fmap_2 snd) in Hin.
  - rewrite andb_false_r. done.
Qed.

Lemma check_agrees_with_record_witness :
  snd (check_and_record_at
    (run_ops [OpRecord [x01] 0; OpRecord [x02] (secs 1)] (with_capacity 4 (secs 60)))
    [x02] (secs 60)) = Err NonceReplay.
Proof.
  apply (check_agrees_with_record 4 (secs 60) [OpRecord [x01] 0; OpRecord [x02] (secs 1)] 0);
    [by vm_compute|]. exists (secs 1). split; [|by vm_compute].
  vm_compute. repeat constructor.
Defined.
