(* ===== verification/ResultCache.v ===== *)
(** * Signed results (src/enclave/src/state/result_cache.rs)

    [SignedResultCache]: the replies kept for a byte-identical retry.  Both
    methods run under one mutex that recovers from poison, so a history of the
    cache is a list of [put]s.  The reply type is a parameter. *)

From stdpp Require Import strings sorting base gmap numbers list.
From S2P Require Import Prelude Errors.

#[local] Open Scope list_scope.
#[local] Open Scope Z_scope.

Definition DEFAULT_RESULT_TTL : Z := secs (24 * 60 * 60).
Definition DEFAULT_RESULT_MAX : Z := 1024.

Section Cache.
Context {EnclaveResponse : Type}.

Record Entry : Type := {
  e_at : Z;
  e_request : bytes;
  e_response : EnclaveResponse
}.

Record Inner : Type := {
  c_map : gmap bytes Entry;
  c_order : list bytes
}.

Record SignedResultCache : Type := {
  c_inner : mutex Inner;
  c_max : Z;
  c_ttl : Z
}.

Definition cache_with_capacity (max ttl : Z) : SignedResultCache := {|
  c_inner := new_mutex {| c_map := ∅; c_order := [] |};
  c_max := max;
  c_ttl := ttl
|}.

Definition default_cache : SignedResultCache :=
  cache_with_capacity DEFAULT_RESULT_MAX DEFAULT_RESULT_TTL.

Definition get_at (c : SignedResultCache) (op_key request : bytes) (now : Z)
    : option EnclaveResponse :=
  match c_map (contents (c_inner c)) !! op_key with
  | None => None
  | Some entry =>
      let live := sat_sub now (e_at entry) <? c_ttl c in
      if live && bool_decide (e_request entry = request) then Some (e_response entry) else None
  end.

(** The eviction loop of [put_at]. *)
Fixpoint evict (max ttl now : Z) (m : gmap bytes Entry) (q : list bytes)
    : gmap bytes Entry * list bytes :=
  match q with
  | [] => (m, [])
  | oldest :: q' =>
      let expired :=
        match m !! oldest with
        | None => true
        | Some e => ttl <=? sat_sub now (e_at e)
        end in
      if negb expired && (Z.of_nat (size m) <? max) then (m, q)
      else evict max ttl now (delete oldest m) q'
  end.

Definition put_at (c : SignedResultCache) (op_key request : bytes) (response : EnclaveResponse)
    (now : Z) : SignedResultCache :=
  let g := contents (c_inner c) in
  let '(m, q) :=
    match c_map g !! op_key with
    | Some _ => (delete op_key (c_map g), filter (fun k => k <> op_key) (c_order g))
    | None => (c_map g, c_order g)
    end in
  let '(m, q) := evict (c_max c) (c_ttl c) now m q in
  {| c_inner := set_contents (c_inner c)
       {| c_map := <[op_key := {| e_at := now; e_request := request; e_response := response |}]> m;
          c_order := q ++ [op_key] |};
     c_max := c_max c;
     c_ttl := c_ttl c |}.

Lemma put_then_get c k r resp t r' now :
  sat_sub now t < c_ttl c ->
  get_at (put_at c k r resp t) k r' now = if bool_decide (r = r') then Some resp else None.
Proof.
  intros Ht. unfold get_at, put_at. destruct (c_map (contents (c_inner c)) !! k);
    destruct (evict _ _ _ _ _) as [m q]; cbn [c_inner c_map contents set_contents c_ttl];
    rewrite lookup_insert_eq; cbn [e_at e_request e_response]; by rewrite (proj2 (Z.ltb_lt _ _)).
Qed.

(** The kept reply is for its own request, for the time to live. *)
Lemma get_after_put c k r resp t r' now :
  get_at (put_at c k r resp t) k r' now =
  if bool_decide (r = r') && (sat_sub now t <? c_ttl c) then Some resp else None.
Proof.
  unfold get_at, put_at. destruct (c_map (contents (c_inner c)) !! k);
    destruct (evict _ _ _ _ _) as [m q]; cbn [c_inner c_map contents set_contents c_ttl];
    rewrite lookup_insert_eq; cbn [e_at e_request e_response]; by rewrite andb_comm.
Qed.

(** ** Invariant *)

Record inner_inv (m : gmap bytes Entry) (q : list bytes) : Prop := {
  in_nodup : NoDup q;
  in_dom : forall k, is_Some (m !! k) <-> k ∈ q
}.

Definition cache_inv (c : SignedResultCache) : Prop :=
  inner_inv (c_map (contents (c_inner c))) (c_order (contents (c_inner c))) /\
  zlen (c_order (contents (c_inner c))) <= Z.max 1 (c_max c).

Lemma inner_size m q : inner_inv m q -> size m = length q.
Proof.
  intros [Hn Hd]. rewrite <- size_dom.
  rewrite <- (size_list_to_set (C := gset bytes)) by done. f_equal.
  apply set_eq. intros k. rewrite elem_of_dom, elem_of_list_to_set. apply Hd.
Qed.

Lemma inner_pop m k q : inner_inv m (k :: q) -> inner_inv (delete k m) q.
Proof.
  intros [Hn Hd]. apply NoDup_cons in Hn as [Hk Hn]. split; [done|].
  intros j. rewrite lookup_delete_is_Some, Hd, elem_of_cons.
  split; [intros [? [?|?]]; congruence|]. intros Hj. split; [congruence|by right].
Qed.

(** The loop drops a prefix of the queue: an entry goes only when it is
    expired, or when it is the oldest and the cache is full.  A key that
    survives keeps its entry. *)
Lemma evict_spec max ttl now m q :
  inner_inv m q ->
  exists pre q' m', q = pre ++ q' /\ evict max ttl now m q = (m', q') /\ inner_inv m' q' /\
    (forall k, k ∉ pre -> m' !! k = m !! k) /\
    (q' = [] \/ zlen q' < max) /\
    (forall p1 k p2 e, pre = p1 ++ k :: p2 -> m !! k = Some e ->
       ttl <= sat_sub now (e_at e) \/ max <= 1 + zlen (p2 ++ q')).
Proof.
  revert m. induction q as [|k q IH]; intros m Ha.
  - exists [], [], m. split_and!; auto. by intros [|??].
  - cbn [evict]. pose proof (in_dom _ _ Ha k) as [_ Hk].
    destruct (Hk ltac:(apply list_elem_of_here)) as [e Ee]. rewrite Ee.
    rewrite (inner_size _ _ Ha). fold (zlen (k :: q)).
    destruct (negb (ttl <=? sat_sub now (e_at e)) && (zlen (k :: q) <? max)) eqn:E.
    + exists [], (k :: q), m. split_and!; auto; [right; zbool; lia|]. by intros [|??].
    + destruct (IH _ (inner_pop _ _ _ Ha)) as (pre & q' & m' & -> & -> & Hi & Hm & Hq & Hf).
      exists (k :: pre), q', m'. split_and!; try done.
      * intros j [Hj1 Hj2]%not_elem_of_cons. rewrite Hm by done.
        by rewrite lookup_delete_ne by congruence.
      * intros [|k1 p1] j p2 e' Hp He'; injection Hp as -> Hp.
        -- subst p2. assert (e' = e) as -> by congruence. rewrite zlen_cons in E. zbool.
           destruct E; zbool; [by left|right; lia].
        -- subst pre. eapply Hf; [reflexivity|].
           pose proof (in_nodup _ _ Ha) as [Hnd _]%NoDup_cons.
           rewrite lookup_delete_ne; [done|]. intros ->. apply Hnd.
           rewrite <- app_assoc. apply elem_of_app. right. apply list_elem_of_here.
Qed.

Lemma filter_keep (P : bytes -> Prop) `{forall k, Decision (P k)} (q : list bytes) :
  (forall k, k ∈ q -> P k) -> filter P q = q.
Proof.
  induction q as [|k q IH]; intros Hk; [done|].
  rewrite filter_cons_True by apply Hk, list_elem_of_here.
  f_equal. apply IH. intros j Hj. by apply Hk, list_elem_of_further.
Qed.

(** The state the loop starts from: [op_key] is gone, the rest is unchanged. *)
Lemma put_prepare c op m q :
  cache_inv c ->
  (match c_map (contents (c_inner c)) !! op with
   | Some _ => (delete op (c_map (contents (c_inner c))),
                filter (fun k => k <> op) (c_order (contents (c_inner c))))
   | None => (c_map (contents (c_inner c)), c_order (contents (c_inner c)))
   end) = (m, q) ->
  inner_inv m q /\ m = delete op (c_map (contents (c_inner c))) /\
  q = filter (fun k => k <> op) (c_order (contents (c_inner c))).
Proof.
  intros [[Hn Hd] _] H.
  assert (Hq : inner_inv (delete op (c_map (contents (c_inner c))))
                 (filter (fun k => k <> op) (c_order (contents (c_inner c))))).
  { split; [by apply NoDup_filter|]. intros k.
    rewrite lookup_delete_is_Some, Hd, list_elem_of_filter. intuition congruence. }
  destruct (c_map (contents (c_inner c)) !! op) eqn:E; injection H as <- <-; [done|].
  assert (E1 : delete op (c_map (contents (c_inner c))) = c_map (contents (c_inner c)))
    by (by rewrite delete_id).
  assert (E2 : filter (fun k => k <> op) (c_order (contents (c_inner c)))
               = c_order (contents (c_inner c))).
  { apply filter_keep. intros k Hk ->. apply Hd in Hk. rewrite E in Hk. by destruct Hk. }
  by rewrite E1, E2 in *.
Qed.

(** What [put_at] does. *)
Lemma put_at_spec c op req resp now :
  cache_inv c ->
  exists pre q m,
    filter (fun k => k <> op) (c_order (contents (c_inner c))) = pre ++ q /\
    inner_inv m q /\
    (forall k, k ∉ pre -> k <> op -> m !! k = c_map (contents (c_inner c)) !! k) /\
    (q = [] \/ zlen q < c_max c) /\
    (forall p1 k p2 e, pre = p1 ++ k :: p2 -> c_map (contents (c_inner c)) !! k = Some e ->
       c_ttl c <= sat_sub now (e_at e) \/ c_max c <= 1 + zlen (p2 ++ q)) /\
    (op ∉ q) /\
    put_at c op req resp now =
      {| c_inner := set_contents (c_inner c)
           {| c_map := <[op := {| e_at := now; e_request := req; e_response := resp |}]> m;
              c_order := q ++ [op] |};
         c_max := c_max c; c_ttl := c_ttl c |}.
Proof.
  intros I. unfold put_at. destruct (match _ !! op with Some _ => _ | None => _ end) as [m0 q0] eqn:E0.
  destruct (put_prepare c op m0 q0 I E0) as (Hi & -> & ->).
  destruct (evict_spec (c_max c) (c_ttl c) now _ _ Hi) as (pre & q & m & Eq & -> & Hi' & Hm & Hq & Hp).
  exists pre, q, m. split; [done|]. split; [done|]. split.
  { intros k Hk Hop. rewrite Hm by done. by rewrite lookup_delete_ne by congruence. }
  split; [done|].
  assert (Hout : forall k, k ∈ pre ++ q -> k <> op).
  { intros k Hk. rewrite <- Eq in Hk. by apply list_elem_of_filter in Hk as [? _]. }
  split; [|split; [|done]].
  - intros p1 k p2 e Ep He. eapply Hp; [exact Ep|]. rewrite lookup_delete_ne; [done|].
    intros <-. apply (Hout op); [|done]. subst pre.
    apply elem_of_app; left. apply elem_of_app; right. apply list_elem_of_here.
  - intros Hin. apply (Hout op); [|done]. apply elem_of_app. by right.
Qed.

Lemma put_inv c op req resp now : cache_inv c -> cache_inv (put_at c op req resp now).
Proof.
  intros I. destruct (put_at_spec c op req resp now I) as (pre & q & m & _ & [Hn Hd] & _ & Hq & _ & Hop & ->).
  unfold cache_inv. cbn [c_inner set_contents contents c_map c_order c_max]. split.
  - split.
    + apply NoDup_app. split; [done|]. split; [|by apply NoDup_singleton].
      by intros k Hk ->%list_elem_of_singleton.
    + intros k. rewrite lookup_insert_is_Some', Hd, elem_of_app, list_elem_of_singleton.
      split; intros [|]; subst; auto.
  - rewrite zlen_app, zlen_cons, zlen_nil. destruct Hq as [->|Hq]; [rewrite zlen_nil|]; lia.
Qed.

(** ** Histories *)

Record put : Type := { p_op : bytes; p_req : bytes; p_resp : EnclaveResponse; p_at : Z }.

Definition run_put (c : SignedResultCache) (p : put) : SignedResultCache :=
  put_at c (p_op p) (p_req p) (p_resp p) (p_at p).

Definition run_puts (ps : list put) (c : SignedResultCache) : SignedResultCache :=
  fold_left run_put ps c.

Lemma empty_inv max ttl : cache_inv (cache_with_capacity max ttl).
Proof.
  split; cbn; [|unfold zlen; cbn; lia]. split; [constructor|].
  intros k. rewrite lookup_empty. split; [by intros []|by intros ?%elem_of_nil].
Qed.

Lemma run_puts_inv ps c : cache_inv c -> cache_inv (run_puts ps c).
Proof. revert c. induction ps as [|p ps IH]; intros c I; [done|]. by apply IH, put_inv. Qed.

Lemma run_puts_snoc ps p c : run_puts (ps ++ [p]) c = run_put (run_puts ps c) p.
Proof. unfold run_puts. by rewrite fold_left_app. Qed.

Lemma run_puts_frame ps c :
  c_max (run_puts ps c) = c_max c /\ c_ttl (run_puts ps c) = c_ttl c.
Proof.
  revert c. induction ps as [|p ps IH]; intros c; [done|].
  destruct (IH (run_put c p)) as [E1 E2].
  change (run_puts (p :: ps) c) with (run_puts ps (run_put c p)). rewrite E1, E2. unfold run_put, put_at. repeat case_match; done.
Qed.

(** An entry comes from the last put of its key. *)
Lemma run_puts_entry ps max ttl op e :
  c_map (contents (c_inner (run_puts ps (cache_with_capacity max ttl)))) !! op = Some e ->
  exists ps1 p ps2, ps = ps1 ++ p :: ps2 /\ p_op p = op /\ Forall (fun p' => p_op p' <> op) ps2 /\
    e = {| e_at := p_at p; e_request := p_req p; e_response := p_resp p |}.
Proof.
  induction ps as [|p ps IH] using rev_ind.
  { change (c_map _) with (∅ : gmap bytes Entry). by rewrite lookup_empty. }
  rewrite run_puts_snoc. pose proof (run_puts_inv ps _ (empty_inv max ttl)) as I.
  unfold run_put. destruct (put_at_spec _ (p_op p) (p_req p) (p_resp p) (p_at p) I)
    as (pre & q & m & Eq & [Hn Hd] & Hm & _ & _ & _ & ->).
  cbn [c_inner set_contents contents c_map]. rewrite lookup_insert_Some.
  intros [[E <-]|[Hne He]].
  - exists ps, p, []. by split_and!.
  - assert (Hin : op ∈ q) by (apply Hd; by eexists).
    destruct IH as (ps1 & p' & ps2 & -> & Hop & Hf & ->).
    { rewrite <- Hm; [done| |congruence]. intros Hpre.
      assert (Hnd : NoDup (pre ++ q)).
      { rewrite <- Eq. apply NoDup_filter. apply I. }
      apply NoDup_app in Hnd as (_ & Hdis & _). by apply (Hdis op). }
    exists ps1, p', (ps2 ++ [p]). split; [by rewrite <- app_assoc|]. split; [done|].
    split; [|done]. apply Forall_app. split; [done|]. by constructor.
Qed.

(** [op] is kept with entry [e], at most [k] keys after it. *)
Definition kept (c : SignedResultCache) (op : bytes) (e : Entry) (k : Z) : Prop :=
  c_map (contents (c_inner c)) !! op = Some e /\
  exists pre post, c_order (contents (c_inner c)) = pre ++ op :: post /\ zlen post <= k.

Lemma split_unique (a1 b1 a2 b2 : list bytes) k :
  a1 ++ k :: b1 = a2 ++ k :: b2 -> NoDup (a1 ++ k :: b1) -> b1 = b2.
Proof.
  revert a2. induction a1 as [|x a1 IH]; intros [|y a2] E Hnd; cbn in *; simplify_eq.
  - done.
  - apply NoDup_cons in Hnd as [Hk _]. exfalso. apply Hk.
    apply elem_of_app; right; apply list_elem_of_here.
  - apply NoDup_cons in Hnd as [Hk _]. exfalso. apply Hk.
    apply elem_of_app; right; apply list_elem_of_here.
  - apply NoDup_cons in Hnd as [_ Hnd]. by eapply IH.
Qed.

Lemma zlen_filter (P : bytes -> Prop) `{forall k, Decision (P k)} q : zlen (filter P q) <= zlen q.
Proof. unfold zlen. pose proof (length_filter P q). lia. Qed.

Lemma put_kept c op e k p :
  cache_inv c -> kept c op e k -> p_op p <> op -> sat_sub (p_at p) (e_at e) < c_ttl c ->
  k + 1 < c_max c -> kept (run_put c p) op e (k + 1).
Proof.
  intros I (He & pre0 & post0 & Eo & Hk) Hop Hlive Hmax. unfold run_put.
  destruct (put_at_spec c (p_op p) (p_req p) (p_resp p) (p_at p) I)
    as (pre & q & m & Eq & [Hn Hd] & Hm & _ & Hpre & _ & ->).
  rewrite Eo, filter_app, filter_cons_True in Eq by congruence.
  set (fpre := filter (fun k => k <> p_op p) pre0) in *.
  set (fpost := filter (fun k => k <> p_op p) post0) in *.
  assert (Hz : zlen fpost <= k) by (etransitivity; [apply zlen_filter|done]).
  assert (Hnd : NoDup (fpre ++ op :: fpost)).
  { pose proof (NoDup_filter (fun k => k <> p_op p) _ (in_nodup _ _ (proj1 I))) as H.
    by rewrite Eo, filter_app, filter_cons_True in H by congruence. }
  assert (Hsurv : op ∉ pre).
  { intros (p1 & p2 & ->)%list_elem_of_split.
    destruct (Hpre p1 op p2 e eq_refl He) as [H|H]; [lia|].
    rewrite <- app_assoc in Eq. rewrite Eq in Hnd.
    pose proof (split_unique fpre fpost p1 (p2 ++ q) op) as Hu. rewrite Eq in Hu.
    rewrite <- (Hu eq_refl Hnd) in H. lia. }
  unfold kept. cbn [c_inner set_contents contents c_map c_order].
  rewrite lookup_insert_ne, Hm by done. split; [done|].
  assert (Hq : exists pre', q = pre' ++ op :: fpost).
  { clear -Eq Hsurv. revert pre Eq Hsurv. induction fpre as [|x l IH]; intros [|y pre] Eq Hs.
    - by exists [].
    - cbn in Eq. injection Eq as -> _. exfalso. by apply Hs, list_elem_of_here.
    - exists (x :: l). done.
    - cbn in Eq. injection Eq as -> Eq. apply (IH pre Eq). by apply not_elem_of_cons in Hs as [_ ?]. }
  destruct Hq as [pre' ->]. exists pre', (fpost ++ [p_op p]).
  split; [by rewrite <- app_assoc|]. rewrite zlen_app, zlen_cons, zlen_nil. lia.
Qed.

Lemma puts_kept ps : forall c op e k,
  cache_inv c -> kept c op e k -> Forall (fun p => p_op p <> op) ps ->
  Forall (fun p => sat_sub (p_at p) (e_at e) < c_ttl c) ps ->
  k + zlen ps < c_max c -> kept (run_puts ps c) op e (k + zlen ps).
Proof.
  induction ps as [|p ps IH]; intros c op e k I Hk Hop Ht Hm.
  { by rewrite zlen_nil, Z.add_0_r. }
  apply Forall_cons in Hop as [Hop Hops]. apply Forall_cons in Ht as [Ht Hts].
  rewrite zlen_cons in *. pose proof (zlen_nonneg ps).
  destruct (run_puts_frame [p] c) as [Em Et]. cbn [run_puts fold_left] in Em, Et.
  rewrite Z.add_assoc. apply IH; rewrite ?Em, ?Et; try done; [by apply put_inv| |lia].
  apply put_kept; try done. lia.
Qed.

(** ** Theorems *)

(** A cached reply is returned only for the operation and the
    byte-identical request that made it, only while it is the latest reply
    kept for that operation, and only within the TTL; and the cache never holds
    more than [max] replies (one when [max] is zero). *)
Theorem result_cache_sound max ttl ps op req now resp :
  let c := run_puts ps (cache_with_capacity max ttl) in
  Z.of_nat (size (c_map (contents (c_inner c)))) <= Z.max 1 max /\
  (get_at c op req now = Some resp ->
   exists ps1 p ps2, ps = ps1 ++ p :: ps2 /\ Forall (fun p' => p_op p' <> op) ps2 /\
     p_op p = op /\ p_req p = req /\ p_resp p = resp /\ sat_sub now (p_at p) < ttl).
Proof.
  intros c. destruct (run_puts_inv ps _ (empty_inv max ttl)) as [Hi Hz]. fold c in Hi, Hz.
  destruct (run_puts_frame ps (cache_with_capacity max ttl)) as [Em Et]. fold c in Em, Et.
  split; [rewrite (inner_size _ _ Hi); rewrite Em in Hz; exact Hz|].
  unfold get_at. destruct (c_map (contents (c_inner c)) !! op) as [e|] eqn:E; [|done].
  destruct (_ && _) eqn:Eb; [|done]. apply andb_true_iff in Eb as [Hl Hr].
  apply bool_decide_eq_true in Hr. zbool. intros [= <-].
  destruct (run_puts_entry ps max ttl op e E) as (ps1 & p & ps2 & -> & Hop & Hf & ->).
  exists ps1, p, ps2. rewrite Et in Hl. by split_and!.
Qed.

(** A retry after a lost reply gets it back: until the TTL has passed,
    and while fewer than [max] other replies were kept since, the same request
    for the same operation returns the reply that was put. *)
Theorem result_cache_complete max ttl ps1 p ps2 now :
  Forall (fun p' => p_op p' <> p_op p) ps2 ->
  Forall (fun p' => sat_sub (p_at p') (p_at p) < ttl) ps2 ->
  zlen ps2 < Z.max 1 max -> sat_sub now (p_at p) < ttl ->
  get_at (run_puts (ps1 ++ p :: ps2) (cache_with_capacity max ttl)) (p_op p) (p_req p) now
    = Some (p_resp p).
Proof.
  intros Hop Ht Hm Hnow.
  set (c1 := run_puts ps1 (cache_with_capacity max ttl)).
  assert (I1 : cache_inv c1) by apply run_puts_inv, empty_inv.
  destruct (run_puts_frame ps1 (cache_with_capacity max ttl)) as [Em1 Et1]. fold c1 in Em1, Et1.
  set (e := {| e_at := p_at p; e_request := p_req p; e_response := p_resp p |}).
  assert (Hk : kept (run_put c1 p) (p_op p) e 0).
  { unfold run_put. destruct (put_at_spec c1 (p_op p) (p_req p) (p_resp p) (p_at p) I1)
      as (pre & q & m & _ & _ & _ & _ & _ & _ & ->).
    unfold kept. cbn [c_inner set_contents contents c_map c_order].
    rewrite lookup_insert_eq. split; [done|]. by exists q, []. }
  destruct (run_puts_frame [p] c1) as [Em Et]. cbn [run_puts fold_left] in Em, Et.
  assert (Hfin : c_map (contents (c_inner (run_puts ps2 (run_put c1 p)))) !! p_op p = Some e).
  { destruct ps2 as [|p2 ps2]; [apply Hk|].
    pose proof (zlen_nonneg ps2). rewrite zlen_cons in Hm.
    apply (puts_kept (p2 :: ps2) (run_put c1 p) (p_op p) e 0);
      rewrite ?zlen_cons, ?Em, ?Et, ?Em1, ?Et1; try done; [by apply put_inv|]. cbn. lia. }
  unfold run_puts. rewrite fold_left_app. cbn [fold_left].
  change (fold_left run_put ps1 (cache_with_capacity max ttl)) with c1.
  change (fold_left run_put ps2 (run_put c1 p)) with (run_puts ps2 (run_put c1 p)).
  unfold get_at. rewrite Hfin. cbn [e e_at e_request e_response].
  destruct (run_puts_frame ps2 (run_put c1 p)) as [_ ->]. rewrite Et, Et1.
  cbn [c_ttl cache_with_capacity].
  rewrite (proj2 (Z.ltb_lt _ _)), bool_decide_eq_true_2; done.
Qed.

End Cache.

(** The first reply survives two others in a cache of three. *)
Definition sample_puts : list (put (EnclaveResponse := Z)) :=
  [{| p_op := [x02]; p_req := [x0b]; p_resp := 20; p_at := secs 1 |};
   {| p_op := [x03]; p_req := [x0c]; p_resp := 30; p_at := secs 2 |}].

Definition sample_put : put (EnclaveResponse := Z) :=
  {| p_op := [x01]; p_req := [x0a]; p_resp := 10; p_at := 0 |}.

Lemma result_cache_complete_witness :
  get_at (run_puts (sample_put :: sample_puts) (cache_with_capacity 3 (secs 60))) [x01] [x0a] (secs 59)
    = Some 10.
Proof.
  apply (result_cache_complete 3 (secs 60) [] sample_put sample_puts (secs 59));
    [by repeat constructor|by repeat constructor|by vm_compute|by vm_compute].
Defined.

Lemma result_cache_sound_witness :
  exists ps1 p ps2, sample_put :: sample_puts = ps1 ++ p :: ps2 /\ p_req p = [x0a].
Proof.
  destruct (result_cache_sound 3 (secs 60) (sample_put :: sample_puts) [x01] [x0a] (secs 59) 10)
    as [_ H].
  destruct H as (ps1 & p & ps2 & E & _ & _ & Hr & _); [by vm_compute|]. by exists ps1, p, ps2.
Defined.
