(* ===== verification/RefillRate.v ===== *)
(** * The refill rate limit (src/enclave/src/state/refill_rate.rs)

    [RefillRateLimit::refill_admit]: at most twelve rights refills in any sliding
    hour. *)

From stdpp Require Import strings sorting base numbers list.
From S2P Require Import Prelude Errors.

#[local] Open Scope list_scope.
#[local] Open Scope Z_scope.

Definition MAX_REFILLS_PER_HOUR : Z := 12.
Definition WINDOW : Z := secs (60 * 60).

Record RefillRateLimit : Type := { admitted : mutex (list Z) }.

Definition default_refill : RefillRateLimit := {| admitted := new_mutex [] |}.

(** The [pop_front] loop. *)
Fixpoint pop_expired (now : Z) (q : list Z) : list Z :=
  match q with
  | t :: q' => if WINDOW <=? sat_sub now t then pop_expired now q' else q
  | [] => []
  end.

Definition refill_admit (r : RefillRateLimit) (now : Z) : RefillRateLimit * enclave_result unit :=
  if poisoned (admitted r) then (r, Err (Internal "refill rate limit poisoned"))
  else
    let q := pop_expired now (contents (admitted r)) in
    if MAX_REFILLS_PER_HOUR <=? zlen q then
      ({| admitted := set_contents (admitted r) q |},
       Err (CrossCheck "rights refill rate limit: retry later"))
    else ({| admitted := set_contents (admitted r) (q ++ [now]) |}, Ok tt).

(** ** Histories *)

(** The limiter and the times it admitted, oldest first, after the calls. *)
Definition refill_call (st : RefillRateLimit * list Z) (now : Z) : RefillRateLimit * list Z :=
  let '(r, log) := st in
  let '(r', res) := refill_admit r now in
  (r', match res with Ok _ => log ++ [now] | _ => log end).

Definition refill_run (calls : list Z) : RefillRateLimit * list Z :=
  fold_left refill_call calls (default_refill, []).

(** Admissions in [lo, hi). *)
Definition count_in (lo hi : Z) (log : list Z) : Z :=
  zlen (filter (fun t => lo <= t < hi) log).

(** The queue is the part of the log that has not expired at [now]. *)
Record refill_inv (now : Z) (r : RefillRateLimit) (log : list Z) : Prop := {
  ri_poison : poisoned (admitted r) = false;
  ri_split : exists old, log = old ++ contents (admitted r) /\
               Forall (fun t => WINDOW <= now - t) old;
  ri_times : Sorted Z.le log /\ Forall (fun t => t <= now) log
}.

Lemma pop_expired_spec now q :
  exists pre, q = pre ++ pop_expired now q /\ Forall (fun t => WINDOW <= sat_sub now t) pre /\
    (forall t, head (pop_expired now q) = Some t -> sat_sub now t < WINDOW).
Proof.
  induction q as [|t q (pre & E & Hf & Hh)]; [by exists []|]. cbn [pop_expired].
  destruct (WINDOW <=? sat_sub now t) eqn:Et; zbool.
  - exists (t :: pre). cbn. rewrite <- E. split_and!; try done. by constructor.
  - exists []. split_and!; try done. by intros ? [= <-].
Qed.

Lemma count_in_app lo hi l k : count_in lo hi (l ++ k) = count_in lo hi l + count_in lo hi k.
Proof. unfold count_in. by rewrite filter_app, zlen_app. Qed.

Lemma count_in_out lo hi l : Forall (fun t => ~ (lo <= t < hi)) l -> count_in lo hi l = 0.
Proof.
  unfold count_in. induction 1 as [|t l Ht Hl IH]; [done|]. by rewrite filter_cons_False.
Qed.

Lemma count_in_in lo hi l : Forall (fun t => lo <= t < hi) l -> count_in lo hi l = zlen l.
Proof.
  unfold count_in. induction 1 as [|t l Ht Hl IH]; [done|].
  rewrite filter_cons_True, !zlen_cons by done. lia.
Qed.

Lemma count_in_le lo hi l : count_in lo hi l <= zlen l.
Proof. unfold count_in, zlen. pose proof (length_filter (fun t => lo <= t < hi) l). lia. Qed.

Lemma sorted_suffix_ge (l k : list Z) t :
  Sorted Z.le (l ++ k) -> head k = Some t -> Forall (fun x => t <= x) k.
Proof.
  intros Hs Hh. apply Sorted_StronglySorted in Hs; [|intros x y z; lia].
  assert (Hk : StronglySorted Z.le k).
  { clear Hh. induction l as [|x l IH]; [done|]. apply IH. by apply StronglySorted_inv in Hs as [? _]. }
  destruct k as [|x k]; [done|]. injection Hh as ->. apply StronglySorted_inv in Hk as [_ Hk].
  constructor; [lia|]. eapply Forall_impl; [exact Hk|]. done.
Qed.

Lemma sorted_snoc (l : list Z) x : Sorted Z.le l -> Forall (fun t => t <= x) l -> Sorted Z.le (l ++ [x]).
Proof.
  induction 1 as [|y l Hs IH Hh]; intros Hf; [by repeat constructor|].
  apply Forall_cons in Hf as [Hy Hf]. cbn. constructor; [by apply IH|].
  destruct l as [|z l]; cbn; constructor; [done|]. by apply HdRel_inv in Hh.
Qed.

(** One call: the queue after the eviction is what the last hour admitted. *)
Lemma admit_step now r log now' :
  refill_inv now r log -> now <= now' ->
  let '(r', log') := refill_call (r, log) now' in
  refill_inv now' r' log' /\
  (if count_in (now' - WINDOW + 1) (now' + 1) log <? MAX_REFILLS_PER_HOUR
   then snd (refill_admit r now') = Ok tt /\ log' = log ++ [now']
   else snd (refill_admit r now') = Err (CrossCheck "rights refill rate limit: retry later") /\ log' = log).
Proof.
  intros [Hp (old & El & Ho) [Hs Ht]] Hnow. unfold refill_call, refill_admit. rewrite Hp.
  destruct (pop_expired_spec now' (contents (admitted r))) as (pre & Eq & Hpre & Hh).
  set (q := pop_expired now' (contents (admitted r))) in *.
  assert (Hw : 0 < WINDOW) by (unfold WINDOW, secs; lia).
  assert (El' : log = (old ++ pre) ++ q) by (rewrite El, Eq at 1; by rewrite app_assoc).
  assert (Hold : Forall (fun t => WINDOW <= now' - t) (old ++ pre)).
  { apply Forall_app. split.
    - eapply Forall_impl; [exact Ho|]. cbn. lia.
    - eapply Forall_impl; [exact Hpre|]. unfold sat_sub. cbn. lia. }
  assert (Htq : Forall (fun t => t <= now') log) by (eapply Forall_impl; [exact Ht|]; cbn; lia).
  assert (Hq : Forall (fun t => now' - WINDOW + 1 <= t < now' + 1) q).
  { destruct q as [|t q0] eqn:E; [constructor|]. rewrite El' in Hs, Htq.
    apply Forall_app in Htq as [_ Htq].
    pose proof (sorted_suffix_ge _ _ t Hs eq_refl) as Hge.
    specialize (Hh t eq_refl). rewrite Forall_forall in *. intros x Hx.
    specialize (Hge x Hx). specialize (Htq x Hx). unfold sat_sub in Hh. lia. }
  assert (Hc : count_in (now' - WINDOW + 1) (now' + 1) log = zlen q).
  { rewrite El', count_in_app, (count_in_in _ _ q) by done.
    rewrite (count_in_out _ _ (old ++ pre)); [done|].
    eapply Forall_impl; [exact Hold|]. cbn. lia. }
  rewrite Hc. rewrite Z.ltb_antisym. destruct (MAX_REFILLS_PER_HOUR <=? zlen q) eqn:E; cbn [negb snd].
  - split; [|done]. constructor; cbn; [done|by exists (old ++ pre)|done].
  - split; [|done]. constructor; cbn; [done| |].
    + exists (old ++ pre). split; [|done]. by rewrite El', app_assoc.
    + split; [by apply sorted_snoc|]. apply Forall_app. split; [done|]. by repeat constructor.
Qed.

Lemma refill_run_snoc calls now : refill_run (calls ++ [now]) = refill_call (refill_run calls) now.
Proof. unfold refill_run. by rewrite fold_left_app. Qed.

Lemma sorted_prefix (l : list Z) x : Sorted Z.le (l ++ [x]) -> Sorted Z.le l /\ Forall (fun t => t <= x) l.
Proof.
  intros H. apply Sorted_StronglySorted in H; [|intros a b c; lia].
  induction l as [|y l IH]; [split; constructor|]. apply StronglySorted_inv in H as [H Hf].
  destruct (IH H) as [Hs Hl]. apply Forall_app in Hf as [Hf Hx]. apply Forall_cons in Hx as [Hx _].
  split; [|by constructor]. constructor; [done|]. destruct l; constructor.
  by apply Forall_cons in Hf as [? _].
Qed.

Lemma refill_run_inv calls lim :
  Sorted Z.le calls -> Forall (fun t => t <= lim) calls ->
  refill_inv lim (refill_run calls).1 (refill_run calls).2 /\
  forall lo, count_in lo (lo + WINDOW) (refill_run calls).2 <= MAX_REFILLS_PER_HOUR.
Proof.
  revert lim. induction calls as [|now calls IH] using rev_ind; intros lim Hs Hf.
  { split; [|done]. constructor; [done|by exists []|by repeat constructor]. }
  apply sorted_prefix in Hs as [Hs Hl]. destruct (IH now Hs Hl) as [I Hc].
  apply Forall_app in Hf as [Hf Hn]. apply Forall_cons in Hn as [Hn _].
  rewrite refill_run_snoc. destruct (refill_run calls) as [r log]. cbn [fst snd] in *.
  pose proof (admit_step now r log now I ltac:(lia)) as Hstep.
  destruct (refill_call (r, log) now) as [r' log'] eqn:Ec. destruct Hstep as [I' Hr]. cbn [fst snd].
  split.
  - destruct I' as [Hp (old & El & Ho) [Hs' Ht]]. constructor; [done| |].
    + exists old. split; [done|]. eapply Forall_impl; [exact Ho|]. cbn. lia.
    + split; [done|]. eapply Forall_impl; [exact Ht|]. cbn. lia.
  - intros lo. destruct (_ <? _) eqn:Elt; zbool; destruct Hr as [_ ->]; [|apply Hc].
    rewrite count_in_app. destruct (decide (lo <= now < lo + WINDOW)) as [Hin|Hout].
    + rewrite (count_in_in _ _ [now]) by (constructor; [done|constructor]). change (zlen [now]) with 1.
      enough (count_in lo (lo + WINDOW) log <= count_in (now - WINDOW + 1) (now + 1) log) by lia.
      unfold count_in, zlen. apply Nat2Z.inj_le, sublist_length.
      destruct I as [_ _ [_ Ht]]. clear -Ht Hin. induction Ht as [|t l Ht Hl IH]; [constructor|].
      destruct (decide (lo <= t < lo + WINDOW)).
      * rewrite !filter_cons_True by lia. by apply sublist_skip.
      * rewrite (filter_cons_False _ _ l) by done.
        destruct (decide (now - WINDOW + 1 <= t < now + 1)).
        -- rewrite filter_cons_True by done. by apply sublist_cons.
        -- by rewrite filter_cons_False.
    + rewrite (count_in_out _ _ [now]) by (constructor; [done|constructor]). specialize (Hc lo). lia.
Qed.

(** With a clock that does not go back, a refill is admitted exactly when
    fewer than [MAX_REFILLS_PER_HOUR] were admitted in the hour up to it,
    refused requests not counted; so no sliding hour, wherever it starts, holds
    more than [MAX_REFILLS_PER_HOUR] admissions. *)
Theorem refill_rate_exact calls now :
  Sorted Z.le (calls ++ [now]) ->
  let '(r, log) := refill_run calls in
  (snd (refill_admit r now) = Ok tt <->
   count_in (now - WINDOW + 1) (now + 1) log < MAX_REFILLS_PER_HOUR) /\
  forall lo, count_in lo (lo + WINDOW) (refill_run (calls ++ [now])).2 <= MAX_REFILLS_PER_HOUR.
Proof.
  intros Hs. pose proof (sorted_prefix _ _ Hs) as [Hs' Hl].
  destruct (refill_run_inv calls now Hs' Hl) as [I _].
  destruct (refill_run_inv (calls ++ [now]) now Hs) as [_ Hc].
  { apply Forall_app. split; [done|]. by repeat constructor. }
  destruct (refill_run calls) as [r log]. cbn [fst snd] in I. split; [|done].
  pose proof (admit_step now r log now I ltac:(lia)) as Hstep.
  destruct (refill_call (r, log) now). destruct Hstep as [_ Hr].
  destruct (_ <? _) eqn:E; zbool; destruct Hr as [-> _]; split; (done || lia).
Qed.

Definition sample_calls : list Z := map secs [0; 1; 2; 3; 4; 5; 6; 7; 8; 9; 10; 11; 12; 3599].

Lemma refill_rate_exact_witness :
  snd (refill_admit (refill_run sample_calls).1 (secs 3600)) = Ok tt.
Proof.
  pose proof (refill_rate_exact sample_calls (secs 3600)) as H.
  destruct (refill_run sample_calls) as [r log] eqn:E. cbn [fst].
  apply H.
  - repeat first [apply Sorted_cons | apply Sorted_nil | apply HdRel_nil
                 | apply HdRel_cons; unfold secs; lia].
  - assert (log = (refill_run sample_calls).2) as -> by by rewrite E. vm_compute. reflexivity.
Defined.
