(* ===== verification/EnclaveState.v ===== *)
(** * The phase state machine (src/enclave/src/state/enclave.rs,
      state/cloning_session.rs, cloning.rs)

    [EnclaveState]: the lifecycle phase behind its mutex, the donor cloning
    secret, and the seed-export quota.  Every method is one atomic step, except
    seed recovery, which gives up the phase lock while it waits for KMS and is
    therefore two steps; concurrent callers are interleavings of these steps.
    Key derivation is the interface [Keys]. *)

From stdpp Require Import strings sorting base gmap numbers list.
From S2P Require Import Prelude Errors ReplayGuard ResultCache RefillRate.

#[local] Open Scope list_scope.
#[local] Open Scope Z_scope.

(** What the state machine uses of [KeyManager] and of the X25519 session. *)
Class Keys : Type := {
  KeyManager : Type;
  Mnemonic : Type;
  CloneSession : Type;
  BtcNetwork : Type;
  EnclaveResponse : Type;
  generate : bytes -> BtcNetwork -> enclave_result (KeyManager * Mnemonic);
  from_mnemonic : string -> BtcNetwork -> enclave_result KeyManager;
  from_seed : bytes -> BtcNetwork -> enclave_result KeyManager;
  expose_seed : KeyManager -> bytes;
  km_evm_address : KeyManager -> bytes
}.

(** ** Cloning secrets and sessions *)

Definition MIN_CLONING_SECRET_BYTES : Z := 32.
Definition MIN_CLONING_SECRET_DISTINCT_BYTES : Z := 8.

(** The loop over the [seen] table. *)
Definition count_distinct (bs : bytes) : Z :=
  snd (fold_left (fun '(seen, distinct) b =>
                    if bool_decide (b ∈ (seen : list byte)) then (seen, distinct)
                    else (b :: seen, distinct + 1)) bs ([], 0)).

Definition validate_cloning_secret (secret : bytes) : enclave_result unit :=
  if zlen secret =? 0 then Err (InvalidRequest "cloning_secret is required")
  else if zlen secret <? MIN_CLONING_SECRET_BYTES then
    Err (InvalidRequest "cloning_secret too short")
  else if count_distinct secret <? MIN_CLONING_SECRET_DISTINCT_BYTES then
    Err (InvalidRequest "cloning_secret too low-entropy")
  else Ok tt.

Definition CLONING_SESSION_TTL : Z := secs (5 * 60).
Definition RECOVERY_TIMEOUT : Z := secs 25.

Section State.
Context {K : Keys}.

Record CloningSession : Type := {
  cs_session : CloneSession;
  cs_cluster_public_key : bytes;
  cs_donor_cloning_secret : bytes;
  cs_created_at : Z
}.

(** [CloningSession::new_at]. *)
Definition new_session_at (session : CloneSession) (cluster_public_key : bytes)
    (donor_cloning_secret : bytes) (created_at : Z) : enclave_result CloningSession :=
  let? _ := validate_cloning_secret donor_cloning_secret in
  Ok {| cs_session := session;
        cs_cluster_public_key := cluster_public_key;
        cs_donor_cloning_secret := donor_cloning_secret;
        cs_created_at := created_at |}.

Definition is_expired (s : CloningSession) (now : Z) : bool :=
  CLONING_SESSION_TTL <=? sat_sub now (cs_created_at s).

(** ** The state *)

Inductive Phase : Type :=
| Initial
| Initializing
| Cloning (session : CloningSession)
| Active (keys : KeyManager).

Definition phase_str (p : Phase) : string :=
  match p with
  | Initial => "initial"
  | Initializing => "initializing"
  | Cloning _ => "cloning"
  | Active _ => "active"
  end.

(** [SeedSource::load_keys], as the value it gives for a network and deadline. *)
Definition SeedSource : Type := BtcNetwork -> Z -> enclave_result KeyManager.

Record EnclaveState : Type := {
  inner : mutex Phase;
  network : BtcNetwork;
  seed_source : option SeedSource;
  donor_cloning_secret : mutex (option bytes);
  replay_guard : NonceReplayGuard;
  op_replay_guard : NonceReplayGuard;
  signed_results : SignedResultCache (EnclaveResponse := EnclaveResponse);
  refill_rate : RefillRateLimit;
  seed_export_count : Z;
  seed_export_slots : Z;
  seed_export_soft_cap : Z;
  seed_export_hard_cap : Z
}.

(** [EnclaveState::new], with the two caps as parsed from the environment. *)
Definition new_state (n : BtcNetwork) (soft_cap hard_cap : Z) : EnclaveState := {|
  inner := new_mutex Initial;
  network := n;
  seed_source := None;
  donor_cloning_secret := new_mutex None;
  replay_guard := default_guard;
  op_replay_guard := with_capacity DEFAULT_OP_DEDUP_MAX DEFAULT_OP_DEDUP_TTL;
  signed_results := default_cache;
  refill_rate := default_refill;
  seed_export_count := 0;
  seed_export_slots := 0;
  seed_export_soft_cap := soft_cap;
  seed_export_hard_cap := hard_cap
|}.

(** Field updates. *)
Definition set_inner (s : EnclaveState) (m : mutex Phase) : EnclaveState := {|
  inner := m; network := network s; seed_source := seed_source s;
  donor_cloning_secret := donor_cloning_secret s;
  replay_guard := replay_guard s; op_replay_guard := op_replay_guard s;
  signed_results := signed_results s; refill_rate := refill_rate s;
  seed_export_count := seed_export_count s; seed_export_slots := seed_export_slots s;
  seed_export_soft_cap := seed_export_soft_cap s;
  seed_export_hard_cap := seed_export_hard_cap s |}.

Definition set_phase (s : EnclaveState) (p : Phase) : EnclaveState :=
  set_inner s (set_contents (inner s) p).

Definition set_secret (s : EnclaveState) (m : mutex (option bytes)) : EnclaveState := {|
  inner := inner s; network := network s; seed_source := seed_source s;
  donor_cloning_secret := m;
  replay_guard := replay_guard s; op_replay_guard := op_replay_guard s;
  signed_results := signed_results s; refill_rate := refill_rate s;
  seed_export_count := seed_export_count s; seed_export_slots := seed_export_slots s;
  seed_export_soft_cap := seed_export_soft_cap s;
  seed_export_hard_cap := seed_export_hard_cap s |}.

Definition set_source (s : EnclaveState) (o : option SeedSource) : EnclaveState := {|
  inner := inner s; network := network s; seed_source := o;
  donor_cloning_secret := donor_cloning_secret s;
  replay_guard := replay_guard s; op_replay_guard := op_replay_guard s;
  signed_results := signed_results s; refill_rate := refill_rate s;
  seed_export_count := seed_export_count s; seed_export_slots := seed_export_slots s;
  seed_export_soft_cap := seed_export_soft_cap s;
  seed_export_hard_cap := seed_export_hard_cap s |}.

Definition set_exports (s : EnclaveState) (count slots : Z) : EnclaveState := {|
  inner := inner s; network := network s; seed_source := seed_source s;
  donor_cloning_secret := donor_cloning_secret s;
  replay_guard := replay_guard s; op_replay_guard := op_replay_guard s;
  signed_results := signed_results s; refill_rate := refill_rate s;
  seed_export_count := count; seed_export_slots := slots;
  seed_export_soft_cap := seed_export_soft_cap s;
  seed_export_hard_cap := seed_export_hard_cap s |}.

(** ** Locks and the phase *)

Definition lock_phase (s : EnclaveState) : enclave_result Phase :=
  if poisoned (inner s) then Err (Internal "lock poisoned") else Ok (contents (inner s)).

Definition ensure_initial (p : Phase) : enclave_result unit :=
  match p with
  | Initial => Ok tt
  | Initializing => Err (NotReady "initializing")
  | _ => Err AlreadyInitialized
  end.

(** Run a fallible body that may give a new phase; an error keeps the state. *)
Definition commit_phase {A : Type} (s : EnclaveState) (r : enclave_result (Phase * A))
    : EnclaveState * enclave_result A :=
  match r with
  | Ok (p, a) => (set_phase s p, Ok a)
  | Err e => (s, Err e)
  | Panic => (s, Panic)
  end.

Definition initialize_from_entropy (s : EnclaveState) (entropy : bytes)
    : EnclaveState * enclave_result Mnemonic :=
  commit_phase s
    (let? guard := lock_phase s in
     let? _ := ensure_initial guard in
     let? (manager, mnemonic) := generate entropy (network s) in
     Ok (Active manager, mnemonic)).

Definition initialize_from_mnemonic (s : EnclaveState) (mnemonic_str : string)
    : EnclaveState * enclave_result unit :=
  commit_phase s
    (let? guard := lock_phase s in
     let? _ := ensure_initial guard in
     let? manager := from_mnemonic mnemonic_str (network s) in
     Ok (Active manager, tt)).

Definition initialize_from_seed (s : EnclaveState) (seed : bytes)
    : EnclaveState * enclave_result unit :=
  commit_phase s
    (let? guard := lock_phase s in
     let? _ := ensure_initial guard in
     let? manager := from_seed seed (network s) in
     Ok (Active manager, tt)).

Definition enter_cloning_at (s : EnclaveState) (session : CloningSession) (now : Z)
    : EnclaveState * enclave_result unit :=
  commit_phase s
    (let? guard := lock_phase s in
     let? _ :=
       match guard with
       | Initial => Ok tt
       | Cloning existing => if is_expired existing now then Ok tt else Err AlreadyInitialized
       | _ => Err AlreadyInitialized
       end in
     Ok (Cloning session, tt)).

(** [complete_cloning]: both locks are taken before either value changes. *)
Definition complete_cloning (s : EnclaveState) (f : CloningSession -> enclave_result KeyManager)
    : EnclaveState * enclave_result unit :=
  let body :=
    let? guard := lock_phase s in
    let? session :=
      match guard with
      | Cloning session => Ok session
      | other => Err (NotReady (phase_str other))
      end in
    let? manager := f session in
    if poisoned (donor_cloning_secret s) then Err (Internal "lock poisoned")
    else Ok (session, manager) in
  match body with
  | Ok (session, manager) =>
      let s := set_secret s (set_contents (donor_cloning_secret s)
                               (Some (cs_donor_cloning_secret session))) in
      (set_phase s (Active manager), Ok tt)
  | Err e => (s, Err e)
  | Panic => (s, Panic)
  end.

(** [remaining_until(deadline)?]; the error is an [io::Error]. *)
Definition remaining_until (deadline now : Z) : enclave_result Z :=
  let remaining := sat_sub deadline now in
  if remaining =? 0 then Err Io else Ok remaining.

(** [initialize_from_persistence_until] up to the release of the lock: the
    reservation, with the source and the deadline for [load_keys]. *)
Definition begin_recovery (s : EnclaveState) (deadline now : Z)
    : EnclaveState * enclave_result (SeedSource * Z) :=
  let deadline := Z.min deadline (now + RECOVERY_TIMEOUT) in
  commit_phase s
    (let? _ := remaining_until deadline now in
     let? source := ok_or (seed_source s)
       (InvalidRequest "KMS persistence requires a configured seed source") in
     let? guard := lock_phase s in
     let? _ := ensure_initial guard in
     Ok (Initializing, (source, deadline))).

(** [SeedInitialization::drop]: recovers a poisoned lock. *)
Definition drop_initialization (s : EnclaveState) : EnclaveState :=
  match contents (inner s) with
  | Initializing => set_phase s Initial
  | _ => s
  end.

(** The rest of [initialize_from_persistence_until], once [load_keys] has
    returned, with the drop of the reservation. *)
Definition finish_recovery (s : EnclaveState) (loaded : enclave_result KeyManager)
    (deadline now : Z) : EnclaveState * enclave_result unit :=
  let '(s, r) :=
    commit_phase s
      (let? manager := loaded in
       let? guard := lock_phase s in
       let? _ := remaining_until deadline now in
       match guard with
       | Initializing => Ok (Active manager, tt)
       | other => Err (NotReady (phase_str other))
       end) in
  (drop_initialization s, r).

(** ** Secrets and reads *)

Definition set_donor_cloning_secret (s : EnclaveState) (secret : bytes)
    : EnclaveState * enclave_result unit :=
  match
    let? _ := validate_cloning_secret secret in
    if poisoned (donor_cloning_secret s) then Err (Internal "lock poisoned") else Ok tt
  with
  | Ok _ => (set_secret s (set_contents (donor_cloning_secret s) (Some secret)), Ok tt)
  | Err e => (s, Err e)
  | Panic => (s, Panic)
  end.

Definition set_seed_source (s : EnclaveState) (source : SeedSource)
    : EnclaveState * enclave_result unit :=
  match seed_source s with
  | Some _ => (s, Err (Internal "the seed source is already set"))
  | None => (set_source s (Some source), Ok tt)
  end.

Definition with_donor_cloning_secret {T : Type} (s : EnclaveState)
    (f : bytes -> enclave_result T) : enclave_result T :=
  if poisoned (donor_cloning_secret s) then Err (Internal "lock poisoned")
  else
    match contents (donor_cloning_secret s) with
    | Some secret => f secret
    | None => Err (NotReady "donor cloning secret not configured")
    end.

Definition with_cloning_session {T : Type} (s : EnclaveState)
    (f : CloningSession -> enclave_result T) : enclave_result T :=
  let? guard := lock_phase s in
  match guard with
  | Cloning session => f session
  | other => Err (NotReady (phase_str other))
  end.

Definition with_active {T : Type} (s : EnclaveState) (f : KeyManager -> enclave_result T)
    : enclave_result T :=
  let? guard := lock_phase s in
  match guard with
  | Active km => f km
  | _ => Err KeyNotInitialized
  end.

Definition with_seed {T : Type} (s : EnclaveState) (f : bytes -> enclave_result T)
    : enclave_result T :=
  with_active s (fun km => f (expose_seed km)).

Definition evm_address (s : EnclaveState) : enclave_result bytes :=
  with_active s (fun km => Ok (km_evm_address km)).

Definition phase_name (s : EnclaveState) : string :=
  if poisoned (inner s) then "poisoned" else phase_str (contents (inner s)).

Definition is_initialized (s : EnclaveState) : bool :=
  match lock_phase s with
  | Ok (Active _) => true
  | _ => false
  end.

(** ** The export quota *)

Record ExportQuotaReservation : Type := { reserved : bool }.

(** [reserve_export_quota]; [fetch_update] is one atomic step. *)
Definition reserve_export_quota (s : EnclaveState)
    : EnclaveState * enclave_result ExportQuotaReservation :=
  let cap := seed_export_hard_cap s in
  if 0 <? cap then
    let used := seed_export_slots s in
    if used <? cap then
      (set_exports s (seed_export_count s) (wrap64 (used + 1)), Ok {| reserved := true |})
    else (s, Err (ExportCapReached used cap))
  else (s, Ok {| reserved := false |}).

Definition record_seed_export (s : EnclaveState) : EnclaveState * Z :=
  let count := wrap64 (seed_export_count s + 1) in
  (set_exports s count (seed_export_slots s), count).

(** [ExportQuotaReservation::drop]. *)
Definition drop_quota (s : EnclaveState) (r : ExportQuotaReservation) : EnclaveState :=
  if reserved r then set_exports s (seed_export_count s) (wrap64 (seed_export_slots s - 1))
  else s.

(** [ExportQuotaReservation::commit], with the drop at its end. *)
Definition commit_quota (s : EnclaveState) (r : ExportQuotaReservation) : EnclaveState * Z :=
  let '(s, count) := record_seed_export s in
  (drop_quota s {| reserved := false |}, count).

End State.
