(* ===== verification/EnclaveStateProps.v ===== *)
(** * Theorems on the phase state machine

    The interleavings of the methods of [EnclaveState], as a step relation, and
    the invariants of every reachable state. *)

From stdpp Require Import strings sorting base gmap numbers list.
From S2P Require Import Prelude Errors ReplayGuard ResultCache RefillRate EnclaveState.

#[local] Open Scope list_scope.
#[local] Open Scope Z_scope.

Section Props.
Context {K : Keys}.

(** The shared state, the seed recoveries that are waiting for KMS (their
    source and deadline), the export reservations in flight, and the monotonic
    clock that [Instant::now] reads. *)
Record system : Type := {
  sys_state : EnclaveState;
  sys_recoveries : list (SeedSource * Z);
  sys_exports : list ExportQuotaReservation;
  sys_now : Z
}.

Definition with_state (y : system) (s : EnclaveState) : system :=
  {| sys_state := s; sys_recoveries := sys_recoveries y; sys_exports := sys_exports y;
     sys_now := sys_now y |}.

Definition at_time (y : system) (now : Z) : system :=
  {| sys_state := sys_state y; sys_recoveries := sys_recoveries y; sys_exports := sys_exports y;
     sys_now := now |}.

(** One atomic step of some caller, or the passing of time.  A caller reads the
    clock before it takes the lock, so the time it uses may be behind the clock,
    never ahead of it.  A panic while a lock is held poisons it; [load_keys] may
    return anything. *)
Inductive step (y : system) : system -> Prop :=
| st_entropy entropy :
    step y (with_state y (initialize_from_entropy (sys_state y) entropy).1)
| st_mnemonic m :
    step y (with_state y (initialize_from_mnemonic (sys_state y) m).1)
| st_seed seed :
    step y (with_state y (initialize_from_seed (sys_state y) seed).1)
| st_enter_cloning x pk secret created session now (Hcreated : created <= now)
    (Hnow : now <= sys_now y) :
    new_session_at x pk secret created = Ok session ->
    step y (with_state y (enter_cloning_at (sys_state y) session now).1)
| st_complete_cloning f :
    step y (with_state y (complete_cloning (sys_state y) f).1)
| st_begin deadline now source deadline' s' (Hnow : now <= sys_now y) :
    begin_recovery (sys_state y) deadline now = (s', Ok (source, deadline')) ->
    step y {| sys_state := s'; sys_recoveries := (source, deadline') :: sys_recoveries y;
              sys_exports := sys_exports y; sys_now := sys_now y |}
| st_begin_refused deadline now s' e (Hnow : now <= sys_now y) :
    begin_recovery (sys_state y) deadline now = (s', Err e) -> step y (with_state y s')
| st_finish pre source deadline post loaded now (Hnow : now <= sys_now y) :
    sys_recoveries y = pre ++ (source, deadline) :: post ->
    step y {| sys_state := (finish_recovery (sys_state y) loaded deadline now).1;
              sys_recoveries := pre ++ post; sys_exports := sys_exports y;
              sys_now := sys_now y |}
| st_secret secret :
    step y (with_state y (set_donor_cloning_secret (sys_state y) secret).1)
| st_source source :
    step y (with_state y (set_seed_source (sys_state y) source).1)
| st_reserve s' r :
    reserve_export_quota (sys_state y) = (s', Ok r) ->
    step y {| sys_state := s'; sys_recoveries := sys_recoveries y;
              sys_exports := r :: sys_exports y; sys_now := sys_now y |}
| st_commit_export pre r post :
    sys_exports y = pre ++ r :: post ->
    step y {| sys_state := (commit_quota (sys_state y) r).1;
              sys_recoveries := sys_recoveries y; sys_exports := pre ++ post;
              sys_now := sys_now y |}
| st_drop_export pre r post :
    sys_exports y = pre ++ r :: post ->
    step y {| sys_state := drop_quota (sys_state y) r;
              sys_recoveries := sys_recoveries y; sys_exports := pre ++ post;
              sys_now := sys_now y |}
| st_poison_phase :
    step y (with_state y (set_inner (sys_state y) (Mutex true (contents (inner (sys_state y))))))
| st_poison_secret :
    step y (with_state y (set_secret (sys_state y)
              (Mutex true (contents (donor_cloning_secret (sys_state y))))))
| st_tick now :
    sys_now y <= now -> step y (at_time y now).

Definition start (n : BtcNetwork) (soft hard : Z) : system :=
  {| sys_state := new_state n soft hard; sys_recoveries := []; sys_exports := [];
     sys_now := 0 |}.

Definition phase (y : system) : Phase := contents (inner (sys_state y)).

(** The transitions the documentation of [Phase] lists, at a time [now] of the
    enclave's clock: a pending session gives way to another one only when its
    whole time to live has passed. *)
Inductive transition (now : Z) : Phase -> Phase -> Prop :=
| tr_stay p : transition now p p
| tr_local km : transition now Initial (Active km)
| tr_reserve : transition now Initial Initializing
| tr_recovered km : transition now Initializing (Active km)
| tr_recovery_failed : transition now Initializing Initial
| tr_clone session : transition now Initial (Cloning session)
| tr_reclone old session :
    CLONING_SESSION_TTL <= now - cs_created_at old -> transition now (Cloning old) (Cloning session)
| tr_cloned session km : transition now (Cloning session) (Active km).

(** ** The phase after each method *)

Lemma set_phase_contents s p : contents (inner (set_phase s p)) = p.
Proof. done. Qed.

Lemma commit_phase_cases {A} s (r : enclave_result (Phase * A)) :
  (exists p a, r = Ok (p, a) /\ commit_phase s r = (set_phase s p, Ok a)) \/
  (commit_phase s r).1 = s /\ forall a, (commit_phase s r).2 <> Ok a.
Proof. destruct r as [[p a]| |]; [left; eauto|right; done|right; done]. Qed.

Lemma lock_phase_ok s p : lock_phase s = Ok p -> p = contents (inner s).
Proof. unfold lock_phase. destruct (poisoned _); congruence. Qed.

Lemma ensure_initial_ok p u : ensure_initial p = Ok u -> p = Initial.
Proof. by destruct p. Qed.

(** The fields a step of the phase machine keeps. *)
Definition same_exports (s s' : EnclaveState) : Prop :=
  seed_export_count s' = seed_export_count s /\ seed_export_slots s' = seed_export_slots s /\
  seed_export_hard_cap s' = seed_export_hard_cap s.

(** [initialize_from_*] and [enter_cloning_at] and [begin_recovery]: from the
    phase the body requires to the phase it gives, or nothing. *)
Lemma commit_phase_transition {A} now s (r : enclave_result (Phase * A)) :
  (forall p a, r = Ok (p, a) -> transition now (contents (inner s)) p) ->
  transition now (contents (inner s)) (contents (inner (commit_phase s r).1)) /\
  same_exports s (commit_phase s r).1 /\
  donor_cloning_secret (commit_phase s r).1 = donor_cloning_secret s.
Proof.
  intros H. destruct (commit_phase_cases s r) as [(p & a & E & ->)|[-> _]].
  - by split; [apply (H p a)|].
  - split; [apply tr_stay|done].
Qed.

Lemma locked_initial {A} s (k : enclave_result A) a :
  (let? guard := lock_phase s in let? _ := ensure_initial guard in k) = Ok a ->
  contents (inner s) = Initial /\ k = Ok a.
Proof.
  intros H. apply rbind_ok in H as (p & Hp & H). apply rbind_ok in H as (u & Hu & H).
  apply lock_phase_ok in Hp. apply ensure_initial_ok in Hu. by subst.
Qed.

Lemma is_expired_ttl s now : is_expired s now = true -> CLONING_SESSION_TTL <= now - cs_created_at s.
Proof.
  unfold is_expired, sat_sub, CLONING_SESSION_TTL, secs. intros H. apply Z.leb_le in H. lia.
Qed.

Lemma enter_cloning_from s session now clock p a :
  now <= clock ->
  (let? guard := lock_phase s in
   let? _ :=
     match guard with
     | Initial => Ok tt
     | Cloning existing => if is_expired existing now then Ok tt else Err AlreadyInitialized
     | _ => Err AlreadyInitialized
     end in
   Ok (Cloning session, tt)) = Ok (p, a) ->
  transition clock (contents (inner s)) p /\ p = Cloning session.
Proof.
  intros Hn H. apply rbind_ok in H as (g & Hg & H). apply lock_phase_ok in Hg. subst g.
  apply rbind_ok in H as (u & Hu & H). injection H as <- <-.
  destruct (contents (inner s)) as [| |old|km]; try done; [split; [constructor|done]|].
  destruct (is_expired old now) eqn:E; [|done]. apply is_expired_ttl in E.
  split; [apply tr_reclone; lia|done].
Qed.

Lemma complete_cloning_cases s f :
  (exists session km, contents (inner s) = Cloning session /\ f session = Ok km /\
     poisoned (inner s) = false /\
     complete_cloning s f =
       (set_phase (set_secret s (set_contents (donor_cloning_secret s)
                                   (Some (cs_donor_cloning_secret session)))) (Active km), Ok tt)) \/
  ((complete_cloning s f).1 = s /\ (complete_cloning s f).2 <> Ok tt).
Proof.
  unfold complete_cloning, lock_phase.
  destruct (poisoned (inner s)) eqn:Hp; [by right|]. cbn [rbind].
  destruct (contents (inner s)) as [| |session|km]; cbn [rbind]; [by right|by right| |by right].
  destruct (f session) as [km|e|] eqn:Ef; cbn [rbind]; [|by right|by right].
  destruct (poisoned (donor_cloning_secret s)); [by right|]. left. by exists session, km.
Qed.

Lemma finish_recovery_cases s loaded deadline now :
  let s' := (finish_recovery s loaded deadline now).1 in
  same_exports s s' /\ donor_cloning_secret s' = donor_cloning_secret s /\
  match contents (inner s) with
  | Initializing =>
      contents (inner s') = Initial /\ (finish_recovery s loaded deadline now).2 <> Ok tt \/
      exists km, loaded = Ok km /\ contents (inner s') = Active km /\
        (finish_recovery s loaded deadline now).2 = Ok tt
  | p => contents (inner s') = p
  end.
Proof.
  unfold finish_recovery.
  destruct (commit_phase_cases s
    (let? manager := loaded in
     let? guard := lock_phase s in
     let? _ := remaining_until deadline now in
     match guard with
     | Initializing => Ok (Active manager, tt)
     | other => Err (NotReady (phase_str other))
     end)) as [(p & [] & E & Ec)|[Es Er]].
  - rewrite Ec. cbn [fst snd]. unfold drop_initialization. rewrite set_phase_contents.
    apply rbind_ok in E as (km & -> & E). apply rbind_ok in E as (g & Hg & E).
    apply lock_phase_ok in Hg. apply rbind_ok in E as (d & _ & E). subst g.
    destruct (contents (inner s)); try done. injection E as <-.
    split; [done|]. split; [done|]. right. by exists km.
  - destruct (commit_phase _ _) as [s1 r1]. cbn [fst snd] in *. subst s1.
    unfold drop_initialization. destruct (contents (inner s)) eqn:Ep; try done.
    split; [done|]. split; [done|]. left. split; [done|apply Er].
Qed.

(** ** Every step *)

(** What a step does to the phase, the recoveries and the quota. *)
Lemma step_transition y y' : step y y' -> transition (sys_now y) (phase y) (phase y').
Proof.
  unfold phase. destruct 1; cbn [sys_state with_state].
  - apply commit_phase_transition. intros p a H. apply locked_initial in H as [-> H].
    apply rbind_ok in H as ([km m] & _ & H). injection H as <- <-. constructor.
  - apply commit_phase_transition. intros p a H. apply locked_initial in H as [-> H].
    apply rbind_ok in H as (km & _ & H). injection H as <- <-. constructor.
  - apply commit_phase_transition. intros p a H. apply locked_initial in H as [-> H].
    apply rbind_ok in H as (km & _ & H). injection H as <- <-. constructor.
  - apply commit_phase_transition. intros p a H'. by apply (enter_cloning_from _ _ _ _ _ _ Hnow) in H' as [? _].
  - destruct (complete_cloning_cases (sys_state y) f) as [(session & km & -> & _ & _ & ->)|[-> _]];
      constructor.
  - replace s' with (begin_recovery (sys_state y) deadline now).1 by by rewrite H.
    apply commit_phase_transition. intros p a H'. clear H.
    apply rbind_ok in H' as (u & _ & H). apply rbind_ok in H as (src & _ & H).
    apply locked_initial in H as [-> H]. injection H as <- <-. constructor.
  - unfold begin_recovery, commit_phase in H. case_match; simplify_eq; try constructor.
    by destruct_and?; case_match.
  - destruct (finish_recovery_cases (sys_state y) loaded deadline now) as (_ & _ & Hf).
    destruct (contents (inner (sys_state y))); [rewrite Hf; constructor| |rewrite Hf; constructor
      |rewrite Hf; constructor].
    destruct Hf as [[-> _]|(km & _ & -> & _)]; constructor.
  - unfold set_donor_cloning_secret. case_match; constructor.
  - unfold set_seed_source. case_match; constructor.
  - unfold reserve_export_quota in H. repeat case_match; simplify_eq; constructor.
  - constructor.
  - unfold drop_quota. case_match; constructor.
  - constructor.
  - constructor.
  - constructor.
Qed.

(** Time never goes back. *)
Lemma step_now y y' : step y y' -> sys_now y <= sys_now y'.
Proof. by destruct 1. Qed.

Lemma run_now y y' : rtc step y y' -> sys_now y <= sys_now y'.
Proof. induction 1 as [|y y1 y' Hs _ IH]; [done|]. apply step_now in Hs. lia. Qed.

(** Keys, once there, stay. *)
Lemma active_kept y y' km : rtc step y y' -> phase y = Active km -> phase y' = Active km.
Proof.
  induction 1 as [|y y1 y' Hs _ IH]; [done|]. intros Hk. apply IH.
  apply step_transition in Hs. rewrite Hk in Hs. by inversion Hs.
Qed.

(** The quota: with a cap, the slots are the committed exports and the
    reservations in flight. *)
Record quota_inv (hard : Z) (y : system) : Prop := {
  q_cap : seed_export_hard_cap (sys_state y) = hard;
  q_reserved : 0 < hard -> Forall (fun r => reserved r = true) (sys_exports y);
  q_slots : 0 < hard ->
    seed_export_slots (sys_state y) = seed_export_count (sys_state y) + zlen (sys_exports y);
  q_bound : 0 < hard -> seed_export_slots (sys_state y) <= hard;
  q_count : 0 <= seed_export_count (sys_state y)
}.

(** One recovery runs exactly while the phase is [Initializing]. *)
Definition recovery_inv (y : system) : Prop :=
  length (sys_recoveries y) = match phase y with Initializing => 1%nat | _ => 0%nat end.

Definition secret_ok (secret : bytes) : Prop := validate_cloning_secret secret = Ok tt.

(** Every stored cloning secret passed the strength check. *)
Definition secrets_inv (s : EnclaveState) : Prop :=
  (forall secret, contents (donor_cloning_secret s) = Some secret -> secret_ok secret) /\
  (forall session, contents (inner s) = Cloning session ->
                   secret_ok (cs_donor_cloning_secret session)).

Lemma quota_inv_same hard y s :
  quota_inv hard y -> same_exports (sys_state y) s -> quota_inv hard (with_state y s).
Proof.
  intros [H1 H2 H3 H4 H5] (E1 & E2 & E3).
  constructor; cbn [sys_state with_state sys_exports]; rewrite ?E1, ?E2, ?E3; done.
Qed.

Lemma quota_inv_release hard y s pre r post count :
  is_u64 hard -> quota_inv hard y -> sys_exports y = pre ++ r :: post ->
  seed_export_hard_cap s = hard -> seed_export_count s = count -> 0 <= count ->
  (0 < hard -> seed_export_slots s = count + zlen (pre ++ post) /\ seed_export_slots s <= hard) ->
  quota_inv hard {| sys_state := s; sys_recoveries := sys_recoveries y; sys_exports := pre ++ post;
              sys_now := sys_now y |}.
Proof.
  intros Hh [H1 H2 H3 H4 H5] E Ec En Hc Hs. constructor; cbn [sys_state sys_exports]; try done.
  - intros Hp. specialize (H2 Hp). rewrite E in H2. apply Forall_app in H2 as [Ha Hb].
    apply Forall_cons in Hb as [_ Hb]. by apply Forall_app.
  - intros Hp. rewrite En. by apply Hs.
  - intros Hp. by apply Hs.
  - by rewrite En.
Qed.

Lemma zlen_split {A} (pre : list A) r post : zlen (pre ++ r :: post) = zlen (pre ++ post) + 1.
Proof. rewrite !zlen_app, zlen_cons. lia. Qed.

(** A granted reservation takes one slot and joins the exports in flight. *)
Lemma quota_inv_reserve hard y s' r :
  is_u64 hard -> quota_inv hard y -> reserve_export_quota (sys_state y) = (s', Ok r) ->
  quota_inv hard {| sys_state := s'; sys_recoveries := sys_recoveries y;
                    sys_exports := r :: sys_exports y; sys_now := sys_now y |}.
Proof.
  intros Hh [H1 H2 H3 H4 H5] H. unfold reserve_export_quota in H. rewrite H1 in H.
  destruct (0 <? hard) eqn:Ep; zbool.
  - destruct (_ <? hard) eqn:El; [|done]. zbool. injection H as <- <-.
    specialize (H3 Ep). pose proof (zlen_nonneg (sys_exports y)). unfold is_u64 in Hh.
    constructor; cbn [sys_state sys_exports set_exports seed_export_hard_cap seed_export_slots
                        seed_export_count]; try done; intros _.
    + constructor; [done|]. by apply H2.
    + rewrite wrap64_small by (unfold is_u64; lia). rewrite zlen_cons. lia.
    + rewrite wrap64_small by (unfold is_u64; lia). lia.
  - injection H as <- <-. constructor; cbn [sys_state sys_exports]; try done; intros; lia.
Qed.

(** Counter steps without a cap keep only the sign of the count. *)
Lemma step_quota_inv hard y y' : is_u64 hard -> quota_inv hard y -> step y y' -> quota_inv hard y'.
Proof.
  intros Hh Q. destruct 1; try (apply quota_inv_same; [done|]).
  1-4: unfold initialize_from_entropy, initialize_from_mnemonic, initialize_from_seed,
         enter_cloning_at; unfold commit_phase; repeat case_match; done.
  - destruct (complete_cloning_cases (sys_state y) f) as [(? & ? & _ & _ & _ & ->)|[-> _]]; done.
  - assert (same_exports (sys_state y) s') as (E1 & E2 & E3).
    { unfold begin_recovery, commit_phase in H. repeat case_match; simplify_eq; done. }
    destruct Q. constructor; cbn [sys_state sys_exports]; rewrite ?E1, ?E2, ?E3; done.
  - unfold begin_recovery, commit_phase in H. repeat case_match; simplify_eq; done.
  - destruct (finish_recovery_cases (sys_state y) loaded deadline now) as ((E1 & E2 & E3) & _ & _).
    destruct Q. constructor; cbn [sys_state sys_exports]; rewrite ?E1, ?E2, ?E3; done.
  - unfold set_donor_cloning_secret. case_match; done.
  - unfold set_seed_source. case_match; done.
  - by eapply quota_inv_reserve.
  - pose proof Q as [H1 H2 H3 H4 H5]. cbn [commit_quota record_seed_export fst].
    assert (Hcount : 0 < hard -> seed_export_count (sys_state y) + 1 <= hard).
    { intros Hp. specialize (H3 Hp). specialize (H4 Hp). rewrite H, zlen_split in H3.
      pose proof (zlen_nonneg (pre ++ post)). lia. }
    eapply quota_inv_release; try done.
    + cbn. apply Z.mod_pos_bound. lia.
    + cbn [set_exports drop_quota reserved seed_export_slots seed_export_count]. intros Hp.
      specialize (H3 Hp). specialize (H4 Hp). specialize (Hcount Hp). unfold is_u64 in Hh.
      rewrite wrap64_small by (unfold is_u64; lia). rewrite H, zlen_split in H3. lia.
  - pose proof Q as [H1 H2 H3 H4 H5]. unfold drop_quota.
    assert (Hr : 0 < hard -> reserved r = true).
    { intros Hp. specialize (H2 Hp). rewrite H in H2. apply Forall_app in H2 as [_ H2].
      by apply Forall_cons in H2 as [? _]. }
    eapply quota_inv_release; try done; [by destruct (reserved r)| |].
    + by destruct (reserved r).
    + intros Hp. rewrite (Hr Hp). cbn [set_exports seed_export_slots seed_export_count].
      specialize (H3 Hp). specialize (H4 Hp). rewrite H, zlen_split in H3.
      pose proof (zlen_nonneg (pre ++ post)). unfold is_u64 in Hh.
      rewrite wrap64_small by (unfold is_u64; lia). lia.
  - done.
  - done.
  - by destruct Q.
Qed.

Lemma begin_recovery_cases s deadline now :
  (exists source d, begin_recovery s deadline now = (set_phase s Initializing, Ok (source, d)) /\
     contents (inner s) = Initial) \/
  ((begin_recovery s deadline now).1 = s /\ forall a, (begin_recovery s deadline now).2 <> Ok a).
Proof.
  unfold begin_recovery. destruct (commit_phase_cases s
    (let? _ := remaining_until (Z.min deadline (now + RECOVERY_TIMEOUT)) now in
     let? source := ok_or (seed_source s)
       (InvalidRequest "KMS persistence requires a configured seed source") in
     let? guard := lock_phase s in
     let? _ := ensure_initial guard in
     Ok (Initializing, (source, Z.min deadline (now + RECOVERY_TIMEOUT)))))
    as [(p & [source d] & E & ->)|[E1 E2]]; [left|by right].
  apply rbind_ok in E as (u & _ & E). apply rbind_ok in E as (src & _ & E).
  apply locked_initial in E as [Hi E]. injection E as <- <- <-. by eexists _, _.
Qed.

(** A method that neither takes nor ends the recovery reservation. *)
Definition keeps_recovery (s s' : EnclaveState) : Prop :=
  contents (inner s) = Initializing <-> contents (inner s') = Initializing.

Lemma commit_phase_keeps {A} s (r : enclave_result (Phase * A)) :
  (forall p a, r = Ok (p, a) -> contents (inner s) <> Initializing /\ p <> Initializing) ->
  keeps_recovery s (commit_phase s r).1.
Proof.
  unfold keeps_recovery. intros H. destruct (commit_phase_cases s r) as [(p & a & E & ->)|[-> _]]; [|done].
  destruct (H p a E). cbn [fst]. rewrite set_phase_contents. tauto.
Qed.

Lemma recovery_inv_same y s :
  recovery_inv y -> keeps_recovery (sys_state y) s -> recovery_inv (with_state y s).
Proof.
  unfold recovery_inv, keeps_recovery, phase. cbn [with_state sys_state sys_recoveries].
  intros R Hk. rewrite R.
  destruct (contents (inner (sys_state y))), (contents (inner s)); 
    first [done | exfalso; destruct Hk as [Ha Hb];
                  first [by specialize (Ha eq_refl) | by specialize (Hb eq_refl)]].
Qed.

Lemma step_recovery_inv y y' : recovery_inv y -> step y y' -> recovery_inv y'.
Proof.
  intros R. destruct 1; try (apply recovery_inv_same; [done|]).
  - apply commit_phase_keeps. intros p a H. apply locked_initial in H as [-> H].
    apply rbind_ok in H as ([km m] & _ & H). by injection H as <- <-.
  - apply commit_phase_keeps. intros p a H. apply locked_initial in H as [-> H].
    apply rbind_ok in H as (km & _ & H). by injection H as <- <-.
  - apply commit_phase_keeps. intros p a H. apply locked_initial in H as [-> H].
    apply rbind_ok in H as (km & _ & H). by injection H as <- <-.
  - apply commit_phase_keeps. intros p a H'. apply (enter_cloning_from _ _ _ _ _ _ Hnow) in H' as [Ht ->].
    split; [|done]. intros E. rewrite E in Ht. inversion Ht.
  - destruct (complete_cloning_cases (sys_state y) f) as [(session & km & E & _ & _ & ->)|[-> _]];
      [|done]. unfold keeps_recovery. cbn [fst]. by rewrite E.
  - destruct (begin_recovery_cases (sys_state y) deadline now) as [(src & d & E & Hi)|[_ E]].
    + rewrite E in H. injection H as <- <- <-. unfold recovery_inv, phase in *. cbn in *.
      rewrite Hi in R. cbn in R. lia.
    + exfalso. by apply (E (source, deadline')), (f_equal snd H).
  - destruct (begin_recovery_cases (sys_state y) deadline now) as [(src & d & E & Hi)|[E _]].
    + by rewrite E in H.
    + rewrite H in E. cbn [fst] in E. by subst s'.
  - unfold recovery_inv, phase in *. cbn [sys_state sys_recoveries] in *.
    rewrite H, length_app in R. cbn [length] in R.
    destruct (finish_recovery_cases (sys_state y) loaded deadline now) as (_ & _ & Hf).
    destruct (contents (inner (sys_state y))); try lia.
    rewrite length_app. destruct Hf as [[-> _]|(km & _ & -> & _)]; lia.
  - unfold set_donor_cloning_secret. case_match; done.
  - unfold set_seed_source. case_match; done.
  - unfold reserve_export_quota in H. repeat case_match; simplify_eq; done.
  - done.
  - unfold recovery_inv, phase, drop_quota in *. cbn [sys_state sys_recoveries].
    by destruct (reserved r).
  - done.
  - done.
  - done.
Qed.

Lemma new_session_secret x pk secret created session :
  new_session_at x pk secret created = Ok session -> secret_ok (cs_donor_cloning_secret session).
Proof.
  unfold new_session_at. destruct (validate_cloning_secret secret) as [[]| |] eqn:E;
    cbn [rbind]; try done. by intros [= <-].
Qed.

(** A step that stores no new secret and enters no new session. *)
Lemma secrets_inv_same s s' :
  secrets_inv s -> donor_cloning_secret s' = donor_cloning_secret s ->
  (forall session, contents (inner s') = Cloning session -> contents (inner s) = Cloning session) ->
  secrets_inv s'.
Proof. intros [H1 H2] E Hp. split; [by rewrite E|]. intros session Hs. by apply H2, Hp. Qed.

Lemma commit_phase_secret {A} s (r : enclave_result (Phase * A)) :
  donor_cloning_secret (commit_phase s r).1 = donor_cloning_secret s.
Proof. unfold commit_phase. by repeat case_match. Qed.

Lemma commit_phase_active {A} s (r : enclave_result (Phase * A)) session :
  (forall p a, r = Ok (p, a) -> exists km, p = Active km) ->
  contents (inner (commit_phase s r).1) = Cloning session -> contents (inner s) = Cloning session.
Proof.
  intros H. destruct (commit_phase_cases s r) as [(p & a & E & ->)|[-> _]]; [|done].
  destruct (H p a E) as [km ->]. done.
Qed.

(** The three [initialize_from_*] methods give [Active] from [Initial]. *)
Lemma initialize_active {B C} s (k : enclave_result B) (g : B -> Phase * C) p a :
  (forall b, exists km, (g b).1 = Active km) ->
  (let? guard := lock_phase s in let? _ := ensure_initial guard in
   let? b := k in Ok (g b)) = Ok (p, a) -> exists km, p = Active km.
Proof.
  intros Hg H. apply locked_initial in H as [_ H]. apply rbind_ok in H as (b & _ & H).
  destruct (Hg b) as [km E]. injection H as H. rewrite H in E. by exists km.
Qed.

Lemma step_secrets_inv y y' :
  secrets_inv (sys_state y) -> step y y' -> secrets_inv (sys_state y').
Proof.
  intros S. destruct 1; cbn [with_state sys_state].
  - apply (secrets_inv_same (sys_state y)); [done|apply commit_phase_secret|]. intros session.
    apply commit_phase_active. intros p a H. apply locked_initial in H as [_ H].
    apply rbind_ok in H as ([km m] & _ & H). injection H as <- <-. by exists km.
  - apply (secrets_inv_same (sys_state y)); [done|apply commit_phase_secret|]. intros session.
    apply commit_phase_active. intros p a H. apply locked_initial in H as [_ H].
    apply rbind_ok in H as (km & _ & H). injection H as <- <-. by exists km.
  - apply (secrets_inv_same (sys_state y)); [done|apply commit_phase_secret|]. intros session.
    apply commit_phase_active. intros p a H. apply locked_initial in H as [_ H].
    apply rbind_ok in H as (km & _ & H). injection H as <- <-. by exists km.
  - unfold secrets_inv, enter_cloning_at. rewrite commit_phase_secret.
    split; [apply S|]. intros session'.
    match goal with |- context [commit_phase ?s ?r] =>
      destruct (commit_phase_cases s r) as [(p & a & E & ->)|[-> _]]; [|apply S] end.
    cbn [fst]. rewrite set_phase_contents. apply (enter_cloning_from _ _ _ _ _ _ Hnow) in E as [_ ->].
    intros [= <-]. by eapply new_session_secret.
  - destruct (complete_cloning_cases (sys_state y) f) as [(session & km & E & _ & _ & ->)|[-> _]];
      [|done]. cbn. split; [|done]. intros secret [= <-]. by apply S.
  - destruct (begin_recovery_cases (sys_state y) deadline now) as [(src & d & E & Hi)|[_ E]].
    + rewrite E in H. injection H as <- <- <-. cbn. split; [apply S|done].
    + exfalso. by apply (E (source, deadline')), (f_equal snd H).
  - destruct (begin_recovery_cases (sys_state y) deadline now) as [(src & d & E & Hi)|[E _]].
    + by rewrite E in H.
    + rewrite H in E. cbn [fst] in E. by subst s'.
  - destruct (finish_recovery_cases (sys_state y) loaded deadline now) as (_ & E & Hf).
    split; [rewrite E; apply S|]. intros session Hc. clear E.
    destruct (contents (inner (sys_state y))) eqn:Ep; rewrite ?Hf in Hc; try done.
    + by destruct Hf as [[E _]|(km & _ & E & _)]; rewrite E in Hc.
    + apply S. congruence.
  - unfold set_donor_cloning_secret. case_match eqn:E; [|done|done]. cbn. split; [|apply S].
    intros s' [= <-]. unfold secret_ok. by destruct (validate_cloning_secret secret) as [[]| |].
  - unfold set_seed_source. case_match; done.
  - unfold reserve_export_quota in H. repeat case_match; simplify_eq; done.
  - done.
  - unfold drop_quota. by destruct (reserved r).
  - done.
  - done.
  - done.
Qed.

(** The strength check counts distinct bytes. *)
Lemma count_distinct_spec bs : count_distinct bs = Z.of_nat (size (list_to_set bs : gset byte)).
Proof.
  unfold count_distinct.
  assert (H : forall bs (seen : list byte) d, NoDup seen -> d = zlen seen ->
    let r := fold_left (fun '(seen, distinct) b =>
               if bool_decide (b ∈ (seen : list byte)) then (seen, distinct)
               else (b :: seen, distinct + 1)) bs (seen, d) in
    NoDup r.1 /\ r.2 = zlen r.1 /\ forall b, b ∈ r.1 <-> b ∈ seen \/ b ∈ bs).
  { clear bs. induction bs as [|b bs IH]; intros seen d Hn Hd; cbn [fold_left].
    - split_and!; try done. intros b. rewrite elem_of_nil. tauto.
    - case_bool_decide as Hb.
      + destruct (IH seen d Hn Hd) as (H1 & H2 & H3). split_and!; try done.
        intros x. rewrite H3, elem_of_cons. split; [tauto|]. intros [|[->|]]; tauto.
      + destruct (IH (b :: seen) (d + 1)) as (H1 & H2 & H3).
        * by apply NoDup_cons.
        * rewrite zlen_cons. lia.
        * split_and!; try done. intros x. rewrite H3, !elem_of_cons. tauto. }
  destruct (H bs [] 0) as (H1 & H2 & H3); [constructor|done|].
  cbn zeta in *. destruct (fold_left _ bs _) as [seen d]. cbn [fst snd] in *. subst d.
  unfold zlen. f_equal. rewrite <- (size_list_to_set (C := gset byte) seen) by done.
  f_equal. apply set_eq. intros x. rewrite !elem_of_list_to_set, H3, elem_of_nil. tauto.
Qed.

(** ** Theorems *)

(** C20: under every interleaving of callers, also with poisoned locks, the
    phase only takes the transitions that the documentation of [Phase] lists,
    each at the time of the enclave's clock; once the enclave is [Active], it is
    so with the same keys for ever; and while less than the time to live of a
    pending cloning session has passed since its creation, no caller ends it
    but by completing it: the phase is that session's, or [Active]. *)
Theorem phase_transitions y y' :
  rtc step y y' ->
  (forall y'', step y' y'' -> transition (sys_now y') (phase y') (phase y'')) /\
  (forall km, phase y = Active km -> phase y' = Active km) /\
  (forall session, phase y = Cloning session ->
     sys_now y' - cs_created_at session < CLONING_SESSION_TTL ->
     phase y' = Cloning session \/ exists km, phase y' = Active km).
Proof.
  intros H. split; [apply step_transition|]. split.
  - intros km Hk. by eapply active_kept.
  - intros session Hp Hl. induction H as [y|y y1 y' Hs Hr IH]; [by left|].
    pose proof (step_transition _ _ Hs) as Ht. rewrite Hp in Ht.
    pose proof (run_now _ _ Hr). pose proof (step_now _ _ Hs).
    inversion Ht as [| | | | | |old next He|session0 km]; [by apply IH|lia|].
    right. exists km. by eapply active_kept.
Qed.

(** Seed recovery is exclusive.  In every reachable state exactly one
    recovery waits for KMS while the phase is [Initializing], and none
    otherwise; and when a recovery returns, the phase is [Active] with the keys
    it loaded, or back to [Initial] with an error. *)
Theorem recovery_exclusive n soft hard y :
  rtc step (start n soft hard) y ->
  length (sys_recoveries y) = match phase y with Initializing => 1%nat | _ => 0%nat end /\
  forall pre source deadline post loaded now,
    sys_recoveries y = pre ++ (source, deadline) :: post ->
    let '(s', r) := finish_recovery (sys_state y) loaded deadline now in
    (contents (inner s') = Initial /\ r <> Ok tt) \/
    (exists km, loaded = Ok km /\ contents (inner s') = Active km /\ r = Ok tt).
Proof.
  intros H. assert (R : recovery_inv y).
  { assert (R0 : recovery_inv (start n soft hard)) by done.
    induction H as [|x x' z Hs _ IH]; [done|]. by eapply IH, step_recovery_inv. }
  split; [exact R|]. intros pre source deadline post loaded now E.
  unfold recovery_inv, phase in R. rewrite E, length_app in R. cbn [length] in R.
  destruct (finish_recovery_cases (sys_state y) loaded deadline now) as (_ & _ & Hf).
  destruct (contents (inner (sys_state y))); try lia.
  by destruct (finish_recovery _ _ _ _) as [s' r].
Qed.

(** With a hard cap, no interleaving of concurrent exports goes above it:
    the slots are always the committed exports plus the reservations in flight,
    at most the cap.  A failed export gives its slot back, a reservation is
    refused exactly when all slots are taken. *)
Theorem export_cap_holds n soft hard y :
  0 < hard < 2 ^ 64 -> rtc step (start n soft hard) y ->
  let s := sys_state y in
  seed_export_slots s = seed_export_count s + zlen (sys_exports y) /\
  0 <= seed_export_count s <= hard /\ seed_export_slots s <= hard /\
  (snd (reserve_export_quota s) = Err (ExportCapReached (seed_export_slots s) hard) <->
   seed_export_slots s = hard) /\
  forall r, r ∈ sys_exports y ->
    seed_export_slots (drop_quota s r) = seed_export_slots s - 1.
Proof.
  intros Hh H. assert (Q : quota_inv hard y).
  { assert (Q0 : quota_inv hard (start n soft hard)).
    { constructor; cbn; try done; lia. }
    induction H as [|x x' z Hs _ IH]; [done|].
    apply IH. eapply step_quota_inv; [|done|done]. unfold is_u64. lia. }
  destruct Q as [H1 H2 H3 H4 H5]. specialize (H2 ltac:(lia)). specialize (H3 ltac:(lia)).
  specialize (H4 ltac:(lia)). pose proof (zlen_nonneg (sys_exports y)).
  split; [done|]. split; [lia|]. split; [done|]. split.
  - unfold reserve_export_quota. rewrite H1, (proj2 (Z.ltb_lt 0 hard)) by lia.
    destruct (_ <? hard) eqn:E; zbool; cbn [snd]; split; (done || lia).
  - intros r Hr. unfold drop_quota. rewrite Forall_forall in H2. rewrite (H2 r Hr).
    cbn [set_exports seed_export_slots].
    assert (0 < zlen (sys_exports y)).
    { destruct (sys_exports y); [by apply elem_of_nil in Hr|]. rewrite zlen_cons.
      pose proof (zlen_nonneg l). lia. }
    apply wrap64_small. unfold is_u64. lia.
Qed.

(** The credential a donor checks is never weak: in every reachable state
    the stored donor secret, and the secret of a pending cloning session, have
    at least 32 bytes and 8 distinct ones.  Completing a clone installs the
    session's own secret together with its keys, or changes nothing. *)
Theorem donor_secret_strong n soft hard y :
  rtc step (start n soft hard) y ->
  (forall secret,
     (contents (donor_cloning_secret (sys_state y)) = Some secret \/
      exists session, phase y = Cloning session /\ cs_donor_cloning_secret session = secret) ->
     MIN_CLONING_SECRET_BYTES <= zlen secret /\
     MIN_CLONING_SECRET_DISTINCT_BYTES <= Z.of_nat (size (list_to_set secret : gset byte))) /\
  forall f, let '(s', r) := complete_cloning (sys_state y) f in
    (r <> Ok tt /\ s' = sys_state y) \/
    (exists session km, phase y = Cloning session /\ f session = Ok km /\ r = Ok tt /\
       contents (inner s') = Active km /\
       contents (donor_cloning_secret s') = Some (cs_donor_cloning_secret session)).
Proof.
  intros H. assert (S : secrets_inv (sys_state y)).
  { assert (S0 : secrets_inv (sys_state (start n soft hard))) by done.
    induction H as [|x x' z Hs _ IH]; [done|]. by eapply IH, step_secrets_inv. }
  split.
  - intros secret Hs. assert (Hok : secret_ok secret).
    { destruct S as [S1 S2]. destruct Hs as [Hs|(session & Hp & <-)]; [by apply S1|by apply S2]. }
    unfold secret_ok, validate_cloning_secret in Hok. rewrite <- count_distinct_spec.
    destruct (zlen secret =? 0); [done|]. destruct (_ <? _) eqn:E1; [done|].
    destruct (count_distinct secret <? _) eqn:E2; [done|]. zbool. lia.
  - intros f. destruct (complete_cloning_cases (sys_state y) f)
      as [(session & km & E & Ef & _ & ->)|[E1 E2]].
    + right. exists session, km. by split_and!.
    + destruct (complete_cloning _ _). left. by split.
Qed.

End Props.

(** ** Examples *)

(** Keys are numbers; a seed gives the key of its first byte. *)
#[local] Instance toy_keys : Keys := {|
  KeyManager := Z;
  Mnemonic := unit;
  CloneSession := unit;
  BtcNetwork := unit;
  EnclaveResponse := unit;
  generate := fun e _ => Ok (zlen e, tt);
  from_mnemonic := fun _ _ => Err (InvalidKey "mnemonic");
  from_seed := fun s _ => Ok (zlen s);
  expose_seed := fun _ => [];
  km_evm_address := fun _ => []
|}.

Definition toy_source : SeedSource (K := toy_keys) := fun _ _ => Ok 7.

Definition toy_state : EnclaveState (K := toy_keys) := new_state (K := toy_keys) tt 0 2.

Definition toy_start : system (K := toy_keys) := start (K := toy_keys) tt 0 2.

Definition recovering : system (K := toy_keys) := {|
  sys_state := (begin_recovery (set_seed_source toy_state toy_source).1 (secs 9) 0).1;
  sys_recoveries := [(toy_source, secs 9)];
  sys_exports := []; sys_now := 0 |}.

Lemma recovering_reachable : rtc step toy_start recovering.
Proof.
  eapply rtc_l; [apply (st_source _ toy_source)|].
  eapply rtc_l; [|apply rtc_refl].
  apply (st_begin (with_state toy_start (set_seed_source toy_state toy_source).1)
           (secs 9) 0 toy_source (secs 9)); [done|reflexivity].
Qed.

Lemma recovery_exclusive_witness :
  length (sys_recoveries recovering) = 1%nat /\
  contents (inner (finish_recovery (sys_state recovering) (Ok 7) (secs 9) (secs 3)).1) = Active 7.
Proof.
  destruct (recovery_exclusive (K := toy_keys) tt 0 2 recovering recovering_reachable) as [H1 H2].
  split; [exact H1|].
  pose proof (H2 [] toy_source (secs 9) [] (Ok 7) (secs 3) eq_refl) as H. clear H1 H2.
  destruct (finish_recovery _ _ _ _) as [s' r] eqn:E.
  assert (r = Ok tt) as -> by (apply (f_equal snd) in E; exact (eq_sym E)).
  destruct H as [[_ H]|(km & [= <-] & H & _)]; [done|exact H].
Defined.

(** An active enclave asked to initialize again. *)
Definition active_system : system (K := toy_keys) :=
  with_state toy_start (initialize_from_seed toy_state [x01]).1.

Definition reinitialized : system (K := toy_keys) :=
  with_state active_system (initialize_from_seed (sys_state active_system) [x01; x02]).1.

Definition strong_secret : bytes := concat (replicate 4 [x01; x02; x03; x04; x05; x06; x07; x08]).

(** An enclave with a pending session, asked 299 seconds later to start another
    one; and the same request one second after that. *)
Definition toy_session (created : Z) : CloningSession (K := toy_keys) := {|
  cs_session := tt; cs_cluster_public_key := []; cs_donor_cloning_secret := strong_secret;
  cs_created_at := created |}.

Definition pending_system : system (K := toy_keys) :=
  with_state toy_start (enter_cloning_at toy_state (toy_session 0) 0).1.

Definition asked_again (now : Z) : system (K := toy_keys) :=
  with_state (at_time pending_system now)
    (enter_cloning_at (sys_state pending_system) (toy_session now) now).1.

Lemma asked_again_reachable now : 0 <= now -> rtc step pending_system (asked_again now).
Proof.
  intros H. eapply rtc_l; [by apply (st_tick pending_system now)|]. apply rtc_once.
  by apply (st_enter_cloning (at_time pending_system now) tt [] strong_secret now).
Qed.

Lemma phase_transitions_witness :
  phase reinitialized = Active (K := toy_keys) 1 /\
  phase (asked_again (secs 299)) = Cloning (toy_session 0) /\
  phase (asked_again (secs 300)) = Cloning (toy_session (secs 300)).
Proof.
  split; [|split].
  - destruct (phase_transitions (K := toy_keys) active_system reinitialized) as (_ & H & _).
    + apply rtc_once. apply (st_seed active_system [x01; x02]).
    + apply H. reflexivity.
  - destruct (phase_transitions (K := toy_keys) pending_system (asked_again (secs 299)))
      as (_ & _ & H); [by apply asked_again_reachable|].
    destruct (H (toy_session 0)) as [E|[km E]]; [reflexivity|reflexivity|exact E|].
    by vm_compute in E.
  - reflexivity.
Defined.

Definition exporting : system (K := toy_keys) := {|
  sys_state := (reserve_export_quota toy_state).1;
  sys_recoveries := [];
  sys_exports := [{| reserved := true |}]; sys_now := 0 |}.

Lemma export_cap_holds_witness : seed_export_slots (sys_state exporting) = 1.
Proof.
  destruct (export_cap_holds (K := toy_keys) tt 0 2 exporting) as (H & _); [lia| |exact H].
  eapply rtc_l; [|apply rtc_refl]. by apply st_reserve.
Defined.

Definition cloning_system : system (K := toy_keys) :=
  with_state toy_start (set_donor_cloning_secret toy_state strong_secret).1.

Lemma donor_secret_strong_witness :
  contents (donor_cloning_secret (sys_state cloning_system)) = Some strong_secret /\
  MIN_CLONING_SECRET_BYTES <= zlen strong_secret.
Proof.
  destruct (donor_secret_strong (K := toy_keys) tt 0 2 cloning_system) as [H _].
  { eapply rtc_l; [|apply rtc_refl]. apply (st_secret toy_start strong_secret). }
  assert (E : contents (donor_cloning_secret (sys_state cloning_system)) = Some strong_secret)
    by (vm_compute; reflexivity).
  split; [exact E|]. exact (proj1 (H strong_secret (or_introl E))).
Defined.
