(* ===== verification/Attestation.v ===== *)
(** * Attestation documents (src/attestation-verify/src/lib.rs)

    The verifier of Nitro attestation documents: the COSE_Sign1 envelope, the
    certificate chain from the pinned root, validity windows, CA constraints,
    nonce and PCRs.  CBOR, X.509 and P-384 are the interfaces [Ciborium],
    [X509] and [P384]. *)

From stdpp Require Import strings base gmap numbers list.
From S2P Require Import Prelude Errors.

#[local] Open Scope list_scope.
#[local] Open Scope Z_scope.

(** [VerifyError]; the PCR values of a mismatch are not kept. *)
Inductive VerifyError : Type :=
| VAttestation (m : string)
| VCertificate (m : string)
| VPcrMismatch (pcr : Z).

Abbreviation verify_result := (res VerifyError).

(** [From<VerifyError> for EnclaveError] (enclave/src/attestation.rs). *)
Definition from_verify_error (e : VerifyError) : EnclaveError :=
  match e with
  | VAttestation s => Attestation s
  | VCertificate s => Certificate s
  | VPcrMismatch pcr => PcrMismatch pcr "" ""
  end.

Definition MAX_DOCUMENT_BYTES : Z := 64 * 1024.

Definition check_document_size (doc : bytes) : verify_result unit :=
  if MAX_DOCUMENT_BYTES <? zlen doc then Err (VAttestation "attestation document is too large")
  else Ok tt.

Record ExpectedPcrs : Type := { pcr0 : bytes; pcr1 : bytes; pcr2 : bytes }.

Definition zero_pcrs : ExpectedPcrs := {|
  pcr0 := replicate 48 x00; pcr1 := replicate 48 x00; pcr2 := replicate 48 x00 |}.

Record VerifiedAttestation : Type := {
  enclave_pubkey : bytes;
  va_pcrs : gmap Z bytes;
  va_timestamp : Z;
  va_user_data : option bytes;
  va_nonce : bytes
}.

Record AttestationDocument : Type := {
  module_id : bytes;
  timestamp : Z;
  digest : bytes;
  pcrs : gmap Z bytes;
  certificate : bytes;
  cabundle : list bytes;
  public_key : option bytes;
  user_data : option bytes;
  doc_nonce : option bytes
}.

Inductive CheckTime : Type := Now | Document.

(** ** PCRs, nonce and key *)

(** [all_zero] of a stored PCR: present, not empty, only zero bytes. *)
Definition all_zero_pcr (m : gmap Z bytes) (idx : Z) : bool :=
  match m !! idx with
  | Some p => negb (bool_decide (p = [])) && forallb (fun b => b2z b =? 0) p
  | None => false
  end.

Definition reject_debug_pcrs (m : gmap Z bytes) : verify_result unit :=
  if forallb (all_zero_pcr m) [0; 1; 2] then
    Err (VAttestation "all-zero PCR0/1/2: attestation is from a debug-mode enclave")
  else Ok tt.

(** The closure [check] of [verify_pcrs]. *)
Definition check_pcr (m : gmap Z bytes) (idx : Z) (expected_bytes : bytes) : verify_result unit :=
  let? actual := ok_or (m !! idx) (VAttestation "Missing PCR") in
  if bool_decide (actual = expected_bytes) then Ok tt else Err (VPcrMismatch idx).

Definition verify_pcrs (m : gmap Z bytes) (expected : ExpectedPcrs) : verify_result unit :=
  let? _ := check_pcr m 0 (pcr0 expected) in
  let? _ := check_pcr m 1 (pcr1 expected) in
  check_pcr m 2 (pcr2 expected).

Definition into_verified (a : AttestationDocument) (nonce : bytes) (keyed : bool)
    : verify_result VerifiedAttestation :=
  let? key :=
    match public_key a, keyed with
    | Some key, true => Ok key
    | None, false => Ok []
    | None, true => Err (VAttestation "missing public key")
    | Some _, false => Err (VAttestation "policy-only attestation has a public key")
    end in
  Ok {| enclave_pubkey := key; va_pcrs := pcrs a; va_timestamp := timestamp a;
        va_user_data := user_data a; va_nonce := nonce |}.

Definition check_nonce (nonce : option bytes) (expected : option bytes) : verify_result bytes :=
  let? nonce := ok_or nonce (VAttestation "missing nonce in attestation") in
  match expected with
  | Some e => if bool_decide (nonce = e) then Ok nonce else Err (VAttestation "nonce mismatch")
  | None => Ok nonce
  end.

(** ** The COSE envelope *)

(** [ciborium::Value]; [VOther] is a float or a boolean, which no check reads. *)
Inductive Value : Type :=
| VInteger (z : Z)
| VBytes (b : bytes)
| VText (s : bytes)
| VNull
| VTag (tag : Z) (inner : Value)
| VArray (l : list Value)
| VMap (l : list (Value * Value))
| VOther.

Class Ciborium : Type := {
  from_reader : bytes -> option Value;
  document_from_reader : bytes -> option AttestationDocument;
  into_writer : Value -> option bytes
}.

Record CoseSign1 : Type := {
  protected : bytes;
  payload : option bytes;
  cose_signature : bytes
}.

Definition as_bytes (v : Value) : option bytes := match v with VBytes b => Some b | _ => None end.
Definition as_integer (v : Value) : option Z := match v with VInteger z => Some z | _ => None end.
Definition as_array (v : Value) : option (list Value) :=
  match v with VArray l => Some l | _ => None end.
Definition as_map (v : Value) : option (list (Value * Value)) :=
  match v with VMap l => Some l | _ => None end.
Definition is_null (v : Value) : bool := match v with VNull => true | _ => false end.

Definition COSE_ALG_ES384 : Z := -35.

Section Envelope.
Context {C : Ciborium}.

(** [CoseSign1::from_bytes]. *)
Definition cose_from_bytes (data : bytes) : verify_result CoseSign1 :=
  let? value := ok_or (from_reader data) (VAttestation "invalid CBOR") in
  let? value :=
    match value with
    | VTag tag inner =>
        if tag =? 18 then Ok inner else Err (VAttestation "unexpected CBOR tag on COSE_Sign1")
    | other => Ok other
    end in
  let? arr := ok_or (as_array value) (VAttestation "COSE_Sign1 must be array") in
  match arr with
  | [a0; _; a2; a3] =>
      let? protected := ok_or (as_bytes a0) (VAttestation "invalid protected header") in
      let? payload :=
        if is_null a2 then Ok None
        else let? p := ok_or (as_bytes a2) (VAttestation "invalid payload") in Ok (Some p) in
      let? signature := ok_or (as_bytes a3) (VAttestation "invalid signature") in
      Ok {| protected := protected; payload := payload; cose_signature := signature |}
  | _ => Err (VAttestation "COSE_Sign1 must have 4 elements")
  end.

(** The value that [CoseSign1::sig_structure] encodes. *)
Definition sig_value (c : CoseSign1) : Value :=
  VArray [VText (String.list_byte_of_string "Signature1"); VBytes (protected c); VBytes [];
          VBytes (default [] (payload c))].

Definition sig_structure (c : CoseSign1) : verify_result bytes :=
  ok_or (into_writer (sig_value c)) (VAttestation "failed to encode sig structure").

Definition verify_cose_alg_es384 (protected : bytes) : verify_result unit :=
  let? header := ok_or (from_reader protected) (VAttestation "invalid COSE protected header") in
  let? m := ok_or (as_map header) (VAttestation "COSE protected header must be a map") in
  let? entry := ok_or (List.find (fun '(k, _) => bool_decide (as_integer k = Some 1)) m)
                  (VAttestation "COSE protected header missing alg (label 1)") in
  let? alg := ok_or (as_integer (snd entry)) (VAttestation "COSE alg must be an integer") in
  if alg =? COSE_ALG_ES384 then Ok tt else Err (VAttestation "unexpected COSE alg").

(** ** The certificate chain *)

Record BasicConstraints : Type := { ca : bool; path_len_constraint : option Z }.
Record KeyUsage : Type := { digital_signature : bool; key_cert_sign : bool }.

(** [x509_cert]: a decoded certificate and its parts.  An extension that does
    not decode is an error, one that is not there is [Some None]. *)
Class X509 : Type := {
  X509Certificate : Type;
  from_der : bytes -> option X509Certificate;
  tbs_der : X509Certificate -> option bytes;
  cert_signature : X509Certificate -> option bytes;
  subject_public_key : X509Certificate -> option bytes;
  not_before : X509Certificate -> Z;
  not_after : X509Certificate -> Z;
  basic_constraints : X509Certificate -> option (option BasicConstraints);
  key_usage : X509Certificate -> option (option KeyUsage)
}.

(** [p384]: SEC1 keys, DER and raw signatures, ECDSA verification. *)
Class P384 : Type := {
  VerifyingKey : Type;
  Signature : Type;
  from_sec1_bytes : bytes -> option VerifyingKey;
  signature_from_der : bytes -> option Signature;
  signature_try_from : bytes -> option Signature;
  ecdsa_verify : VerifyingKey -> bytes -> Signature -> bool
}.

Context {X : X509} {P : P384}.

Definition extract_p384_pubkey (cert : X509Certificate) : verify_result VerifyingKey :=
  let? key_bytes := ok_or (subject_public_key cert) (VCertificate "missing public key bytes") in
  ok_or (from_sec1_bytes key_bytes) (VCertificate "invalid P-384 key").

Definition CERT_CLOCK_SKEW_TOLERANCE_SECS : Z := 60.

Definition check_cert_validity_window (now not_before not_after : Z) : verify_result unit :=
  if sat_add64 now CERT_CLOCK_SKEW_TOLERANCE_SECS <? not_before then
    Err (VCertificate "certificate not yet valid")
  else if sat_add64 not_after CERT_CLOCK_SKEW_TOLERANCE_SECS <? now then
    Err (VCertificate "certificate has expired")
  else Ok tt.

Definition verify_cert_validity (cert : X509Certificate) (at_ : Z) : verify_result unit :=
  check_cert_validity_window at_ (not_before cert) (not_after cert).

Definition verify_issuer_signed_subject (issuer subject : X509Certificate) : verify_result unit :=
  let? issuer_pubkey := extract_p384_pubkey issuer in
  let? tbs_bytes := ok_or (tbs_der subject) (VCertificate "TBS DER encode failed") in
  let? sig_bytes := ok_or (cert_signature subject) (VCertificate "missing signature bytes") in
  let? signature := ok_or (signature_from_der sig_bytes) (VCertificate "invalid cert signature") in
  if ecdsa_verify issuer_pubkey tbs_bytes signature then Ok tt
  else Err (VCertificate "certificate signature invalid").

(** [max_path_len] is a [usize]. *)
Definition check_ca_constraints (issuer : X509Certificate) (is_trust_anchor : bool)
    (max_path_len : Z) : verify_result Z :=
  let? ext := ok_or (basic_constraints issuer) (VCertificate "invalid BasicConstraints") in
  let? bc := ok_or ext (VCertificate "issuer certificate missing BasicConstraints") in
  if negb (ca bc) then Err (VCertificate "issuer certificate is not a CA")
  else
    let? usage := ok_or (key_usage issuer) (VCertificate "invalid KeyUsage") in
    let? _ :=
      match usage with
      | Some ku =>
          if key_cert_sign ku then Ok tt
          else Err (VCertificate "issuer certificate KeyUsage forbids keyCertSign")
      | None => Ok tt
      end in
    let? budget :=
      if is_trust_anchor then Ok max_path_len
      else if max_path_len =? 0 then
        Err (VCertificate "certificate path length constraint exceeded")
      else Ok (max_path_len - 1) in
    Ok (match path_len_constraint bc with Some p => Z.min budget p | None => budget end).

(** Parse the bundle, each certificate within its validity window. *)
Fixpoint parse_bundle (certs : list bytes) (at_ : Z) : verify_result (list X509Certificate) :=
  match certs with
  | [] => Ok []
  | der :: certs =>
      let? cert := ok_or (from_der der) (VCertificate "failed to parse cabundle") in
      let? _ := verify_cert_validity cert at_ in
      let? rest := parse_bundle certs at_ in
      Ok (cert :: rest)
  end.

(** The loop over the issuers; [anchor] is [i == 0]. *)
Fixpoint chain_loop (anchor : bool) (chain : list X509Certificate) (max_path_len : Z)
    : verify_result unit :=
  match chain with
  | issuer :: ((subject :: _) as rest) =>
      let? _ := verify_issuer_signed_subject issuer subject in
      let? max_path_len := check_ca_constraints issuer anchor max_path_len in
      chain_loop false rest max_path_len
  | _ => Ok tt
  end.

(** If the leaf has [KeyUsage], it permits [digitalSignature]. *)
Definition check_leaf_usage (leaf : X509Certificate) : verify_result unit :=
  let? usage := ok_or (key_usage leaf) (VCertificate "invalid signing-cert KeyUsage") in
  match usage with
  | Some ku =>
      if digital_signature ku then Ok tt
      else Err (VCertificate "signing certificate KeyUsage forbids digitalSignature")
  | None => Ok tt
  end.

Definition parse_cose_ecdsa_signature (sig_bytes : bytes) : verify_result Signature :=
  if negb (zlen sig_bytes =? 96) then
    Err (VAttestation "COSE signature must be 96-byte raw P-384")
  else ok_or (signature_try_from sig_bytes) (VAttestation "invalid COSE raw signature").

Definition verify_certificate_chain (signing_cert_der : bytes) (bundle : list bytes)
    (cose : CoseSign1) (root_der : bytes) (at_ : Z) : verify_result unit :=
  match bundle with
  | [] => Err (VCertificate "empty certificate bundle")
  | first :: _ =>
      if negb (bool_decide (first = root_der)) then
        Err (VCertificate "cabundle[0] is not the AWS Nitro root CA")
      else
        let? issuers := parse_bundle bundle at_ in
        let? leaf := ok_or (from_der signing_cert_der) (VCertificate "failed to parse signing cert") in
        let? _ := verify_cert_validity leaf at_ in
        let chain := issuers ++ [leaf] in
        let? _ := chain_loop true chain (zlen chain) in
        let? _ := check_leaf_usage leaf in
        let? signing_pubkey := extract_p384_pubkey leaf in
        let? cose_sig := parse_cose_ecdsa_signature (cose_signature cose) in
        let? to_verify := sig_structure cose in
        if ecdsa_verify signing_pubkey to_verify cose_sig then Ok tt
        else Err (VAttestation "COSE signature verification failed")
  end.

(** ** Documents *)

(** [allow_debug]: the [allow-debug-pcrs] feature.  [now] is the wall clock in
    seconds, [None] before the epoch. *)
Definition verify_real_document (allow_debug : bool) (doc : bytes) (expected_pcrs : ExpectedPcrs)
    (expected_nonce : option bytes) (root_der : bytes) (at_ : CheckTime) (now : option Z)
    : verify_result (AttestationDocument * bytes) :=
  let? _ := check_document_size doc in
  let? cose := cose_from_bytes doc in
  let? _ := verify_cose_alg_es384 (protected cose) in
  let? body := ok_or (payload cose) (VAttestation "missing COSE payload") in
  let? a := ok_or (document_from_reader body) (VAttestation "failed to parse attestation") in
  let? at_ :=
    match at_ with
    | Now => ok_or now (VCertificate "system clock error")
    | Document => Ok (timestamp a / 1000)
    end in
  let? _ := verify_certificate_chain (certificate a) (cabundle a) cose root_der at_ in
  let? nonce := check_nonce (doc_nonce a) expected_nonce in
  let? _ := if allow_debug then Ok tt else reject_debug_pcrs (pcrs a) in
  let? _ := verify_pcrs (pcrs a) expected_pcrs in
  Ok (a, nonce).

(** The entry points; [root_cert_der] is the embedded AWS root. *)
Definition verify_attestation (allow_debug : bool) (root_cert_der doc : bytes)
    (expected_pcrs : ExpectedPcrs) (expected_nonce : option bytes) (now : option Z)
    : verify_result VerifiedAttestation :=
  let? (a, nonce) :=
    verify_real_document allow_debug doc expected_pcrs expected_nonce root_cert_der Now now in
  into_verified a nonce true.

Definition verify_attestation_at_document_time (allow_debug : bool) (root_cert_der doc : bytes)
    (expected_pcrs : ExpectedPcrs) (expected_nonce : bytes) (now : option Z)
    : verify_result VerifiedAttestation :=
  let? (a, nonce) :=
    verify_real_document allow_debug doc expected_pcrs (Some expected_nonce) root_cert_der Document
      now in
  into_verified a nonce true.

Definition verify_policy_attestation (allow_debug : bool) (root_cert_der doc : bytes)
    (expected_pcrs : ExpectedPcrs) (expected_nonce : bytes) (now : option Z)
    : verify_result VerifiedAttestation :=
  let? (a, nonce) :=
    verify_real_document allow_debug doc expected_pcrs (Some expected_nonce) root_cert_der Now now in
  into_verified a nonce false.

(** ** The mock path: a raw CBOR document, for tests *)

Definition verify_mock_document (doc : bytes) (expected_pcrs : ExpectedPcrs)
    (expected_nonce : option bytes) : verify_result (AttestationDocument * bytes) :=
  let? _ := check_document_size doc in
  let? a := ok_or (document_from_reader doc) (VAttestation "failed to parse mock doc") in
  let? nonce := check_nonce (doc_nonce a) expected_nonce in
  let? _ := verify_pcrs (pcrs a) expected_pcrs in
  Ok (a, nonce).

Definition verify_mock_attestation (doc : bytes) (expected_pcrs : ExpectedPcrs)
    (expected_nonce : option bytes) : verify_result VerifiedAttestation :=
  let? (a, nonce) := verify_mock_document doc expected_pcrs expected_nonce in
  into_verified a nonce true.

Definition verify_mock_policy_attestation (doc : bytes) (expected_pcrs : ExpectedPcrs)
    (expected_nonce : bytes) : verify_result VerifiedAttestation :=
  let? (a, nonce) := verify_mock_document doc expected_pcrs (Some expected_nonce) in
  into_verified a nonce false.

End Envelope.
