(* ===== verification/AttestationSample.v ===== *)
(** * A small attestation world

    Instances of the interfaces of [Attestation] that evaluate: one root, one
    leaf certificate, an ideal signature that knows which payloads the NSM
    attested ([genuine]), and a document codec.  The witnesses use them. *)

From stdpp Require Import strings base gmap numbers list.
From S2P Require Import Prelude Errors Attestation.

#[local] Open Scope list_scope.
#[local] Open Scope Z_scope.

(** A byte string with an end marker, and its reader. *)
Definition marked (b : bytes) : bytes := foldr (fun x r => x01 :: x :: r) [x00] b.

Fixpoint unmarked (fuel : nat) (buf : bytes) : option (bytes * bytes) :=
  match fuel, buf with
  | S fuel, x01 :: b :: buf => prod_map (cons b) id <$> unmarked fuel buf
  | _, x00 :: buf => Some ([], buf)
  | _, _ => None
  end.

Lemma marked_inj a b r s : marked a ++ r = marked b ++ s -> a = b /\ r = s.
Proof.
  revert b. induction a as [|x a IH]; intros [|y b] H; cbn in H; try discriminate.
  - by injection H as ->.
  - injection H as -> H. apply IH in H as [-> ->]. done.
Qed.

Definition sample_root : bytes := [x01].
Definition sample_header : bytes := [xa1].
Definition sample_own_pcrs : ExpectedPcrs := {|
  pcr0 := replicate 48 x10; pcr1 := replicate 48 x11; pcr2 := replicate 48 x12 |}.
Definition sample_pcr3 : bytes := replicate 48 x33.

Definition sample_pcr_map : gmap Z bytes :=
  <[0 := pcr0 sample_own_pcrs]> (<[1 := pcr1 sample_own_pcrs]>
    (<[2 := pcr2 sample_own_pcrs]> (<[3 := sample_pcr3]> ∅))).

(** The payload of a document: key (empty for none), user data, nonce. *)
Definition sample_payload (key user_data nonce : bytes) : bytes :=
  marked key ++ marked user_data ++ marked nonce.

Definition sample_body (key ud nonce : bytes) : AttestationDocument := {|
  module_id := []; timestamp := 1700000000000; digest := []; pcrs := sample_pcr_map;
  certificate := [x02]; cabundle := [sample_root];
  public_key := if bool_decide (key = []) then None else Some key;
  user_data := Some ud; doc_nonce := Some nonce |}.

Definition sample_read (body : bytes) : option AttestationDocument :=
  let n := length body in
  match unmarked n body with
  | Some (key, r) =>
      match unmarked n r with
      | Some (ud, r) =>
          match unmarked n r with
          | Some (nonce, []) => Some (sample_body key ud nonce)
          | _ => None
          end
      | None => None
      end
  | None => None
  end.

Lemma sample_read_body body a :
  sample_read body = Some a -> exists key ud nonce, a = sample_body key ud nonce.
Proof.
  unfold sample_read. destruct (unmarked _ body) as [[key r]|]; [|done].
  destruct (unmarked _ r) as [[ud r']|]; [|done].
  destruct (unmarked _ r') as [[nonce [|]]|]; [|done..]. intros [= <-]. by eauto.
Qed.

#[export] Instance sample_ciborium : Ciborium := {|
  from_reader := fun buf =>
    match buf with
    | x84 :: body =>
        Some (VArray [VBytes sample_header; VMap []; VBytes body; VBytes (replicate 96 x00)])
    | [xa1] => Some (VMap [(VInteger 1, VInteger COSE_ALG_ES384)])
    | _ => None
    end;
  document_from_reader := sample_read;
  into_writer := fun v =>
    match v with
    | VArray [VText _; VBytes p; VBytes []; VBytes b] => Some (marked p ++ b)
    | _ => None
    end
|}.

(** The root may issue one level below it; the leaf is no CA. *)
#[export] Instance sample_x509 : X509 := {|
  X509Certificate := bool;
  from_der := fun der =>
    if bool_decide (der = [x01]) then Some true
    else if bool_decide (der = [x02]) then Some false else None;
  tbs_der := fun c => Some (if c then [x20] else [x21]);
  cert_signature := fun _ => Some [];
  subject_public_key := fun c => Some (if c then [x01] else [x02]);
  not_before := fun _ => 0;
  not_after := fun _ => 2000000000;
  basic_constraints := fun c =>
    Some (Some {| ca := c; path_len_constraint := if c then Some 0 else None |});
  key_usage := fun c => Some (Some {| digital_signature := negb c; key_cert_sign := c |})
|}.

(** The root signed the leaf; the leaf's key signs envelopes of genuine payloads. *)
Definition sample_p384 (genuine : bytes -> bool) : P384 := {|
  VerifyingKey := bool;
  Signature := unit;
  from_sec1_bytes := fun b => Some (bool_decide (b = [x01]));
  signature_from_der := fun _ => Some tt;
  signature_try_from := fun _ => Some tt;
  ecdsa_verify := fun key m _ =>
    if key then bool_decide (m = [x21])
    else match m with
         | x01 :: xa1 :: x00 :: body => genuine body
         | _ => false
         end
|}.

(** The document the NSM gives for a nonce, a key and user data. *)
Definition sample_document (key user_data nonce : bytes) : bytes :=
  x84 :: sample_payload key user_data nonce.

(** ** The sample documents verify *)

Lemma unmarked_marked n b r : (length b < n)%nat -> unmarked n (marked b ++ r) = Some (b, r).
Proof.
  revert b. induction n as [|n IH]; intros [|x b] H; cbn [length] in H; try lia; [done|].
  cbn.
  change (foldr _ [x00] b) with (marked b). by rewrite IH by lia.
Qed.

Lemma marked_length b : length (marked b) = (2 * length b + 1)%nat.
Proof. induction b as [|x b IH]; [done|]. change (marked (x :: b)) with (x01 :: x :: marked b). cbn [length]. lia. Qed.

Lemma sample_read_payload key ud nonce :
  sample_read (sample_payload key ud nonce) = Some (sample_body key ud nonce).
Proof.
  unfold sample_read, sample_payload. cbv zeta.
  rewrite unmarked_marked by (rewrite !length_app, !marked_length; lia).
  rewrite unmarked_marked by (rewrite !length_app, !marked_length; lia).
  rewrite <- (app_nil_r (marked nonce)).
  by rewrite unmarked_marked by (rewrite !length_app, !marked_length; lia).
Qed.

Lemma sample_chain genuine body :
  genuine body = true ->
  verify_certificate_chain (P := sample_p384 genuine) [x02] [sample_root]
    {| protected := sample_header; payload := Some body; cose_signature := replicate 96 x00 |}
    sample_root 1700000000 = Ok tt.
Proof. intros H. vm_compute. by rewrite H. Qed.

(** A document within the limits of the NSM: a key of at most 1024 bytes, user
    data and a nonce of at most 512. *)
Lemma sample_verifies genuine key ud nonce :
  genuine (sample_payload key ud nonce) = true -> key <> [] ->
  zlen key <= 1024 -> zlen ud <= 512 -> zlen nonce <= 512 ->
  verify_attestation (P := sample_p384 genuine) false sample_root (sample_document key ud nonce)
    sample_own_pcrs None (Some 1700000000) =
  Ok {| enclave_pubkey := key; va_pcrs := sample_pcr_map; va_timestamp := 1700000000000;
        va_user_data := Some ud; va_nonce := nonce |}.
Proof.
  intros Hg Hk H1 H2 H3. unfold verify_attestation, verify_real_document, check_document_size.
  assert (zlen (sample_document key ud nonce) <= MAX_DOCUMENT_BYTES) as Hs.
  { unfold zlen, sample_document, sample_payload, MAX_DOCUMENT_BYTES in *. cbn [length].
    rewrite !length_app, !marked_length. lia. }
  destruct (Z.ltb_spec MAX_DOCUMENT_BYTES (zlen (sample_document key ud nonce))); [lia|]. cbn [rbind].
  set (body := sample_payload key ud nonce).
  change (cose_from_bytes (sample_document key ud nonce)) with
    (Ok (E := VerifyError) {| protected := sample_header; payload := Some body;
       cose_signature := replicate 96 x00 |}).
  cbn [rbind protected payload ok_or].
  change (verify_cose_alg_es384 sample_header) with (Ok (E := VerifyError) tt). cbn [rbind].
  change (document_from_reader body) with (sample_read body). unfold body at 1.
  rewrite sample_read_payload. cbn [rbind ok_or sample_body certificate cabundle doc_nonce pcrs].
  rewrite sample_chain by done. cbn [rbind check_nonce].
  change (reject_debug_pcrs sample_pcr_map) with (Ok (E := VerifyError) tt).
  change (verify_pcrs sample_pcr_map sample_own_pcrs) with (Ok (E := VerifyError) tt).
  cbn [rbind]. unfold into_verified. by destruct key.
Qed.
