(* ===== verification/AttestationProps.v ===== *)
(** * Theorems on attestation documents

    [rfc5280_path] states when a certificate path is valid, without the budget
    that the loop carries; [real_document_iff] shows that the verifier accepts
    exactly the documents in a signed envelope under such a path, and
    [attestation_genuine] what that means when the CAs below the root and the
    NSM do their part ([trusted_pki]). *)

From stdpp Require Import strings base gmap numbers list.
From S2P Require Import Prelude Errors Attestation AttestationSample.

#[local] Open Scope list_scope.
#[local] Open Scope Z_scope.

Section Chain.
Context {C : Ciborium} {X : X509} {P : P384}.

(** ** Paths *)

(** The key of [issuer] verifies the signature of [subject]. *)
Definition signed_by (issuer subject : X509Certificate) : Prop :=
  exists kb key tbs sb s,
    subject_public_key issuer = Some kb /\ from_sec1_bytes kb = Some key /\
    tbs_der subject = Some tbs /\ cert_signature subject = Some sb /\
    signature_from_der sb = Some s /\ ecdsa_verify key tbs s = true.

(** A CA by its [BasicConstraints], and by [KeyUsage] where it has one. *)
Definition may_issue (c : X509Certificate) : Prop :=
  (exists bc, basic_constraints c = Some (Some bc) /\ ca bc = true) /\
  exists ku, key_usage c = Some ku /\ forall u, ku = Some u -> key_cert_sign u = true.

Definition path_len (c : X509Certificate) : option Z :=
  match basic_constraints c with Some (Some bc) => path_len_constraint bc | _ => None end.

(** Each certificate signs the next, every issuer may issue, and below an
    issuer with a path length there are at most so many CAs before the leaf. *)
Record rfc5280_path (issuers : list X509Certificate) (leaf : X509Certificate) : Prop := {
  path_signed : forall i a b,
    (issuers ++ [leaf]) !! i = Some a -> (issuers ++ [leaf]) !! S i = Some b -> signed_by a b;
  path_ca : Forall may_issue issuers;
  path_lens : forall i c p,
    issuers !! i = Some c -> path_len c = Some p -> zlen issuers - 1 - Z.of_nat i <= p
}.

(** [pathLenConstraint] is a [u8], a time a [u64]. *)
Class X509Laws : Prop := {
  path_len_u8 c p : path_len c = Some p -> is_u8 p;
  validity_u64 c : is_u64 (not_before c) /\ is_u64 (not_after c)
}.

Lemma verify_issuer_iff a b : verify_issuer_signed_subject a b = Ok tt <-> signed_by a b.
Proof.
  unfold verify_issuer_signed_subject, extract_p384_pubkey, signed_by. split.
  - intros H. inv_ok H. inv_ok E. rewrite !ok_or_ok in *.
    eexists _, _, _, _, _. repeat split; eassumption.
  - intros (kb & key & tbs & sb & s & -> & E1 & -> & -> & E2 & E3). cbn [rbind ok_or].
    rewrite E1. cbn [rbind ok_or]. rewrite E2. cbn [rbind ok_or]. by rewrite E3.
Qed.

(** One issuer of the loop: it may issue, the budget covers it, and the next
    budget is what is left, within its own path length. *)
Lemma check_ca_iff c anchor b b' :
  0 <= b ->
  (check_ca_constraints c anchor b = Ok b' <->
   may_issue c /\ (anchor = true \/ 0 < b) /\
   b' = let left := if anchor then b else b - 1 in
        match path_len c with Some p => Z.min left p | None => left end).
Proof.
  intros Hb. unfold check_ca_constraints, may_issue, path_len.
  destruct (basic_constraints c) as [[bc|]|]; cbn [ok_or rbind]; [|split; [done|];
    by intros (((? & ? & _) & _) & _) ..].
  destruct (ca bc) eqn:Eca; cbn [negb]; [|split; [done|];
    intros (((? & [= <-] & ?) & _) & _); congruence].
  destruct (key_usage c) as [ku|]; cbn [ok_or rbind]; [|split; [done|];
    by intros ((_ & ? & ? & _) & _)].
  assert (Hku : match ku with
                | Some u => if key_cert_sign u then Ok tt
                            else Err (VCertificate "issuer certificate KeyUsage forbids keyCertSign")
                | None => Ok tt
                end = Ok tt <-> forall u, ku = Some u -> key_cert_sign u = true).
  { destruct ku as [u|]; [|split; [by intros _ u Hu|done]].
    destruct (key_cert_sign u) eqn:Eu; split; intros H; try done.
    - by intros ? [= <-].
    - specialize (H u eq_refl). congruence. }
  destruct (match ku with Some u => _ | None => _ end) as [[]|e|] eqn:Em; cbn [rbind];
    [|split; [done|]; intros ((_ & ? & [= <-] & Hu) & _); by apply Hku in Hu ..].
  assert (Hc : (exists bc0, Some (Some bc) = Some (Some bc0) /\ ca bc0 = true) /\
               (exists ku0, Some ku = Some ku0 /\ forall u, ku0 = Some u -> key_cert_sign u = true)).
  { split; [by exists bc|]. exists ku. split; [done|]. by apply Hku. }
  destruct anchor; cbn [rbind].
  - split; [intros [= <-]; split; [exact Hc|]; split; [by left|done]|].
    intros (_ & _ & ->). done.
  - destruct (b =? 0) eqn:Eb; zbool; cbn [rbind].
    + split; [done|]. intros (_ & [?|?] & _); [done|lia].
    + split; [intros [= <-]; split; [exact Hc|]; split; [right; lia|done]|].
      intros (_ & _ & ->). done.
Qed.

(** ** The loop over the chain *)

Context {XL : X509Laws}.

(** The rule on path lengths, with the budget of the loop for the CAs of [l]. *)
Definition within (b : Z) (l : list X509Certificate) : Prop :=
  zlen l <= b /\
  forall i c p, l !! i = Some c -> path_len c = Some p -> zlen l - 1 - Z.of_nat i <= p.

Lemma within_cons c l b :
  within b (c :: l) <->
  0 < b /\ within (match path_len c with Some p => Z.min (b - 1) p | None => b - 1 end) l.
Proof.
  unfold within. rewrite zlen_cons. pose proof (zlen_nonneg l). split.
  - intros [Hb Hl]. split; [lia|]. split.
    + destruct (path_len c) as [p|] eqn:Ep; [|lia]. specialize (Hl 0%nat c p eq_refl Ep). lia.
    + intros i d p Hd Hp. specialize (Hl (S i) d p Hd Hp). lia.
  - intros (Hb & Hl & Hr). split.
    + destruct (path_len c); lia.
    + intros [|i] d p Hd Hp; [injection Hd as ->; rewrite Hp in Hl; lia|].
      specialize (Hr i d p Hd Hp). lia.
Qed.

(** Consecutive certificates of [chain] are signed. *)
Definition linked (chain : list X509Certificate) : Prop :=
  forall i x y, chain !! i = Some x -> chain !! S i = Some y -> signed_by x y.

Lemma linked_cons a c r : linked (a :: c :: r) <-> signed_by a c /\ linked (c :: r).
Proof.
  split.
  - intros H. split; [by apply (H 0%nat)|]. intros i x y. apply (H (S i)).
  - intros [H0 H] [|i] x y; [cbn; by intros [= <-] [= <-]|]. apply H.
Qed.

(** What the issuer [c] leaves of the budget [b]. *)
Definition next_budget (anchor : bool) (c : X509Certificate) (b : Z) : Z :=
  let left := if anchor then b else b - 1 in
  match path_len c with Some p => Z.min left p | None => left end.

Lemma next_budget_nonneg anchor c b :
  0 <= b -> anchor = true \/ 0 < b -> 0 <= next_budget anchor c b.
Proof.
  intros Hb Ha. unfold next_budget. destruct (path_len c) as [p|] eqn:E.
  - apply path_len_u8 in E. unfold is_u8 in E. destruct anchor, Ha; lia || done.
  - destruct anchor, Ha; lia || done.
Qed.

(** One round of the loop. *)
Lemma chain_loop_cons anchor a c r b :
  0 <= b ->
  chain_loop anchor (a :: c :: r) b = Ok tt <->
  signed_by a c /\ may_issue a /\ (anchor = true \/ 0 < b) /\
  chain_loop false (c :: r) (next_budget anchor a b) = Ok tt.
Proof.
  intros Hb.
  change (chain_loop anchor (a :: c :: r) b) with
    (let? _ := verify_issuer_signed_subject a c in
     let? m := check_ca_constraints a anchor b in chain_loop false (c :: r) m).
  split.
  - intros H. inv_ok H. destruct a0. apply verify_issuer_iff in E.
    by apply check_ca_iff in E0 as (Hm & Hp & ->).
  - intros (H1 & H2 & H3 & H4). apply verify_issuer_iff in H1. rewrite H1. cbn [rbind].
    rewrite (proj2 (check_ca_iff a anchor b _ Hb) (conj H2 (conj H3 eq_refl))). exact H4.
Qed.

Lemma chain_loop_iff l : forall leaf b,
  0 <= b ->
  chain_loop false (l ++ [leaf]) b = Ok tt <->
  linked (l ++ [leaf]) /\ Forall may_issue l /\ within b l.
Proof.
  induction l as [|a l IH]; intros leaf b Hb.
  { cbn [app chain_loop]. split; [intros _|done]. split; [by intros [|i] x y _ [=]|].
    split; [constructor|]. split; [done|]. by intros i c p Hc. }
  specialize (IH leaf). rewrite <- app_comm_cons.
  destruct (l ++ [leaf]) as [|c r] eqn:El; [by destruct l|].
  rewrite (chain_loop_cons _ _ _ _ _ Hb), linked_cons, within_cons, Forall_cons.
  change (match path_len a with Some p => Z.min (b - 1) p | None => b - 1 end)
    with (next_budget false a b).
  split; intros H.
  - destruct H as (H1 & H2 & [?|H3] & H4); [done|].
    apply IH in H4; [tauto|]. apply next_budget_nonneg; tauto.
  - destruct H as ((H1 & H2) & (H3 & H4) & H5 & H6). split; [done|]. split; [done|].
    split; [by right|]. apply IH; [|tauto]. apply next_budget_nonneg; tauto.
Qed.

(** The whole loop, from the trust anchor with the chain's length as budget. *)
Lemma chain_loop_path issuers leaf :
  issuers <> [] ->
  chain_loop true (issuers ++ [leaf]) (zlen (issuers ++ [leaf])) = Ok tt <->
  rfc5280_path issuers leaf.
Proof.
  destruct issuers as [|root l]; [done|]. intros _. rewrite <- app_comm_cons.
  pose proof (zlen_nonneg l) as Hl.
  assert (Hn : zlen (root :: l ++ [leaf]) = zlen l + 2)
    by (rewrite zlen_cons, zlen_app, zlen_cons, zlen_nil; lia).
  pose proof (chain_loop_iff l leaf) as Hloop.
  destruct (l ++ [leaf]) as [|c r] eqn:El; [by destruct l|].
  rewrite Hn, chain_loop_cons, Hloop by (lia || (apply next_budget_nonneg; [lia|by left])).
  assert (Hw : within (next_budget true root (zlen l + 2)) l <->
               (forall i d p, (root :: l) !! i = Some d -> path_len d = Some p ->
                              zlen (root :: l) - 1 - Z.of_nat i <= p)).
  { unfold within, next_budget. rewrite zlen_cons. split.
    - intros [Hb Hr] [|i] d p Hd Hp; [injection Hd as ->; rewrite Hp in Hb; lia|].
      specialize (Hr i d p Hd Hp). lia.
    - intros H. split.
      + destruct (path_len root) as [p|] eqn:Ep; [|lia].
        specialize (H 0%nat root p eq_refl Ep). lia.
      + intros i d p Hd Hp. specialize (H (S i) d p Hd Hp). lia. }
  rewrite Hw. split.
  - intros (H1 & H2 & _ & H3 & H4 & H5). split; [|by constructor|exact H5].
    rewrite <- app_comm_cons, El. by apply linked_cons.
  - intros [H1 H2 H3]. rewrite <- app_comm_cons, El in H1. apply linked_cons in H1 as [H0 H1].
    apply Forall_cons in H2 as [H2 H4]. split; [done|]. split; [done|]. split; [by left|]. tauto.
Qed.

(** ** The whole chain check *)

(** Valid at [t], with a minute of clock skew on both sides. *)
Definition valid_at (t : Z) (c : X509Certificate) : Prop := not_before c - 60 <= t <= not_after c + 60.

Lemma validity_iff c t : is_u64 t -> verify_cert_validity c t = Ok tt <-> valid_at t c.
Proof.
  intros Ht. destruct (validity_u64 c) as [Hb Ha].
  unfold verify_cert_validity, check_cert_validity_window, valid_at, sat_add64,
    CERT_CLOCK_SKEW_TOLERANCE_SECS, is_u64, u64_max in *.
  destruct (Z.ltb_spec (Z.min (t + 60) (2 ^ 64 - 1)) (not_before c)); [split; [done|lia]|].
  destruct (Z.ltb_spec (Z.min (not_after c + 60) (2 ^ 64 - 1)) t); split; (done || lia).
Qed.

(** The leaf's key may sign and signed the envelope. *)
Definition signs_envelope (leaf : X509Certificate) (cose : CoseSign1) : Prop :=
  (exists ku, key_usage leaf = Some ku /\ forall u, ku = Some u -> digital_signature u = true) /\
  zlen (cose_signature cose) = 96 /\
  exists kb key s m,
    subject_public_key leaf = Some kb /\ from_sec1_bytes kb = Some key /\
    signature_try_from (cose_signature cose) = Some s /\
    into_writer (sig_value cose) = Some m /\ ecdsa_verify key m s = true.

Lemma leaf_usage_iff leaf :
  check_leaf_usage leaf = Ok tt <->
  exists ku, key_usage leaf = Some ku /\ forall u, ku = Some u -> digital_signature u = true.
Proof.
  unfold check_leaf_usage. destruct (key_usage leaf) as [[u|]|]; cbn [ok_or rbind].
  - destruct (digital_signature u) eqn:E; split; intros H; try done.
    + exists (Some u). split; [done|]. by intros ? [= <-].
    + destruct H as (ku & [= <-] & H). specialize (H u eq_refl). congruence.
  - split; [intros _; by exists None|done].
  - split; [done|]. by intros (ku & [=] & _).
Qed.

Lemma envelope_iff leaf cose :
  (let? _ := check_leaf_usage leaf in
   let? k := extract_p384_pubkey leaf in
   let? s := parse_cose_ecdsa_signature (cose_signature cose) in
   let? m := sig_structure cose in
   if ecdsa_verify k m s then Ok tt
   else Err (VAttestation "COSE signature verification failed")) = Ok tt <->
  signs_envelope leaf cose.
Proof.
  unfold signs_envelope, extract_p384_pubkey, parse_cose_ecdsa_signature, sig_structure.
  rewrite <- leaf_usage_iff. split.
  - intros H. inv_ok H. destruct a. inv_ok E0. inv_ok E1. rewrite !ok_or_ok in *. zbool.
    split; [done|]. split; [done|]. eexists _, _, _, _. repeat split; eassumption.
  - intros (-> & Hl & kb & k & x & m & -> & E1 & E2 & E3 & E4). cbn [ok_or rbind].
    rewrite E1. cbn [ok_or rbind]. apply Z.eqb_eq in Hl. rewrite Hl. cbn [negb].
    rewrite E2. cbn [ok_or rbind]. rewrite E3. cbn [ok_or rbind]. by rewrite E4.
Qed.

Lemma parse_bundle_iff ders cs t :
  is_u64 t ->
  parse_bundle ders t = Ok cs <->
  Forall2 (fun d c => from_der d = Some c) ders cs /\ Forall (valid_at t) cs.
Proof.
  intros Ht. revert cs. induction ders as [|d ders IH]; intros cs; cbn [parse_bundle].
  - split; [intros [= <-]; by split|]. intros [H _]. by inversion H.
  - split.
    + intros H. inv_ok H. destruct a0. rewrite ok_or_ok in E. apply (validity_iff _ _ Ht) in E0.
      destruct (proj1 (IH _) eq_refl) as [H1 H2]. subst cs. split; by constructor.
    + intros [H1 H2]. inversion H1 as [|? c ? cs' Hd Hr]; subst. rewrite Hd. cbn [ok_or rbind].
      apply Forall_cons in H2 as [Hv H2]. rewrite (proj2 (validity_iff _ _ Ht) Hv). cbn [rbind].
      by rewrite (proj2 (IH cs') (conj Hr H2)).
Qed.

(** What [verify_certificate_chain] accepts, as one statement. *)
Record accepted_chain (der : bytes) (bundle : list bytes) (cose : CoseSign1) (root_der : bytes)
    (t : Z) (issuers : list X509Certificate) (leaf : X509Certificate) : Prop := {
  chain_anchor : head bundle = Some root_der;
  chain_issuers : Forall2 (fun d c => from_der d = Some c) bundle issuers;
  chain_leaf : from_der der = Some leaf;
  chain_valid : Forall (valid_at t) (issuers ++ [leaf]);
  chain_path : rfc5280_path issuers leaf;
  chain_signed : signs_envelope leaf cose
}.

Lemma verify_certificate_chain_iff der bundle cose root_der t :
  is_u64 t ->
  verify_certificate_chain der bundle cose root_der t = Ok tt <->
  exists issuers leaf, accepted_chain der bundle cose root_der t issuers leaf.
Proof.
  intros Ht. destruct bundle as [|first bundle].
  { split; [done|]. intros (? & ? & [[=]]). }
  unfold verify_certificate_chain. case_bool_decide as Hf; cbn [negb].
  2:{ split; [done|]. intros (? & ? & [[= <-]]). done. }
  subst first. split.
  - intros H. destruct (parse_bundle _ t) as [cs| |] eqn:Ep; cbn [rbind] in H; [|done..].
    apply (parse_bundle_iff _ _ _ Ht) in Ep as [Hp Hv].
    destruct (from_der der) as [leaf|] eqn:Ed; cbn [ok_or rbind] in H; [|done].
    destruct (verify_cert_validity leaf t) as [[]| |] eqn:El; cbn [rbind] in H; [|done..].
    apply (validity_iff _ _ Ht) in El.
    destruct (chain_loop true _ _) as [[]| |] eqn:Ec; cbn [rbind] in H; [|done..].
    apply chain_loop_path in Ec; [|intros ->; inversion Hp]. apply envelope_iff in H.
    exists cs, leaf. split; [done..| |done|done]. apply Forall_app. by rewrite Forall_singleton.
  - intros (cs & leaf & [_ Hi Hd Hv Hp Hs]). apply Forall_app in Hv as [Hv Hl].
    rewrite Forall_singleton in Hl.
    rewrite (proj2 (parse_bundle_iff _ cs _ Ht) (conj Hi Hv)). cbn [rbind].
    rewrite Hd. cbn [ok_or rbind]. rewrite (proj2 (validity_iff leaf t Ht) Hl). cbn [rbind].
    rewrite (proj2 (chain_loop_path cs leaf ltac:(intros ->; inversion Hi)) Hp). cbn [rbind].
    by apply envelope_iff.
Qed.

(** ** Documents *)

(** The times of a document are [u64]; [into_writer] encodes different
    signature structures differently. *)
Class CiboriumLaws : Prop := {
  timestamp_u64 b a : document_from_reader b = Some a -> is_u64 (timestamp a);
  into_writer_inj c d m :
    into_writer (sig_value c) = Some m -> into_writer (sig_value d) = Some m ->
    sig_value c = sig_value d
}.

Context {CL : CiboriumLaws}.

(** The four elements of a COSE_Sign1, bare or under tag 18. *)
Definition envelope (doc : bytes) (cose : CoseSign1) (body : bytes) : Prop :=
  payload cose = Some body /\
  exists unprotected v,
    v = VArray [VBytes (protected cose); unprotected; VBytes body; VBytes (cose_signature cose)] /\
    (from_reader doc = Some v \/ from_reader doc = Some (VTag 18 v)).

(** The first [alg] label of the protected header is ES384. *)
Definition es384 (header : bytes) : Prop :=
  exists pre k post,
    from_reader header = Some (VMap (pre ++ (k, VInteger COSE_ALG_ES384) :: post)) /\
    as_integer k = Some 1 /\ Forall (fun '(k, _) => as_integer k <> Some 1) pre.

Lemma find_first {A} (f : A -> bool) l x :
  List.find f l = Some x <->
  exists pre post, l = pre ++ x :: post /\ f x = true /\ Forall (fun y => f y = false) pre.
Proof.
  induction l as [|y l IH]; cbn [List.find].
  - split; [done|]. by intros ([|? ?] & ? & [=] & _).
  - destruct (f y) eqn:Ey.
    + split; [intros [= <-]; by exists [], l|]. intros ([|z pre] & post & [= -> ->] & Hx & Hp); [done|].
      inversion Hp; congruence.
    + rewrite IH. split.
      * intros (pre & post & -> & Hx & Hp). exists (y :: pre), post. by repeat constructor.
      * intros ([|z pre] & post & [= -> ->] & Hx & Hp); [congruence|].
        apply Forall_cons in Hp as [_ Hp]. by exists pre, post.
Qed.

Lemma es384_iff header : verify_cose_alg_es384 header = Ok tt <-> es384 header.
Proof.
  unfold verify_cose_alg_es384, es384. split.
  - intros H. inv_ok H. rewrite !ok_or_ok in *. zbool. subst.
    destruct a; try discriminate. injection E0 as ->.
    apply find_first in E1 as (pre & post & -> & Hk & Hp). destruct a1 as [k v]. cbn in E2.
    destruct v; try discriminate. injection E2 as ->. exists pre, k, post.
    apply bool_decide_eq_true in Hk. split; [done|]. split; [done|].
    eapply Forall_impl; [exact Hp|]. intros [k' v'] Hf. by apply bool_decide_eq_false in Hf.
  - intros (pre & k & post & -> & Hk & Hp). cbn [ok_or rbind as_map].
    rewrite (proj2 (find_first _ _ (k, VInteger COSE_ALG_ES384))); [done|].
    exists pre, post. split; [done|]. split; [by apply bool_decide_eq_true|].
    eapply Forall_impl; [exact Hp|]. intros [k' v'] Hf. by apply bool_decide_eq_false.
Qed.

Lemma envelope_parse doc cose body :
  cose_from_bytes doc = Ok cose /\ payload cose = Some body <-> envelope doc cose body.
Proof.
  unfold cose_from_bytes, envelope. split.
  - intros [H Hb]. split; [done|]. inv_ok H. rewrite ok_or_ok in E. rewrite ok_or_ok in E1.
    assert (Hv : from_reader doc = Some a0 \/ from_reader doc = Some (VTag 18 a0)).
    { destruct a; try (injection E0 as <-; by left).
      destruct (tag =? 18) eqn:Et; [|done]. injection E0 as <-. zbool. subst. by right. }
    destruct a0; try discriminate. injection E1 as ->.
    destruct a1 as [|a0 [|u [|a2 [|a3 [|]]]]]; try discriminate.
    inv_ok H. rewrite !ok_or_ok in *. subst cose. cbn in *. subst.
    destruct a0; try discriminate. injection E1 as ->.
    destruct a3; try discriminate. injection E3 as ->.
    destruct (is_null a2) eqn:En; [discriminate E2|]. inv_ok E2. rewrite ok_or_ok in *.
    subst. destruct a2; try discriminate. injection E1 as ->. by eauto.
  - intros (Hb & u & v & -> & Hv). split; [|done].
    assert (forall c : CoseSign1, payload c = Some body ->
              Ok {| protected := protected c; payload := Some body;
                    cose_signature := cose_signature c |} = Ok (E := VerifyError) c) as Hc
      by (intros [] [= ->]; done).
    destruct Hv as [-> | ->]; by apply Hc.
Qed.

(** The PCRs of a debug enclave. *)
Definition debug_pcrs (m : gmap Z bytes) : Prop :=
  forall i, i = 0 \/ i = 1 \/ i = 2 ->
    exists p, m !! i = Some p /\ p <> [] /\ Forall (fun b => b = x00) p.

Lemma all_zero_iff m i :
  all_zero_pcr m i = true <-> exists p, m !! i = Some p /\ p <> [] /\ Forall (fun b => b = x00) p.
Proof.
  unfold all_zero_pcr. destruct (m !! i) as [p|]; [|split; [done|by intros (? & [=] & _)]].
  rewrite Bool.andb_true_iff, Bool.negb_true_iff, bool_decide_eq_false, forallb_forall. split.
  - intros [Hn Hz]. exists p. split; [done|]. split; [done|]. apply Forall_forall.
    intros b Hb. apply b2z_inj. apply Z.eqb_eq, Hz. by apply list_elem_of_In.
  - intros (? & [= <-] & Hn & Hz). split; [done|]. intros b Hb. rewrite Forall_forall in Hz.
    rewrite (Hz b); [done|]. by apply list_elem_of_In.
Qed.

Lemma debug_iff m : reject_debug_pcrs m = Ok tt <-> ~ debug_pcrs m.
Proof.
  unfold reject_debug_pcrs.
  assert (Hd : forallb (all_zero_pcr m) [0; 1; 2] = true <-> debug_pcrs m).
  { rewrite forallb_forall. unfold debug_pcrs. setoid_rewrite <- all_zero_iff.
    split; intros H i Hi; apply H; cbn in *; intuition congruence. }
  destruct (forallb _ _); split; intros H; try done.
  - by destruct (H (proj1 Hd eq_refl)).
  - intros Hx. by apply Hd in Hx.
Qed.

Lemma check_pcr_iff m i e : check_pcr m i e = Ok tt <-> m !! i = Some e.
Proof.
  unfold check_pcr. destruct (m !! i) as [a|]; cbn [ok_or rbind]; [|done].
  case_bool_decide; split; intros H'; congruence.
Qed.

Definition has_pcrs (m : gmap Z bytes) (e : ExpectedPcrs) : Prop :=
  m !! 0 = Some (pcr0 e) /\ m !! 1 = Some (pcr1 e) /\ m !! 2 = Some (pcr2 e).

Lemma verify_pcrs_iff m e : verify_pcrs m e = Ok tt <-> has_pcrs m e.
Proof.
  unfold verify_pcrs, has_pcrs. rewrite <- !check_pcr_iff. split.
  - intros H. inv_ok H. by destruct a, a0.
  - intros (-> & -> & ->). done.
Qed.

Lemma check_nonce_iff o e n :
  check_nonce o e = Ok n <-> o = Some n /\ forall x, e = Some x -> n = x.
Proof.
  unfold check_nonce. destruct o as [m|]; cbn [ok_or rbind]; [|split; [done|by intros [[=] _]]].
  destruct e as [x|].
  - case_bool_decide; split; intros H'.
    + injection H' as <-. split; [done|]. by intros ? [= <-].
    + destruct H' as [[= ->] _]. done.
    + done.
    + destruct H' as [[= ->] Hx]. by specialize (Hx x eq_refl).
  - split; [by intros [= <-]|]. by intros [[= ->] _].
Qed.

(** The time the certificates are checked at. *)
Definition check_time (at_ : CheckTime) (now : option Z) (a : AttestationDocument) (t : Z) : Prop :=
  match at_ with Now => now = Some t | Document => t = timestamp a / 1000 end.

Record accepted_document (allow_debug : bool) (doc : bytes) (e : ExpectedPcrs)
    (nonce : option bytes) (root_der : bytes) (at_ : CheckTime) (now : option Z)
    (a : AttestationDocument) (n : bytes) (cose : CoseSign1) (body : bytes) : Prop := {
  doc_size : zlen doc <= 65536;
  doc_envelope : envelope doc cose body;
  doc_alg : es384 (protected cose);
  doc_body : document_from_reader body = Some a;
  doc_chain : exists t issuers leaf,
    check_time at_ now a t /\
    accepted_chain (certificate a) (cabundle a) cose root_der t issuers leaf;
  doc_nonce_ok : doc_nonce a = Some n /\ forall x, nonce = Some x -> n = x;
  doc_not_debug : allow_debug = false -> ~ debug_pcrs (pcrs a);
  doc_pcrs : has_pcrs (pcrs a) e
}.

Lemma check_time_iff at_ now a b t :
  document_from_reader b = Some a -> (forall t, now = Some t -> is_u64 t) ->
  match at_ with
  | Now => ok_or now (VCertificate "system clock error")
  | Document => Ok (timestamp a / 1000)
  end = Ok t <-> check_time at_ now a t /\ is_u64 t.
Proof.
  intros Hb Hn. unfold check_time. destruct at_.
  - rewrite ok_or_ok. split; [|by intros [? _]]. intros H. split; [done|by apply Hn].
  - apply timestamp_u64 in Hb. unfold is_u64 in *. split; [|by intros [-> _]].
    intros [= <-]. split; [done|]. split; [apply Z.div_pos; lia|]. apply Z.div_lt_upper_bound; lia.
Qed.

Lemma verify_real_document_iff allow_debug doc e nonce root_der at_ now a n :
  (forall t, now = Some t -> is_u64 t) ->
  verify_real_document allow_debug doc e nonce root_der at_ now = Ok (a, n) <->
  exists cose body, accepted_document allow_debug doc e nonce root_der at_ now a n cose body.
Proof.
  intros Hnow. unfold verify_real_document, check_document_size, MAX_DOCUMENT_BYTES.
  destruct (Z.ltb_spec (64 * 1024) (zlen doc)) as [Hs|Hs]; cbn [rbind].
  { split; [done|]. intros (? & ? & [? _ _ _ _ _ _ _]). lia. }
  split.
  - intros H. apply rbind_ok in H as (cose & Ec & H). apply rbind_ok in H as ([] & Ea & H).
    apply rbind_ok in H as (body & Eb & H). apply rbind_ok in H as (a' & Ed & H).
    apply ok_or_ok in Eb, Ed. apply rbind_ok in H as (t & Et & H).
    apply (check_time_iff _ _ _ _ _ Ed Hnow) in Et as [Et Ht].
    apply rbind_ok in H as ([] & Ev & H). apply rbind_ok in H as (n' & En & H).
    apply rbind_ok in H as ([] & Eg & H). apply rbind_ok in H as ([] & Ep & H).
    injection H as -> ->. apply (verify_certificate_chain_iff _ _ _ _ _ Ht) in Ev as (iss & leaf & Hc).
    exists cose, body. split.
    + lia.
    + by apply envelope_parse.
    + by apply es384_iff.
    + done.
    + by exists t, iss, leaf.
    + by apply check_nonce_iff in En.
    + intros ->. by apply debug_iff.
    + by apply verify_pcrs_iff.
  - intros (cose & body & [_ Hv Ha Hb (t & iss & leaf & Ht & Hc) Hn Hd Hp]).
    apply envelope_parse in Hv as [-> Hv]. cbn [rbind].
    apply es384_iff in Ha. rewrite Ha. cbn [rbind]. rewrite Hv. cbn [ok_or rbind].
    rewrite Hb. cbn [ok_or rbind].
    assert (Hu : is_u64 t).
    { destruct at_; [by apply Hnow|]. cbn in Ht. subst t. apply timestamp_u64 in Hb.
      unfold is_u64 in *. split; [apply Z.div_pos; lia|]. apply Z.div_lt_upper_bound; lia. }
    rewrite (proj2 (check_time_iff _ _ _ _ _ Hb Hnow) (conj Ht Hu)). cbn [rbind].
    rewrite (proj2 (verify_certificate_chain_iff _ _ _ _ _ Hu) (ex_intro _ iss (ex_intro _ leaf Hc))).
    cbn [rbind]. rewrite (proj2 (check_nonce_iff _ _ _) Hn). cbn [rbind].
    assert ((if allow_debug then Ok tt else reject_debug_pcrs (pcrs a)) = Ok tt) as ->
      by (destruct allow_debug; [done|]; by apply debug_iff, Hd).
    cbn [rbind]. by rewrite (proj2 (verify_pcrs_iff _ _) Hp).
Qed.

(** ** What an accepted document means *)

(** The trust in the root: the certificates that its CAs issue, and the
    payloads that the NSM attests.  A CA key signs only certificates that it
    issues; under the key of an issued certificate an envelope verifies only if
    its payload is genuine. *)
Record trusted_pki (root_der : bytes) (issued : X509Certificate -> Prop)
    (genuine : bytes -> Prop) : Prop := {
  pki_root c : from_der root_der = Some c -> issued c;
  pki_ca c s : issued c -> may_issue c -> signed_by c s -> issued s;
  pki_nsm c kb key g m s :
    issued c -> subject_public_key c = Some kb -> from_sec1_bytes kb = Some key ->
    into_writer (sig_value g) = Some m -> ecdsa_verify key m s = true ->
    exists g' body, into_writer (sig_value g') = Some m /\ payload g' = Some body /\ genuine body
}.

Section Trust.
Context {root_der : bytes} {issued : X509Certificate -> Prop} {genuine : bytes -> Prop}.
Context (pki : trusted_pki root_der issued genuine).

Lemma issued_chain chain : forall c leaf,
  linked (c :: chain ++ [leaf]) -> Forall may_issue (c :: chain) -> issued c -> issued leaf.
Proof.
  induction chain as [|d chain IH]; intros c leaf Hl Hm Hc; cbn [app] in Hl;
    apply linked_cons in Hl as [Hs Hl]; apply Forall_cons in Hm as [Hm Hr].
  - by apply (pki_ca _ _ _ pki c leaf).
  - apply (IH d leaf Hl Hr). by apply (pki_ca _ _ _ pki c d).
Qed.

(** Only payloads that the NSM attests are accepted. *)
Lemma attestation_genuine allow_debug doc e nonce at_ now a n :
  (forall t, now = Some t -> is_u64 t) ->
  verify_real_document allow_debug doc e nonce root_der at_ now = Ok (a, n) ->
  exists body, genuine body /\ document_from_reader body = Some a /\
    doc_nonce a = Some n /\ (forall x, nonce = Some x -> n = x) /\
    has_pcrs (pcrs a) e /\ (allow_debug = false -> ~ debug_pcrs (pcrs a)).
Proof.
  intros Hnow H. apply (verify_real_document_iff _ _ _ _ _ _ _ _ _ Hnow) in H
    as (cose & body & [_ [Hb _] _ Hd (t & iss & leaf & _ & [Hr Hi _ _ [Hl Hm _] Hs]) Hn Hg Hp]).
  exists body. split; [|tauto].
  destruct Hi as [|d c ds cs Hdc _]; [discriminate Hr|]. injection Hr as ->.
  assert (Hil : issued leaf).
  { apply (issued_chain cs c leaf); [exact Hl|done|]. by apply (pki_root _ _ _ pki). }
  destruct Hs as (_ & _ & kb & key & s & m & Hkb & Hk & _ & Hw & Hv).
  destruct (pki_nsm _ _ _ pki leaf kb key cose m s Hil Hkb Hk Hw Hv) as (g & b & Hg' & Hgb & Hgen).
  pose proof (into_writer_inj _ _ _ Hw Hg') as Heq. injection Heq as _ Heq.
  rewrite Hb, Hgb in Heq. cbn in Heq. by subst b.
Qed.

End Trust.
(** C9: the keyed entry point accepts exactly these documents: at most 64 KiB,
    a COSE_Sign1 under ES384 whose payload decodes, certificates that parse, are
    valid now within a minute and form an RFC 5280 path from the pinned root,
    an envelope signed with the leaf's key, the expected nonce where one is
    given, PCR0 to PCR2 as expected and not those of a debug enclave, and a
    public key.  It returns the fields of that payload. *)
Theorem verify_attestation_iff allow_debug root_der doc e nonce now v :
  (forall t, now = Some t -> is_u64 t) ->
  verify_attestation allow_debug root_der doc e nonce now = Ok v <->
  exists a cose body,
    accepted_document allow_debug doc e nonce root_der Now now a (va_nonce v) cose body /\
    public_key a = Some (enclave_pubkey v) /\ va_pcrs v = pcrs a /\
    va_timestamp v = timestamp a /\ va_user_data v = user_data a.
Proof.
  intros Hnow. unfold verify_attestation. rewrite rbind_ok. split.
  - intros ([a n] & H & Hi).
    apply (verify_real_document_iff _ _ _ _ _ _ _ _ _ Hnow) in H as (cose & body & Hd).
    unfold into_verified in Hi. destruct (public_key a) eqn:Ek; [|discriminate Hi].
    injection Hi as <-. by exists a, cose, body.
  - intros (a & cose & body & Hd & Hk & Hp & Ht & Hu). exists (a, va_nonce v). split.
    + apply verify_real_document_iff; [exact Hnow|]. by exists cose, body.
    + unfold into_verified. rewrite Hk. cbn [rbind]. rewrite <- Hp, <- Ht, <- Hu. by destruct v.
Qed.

End Chain.

(** ** The sample world obeys the laws *)

#[export] Instance sample_x509_laws : X509Laws (X := sample_x509).
Proof. split; [intros [] p [= <-]; vm_compute; split; congruence|]. intros c. vm_compute. repeat split; congruence. Qed.

#[export] Instance sample_ciborium_laws : CiboriumLaws (C := sample_ciborium).
Proof.
  split.
  - intros b a H. apply sample_read_body in H as (key & ud & n & ->). cbn. unfold is_u64. lia.
  - intros [p a s] [p' a' s'] m [= <-] H. injection H as H. cbn in H.
    change (foldr _ [x00] ?b) with (marked b) in H.
    apply marked_inj in H as [H1 H2]. unfold sig_value. cbn in *. congruence.
Qed.

Lemma sample_pki genuine :
  trusted_pki (P := sample_p384 genuine) sample_root (fun _ => True) (fun b => genuine b = true).
Proof.
  split; [done|done|]. intros c kb key g m s _ _ Hk Hw Hv. cbn in Hv. destruct key.
  - exfalso. apply bool_decide_eq_true in Hv. subst m. cbn in Hw. injection Hw as Hw.
    destruct (protected g); cbn in Hw; discriminate Hw.
  - exists {| protected := sample_header; payload := Some (drop 3 m); cose_signature := [] |}, (drop 3 m).
    repeat case_match; try discriminate. cbn. by repeat split.
Qed.

(** Everything that decodes is genuine. *)
Definition sample_all (body : bytes) : bool := bool_decide (is_Some (sample_read body)).

Definition sample_nonce : bytes := replicate 32 x07.

Definition sample_verified : VerifiedAttestation := {|
  enclave_pubkey := [xaa]; va_pcrs := sample_pcr_map; va_timestamp := 1700000000000;
  va_user_data := Some [xbb]; va_nonce := sample_nonce |}.

Lemma verify_attestation_iff_witness :
  exists a cose body, accepted_document (P := sample_p384 sample_all) false
    (sample_document [xaa] [xbb] sample_nonce) sample_own_pcrs (Some sample_nonce) sample_root Now
    (Some 1700000000) a sample_nonce cose body.
Proof.
  assert (Hnow : forall t, Some 1700000000 = Some t -> is_u64 t)
    by (intros t [= <-]; vm_compute; split; congruence).
  destruct (proj1 (verify_attestation_iff (P := sample_p384 sample_all) false sample_root
    (sample_document [xaa] [xbb] sample_nonce) sample_own_pcrs (Some sample_nonce)
    (Some 1700000000) sample_verified Hnow)) as (a & cose & body & H & _).
  - vm_compute. reflexivity.
  - exists a, cose, body. exact H.
Defined.
