(* ===== verification/Lengths.v ===== *)
(** * Length fields and slices of byte strings

    Shared by the RLP decoder and the BER converter: sub-slices, and the
    shortest big-endian form of a length. *)

From stdpp Require Import base numbers list.
From S2P Require Import Prelude.

#[local] Open Scope list_scope.
#[local] Open Scope Z_scope.

(** [&buf[lo..hi]] with [lo <= hi <= buf.len()]. *)
Definition slice (lo hi : Z) (buf : bytes) : bytes :=
  take (Z.to_nat (hi - lo)) (drop (Z.to_nat lo) buf).

(** The shortest big-endian form of a length. *)
Definition len_bytes (n : Z) : bytes := be_split (Z.to_nat (Z.log2 n / 8 + 1)) n.

Lemma be_combine_cons b bs : be_combine (b :: bs) = b2z b * 256 ^ zlen bs + be_combine bs.
Proof.
  induction bs as [|c bs IH] using rev_ind.
  { change (be_combine [b]) with (0 * 256 + b2z b). change (be_combine []) with 0.
    change (zlen (@nil byte)) with 0. lia. }
  rewrite app_comm_cons, !be_combine_snoc, IH, zlen_app. change (zlen [c]) with 1.
  rewrite Z.pow_add_r by (pose proof (zlen_nonneg bs); lia). lia.
Qed.

(** The number of bytes of a length. *)
Lemma be_combine_zeros k rest : be_combine (replicate k x00 ++ rest) = be_combine rest.
Proof.
  induction k as [|k IH]; [done|]. cbn [replicate app]. rewrite be_combine_cons, IH.
  change (b2z x00) with 0. lia.
Qed.

Lemma log2_bytes n k : 0 <= k -> 256 ^ k <= n < 256 ^ (k + 1) -> Z.log2 n / 8 = k.
Proof.
  intros Hk [H1 H2]. change 256 with (2 ^ 8) in *. rewrite <- !Z.pow_mul_r in * by lia.
  assert (0 < n) by (pose proof (Z.pow_pos_nonneg 2 (8 * k)); lia).
  apply Z.log2_le_pow2 in H1; [|lia]. apply Z.log2_lt_pow2 in H2; [|lia].
  symmetry. apply (Z.div_unique _ _ _ (Z.log2 n - 8 * k)); lia.
Qed.

Lemma len_bytes_gen m n :
  0 <= m -> 0 < n < 256 ^ m ->
  1 <= zlen (len_bytes n) <= m /\ be_combine (len_bytes n) = n /\
  head (len_bytes n) <> Some x00.
Proof.
  intros Hm Hn. set (k := Z.log2 n / 8).
  assert (Hl : 0 <= Z.log2 n < 8 * m).
  { split; [apply Z.log2_nonneg|]. apply Z.log2_lt_pow2; [lia|].
    rewrite Z.pow_mul_r by lia. apply Hn. }
  assert (Hk : 0 <= k < m) by (unfold k; split; [apply Z.div_pos; lia|apply Z.div_lt_upper_bound; lia]).
  assert (Hz : zlen (len_bytes n) = k + 1).
  { unfold zlen, len_bytes. rewrite be_split_length. unfold k in *. lia. }
  assert (Hlog : 8 * k <= Z.log2 n < 8 * (k + 1)).
  { unfold k. pose proof (Z.div_mod (Z.log2 n) 8). pose proof (Z.mod_pos_bound (Z.log2 n) 8). lia. }
  assert (Hlo : 256 ^ k <= n).
  { change 256 with (2 ^ 8). rewrite <- Z.pow_mul_r by lia. apply Z.log2_le_pow2; lia. }
  assert (Hhi : n < 256 ^ (k + 1)).
  { change 256 with (2 ^ 8). rewrite <- Z.pow_mul_r by lia. apply Z.log2_lt_pow2; lia. }
  assert (Hc : be_combine (len_bytes n) = n).
  { unfold len_bytes. fold k. apply be_combine_split. rewrite Z2Nat.id by lia. lia. }
  split; [lia|]. split; [done|]. intros Hh. destruct (len_bytes n) as [|b bs]; [done|].
  injection Hh as ->. rewrite be_combine_cons in Hc. change (b2z x00) with 0 in Hc.
  rewrite zlen_cons in Hz. pose proof (be_combine_bound bs).
  replace (zlen bs) with k in * by lia. lia.
Qed.

(** A length without a leading zero is the shortest one. *)
Lemma len_bytes_unique bs :
  bs <> [] -> head bs <> Some x00 -> len_bytes (be_combine bs) = bs.
Proof.
  intros Hne Hh. destruct bs as [|b bs]; [done|].
  assert (Hb : 1 <= b2z b).
  { pose proof (b2z_range b). destruct (decide (b2z b = 0)) as [E|]; [|lia].
    exfalso. apply Hh. cbn. f_equal. by apply b2z_inj. }
  pose proof (be_combine_bound bs). pose proof (be_combine_bound (b :: bs)).
  pose proof (zlen_nonneg bs).
  unfold len_bytes. rewrite (log2_bytes _ (zlen bs)).
  - replace (Z.to_nat (zlen bs + 1)) with (length (b :: bs)) by (unfold zlen; cbn; lia).
    apply be_split_combine.
  - done.
  - rewrite zlen_cons in *. rewrite be_combine_cons in *.
    replace (zlen bs + 1) with (1 + zlen bs) by lia. nia.
Qed.

Lemma zlen_take {A} (l : list A) n : 0 <= n <= zlen l -> zlen (take (Z.to_nat n) l) = n.
Proof. unfold zlen. intros H. rewrite length_take. lia. Qed.

Lemma zlen_drop {A} (l : list A) n : 0 <= n <= zlen l -> zlen (drop (Z.to_nat n) l) = zlen l - n.
Proof. unfold zlen. intros H. rewrite length_drop. lia. Qed.

Lemma slice_app (h t : bytes) lo n :
  zlen h = lo -> slice lo (lo + n) (h ++ t) = take (Z.to_nat n) t.
Proof.
  intros <-. unfold slice. replace (zlen h + n - zlen h) with n by lia.
  unfold zlen. by rewrite Nat2Z.id, drop_app_length.
Qed.

Lemma z2b_b2z_eq b z : b2z b = z -> z2b z = b.
Proof. intros <-. apply z2b_b2z. Qed.

(** Disjoint bits: [or] is addition. *)
Lemma lor_disjoint a b k : 0 <= k -> 0 <= a < 2 ^ k -> Z.lor a (Z.shiftl b k) = a + b * 2 ^ k.
Proof.
  intros Hk Ha. rewrite Z.shiftl_mul_pow2 by done.
  destruct (Z.eq_dec a 0) as [->|Hne]; [by rewrite Z.lor_0_l|]. rewrite <- Z.add_lor_land.
  assert (Z.land a (b * 2 ^ k) = 0) as ->; [|lia].
  apply Z.bits_inj'. intros n Hn. rewrite Z.land_spec, Z.bits_0.
  destruct (Z.lt_ge_cases n k).
  - by rewrite (Z.mul_pow2_bits_low b k n), andb_false_r.
  - rewrite (Z.bits_above_log2 a n), andb_false_l; [done|lia|].
    apply Z.log2_lt_pow2; [lia|].
    apply Z.lt_le_trans with (2 ^ k); [lia|]. apply Z.pow_le_mono_r; lia.
Qed.

Lemma le_combine_rev bs : le_combine (rev bs) = be_combine bs.
Proof.
  induction bs as [|b bs IH] using rev_ind; [done|].
  rewrite rev_unit, be_combine_snoc, <- IH. cbn [le_combine]. lia.
Qed.
