(* ===== verification/Framing.v ===== *)
(** * Frames and the request shape check
      (src/enclave/src/framing.rs, src/enclave/src/memory.rs,
       src/parent/src/framing.rs, src/parent/src/request_shape.rs)

    Length-prefixed frames, and the walk that counts the protobuf field
    occurrences of a request before it is decoded.  The enclave and the parent
    run the same walk over their own schema, so it is written once over a
    [WireSchema].  A stream is the list of the bytes it will still deliver; a
    read past its end is an I/O error. *)

From stdpp Require Import base numbers list strings.
From S2P Require Import Prelude Errors Lengths.

#[local] Open Scope list_scope.
#[local] Open Scope Z_scope.

(** ** prost

    The three readers of [prost::encoding] that the walk calls.  Each one
    advances its buffer: it returns the value and the bytes left.  [None] is a
    [DecodeError]. *)
Class Prost : Type := {
  WireType : Type;
  length_delimited : WireType -> bool;
  decode_key : bytes -> option (Z * WireType * bytes);
  decode_varint : bytes -> option (Z * bytes);
  skip_field : WireType -> Z -> bytes -> option bytes
}.

(** What the readers do to the buffer: a key and a varint take at least one
    byte from its front, a field value some bytes; a varint is a [u64]. *)
Class ProstLaws (P : Prost) : Prop := {
  decode_key_advances buf tag w rest :
    decode_key buf = Some (tag, w, rest) -> exists used, buf = used ++ rest /\ used <> [];
  decode_varint_advances buf v rest :
    decode_varint buf = Some (v, rest) -> (exists used, buf = used ++ rest /\ used <> []) /\ is_u64 v;
  skip_field_advances w tag buf rest :
    skip_field w tag buf = Some rest -> exists used, buf = used ++ rest
}.

(** A request schema: the message a field of a message holds, and which
    messages the walk does not enter. *)
Class WireSchema (S : Type) : Type := {
  schema_child : S -> Z -> S;
  schema_is_leaf : S -> bool;
  schema_rank : S -> nat
}.

(** The messages form no cycle. *)
Class SchemaLaws (S : Type) `{WireSchema S} : Prop := {
  child_rank s tag :
    schema_is_leaf (schema_child s tag) = false -> (schema_rank (schema_child s tag) < schema_rank s)%nat
}.

(** ** The walk *)

Section Walk.
Context `{P : Prost} {S : Type} `{WireSchema S} {E : Type}.
(** The refusals: a [DecodeError], too many elements, a truncated message. *)
Context (shape_error too_many truncated : E).

(** [walk]: the elements left after [buf].  [fuel] is at least the length of
    [buf]: every field takes at least one byte. *)
Fixpoint walk (fuel : nat) (buf : bytes) (schema : S) (left : Z) : res E Z :=
  match buf with
  | [] => Ok left
  | _ :: _ =>
      match fuel with
      | O => Panic
      | Datatypes.S fuel =>
          let? (tag, wire_type, buf) := ok_or (decode_key buf) shape_error in
          let? left := if left <? 1 then Err too_many else Ok (left - 1) in
          let child := schema_child schema tag in
          if schema_is_leaf child || negb (length_delimited wire_type) then
            let? buf := ok_or (skip_field wire_type tag buf) shape_error in
            walk fuel buf schema left
          else
            let? (len, buf) := ok_or (decode_varint buf) shape_error in
            if zlen buf <? len then Err truncated
            else
              let? left := walk fuel (take (Z.to_nat len) buf) child left in
              walk fuel (drop (Z.to_nat len) buf) schema left
      end
  end.

(** The field occurrences of a message: [fields d s buf n] when [buf] is a
    sequence of fields of the message [s], nested at most [d] messages deep,
    with [n] occurrences in all. *)
Inductive fields : nat -> S -> bytes -> Z -> Prop :=
| fields_end d s : fields d s [] 0
| fields_skipped d s buf tag w buf1 buf2 n :
    decode_key buf = Some (tag, w, buf1) ->
    schema_is_leaf (schema_child s tag) = true \/ length_delimited w = false ->
    skip_field w tag buf1 = Some buf2 ->
    fields d s buf2 n -> fields d s buf (1 + n)
| fields_entered d d' s buf tag w buf1 len body rest m n :
    decode_key buf = Some (tag, w, buf1) ->
    schema_is_leaf (schema_child s tag) = false -> length_delimited w = true ->
    decode_varint buf1 = Some (len, body ++ rest) -> zlen body = len -> (d' < d)%nat ->
    fields d' (schema_child s tag) body m -> fields d s rest n -> fields d s buf (1 + m + n).

Context `{!ProstLaws P} `{!SchemaLaws S}.

Lemma fields_nonneg d s buf n : fields d s buf n -> 0 <= n.
Proof. induction 1; lia. Qed.

Lemma decode_key_nil tag w rest : decode_key [] = Some (tag, w, rest) -> False.
Proof. intros Hk. apply decode_key_advances in Hk as ([|? ?] & ? & ?); done. Qed.

Lemma walk_sound fuel : forall buf s left,
  (length buf < fuel)%nat ->
  walk fuel buf s left <> Panic /\
  forall left', walk fuel buf s left = Ok left' ->
    exists n, fields (schema_rank s) s buf n /\ left' = left - n /\ (0 < n -> 0 <= left').
Proof.
  induction fuel as [|fuel IH]; intros buf s left Hf; [lia|].
  destruct buf as [|b tl]; cbn [walk].
  { split; [done|]. intros ? [= <-]. exists 0. split; [constructor|lia]. }
  destruct (decode_key (b :: tl)) as [[[tag w] buf]|] eqn:Ek; [|done]. cbn [ok_or rbind].
  destruct (left <? 1) eqn:El; [done|]. zbool. cbn [rbind].
  pose proof Ek as (u1 & Eu & Hu)%decode_key_advances.
  assert (Hl1 : (length buf < length (b :: tl))%nat)
    by (rewrite Eu, length_app; destruct u1; [done|cbn; lia]).
  destruct (schema_is_leaf _ || _) eqn:Ec.
  - destruct (skip_field w tag buf) as [buf2|] eqn:Es; [|done]. cbn [ok_or rbind].
    pose proof Es as (u2 & Eu2)%skip_field_advances.
    assert (length buf2 <= length buf)%nat by (rewrite Eu2, length_app; lia).
    destruct (IH buf2 s (left - 1)) as [Hp Hok]; [lia|]. split; [done|]. intros left' Hw.
    destruct (Hok _ Hw) as (n & Hn & -> & Hpos). exists (1 + n). pose proof (fields_nonneg _ _ _ _ Hn).
    split; [|lia]. eapply fields_skipped; [done| |done|done].
    apply orb_true_iff in Ec as [?|?]; [by left|right]. by apply negb_true_iff.
  - apply orb_false_iff in Ec as [Ec Ed]. apply negb_false_iff in Ed.
    destruct (decode_varint buf) as [[len buf2]|] eqn:Ev; [|done]. cbn [ok_or rbind].
    pose proof Ev as ((u2 & Eu2 & _) & Hlen)%decode_varint_advances.
    destruct (zlen buf2 <? len) eqn:Et; [done|]. zbool. unfold is_u64 in Hlen.
    assert (length buf2 <= length buf)%nat by (rewrite Eu2, length_app; lia).
    assert (Hb : zlen (take (Z.to_nat len) buf2) = len) by (apply zlen_take; lia).
    destruct (IH (take (Z.to_nat len) buf2) (schema_child s tag) (left - 1)) as [Hp Hok];
      [rewrite length_take; lia|].
    destruct (walk fuel (take _ _) _ _) as [left1| |]; [|done|done]. cbn [rbind].
    destruct (IH (drop (Z.to_nat len) buf2) s left1) as [Hp2 Hok2]; [rewrite length_drop; lia|].
    split; [done|]. intros left' Hw. destruct (Hok _ eq_refl) as (m & Hm & -> & Hpos).
    destruct (Hok2 _ Hw) as (n & Hn & -> & Hpos2). exists (1 + m + n).
    pose proof (fields_nonneg _ _ _ _ Hm). pose proof (fields_nonneg _ _ _ _ Hn).
    split; [|lia]. eapply fields_entered; try done; [by rewrite take_drop|by apply child_rank].
Qed.

Lemma walk_complete d s buf n : fields d s buf n -> forall fuel left,
  (length buf < fuel)%nat -> n <= left -> walk fuel buf s left = Ok (left - n).
Proof.
  induction 1 as [d s|d s buf tag w buf1 buf2 n Hk Hs Hskip Hf IH
    |d d' s buf tag w buf1 len body rest m n Hk Hs Hd Hv Hl _ Hf1 IH1 Hf2 IH2];
    intros [|fuel] left Hfuel Hn; try lia; cbn [walk].
  { f_equal. lia. }
  all: destruct buf as [|b tl]; [by apply decode_key_nil in Hk|]; rewrite Hk; cbn [ok_or rbind].
  all: pose proof Hk as (u1 & Eu & Hu)%decode_key_advances.
  all: assert (Hl1 : (length buf1 < length (b :: tl))%nat)
    by (rewrite Eu, length_app; destruct u1; [done|cbn; lia]).
  - pose proof (fields_nonneg _ _ _ _ Hf). rewrite (proj2 (Z.ltb_ge _ _)) by lia. cbn [rbind].
    assert (schema_is_leaf (schema_child s tag) || negb (length_delimited w) = true) as ->.
    { destruct Hs as [->| ->]; [done|]. by rewrite orb_true_r. }
    rewrite Hskip. cbn [ok_or rbind]. pose proof Hskip as (u2 & Eu2)%skip_field_advances.
    assert (length buf2 <= length buf1)%nat by (rewrite Eu2, length_app; lia).
    rewrite IH by lia. f_equal. lia.
  - pose proof (fields_nonneg _ _ _ _ Hf1). pose proof (fields_nonneg _ _ _ _ Hf2).
    rewrite (proj2 (Z.ltb_ge _ _)) by lia. cbn [rbind]. rewrite Hs, Hd, Hv. cbn [orb negb ok_or rbind].
    pose proof Hv as ((u2 & Eu2 & _) & _)%decode_varint_advances.
    rewrite (proj2 (Z.ltb_ge _ _)) by (rewrite zlen_app; pose proof (zlen_nonneg rest); lia).
    assert (Z.to_nat len = length body) as -> by (unfold zlen in Hl; lia).
    rewrite take_app_length, drop_app_length.
    apply (f_equal length) in Eu2. rewrite !length_app in Eu2.
    rewrite IH1 by lia. cbn [rbind]. rewrite IH2 by lia. f_equal. lia.
Qed.

(** The walk accepts exactly the messages with at most [left] occurrences. *)
Lemma walk_iff buf s left left' :
  0 <= left ->
  walk (Datatypes.S (length buf)) buf s left = Ok left' <->
  exists n, fields (schema_rank s) s buf n /\ n <= left /\ left' = left - n.
Proof.
  intros Hl. split.
  - intros Hw. apply walk_sound in Hw as (n & Hn & -> & Hp); [|lia]. exists n. split; [done|].
    pose proof (fields_nonneg _ _ _ _ Hn). lia.
  - intros (n & Hn & Hle & ->). eapply walk_complete; [done|lia|done].
Qed.

Lemma walk_total buf s left : walk (Datatypes.S (length buf)) buf s left <> Panic.
Proof. apply walk_sound. lia. Qed.
End Walk.

(** ** Frames *)

Definition MAX_MESSAGE_SIZE : Z := 24 * 1024 * 1024.

(** [u32::to_le_bytes]. *)
Definition to_le_bytes (n : nat) (z : Z) : bytes := rev (be_split n z).

(** [Read::read_exact] into a buffer of [n] bytes. *)
Definition read_exact (n : Z) (stream : bytes) : option (bytes * bytes) :=
  if zlen stream <? n then None
  else Some (take (Z.to_nat n) stream, drop (Z.to_nat n) stream).

Section Frames.
Context {E : Type} (io : E) (framing : string -> E).

(** [read_frame] (in the parent, the first half of [read_message]). *)
Definition read_frame (stream : bytes) : res E (bytes * bytes) :=
  let? (len_buf, stream) := ok_or (read_exact 4 stream) io in
  let len := le_combine len_buf in
  if len =? 0 then Err (framing "zero-length message")
  else if MAX_MESSAGE_SIZE <? len then Err (framing "message too large")
  else ok_or (read_exact len stream) io.

(** The bytes [write_message] sends for an encoded message. *)
Definition write_message (buf : bytes) : bytes :=
  let len := wrap32 (zlen buf) in to_le_bytes 4 len ++ buf.

Context {M : Type} (decode : bytes -> option M) (protobuf : E).

(** [read_message]. *)
Definition read_message (stream : bytes) : res E (M * bytes) :=
  let? (buf, stream) := read_frame stream in
  let? msg := ok_or (decode buf) protobuf in
  Ok (msg, stream).
End Frames.

Lemma to_le_bytes_combine n z :
  0 <= z < 256 ^ Z.of_nat n -> le_combine (to_le_bytes n z) = z.
Proof. intros Hz. unfold to_le_bytes. rewrite le_combine_rev. by apply be_combine_split. Qed.

Lemma to_le_bytes_zlen n z : zlen (to_le_bytes n z) = Z.of_nat n.
Proof. unfold zlen, to_le_bytes. by rewrite length_rev, be_split_length. Qed.

Lemma le_combine_inj bs : to_le_bytes (length bs) (le_combine bs) = bs.
Proof.
  unfold to_le_bytes. rewrite <- (rev_involutive bs) at 1 2. rewrite length_rev, le_combine_rev.
  rewrite be_split_combine. apply rev_involutive.
Qed.

Lemma read_exact_iff n stream a b :
  0 <= n -> read_exact n stream = Some (a, b) <-> stream = a ++ b /\ zlen a = n.
Proof.
  intros Hn. unfold read_exact. destruct (zlen stream <? n) eqn:E; zbool.
  - split; [done|]. intros [-> <-]. rewrite zlen_app in E. pose proof (zlen_nonneg b). lia.
  - split.
    + intros [= <- <-]. split; [by rewrite take_drop|apply zlen_take; lia].
    + intros [-> <-]. unfold zlen. by rewrite Nat2Z.id, take_app_length, drop_app_length.
Qed.

(** A reader gets a frame exactly when a writer sent one of a size it takes. *)
Lemma read_frame_iff {E} (io : E) framing stream buf rest :
  read_frame io framing stream = Ok (buf, rest) <->
  stream = write_message buf ++ rest /\ 0 < zlen buf <= MAX_MESSAGE_SIZE.
Proof.
  unfold read_frame, write_message. split.
  - intros H. apply rbind_ok in H as ([lb s] & H1 & H).
    destruct (read_exact 4 stream) as [[lb' s']|] eqn:E1; [|done]. injection H1 as -> ->.
    apply read_exact_iff in E1 as [-> Hlb]; [|lia].
    destruct (_ =? 0) eqn:E2; [done|]. destruct (MAX_MESSAGE_SIZE <? _) eqn:E3; [done|]. zbool.
    destruct (read_exact (le_combine lb) s) as [[b r]|] eqn:E4; [|done]. injection H as -> ->.
    assert (Hlen : length lb = 4%nat) by (unfold zlen in Hlb; lia).
    assert (Hb : 0 <= le_combine lb).
    { rewrite <- (rev_involutive lb), le_combine_rev. apply be_combine_bound. }
    apply read_exact_iff in E4 as [-> Hz]; [|done]. unfold MAX_MESSAGE_SIZE in *.
    split; [|lia]. rewrite Hz, wrap32_small by (unfold is_u32; lia).
    rewrite <- Hlen, le_combine_inj. by rewrite app_assoc.
  - intros [-> Hz]. unfold MAX_MESSAGE_SIZE in *.
    rewrite wrap32_small by (unfold is_u32; lia). rewrite <- app_assoc.
    rewrite (proj2 (read_exact_iff 4 _ (to_le_bytes 4 (zlen buf)) (buf ++ rest) ltac:(lia)))
      by (split; [done|apply to_le_bytes_zlen]).
    cbn [ok_or rbind]. rewrite to_le_bytes_combine by (change (256 ^ Z.of_nat 4) with (2 ^ 32); lia).
    rewrite (proj2 (Z.eqb_neq _ _)), (proj2 (Z.ltb_ge _ _)) by lia.
    by rewrite (proj2 (read_exact_iff (zlen buf) _ buf rest ltac:(lia))).
Qed.

Lemma read_frame_total {E} (io : E) framing stream : read_frame io framing stream <> Panic.
Proof.
  unfold read_frame. destruct (read_exact 4 stream) as [[lb s]|]; [|done]. cbn [ok_or rbind].
  repeat case_match; try done. by destruct (read_exact _ s).
Qed.

(** ** The enclave *)

Module Enclave.

Inductive Schema : Type := Request | Sign | RgbSource | MerkleProofEntry | SubmitHeaders | Leaf.

Definition child (s : Schema) (tag : Z) : Schema :=
  match s with
  | Request => if tag =? 3 then Sign else if tag =? 11 then SubmitHeaders else Leaf
  | Sign => if tag =? 3 then RgbSource else Leaf
  | RgbSource => if tag =? 6 then MerkleProofEntry else Leaf
  | _ => Leaf
  end.

#[global] Instance schema : WireSchema Schema := {
  schema_child := child;
  schema_is_leaf s := match s with Leaf => true | _ => false end;
  schema_rank s :=
    match s with Request => 3 | Sign => 2 | RgbSource => 1 | _ => 0 end%nat
}.

#[global] Instance schema_laws : SchemaLaws Schema.
Proof.
  split. intros [] tag; cbn; repeat case_match; cbn; intros; (done || lia).
Qed.

Definition MAX_WIRE_ELEMENTS : Z := Z.shiftl 1 19.

Section Requests.
Context `{P : Prost}.

Definition count_request_elements (frame : bytes) : enclave_result Z :=
  let? rest := walk (Framing "request shape: decode") (Framing "request has too many elements")
                 (Framing "request shape: nested message truncated")
                 (S (length frame)) frame Request MAX_WIRE_ELEMENTS in
  Ok (MAX_WIRE_ELEMENTS - rest).

Definition check_request_shape (frame : bytes) : enclave_result unit :=
  let? _ := count_request_elements frame in Ok tt.

Context {M : Type} (decode : bytes -> option M).

Definition read_request (stream : bytes) : enclave_result (M * bytes) :=
  let? (buf, stream) := read_frame Io Framing stream in
  let? _ := check_request_shape buf in
  let? msg := ok_or (decode buf) ProtobufDecode in
  Ok (msg, stream).

Context `{!ProstLaws P}.

Lemma count_request_elements_iff frame n :
  count_request_elements frame = Ok n <->
  fields 3 Request frame n /\ n <= MAX_WIRE_ELEMENTS.
Proof.
  unfold count_request_elements. rewrite rbind_ok. split.
  - intros (rest & Hw & [= <-]).
    destruct (proj1 (walk_iff _ _ _ frame Request MAX_WIRE_ELEMENTS rest ltac:(done)) Hw)
      as (m & Hm & Hle & ->).
    replace (MAX_WIRE_ELEMENTS - (MAX_WIRE_ELEMENTS - m)) with m by lia. done.
  - intros [Hn Hle]. exists (MAX_WIRE_ELEMENTS - n). split; [|f_equal; lia].
    apply (proj2 (walk_iff _ _ _ frame Request MAX_WIRE_ELEMENTS _ ltac:(done))). by exists n.
Qed.

Lemma count_request_elements_total frame : count_request_elements frame <> Panic.
Proof.
  unfold count_request_elements.
  pose proof (walk_total (Framing "request shape: decode") (Framing "request has too many elements")
                 (Framing "request shape: nested message truncated") frame Request MAX_WIRE_ELEMENTS).
  by destruct (walk _ _ _ _ _ _ _).
Qed.
End Requests.
End Enclave.

(** ** The request memory model (src/enclave/src/memory.rs) *)

Module Memory.
Import Enclave.

Definition WORKER_THREADS : Z := 4.
Definition REQUEST_MEMORY_FACTOR : Z := 24.
Definition WIRE_ELEMENT_BYTES : Z := 128.
Definition ELEMENTS_BYTES : Z := MAX_WIRE_ELEMENTS * WIRE_ELEMENT_BYTES.
Definition request_bound (frame : Z) : Z := REQUEST_MEMORY_FACTOR * frame + ELEMENTS_BYTES.
Definition BASELINE_BYTES : Z := 512 * 1024 * 1024.
Definition MIN_ENCLAVE_MEMORY_BYTES : Z :=
  BASELINE_BYTES + WORKER_THREADS * request_bound MAX_MESSAGE_SIZE.
Definition RUN_ENCLAVE_MEMORY_MIB : Z := 4096.

(** [check]: the boot check for a known total ([None] when it is unreadable). *)
Definition check (total : option Z) (debug_or_test : bool) : res string unit :=
  let refuse problem := if debug_or_test then Ok tt else Err problem in
  match total with
  | Some total =>
      if MIN_ENCLAVE_MEMORY_BYTES <=? total then Ok tt
      else refuse "enclave has too little usable memory"
  | None => refuse "total memory unknown"
  end.

Lemma check_release total : check total false = Ok tt ->
  exists t, total = Some t /\ MIN_ENCLAVE_MEMORY_BYTES <= t.
Proof.
  unfold check. destruct total as [t|]; [|done]. destruct (_ <=? t) eqn:E; [|done].
  intros _. exists t. by zbool.
Qed.
End Memory.

(** ** The parent *)

Module Parent.

Inductive Schema : Type := Sign | SourceProof | RgbSource | MerkleProofEntry | Leaf.

Definition for_method (method : string) : Schema := if String.eqb method "Sign" then Sign else Leaf.

Definition child (s : Schema) (tag : Z) : Schema :=
  match s with
  | Sign => if tag =? 2 then SourceProof else Leaf
  | SourceProof => if tag =? 11 then RgbSource else Leaf
  | RgbSource => if tag =? 5 then MerkleProofEntry else Leaf
  | _ => Leaf
  end.

#[global] Instance schema : WireSchema Schema := {
  schema_child := child;
  schema_is_leaf s := match s with Leaf => true | _ => false end;
  schema_rank s := match s with Sign => 3 | SourceProof => 2 | RgbSource => 1 | _ => 0 end%nat
}.

#[global] Instance schema_laws : SchemaLaws Schema.
Proof.
  split. intros [] tag; cbn; repeat case_match; cbn; intros; (done || lia).
Qed.

(** [tonic::Status]: the code and the fixed text. *)
Inductive Status : Type :=
| InvalidArgument (m : string)
| ResourceExhausted (m : string)
| Unimplemented (m : string).

Definition MAX_WIRE_ELEMENTS : Z := Z.shiftl 1 19.
Definition MAX_OTHER_MESSAGE_SIZE : Z := 256 * 1024.
Definition GRPC_PREFIX : Z := 5.

Section Requests.
Context `{P : Prost}.

Definition count_request_elements (method : string) (message : bytes) : res Status Z :=
  let? rest := walk (InvalidArgument "request shape: decode")
                 (InvalidArgument "request has too many elements")
                 (InvalidArgument "request shape: nested message truncated")
                 (S (length message)) message (for_method method) MAX_WIRE_ELEMENTS in
  Ok (MAX_WIRE_ELEMENTS - rest).

(** [checked_body] of a body that the connection delivers in full; [Limited]
    fails past its limit. *)
Definition checked_body (method : string) (body : bytes) : res Status bytes :=
  let message := if String.eqb method "Sign" then MAX_MESSAGE_SIZE else MAX_OTHER_MESSAGE_SIZE in
  let limit := message + GRPC_PREFIX in
  if limit <? zlen body then Err (ResourceExhausted "request body is larger than the limit")
  else if zlen body <? GRPC_PREFIX then Err (InvalidArgument "request has no gRPC message")
  else
    let? flag := expect (head body) in
    if negb (b2z flag =? 0) then Err (Unimplemented "compressed requests are not accepted")
    else
      let len := be_combine (slice 1 GRPC_PREFIX body) in
      if negb (zlen body =? GRPC_PREFIX + len) then
        Err (InvalidArgument "request must hold exactly one gRPC message")
      else
        let? _ := count_request_elements method (drop (Z.to_nat GRPC_PREFIX) body) in
        Ok body.

Context `{!ProstLaws P}.

Lemma count_parent_elements_iff method message n :
  count_request_elements method message = Ok n <->
  fields (schema_rank (for_method method)) (for_method method) message n /\ n <= MAX_WIRE_ELEMENTS.
Proof.
  unfold count_request_elements. rewrite rbind_ok. split.
  - intros (rest & Hw & [= <-]).
    destruct (proj1 (walk_iff _ _ _ message (for_method method) MAX_WIRE_ELEMENTS rest ltac:(done)) Hw)
      as (m & Hm & Hle & ->).
    replace (MAX_WIRE_ELEMENTS - (MAX_WIRE_ELEMENTS - m)) with m by lia. done.
  - intros [Hn Hle]. exists (MAX_WIRE_ELEMENTS - n). split; [|f_equal; lia].
    apply (proj2 (walk_iff _ _ _ message (for_method method) MAX_WIRE_ELEMENTS _ ltac:(done))). by exists n.
Qed.

(** The bodies the layer passes on: one uncompressed message of bounded size
    and shape, unchanged. *)
Lemma checked_body_iff method body out :
  checked_body method body = Ok out <->
  out = body /\
  exists message n, body = x00 :: be_split 4 (zlen message) ++ message /\
    zlen message <= (if String.eqb method "Sign" then MAX_MESSAGE_SIZE else MAX_OTHER_MESSAGE_SIZE) /\
    fields (schema_rank (for_method method)) (for_method method) message n /\ n <= MAX_WIRE_ELEMENTS.
Proof.
  unfold checked_body. set (limit := if String.eqb method "Sign" then _ else _).
  assert (Hlim : limit <= 2 ^ 25) by (unfold limit; by destruct (String.eqb _ _)).
  unfold GRPC_PREFIX. split.
  - destruct (_ <? zlen body) eqn:E1; [done|]. destruct (zlen body <? 5) eqn:E2; [done|]. zbool.
    intros H. apply rbind_ok in H as (flag & Hf & H).
    destruct (negb (b2z flag =? 0)) eqn:E3; [done|]. zbool. apply (b2z_inj flag x00) in E3 as ->.
    destruct body as [|b body]; [done|]. injection Hf as ->. rewrite zlen_cons in *.
    destruct (negb _) eqn:E4; [done|]. zbool. apply rbind_ok in H as (n & Hn & [= <-]).
    apply count_parent_elements_iff in Hn as [Hn Hle]. split; [done|].
    change (drop (Z.to_nat 5) (x00 :: body)) with (drop 4 body) in Hn.
    change (slice 1 5 (x00 :: body)) with (take 4 body) in E4.
    assert (Hz : zlen (take 4 body) = 4) by (apply (zlen_take body 4); lia).
    assert (Hz' : zlen (drop 4 body) = zlen body - 4) by (apply (zlen_drop body 4); lia).
    exists (drop 4 body), n. split_and!; try done; [|lia].
    rewrite Hz'. replace (zlen body - 4) with (be_combine (take 4 body)) by lia.
    assert (4%nat = length (take 4 body)) as E5 by (unfold zlen in Hz; lia).
    rewrite E5 at 1. by rewrite be_split_combine, take_drop.
  - intros [-> (message & n & -> & Hz & Hn & Hle)].
    assert (Hl4 : length (be_split 4 (zlen message)) = 4%nat) by apply be_split_length.
    assert (Hs : zlen (be_split 4 (zlen message)) = 4) by (unfold zlen at 1; by rewrite Hl4).
    pose proof (zlen_nonneg message). rewrite zlen_cons, zlen_app, Hs.
    rewrite !(proj2 (Z.ltb_ge _ _)) by lia. cbn [head expect rbind negb]. cbn [b2z].
    change (b2z x00 =? 0) with true. cbn [negb].
    change (slice 1 5 (x00 :: be_split 4 (zlen message) ++ message))
      with (take 4 (be_split 4 (zlen message) ++ message)).
    change (drop (Z.to_nat 5) (x00 :: be_split 4 (zlen message) ++ message))
      with (drop 4 (be_split 4 (zlen message) ++ message)).
    assert (take 4 (be_split 4 (zlen message) ++ message) = be_split 4 (zlen message)) as ->
      by (rewrite take_app_le by lia; apply take_ge; lia).
    assert (drop 4 (be_split 4 (zlen message) ++ message) = message) as ->
      by by rewrite drop_app_ge, Hl4, Nat.sub_diag by lia.
    rewrite be_combine_split by (change (256 ^ Z.of_nat 4) with (2 ^ 32); lia).
    rewrite (proj2 (Z.eqb_eq _ _)) by lia. cbn [negb].
    by rewrite (proj2 (count_parent_elements_iff method message n)).
Qed.
End Requests.
End Parent.

(** ** A reader of the wire format

    A concrete instance of [Prost] for fields without groups, to evaluate the
    definitions above. *)

Fixpoint varint (n : nat) (buf : bytes) : option (Z * bytes) :=
  match n, buf with
  | S n, b :: buf =>
      if b2z b <? 0x80 then Some (b2z b, buf)
      else '(v, rest) ← varint n buf; Some (b2z b - 0x80 + 128 * v, rest)
  | _, _ => None
  end.

Definition varint64 (buf : bytes) : option (Z * bytes) :=
  '(v, rest) ← varint 10 buf; if u64_max <? v then None else Some (v, rest).

#[local] Instance sample_prost : Prost := {
  WireType := Z;
  length_delimited w := w =? 2;
  decode_key buf := '(k, rest) ← varint64 buf; Some (k / 8, k mod 8, rest);
  decode_varint := varint64;
  skip_field w tag buf :=
    if w =? 0 then '(_, rest) ← varint64 buf; Some rest
    else if w =? 2 then
      '(len, rest) ← varint64 buf;
      if zlen rest <? len then None else Some (drop (Z.to_nat len) rest)
    else None
}.

Lemma varint_advances n : forall buf v rest, varint n buf = Some (v, rest) ->
  0 <= v /\ exists used, buf = used ++ rest /\ used <> [].
Proof.
  induction n as [|n IH]; intros [|b buf] v rest H; try done. cbn [varint] in H.
  pose proof (b2z_range b). destruct (b2z b <? 0x80) eqn:E; zbool.
  - injection H as <- <-. split; [lia|]. by exists [b].
  - destruct (varint n buf) as [[v' rest']|] eqn:Ev; [|done]. injection H as <- <-.
    destruct (IH _ _ _ Ev) as (Hv & used & -> & _). split; [lia|]. by exists (b :: used).
Qed.

Lemma varint64_advances buf v rest : varint64 buf = Some (v, rest) ->
  (exists used, buf = used ++ rest /\ used <> []) /\ is_u64 v.
Proof.
  unfold varint64. destruct (varint 10 buf) as [[v' rest']|] eqn:E; [|done]. cbn.
  destruct (u64_max <? v') eqn:Eu; [done|]. intros [= <- <-]. zbool.
  apply varint_advances in E as [Hv Hu]. split; [done|]. unfold is_u64, u64_max in *. lia.
Qed.

#[local] Instance sample_prost_laws : ProstLaws sample_prost.
Proof.
  split.
  - intros buf tag w rest. cbn [decode_key sample_prost].
    destruct (varint64 buf) as [[k r]|] eqn:E; cbn; [|done]. intros [= _ _ <-]. by apply varint64_advances in E as [? _].
  - intros buf v rest. cbn [decode_key decode_varint skip_field sample_prost]. apply varint64_advances.
  - intros w tag buf rest. cbn [decode_key decode_varint skip_field sample_prost]. destruct (w =? 0).
    + destruct (varint64 buf) as [[k r]|] eqn:E; cbn; [|done]. intros [= <-].
      apply varint64_advances in E as [(u & -> & _) _]. by exists u.
    + destruct (w =? 2); [|done]. destruct (varint64 buf) as [[k r]|] eqn:E; cbn; [|done].
      destruct (zlen r <? k); [done|]. intros [= <-].
      apply varint64_advances in E as [(u & -> & _) _]. exists (u ++ take (Z.to_nat k) r).
      by rewrite <- app_assoc, take_drop.
Qed.

(** ** Properties *)

Lemma read_request_ok `{P : Prost} {Hlaws : ProstLaws P} {M : Type} (decode : bytes -> option M)
    stream msg rest :
  Enclave.read_request decode stream = Ok (msg, rest) <->
    exists frame n, stream = write_message frame ++ rest /\ 0 < zlen frame <= MAX_MESSAGE_SIZE /\
      fields 3 Enclave.Request frame n /\ n <= Enclave.MAX_WIRE_ELEMENTS /\ decode frame = Some msg.
Proof.
  unfold Enclave.read_request, Enclave.check_request_shape. rewrite rbind_ok. split.
  - intros ([buf r] & Hf & H). apply read_frame_iff in Hf as [-> Hz].
    apply rbind_ok in H as ([] & Hs & H). apply rbind_ok in Hs as (n & Hn & _).
    apply Enclave.count_request_elements_iff in Hn as [Hn Hle].
    destruct (decode buf) as [m|] eqn:Ed; [|done]. injection H as <- <-. by exists buf, n.
  - intros (frame & n & -> & Hz & Hn & Hle & Hd). exists (frame, rest).
    split; [by apply read_frame_iff|]. rewrite (proj2 (Enclave.count_request_elements_iff frame n)) by done.
    cbn [rbind]. by rewrite Hd.
Qed.

(** C40: a request is read exactly when the stream starts with a frame of one
    to 24 MiB whose field occurrences, at every depth the schema knows and at
    most three messages deep, number at most [MAX_WIRE_ELEMENTS], and which
    decodes.  The reader consumes exactly that frame, and its walk ends on
    every input. *)
Theorem read_request_iff `{P : Prost} {Hlaws : ProstLaws P} {M : Type} (decode : bytes -> option M)
    (stream : bytes) :
  Enclave.read_request decode stream <> Panic /\
  forall msg rest, Enclave.read_request decode stream = Ok (msg, rest) <->
    exists frame n, stream = write_message frame ++ rest /\ 0 < zlen frame <= MAX_MESSAGE_SIZE /\
      fields 3 Enclave.Request frame n /\ n <= Enclave.MAX_WIRE_ELEMENTS /\ decode frame = Some msg.
Proof.
  split; [|intros msg rest; apply read_request_ok].
  unfold Enclave.read_request, Enclave.check_request_shape.
  pose proof (read_frame_total Io Framing stream). destruct (read_frame _ _ _) as [[buf r]| |]; try done.
  cbn [rbind]. pose proof (Enclave.count_request_elements_total buf).
  destruct (Enclave.count_request_elements buf); try done. cbn [rbind]. by destruct (decode buf).
Qed.

(** Field 3 (sign) with field 3 (rgb source) with one empty Merkle proof. *)
Definition sample_frame : bytes := map z2b [0x1A; 4; 0x1A; 2; 0x32; 0].

Lemma read_request_iff_witness :
  Enclave.read_request Some (write_message sample_frame ++ [x01]) = Ok (sample_frame, [x01]) /\
  exists frame n, write_message sample_frame ++ [x01] = write_message frame ++ [x01] /\
    0 < zlen frame <= MAX_MESSAGE_SIZE /\ fields 3 Enclave.Request frame n /\
    n <= Enclave.MAX_WIRE_ELEMENTS /\ Some frame = Some sample_frame.
Proof.
  assert (H : Enclave.read_request Some (write_message sample_frame ++ [x01]) = Ok (sample_frame, [x01]))
    by by vm_compute.
  split; [done|]. apply (proj2 (read_request_iff (P := sample_prost) Some
    (write_message sample_frame ++ [x01])) sample_frame [x01]). done.
Defined.

(** The heap the memory model charges a request: its frame at the factor, and
    its elements. *)
Definition request_cost (frame : bytes) (elements : Z) : Z :=
  Memory.REQUEST_MEMORY_FACTOR * zlen frame + elements * Memory.WIRE_ELEMENT_BYTES.

(** A release build that passed the memory check at boot has room for the
    baseline and for the charged heap of every set of requests its workers can
    have accepted at once. *)
Theorem worker_memory_fits `{P : Prost} {Hlaws : ProstLaws P} {M : Type} (decode : bytes -> option M)
    (total : option Z) (accepted : list (bytes * Z)) :
  Memory.check total false = Ok tt ->
  zlen accepted <= Memory.WORKER_THREADS ->
  Forall (fun '(frame, n) => exists stream msg rest,
    Enclave.read_request decode stream = Ok (msg, rest) /\
    stream = write_message frame ++ rest /\
    Enclave.count_request_elements frame = Ok n) accepted ->
  exists t, total = Some t /\
    Memory.BASELINE_BYTES + foldr (fun '(frame, n) acc => request_cost frame n + acc) 0 accepted <= t.
Proof.
  intros Hc Hw Ha. apply Memory.check_release in Hc as (t & -> & Ht). exists t. split; [done|].
  assert (Hsum : foldr (fun '(frame, n) acc => request_cost frame n + acc) 0 accepted
    <= zlen accepted * Memory.request_bound MAX_MESSAGE_SIZE).
  { induction Ha as [|[frame n] l (stream & msg & rest & Hr & Hs & Hn) _ IH]; [done|].
    cbn [foldr]. rewrite zlen_cons in *.
    apply Enclave.count_request_elements_iff in Hn as [_ Hn].
    apply read_request_ok in Hr as (frame' & _ & Hs' & Hz & _).
    assert (zlen frame <= MAX_MESSAGE_SIZE).
    { rewrite Hs' in Hs. apply app_inv_tail in Hs. unfold write_message in Hs.
      apply (f_equal zlen) in Hs. rewrite !zlen_app, !to_le_bytes_zlen in Hs. lia. }
    unfold request_cost, Memory.request_bound, Memory.ELEMENTS_BYTES, Memory.REQUEST_MEMORY_FACTOR,
      Memory.WIRE_ELEMENT_BYTES in *. lia. }
  unfold Memory.MIN_ENCLAVE_MEMORY_BYTES in Ht.
  assert (0 <= Memory.request_bound MAX_MESSAGE_SIZE) by by vm_compute. nia.
Qed.

Lemma worker_memory_fits_witness :
  Memory.check (Some (3072 * 1024 * 1024)) false = Ok tt /\
  exists t, Some (3072 * 1024 * 1024) = Some t /\
    Memory.BASELINE_BYTES + foldr (fun '(frame, n) acc => request_cost frame n + acc) 0
      [(sample_frame, 3); (sample_frame, 3)] <= t.
Proof.
  split; [done|]. apply (worker_memory_fits (P := sample_prost) Some); [done|done|].
  repeat constructor; exists (write_message sample_frame), sample_frame, []; by vm_compute.
Defined.
