(* ===== verification/RustText.v ===== *)
(** * Rust strings

    The [str] operations that the configuration parsers use, on UTF-8 bytes:
    [trim], [split], [rsplit_once], [strip_prefix], [parse] of unsigned
    integers, ASCII case. *)

From stdpp Require Import strings base numbers list.
From S2P Require Import Prelude Errors.

#[local] Open Scope list_scope.
#[local] Open Scope Z_scope.

Abbreviation str_result := (res string).

Definition text (s : string) : bytes := String.list_byte_of_string s.
Definition to_str (b : bytes) : string := String.string_of_list_byte b.

(** Hex and base64, by external crates. *)
Class TextCodecs : Type := {
  hex_encode : bytes -> bytes;
  hex_decode : bytes -> option bytes;
  base64_encode : bytes -> bytes;
  base64_decode : bytes -> option bytes
}.

Definition starts_with (p s : bytes) : bool := bool_decide (take (length p) s = p).

Definition strip_prefix (p s : bytes) : option bytes :=
  if starts_with p s then Some (drop (length p) s) else None.

Definition strip_suffix (p s : bytes) : option bytes :=
  reverse <$> strip_prefix (reverse p) (reverse s).

Definition ends_with (p s : bytes) : bool := starts_with (reverse p) (reverse s).

(** [s.strip_prefix("0x").unwrap_or(s)]. *)
Definition strip_0x (s : bytes) : bytes := default s (strip_prefix (text "0x") s).

(** The encodings of the characters with the property White_Space. *)
Definition white_space : list bytes :=
  [[x09]; [x0a]; [x0b]; [x0c]; [x0d]; [x20]; [xc2; x85]; [xc2; xa0]; [xe1; x9a; x80]] ++
  map (fun b => [xe2; x80; b])
    [x80; x81; x82; x83; x84; x85; x86; x87; x88; x89; x8a; xa8; xa9; xaf] ++
  [[xe2; x81; x9f]; [xe3; x80; x80]].

(** Drop the patterns at the start, as long as there is one. *)
Fixpoint strip_all (fuel : nat) (pats : list bytes) (s : bytes) : bytes :=
  match fuel with
  | O => s
  | S fuel =>
      match List.find (fun p => starts_with p s) pats with
      | Some p => strip_all fuel pats (drop (length p) s)
      | None => s
      end
  end.

Definition trim_start (s : bytes) : bytes := strip_all (length s) white_space s.
Definition trim_end (s : bytes) : bytes :=
  reverse (strip_all (length s) (map reverse white_space) (reverse s)).
Definition trim (s : bytes) : bytes := trim_end (trim_start s).

(** [split] on an ASCII character: always one piece at least. *)
Fixpoint split (sep : byte) (s : bytes) : list bytes :=
  match s with
  | [] => [[]]
  | b :: s =>
      if bool_decide (b = sep) then [] :: split sep s
      else match split sep s with
           | piece :: pieces => (b :: piece) :: pieces
           | [] => [[b]]
           end
  end.

Fixpoint split_once (sep : byte) (s : bytes) : option (bytes * bytes) :=
  match s with
  | [] => None
  | b :: s =>
      if bool_decide (b = sep) then Some ([], s)
      else prod_map (cons b) id <$> split_once sep s
  end.

Definition rsplit_once (sep : byte) (s : bytes) : option (bytes * bytes) :=
  (fun '(a, b) => (reverse b, reverse a)) <$> split_once sep (reverse s).

Definition is_ascii_digit (b : byte) : bool := (48 <=? b2z b) && (b2z b <=? 57).
Definition is_ascii_lowercase (b : byte) : bool := (97 <=? b2z b) && (b2z b <=? 122).
Definition is_ascii_uppercase (b : byte) : bool := (65 <=? b2z b) && (b2z b <=? 90).
Definition is_ascii_hexdigit (b : byte) : bool :=
  is_ascii_digit b || ((97 <=? b2z b) && (b2z b <=? 102)) || ((65 <=? b2z b) && (b2z b <=? 70)).
Definition is_ascii_alphanumeric (b : byte) : bool :=
  is_ascii_digit b || is_ascii_lowercase b || is_ascii_uppercase b.

Definition lower (b : byte) : byte := if is_ascii_uppercase b then z2b (b2z b + 32) else b.
Definition to_ascii_lowercase (s : bytes) : bytes := map lower s.
Definition eq_ignore_ascii_case (a b : bytes) : bool :=
  bool_decide (to_ascii_lowercase a = to_ascii_lowercase b).

Definition hex_value (b : byte) : option Z :=
  let v := b2z (lower b) in
  if is_ascii_digit b then Some (v - 48) else if (97 <=? v) && (v <=? 102) then Some (v - 87) else None.

(** The digits of a number, with the overflow checks of [from_str_radix]. *)
Fixpoint digits (max acc : Z) (s : bytes) : option Z :=
  match s with
  | [] => Some acc
  | b :: s =>
      if negb (is_ascii_digit b) then None
      else if max <? acc * 10 then None
      else if max <? acc * 10 + (b2z b - 48) then None
      else digits max (acc * 10 + (b2z b - 48)) s
  end.

(** [parse] to an unsigned type with the largest value [max]: one [+] is
    allowed in front. *)
Definition parse_uint (max : Z) (s : bytes) : option Z :=
  match s with
  | [] => None
  | [b] => digits max 0 [b]
  | b :: rest => if bool_decide (b = x2b) then digits max 0 rest else digits max 0 (b :: rest)
  end.

(** [from_str_radix(_, 16)], with the same sign and the same overflow checks. *)
Fixpoint hex_number (max acc : Z) (s : bytes) : option Z :=
  match s with
  | [] => Some acc
  | b :: s =>
      d ← hex_value b;
      if max <? acc * 16 then None
      else if max <? acc * 16 + d then None
      else hex_number max (acc * 16 + d) s
  end.

Definition parse_hex_uint (max : Z) (s : bytes) : option Z :=
  match s with
  | [] => None
  | [b] => hex_number max 0 [b]
  | b :: rest => if bool_decide (b = x2b) then hex_number max 0 rest else hex_number max 0 (b :: rest)
  end.

(** ** Lemmas *)

Lemma hex_number_bound max acc s n : 0 <= acc <= max -> hex_number max acc s = Some n -> 0 <= n <= max.
Proof.
  revert acc. induction s as [|b s IH]; intros acc Ha H; cbn in H; [injection H as <-; lia|].
  destruct (hex_value b) as [d|] eqn:Ed; [|discriminate H]. cbn in H.
  destruct (_ <? _) eqn:E1; [discriminate H|]. destruct (max <? acc * 16 + d) eqn:E2; [discriminate H|]. zbool.
  apply IH in H; [done|]. unfold hex_value in Ed.
  assert (0 <= d); [|lia]. destruct (is_ascii_digit b) eqn:E3.
  - injection Ed as <-. unfold lower, is_ascii_uppercase. unfold is_ascii_digit in E3. zbool.
    rewrite (proj2 (Z.leb_gt 65 (b2z b))) by lia. cbn. lia.
  - destruct (_ && _) eqn:E4; [|discriminate Ed]. injection Ed as <-. zbool. lia.
Qed.

Lemma parse_hex_uint_bound max s n : 0 <= max -> parse_hex_uint max s = Some n -> 0 <= n <= max.
Proof.
  intros Hm H. unfold parse_hex_uint in H.
  destruct s as [|b [|c s]]; [discriminate H|by apply hex_number_bound in H; [|lia]|].
  case_bool_decide; by apply hex_number_bound in H; [|lia].
Qed.

Lemma digits_all max acc s n : digits max acc s = Some n -> forallb is_ascii_digit s = true.
Proof.
  revert acc. induction s as [|b s IH]; intros acc H; [done|]. cbn in *.
  destruct (is_ascii_digit b); [|discriminate H]. cbn in H.
  destruct (_ <? _); [discriminate H|]. destruct (_ <? _); [discriminate H|]. by apply IH in H.
Qed.

Lemma digits_bound max acc s n : 0 <= acc <= max -> digits max acc s = Some n -> acc <= n <= max.
Proof.
  revert acc. induction s as [|b s IH]; intros acc Ha H; cbn in H; [injection H as <-; lia|].
  unfold is_ascii_digit in H. destruct (48 <=? b2z b) eqn:E1; [|discriminate H].
  destruct (b2z b <=? 57) eqn:E2; [|discriminate H]. cbn in H.
  destruct (_ <? _) eqn:E3; [discriminate H|]. destruct (max <? acc * 10 + _) eqn:E4; [discriminate H|].
  zbool. apply IH in H; lia.
Qed.

(** What parses is a sign or a digit, then digits. *)
Lemma parse_uint_chars max s n :
  parse_uint max s = Some n ->
  s <> [] /\ Forall (fun b => b = x2b \/ is_ascii_digit b = true) s.
Proof.
  intros H. destruct s as [|b s]; [done|]. split; [done|].
  assert (Hf : forall l, forallb is_ascii_digit l = true ->
                 Forall (fun b => b = x2b \/ is_ascii_digit b = true) l).
  { intros l Hl. apply Forall_forall. intros x Hx. right. rewrite forallb_forall in Hl.
    apply Hl. by apply list_elem_of_In. }
  unfold parse_uint in H. destruct s as [|c s].
  - apply Hf. by apply digits_all in H.
  - case_bool_decide as Hb.
    + subst b. constructor; [by left|]. apply Hf. by apply digits_all in H.
    + apply Hf. by apply digits_all in H.
Qed.

Lemma parse_uint_bound max s n : 0 <= max -> parse_uint max s = Some n -> 0 <= n <= max.
Proof.
  intros Hm H. unfold parse_uint in H.
  destruct s as [|b [|c s]]; [discriminate H|by apply digits_bound in H; [|lia]|].
  case_bool_decide; by apply digits_bound in H; [|lia].
Qed.

(** No pattern at the start: nothing is dropped. *)
Lemma strip_all_id fuel pats s :
  Forall (fun p => starts_with p s = false) pats -> strip_all fuel pats s = s.
Proof.
  intros H. destruct fuel; [done|]. cbn.
  assert (List.find (fun p => starts_with p s) pats = None) as ->; [|done].
  induction H as [|p pats Hp _ IH]; [done|]. cbn. by rewrite Hp.
Qed.

Lemma trim_id s :
  (forall b, b ∈ s -> b = x2b \/ is_ascii_digit b = true) -> trim s = s.
Proof.
  intros H.
  assert (Hp : forall pats l, (forall b, b ∈ l -> b ∈ s) -> l <> [] ->
    Forall (fun p => match p with b :: _ => ~ (b = x2b \/ is_ascii_digit b = true) | [] => False end) pats ->
    Forall (fun p => starts_with p l = false) pats).
  { intros pats l Hl Hn Hf. eapply Forall_impl; [exact Hf|]. intros [|b p] Hb; [done|].
    unfold starts_with. apply bool_decide_eq_false. destruct l as [|c l]; [done|].
    cbn. intros [= -> _]. apply Hb, H, Hl. by left. }
  destruct s as [|c s']; [done|]. set (s := c :: s') in *.
  unfold trim, trim_start, trim_end. rewrite (strip_all_id _ white_space s).
  - rewrite strip_all_id; [by rewrite reverse_involutive|].
    apply Hp; [intros b Hb; by rewrite elem_of_reverse in Hb|
               by intros E; apply (f_equal reverse) in E; rewrite reverse_involutive in E|].
    repeat constructor; intros [|]; discriminate.
  - apply Hp; [done|done|]. repeat constructor; intros [|]; discriminate.
Qed.

(** A number has no white space around it. *)
Lemma trim_number max s n : parse_uint max s = Some n -> trim s = s.
Proof.
  intros H. apply parse_uint_chars in H as [_ H]. apply trim_id. by apply Forall_forall.
Qed.
