(* ===== verification/Rlp.v ===== *)
(** * The RLP decoder (src/enclave/src/networks/evm/gas_tx.rs)

    The strict decoder of the gas-transaction preimage, against a reference
    encoder.  [usize] is 64 bits wide. *)

From stdpp Require Import strings sorting base numbers list.
From S2P Require Import Prelude Errors Lengths.

#[local] Open Scope list_scope.
#[local] Open Scope Z_scope.

Definition MAX_RLP_DEPTH : nat := 8.
Definition MAX_RLP_ITEMS : Z := 1024.

Definition reject (msg : string) : EnclaveError := CrossCheck msg.

Inductive Rlp : Type :=
| Str (s : bytes)
| RList (items : list Rlp).

(** The length loop: [checked_shl] drops the high bits, [checked_add] fails. *)
Fixpoint accumulate_len (len : Z) (bs : bytes) : option Z :=
  match bs with
  | [] => Some len
  | b :: bs =>
      let v := wrap64 (Z.shiftl len 8) + b2z b in
      if u64_max <? v then None else accumulate_len v bs
  end.

(** [read_long_len]: the length and the size of the header. *)
Definition read_long_len (buf : bytes) (len_of_len : Z) : enclave_result (Z * Z) :=
  let header := 1 + len_of_len in
  if zlen buf <? header then Err (reject "rlp: length header truncated")
  else
    let len_bytes := take (Z.to_nat len_of_len) (drop 1 buf) in
    if bool_decide (head len_bytes = Some x00) then
      Err (reject "rlp: non-canonical length (leading zero)")
    else
      let? len := ok_or (accumulate_len 0 len_bytes) (reject "rlp: length exceeds usize") in
      if len <=? 55 then Err (reject "rlp: non-canonical long form for short payload")
      else Ok (len, header).

(** [header.checked_add(len)] and the truncation check. *)
Definition payload_end (header len : Z) (buf : bytes) (truncated : string) : enclave_result Z :=
  let e := header + len in
  if u64_max <? e then Err (reject "rlp: length overflow")
  else if zlen buf <? e then Err (reject truncated)
  else Ok e.

(** [decode_list], over the decoder of one item at the next depth.  [fuel] is
    the length of the buffer: each item uses at least one byte. *)
Fixpoint decode_list (one : bytes -> Z -> enclave_result (Rlp * Z * Z)) (fuel : nat)
    (buf : bytes) (items_left : Z) : enclave_result (list Rlp * Z) :=
  match buf with
  | [] => Ok ([], items_left)
  | _ :: _ =>
      match fuel with
      | O => Panic
      | S fuel =>
          let? (item, used, items_left) := one buf items_left in
          let? (items, items_left) :=
            decode_list one fuel (drop (Z.to_nat used) buf) items_left in
          Ok (item :: items, items_left)
      end
  end.

(** [decode_one] at depth [MAX_RLP_DEPTH + 1 - levels]: the item, the bytes
    used, and the items left. *)
Fixpoint decode_one (levels : nat) (buf : bytes) (items_left : Z)
    : enclave_result (Rlp * Z * Z) :=
  match levels with
  | O => Err (reject "rlp: nesting too deep")
  | S levels =>
      if items_left <? 1 then Err (reject "rlp: more than 1024 items")
      else
        let items_left := items_left - 1 in
        let? b0 := ok_or (head buf) (reject "rlp: unexpected end of input") in
        let b0 := b2z b0 in
        let list_of := fun payload e =>
          let? (items, items_left) :=
            decode_list (decode_one levels) (length payload) payload items_left in
          Ok (RList items, e, items_left) in
        if b0 <=? 0x7f then Ok (Str (take 1 buf), 1, items_left)
        else if b0 <=? 0xb7 then
          let len := b0 - 0x80 in
          let e := 1 + len in
          if zlen buf <? e then Err (reject "rlp: short string truncated")
          else
            let payload := slice 1 e buf in
            if (len =? 1) && match payload with b :: _ => b2z b <? 0x80 | [] => false end then
              Err (reject "rlp: non-canonical single-byte string")
            else Ok (Str payload, e, items_left)
        else if b0 <=? 0xbf then
          let? (len, header) := read_long_len buf (b0 - 0xb7) in
          let? e := payload_end header len buf "rlp: long string truncated" in
          Ok (Str (slice header e buf), e, items_left)
        else if b0 <=? 0xf7 then
          let len := b0 - 0xc0 in
          let e := 1 + len in
          if zlen buf <? e then Err (reject "rlp: short list truncated")
          else list_of (slice 1 e buf) e
        else
          let? (len, header) := read_long_len buf (b0 - 0xf7) in
          let? e := payload_end header len buf "rlp: long list truncated" in
          list_of (slice header e buf) e
  end.

(** [decode_canonical]. *)
Definition decode_canonical (buf : bytes) : enclave_result Rlp :=
  let? (item, used, _) := decode_one (S MAX_RLP_DEPTH) buf MAX_RLP_ITEMS in
  if negb (used =? zlen buf) then Err (reject "rlp: trailing bytes after top-level item")
  else Ok item.

(** ** Reference encoder *)

(** A header with the offsets [short] and [long]. *)
Definition rlp_header (short long n : Z) : bytes :=
  if n <=? 55 then [z2b (short + n)]
  else z2b (long + zlen (len_bytes n)) :: len_bytes n.

Definition encode_str (s : bytes) : bytes :=
  match s with
  | [b] => if b2z b <? 0x80 then s else rlp_header 0x80 0xb7 1 ++ s
  | _ => rlp_header 0x80 0xb7 (zlen s) ++ s
  end.

Fixpoint rlp_encode (r : Rlp) : bytes :=
  match r with
  | Str s => encode_str s
  | RList l =>
      let payload := concat (map rlp_encode l) in
      rlp_header 0xc0 0xf7 (zlen payload) ++ payload
  end.

(** Nesting below an item, and the number of strings and lists in it. *)
Fixpoint rlp_depth (r : Rlp) : nat :=
  match r with
  | Str _ => 0
  | RList l => foldr (fun c m => Nat.max (S (rlp_depth c)) m) 0%nat l
  end.

Fixpoint rlp_items (r : Rlp) : Z :=
  match r with
  | Str _ => 1
  | RList l => 1 + foldr (fun c m => rlp_items c + m) 0 l
  end.

(** ** Lengths *)

Lemma accumulate_len_ok bs : forall acc,
  0 <= acc -> acc * 256 ^ zlen bs + be_combine bs <= u64_max ->
  accumulate_len acc bs = Some (acc * 256 ^ zlen bs + be_combine bs).
Proof.
  induction bs as [|b bs IH]; intros acc Ha Hm; cbn [accumulate_len].
  { change (zlen (@nil byte)) with 0. change (be_combine []) with 0. f_equal. lia. }
  rewrite be_combine_cons, zlen_cons, Z.pow_add_r in * by (pose proof (zlen_nonneg bs); lia).
  pose proof (be_combine_bound bs). pose proof (b2z_range b).
  assert (Hp : 1 <= 256 ^ zlen bs) by (pose proof (Z.pow_pos_nonneg 256 (zlen bs)); pose proof (zlen_nonneg bs); lia).
  rewrite Z.shiftl_mul_pow2 by lia. change (2 ^ 8) with 256. change (256 ^ 1) with 256 in *.
  assert (Hv : acc * 256 + b2z b <= u64_max) by nia.
  rewrite wrap64_small by (unfold is_u64, u64_max in *; lia).
  rewrite (proj2 (Z.ltb_ge _ _) Hv). rewrite IH; [f_equal; ring|lia|]. nia.
Qed.

Lemma len_bytes_spec n :
  0 < n < 2 ^ 64 ->
  1 <= zlen (len_bytes n) <= 8 /\ be_combine (len_bytes n) = n /\
  head (len_bytes n) <> Some x00.
Proof. intros Hn. by apply len_bytes_gen. Qed.

Lemma read_long_len_complete b n rest :
  55 < n < 2 ^ 64 ->
  read_long_len (b :: len_bytes n ++ rest) (zlen (len_bytes n))
    = Ok (n, 1 + zlen (len_bytes n)).
Proof.
  intros Hn. destruct (len_bytes_spec n) as (Hz & Hc & Hh); [lia|].
  unfold read_long_len. rewrite zlen_cons, zlen_app. pose proof (zlen_nonneg rest).
  rewrite (proj2 (Z.ltb_ge _ _)) by lia.
  change (drop 1 (b :: len_bytes n ++ rest)) with (len_bytes n ++ rest).
  replace (Z.to_nat (zlen (len_bytes n))) with (length (len_bytes n)) by (unfold zlen; lia).
  rewrite take_app_length, bool_decide_eq_false_2 by done.
  rewrite accumulate_len_ok; rewrite ?Hc; cbn [ok_or rbind]; [|lia|unfold u64_max; lia].
  rewrite Z.mul_0_l, Z.add_0_l, (proj2 (Z.leb_gt _ _)) by lia. done.
Qed.

Lemma read_long_len_sound b tl lol n header :
  1 <= lol <= 8 -> read_long_len (b :: tl) lol = Ok (n, header) ->
  header = 1 + lol /\ 55 < n < 2 ^ 64 /\ zlen (len_bytes n) = lol /\
  exists rest, tl = len_bytes n ++ rest.
Proof.
  intros Hl H. unfold read_long_len in H.
  destruct (_ <? _) eqn:E; [done|]. zbool. rewrite zlen_cons in E.
  change (drop 1 (b :: tl)) with tl in H.
  case_bool_decide as Hh; [done|]. set (lb := take (Z.to_nat lol) tl) in *.
  assert (Hz : zlen lb = lol) by (apply zlen_take; lia).
  pose proof (be_combine_bound lb) as Hb. rewrite Hz in Hb.
  assert (256 ^ lol <= 256 ^ 8) by (apply Z.pow_le_mono_r; lia). change (256 ^ 8) with (2 ^ 64) in *.
  rewrite accumulate_len_ok in H by (unfold u64_max; lia). cbn [ok_or rbind] in H.
  rewrite Z.mul_0_l, Z.add_0_l in H. destruct (_ <=? 55) eqn:E2; [done|]. zbool.
  injection H as <- <-.
  assert (El : len_bytes (be_combine lb) = lb).
  { apply len_bytes_unique; [|done]. intros E0. rewrite E0 in Hz. change (zlen (@nil byte)) with 0 in Hz. lia. }
  rewrite El. split; [done|]. split; [lia|]. split; [done|]. exists (drop (Z.to_nat lol) tl).
  unfold lb. by rewrite take_drop.
Qed.

(** ** One item *)

Lemma rlp_header_short short long n : 0 <= n <= 55 -> rlp_header short long n = [z2b (short + n)].
Proof. intros Hn. unfold rlp_header. by rewrite (proj2 (Z.leb_le _ _)) by lia. Qed.

Lemma rlp_header_long short long n :
  55 < n -> rlp_header short long n = z2b (long + zlen (len_bytes n)) :: len_bytes n.
Proof. intros Hn. unfold rlp_header. by rewrite (proj2 (Z.leb_gt _ _)) by lia. Qed.

(** A string that is not one byte below 0x80 has a header. *)
Lemma encode_str_header s :
  (zlen s = 1 -> match s with b :: _ => b2z b <? 0x80 | [] => false end = false) ->
  encode_str s = rlp_header 0x80 0xb7 (zlen s) ++ s.
Proof.
  intros H. destruct s as [|b [|c s]]; [done| |done]. cbn [encode_str].
  by rewrite (H eq_refl).
Qed.

(** The decoder of one item agrees with the encoder. *)
Definition one_sound (one : bytes -> Z -> enclave_result (Rlp * Z * Z)) (levels : nat) : Prop :=
  forall buf left r used left', one buf left = Ok (r, used, left') ->
    used = zlen (rlp_encode r) /\ (rlp_depth r < levels)%nat /\
    left' = left - rlp_items r /\ 0 <= left' /\ 1 <= used /\
    exists rest, buf = rlp_encode r ++ rest.

Definition one_total (one : bytes -> Z -> enclave_result (Rlp * Z * Z)) : Prop :=
  forall buf left, one buf left <> Panic.

Lemma decode_list_sound one levels fuel : forall buf left items left',
  one_sound one levels -> 0 <= left -> decode_list one fuel buf left = Ok (items, left') ->
  buf = concat (map rlp_encode items) /\
  (foldr (fun c m => Nat.max (S (rlp_depth c)) m) 0%nat items <= levels)%nat /\
  left' = left - foldr (fun c m => rlp_items c + m) 0 items /\ 0 <= left'.
Proof.
  induction fuel as [|fuel IH]; intros buf left items left' Ho Hl H; destruct buf as [|b buf];
    cbn [decode_list] in H; try done; try (injection H as <- <-; cbn; split_and!; (done || lia)).
  apply rbind_ok in H as ([[r used] l1] & H1 & H). apply rbind_ok in H as ([rs l2] & H2 & H).
  injection H as <- <-. destruct (Ho _ _ _ _ _ H1) as (-> & Hd & -> & Hl1 & Hu & rest & E).
  rewrite E in H2. replace (Z.to_nat (zlen (rlp_encode r))) with (length (rlp_encode r)) in H2
    by (unfold zlen; lia). rewrite drop_app_length in H2.
  destruct (IH _ _ _ _ Ho Hl1 H2) as (-> & Hd2 & -> & Hl2).
  rewrite E. cbn [map concat foldr]. split; [done|]. split; [lia|]. split; [lia|done].
Qed.

Lemma decode_list_total one fuel : forall buf left levels,
  one_total one -> one_sound one levels -> (length buf <= fuel)%nat ->
  decode_list one fuel buf left <> Panic.
Proof.
  induction fuel as [|fuel IH]; intros buf left levels Ht Ho Hf; destruct buf as [|b buf];
    cbn [decode_list length] in *; try done; [lia|].
  pose proof (Ht (b :: buf) left) as Hp.
  destruct (one (b :: buf) left) as [[[r used] l1]|e|] eqn:E1; cbn [rbind]; [|done|done].
  destruct (Ho _ _ _ _ _ E1) as (Hu & _ & _ & _ & Hu1 & rest & E).
  assert (Hd : (length (drop (Z.to_nat used) (b :: buf)) <= fuel)%nat).
  { rewrite length_drop. cbn [length]. lia. }
  pose proof (IH (drop (Z.to_nat used) (b :: buf)) l1 levels Ht Ho Hd) as Hr.
  destruct (decode_list one fuel _ l1) as [[rs l2]|e|]; done.
Qed.

Lemma decode_list_complete one items : forall fuel left,
  (forall r rest left, In r items -> rlp_items r <= left ->
     one (rlp_encode r ++ rest) left = Ok (r, zlen (rlp_encode r), left - rlp_items r)) ->
  Forall (fun r => rlp_encode r <> []) items ->
  Forall (fun r => 0 <= rlp_items r) items ->
  (length (concat (map rlp_encode items)) <= fuel)%nat ->
  foldr (fun c m => rlp_items c + m) 0 items <= left ->
  decode_list one fuel (concat (map rlp_encode items)) left
    = Ok (items, left - foldr (fun c m => rlp_items c + m) 0 items).
Proof.
  induction items as [|r items IH]; intros fuel left Hone Hne Hpos Hf Hl.
  { cbn. destruct fuel; cbn; by rewrite Z.sub_0_r. }
  apply Forall_cons in Hne as [Hr Hne]. apply Forall_cons in Hpos as [Hp Hpos].
  cbn [map concat foldr] in *. rewrite length_app in Hf.
  assert (Hnn : 0 <= foldr (fun c m => rlp_items c + m) 0 items).
  { clear -Hpos. induction Hpos; cbn; lia. }
  destruct (rlp_encode r ++ concat (map rlp_encode items)) as [|b l] eqn:E.
  { apply app_eq_nil in E as [E _]. done. }
  destruct fuel as [|fuel].
  { destruct (rlp_encode r); [done|]. cbn in Hf. lia. }
  cbn [decode_list]. rewrite <- E, Hone by (cbn; auto || lia). cbn [rbind].
  replace (Z.to_nat (zlen (rlp_encode r))) with (length (rlp_encode r)) by (unfold zlen; lia).
  rewrite drop_app_length, IH; cbn [rbind]; try done.
  - do 2 f_equal; lia.
  - intros r' rest l' Hin. apply Hone. by right.
  - destruct (rlp_encode r); [done|]. cbn in Hf. lia.
  - lia.
Qed.

Lemma payload_end_ok header len buf m e :
  payload_end header len buf m = Ok e <->
  e = header + len /\ header + len <= u64_max /\ header + len <= zlen buf.
Proof.
  unfold payload_end. destruct (u64_max <? header + len) eqn:E1; zbool; [split; [done|lia]|].
  destruct (zlen buf <? header + len) eqn:E2; zbool; [split; [done|lia]|].
  split; [intros [= <-]; lia|]. by intros [-> _].
Qed.

(** The header of a payload of [n] bytes, from its decoded form. *)
Lemma short_header b tl short long n :
  b2z b = short + n -> 0 <= n <= 55 -> n <= zlen tl ->
  b :: tl = (rlp_header short long n ++ take (Z.to_nat n) tl) ++ drop (Z.to_nat n) tl /\
  slice 1 (1 + n) (b :: tl) = take (Z.to_nat n) tl /\ zlen (take (Z.to_nat n) tl) = n.
Proof.
  intros Hb Hn Hz. rewrite rlp_header_short by done. rewrite (z2b_b2z_eq b _ Hb).
  split; [|split].
  - cbn. by rewrite take_drop.
  - by apply (slice_app [b] tl 1 n).
  - apply zlen_take; lia.
Qed.

Lemma long_header b tl short long lol n header e :
  b2z b = long + lol -> 1 <= lol <= 8 -> read_long_len (b :: tl) lol = Ok (n, header) ->
  e = header + n -> e <= zlen (b :: tl) ->
  exists payload rest, b :: tl = (rlp_header short long n ++ payload) ++ rest /\
    slice header e (b :: tl) = payload /\ zlen payload = n /\ 55 < n < 2 ^ 64 /\
    e = zlen (rlp_header short long n ++ payload).
Proof.
  intros Hb Hl Hr -> He.
  destruct (read_long_len_sound _ _ _ _ _ Hl Hr) as (-> & Hn & Hlb & rest & ->).
  rewrite zlen_cons, zlen_app, Hlb in He.
  assert (Hz : zlen (take (Z.to_nat n) rest) = n) by (apply zlen_take; lia).
  exists (take (Z.to_nat n) rest), (drop (Z.to_nat n) rest).
  rewrite (rlp_header_long short long n) by lia. rewrite Hlb, <- Hb, z2b_b2z.
  split; [|split; [|split; [|split]]].
  - cbn. f_equal. by rewrite <- app_assoc, take_drop.
  - rewrite app_comm_cons. apply slice_app. rewrite zlen_cons. lia.
  - done.
  - done.
  - rewrite zlen_app, zlen_cons. lia.
Qed.

Lemma rlp_header_zlen short long n : 0 <= n <= 55 -> zlen (rlp_header short long n) = 1.
Proof. intros Hn. by rewrite rlp_header_short. Qed.

(** A string and a list that were read, as [one_sound] wants them. *)
Lemma str_read (levels : nat) payload buf rest used left :
  rlp_encode (Str payload) ++ rest = buf -> used = zlen (rlp_encode (Str payload)) ->
  1 <= used -> 1 <= left ->
  used = zlen (rlp_encode (Str payload)) /\ (rlp_depth (Str payload) < S levels)%nat /\
  left - 1 = left - rlp_items (Str payload) /\ 0 <= left - 1 /\ 1 <= used /\
  exists rest, buf = rlp_encode (Str payload) ++ rest.
Proof. intros <- Hu H1 Hl. cbn [rlp_depth rlp_items]. split_and!; try (done || lia). by exists rest. Qed.

Lemma list_read levels payload buf rest e left r used left' :
  one_sound (decode_one levels) levels -> 1 <= left ->
  buf = (rlp_header 0xc0 0xf7 (zlen payload) ++ payload) ++ rest ->
  e = zlen (rlp_header 0xc0 0xf7 (zlen payload) ++ payload) -> 1 <= e ->
  (let? (items, items_left) :=
     decode_list (decode_one levels) (length payload) payload (left - 1) in
   Ok (RList items, e, items_left)) = Ok (r, used, left') ->
  used = zlen (rlp_encode r) /\ (rlp_depth r < S levels)%nat /\
  left' = left - rlp_items r /\ 0 <= left' /\ 1 <= used /\
  exists rest, buf = rlp_encode r ++ rest.
Proof.
  intros IH Hl E Hp He Hd. apply rbind_ok in Hd as ([items l2] & Hd & Ho). injection Ho as <- <- <-.
  destruct (decode_list_sound (decode_one levels) levels (length payload) payload (left - 1)
    items l2 IH ltac:(lia) Hd) as (Ep & Hdep & -> & Hl2).
  cbn [rlp_encode rlp_depth rlp_items]. rewrite <- Ep. split_and!; try (done || lia). by exists rest.
Qed.

Lemma decode_one_sound levels : one_sound (decode_one levels) levels.
Proof.
  induction levels as [|levels IH]; intros buf left r used left' H; [done|].
  cbn [decode_one] in H. destruct (left <? 1) eqn:El; [done|].
  destruct buf as [|b tl]; [done|]. cbn [head ok_or rbind] in H. pose proof (b2z_range b). zbool.
  destruct (b2z b <=? 0x7f) eqn:E1; zbool.
  { injection H as <- <- <-. change (take 1 (b :: tl)) with [b].
    assert (Ee : rlp_encode (Str [b]) = [b])
      by (cbn [rlp_encode encode_str]; by rewrite (proj2 (Z.ltb_lt _ _)) by lia).
    apply (str_read levels [b] (b :: tl) tl); [by rewrite Ee|by rewrite Ee|lia|lia]. }
  destruct (b2z b <=? 0xb7) eqn:E2; zbool.
  { destruct (zlen (b :: tl) <? _) eqn:E3; [done|]. zbool. rewrite zlen_cons in E3.
    destruct (short_header b tl 0x80 0xb7 (b2z b - 0x80)) as (Eb & Es & Ez); [lia|lia|lia|].
    rewrite Es in H. set (payload := take (Z.to_nat (b2z b - 128)) tl) in *.
    destruct (_ && _) eqn:E4; [done|]. injection H as <- <- <-.
    assert (Ee : rlp_encode (Str payload) = rlp_header 0x80 0xb7 (zlen payload) ++ payload).
    { apply encode_str_header. intros H1. rewrite <- Ez, H1 in E4. done. }
    apply (str_read levels payload _ (drop (Z.to_nat (b2z b - 128)) tl)); [by rewrite Ee, Ez| |lia|lia].
    rewrite Ee, zlen_app, rlp_header_zlen, Ez by lia. lia. }
  destruct (b2z b <=? 0xbf) eqn:E3; zbool.
  { apply rbind_ok in H as ([n header] & Hr & H). apply rbind_ok in H as (e & He & H).
    injection H as <- <- <-. apply payload_end_ok in He as (-> & _ & He).
    destruct (long_header b tl 0x80 0xb7 (b2z b - 0xb7) n header _ ltac:(lia) ltac:(lia) Hr eq_refl He)
      as (payload & rest & Eb & -> & Hz & Hn & Ee).
    assert (Eenc : rlp_encode (Str payload) = rlp_header 0x80 0xb7 n ++ payload).
    { rewrite <- Hz. apply encode_str_header. lia. }
    apply (str_read levels payload _ rest); [by rewrite Eenc|by rewrite Eenc| |lia].
    rewrite Ee, zlen_app. pose proof (zlen_nonneg (rlp_header 128 183 n)). lia. }
  destruct (b2z b <=? 0xf7) eqn:E4; zbool.
  { destruct (zlen (b :: tl) <? _) eqn:E5; [done|]. zbool. rewrite zlen_cons in E5.
    destruct (short_header b tl 0xc0 0xf7 (b2z b - 0xc0)) as (Eb & Es & Ez); [lia|lia|lia|].
    rewrite Es in H. eapply list_read; [exact IH|lia| | | |exact H]; rewrite ?Ez; [exact Eb| |lia].
    rewrite zlen_app, rlp_header_zlen by lia. lia. }
  apply rbind_ok in H as ([n header] & Hr & H). apply rbind_ok in H as (e & He & H).
  apply payload_end_ok in He as (-> & _ & He).
  destruct (long_header b tl 0xc0 0xf7 (b2z b - 0xf7) n header _ ltac:(lia) ltac:(lia) Hr eq_refl He)
    as (payload & rest & Eb & Es & Hz & Hn & Ee).
  rewrite Es in H. eapply list_read; [exact IH|lia| | | |exact H]; rewrite ?Hz; [exact Eb|exact Ee|].
  rewrite Ee, zlen_app. pose proof (zlen_nonneg (rlp_header 192 247 n)). lia.
Qed.

(** Induction over items and their children. *)
Lemma rlp_nested_ind (P : Rlp -> Prop) :
  (forall s, P (Str s)) -> (forall l, Forall P l -> P (RList l)) -> forall r, P r.
Proof.
  intros Hs Hl. fix IH 1. intros [s|l]; [apply Hs|]. apply Hl.
  induction l as [|r l IHl]; constructor; [apply IH|exact IHl].
Qed.

Lemma rlp_items_pos r : 1 <= rlp_items r.
Proof.
  induction r as [s|l IH] using rlp_nested_ind; cbn; [lia|].
  induction IH as [|r l Hr _ IHl]; cbn; lia.
Qed.

Lemma rlp_header_ne short long n : rlp_header short long n <> [].
Proof. unfold rlp_header. by case_match. Qed.

Lemma encode_str_ne s : encode_str s <> [].
Proof.
  destruct s as [|b [|c s]]; cbn [encode_str]; try case_match; try done;
    intros [H _]%app_eq_nil; by apply rlp_header_ne in H.
Qed.

Lemma rlp_encode_ne r : rlp_encode r <> [].
Proof.
  destruct r as [s|l]; [apply encode_str_ne|]. cbn. intros [H _]%app_eq_nil.
  by apply rlp_header_ne in H.
Qed.

Lemma decode_one_total levels : one_total (decode_one levels).
Proof.
  induction levels as [|levels IH]; intros buf left; cbn [decode_one]; [done|].
  destruct (left <? 1); [done|]. destruct buf as [|b tl]; cbn [head ok_or rbind]; [done|].
  assert (Hlist : forall payload (e : Z),
    (let? (items, items_left) :=
       decode_list (decode_one levels) (length payload) payload (left - 1) in
     Ok (RList items, e, items_left)) <> Panic).
  { intros payload e. pose proof (decode_list_total (decode_one levels) (length payload) payload
      (left - 1) levels IH (decode_one_sound levels) (le_n _)) as Hd.
    by destruct (decode_list _ _ _ _) as [[items l2]| |]. }
  assert (Hrl : forall lol, read_long_len (b :: tl) lol <> Panic).
  { intros lol. unfold read_long_len. repeat case_match; try done.
    destruct (accumulate_len _ _); cbn; [by case_match|done]. }
  assert (Hpe : forall h n m, payload_end h n (b :: tl) m <> Panic).
  { intros. unfold payload_end. by repeat case_match. }
  repeat (destruct (_ <=? _); [try done|]).
  - repeat case_match; done.
  - specialize (Hrl (b2z b - 183)). destruct (read_long_len _ _) as [[n h]| |]; cbn [rbind]; try done.
    specialize (Hpe h n "rlp: long string truncated"). by destruct (payload_end _ _ _ _).
  - destruct (_ <? _); [done|]. apply Hlist.
  - specialize (Hrl (b2z b - 247)). destruct (read_long_len _ _) as [[n h]| |]; cbn [rbind]; try done.
    specialize (Hpe h n "rlp: long list truncated").
    destruct (payload_end _ _ _ _); cbn [rbind]; [apply Hlist|done|done].
Qed.

(** Decoding a header gives the payload back. *)
Lemma decode_long_header long payload rest m :
  let n := zlen payload in
  55 < n -> 0 <= long <= 0xf7 -> n + 9 < 2 ^ 64 ->
  let buf := z2b (long + zlen (len_bytes n)) :: len_bytes n ++ payload ++ rest in
  let lol := zlen (len_bytes n) in
  1 <= lol <= 8 /\
  b2z (z2b (long + lol)) = long + lol /\
  read_long_len buf lol = Ok (n, 1 + lol) /\
  payload_end (1 + lol) n buf m = Ok (1 + lol + n) /\
  slice (1 + lol) (1 + lol + n) buf = payload.
Proof.
  intros n Hn Hl Hm buf lol. destruct (len_bytes_spec n) as (Hz & Hc & Hh); [lia|].
  pose proof (zlen_nonneg rest). split; [done|]. split; [apply b2z_small; unfold lol; lia|].
  split; [apply read_long_len_complete; lia|]. split.
  - apply payload_end_ok. split; [done|]. unfold u64_max, buf, lol in *.
    rewrite zlen_cons, !zlen_app. fold n. lia.
  - unfold buf. rewrite app_comm_cons. rewrite slice_app by (rewrite zlen_cons; done).
    unfold n, zlen. by rewrite Nat2Z.id, take_app_length.
Qed.

Lemma slice_short b (payload rest : bytes) :
  slice 1 (1 + zlen payload) (b :: payload ++ rest) = payload.
Proof.
  etransitivity; [by apply (slice_app [b] (payload ++ rest) 1 (zlen payload))|].
  unfold zlen. by rewrite Nat2Z.id, take_app_length.
Qed.

Lemma foldr_depth_lt l r levels :
  (foldr (fun c m => Nat.max (S (rlp_depth c)) m) 0%nat l <= levels)%nat -> In r l ->
  (rlp_depth r < levels)%nat.
Proof.
  induction l as [|c l IH]; cbn; [done|]. intros H [->|Hin]; [lia|]. apply IH; [lia|done].
Qed.

Lemma concat_zlen_In l r : In r l -> zlen (rlp_encode r) <= zlen (concat (map rlp_encode l)).
Proof.
  induction l as [|c l IH]; [done|]. cbn [map concat In]. rewrite zlen_app.
  pose proof (zlen_nonneg (rlp_encode c)). pose proof (zlen_nonneg (concat (map rlp_encode l))).
  intros [->|Hin]; [lia|]. specialize (IH Hin). lia.
Qed.

(** The branches of [decode_one] on an encoded header. *)
Lemma decode_one_str levels s rest left :
  1 <= left -> zlen s + 9 < 2 ^ 64 ->
  decode_one (S levels) (encode_str s ++ rest) left = Ok (Str s, zlen (encode_str s), left - 1).
Proof.
  intros Hl Hz. cbn [decode_one]. rewrite (proj2 (Z.ltb_ge left 1)) by lia.
  assert ((exists b, s = [b] /\ b2z b < 0x80) \/ ~ exists b, s = [b] /\ b2z b < 0x80)
    as [(b & -> & Hb)|Hno].
  { destruct s as [|b [|c s]]; [right; by intros (? & ? & _)| |right; by intros (? & ? & _)].
    destruct (decide (b2z b < 0x80)); [left; eauto|right]. intros (b' & [= <-] & ?). lia. }
  { cbn [encode_str]. rewrite (proj2 (Z.ltb_lt _ _) Hb). cbn [app head ok_or rbind].
    by rewrite (proj2 (Z.leb_le _ _)) by lia. }
  assert (Ee : encode_str s = rlp_header 0x80 0xb7 (zlen s) ++ s).
  { apply encode_str_header. intros H1. destruct s as [|b s]; [done|].
    destruct s; [|rewrite !zlen_cons in H1; pose proof (zlen_nonneg s); lia].
    apply Z.ltb_ge. destruct (decide (b2z b < 0x80)); [|lia]. exfalso. apply Hno. eauto. }
  pose proof (zlen_nonneg s). pose proof (zlen_nonneg rest).
  destruct (decide (zlen s <= 55)) as [Hs|Hs].
  - rewrite Ee, rlp_header_short by lia. cbn [app head ok_or rbind].
    rewrite b2z_small by lia. rewrite (proj2 (Z.leb_gt _ 127)), (proj2 (Z.leb_le _ 183)) by lia.
    replace (128 + zlen s - 128) with (zlen s) by lia. rewrite slice_short.
    rewrite zlen_cons, zlen_app, (proj2 (Z.ltb_ge _ _)) by lia.
    destruct (_ && _) eqn:E.
    + exfalso. apply andb_true_iff in E as [E1 E2]. apply Z.eqb_eq in E1.
      destruct s as [|b [|c s]]; [done| |rewrite !zlen_cons in E1; pose proof (zlen_nonneg s); lia].
      apply Hno. exists b. split; [done|]. by apply Z.ltb_lt.
    + rewrite zlen_cons. done.
  - destruct (decode_long_header 0xb7 s rest "rlp: long string truncated")
      as (Hlol & Hb & Hr & Hp & Hsl); [lia|lia|lia|].
    rewrite Ee, rlp_header_long by lia. rewrite <- app_assoc. cbn [app head ok_or rbind].
    rewrite Hb. rewrite (proj2 (Z.leb_gt _ 127)), (proj2 (Z.leb_gt _ 183)),
      (proj2 (Z.leb_le _ 191)) by lia.
    replace (183 + zlen (len_bytes (zlen s)) - 183) with (zlen (len_bytes (zlen s))) by lia.
    rewrite Hr. cbn [rbind]. rewrite Hp. cbn [rbind]. rewrite Hsl.
    do 2 f_equal. f_equal. rewrite zlen_cons, zlen_app. lia.
Qed.

Lemma decode_one_list levels l rest left :
  1 <= left -> let payload := concat (map rlp_encode l) in
  zlen payload + 9 < 2 ^ 64 ->
  decode_list (decode_one levels) (length payload) payload (left - 1)
    = Ok (l, left - rlp_items (RList l)) ->
  decode_one (S levels) (rlp_encode (RList l) ++ rest) left
    = Ok (RList l, zlen (rlp_encode (RList l)), left - rlp_items (RList l)).
Proof.
  intros Hl payload Hz Hd. cbn [decode_one]. rewrite (proj2 (Z.ltb_ge left 1)) by lia.
  change (rlp_encode (RList l)) with (rlp_header 0xc0 0xf7 (zlen payload) ++ payload).
  pose proof (zlen_nonneg payload). pose proof (zlen_nonneg rest).
  destruct (decide (zlen payload <= 55)) as [Hs|Hs].
  - rewrite rlp_header_short by lia. cbn [app head ok_or rbind]. rewrite b2z_small by lia.
    rewrite (proj2 (Z.leb_gt _ 127)), (proj2 (Z.leb_gt _ 183)), (proj2 (Z.leb_gt _ 191)),
      (proj2 (Z.leb_le _ 247)) by lia.
    replace (192 + zlen payload - 192) with (zlen payload) by lia. rewrite slice_short.
    rewrite zlen_cons, zlen_app, (proj2 (Z.ltb_ge _ _)) by lia.
    rewrite Hd. cbn [rbind]. by rewrite zlen_cons.
  - destruct (decode_long_header 0xf7 payload rest "rlp: long list truncated")
      as (Hlol & Hb & Hr & Hp & Hsl); [lia|lia|lia|].
    rewrite rlp_header_long by lia. rewrite <- app_assoc. cbn [app head ok_or rbind].
    rewrite Hb. rewrite (proj2 (Z.leb_gt _ 127)), (proj2 (Z.leb_gt _ 183)),
      (proj2 (Z.leb_gt _ 191)), (proj2 (Z.leb_gt _ 247)) by lia.
    replace (247 + zlen (len_bytes (zlen payload)) - 247) with (zlen (len_bytes (zlen payload))) by lia.
    rewrite Hr. cbn [rbind]. rewrite Hp. cbn [rbind]. rewrite Hsl, Hd. cbn [rbind].
    do 2 f_equal. f_equal. rewrite zlen_cons, zlen_app. lia.
Qed.

Lemma decode_one_complete levels : forall r rest left,
  (rlp_depth r < levels)%nat -> rlp_items r <= left -> zlen (rlp_encode r) + 9 < 2 ^ 64 ->
  decode_one levels (rlp_encode r ++ rest) left
    = Ok (r, zlen (rlp_encode r), left - rlp_items r).
Proof.
  induction levels as [|levels IH]; intros r rest left Hd Hi Hz; [lia|].
  destruct r as [s|l].
  - apply decode_one_str; [done|]. cbn [rlp_encode] in Hz.
    destruct s as [|b [|c s]]; cbn [encode_str] in Hz; [done| |].
    + by vm_compute.
    + rewrite zlen_app in Hz. pose proof (zlen_nonneg (rlp_header 128 183 (zlen (b :: c :: s)))). lia.
  - cbn [rlp_encode] in Hz. rewrite zlen_app in Hz.
    pose proof (zlen_nonneg (rlp_header 192 247 (zlen (concat (map rlp_encode l))))).
    pose proof (rlp_items_pos (RList l)).
    apply decode_one_list; [lia|lia|]. cbn [rlp_items] in Hi.
    rewrite decode_list_complete; [do 2 f_equal; cbn [rlp_items]; lia| | | |done|lia].
    + intros r rest' left' Hin Hleft. apply IH; [|done|].
      * eapply foldr_depth_lt; [|exact Hin]. cbn [rlp_depth] in Hd. lia.
      * pose proof (concat_zlen_In l r Hin). lia.
    + apply Forall_true. intros r. apply rlp_encode_ne.
    + apply Forall_true. intros r. pose proof (rlp_items_pos r). lia.
Qed.

Lemma decode_canonical_total buf : decode_canonical buf <> Panic.
Proof.
  unfold decode_canonical.
  pose proof (decode_one_total (S MAX_RLP_DEPTH) buf MAX_RLP_ITEMS) as H.
  destruct (decode_one _ _ _) as [[[item used] l]| |]; cbn [rbind]; [by case_match|done|done].
Qed.

Lemma decode_canonical_ok buf r :
  zlen buf + 9 < 2 ^ 64 ->
  decode_canonical buf = Ok r <->
  rlp_encode r = buf /\ (rlp_depth r <= MAX_RLP_DEPTH)%nat /\ rlp_items r <= MAX_RLP_ITEMS.
Proof.
  intros Hz. unfold decode_canonical. split.
  - intros H. apply rbind_ok in H as ([[item used] l] & H1 & H).
    destruct (used =? zlen buf) eqn:E; [|done]. cbn [negb] in H. injection H as ->. zbool.
    destruct (decode_one_sound _ _ _ _ _ _ H1) as (Hu & Hd & Hl & Hl0 & _ & rest & Eb).
    assert (rest = []) as ->.
    { rewrite Eb, zlen_app in E. destruct rest as [|x rest]; [done|].
      rewrite zlen_cons in E. pose proof (zlen_nonneg rest). lia. }
    rewrite app_nil_r in Eb. split; [done|]. split; lia.
  - intros (E & Hd & Hi).
    pose proof (decode_one_complete (S MAX_RLP_DEPTH) r [] MAX_RLP_ITEMS) as Hc.
    rewrite app_nil_r, E in Hc. rewrite Hc by lia. cbn [rbind]. by rewrite Z.eqb_refl.
Qed.

(** The first byte of a list. *)
Lemma rlp_list_head l :
  zlen (rlp_encode (RList l)) < 2 ^ 64 ->
  exists b tl, rlp_encode (RList l) = b :: tl /\ 0xc0 <= b2z b.
Proof.
  cbn [rlp_encode]. set (payload := concat (map rlp_encode l)). rewrite zlen_app. intros Hz.
  pose proof (zlen_nonneg payload). pose proof (zlen_nonneg (rlp_header 192 247 (zlen payload))).
  destruct (decide (zlen payload <= 55)).
  - rewrite rlp_header_short by lia. eexists _, _. split; [reflexivity|].
    rewrite b2z_small by lia. lia.
  - rewrite rlp_header_long by lia. eexists _, _. split; [reflexivity|].
    destruct (len_bytes_spec (zlen payload)) as (Hl & _); [lia|]. rewrite b2z_small by lia. lia.
Qed.

(** C34: the decoder is the inverse of the RLP encoding.  It never panics, and
    it accepts a buffer exactly when the buffer is the canonical encoding of an
    item of nesting at most [MAX_RLP_DEPTH] and at most [MAX_RLP_ITEMS] strings
    and lists; the item is then the one it returns. *)
Theorem decode_canonical_iff buf r :
  zlen buf + 9 < 2 ^ 64 ->
  decode_canonical buf <> Panic /\
  (decode_canonical buf = Ok r <->
   rlp_encode r = buf /\ (rlp_depth r <= MAX_RLP_DEPTH)%nat /\ rlp_items r <= MAX_RLP_ITEMS).
Proof. intros Hz. split; [apply decode_canonical_total|by apply decode_canonical_ok]. Qed.

(** A list of a string, an empty list and a 56-byte string. *)
Definition sample_rlp : Rlp := RList [Str [x7f]; RList []; Str (replicate 56 xaa)].

Lemma decode_canonical_iff_witness : decode_canonical (rlp_encode sample_rlp) = Ok sample_rlp.
Proof.
  apply (decode_canonical_iff (rlp_encode sample_rlp) sample_rlp); [by vm_compute|].
  split; [done|]. split; [by vm_compute; lia|by vm_compute].
Defined.
