(* ===== verification/Ber.v ===== *)
(** * BER to DER conversion of the KMS envelope (src/enclave/src/kms/ber.rs)

    The converter, its output encoder, and the grammar of the BER values it
    accepts.  A Rust [None] is [Err tt]; [Panic] is an index out of range or a
    loop that outlives its fuel, and neither happens.  Offsets stay below the
    length of the input plus [2 ^ 32], so [usize] additions do not wrap; the
    one [checked_add] is written out. *)

From stdpp Require Import base numbers list.
From S2P Require Import Prelude Lengths.

#[local] Open Scope list_scope.
#[local] Open Scope Z_scope.

Definition MAX_DEPTH : nat := 16.
Definition MAX_TAG_BYTES : Z := 4.
Definition MAX_LENGTH_BYTES : Z := 4.
Definition UNIVERSAL_OCTET_STRING : Z := 0x04.
Definition CONSTRUCTED : Z := 0x20.
Definition CLASS_MASK : Z := 0xC0.
Definition CLASS_CONTEXT : Z := 0x80.

Inductive Body (N : Type) : Type :=
| Primitive (content : bytes)
| Constructed (children : list N).
Arguments Primitive {N} content.
Arguments Constructed {N} children.

Inductive Node : Type := MkNode (tag : bytes) (body : Body Node).

Abbreviation parsed := (res unit).

(** ** The output encoder *)

(** [bytes.iter().take_while(|b| **b == 0).count()]. *)
Fixpoint leading_zeros (bs : bytes) : nat :=
  match bs with
  | b :: bs => if b2z b =? 0 then S (leading_zeros bs) else O
  | [] => O
  end.

(** [encode_length]: the bytes it pushes. *)
Definition encode_length (len : Z) : bytes :=
  if len <? 0x80 then [z2b len]
  else
    let bs := be_split 8 len in
    let skip := leading_zeros bs in
    z2b (Z.lor 0x80 (zlen bs - Z.of_nat skip)) :: drop skip bs.

(** [Node::encode]: the bytes it appends. *)
Fixpoint encode (n : Node) : bytes :=
  match n with
  | MkNode tag (Primitive content) => tag ++ encode_length (zlen content) ++ content
  | MkNode tag (Constructed children) =>
      let inner := concat (map encode children) in
      tag ++ encode_length (zlen inner) ++ inner
  end.

(** A primitive OCTET STRING, a chunk of a constructed one. *)
Definition is_chunk (n : Node) : bool :=
  match n with
  | MkNode tag (Primitive _) => bool_decide (tag = [z2b UNIVERSAL_OCTET_STRING])
  | MkNode _ (Constructed _) => false
  end.

Definition chunk_content (n : Node) : bytes :=
  match n with
  | MkNode _ (Primitive content) => content
  | MkNode _ (Constructed _) => []
  end.

(** [Node::joined].  [self.tag[0]] exists: a tag has at least one byte. *)
Definition joined (n : Node) : Node :=
  match n with
  | MkNode _ (Primitive _) => n
  | MkNode tag (Constructed children) =>
      match tag with
      | [] => n
      | first :: _ =>
          let first := b2z first in
          let eligible := (zlen tag =? 1)
            && ((first =? Z.lor UNIVERSAL_OCTET_STRING CONSTRUCTED)
                || (Z.land first CLASS_MASK =? CLASS_CONTEXT)) in
          let all_chunks := negb (bool_decide (children = [])) && forallb is_chunk children in
          if negb (eligible && all_chunks) then n
          else MkNode [z2b (Z.ldiff first CONSTRUCTED)]
                      (Primitive (concat (map chunk_content children)))
      end
  end.

#[global] Arguments joined : simpl never.

(** ** The parser *)

(** The loop over the continuation octets of a tag, from [offset]. *)
Fixpoint tag_loop (fuel : nat) (input : bytes) (offset : Z) : parsed Z :=
  match fuel with
  | O => Panic
  | S fuel =>
      let? b := ok_or (input !! Z.to_nat offset) tt in
      let offset := offset + 1 in
      if MAX_TAG_BYTES <? offset then Err tt
      else if Z.land (b2z b) 0x80 =? 0 then Ok offset
      else tag_loop fuel input offset
  end.

(** The length octets after [l] at [offset]: the length ([None] when it is
    indefinite) and the next offset. *)
Definition read_length (input : bytes) (offset : Z) (l : Z) : parsed (option Z * Z) :=
  if l <? 0x80 then Ok (Some l, offset)
  else if l =? 0x80 then Ok (None, offset)
  else
    let n := Z.land l 0x7F in
    if MAX_LENGTH_BYTES <? n then Err tt
    else if zlen input <? offset + n then Err tt
    else
      let bs := slice offset (offset + n) input in
      let? b := expect (head bs) in
      if b2z b =? 0 then Err tt
      else Ok (Some (fold_left (fun v b => Z.lor (Z.shiftl v 8) (b2z b)) bs 0), offset + n).

Section Loops.
Context (parse : bytes -> parsed (Node * Z)).

(** [while offset < end]. *)
Fixpoint definite_children (fuel : nat) (input : bytes) (offset e : Z)
    : parsed (list Node * Z) :=
  if negb (offset <? e) then Ok ([], offset)
  else
    match fuel with
    | O => Panic
    | S fuel =>
        let? (child, used) := parse (slice offset e input) in
        let? (children, offset) := definite_children fuel input (offset + used) e in
        Ok (child :: children, offset)
    end.

(** The loop up to the end-of-contents octets. *)
Fixpoint indefinite_children (fuel : nat) (input : bytes) (offset : Z)
    : parsed (list Node * Z) :=
  match fuel with
  | O => Panic
  | S fuel =>
      let? rest := ok_or (slice_from input (Z.to_nat offset)) tt in
      if bool_decide (take 2 rest = [x00; x00]) then Ok ([], offset + 2)
      else
        let? (child, used) := parse rest in
        let? (children, offset) := indefinite_children fuel input (offset + used) in
        Ok (child :: children, offset)
  end.
End Loops.

(** The body behind the length octets. *)
Definition parse_body (parse : bytes -> parsed (Node * Z)) (input : bytes) (offset : Z)
    (length_ : option Z) (constructed : bool) : parsed (Body Node * Z) :=
  match length_, constructed with
  | Some len, false =>
      if zlen input <? offset + len then Err tt
      else Ok (Primitive (slice offset (offset + len) input), offset + len)
  | Some len, true =>
      let e := offset + len in
      if u64_max <? e then Err tt
      else if zlen input <? e then Err tt
      else
        let? (children, offset) := definite_children parse (S (length input)) input offset e in
        Ok (Constructed children, offset)
  | None, false => Err tt
  | None, true =>
      let? (children, offset) := indefinite_children parse (S (length input)) input offset in
      Ok (Constructed children, offset)
  end.

(** [parse] at depth [MAX_DEPTH + 1 - levels]. *)
Fixpoint parse (levels : nat) (input : bytes) : parsed (Node * Z) :=
  match levels with
  | O => Err tt
  | S levels =>
      if zlen input <? 2 then Err tt
      else
        let? first := expect (head input) in
        let? offset :=
          if Z.land (b2z first) 0x1F =? 0x1F then tag_loop 4 input 1 else Ok 1 in
        let tag := take (Z.to_nat offset) input in
        let constructed := negb (Z.land (b2z first) CONSTRUCTED =? 0) in
        let? l := ok_or (input !! Z.to_nat offset) tt in
        let? (length_, offset) := read_length input (offset + 1) (b2z l) in
        let? (body, offset) := parse_body (parse levels) input offset length_ constructed in
        Ok (joined (MkNode tag body), offset)
  end.

Definition ber_to_der (input : bytes) : parsed bytes :=
  let? (node, used) := parse (S MAX_DEPTH) input in
  if negb (used =? zlen input) then Err tt else Ok (encode node).

(** ** The grammar of BER (X.690, clause 8.1) with the limits above *)

(** Identifier octets whose constructed bit is [k]. *)
Definition tag_octets (k : bool) (tag : bytes) : Prop :=
  exists first conts, tag = first :: conts /\
    negb (Z.land (b2z first) CONSTRUCTED =? 0) = k /\
    ((Z.land (b2z first) 0x1F <> 0x1F /\ conts = []) \/
     (Z.land (b2z first) 0x1F = 0x1F /\ exists init last, conts = init ++ [last] /\
        Forall (fun b => Z.land (b2z b) 0x80 <> 0) init /\ Z.land (b2z last) 0x80 = 0 /\
        1 + zlen conts <= 4)).

(** Definite length octets: the short form, or the long one without a leading zero. *)
Definition length_octets (n : Z) (l : bytes) : Prop :=
  (n < 0x80 /\ l = [z2b n]) \/
  (exists bs, l = z2b (0x80 + zlen bs) :: bs /\ 1 <= zlen bs <= 4 /\
     head bs <> Some x00 /\ be_combine bs = n).

(** [ber d t b]: the octets [b] are a value [t] nested at most [d] deep;
    [bers eoc d ts b]: a sequence of them, none of which reads as end of
    contents when [eoc]. *)
Inductive ber : nat -> Node -> bytes -> Prop :=
| ber_primitive d tag l content :
    tag_octets false tag -> length_octets (zlen content) l ->
    ber (S d) (MkNode tag (Primitive content)) (tag ++ l ++ content)
| ber_definite d tag l children inner :
    tag_octets true tag -> bers false d children inner -> length_octets (zlen inner) l ->
    ber (S d) (MkNode tag (Constructed children)) (tag ++ l ++ inner)
| ber_indefinite d tag children inner :
    tag_octets true tag -> bers true d children inner ->
    ber (S d) (MkNode tag (Constructed children)) (tag ++ [x80] ++ inner ++ [x00; x00])
with bers : bool -> nat -> list Node -> bytes -> Prop :=
| bers_nil eoc d : bers eoc d [] []
| bers_cons eoc d t ts b bs :
    ber d t b -> (eoc = true -> take 2 b <> [x00; x00]) -> bers eoc d ts bs ->
    bers eoc d (t :: ts) (b ++ bs).

Scheme ber_mut := Induction for ber Sort Prop with bers_mut := Induction for bers Sort Prop.
Combined Scheme ber_bers_ind from ber_mut, bers_mut.

(** Chunked strings joined from the leaves up. *)
Fixpoint normal (n : Node) : Node :=
  match n with
  | MkNode tag (Primitive content) => n
  | MkNode tag (Constructed children) => joined (MkNode tag (Constructed (map normal children)))
  end.

(** The content octets of a value, in order. *)
Fixpoint content (n : Node) : bytes :=
  match n with
  | MkNode _ (Primitive c) => c
  | MkNode _ (Constructed children) => concat (map content children)
  end.

(** ** Identifier and length octets *)

Lemma lookup_end {A} (pre : list A) rest : (pre ++ rest) !! Z.to_nat (zlen pre) = head rest.
Proof. unfold zlen. rewrite Nat2Z.id, lookup_app_r, Nat.sub_diag by lia. by destruct rest. Qed.

Lemma tag_loop_iff fuel : forall pre rest,
  (0 < fuel)%nat -> Z.of_nat fuel + zlen pre = 5 ->
  tag_loop fuel (pre ++ rest) (zlen pre) <> Panic /\
  forall off, tag_loop fuel (pre ++ rest) (zlen pre) = Ok off <->
    exists init last rest', rest = init ++ last :: rest' /\
      Forall (fun b => Z.land (b2z b) 0x80 <> 0) init /\ Z.land (b2z last) 0x80 = 0 /\
      off = zlen pre + zlen init + 1 /\ off <= MAX_TAG_BYTES.
Proof.
  unfold MAX_TAG_BYTES.
  induction fuel as [|fuel IH]; intros pre rest Hf Hs; [lia|]. cbn [tag_loop].
  rewrite lookup_end. destruct rest as [|b rest]; cbn [head ok_or rbind].
  { split; [done|]. intros off. split; [done|]. by intros ([] & ? & ? & ? & _). }
  change (Z.ltb MAX_TAG_BYTES) with (Z.ltb 4). destruct (4 <? zlen pre + 1) eqn:E; zbool.
  { split; [done|]. intros off. split; [done|].
    intros (init & _ & _ & _ & _ & _ & -> & H). pose proof (zlen_nonneg init). lia. }
  destruct (Z.land (b2z b) 128 =? 0) eqn:Eb; zbool.
  { split; [done|]. intros off. split.
    - intros [= <-]. exists [], b, rest. cbn. split_and!; try done; rewrite ?zlen_nil; lia.
    - intros ([|c init] & last & rest' & Hr & Hi & _ & -> & _).
      + rewrite zlen_nil. f_equal. lia.
      + injection Hr as <- _. by apply Forall_cons in Hi as [? _]. }
  replace (zlen pre + 1) with (zlen (pre ++ [b])) by (rewrite zlen_app; done).
  replace (pre ++ b :: rest) with ((pre ++ [b]) ++ rest) by by rewrite <- app_assoc.
  destruct (IH (pre ++ [b]) rest) as [Hp Hiff]; [lia|rewrite zlen_app; change (zlen [b]) with 1; lia|].
  split; [done|]. intros off. rewrite Hiff. rewrite zlen_app. change (zlen [b]) with 1. split.
  - intros (init & last & rest' & -> & Hi & Hl & -> & Ho). exists (b :: init), last, rest'.
    rewrite zlen_cons in *. split_and!; try done; (lia || by constructor).
  - intros ([|c init] & last & rest' & Hr & Hi & Hl & -> & Ho); injection Hr as <- ->; [done|].
    apply Forall_cons in Hi as [_ Hi]. exists init, last, rest'. rewrite zlen_cons in *.
    split_and!; try done; lia.
Qed.

(** The identifier octets at the start of an input. *)
Definition read_tag (input : bytes) (first : byte) : parsed Z :=
  if Z.land (b2z first) 0x1F =? 0x1F then tag_loop 4 input 1 else Ok 1.

Lemma read_tag_iff first tl :
  read_tag (first :: tl) first <> Panic /\
  forall off, read_tag (first :: tl) first = Ok off <->
    exists tag rest, first :: tl = tag ++ rest /\ zlen tag = off /\
      tag_octets (negb (Z.land (b2z first) CONSTRUCTED =? 0)) tag.
Proof.
  unfold read_tag. destruct (tag_loop_iff 4 [first] tl) as [Hp Hiff]; [lia|done|].
  unfold MAX_TAG_BYTES in Hiff.
  change (zlen [first]) with 1 in *. change ([first] ++ tl) with (first :: tl) in *.
  destruct (Z.land (b2z first) 31 =? 31) eqn:E; zbool.
  - split; [done|]. intros off. rewrite Hiff. split.
    + intros (init & last & rest & -> & Hi & Hl & -> & Ho).
      exists (first :: init ++ [last]), rest. split; [cbn; by rewrite <- app_assoc|].
      rewrite zlen_cons, zlen_app. change (zlen [last]) with 1. split; [lia|].
      exists first, (init ++ [last]). split; [done|]. split; [done|]. right. split; [done|].
      exists init, last. rewrite zlen_app. change (zlen [last]) with 1. split_and!; try done. lia.
    + intros (tag & rest & Ht & <- & f & conts & -> & _ & Hc). injection Ht as <- ->.
      destruct Hc as [[? _]|(_ & init & last & -> & Hi & Hl & Ho)]; [done|].
      exists init, last, rest. rewrite <- app_assoc, zlen_cons, zlen_app in *.
      change (zlen [last]) with 1 in *. split_and!; try done; lia.
  - split; [done|]. intros off. split.
    + intros [= <-]. exists [first], tl. split; [done|]. split; [done|].
      exists first, []. split; [done|]. split; [done|]. by left.
    + intros (tag & rest & Ht & <- & f & conts & -> & _ & Hc). injection Ht as <- ->.
      destruct Hc as [[_ ->]|(? & _)]; done.
Qed.

(** [v = (v << 8) | b] over at most seven bytes is the big-endian value. *)
Lemma lor_shift_add v b : 0 <= b < 256 -> Z.lor (Z.shiftl v 8) b = v * 256 + b.
Proof. intros Hb. rewrite Z.lor_comm, lor_disjoint by (done || lia). change (2 ^ 8) with 256. lia. Qed.

Lemma fold_lor_be bs : forall v, 0 <= v ->
  fold_left (fun v b => Z.lor (Z.shiftl v 8) (b2z b)) bs v =
  fold_left (fun acc b => acc * 256 + b2z b) bs v.
Proof.
  induction bs as [|b bs IH]; intros v Hv; cbn [fold_left]; [done|].
  pose proof (b2z_range b). rewrite lor_shift_add by done. apply IH. lia.
Qed.

Lemma land_7f b : 0x80 <= b2z b -> Z.land (b2z b) 0x7F = b2z b - 0x80.
Proof.
  intros H. change 0x7F with (Z.ones 7). rewrite Z.land_ones by lia. change (2 ^ 7) with 128.
  pose proof (b2z_range b). symmetry. apply (Z.mod_unique _ _ 1); lia.
Qed.

Lemma read_length_nonneg input offset l n off :
  read_length input offset (b2z l) = Ok (Some n, off) -> 0 <= n.
Proof.
  unfold read_length. pose proof (b2z_range l). repeat case_match; try done.
  - intros [= <- _]. lia.
  - intros Hr. apply rbind_ok in Hr as (b & _ & Hr). destruct (b2z b =? 0); [done|].
    injection Hr as <- _. rewrite fold_lor_be by done. apply be_combine_bound.
Qed.

Definition read_length_spec (pre : bytes) (l : byte) (rest : bytes)
    (length_ : option Z) (off : Z) : Prop :=
  match length_ with
  | None => l = x80 /\ off = zlen pre + 1
  | Some n => exists lo rest', l :: rest = lo ++ rest' /\ length_octets n lo /\
                off = zlen pre + zlen lo
  end.

Lemma slice_mid (pre mid post : bytes) lo hi :
  zlen pre = lo -> lo + zlen mid = hi -> slice lo hi (pre ++ mid ++ post) = mid.
Proof.
  intros Hl <-. rewrite slice_app by done. unfold zlen. by rewrite Nat2Z.id, take_app_length.
Qed.

Lemma split_at {A} (l : list A) n :
  0 <= n <= zlen l -> exists a b, l = a ++ b /\ zlen a = n.
Proof.
  intros Hn. exists (take (Z.to_nat n) l), (drop (Z.to_nat n) l).
  split; [by rewrite take_drop|by apply zlen_take].
Qed.

Lemma zlen_0_nil {A} (l : list A) : zlen l = 0 -> l = [].
Proof. destruct l; [done|]. rewrite zlen_cons. pose proof (zlen_nonneg l). lia. Qed.

Lemma z2b_eq_b2z (z : Z) (b : byte) : 0 <= z < 256 -> z2b z = b -> b2z b = z.
Proof. intros Hz <-. by apply b2z_small. Qed.

Lemma length_octets_nonneg n l : length_octets n l -> 0 <= zlen l - 1 /\ (0 <= n -> n < 2 ^ 32).
Proof.
  intros [[Hn ->]|(bs & -> & Hz & _ & <-)]; [split; [done|lia]|].
  unfold MAX_LENGTH_BYTES in Hz. rewrite zlen_cons. split; [lia|]. intros _.
  pose proof (be_combine_bound bs). change (2 ^ 32) with (256 ^ 4).
  assert (256 ^ zlen bs <= 256 ^ 4) by (apply Z.pow_le_mono_r; lia). lia.
Qed.

(** The long form: at least one length octet follows [l]. *)
Lemma read_length_long (pre : bytes) (l : byte) (rest : bytes) :
  0x80 < b2z l -> let n := b2z l - 0x80 in
  read_length (pre ++ l :: rest) (zlen pre + 1) (b2z l) =
    if (MAX_LENGTH_BYTES <? n) || (zlen rest <? n) then Err tt
    else if bool_decide (head (take (Z.to_nat n) rest) = Some x00) then Err tt
    else Ok (Some (be_combine (take (Z.to_nat n) rest)), zlen pre + 1 + n).
Proof.
  intros Hl n. pose proof (b2z_range l). pose proof (zlen_nonneg pre). unfold read_length.
  rewrite (proj2 (Z.ltb_ge _ _)) by lia. rewrite (proj2 (Z.eqb_neq _ _)) by lia.
  rewrite land_7f by lia. fold n. destruct (MAX_LENGTH_BYTES <? n) eqn:E1; cbn [orb]; [done|].
  replace (zlen (pre ++ l :: rest) <? zlen pre + 1 + n) with (zlen rest <? n)
    by (rewrite zlen_app, zlen_cons; lia).
  destruct (zlen rest <? n) eqn:E2; [done|]. zbool.
  replace (pre ++ l :: rest) with ((pre ++ [l]) ++ rest) by by rewrite <- app_assoc.
  rewrite slice_app by (rewrite zlen_app; done).
  pose proof (zlen_take rest n ltac:(lia)) as Hz.
  destruct (take (Z.to_nat n) rest) as [|b bs]; [rewrite zlen_nil in Hz; lia|].
  cbn [head expect rbind]. rewrite fold_lor_be by done.
  destruct (b2z b =? 0) eqn:Eb; zbool.
  - apply (b2z_inj b x00) in Eb as ->. by rewrite bool_decide_eq_true_2.
  - rewrite bool_decide_eq_false_2; [done|]. intros [= ->]. done.
Qed.

Lemma read_length_iff_long pre l rest :
  0x80 < b2z l ->
  read_length (pre ++ l :: rest) (zlen pre + 1) (b2z l) <> Panic /\
  forall length_ off, (length_ = None \/ exists n, length_ = Some n /\ 0 <= n) ->
    read_length (pre ++ l :: rest) (zlen pre + 1) (b2z l) = Ok (length_, off) <->
    read_length_spec pre l rest length_ off.
Proof.
  intros Hl. pose proof (b2z_range l).
  rewrite read_length_long by done. set (n := b2z l - 0x80).
  split; [repeat case_match; done|]. intros length_ off Hn. split.
  - destruct (_ || _) eqn:E1; [done|]. zbool. destruct E1 as [E1 E2].
    case_bool_decide as E3; [done|]. intros [= <- <-].
    exists (l :: take (Z.to_nat n) rest), (drop (Z.to_nat n) rest).
    split; [cbn; by rewrite take_drop|]. pose proof (zlen_take rest n ltac:(unfold n in *; lia)) as Hz.
    rewrite zlen_cons, Hz. split; [|lia]. right. exists (take (Z.to_nat n) rest). rewrite Hz.
    split_and!; try done; try (unfold n; lia). f_equal. symmetry. apply z2b_b2z_eq. unfold n. lia.
  - destruct length_ as [m|]; cbn [read_length_spec]; [|intros [-> _]; done].
    intros (lo & rest' & E & Ho & ->). destruct Hn as [?|(? & [= <-] & Hn)]; [done|].
    destruct Ho as [[Hn' ->]|(bs & -> & Hz & Hh & <-)]; injection E as E ->.
    { rewrite E, b2z_small in Hl by lia. lia. }
    unfold MAX_LENGTH_BYTES in Hz. assert (En : n = zlen bs).
    { unfold n. rewrite E, b2z_small by lia. lia. }
    rewrite (proj2 (Bool.orb_false_iff _ _)).
    2:{ rewrite zlen_app, !Z.ltb_ge. unfold MAX_LENGTH_BYTES. pose proof (zlen_nonneg rest'). lia. }
    assert (take (Z.to_nat n) (bs ++ rest') = bs) as ->
      by (rewrite En; unfold zlen; by rewrite Nat2Z.id, take_app_length).
    rewrite bool_decide_eq_false_2 by done.
    rewrite zlen_cons. f_equal. f_equal. lia.
Qed.

Lemma read_length_iff pre l rest :
  read_length (pre ++ l :: rest) (zlen pre + 1) (b2z l) <> Panic /\
  forall length_ off, (length_ = None \/ exists n, length_ = Some n /\ 0 <= n) ->
    read_length (pre ++ l :: rest) (zlen pre + 1) (b2z l) = Ok (length_, off) <->
    read_length_spec pre l rest length_ off.
Proof.
  pose proof (b2z_range l). destruct (Z.lt_trichotomy (b2z l) 0x80) as [Hl|[Hl|Hl]].
  - unfold read_length. rewrite (proj2 (Z.ltb_lt _ _)) by lia. split; [done|].
    intros length_ off Hn. split.
    + intros [= <- <-]. exists [l], rest. split; [done|]. split; [|done].
      left. by rewrite z2b_b2z.
    + destruct length_ as [n|]; cbn [read_length_spec]; [|intros [-> _]; done].
      intros (lo & rest' & E & Ho & ->). destruct Hn as [?|(? & [= <-] & Hn)]; [done|].
      destruct Ho as [[Hn' ->]|(bs & -> & Hz & _)]; injection E as E ->.
      * change (zlen [z2b n]) with 1. by rewrite E, b2z_small by lia.
      * unfold MAX_LENGTH_BYTES in Hz. rewrite E, b2z_small in Hl by lia. lia.
  - assert (l = x80) as -> by by apply b2z_inj. split; [done|]. intros length_ off Hn. cbn.
    destruct length_ as [n|]; cbn [read_length_spec]; split; try done; try by intros [= <-].
    + intros (lo & rest' & E & Ho & ->). destruct Hn as [?|(? & [= <-] & Hn)]; [done|].
      destruct Ho as [[Hn' ->]|(bs & -> & Hz & _)]; injection E as E ->.
      * apply (f_equal b2z) in E. rewrite b2z_small in E by lia. change (b2z x80) with 128 in E. lia.
      * unfold MAX_LENGTH_BYTES in Hz. apply (f_equal b2z) in E. rewrite b2z_small in E by lia.
        change (b2z x80) with 128 in E. lia.
    + intros [_ ->]. done.
  - by apply read_length_iff_long.
Qed.

(** ** The loops over the children *)

Lemma tag_octets_len k tag : tag_octets k tag -> 1 <= zlen tag <= 4.
Proof.
  intros (first & conts & -> & _ & [[_ ->]|(_ & init & last & -> & _ & _ & H)]); [done|].
  unfold MAX_TAG_BYTES in H. rewrite zlen_cons. pose proof (zlen_nonneg (init ++ [last])). lia.
Qed.

Lemma ber_len d t b : ber d t b -> 2 <= zlen b.
Proof.
  destruct 1 as [d tag l c Ht Hl|d tag l cs inner Ht _ Hl|d tag cs inner Ht _];
    rewrite !zlen_app; apply tag_octets_len in Ht.
  - apply length_octets_nonneg in Hl. pose proof (zlen_nonneg c). lia.
  - apply length_octets_nonneg in Hl. pose proof (zlen_nonneg inner). lia.
  - change (zlen [x80]) with 1. pose proof (zlen_nonneg inner). pose proof (zlen_nonneg [x00; x00]). lia.
Qed.

Lemma take_2_app (b rest : bytes) : 2 <= zlen b -> take 2 (b ++ rest) = take 2 b.
Proof. intros H. apply take_app_le. unfold zlen in H. lia. Qed.

Definition one_sound (d : nat) (one : bytes -> parsed (Node * Z)) : Prop :=
  forall i n used, one i = Ok (n, used) ->
    exists t b rest, ber d t b /\ i = b ++ rest /\ used = zlen b /\ n = normal t.

Definition one_total (one : bytes -> parsed (Node * Z)) : Prop := forall i, one i <> Panic.

Definition one_complete (d : nat) (one : bytes -> parsed (Node * Z)) : Prop :=
  forall t b rest, ber d t b -> is_u64 (zlen (b ++ rest)) ->
    one (b ++ rest) = Ok (normal t, zlen b).

Section Children.
Context (d : nat) (one : bytes -> parsed (Node * Z)).
Context (Hsound : one_sound d one) (Htotal : one_total one).

Lemma slice_from_app (pre rest : bytes) :
  slice_from (pre ++ rest) (Z.to_nat (zlen pre)) = Some rest.
Proof.
  unfold slice_from, zlen. rewrite Nat2Z.id, drop_app_length, length_app.
  by rewrite (proj2 (Nat.leb_le _ _)) by lia.
Qed.

Lemma definite_children_sound fuel : forall pre mid post,
  zlen mid < Z.of_nat fuel ->
  let r := definite_children one fuel (pre ++ mid ++ post) (zlen pre) (zlen pre + zlen mid) in
  r <> Panic /\ forall cs off, r = Ok (cs, off) ->
    off = zlen pre + zlen mid /\ exists ts, bers false d ts mid /\ cs = map normal ts.
Proof.
  induction fuel as [|fuel IH]; intros pre mid post Hf; [pose proof (zlen_nonneg mid); lia|].
  cbn [definite_children]. destruct (zlen pre <? zlen pre + zlen mid) eqn:E; cbn [negb]; zbool.
  2:{ split; [done|]. intros cs off [= <- <-].
      rewrite (zlen_0_nil mid) by (pose proof (zlen_nonneg mid); lia).
      split; [rewrite zlen_nil; lia|]. exists []. split; [constructor|done]. }
  rewrite slice_mid by done. pose proof (Htotal mid) as Hp.
  destruct (one mid) as [[n used]| |] eqn:E1; [|done|done]. cbn [rbind].
  destruct (Hsound _ _ _ E1) as (t & b & rest & Hb & -> & -> & ->).
  pose proof (ber_len _ _ _ Hb). specialize (IH (pre ++ b) rest post).
  rewrite !zlen_app, <- !app_assoc, <- Z.add_assoc in *. destruct IH as [Ht Hs]; [lia|].
  destruct (definite_children _ _ _ _ _) as [[cs off]| |] eqn:E2; [|done|done].
  cbn [rbind]. split; [done|]. intros cs' off' [= <- <-].
  destruct (Hs _ _ eq_refl) as (-> & ts & Hts & ->). split; [done|]. exists (t :: ts).
  split; [|done]. by constructor.
Qed.

Lemma indefinite_children_sound fuel : forall pre rest,
  zlen rest < Z.of_nat fuel ->
  let r := indefinite_children one fuel (pre ++ rest) (zlen pre) in
  r <> Panic /\ forall cs off, r = Ok (cs, off) ->
    exists ts mid post, bers true d ts mid /\ rest = mid ++ [x00; x00] ++ post /\
      off = zlen pre + zlen mid + 2 /\ cs = map normal ts.
Proof.
  induction fuel as [|fuel IH]; intros pre rest Hf; [pose proof (zlen_nonneg rest); lia|].
  cbn [indefinite_children]. rewrite slice_from_app. cbn [ok_or rbind].
  case_bool_decide as E0.
  { split; [done|]. intros cs off [= <- <-]. exists [], [], (drop 2 rest). split; [constructor|].
    split; [cbn [app]; by rewrite <- (take_drop 2 rest), E0 at 1|]. rewrite zlen_nil. split; [lia|done]. }
  pose proof (Htotal rest) as Hp. destruct (one rest) as [[n used]| |] eqn:E1; [|done|done].
  cbn [rbind]. destruct (Hsound _ _ _ E1) as (t & b & tl & Hb & -> & -> & ->).
  pose proof (ber_len _ _ _ Hb). specialize (IH (pre ++ b) tl). rewrite take_2_app in E0 by done.
  rewrite !zlen_app, <- !app_assoc in *. destruct IH as [Ht Hs]; [lia|].
  destruct (indefinite_children _ _ _ _) as [[cs off]| |] eqn:E2; [|done|done].
  cbn [rbind]. split; [done|]. intros cs' off' [= <- <-].
  destruct (Hs _ _ eq_refl) as (ts & mid & post & Hts & -> & -> & ->).
  exists (t :: ts), (b ++ mid), post. rewrite <- app_assoc, zlen_app.
  split; [by constructor|]. split; [done|]. split; [lia|done].
Qed.

Context (Hcomplete : one_complete d one).

Lemma definite_children_complete fuel : forall ts mid pre post,
  bers false d ts mid -> zlen mid < Z.of_nat fuel -> is_u64 (zlen (pre ++ mid ++ post)) ->
  definite_children one fuel (pre ++ mid ++ post) (zlen pre) (zlen pre + zlen mid) =
    Ok (map normal ts, zlen pre + zlen mid).
Proof.
  induction fuel as [|fuel IH]; intros ts mid pre post Hts Hf Hu; [pose proof (zlen_nonneg mid); lia|].
  inversion Hts as [|? ? t ts' b bs Hb _ Hbs]; subst; cbn [definite_children].
  { rewrite (proj2 (Z.ltb_ge _ _)) by (rewrite zlen_nil; lia). cbn. by rewrite zlen_nil, Z.add_0_r. }
  pose proof (ber_len _ _ _ Hb). pose proof (zlen_nonneg bs). rewrite zlen_app in *.
  rewrite (proj2 (Z.ltb_lt _ _)) by lia. cbn [negb].
  rewrite slice_mid by (rewrite ?zlen_app; lia). unfold is_u64 in *.
  rewrite !zlen_app in Hu. pose proof (zlen_nonneg pre). pose proof (zlen_nonneg post).
  rewrite (Hcomplete t) by (done || (unfold is_u64; rewrite zlen_app; lia)). cbn [rbind].
  specialize (IH ts' bs (pre ++ b) post). rewrite !zlen_app, <- !app_assoc in IH.
  rewrite <- !app_assoc, Z.add_assoc, IH by (done || lia). done.
Qed.

Lemma indefinite_children_complete fuel : forall ts mid pre post,
  bers true d ts mid -> zlen mid < Z.of_nat fuel ->
  is_u64 (zlen (pre ++ mid ++ [x00; x00] ++ post)) ->
  indefinite_children one fuel (pre ++ mid ++ [x00; x00] ++ post) (zlen pre) =
    Ok (map normal ts, zlen pre + zlen mid + 2).
Proof.
  induction fuel as [|fuel IH]; intros ts mid pre post Hts Hf Hu; [pose proof (zlen_nonneg mid); lia|].
  cbn [indefinite_children]. rewrite slice_from_app. cbn [ok_or rbind].
  inversion Hts as [|? ? t ts' b bs Hb He Hbs]; subst.
  { rewrite bool_decide_eq_true_2 by done. rewrite zlen_nil. cbn [map]. by rewrite Z.add_0_r. }
  pose proof (ber_len _ _ _ Hb). pose proof (zlen_nonneg bs). rewrite <- app_assoc, take_2_app by done.
  rewrite bool_decide_eq_false_2 by by apply He. unfold is_u64 in *.
  rewrite <- app_assoc in Hu. rewrite !zlen_app in Hu. rewrite zlen_app in Hf |- *.
  pose proof (zlen_nonneg pre).
  pose proof (zlen_nonneg post). change (zlen [x00; x00]) with 2 in Hu.
  rewrite (Hcomplete t) by (done || (unfold is_u64; rewrite !zlen_app; change (zlen [x00; x00]) with 2; lia)).
  cbn [rbind]. specialize (IH ts' bs (pre ++ b) post). rewrite !zlen_app, <- !app_assoc in IH.
  change (zlen [x00; x00]) with 2 in IH. rewrite IH by (done || lia). cbn [rbind map]. f_equal. f_equal. lia.
Qed.
End Children.

(** ** One value *)

Lemma parse_unfold levels first tl :
  parse (S levels) (first :: tl) =
    (if zlen (first :: tl) <? 2 then Err tt
     else
       let? offset := read_tag (first :: tl) first in
       let? l := ok_or ((first :: tl) !! Z.to_nat offset) tt in
       let? (length_, offset') := read_length (first :: tl) (offset + 1) (b2z l) in
       let? (body, e) := parse_body (parse levels) (first :: tl) offset' length_
                           (negb (Z.land (b2z first) CONSTRUCTED =? 0)) in
       Ok (joined (MkNode (take (Z.to_nat offset) (first :: tl)) body), e)).
Proof. reflexivity. Qed.

Lemma take_zlen_app {A} (a b : list A) : take (Z.to_nat (zlen a)) (a ++ b) = a.
Proof. unfold zlen. by rewrite Nat2Z.id, take_app_length. Qed.

(** The body that starts behind [pre]; the grammar of the octets it takes. *)
Definition body_octets (d : nat) (k : bool) (length_ : option Z) (t : Body Node) (b : bytes) : Prop :=
  match t, k, length_ with
  | Primitive c, false, Some n => b = c /\ zlen c = n
  | Constructed ts, true, Some n => bers false d ts b /\ zlen b = n
  | Constructed ts, true, None => exists inner, bers true d ts inner /\ b = inner ++ [x00; x00]
  | _, _, _ => False
  end.

Definition normal_body (t : Body Node) : Body Node :=
  match t with
  | Primitive c => Primitive c
  | Constructed ts => Constructed (map normal ts)
  end.

Lemma parse_body_sound d one pre rest length_ k :
  one_sound d one -> one_total one -> (forall n, length_ = Some n -> 0 <= n) ->
  let r := parse_body one (pre ++ rest) (zlen pre) length_ k in
  r <> Panic /\ forall body off, r = Ok (body, off) ->
    exists t b post, body_octets d k length_ t b /\ rest = b ++ post /\
      off = zlen pre + zlen b /\ body = normal_body t.
Proof.
  intros Hs Ht Hn. unfold parse_body. rewrite zlen_app.
  assert (Hlen : zlen rest < Z.of_nat (S (length (pre ++ rest))))
    by (unfold zlen; rewrite length_app; lia).
  destruct length_ as [n|]; [specialize (Hn n eq_refl)|]; destruct k.
  - destruct (u64_max <? _); [done|]. destruct (_ <? zlen pre + n) eqn:E; [done|]. zbool.
    destruct (split_at rest n ltac:(lia)) as (mid & post & -> & <-). rewrite zlen_app in Hlen.
    pose proof (zlen_nonneg post).
    destruct (definite_children_sound d one Hs Ht (S (length (pre ++ mid ++ post))) pre mid post)
      as [Hp Hok]; [lia|].
    destruct (definite_children _ _ _ _ _) as [[cs off]| |]; [|done|done]. split; [done|].
    intros body off' [= <- <-]. destruct (Hok _ _ eq_refl) as (-> & ts & Hts & ->).
    exists (Constructed ts), mid, post. done.
  - destruct (_ <? zlen pre + n) eqn:E; [done|]. zbool. split; [done|]. intros body off [= <- <-].
    destruct (split_at rest n ltac:(lia)) as (mid & post & -> & <-).
    exists (Primitive mid), mid, post. rewrite slice_mid by done. done.
  - destruct (indefinite_children_sound d one Hs Ht _ pre rest Hlen) as [Hp Hok].
    destruct (indefinite_children _ _ _ _) as [[cs off]| |]; [|done|done]. split; [done|].
    intros body off' [= <- <-]. destruct (Hok _ _ eq_refl) as (ts & mid & post & Hts & -> & -> & ->).
    exists (Constructed ts), (mid ++ [x00; x00]), post. rewrite zlen_app.
    change (zlen [x00; x00]) with 2. split_and!; [by exists mid|by rewrite <- app_assoc|lia|done].
  - done.
Qed.

Lemma parse_body_complete d one pre length_ k t b post :
  one_complete d one -> body_octets d k length_ t b -> is_u64 (zlen (pre ++ b ++ post)) ->
  parse_body one (pre ++ b ++ post) (zlen pre) length_ k = Ok (normal_body t, zlen pre + zlen b).
Proof.
  intros Hc Hb Hu. unfold parse_body, is_u64, u64_max in *.
  assert (Hlen : zlen b < Z.of_nat (S (length (pre ++ b ++ post))))
    by (unfold zlen; rewrite !length_app; lia).
  pose proof (zlen_nonneg post). pose proof Hu as Hu'. rewrite !zlen_app in Hu'.
  destruct t as [c|ts], k, length_ as [n|]; cbn [body_octets] in Hb; try done.
  - destruct Hb as [-> <-]. rewrite (proj2 (Z.ltb_ge _ _)) by (rewrite !zlen_app; lia).
    rewrite slice_mid by done. done.
  - destruct Hb as [Hb <-]. rewrite !(proj2 (Z.ltb_ge _ _)) by (rewrite ?zlen_app; lia).
    by rewrite (definite_children_complete d one Hc _ ts b pre post).
  - destruct Hb as (inner & Hb & ->). rewrite zlen_app in Hlen |- *. change (zlen [x00; x00]) with 2 in *.
    rewrite <- !app_assoc in *. rewrite (indefinite_children_complete d one Hc _ ts inner pre post);
      [|done|lia|done]. cbn [rbind]. f_equal. f_equal. lia.
Qed.

(** The octets of a value, part by part. *)
Lemma ber_parts d tag t b :
  ber (S d) (MkNode tag t) b <->
  exists k length_ l body, tag_octets k tag /\ body_octets d k length_ t body /\
    b = tag ++ l ++ body /\
    match length_ with Some n => length_octets n l | None => l = [x80] end.
Proof.
  split.
  - inversion 1; subst.
    + exists false, (Some (zlen content0)), l, content0. by split_and!.
    + exists true, (Some (zlen inner)), l, inner. by split_and!.
    + exists true, None, [x80], (inner ++ [x00; x00]). split_and!; try done. by exists inner.
  - intros (k & length_ & l & body & Ht & Hb & -> & Hl).
    destruct t as [c|ts], k, length_ as [n|]; cbn [body_octets] in Hb; try done.
    + destruct Hb as [-> <-]. by constructor.
    + destruct Hb as [Hb <-]. by constructor.
    + destruct Hb as (inner & Hb & ->). subst l. by constructor.
Qed.

Lemma normal_node tag t : joined (MkNode tag (normal_body t)) = normal (MkNode tag t).
Proof. by destruct t. Qed.

Lemma parse_sound levels : one_sound levels (parse levels) /\ one_total (parse levels).
Proof.
  induction levels as [|d [IHs IHt]]; [split; [intros ? ? ?; done|intros ?; done]|].
  assert (H : forall i, parse (S d) i <> Panic /\ forall n used, parse (S d) i = Ok (n, used) ->
    exists t b rest, ber (S d) t b /\ i = b ++ rest /\ used = zlen b /\ n = normal t).
  2:{ split; [intros i n used; apply H|intros i; apply H]. }
  intros [|first tl]; [done|]. rewrite parse_unfold. destruct (_ <? 2); [done|].
  destruct (read_tag_iff first tl) as [Hp1 Htag].
  destruct (read_tag _ _) as [off1| |] eqn:E1; [|done|done]. cbn [rbind].
  destruct (proj1 (Htag _) eq_refl) as (tag & rest & Ei & <- & Ht). rewrite Ei, lookup_end.
  destruct rest as [|l rest]; [done|]. cbn [head ok_or rbind].
  destruct (read_length_iff tag l rest) as [Hp2 Hlen].
  destruct (read_length _ _ _) as [[length_ off2]| |] eqn:E2; [|done|done]. cbn [rbind].
  assert (Hn : forall n, length_ = Some n -> 0 <= n) by (intros n ->; by eapply read_length_nonneg).
  assert (Hl : exists lo rest', l :: rest = lo ++ rest' /\ off2 = zlen (tag ++ lo) /\
    match length_ with Some n => length_octets n lo | None => lo = [x80] end).
  { assert (Hok : length_ = None \/ exists n, length_ = Some n /\ 0 <= n)
      by (destruct length_; [right; eauto|by left]).
    apply (Hlen _ off2) in Hok. apply proj1 in Hok. specialize (Hok eq_refl).
    destruct length_; cbn [read_length_spec] in Hok.
    - destruct Hok as (lo & rest' & -> & Ho & ->). exists lo, rest'. by rewrite zlen_app.
    - destruct Hok as [-> ->]. exists [x80], rest. by rewrite zlen_app. }
  destruct Hl as (lo & rest' & -> & -> & Ho). rewrite app_assoc.
  destruct (parse_body_sound d (parse d) (tag ++ lo) rest' length_
    (negb (Z.land (b2z first) CONSTRUCTED =? 0)) IHs IHt Hn) as [Hp3 Hbody].
  destruct (parse_body _ _ _ _ _) as [[body off]| |]; [|done|done]. cbn [rbind]. split; [done|].
  intros n used [= <- <-]. destruct (Hbody _ _ eq_refl) as (t & b & post & Hb & -> & -> & ->).
  exists (MkNode tag t), (tag ++ lo ++ b), post. split; [apply ber_parts; eauto 10|].
  rewrite <- !app_assoc, !zlen_app, take_zlen_app, normal_node. split_and!; (done || lia).
Qed.

Lemma parse_complete levels : one_complete levels (parse levels).
Proof.
  induction levels as [|d IH]; intros [tag t] b rest Hb Hu; [inversion Hb|].
  pose proof (ber_len _ _ _ Hb) as H2.
  apply ber_parts in Hb as (k & length_ & l & body & Ht & Hb & -> & Hl).
  pose proof Ht as (first & conts & Etag & Hk & _).
  rewrite <- !app_assoc in *. rewrite Etag. rewrite <- app_comm_cons, parse_unfold, app_comm_cons, <- Etag.
  rewrite (proj2 (Z.ltb_ge _ _)) by (rewrite app_assoc, app_assoc, zlen_app, <- app_assoc;
    pose proof (zlen_nonneg rest); lia).
  assert (read_tag (tag ++ l ++ body ++ rest) first = Ok (zlen tag)) as ->.
  { rewrite Etag, <- app_comm_cons. apply read_tag_iff. exists tag, (l ++ body ++ rest).
    rewrite Hk. split; [by rewrite Etag|]. split; [by rewrite Etag|done]. }
  cbn [rbind]. rewrite lookup_end. assert (exists lb lt, l = lb :: lt) as (lb & lt & El).
  { destruct length_; [|subst l; eauto].
    destruct Hl as [[_ ->]|(bs & -> & _)]; eauto. }
  rewrite El. cbn [app head ok_or rbind].
  assert (read_length (tag ++ lb :: lt ++ body ++ rest) (zlen tag + 1) (b2z lb)
          = Ok (length_, zlen (tag ++ l))) as ->.
  { apply read_length_iff.
    - destruct length_ as [n|]; [right; exists n; split; [done|]|by left].
      destruct t, k; cbn in Hb; try done; destruct Hb as [_ <-]; apply zlen_nonneg.
    - destruct length_ as [n|]; cbn [read_length_spec].
      + exists l, (body ++ rest). rewrite zlen_app, El. by subst l.
      + rewrite zlen_app, Hl. rewrite Hl in El. by injection El as <- <-. }
  cbn [rbind]. change (lb :: lt ++ body ++ rest) with ((lb :: lt) ++ body ++ rest).
  rewrite <- El, app_assoc, Hk, (parse_body_complete d _ _ _ _ t) by (done || by rewrite <- app_assoc).
  cbn [rbind]. rewrite <- app_assoc, take_zlen_app, normal_node.
  rewrite (app_comm_cons lt body lb), <- El, !zlen_app, Z.add_assoc. done.
Qed.

(** * Properties of the BER to DER converter

    [ber_to_der] accepts exactly the values of the BER grammar of [Ber] within
    the depth limit, and its output is the one DER encoding of the value whose
    chunked strings are joined. *)

(** ** DER *)

(** Length octets than which there are no shorter ones. *)
Definition shortest (n : Z) (l : bytes) : Prop :=
  length_octets n l /\ forall l', length_octets n l' -> zlen l <= zlen l'.

(** A string that may be sent in chunks: a constructed OCTET STRING, or a
    constructed value of a context tag of one octet. *)
Definition string_tag (first : byte) : Prop := b2z first = 0x24 \/ 0xA0 <= b2z first < 0xC0.

(** A chunk is a primitive OCTET STRING. *)
Definition chunk (c : bytes) : Node := MkNode [x04] (Primitive c).

(** A constructed value that is a string in one or more chunks. *)
Definition chunked (tag : bytes) (children : list Node) : Prop :=
  exists first contents, tag = [first] /\ string_tag first /\ contents <> [] /\ children = map chunk contents.

(** [joins t n]: [n] is [t] with its chunked strings joined, from the leaves up: a
    string in chunks becomes the primitive value of its contents in order, its
    constructed bit cleared, and every other value keeps its tag and its shape. *)
Inductive joins : Node -> Node -> Prop :=
| joins_primitive tag c : joins (MkNode tag (Primitive c)) (MkNode tag (Primitive c))
| joins_chunks first p children contents :
    string_tag first -> contents <> [] -> all_join children (map chunk contents) ->
    b2z p = b2z first - 0x20 ->
    joins (MkNode [first] (Constructed children)) (MkNode [p] (Primitive (concat contents)))
| joins_kept tag children ns :
    all_join children ns -> ~ chunked tag ns ->
    joins (MkNode tag (Constructed children)) (MkNode tag (Constructed ns))
with all_join : list Node -> list Node -> Prop :=
| all_join_nil : all_join [] []
| all_join_cons t n ts ns : joins t n -> all_join ts ns -> all_join (t :: ts) (n :: ns).

(** The DER subset of the grammar: definite lengths, each the shortest, and no
    string left in chunks. *)
Inductive der : nat -> Node -> bytes -> Prop :=
| der_primitive d tag l content :
    tag_octets false tag -> shortest (zlen content) l ->
    der (S d) (MkNode tag (Primitive content)) (tag ++ l ++ content)
| der_constructed d tag l children inner :
    tag_octets true tag -> ders d children inner -> shortest (zlen inner) l ->
    ~ chunked tag children ->
    der (S d) (MkNode tag (Constructed children)) (tag ++ l ++ inner)
with ders : nat -> list Node -> bytes -> Prop :=
| ders_nil d : ders d [] []
| ders_cons d t ts b bs : der d t b -> ders d ts bs -> ders d (t :: ts) (b ++ bs).

Scheme der_mut := Induction for der Sort Prop with ders_mut := Induction for ders Sort Prop.
Combined Scheme der_ders_ind from der_mut, ders_mut.

(** ** The length encoder *)

Lemma leading_zeros_spec bs :
  exists rest, bs = replicate (leading_zeros bs) x00 ++ rest /\ head rest <> Some x00.
Proof.
  induction bs as [|b bs (rest & E & Hh)]; [by exists []|]. cbn [leading_zeros].
  destruct (b2z b =? 0) eqn:Eb; zbool.
  - apply (b2z_inj b x00) in Eb as ->. exists rest. split; [|done]. cbn. by rewrite <- E.
  - exists (b :: bs). split; [done|]. intros [= ->]. done.
Qed.

Lemma encode_length_long n :
  0x80 <= n < 2 ^ 64 -> encode_length n = z2b (0x80 + zlen (len_bytes n)) :: len_bytes n.
Proof.
  intros Hn. unfold encode_length. rewrite (proj2 (Z.ltb_ge _ _)) by lia.
  destruct (leading_zeros_spec (be_split 8 n)) as (rest & E & Hh).
  set (k := leading_zeros _) in *.
  assert (Hc : be_combine rest = n).
  { rewrite <- (be_combine_zeros k), <- E. apply be_combine_split.
    change (256 ^ Z.of_nat 8) with (2 ^ 64). lia. }
  assert (rest = len_bytes n) as <-.
  { rewrite <- Hc. symmetry. apply len_bytes_unique; [|done]. intros ->. cbn in Hc. lia. }
  assert (Hz : zlen (be_split 8 n) = Z.of_nat k + zlen rest).
  { rewrite E at 1. rewrite zlen_app. unfold zlen. rewrite length_replicate. lia. }
  rewrite Hz. replace (drop k (be_split 8 n)) with rest
    by (rewrite E at 1; rewrite drop_app_ge, length_replicate, Nat.sub_diag; by rewrite ?length_replicate).
  replace (Z.of_nat k + zlen rest - Z.of_nat k) with (zlen rest) by lia.
  f_equal. f_equal. unfold zlen in Hz at 1. rewrite be_split_length in Hz.
  assert (0 <= zlen rest <= 8) by (pose proof (zlen_nonneg rest); lia).
  assert (zlen rest = 0 \/ zlen rest = 1 \/ zlen rest = 2 \/ zlen rest = 3 \/ zlen rest = 4 \/
          zlen rest = 5 \/ zlen rest = 6 \/ zlen rest = 7 \/ zlen rest = 8) as Hc8 by lia.
  by repeat destruct Hc8 as [->|Hc8]; [..|rewrite Hc8].
Qed.

Lemma encode_length_octets n : 0 <= n < 2 ^ 32 -> length_octets n (encode_length n).
Proof.
  intros Hn. destruct (Z.lt_ge_cases n 0x80).
  - left. split; [done|]. unfold encode_length. by rewrite (proj2 (Z.ltb_lt _ _)).
  - right. exists (len_bytes n). rewrite encode_length_long by lia.
    destruct (len_bytes_gen 4 n) as (Hz & Hc & Hh); [lia|change (256 ^ 4) with (2 ^ 32); lia|].
    unfold MAX_LENGTH_BYTES. done.
Qed.

Lemma encode_length_le n m l :
  0 <= n <= m -> length_octets m l -> zlen (encode_length n) <= zlen l.
Proof.
  intros Hn Hl. pose proof (length_octets_nonneg _ _ Hl) as [Hl1 Hm].
  destruct (Z.lt_ge_cases n 0x80).
  { unfold encode_length. rewrite (proj2 (Z.ltb_lt _ _)) by lia. change (zlen [z2b n]) with 1. lia. }
  destruct Hl as [[Hm' _]|(bs & -> & Hz & _ & Hc)]; [lia|].
  rewrite encode_length_long by lia. rewrite !zlen_cons.
  pose proof (be_combine_bound bs). pose proof (len_bytes_gen (zlen bs) n). lia.
Qed.

Lemma encode_length_le3 n : 0 <= n < 2 ^ 16 -> zlen (encode_length n) <= 3.
Proof.
  intros Hn. destruct (Z.lt_ge_cases n 0x80).
  { unfold encode_length. by rewrite (proj2 (Z.ltb_lt _ _)) by lia. }
  rewrite encode_length_long, zlen_cons by lia.
  pose proof (len_bytes_gen 2 n). change (256 ^ 2) with (2 ^ 16) in *. lia.
Qed.

Lemma encode_length_shortest n : 0 <= n < 2 ^ 32 -> shortest n (encode_length n).
Proof.
  intros Hn. split; [by apply encode_length_octets|]. intros l' Hl'.
  by apply (encode_length_le n n); [lia|].
Qed.

Lemma shortest_unique n l : 0 <= n -> shortest n l -> l = encode_length n.
Proof.
  intros Hn [Hl Hmin]. pose proof (length_octets_nonneg _ _ Hl) as [_ Hm].
  specialize (Hmin _ (encode_length_octets n ltac:(lia))).
  destruct Hl as [[Hs ->]|(bs & -> & Hz & Hh & Hc)].
  - unfold encode_length. by rewrite (proj2 (Z.ltb_lt _ _)).
  - destruct (Z.lt_ge_cases n 0x80).
    { unfold encode_length in Hmin. rewrite (proj2 (Z.ltb_lt _ _)) in Hmin by lia.
      rewrite zlen_cons in Hmin. change (zlen [z2b n]) with 1 in Hmin. lia. }
    rewrite encode_length_long by lia. rewrite <- Hc, len_bytes_unique; [done| |done].
    intros ->. rewrite zlen_nil in Hz. lia.
Qed.

(** ** Joining *)

Lemma zlen_singleton {A} (a : A) : zlen [a] = 1.
Proof. done. Qed.

Lemma node_nested_ind (P : Node -> Prop) :
  (forall tag c, P (MkNode tag (Primitive c))) ->
  (forall tag cs, Forall P cs -> P (MkNode tag (Constructed cs))) -> forall n, P n.
Proof.
  intros Hp Hc. fix IH 1. intros [tag [c|cs]]; [apply Hp|]. apply Hc.
  induction cs as [|n cs IHcs]; constructor; [apply IH|exact IHcs].
Qed.

(** Either the value stays, or it is a chunked string and becomes a primitive. *)
Lemma joined_cases tag cs :
  let n := MkNode tag (Constructed cs) in
  joined n = n \/
  exists first, tag = [first] /\ Forall (fun c => is_chunk c = true) cs /\
    joined n = MkNode [z2b (Z.ldiff (b2z first) CONSTRUCTED)] (Primitive (concat (map chunk_content cs))).
Proof.
  unfold joined. destruct tag as [|first more]; [by left|].
  destruct (zlen (first :: more) =? 1) eqn:E; cbn [andb]; [|by left]. zbool.
  rewrite (zlen_0_nil more) by (rewrite zlen_cons in E; lia).
  destruct (negb _) eqn:Ee; [by left|]. right. exists first. split; [done|]. split; [|done].
  apply negb_false_iff, andb_true_iff in Ee as [_ Ee]. apply andb_true_iff in Ee as [_ Ee].
  apply Forall_forall. intros c Hc. by apply (proj1 (forallb_forall _ _) Ee), list_elem_of_In.
Qed.

Lemma chunks_spec cs : forallb is_chunk cs = true <-> exists contents, cs = map chunk contents.
Proof.
  split.
  - induction cs as [|[tag [c|cs']] cs IH]; cbn; [by exists []| |done].
    intros [Ht Hc]%andb_true_iff. apply bool_decide_eq_true in Ht as ->.
    destruct (IH Hc) as [contents ->]. by exists (c :: contents).
  - intros [contents ->]. induction contents as [|c contents IH]; [done|]. cbn. by rewrite IH.
Qed.

Lemma chunk_content_chunks contents : map chunk_content (map chunk contents) = contents.
Proof. rewrite map_map. apply map_id. Qed.

(** The tag that the code takes for a string's, of a constructed value. *)
Lemma eligible_spec first :
  tag_octets true [first] ->
  ((b2z first =? Z.lor UNIVERSAL_OCTET_STRING CONSTRUCTED) || (Z.land (b2z first) CLASS_MASK =? CLASS_CONTEXT)) = true
    <-> string_tag first.
Proof.
  intros (f & conts & [= <- <-] & Hc & _). unfold string_tag.
  destruct first; try discriminate Hc; vm_compute; (split; [intros H; try discriminate H|intros [H|[H1 H2]]; try discriminate H; try reflexivity;
    exfalso; first [by apply H1|discriminate H2]]); first [by left|right; split; [by intros [=]|reflexivity]].
Qed.

Lemma cleared_bit first p :
  tag_octets true [first] -> b2z p = b2z first - 0x20 <-> p = z2b (Z.ldiff (b2z first) CONSTRUCTED).
Proof.
  intros (f & conts & [= <- <-] & Hc & _).
  assert (E : b2z (z2b (Z.ldiff (b2z first) CONSTRUCTED)) = b2z first - 0x20) by (by destruct first).
  rewrite <- E. split; [apply b2z_inj|by intros ->].
Qed.

(** [Node::joined] joins the strings in chunks and only those. *)
Lemma joined_spec tag ns :
  tag_octets true tag ->
  (exists first contents p, tag = [first] /\ string_tag first /\ contents <> [] /\ ns = map chunk contents /\
     b2z p = b2z first - 0x20 /\ joined (MkNode tag (Constructed ns)) = MkNode [p] (Primitive (concat contents))) \/
  (~ chunked tag ns /\ joined (MkNode tag (Constructed ns)) = MkNode tag (Constructed ns)).
Proof.
  intros Ht. unfold joined. destruct tag as [|first [|b tag]]; [by destruct Ht as (? & ? & ? & _)| |].
  2:{ right. split; [by intros (? & ? & ? & _)|]. replace (zlen (first :: b :: tag) =? 1) with false; [done|].
      symmetry. apply Z.eqb_neq. rewrite !zlen_cons. pose proof (zlen_nonneg tag). lia. }
  change (zlen [first] =? 1) with true. cbn [andb]. destruct (_ || _) eqn:Ee; cbn [andb negb].
  2:{ right. split; [|done]. intros (f & cs & [= <-] & Hs & _). apply (eligible_spec _ Ht) in Hs. congruence. }
  apply (eligible_spec _ Ht) in Ee. case_bool_decide as Hn; cbn [andb negb].
  { right. split; [|done]. intros (f & cs & _ & _ & Hne & Hc). subst ns. by destruct cs. }
  destruct (forallb is_chunk ns) eqn:Ec; cbn [negb].
  - apply chunks_spec in Ec as [contents ->]. left. exists first, contents, (z2b (Z.ldiff (b2z first) CONSTRUCTED)).
    rewrite chunk_content_chunks. split_and!; try done; [by intros ->|by apply cleared_bit].
  - right. split; [|done]. intros (f & cs & _ & _ & _ & Hc).
    rewrite (proj2 (chunks_spec ns)) in Ec by (by exists cs). done.
Qed.

Lemma map_chunk_inj a b : map chunk a = map chunk b -> a = b.
Proof. intros H. by rewrite <- (chunk_content_chunks a), H, chunk_content_chunks. Qed.

(** The joined value is determined, and is the one the code computes. *)
Lemma joins_constructed tag cs n :
  tag_octets true tag -> (forall ns, all_join cs ns <-> ns = map normal cs) ->
  joins (MkNode tag (Constructed cs)) n <-> n = normal (MkNode tag (Constructed cs)).
Proof.
  intros Ht IH. cbn [normal].
  destruct (joined_spec tag (map normal cs) Ht) as [(first & contents & p & -> & Hs & Hne & Hc & Hp & ->)|[Hk ->]]; split.
  - intros H. inversion H as [|f q cs' contents' Hs' Hne' Ha Hq|tag' cs' ns Ha Hn]; subst.
    + apply IH in Ha. rewrite Hc in Ha. apply map_chunk_inj in Ha as ->. f_equal. f_equal. apply b2z_inj. lia.
    + apply IH in Ha as ->. destruct Hn. by exists first, contents.
  - intros ->. apply joins_chunks; try done. by apply IH.
  - intros H. inversion H as [|f q cs' contents' Hs' Hne' Ha Hq|tag' cs' ns Ha Hn]; subst.
    + apply IH in Ha. destruct Hk. by exists f, contents'.
    + by apply IH in Ha as ->.
  - intros ->. apply joins_kept; [by apply IH|done].
Qed.

Lemma joins_normal :
  (forall d t b, ber d t b -> forall n, joins t n <-> n = normal t) /\
  (forall eoc d ts b, bers eoc d ts b -> forall ns, all_join ts ns <-> ns = map normal ts).
Proof.
  apply ber_bers_ind.
  - intros d tag l c _ _ n. cbn. split; [by inversion 1|intros ->; constructor].
  - intros d tag l cs inner Ht _ IH _ n. by apply joins_constructed.
  - intros d tag cs inner Ht _ IH n. by apply joins_constructed.
  - intros _ _ ns. split; [by inversion 1|intros ->; constructor].
  - intros eoc d t ts b bs _ IHt _ _ IHts ns. split.
    + inversion 1 as [|? n ? ns' Hn Hns]; subst. apply IHt in Hn as ->. by apply IHts in Hns as ->.
    + intros ->. cbn. constructor; [by apply IHt|by apply IHts].
Qed.

Lemma joined_idemp n : joined (joined n) = joined n.
Proof.
  destruct n as [tag [c|cs]]; [done|].
  destruct (joined_cases tag cs) as [H|(first & _ & _ & ->)]; [by rewrite !H|done].
Qed.

Lemma normal_joined tag cs :
  map normal cs = cs -> normal (joined (MkNode tag (Constructed cs))) = joined (MkNode tag (Constructed cs)).
Proof.
  intros H. destruct (joined_cases tag cs) as [E|(first & _ & _ & ->)]; [|done].
  rewrite E. cbn [normal]. by rewrite H.
Qed.

Lemma normal_idemp n : normal (normal n) = normal n.
Proof.
  induction n as [tag c|tag cs IH] using node_nested_ind; [done|]. cbn [normal].
  apply normal_joined. rewrite map_map. apply map_ext_Forall, IH.
Qed.

Lemma chunk_contents cs :
  Forall (fun c => is_chunk c = true) cs -> map chunk_content cs = map content cs.
Proof. intros H. apply map_ext_Forall. eapply Forall_impl; [exact H|]. by intros [? [?|?]]. Qed.

Lemma content_joined n : content (joined n) = content n.
Proof.
  destruct n as [tag [c|cs]]; [done|].
  destruct (joined_cases tag cs) as [->|(first & -> & Hc & ->)]; [done|]. cbn [content].
  by rewrite chunk_contents.
Qed.

Lemma content_normal n : content (normal n) = content n.
Proof.
  induction n as [tag c|tag cs IH] using node_nested_ind; [done|]. cbn [normal].
  rewrite content_joined. cbn [content]. f_equal. rewrite map_map. apply map_ext_Forall, IH.
Qed.

Lemma encode_content_len n : zlen (content n) <= zlen (encode n).
Proof.
  assert (Hcs : forall cs, Forall (fun c => zlen (content c) <= zlen (encode c)) cs ->
    zlen (concat (map content cs)) <= zlen (concat (map encode cs))).
  { induction 1 as [|c cs Hc _ IHcs]; [done|]. cbn. rewrite !zlen_app. lia. }
  induction n as [tag c|tag cs IH] using node_nested_ind; cbn [content encode].
  - rewrite !zlen_app. pose proof (zlen_nonneg tag). pose proof (zlen_nonneg (encode_length (zlen c))). lia.
  - specialize (Hcs _ IH). rewrite !zlen_app. pose proof (zlen_nonneg tag).
    pose proof (zlen_nonneg (encode_length (zlen (concat (map encode cs))))). lia.
Qed.

Lemma encode_constructed tag cs :
  encode (MkNode tag (Constructed cs)) =
    tag ++ encode_length (zlen (concat (map encode cs))) ++ concat (map encode cs).
Proof. reflexivity. Qed.

Lemma encode_primitive tag c :
  encode (MkNode tag (Primitive c)) = tag ++ encode_length (zlen c) ++ c.
Proof. reflexivity. Qed.

Lemma encode_joined_le tag cs :
  zlen (concat (map encode cs)) < 2 ^ 32 ->
  zlen (encode (joined (MkNode tag (Constructed cs)))) <= zlen (encode (MkNode tag (Constructed cs))).
Proof.
  intros Hb. destruct (joined_cases tag cs) as [->|(first & -> & Hc & ->)]; [done|].
  rewrite encode_constructed, encode_primitive, !zlen_app, chunk_contents by done.
  assert (Hle : zlen (concat (map content cs)) <= zlen (concat (map encode cs))).
  { clear. induction cs as [|c cs IH]; [done|]. cbn. rewrite !zlen_app.
    pose proof (encode_content_len c). lia. }
  pose proof (zlen_nonneg (concat (map content cs))).
  pose proof (encode_length_le (zlen (concat (map content cs))) (zlen (concat (map encode cs))) _
    ltac:(lia) (encode_length_octets (zlen (concat (map encode cs))) ltac:(lia))).
  rewrite !zlen_singleton. lia.
Qed.

(** Clearing the constructed bit of a one-byte tag. *)
Lemma primitive_tag first :
  tag_octets true [first] -> tag_octets false [z2b (Z.ldiff (b2z first) CONSTRUCTED)].
Proof.
  intros (f & conts & [= <- <-] & _ & [[H _]|(_ & [|? ?] & ? & ? & _)]); [|done|done].
  exists (z2b (Z.ldiff (b2z first) CONSTRUCTED)), []. split; [done|].
  assert (Hb : 0 <= Z.ldiff (b2z first) CONSTRUCTED < 256) by by destruct first.
  rewrite b2z_small by done. split.
  - by destruct first.
  - left. split; [|done]. intros E. apply H. rewrite <- E. by destruct first.
Qed.

(** ** The output is the DER encoding *)

(** The encoder never lengthens a value of less than [2 ^ 16] octets. *)
Lemma encode_shrinks :
  (forall d t b, ber d t b -> zlen b < 2 ^ 16 -> zlen (encode (normal t)) <= zlen b) /\
  (forall eoc d ts b, bers eoc d ts b -> zlen b < 2 ^ 16 ->
     zlen (concat (map encode (map normal ts))) <= zlen b).
Proof.
  apply ber_bers_ind.
  - intros d tag l c _ Hl _. cbn [normal]. rewrite encode_primitive, !zlen_app.
    pose proof (encode_length_le _ _ _ (conj (zlen_nonneg c) (Z.le_refl _)) Hl). lia.
  - intros d tag l cs inner _ _ IH Hl Hb. rewrite !zlen_app in *. cbn [normal].
    pose proof (zlen_nonneg tag). pose proof (length_octets_nonneg _ _ Hl). specialize (IH ltac:(lia)).
    etrans; [apply encode_joined_le; lia|]. rewrite encode_constructed, !zlen_app.
    pose proof (zlen_nonneg (concat (map encode (map normal cs)))).
    pose proof (encode_length_le _ _ _ (conj (zlen_nonneg (concat (map encode (map normal cs)))) IH) Hl).
    lia.
  - intros d tag cs inner _ _ IH Hb. rewrite !zlen_app in *. cbn [normal].
    change (zlen [x80]) with 1 in *. change (zlen [x00; x00]) with 2 in *.
    pose proof (zlen_nonneg tag). specialize (IH ltac:(lia)).
    etrans; [apply encode_joined_le; lia|]. rewrite encode_constructed, !zlen_app.
    pose proof (zlen_nonneg (concat (map encode (map normal cs)))).
    pose proof (encode_length_le3 (zlen (concat (map encode (map normal cs)))) ltac:(lia)). lia.
  - done.
  - intros eoc d t ts b bs _ IHt _ _ IHts Hb. cbn. rewrite !zlen_app in *.
    pose proof (zlen_nonneg b). pose proof (zlen_nonneg bs).
    specialize (IHt ltac:(lia)). specialize (IHts ltac:(lia)). lia.
Qed.

Lemma encode_der :
  (forall d t b, ber d t b -> zlen (encode (normal t)) < 2 ^ 32 ->
     der d (normal t) (encode (normal t))) /\
  (forall eoc d ts b, bers eoc d ts b -> zlen (concat (map encode (map normal ts))) < 2 ^ 32 ->
     ders d (map normal ts) (concat (map encode (map normal ts)))).
Proof.
  assert (Hcs : forall d tag cs, tag_octets true tag ->
    (zlen (concat (map encode (map normal cs))) < 2 ^ 32 ->
     ders d (map normal cs) (concat (map encode (map normal cs)))) ->
    zlen (encode (normal (MkNode tag (Constructed cs)))) < 2 ^ 32 ->
    der (S d) (normal (MkNode tag (Constructed cs))) (encode (normal (MkNode tag (Constructed cs))))).
  { intros d tag cs Ht IH Hb. cbn [normal] in *.
    destruct (joined_spec tag (map normal cs) Ht) as [(first & contents & p & -> & _ & _ & _ & Hp & E)|[Hk E]]; rewrite E in *.
    - rewrite encode_primitive in *. set (c := concat contents) in *. rewrite !zlen_app in Hb.
      pose proof (zlen_nonneg c). pose proof (zlen_nonneg (encode_length (zlen c))).
      apply (cleared_bit _ _ Ht) in Hp as ->.
      constructor; [by apply primitive_tag|apply encode_length_shortest].
      rewrite zlen_singleton in Hb. lia.
    - rewrite encode_constructed in *. rewrite !zlen_app in Hb. pose proof (zlen_nonneg tag).
      pose proof (zlen_nonneg (encode_length (zlen (concat (map encode (map normal cs)))))).
      pose proof (zlen_nonneg (concat (map encode (map normal cs)))).
      constructor; [done|apply IH; lia|apply encode_length_shortest; lia|done]. }
  apply ber_bers_ind; [..|constructor|].
  - intros d tag l c Ht Hl Hb. cbn [normal] in *. rewrite encode_primitive in *.
    rewrite !zlen_app in Hb. pose proof (zlen_nonneg c). pose proof (zlen_nonneg tag).
    pose proof (zlen_nonneg (encode_length (zlen c))).
    constructor; [done|apply encode_length_shortest; lia].
  - intros d tag l cs inner Ht _ IH _. by apply Hcs.
  - intros d tag cs inner Ht _ IH. by apply Hcs.
  - intros eoc d t ts b bs _ IHt _ _ IHts Hb. cbn in Hb |- *. rewrite zlen_app in Hb.
    pose proof (zlen_nonneg (encode (normal t))).
    pose proof (zlen_nonneg (concat (map encode (map normal ts)))).
    constructor; [apply IHt|apply IHts]; lia.
Qed.

Lemma der_inv :
  (forall d n b, der d n b -> ber d n b /\ b = encode n /\ normal n = n) /\
  (forall d ns b, ders d ns b -> bers false d ns b /\ b = concat (map encode ns) /\ map normal ns = ns).
Proof.
  apply der_ders_ind.
  - intros d tag l c Ht [Hl Hm]. split; [by constructor|]. split; [|done].
    rewrite encode_primitive. repeat f_equal. apply shortest_unique; [apply zlen_nonneg|done].
  - intros d tag l cs inner Ht _ (IHb & IHe & IHn) [Hl Hm] Hj. split; [by constructor|].
    destruct (joined_spec tag cs Ht) as [(first & contents & p & -> & Hs & Hne & -> & _)|[_ Hk]];
      [by destruct Hj; exists first, contents|].
    split; [|cbn [normal]; by rewrite IHn]. rewrite encode_constructed, <- IHe. repeat f_equal.
    apply shortest_unique; [apply zlen_nonneg|done].
  - intros d. split; [constructor|done].
  - intros d t ts b bs _ (H1 & -> & H2) _ (H3 & -> & H4). split; [by constructor|].
    split; [done|]. cbn. by rewrite H2, H4.
Qed.

Lemma ber_to_der_ok i d :
  is_u64 (zlen i) ->
  ber_to_der i = Ok d <-> exists t, ber (S MAX_DEPTH) t i /\ d = encode (normal t).
Proof.
  intros Hu. unfold ber_to_der. split.
  - intros H. apply rbind_ok in H as ([n used] & Hp & H).
    destruct (proj1 (parse_sound _) _ _ _ Hp) as (t & b & rest & Hb & -> & -> & ->).
    destruct (negb _) eqn:E; [done|]. injection H as <-. zbool. rewrite zlen_app in E.
    rewrite (zlen_0_nil rest) by lia. rewrite app_nil_r. by exists t.
  - intros (t & Hb & ->). rewrite <- (app_nil_r i) in Hu |- * at 1.
    rewrite (parse_complete _ t i []) by done. cbn [rbind]. by rewrite Z.eqb_refl.
Qed.

(** The output is at most five times as long as the input. *)
Lemma encode_length_le5 n : 0 <= n < 2 ^ 32 -> zlen (encode_length n) <= 5.
Proof.
  intros Hn. destruct (Z.lt_ge_cases n 0x80).
  { unfold encode_length. by rewrite (proj2 (Z.ltb_lt _ _)) by lia. }
  rewrite encode_length_long, zlen_cons by lia.
  pose proof (len_bytes_gen 4 n). change (256 ^ 4) with (2 ^ 32) in *. lia.
Qed.

Lemma encode_growth :
  (forall d t b, ber d t b -> zlen b < 2 ^ 29 -> zlen (encode (normal t)) <= 5 * zlen b) /\
  (forall eoc d ts b, bers eoc d ts b -> zlen b < 2 ^ 29 ->
     zlen (concat (map encode (map normal ts))) <= 5 * zlen b).
Proof.
  assert (Hcs : forall tag cs n, 1 <= zlen tag -> zlen (concat (map encode (map normal cs))) <= 5 * n ->
    n < 2 ^ 29 -> zlen (encode (normal (MkNode tag (Constructed cs)))) <= 5 * (zlen tag + 1 + n)).
  { intros tag cs n Ht Hc Hn. cbn [normal]. pose proof (zlen_nonneg (concat (map encode (map normal cs)))).
    etrans; [apply encode_joined_le; lia|]. rewrite encode_constructed, !zlen_app.
    pose proof (encode_length_le5 (zlen (concat (map encode (map normal cs)))) ltac:(lia)). lia. }
  apply ber_bers_ind.
  - intros d tag l c Ht Hl Hb. apply tag_octets_len in Ht. rewrite !zlen_app in Hb. cbn [normal].
    pose proof (length_octets_nonneg _ _ Hl). pose proof (zlen_nonneg c).
    rewrite encode_primitive, !zlen_app. pose proof (encode_length_le5 (zlen c) ltac:(lia)). lia.
  - intros d tag l cs inner Ht _ IH Hl Hb. apply tag_octets_len in Ht. rewrite !zlen_app in *.
    pose proof (length_octets_nonneg _ _ Hl). pose proof (zlen_nonneg inner). specialize (IH ltac:(lia)).
    pose proof (Hcs tag cs (zlen inner)). lia.
  - intros d tag cs inner Ht _ IH Hb. apply tag_octets_len in Ht. rewrite !zlen_app in *.
    change (zlen [x80]) with 1 in *. change (zlen [x00; x00]) with 2 in *. pose proof (zlen_nonneg inner).
    specialize (IH ltac:(lia)). pose proof (Hcs tag cs (zlen inner)). lia.
  - done.
  - intros eoc d t ts b bs _ IHt _ _ IHts Hb. cbn. rewrite !zlen_app in *.
    pose proof (zlen_nonneg b). pose proof (zlen_nonneg bs).
    specialize (IHt ltac:(lia)). specialize (IHts ltac:(lia)). lia.
Qed.

(** C39: the converter never panics and its loops end, and it accepts exactly
    the octet strings that are one BER value nested at most seventeen deep (with
    definite or indefinite lengths of at most four octets, and tags of at most
    four).  For an input below 512 MiB, the result is the DER encoding of that
    value with its chunked strings joined: definite lengths, each the shortest,
    and every string in chunks replaced, from the leaves up, by the primitive
    value of their contents in order. *)
Theorem ber_to_der_iff i :
  is_u64 (zlen i) ->
  ber_to_der i <> Panic /\
  ((exists d, ber_to_der i = Ok d) <-> exists t, ber 17 t i) /\
  (zlen i < 2 ^ 29 ->
   forall d, ber_to_der i = Ok d <-> exists t n, ber 17 t i /\ joins t n /\ der 17 n d).
Proof.
  intros Hu. pose proof (ber_to_der_ok i) as Hok. split_and!.
  - unfold ber_to_der. pose proof (proj2 (parse_sound (S MAX_DEPTH)) i).
    destruct (parse _ i) as [[n used]| |]; [|done|done]. cbn. by destruct (negb _).
  - split; [intros (d & (t & Ht & _)%Hok); [by exists t|done]|].
    intros [t Ht]. exists (encode (normal t)). apply Hok; [done|]. by exists t.
  - intros Hi d. rewrite (Hok d Hu). split.
    + intros (t & Ht & ->). exists t, (normal t). split; [done|]. split; [by eapply joins_normal|].
      eapply (proj1 encode_der _ _ _ Ht). pose proof (proj1 encode_growth _ _ _ Ht Hi). lia.
    + intros (t & n & Ht & Hj & Hd). exists t. split; [done|].
      apply (proj1 joins_normal _ _ _ Ht) in Hj as ->. by apply der_inv in Hd as (_ & -> & _).
Qed.

Definition bytes_of (l : list Z) : bytes := map z2b l.

Definition chunked_envelope : bytes :=
  bytes_of [0x30; 0x80; 0xA0; 0x80; 0x04; 0x01; 0xAA; 0x04; 0x81; 0x01; 0xBB; 0; 0; 0; 0].

Lemma ber_to_der_iff_witness :
  is_u64 (zlen chunked_envelope) /\ ber_to_der chunked_envelope <> Panic /\
  exists t n, ber 17 t chunked_envelope /\ joins t n /\
    der 17 n (bytes_of [0x30; 0x04; 0x80; 0x02; 0xAA; 0xBB]).
Proof.
  destruct (ber_to_der_iff chunked_envelope) as (H1 & _ & H2); [done|].
  split; [done|]. split; [done|]. apply H2; by vm_compute.
Defined.

(** Of an input below 64 KiB, as every KMS envelope is, the converter makes
    DER: the output is no longer than the input, every length in it is definite
    and the shortest, no string in it is chunked, it holds the content octets of
    the input in the same order, and converting it again changes nothing. *)
Theorem ber_to_der_canonical i d :
  zlen i < 2 ^ 16 -> ber_to_der i = Ok d ->
  zlen d <= zlen i /\ ber_to_der d = Ok d /\
  exists t n, ber (S MAX_DEPTH) t i /\ der (S MAX_DEPTH) n d /\ content n = content t.
Proof.
  intros Hi H. pose proof (zlen_nonneg i).
  apply ber_to_der_ok in H as (t & Hb & ->); [|unfold is_u64; lia].
  pose proof (proj1 encode_shrinks _ _ _ Hb Hi). pose proof (zlen_nonneg (encode (normal t))).
  assert (Hd : der (S MAX_DEPTH) (normal t) (encode (normal t)))
    by (apply (proj1 encode_der _ _ _ Hb); lia).
  split; [done|]. split; [|exists t, (normal t); by rewrite content_normal].
  apply ber_to_der_ok; [unfold is_u64; lia|]. exists (normal t).
  split; [by apply der_inv|]. by rewrite normal_idemp.
Qed.

Lemma ber_to_der_canonical_witness :
  let d := bytes_of [0x30; 0x04; 0x80; 0x02; 0xAA; 0xBB] in
  zlen chunked_envelope < 2 ^ 16 /\ ber_to_der chunked_envelope = Ok d /\
  zlen d <= zlen chunked_envelope /\ ber_to_der d = Ok d /\
  exists t n, ber (S MAX_DEPTH) t chunked_envelope /\ der (S MAX_DEPTH) n d /\ content n = content t.
Proof.
  intros d. split; [done|]. assert (H : ber_to_der chunked_envelope = Ok d) by by vm_compute.
  split; [done|]. by apply ber_to_der_canonical.
Defined.
