(* ===== verification/PsbtTypes.v ===== *)
(** * PSBTs as the signing paths see them

    The fields of [bitcoin::psbt::Psbt] and of its transaction that the code
    under src/enclave/src/networks/rgb reads, and the interface of the bitcoin
    crate: script classes, sizes, fees, and the taproot arithmetic.  Amounts are
    [u64] satoshis; scripts, keys and hashes are byte strings. *)

From stdpp Require Import base numbers list gmap strings.
From S2P Require Import Prelude Errors.

#[local] Open Scope list_scope.
#[local] Open Scope Z_scope.

Record TxOut : Type := { value : Z; script_pubkey : bytes }.

Record OutPoint : Type := { op_txid : bytes; op_vout : Z }.

#[export] Instance out_point_eq_dec : EqDecision OutPoint.
Proof. solve_decision. Defined.

Record TxIn : Type := {
  previous_output : OutPoint;
  script_sig : bytes;
  witness : list bytes
}.

(** [tx_rest] stands for the version, the lock time and the sequence numbers,
    which only the sizes and the txid read. *)
Record Transaction : Type := {
  tx_input : list TxIn;
  tx_output : list TxOut;
  tx_rest : bytes
}.

(** A derivation step, [bitcoin::bip32::ChildNumber]. *)
Inductive ChildNumber : Type :=
| Normal (index : Z)
| Hardened (index : Z).

#[export] Instance child_number_eq_dec : EqDecision ChildNumber.
Proof. solve_decision. Defined.

(** [TapSighashType]: the two the code names, and the others. *)
Inductive TapSighashType : Type := SighashDefault | SighashAll | SighashOther (raw : Z).

Record TapSignature : Type := { tap_sig : bytes; tap_sig_type : TapSighashType }.

(** A control block: its bytes on the wire and its leaf version. *)
Record ControlBlock : Type := { control_bytes : bytes; control_leaf_version : Z }.

(** [(leaf_hashes, (fingerprint, derivation_path))]. *)
Record KeyOrigin : Type := {
  leaf_hashes : list bytes;
  fingerprint : bytes;
  derivation_path : list ChildNumber
}.

Record PsbtInput : Type := {
  non_witness_utxo : option Transaction;
  witness_utxo : option TxOut;
  witness_script : option bytes;
  final_script_sig : option bytes;
  final_script_witness : option (list bytes);
  sighash_type : option Z;
  tap_internal_key : option bytes;
  tap_merkle_root : option bytes;
  tap_key_sig : option TapSignature;
  tap_scripts : list (ControlBlock * (bytes * Z));
  tap_key_origins : gmap bytes KeyOrigin
}.

Record PsbtOutput : Type := {
  out_tap_tree : option bytes;
  out_tap_internal_key : option bytes;
  out_tap_key_origins : gmap bytes KeyOrigin
}.

Record Psbt : Type := {
  unsigned_tx : Transaction;
  inputs : list PsbtInput;
  outputs : list PsbtOutput
}.

(** [LeafVersion::TapScript]. *)
Definition TAPSCRIPT : Z := 0xc0.

(** Sums of satoshis, without a bound. *)
Definition sum_values (outs : list TxOut) : Z := foldr (fun o acc => value o + acc) 0 outs.

(** ** The bitcoin crate *)

Class Bitcoin : Type := {
  is_p2tr : bytes -> bool;
  is_p2wpkh : bytes -> bool;
  is_p2wsh : bytes -> bool;
  is_op_return : bytes -> bool;
  is_witness_program : bytes -> bool;
  to_p2wsh : bytes -> bytes;
  base_size : Transaction -> Z;
  tx_vsize : Transaction -> Z;
  compute_txid : Transaction -> bytes;
  witness_wire_size : list bytes -> Z;
  (** [Psbt::iter_funding_utxos] and [Psbt::fee]. *)
  funding_utxos : Psbt -> list (option TxOut);
  psbt_fee : Psbt -> option Z;
  (** [XOnlyPublicKey::from_slice] accepts, [PublicKey::from_slice] accepts and
      is compressed. *)
  xonly_valid : bytes -> bool;
  pubkey_valid : bytes -> option bool;
  (** [XOnlyPublicKey::tap_tweak], [ScriptBuf::new_p2tr_tweaked], and
      [ControlBlock::verify_taproot_commitment]. *)
  tap_tweak : bytes -> option bytes -> bytes;
  new_p2tr_tweaked : bytes -> bytes;
  verify_taproot_commitment : ControlBlock -> bytes -> bytes -> bool
}.

(** [ScriptBuf::new_p2tr]. *)
Definition new_p2tr `{Bitcoin} (internal_key : bytes) (merkle_root : option bytes) : bytes :=
  new_p2tr_tweaked (tap_tweak internal_key merkle_root).

(** Size of a number and of a byte string in the Bitcoin wire format. *)
Definition wire_compact (n : Z) : Z :=
  if n <? 0xfd then 1 else if n <=? 0xffff then 3 else if n <=? 0xffffffff then 5 else 9.

Definition wire_item (item : bytes) : Z := wire_compact (zlen item) + zlen item.

(** What the code relies on.  Sizes and amounts are [u64]; a P2TR script is OP_1, a push of 32 bytes and the
    output key; the funding outputs are the witness UTXOs where there are some,
    and the fee is what the inputs have over the outputs, all of it in [u64]. *)
Class BitcoinLaws (B : Bitcoin) : Prop := {
  is_p2tr_shape s : is_p2tr s = true <-> exists key, s = x51 :: x20 :: key /\ zlen key = 32;
  new_p2tr_tweaked_shape key : zlen key = 32 -> new_p2tr_tweaked key = x51 :: x20 :: key;
  witness_wire_size_spec w :
    witness_wire_size w = wire_compact (zlen w) + foldr (fun i acc => wire_item i + acc) 0 w;
  base_size_range tx : 0 <= base_size tx < 2 ^ 61;
  tx_vsize_range tx : is_u64 (tx_vsize tx);
  funding_utxos_length p : length (funding_utxos p) = length (inputs p);
  funding_utxos_witness p i inp u :
    inputs p !! i = Some inp -> witness_utxo inp = Some u -> funding_utxos p !! i = Some (Some u);
  psbt_fee_spec p f :
    psbt_fee p = Some f -> is_u64 f /\
    exists us, funding_utxos p = map Some us /\
      sum_values us = sum_values (tx_output (unsigned_tx p)) + f
}.
