(* ===== verification/PsbtSize.v ===== *)
(** * Signed size of a PSBT (src/enclave/src/networks/rgb/psbt_fee_size.rs)

    The estimate of the virtual size a PSBT has once every input carries its
    witness, and the script parsers it reads thresholds with.  Sums stay far
    below [2 ^ 64] except the weight, whose checked additions are written out. *)

From stdpp Require Import base numbers list gmap strings.
From S2P Require Import Prelude Errors Lengths PsbtTypes.

#[local] Open Scope list_scope.
#[local] Open Scope Z_scope.

Definition OP_CHECKSIG : Z := 0xac.
Definition OP_CHECKSIGADD : Z := 0xba.
Definition OP_NUMEQUAL : Z := 0x9c.
Definition OP_CHECKMULTISIG : Z := 0xae.

Definition size_error (reason : string) : EnclaveError :=
  CrossCheck ("cannot estimate signed PSBT size: " ++ reason)%string.

Definition compact_size (value : Z) : Z :=
  if value <=? 252 then 1 else if value <=? 0xffff then 3 else if value <=? 0xffffffff then 5 else 9.

Definition item_size (len : Z) : Z := compact_size len + len.

Definition witness_size (lengths : list Z) : Z :=
  compact_size (zlen lengths) + foldr (fun len acc => item_size len + acc) 0 lengths.

(** [n | (byte << (i * 8))] over the bytes of a little-endian number. *)
Fixpoint fold_le (i : Z) (n : Z) (data : bytes) : Z :=
  match data with
  | [] => n
  | b :: data => fold_le (i + 1) (Z.lor n (Z.shiftl (b2z b) (i * 8))) data
  end.

(** [positive_script_number]: the number a script starts with and the bytes it
    takes. *)
Definition positive_script_number (bs : bytes) : option (Z * Z) :=
  match bs with
  | [] => None
  | first :: rest =>
      let first := b2z first in
      if (0x51 <=? first) && (first <=? 0x60) then Some (first - 0x50, 1)
      else if negb ((1 <=? first) && (first <=? 4)) then None
      else if zlen rest <? first then None
      else
        let data := take (Z.to_nat first) rest in
        last ← last data;
        let second_last := default x00 (data !! (length data - 2)%nat) in
        if negb (Z.land (b2z last) 0x80 =? 0)
           || ((b2z last =? 0) && ((zlen data =? 1) || (Z.land (b2z second_last) 0x80 =? 0)))
        then None
        else
          let value := fold_le 0 0 data in
          if 16 <? value then Some (value, zlen data + 1) else None
  end.

Section Size.
Context `{B : Bitcoin}.

(** The loop of [tapscript_threshold]: the slots read and the bytes left. *)
Fixpoint tapscript_slots (fuel : nat) (bs : bytes) (slots : Z) : option (Z * bytes) :=
  if negb (34 <=? zlen bs) then Some (slots, bs)
  else
    match fuel with
    | O => None
    | S fuel =>
        let expected := if slots =? 0 then OP_CHECKSIG else OP_CHECKSIGADD in
        let first := default x00 (head bs) in
        let op := default x00 (bs !! 33%nat) in
        if negb (b2z first =? 32) || negb (b2z op =? expected) then Some (slots, bs)
        else if negb (xonly_valid (slice 1 33 bs)) then None
        else tapscript_slots fuel (drop 34 bs) (slots + 1)
    end.

Definition tapscript_threshold (script : bytes) : option (Z * Z) :=
  '(slots, rest) ← tapscript_slots (length script) script 0;
  if (slots =? 1) && bool_decide (rest = []) then Some (1, 1)
  else if (slots =? 0) || (1000 <? slots) then None
  else
    '(required, consumed) ← positive_script_number rest;
    if (required <=? slots) && bool_decide (drop (Z.to_nat consumed) rest = [z2b OP_NUMEQUAL])
    then Some (slots, required) else None.

(** The loop of [multisig_threshold]. *)
Fixpoint multisig_keys (fuel : nat) (bs : bytes) (keys : Z) : option (Z * bytes) :=
  if negb ((34 <=? zlen bs) && (b2z (default x00 (head bs)) =? 33)) then Some (keys, bs)
  else
    match fuel with
    | O => None
    | S fuel =>
        compressed ← pubkey_valid (slice 1 34 bs);
        if negb compressed then None else multisig_keys fuel (drop 34 bs) (keys + 1)
    end.

Definition multisig_threshold (script : bytes) : option Z :=
  '(required, offset) ← positive_script_number script;
  '(keys, rest) ← multisig_keys (length script) (drop (Z.to_nat offset) script) 0;
  '(declared, consumed) ← positive_script_number rest;
  if (keys <=? 20) && (required <=? keys) && (declared =? keys)
     && bool_decide (drop (Z.to_nat consumed) rest = [z2b OP_CHECKMULTISIG])
  then Some required else None.

(** The largest witness of the disclosed leaves, from [largest]. *)
Fixpoint largest_leaf (output_key : bytes) (largest : Z) (scripts : list (ControlBlock * (bytes * Z)))
    : res string Z :=
  match scripts with
  | [] => Ok largest
  | (control, (leaf, version)) :: scripts =>
      if negb (version =? TAPSCRIPT) || negb (control_leaf_version control =? version) then
        Err "unsupported or inconsistent Taproot leaf version"
      else if negb (verify_taproot_commitment control output_key leaf) then
        Err "Taproot script/control block does not commit to the prevout"
      else
        let? (slots, required) :=
          ok_or (tapscript_threshold leaf)
            "unsupported Taproot script; expected CHECKSIG or multi_a" in
        let size :=
          compact_size (slots + 2) + required * 66 + (slots - required)
          + item_size (zlen leaf) + item_size (zlen (control_bytes control)) in
        largest_leaf output_key (Z.max largest size) scripts
  end.

(** DEFAULT has no sighash byte; an existing ALL signature has one. *)
Definition has_sighash_byte (input : PsbtInput) : bool :=
  match sighash_type input with Some ty => negb (ty =? 0) | None => false end
  || match tap_key_sig input with
     | Some s => match tap_sig_type s with SighashDefault => false | _ => true end
     | None => false
     end.

Definition taproot_witness_size (input : PsbtInput) (script : bytes) (key_path : bool)
    : res string Z :=
  if key_path || bool_decide (tap_scripts input = []) then
    let? internal_key := ok_or (tap_internal_key input) "Taproot spend metadata is missing" in
    if negb (bool_decide (new_p2tr internal_key (tap_merkle_root input) = script)) then
      Err "Taproot internal key/merkle root does not match the prevout"
    else Ok (witness_size [if has_sighash_byte input then 65 else 64])
  else
    let? output_key := expect (slice_from script 2) in
    if negb (xonly_valid output_key) then Err "invalid Taproot output key"
    else largest_leaf output_key 0 (tap_scripts input).

(** The witness estimate of one input, by the type of its prevout. *)
Definition input_estimate (input : PsbtInput) (script : bytes) (key_path : bool) : res string Z :=
  if is_p2tr script then taproot_witness_size input script key_path
  else if is_p2wpkh script then Ok (witness_size [73; 33])
  else if is_p2wsh script then
    let? witness_script := ok_or (witness_script input) "P2WSH witness_script is missing" in
    if negb (bool_decide (to_p2wsh witness_script = script)) then
      Err "P2WSH witness_script does not match the prevout"
    else
      let? required := ok_or (multisig_threshold witness_script)
        "unsupported P2WSH script; expected standard CHECKMULTISIG" in
      Ok (compact_size (required + 2) + 1 + required * 74 + item_size (zlen witness_script))
  else Err "unsupported prevout script type".

(** [checked_add] and [checked_mul] on [u64]. *)
Definition checked (z : Z) : option Z := if u64_max <? z then None else Some z.

(** The loop over the funding outputs, from input [index] on. *)
Fixpoint add_inputs (psbt : Psbt) (key_path_inputs : list nat) (index : nat)
    (prevouts : list (option TxOut)) (weight : Z) : enclave_result Z :=
  match prevouts with
  | [] => Ok weight
  | prevout :: prevouts =>
      let? input := expect (inputs psbt !! index) in
      let? txin := expect (tx_input (unsigned_tx psbt) !! index) in
      if negb (bool_decide (script_sig txin = [])) || negb (bool_decide (witness txin = [])) then
        Err (size_error "unsigned transaction already contains unlocking data")
      else if match final_script_sig input with Some s => negb (bool_decide (s = [])) | None => false end
      then Err (size_error "nonempty scriptSig is not supported for native witness inputs")
      else
        let? prevout := ok_or prevout (size_error "funding output unavailable") in
        let? estimated :=
          rmap_err size_error
            (input_estimate input (script_pubkey prevout) (bool_decide (index ∈ key_path_inputs))) in
        let supplied :=
          match final_script_witness input with Some w => witness_wire_size w | None => 0 end in
        let? weight := ok_or (checked (weight + Z.max estimated supplied))
                             (size_error "weight overflow") in
        add_inputs psbt key_path_inputs (S index) prevouts weight
  end.

Definition estimated_signed_vsize (psbt : Psbt) (key_path_inputs : list nat) : enclave_result Z :=
  if bool_decide (inputs psbt = [])
     || negb (zlen (inputs psbt) =? zlen (tx_input (unsigned_tx psbt))) then
    Err (size_error "inconsistent or empty PSBT")
  else
    let? weight :=
      ok_or (n ← checked (base_size (unsigned_tx psbt) * 4); checked (n + 2))
            (size_error "weight overflow") in
    let? weight := add_inputs psbt key_path_inputs 0 (funding_utxos psbt) weight in
    Ok ((weight + 3) / 4).
End Size.

(** * Properties of the signed-size estimate

    The threshold parsers accept exactly the standard scripts, and the estimate
    bounds the size of every transaction whose witnesses have the shapes these
    scripts ask for. *)

(** ** Script numbers *)

(** The shortest push of a positive number, as a script builder writes it. *)
Definition number_data (n : Z) : bytes :=
  let le := rev (len_bytes n) in
  if 0x80 <=? b2z (default x00 (head (len_bytes n))) then le ++ [x00] else le.

Definition script_int (n : Z) : bytes :=
  if n <=? 16 then [z2b (0x50 + n)] else z2b (zlen (number_data n)) :: number_data n.

Lemma fold_le_spec data : forall i n,
  0 <= i -> 0 <= n < 2 ^ (8 * i) -> fold_le i n data = n + 2 ^ (8 * i) * le_combine data.
Proof.
  induction data as [|b data IH]; intros i n Hi Hn; cbn [fold_le le_combine]; [lia|].
  pose proof (b2z_range b). replace (i * 8) with (8 * i) by lia.
  rewrite lor_disjoint by lia. rewrite IH.
  - replace (8 * (i + 1)) with (8 * i + 8) by lia. rewrite Z.pow_add_r by lia.
    change (2 ^ 8) with 256. lia.
  - lia.
  - replace (8 * (i + 1)) with (8 * i + 8) by lia. rewrite Z.pow_add_r by lia.
    change (2 ^ 8) with 256. nia.
Qed.

Lemma fold_le_combine data : fold_le 0 0 data = le_combine data.
Proof. rewrite fold_le_spec by done. change (2 ^ (8 * 0)) with 1. lia. Qed.

Lemma le_combine_pad bs : le_combine (bs ++ [x00]) = le_combine bs.
Proof. induction bs as [|b bs IH]; [done|]. cbn [le_combine app]. by rewrite IH. Qed.

(** The data of a minimal positive push: no sign bit, and no zero byte on top
    that is not there to hold it off. *)
Definition minimal_data (data : bytes) : Prop :=
  exists top, last data = Some top /\ Z.land (b2z top) 0x80 = 0 /\
    (b2z top = 0 -> zlen data <> 1 /\ Z.land (b2z (default x00 (data !! (length data - 2)%nat))) 0x80 <> 0).

Lemma high_bit b : Z.land (b2z b) 0x80 = 0 <-> b2z b < 0x80.
Proof. by destruct b; vm_compute. Qed.

Lemma minimal_unique data :
  minimal_data data -> 0 < le_combine data -> data = number_data (le_combine data).
Proof.
  intros (top & Hl & Hh & Hz) Hn. apply last_Some in Hl as (init & ->).
  apply high_bit in Hh. unfold number_data. destruct (decide (b2z top = 0)) as [E|E].
  - destruct (Hz E) as [H1 H2]. apply (b2z_inj top x00) in E as ->. rewrite le_combine_pad in *.
    destruct init as [|b init _] using rev_ind; [done|].
    rewrite !length_app in H2. replace (length init + length [b] + length [x00] - 2)%nat
      with (length init) in H2 by (cbn; lia).
    rewrite <- app_assoc, lookup_app_r, Nat.sub_diag in H2 by done. cbn in H2.
    rewrite high_bit in H2. rewrite <- (rev_involutive (init ++ [b])), le_combine_rev, rev_unit.
    rewrite len_bytes_unique; [|done|cbn; intros [= ->]; done].
    change (default x00 (head (b :: rev init))) with b. rewrite (proj2 (Z.leb_le _ _)) by lia. done.
  - rewrite <- (rev_involutive (init ++ [top])), le_combine_rev, rev_unit.
    rewrite len_bytes_unique; [|done|cbn; intros [= ->]; done].
    change (default x00 (head (top :: rev init))) with top. rewrite (proj2 (Z.leb_gt _ _)) by lia. by rewrite <- rev_unit.
Qed.

Lemma number_data_spec n :
  0 < n < 2 ^ 31 ->
  minimal_data (number_data n) /\ le_combine (number_data n) = n /\ 1 <= zlen (number_data n) <= 4.
Proof.
  intros Hn. destruct (len_bytes_gen 4 n) as (Hz & Hc & Hh); [lia|change (256 ^ 4) with (2 ^ 32); lia|].
  unfold number_data. destruct (len_bytes n) as [|top tl] eqn:El; [rewrite zlen_nil in Hz; lia|].
  change (default x00 (head (top :: tl))) with top. rewrite zlen_cons in Hz.
  assert (Hrev : zlen (rev (top :: tl)) = 1 + zlen tl)
    by (rewrite <- zlen_cons with (a := top); unfold zlen; by rewrite length_rev).
  destruct (0x80 <=? b2z top) eqn:Et; zbool.
  - rewrite le_combine_pad, le_combine_rev, zlen_app, Hrev. change (zlen [x00]) with 1.
    assert (zlen tl <> 3).
    { intros E3. rewrite be_combine_cons, E3 in Hc. pose proof (be_combine_bound tl). lia. }
    pose proof (zlen_nonneg tl). split; [|split; [done|lia]].
    exists x00. rewrite last_snoc. split; [done|]. split; [done|]. intros _.
    rewrite zlen_app, Hrev. change (zlen [x00]) with 1. split; [lia|].
    cbn [rev]. rewrite !length_app. cbn [length].
    replace (length (rev tl) + 1 + 1 - 2)%nat with (length (rev tl)) by lia.
    rewrite <- app_assoc, lookup_app_r, Nat.sub_diag by done. cbn. rewrite high_bit. lia.
  - rewrite le_combine_rev, Hrev. split; [|split; [done|lia]].
    exists top. cbn [rev]. rewrite last_snoc, high_bit. split; [done|]. split; [done|].
    intros E. exfalso. apply Hh. cbn. f_equal. by apply b2z_inj.
Qed.

Lemma minimal_data_check data top :
  last data = Some top ->
  negb (Z.land (b2z top) 0x80 =? 0)
    || ((b2z top =? 0) && ((zlen data =? 1)
        || (Z.land (b2z (default x00 (data !! (length data - 2)%nat))) 0x80 =? 0))) = false <->
  minimal_data data.
Proof.
  intros Hl. unfold minimal_data. rewrite Hl. split.
  - intros H. exists top. zbool. destruct H as [H1 H2]. split; [done|]. split; [done|].
    intros E. destruct H2 as [H2|[H2 H3]]; [lia|done].
  - intros (t & [= <-] & H1 & H2). rewrite H1. cbn [negb orb Z.eqb].
    destruct (b2z top =? 0) eqn:E; [|done]. apply Z.eqb_eq in E. destruct (H2 E) as [H3 H4].
    apply Z.eqb_neq in H3, H4. by rewrite H3, H4.
Qed.

(** The push case of [positive_script_number], on the data it takes. *)
Lemma push_number_iff first rest data n k :
  1 <= b2z first <= 4 -> take (Z.to_nat (b2z first)) rest = data -> zlen data = b2z first ->
  positive_script_number (first :: rest) = Some (n, k) <->
  minimal_data data /\ n = le_combine data /\ 16 < n /\ k = zlen data + 1.
Proof.
  intros Hf Hd Hz. unfold positive_script_number.
  rewrite (proj2 (Z.leb_gt 0x51 _)) by lia. cbn [andb].
  rewrite (proj2 (Z.leb_le 1 _)), (proj2 (Z.leb_le _ 4)) by lia. cbn [andb negb].
  assert (zlen data <= zlen rest) by (rewrite <- Hd; unfold zlen; rewrite length_take; lia).
  rewrite (proj2 (Z.ltb_ge _ _)) by lia. rewrite Hd.
  destruct (last data) as [top|] eqn:El; [|apply last_None in El as ->; rewrite zlen_nil in Hz; lia].
  cbn [mbind option_bind]. rewrite fold_le_combine. destruct (_ || _) eqn:Ec.
  - split; [done|]. intros [Hm _]. apply (minimal_data_check data top El) in Hm. congruence.
  - apply (minimal_data_check data top El) in Ec.
    destruct (16 <? le_combine data) eqn:E16; zbool; split.
    + intros [= <- <-]. done.
    + intros (_ & -> & _ & ->). done.
    + done.
    + intros (_ & -> & ? & _). lia.
Qed.

Lemma le_combine_bound bs : 0 <= le_combine bs < 256 ^ zlen bs.
Proof.
  rewrite <- (rev_involutive bs), le_combine_rev. pose proof (be_combine_bound (rev bs)) as H.
  unfold zlen in *. by rewrite !length_rev in *.
Qed.

(** Minimal data of at most four bytes is below the sign bit. *)
Lemma minimal_below data : minimal_data data -> zlen data <= 4 -> le_combine data < 2 ^ 31.
Proof.
  intros (top & Hl & Hh & _) Hz. apply last_Some in Hl as (init & ->). apply high_bit in Hh.
  rewrite zlen_app in Hz. change (zlen [top]) with 1 in Hz.
  rewrite <- (rev_involutive (init ++ [top])), le_combine_rev, rev_unit, be_combine_cons.
  pose proof (be_combine_bound (rev init)). pose proof (b2z_range top).
  assert (zlen (rev init) <= 3) by (unfold zlen in *; rewrite length_rev; lia).
  assert (256 ^ zlen (rev init) <= 256 ^ 3) by (apply Z.pow_le_mono_r; lia).
  assert (0 < 256 ^ zlen (rev init)) by (apply Z.pow_pos_nonneg; [lia|apply zlen_nonneg]). nia.
Qed.

(** [positive_script_number] reads exactly the shortest pushes of 1 to [2 ^ 31 - 1]. *)
Lemma positive_script_number_iff bs n k :
  positive_script_number bs = Some (n, k) <->
  1 <= n < 2 ^ 31 /\ k = zlen (script_int n) /\ exists rest, bs = script_int n ++ rest.
Proof.
  split.
  - intros H. destruct bs as [|first rest]; [done|]. pose proof H as H'. cbn in H'.
    destruct (0x51 <=? b2z first) eqn:E1, (b2z first <=? 0x60) eqn:E2; cbn [andb] in H'; zbool.
    { injection H' as <- <-. unfold script_int. rewrite (proj2 (Z.leb_le _ _)) by lia.
      split; [lia|]. split; [done|]. exists rest. cbn. f_equal.
      rewrite <- (z2b_b2z first) at 1. f_equal. lia. }
    all: destruct (1 <=? b2z first) eqn:E3, (b2z first <=? 4) eqn:E4; cbn [andb negb] in H'; try done.
    all: destruct (zlen rest <? b2z first) eqn:E5; [done|]; zbool; try lia.
    pose proof (zlen_take rest (b2z first) ltac:(lia)) as Hz. clear H'.
    set (data := take (Z.to_nat (b2z first)) rest) in *.
    apply (push_number_iff first rest data) in H as (Hm & -> & H16 & ->); [|lia|done|done].
    pose proof (minimal_below data Hm ltac:(lia)). split; [lia|].
    unfold script_int. rewrite (proj2 (Z.leb_gt _ _)) by lia.
    rewrite <- (minimal_unique data Hm) by lia. rewrite zlen_cons. split; [lia|].
    exists (drop (Z.to_nat (b2z first)) rest). rewrite Hz, z2b_b2z. cbn. f_equal.
    unfold data. by rewrite take_drop.
  - intros (Hn & -> & rest & ->). unfold script_int. destruct (n <=? 16) eqn:E; zbool.
    + cbn. rewrite b2z_small by lia. rewrite (proj2 (Z.leb_le _ _)), (proj2 (Z.leb_le _ 0x60)) by lia.
      cbn [andb]. repeat f_equal. lia.
    + destruct (number_data_spec n) as (Hm & Hc & Hz); [lia|]. set (data := number_data n) in *.
      cbn [app]. apply (push_number_iff _ _ data); rewrite ?b2z_small by lia; [lia| |done|].
      * unfold zlen. by rewrite Nat2Z.id, take_app_length.
      * rewrite zlen_cons. split_and!; try done; lia.
Qed.

(** ** Standard scripts *)

Section Scripts.
Context `{B : Bitcoin}.

Definition valid_xonly (key : bytes) : Prop := zlen key = 32 /\ xonly_valid key = true.
Definition valid_pubkey (key : bytes) : Prop := zlen key = 33 /\ pubkey_valid key = Some true.

(** [<key> CHECKSIG <key> CHECKSIGADD ...], from the slot [slots]. *)
Fixpoint key_slots (slots : Z) (keys : list bytes) : bytes :=
  match keys with
  | [] => []
  | key :: keys =>
      (x20 :: key ++ [z2b (if slots =? 0 then OP_CHECKSIG else OP_CHECKSIGADD)])
        ++ key_slots (slots + 1) keys
  end.

Definition multi_a (keys : list bytes) (required : Z) : bytes :=
  key_slots 0 keys ++ script_int required ++ [z2b OP_NUMEQUAL].

Definition multisig (required : Z) (keys : list bytes) : bytes :=
  script_int required ++ concat (map (cons x21) keys) ++ script_int (zlen keys)
    ++ [z2b OP_CHECKMULTISIG].

Lemma split_34 (bs : bytes) :
  34 <= zlen bs -> exists first key op rest, bs = (first :: key ++ [op]) ++ rest /\ zlen key = 32.
Proof.
  intros Hz. destruct bs as [|first bs]; [rewrite zlen_nil in Hz; lia|]. rewrite zlen_cons in Hz.
  exists first, (take 32 bs). destruct (drop 32 bs) as [|op rest] eqn:E.
  { apply (f_equal length) in E. rewrite length_drop in E. unfold zlen in Hz. cbn in E. lia. }
  exists op, rest. split; [|apply (zlen_take bs 32); lia].
  cbn. rewrite <- app_assoc. cbn. by rewrite <- E, take_drop.
Qed.

Lemma slot_fields first key op rest :
  zlen key = 32 ->
  let bs := (first :: key ++ [op]) ++ rest in
  head bs = Some first /\ bs !! 33%nat = Some op /\ slice 1 33 bs = key /\ drop 34 bs = rest.
Proof.
  intros Hz bs. assert (Hl : length key = 32%nat) by (unfold zlen in Hz; lia).
  subst bs. cbn [app head]. rewrite <- app_assoc. split_and!; [done| | |].
  - change ((first :: key ++ [op] ++ rest) !! 33%nat) with ((key ++ [op] ++ rest) !! 32%nat).
    rewrite lookup_app_r by lia. by rewrite Hl.
  - change (slice 1 33 (first :: key ++ [op] ++ rest)) with (take 32 (key ++ [op] ++ rest)).
    rewrite <- Hl. apply take_app_length.
  - change (drop 34 (first :: key ++ [op] ++ rest)) with (drop 33 (key ++ [op] ++ rest)).
    rewrite drop_app_ge, Hl by lia. done.
Qed.

Lemma tapscript_slots_sound fuel : forall bs slots n rest,
  tapscript_slots fuel bs slots = Some (n, rest) ->
  exists keys, Forall valid_xonly keys /\ bs = key_slots slots keys ++ rest /\ n = slots + zlen keys.
Proof.
  assert (Hstop : forall bs slots n rest, Some (slots, bs) = Some (n, rest) ->
    exists keys, Forall valid_xonly keys /\ bs = key_slots slots keys ++ rest /\ n = slots + zlen keys).
  { intros bs slots n rest [= <- <-]. exists []. split_and!; [constructor|done|rewrite zlen_nil; lia]. }
  induction fuel as [|fuel IH]; intros bs slots n rest H; cbn [tapscript_slots] in H;
    destruct (34 <=? zlen bs) eqn:E; cbn [negb] in H; try done; try by apply Hstop.
  zbool. destruct (split_34 bs E) as (first & key & op & tl & -> & Hz).
  destruct (slot_fields first key op tl Hz) as (E1 & E2 & E3 & E4). rewrite E1, E2, E3, E4 in H.
  change (default x00 (Some first)) with first in H. change (default x00 (Some op)) with op in H.
  destruct (_ || _) eqn:Ec; [by apply Hstop|]. zbool. destruct Ec as [Ef Eo].
  destruct (xonly_valid key) eqn:Ev; [|done]. cbn [negb] in H.
  destruct (IH _ _ _ _ H) as (keys & Hk & -> & ->). exists (key :: keys).
  split_and!; [by constructor| |rewrite zlen_cons; lia].
  cbn [key_slots]. apply (b2z_inj first x20) in Ef as ->.
  rewrite <- (z2b_b2z op), Eo. by rewrite <- app_assoc.
Qed.

Lemma tapscript_slots_complete fuel : forall keys slots rest,
  Forall valid_xonly keys -> zlen rest < 34 -> 0 <= slots ->
  (length (key_slots slots keys ++ rest) <= fuel)%nat ->
  tapscript_slots fuel (key_slots slots keys ++ rest) slots = Some (slots + zlen keys, rest).
Proof.
  induction fuel as [|fuel IH]; intros keys slots rest Hk Hr Hs Hf.
  { destruct keys as [|key keys]; [|cbn in Hf; lia]. destruct rest; [|cbn in Hf; lia].
    change (zlen (@nil bytes)) with 0. by rewrite Z.add_0_r. }
  destruct keys as [|key keys].
  { cbn [key_slots app tapscript_slots]. rewrite (proj2 (Z.leb_gt _ _)) by lia.
    change (zlen (@nil bytes)) with 0. by rewrite Z.add_0_r. }
  apply Forall_cons in Hk as [[Hz Hv] Hk]. cbn [key_slots] in *. rewrite <- app_assoc in *.
  set (op := z2b _) in *. set (tl := key_slots (slots + 1) keys ++ rest) in *.
  destruct (slot_fields x20 key op tl Hz) as (E1 & E2 & E3 & E4). cbn [tapscript_slots].
  assert (H34 : zlen (x20 :: key ++ [op]) = 34) by (rewrite zlen_cons, zlen_app, Hz; done).
  rewrite (proj2 (Z.leb_le 34 (zlen ((x20 :: key ++ [op]) ++ tl))))
    by (rewrite zlen_app, H34; pose proof (zlen_nonneg tl); lia).
  rewrite E1, E2, E3, E4. change (default x00 (Some x20)) with x20.
  change (default x00 (Some op)) with op.
  assert (b2z op = if slots =? 0 then OP_CHECKSIG else OP_CHECKSIGADD) as ->
    by (unfold op; by destruct (slots =? 0)).
  change (b2z x20 =? 32) with true. rewrite Z.eqb_refl, Hv. cbn [negb orb]. rewrite length_app in Hf. cbn [length] in Hf.
  subst tl. rewrite IH by (done || lia). by rewrite zlen_cons, Z.add_assoc.
Qed.

Lemma script_int_len n : 1 <= n < 2 ^ 31 -> 1 <= zlen (script_int n) <= 5.
Proof.
  intros Hn. unfold script_int. destruct (n <=? 16); [done|].
  destruct (number_data_spec n) as (_ & _ & Hz); [lia|]. rewrite zlen_cons. lia.
Qed.

Lemma drop_zlen_app {A} (a b : list A) : drop (Z.to_nat (zlen a)) (a ++ b) = b.
Proof. unfold zlen. by rewrite Nat2Z.id, drop_app_length. Qed.

Lemma number_then n rest :
  1 <= n < 2 ^ 31 -> positive_script_number (script_int n ++ rest) = Some (n, zlen (script_int n)).
Proof. intros Hn. apply positive_script_number_iff. split; [done|]. split; [done|]. by exists rest. Qed.

Lemma tapscript_threshold_ok script slots required :
  tapscript_threshold script = Some (slots, required) <->
  exists keys, Forall valid_xonly keys /\ slots = zlen keys /\
    ((slots = 1 /\ required = 1 /\ script = key_slots 0 keys) \/
     (1 <= required <= slots /\ slots <= 1000 /\ script = multi_a keys required)).
Proof.
  unfold tapscript_threshold, multi_a. split.
  - destruct (tapscript_slots _ script 0) as [[n rest]|] eqn:E; [|done]. cbn [mbind option_bind].
    apply tapscript_slots_sound in E as (keys & Hk & -> & ->). rewrite Z.add_0_l in *.
    intros H. exists keys. split; [done|]. destruct (_ && _) eqn:E1.
    { injection H as <- <-. zbool. destruct E1 as [E1 ->%bool_decide_eq_true]. split; [done|].
      left. by rewrite app_nil_r. }
    destruct (_ || _) eqn:E2; [done|]. zbool. destruct E2 as [E2 E3].
    destruct (positive_script_number rest) as [[req k]|] eqn:En; [|done]. cbn [mbind option_bind] in H.
    apply positive_script_number_iff in En as (Hn & -> & tl & ->). rewrite drop_zlen_app in H.
    destruct (_ && _) eqn:E4; [|done]. injection H as <- <-. zbool.
    destruct E4 as [E4 ->%bool_decide_eq_true]. split; [done|]. right. split_and!; (done || lia).
  - intros (keys & Hk & -> & [(H1 & -> & ->)|(Hr & Hs & ->)]).
    + rewrite <- (app_nil_r (key_slots 0 keys)).
      rewrite tapscript_slots_complete by (done || lia). cbn [mbind option_bind].
      by rewrite Z.add_0_l, H1.
    + pose proof (script_int_len required ltac:(lia)).
      rewrite tapscript_slots_complete; [|done| |done|done].
      2:{ rewrite zlen_app. change (zlen [z2b OP_NUMEQUAL]) with 1. lia. }
      cbn [mbind option_bind]. rewrite Z.add_0_l, bool_decide_eq_false_2, andb_false_r
        by (intros E; apply (f_equal zlen) in E; rewrite zlen_app, zlen_nil in E;
            change (zlen [z2b OP_NUMEQUAL]) with 1 in E; lia).
      rewrite (proj2 (Z.eqb_neq _ _)), (proj2 (Z.ltb_ge _ _)) by lia. cbn [orb].
      rewrite number_then by lia. cbn [mbind option_bind]. rewrite drop_zlen_app.
      by rewrite (proj2 (Z.leb_le _ _)), bool_decide_eq_true_2 by (done || lia).
Qed.

Lemma pubkey_fields key rest :
  zlen key = 33 -> let bs := (x21 :: key) ++ rest in slice 1 34 bs = key /\ drop 34 bs = rest.
Proof.
  intros Hz bs. assert (Hl : length key = 33%nat) by (unfold zlen in Hz; lia). subst bs. cbn [app].
  split.
  - change (slice 1 34 (x21 :: key ++ rest)) with (take 33 (key ++ rest)). rewrite <- Hl.
    apply take_app_length.
  - change (drop 34 (x21 :: key ++ rest)) with (drop 33 (key ++ rest)).
    by rewrite drop_app_ge, Hl, Nat.sub_diag by lia.
Qed.

Lemma multisig_keys_sound fuel : forall bs k n rest,
  multisig_keys fuel bs k = Some (n, rest) ->
  exists keys, Forall valid_pubkey keys /\ bs = concat (map (cons x21) keys) ++ rest /\ n = k + zlen keys.
Proof.
  assert (Hstop : forall bs k n rest, Some (k, bs) = Some (n, rest) ->
    exists keys, Forall valid_pubkey keys /\ bs = concat (map (cons x21) keys) ++ rest /\ n = k + zlen keys).
  { intros bs k n rest [= <- <-]. exists []. split_and!; [constructor|done|rewrite zlen_nil; lia]. }
  induction fuel as [|fuel IH]; intros bs k n rest H; cbn [multisig_keys] in H;
    destruct (_ && _) eqn:E; cbn [negb] in H; try done; try by apply Hstop.
  apply andb_true_iff in E as [E1 E2]. zbool. destruct bs as [|b bs]; [rewrite zlen_nil in E1; lia|].
  change (default x00 (head (b :: bs))) with b in E2. apply (b2z_inj b x21) in E2 as ->.
  rewrite zlen_cons in E1.
  assert (Hz : zlen (take 33 bs) = 33) by (apply (zlen_take bs 33); lia).
  rewrite <- (take_drop 33 bs), app_comm_cons in H.
  destruct (pubkey_fields (take 33 bs) (drop 33 bs) Hz) as [E3 E4]. rewrite E3, E4 in H.
  destruct (pubkey_valid (take 33 bs)) as [[]|] eqn:Ev; [|done|done]. cbn [mbind option_bind negb] in H.
  destruct (IH _ _ _ _ H) as (keys & Hk & Ed & ->). exists (take 33 bs :: keys).
  split_and!; [by constructor| |rewrite zlen_cons; lia].
  cbn. rewrite <- app_assoc, <- Ed. by rewrite take_drop.
Qed.

Lemma multisig_keys_complete fuel : forall keys k rest,
  Forall valid_pubkey keys -> b2z (default x00 (head rest)) <> 33 ->
  (length (concat (map (cons x21) keys) ++ rest) <= fuel)%nat ->
  multisig_keys fuel (concat (map (cons x21) keys) ++ rest) k = Some (k + zlen keys, rest).
Proof.
  assert (Hstop : forall fuel rest k, b2z (default x00 (head rest)) <> 33 ->
    multisig_keys fuel rest k = Some (k + zlen (@nil bytes), rest)).
  { intros f rest k Hr. change (zlen (@nil bytes)) with 0. rewrite Z.add_0_r.
    destruct f; cbn [multisig_keys]; by rewrite (proj2 (Z.eqb_neq _ _) Hr), andb_false_r. }
  induction fuel as [|fuel IH]; intros [|key keys] k rest Hk Hr Hf;
    [by apply Hstop|cbn in Hf; lia|by apply Hstop|].
  apply Forall_cons in Hk as [[Hz Hv] Hk].
  change (concat (map (cons x21) (key :: keys)) ++ rest)
    with (((x21 :: key) ++ concat (map (cons x21) keys)) ++ rest) in *. rewrite <- app_assoc in *.
  set (tl := concat (map (cons x21) keys) ++ rest) in *.
  destruct (pubkey_fields key tl Hz) as [E1 E2]. cbn [multisig_keys].
  rewrite (proj2 (Z.leb_le 34 (zlen ((x21 :: key) ++ tl))))
    by (rewrite zlen_app, zlen_cons; pose proof (zlen_nonneg tl); lia).
  cbn [app] in E1, E2 |- *. rewrite E1, E2, Hv. cbn [head]. change (b2z (default x00 (Some x21)) =? 33) with true.
  cbn [andb negb mbind option_bind]. rewrite length_app in Hf. cbn [length] in Hf.
  subst tl. rewrite IH by (done || lia). by rewrite zlen_cons, Z.add_assoc.
Qed.

Lemma script_int_head n rest : 1 <= n < 2 ^ 31 -> b2z (default x00 (head (script_int n ++ rest))) <> 33.
Proof.
  intros Hn. unfold script_int. destruct (n <=? 16) eqn:E; zbool; cbn.
  - rewrite b2z_small by lia. lia.
  - destruct (number_data_spec n) as (_ & _ & Hz); [lia|]. rewrite b2z_small by lia. lia.
Qed.

Lemma multisig_threshold_ok script required :
  multisig_threshold script = Some required <->
  exists keys, Forall valid_pubkey keys /\ zlen keys <= 20 /\ 1 <= required <= zlen keys /\
    script = multisig required keys.
Proof.
  unfold multisig_threshold, multisig. split.
  - destruct (positive_script_number script) as [[req off]|] eqn:E1; [|done]. cbn [mbind option_bind].
    apply positive_script_number_iff in E1 as (Hr & -> & rest & ->). rewrite drop_zlen_app.
    destruct (multisig_keys _ rest 0) as [[n tl]|] eqn:E2; [|done]. cbn [mbind option_bind].
    apply multisig_keys_sound in E2 as (keys & Hk & -> & ->). rewrite Z.add_0_l.
    destruct (positive_script_number tl) as [[d k]|] eqn:E3; [|done]. cbn [mbind option_bind].
    apply positive_script_number_iff in E3 as (Hd & -> & tl' & ->). rewrite drop_zlen_app.
    destruct (_ && _) eqn:E4; [|done]. intros [= <-]. zbool.
    destruct E4 as [[[H1 H2] H3] ->%bool_decide_eq_true]. subst d. exists keys. split_and!; (done || lia).
  - intros (keys & Hk & Hn & Hr & ->). pose proof (zlen_nonneg keys).
    rewrite number_then by lia. cbn [mbind option_bind]. rewrite drop_zlen_app.
    rewrite multisig_keys_complete; [|done|apply script_int_head; lia|rewrite !length_app; lia].
    cbn [mbind option_bind]. rewrite Z.add_0_l, number_then by lia. cbn [mbind option_bind].
    rewrite drop_zlen_app, !(proj2 (Z.leb_le _ _)), Z.eqb_refl by lia.
    by rewrite bool_decide_eq_true_2.
Qed.
End Scripts.

(** ** The estimate bounds the signed size *)

Section Estimate.
Context `{B : Bitcoin}.

(** Signatures of at most [max] bytes, at most [required] of them not empty. *)
Definition threshold_sigs (required max : Z) (sigs : list bytes) : Prop :=
  Forall (fun s => zlen s <= max) sigs /\
  zlen (filter (fun s => s <> []) sigs) <= required.

(** The witnesses that finalize an input, by its spend type. *)
Definition spends (input : PsbtInput) (script : bytes) (key_path : bool) (w : list bytes) : Prop :=
  final_script_witness input = Some w \/
  if is_p2tr script then
    if key_path || bool_decide (tap_scripts input = []) then
      exists sig, w = [sig] /\ zlen sig <= if has_sighash_byte input then 65 else 64
    else
      exists control leaf version slots required sigs,
        (control, (leaf, version)) ∈ tap_scripts input /\
        tapscript_threshold leaf = Some (slots, required) /\ zlen sigs = slots /\
        threshold_sigs required 65 sigs /\ w = sigs ++ [leaf; control_bytes control]
  else if is_p2wpkh script then
    exists sig key, w = [sig; key] /\ zlen sig <= 73 /\ zlen key <= 33
  else
    exists ws required sigs, witness_script input = Some ws /\
      multisig_threshold ws = Some required /\ zlen sigs = required /\
      Forall (fun s => zlen s <= 73) sigs /\ w = [] :: sigs ++ [ws].

(** Every input has a witness that spends its funding output. *)
Fixpoint all_spend (psbt : Psbt) (key_path_inputs : list nat) (index : nat)
    (prevouts : list (option TxOut)) (ws : list (list bytes)) : Prop :=
  match prevouts, ws with
  | [], [] => True
  | Some prevout :: prevouts, w :: ws =>
      (exists input, inputs psbt !! index = Some input /\
         spends input (script_pubkey prevout) (bool_decide (index ∈ key_path_inputs)) w) /\
      all_spend psbt key_path_inputs (S index) prevouts ws
  | _, _ => False
  end.

(** Virtual size of the transaction with these witnesses (BIP 141). *)
Definition signed_vsize (tx : Transaction) (ws : list (list bytes)) : Z :=
  (base_size tx * 4 + 2 + foldr (fun w acc => witness_wire_size w + acc) 0 ws + 3) / 4.

Lemma compact_wire n : compact_size n = wire_compact n.
Proof. unfold compact_size, wire_compact. repeat case_match; zbool; lia. Qed.

Lemma compact_mono a b : a <= b -> compact_size a <= compact_size b.
Proof. intros H. unfold compact_size. repeat case_match; zbool; lia. Qed.

Definition items (l : list bytes) : Z := foldr (fun i acc => wire_item i + acc) 0 l.

Lemma items_app a b : items (a ++ b) = items a + items b.
Proof. induction a as [|x a IH]; cbn; [done|]. unfold items in *. lia. Qed.

Lemma wire_item_le i len : zlen i <= len -> wire_item i <= item_size len.
Proof.
  intros H. unfold wire_item, item_size. rewrite <- compact_wire. pose proof (compact_mono _ _ H). lia.
Qed.

Lemma wire_item_small i len : zlen i <= len -> len <= 252 -> wire_item i <= 1 + len.
Proof.
  intros H1 H2. apply (wire_item_le i len) in H1. unfold item_size, compact_size in H1.
  rewrite (proj2 (Z.leb_le _ _)) in H1 by lia. lia.
Qed.

Lemma threshold_sigs_items required sigs :
  threshold_sigs required 65 sigs -> items sigs <= required * 65 + zlen sigs.
Proof.
  intros [Hf Hn]. assert (H : items sigs <= zlen (filter (fun s => s <> []) sigs) * 65 + zlen sigs); [|lia].
  clear Hn. induction Hf as [|s sigs Hs _ IH]; [done|].
  change (items (s :: sigs)) with (wire_item s + items sigs). rewrite zlen_cons, filter_cons.
  destruct (decide (s <> [])) as [Hne|He].
  - rewrite zlen_cons. pose proof (wire_item_small s 65 Hs ltac:(lia)). lia.
  - assert (s = []) as -> by (destruct s; [done|by exfalso; apply He]). change (wire_item []) with 1. lia.
Qed.

Lemma sigs_items n sigs : Forall (fun s => zlen s <= 73) sigs -> zlen sigs = n -> items sigs <= n * 74.
Proof.
  intros Hf <-. induction Hf as [|s sigs Hs _ IH]; [done|].
  change (items (s :: sigs)) with (wire_item s + items sigs). rewrite zlen_cons.
  pose proof (wire_item_small s 73 Hs ltac:(lia)). lia.
Qed.

Lemma largest_leaf_ge key scripts : forall largest e, largest_leaf key largest scripts = Ok e ->
  largest <= e /\
  forall control leaf version slots required, (control, (leaf, version)) ∈ scripts ->
    tapscript_threshold leaf = Some (slots, required) ->
    compact_size (slots + 2) + required * 66 + (slots - required)
      + item_size (zlen leaf) + item_size (zlen (control_bytes control)) <= e.
Proof.
  induction scripts as [|[c [l v]] scripts IH]; intros largest e H; cbn [largest_leaf] in H.
  { injection H as <-. split; [lia|]. intros ? ? ? ? ? Hin. by apply not_elem_of_nil in Hin. }
  destruct (_ || _); [done|]. destruct (negb _); [done|].
  destruct (tapscript_threshold l) as [[s r]|] eqn:Et; [|done]. cbn [ok_or rbind] in H.
  destruct (IH _ _ H) as [Hle Hall]. split; [lia|]. intros control leaf version slots required Hin Ht.
  apply elem_of_cons in Hin as [[= -> -> ->]|Hin]; [|by eapply Hall].
  rewrite Et in Ht. injection Ht as -> ->. lia.
Qed.

Context {Hlaws : BitcoinLaws B}.

Lemma wire_size_items w : witness_wire_size w = compact_size (zlen w) + items w.
Proof. by rewrite witness_wire_size_spec, compact_wire. Qed.

Lemma leaf_witness_size (sigs : list bytes) slots required leaf control :
  threshold_sigs required 65 sigs -> zlen sigs = slots ->
  witness_wire_size (sigs ++ [leaf; control]) <=
  compact_size (slots + 2) + required * 66 + (slots - required)
    + item_size (zlen leaf) + item_size (zlen control).
Proof.
  intros Ht Hz. apply threshold_sigs_items in Ht. rewrite wire_size_items, items_app, zlen_app, Hz in *.
  change (zlen [leaf; control]) with 2. change (items [leaf; control]) with (wire_item leaf + (wire_item control + 0)).
  pose proof (wire_item_le leaf _ (Z.le_refl _)). pose proof (wire_item_le control _ (Z.le_refl _)). lia.
Qed.

Lemma input_estimate_sound input script key_path e w :
  input_estimate input script key_path = Ok e -> spends input script key_path w ->
  witness_wire_size w <=
    Z.max e (match final_script_witness input with Some w => witness_wire_size w | None => 0 end).
Proof.
  intros He [->|Hs]; [lia|]. apply Z.le_trans with e; [|lia]. unfold input_estimate in He.
  destruct (is_p2tr script).
  - unfold taproot_witness_size in He. destruct (key_path || _).
    + destruct Hs as (sig & -> & Hz). apply rbind_ok in He as (ik & _ & He).
      destruct (negb _); [done|]. injection He as <-. rewrite wire_size_items.
      change (zlen [sig]) with 1. change (items [sig]) with (wire_item sig + 0). unfold witness_size.
      change (zlen [if has_sighash_byte input then 65 else 64]) with 1. cbn [foldr].
      pose proof (wire_item_le sig _ Hz). lia.
    + destruct Hs as (control & leaf & version & slots & required & sigs & Hin & Ht & Hz & Hsig & ->).
      apply rbind_ok in He as (key & _ & He). destruct (negb _); [done|].
      apply largest_leaf_ge in He as [_ He]. specialize (He _ _ _ _ _ Hin Ht).
      pose proof (leaf_witness_size sigs slots required leaf (control_bytes control) Hsig Hz). lia.
  - destruct (is_p2wpkh script).
    + destruct Hs as (sig & key & -> & Hsig & Hkey). injection He as <-. rewrite wire_size_items.
      change (zlen [sig; key]) with 2. change (items [sig; key]) with (wire_item sig + (wire_item key + 0)).
      pose proof (wire_item_le sig _ Hsig). pose proof (wire_item_le key _ Hkey).
      unfold witness_size. change (zlen [73; 33]) with 2. cbn [foldr]. lia.
    + destruct (is_p2wsh script); [|done].
      destruct Hs as (ws & required & sigs & Hws & Hm & Hz & Hsig & ->). rewrite Hws in He.
      cbn [ok_or rbind] in He. destruct (negb _); [done|]. rewrite Hm in He. injection He as <-.
      pose proof (sigs_items required sigs Hsig Hz). rewrite wire_size_items, zlen_cons, zlen_app, Hz.
      change (zlen [ws]) with 1. change (items ([] :: sigs ++ [ws])) with (1 + items (sigs ++ [ws])).
      rewrite items_app. change (items [ws]) with (wire_item ws + 0).
      pose proof (wire_item_le ws _ (Z.le_refl _)). replace (1 + (required + 1)) with (required + 2) by lia. lia.
Qed.

Lemma add_inputs_sound psbt kp prevouts : forall index weight weight' ws,
  add_inputs psbt kp index prevouts weight = Ok weight' -> all_spend psbt kp index prevouts ws ->
  weight + foldr (fun w acc => witness_wire_size w + acc) 0 ws <= weight'.
Proof.
  induction prevouts as [|prevout prevouts IH]; intros index weight weight' ws H Hs.
  { destruct ws; [|done]. injection H as <-. cbn. lia. }
  cbn [add_inputs] in H. destruct prevout as [p|]; [|by destruct ws].
  destruct ws as [|w ws]; [done|]. destruct Hs as [(input & Hi & Hw) Hs]. rewrite Hi in H.
  cbn [expect rbind] in H. apply rbind_ok in H as (txin & _ & H).
  destruct (_ || _); [done|].
  destruct (match final_script_sig input with
            | Some s => negb (bool_decide (s = [])) | None => false end); [done|].
  cbn [ok_or rbind] in H. apply rbind_ok in H as (e & He & H). apply rbind_ok in H as (w1 & Hw1 & H).
  destruct (input_estimate input _ _) as [e'| |] eqn:Ee; try done. injection He as ->.
  pose proof (input_estimate_sound _ _ _ _ _ Ee Hw). unfold checked in Hw1.
  destruct (u64_max <? _); [done|]. injection Hw1 as <-. specialize (IH _ _ _ _ H Hs). cbn [foldr]. lia.
Qed.

Lemma signed_vsize_bounded psbt kp v ws :
  estimated_signed_vsize psbt kp = Ok v -> all_spend psbt kp 0 (funding_utxos psbt) ws ->
  signed_vsize (unsigned_tx psbt) ws <= v.
Proof.
  intros H Hs. unfold estimated_signed_vsize in H. destruct (_ || _); [done|].
  apply rbind_ok in H as (w0 & Hw0 & H). apply rbind_ok in H as (w1 & Hw1 & H). injection H as <-.
  unfold checked in Hw0. destruct (u64_max <? base_size _ * 4); [done|]. cbn [mbind option_bind] in Hw0.
  destruct (u64_max <? _); [done|]. injection Hw0 as <-.
  pose proof (add_inputs_sound _ _ _ _ _ _ _ Hw1 Hs). unfold signed_vsize.
  apply Z.div_le_mono; lia.
Qed.
End Estimate.

(** The threshold readers accept exactly the standard scripts: a single-key
    leaf or a [multi_a] leaf of at most a thousand valid keys, and a
    CHECKMULTISIG script of at most twenty compressed keys, each with a
    threshold of one up to the number of keys and every number in its shortest
    push; and they return the threshold that is written there. *)
Theorem thresholds_iff `{B : Bitcoin} (script : bytes) :
  (forall slots required, tapscript_threshold script = Some (slots, required) <->
     exists keys, Forall valid_xonly keys /\ slots = zlen keys /\
       ((slots = 1 /\ required = 1 /\ script = key_slots 0 keys) \/
        (1 <= required <= slots /\ slots <= 1000 /\ script = multi_a keys required))) /\
  (forall required, multisig_threshold script = Some required <->
     exists keys, Forall valid_pubkey keys /\ zlen keys <= 20 /\ 1 <= required <= zlen keys /\
       script = multisig required keys).
Proof.
  split; [intros slots required; apply tapscript_threshold_ok|].
  intros required. apply multisig_threshold_ok.
Qed.
