(* ===== verification/PsbtKeys.v ===== *)
(** * Keys and the key-path signer
      (src/enclave/src/keys.rs, src/enclave/src/networks/rgb/signing/taproot.rs)

    Which inputs of a PSBT the enclave controls, and the signatures it adds to
    them.  BIP-32 derivation, Schnorr signing and the PSBT codec are external:
    [Bip32], [TapSigner] and [PsbtCodec] stand for them.  A [gmap] stands for a
    [BTreeMap] that is only looked up. *)

From stdpp Require Import base numbers list gmap strings.
From S2P Require Import Prelude Errors Lengths PsbtTypes.

#[local] Open Scope list_scope.
#[local] Open Scope Z_scope.

Inductive AccountType : Type := Vanilla | Colored.

#[export] Instance account_type_eq_dec : EqDecision AccountType.
Proof. solve_decision. Defined.

Class Bip32 : Type := {
  Xpriv : Type;
  SecretKey : Type;
  derive_priv : Xpriv -> list ChildNumber -> option SecretKey;
  (** [XOnlyPublicKey::from_keypair] of the key pair. *)
  xonly_of_secret : SecretKey -> bytes
}.

Class PsbtCodec : Type := {
  psbt_deserialize : bytes -> option Psbt;
  psbt_serialize : Psbt -> bytes
}.

Definition RGB_COIN_TYPE_MAINNET : Z := 827166.
Definition RGB_COIN_TYPE_TESTNET : Z := 827167.
Definition COLORED_KEYCHAIN : Z := 0.
Definition VANILLA_KEYCHAINS : list Z := [0; 1].
Definition MAX_PSBT_BYTES : Z := 1024 * 1024.

Definition check_psbt_size (bs : bytes) : enclave_result unit :=
  if MAX_PSBT_BYTES <? zlen bs then Err (CrossCheck "over the PSBT size limit") else Ok tt.

Definition is_wallet_child_path (account : AccountType) (child_path : list ChildNumber) : bool :=
  match child_path with
  | [Normal keychain; Normal _] =>
      match account with
      | Colored => keychain =? COLORED_KEYCHAIN
      | Vanilla => bool_decide (keychain ∈ VANILLA_KEYCHAINS)
      end
  | _ => false
  end.

Section Keys.
Context `{K : Bip32}.

(** The fields of [KeyManager] that PSBTs use. *)
Record KeyManager : Type := {
  master_fingerprint : bytes;
  account_xpriv_vanilla : Xpriv;
  account_xpriv_colored : Xpriv;
  vanilla_coin_type : Z;
  colored_coin_type : Z
}.

(** The coin types [from_seed] sets. *)
Definition coin_types (mainnet : bool) : Z * Z :=
  if mainnet then (0, RGB_COIN_TYPE_MAINNET) else (1, RGB_COIN_TYPE_TESTNET).

Definition derive_btc_child (km : KeyManager) (account : AccountType) (child_path : list ChildNumber)
    : enclave_result SecretKey :=
  let account_xpriv :=
    match account with
    | Vanilla => account_xpriv_vanilla km
    | Colored => account_xpriv_colored km
    end in
  ok_or (derive_priv account_xpriv child_path) (InvalidKey "child derivation failed").

Definition resolve_account_and_child_path (km : KeyManager) (steps : list ChildNumber)
    : option (AccountType * list ChildNumber) :=
  match steps with
  | [s0; coin_type; s2; s3; s4] =>
      if negb (bool_decide (s0 = Hardened 86)) then None
      else if negb (bool_decide (s2 = Hardened 0)) then None
      else if bool_decide (coin_type = Hardened (vanilla_coin_type km)) then Some (Vanilla, [s3; s4])
      else if bool_decide (coin_type = Hardened (colored_coin_type km)) then Some (Colored, [s3; s4])
      else None
  | _ => None
  end.

Record TaprootSignJob : Type := {
  input_index : nat;
  xonly_pubkey : bytes;
  merkle_root : option bytes;
  account_type : AccountType;
  child_path : list ChildNumber
}.

Definition ok {E A : Type} (r : res E A) : option A :=
  match r with Ok a => Some a | _ => None end.

Context `{B : Bitcoin}.

Definition key_path_job (km : KeyManager) (input : PsbtInput) (input_idx : nat) (output_key : bytes)
    : option TaprootSignJob :=
  internal_key ← tap_internal_key input;
  origin ← tap_key_origins input !! internal_key;
  if negb (bool_decide (fingerprint origin = master_fingerprint km)) then None
  else
    '(account_type, child_path) ← resolve_account_and_child_path km (derivation_path origin);
    child_secret ← ok (derive_btc_child km account_type child_path);
    if negb (bool_decide (xonly_of_secret child_secret = internal_key)) then None
    else if negb (bool_decide (tap_tweak internal_key (tap_merkle_root input) = output_key)) then None
    else Some {| input_index := input_idx; xonly_pubkey := internal_key;
                 merkle_root := tap_merkle_root input; account_type := account_type;
                 child_path := child_path |}.

(** The job of one input, [None] when the enclave does not control it. *)
Definition controlled_input (km : KeyManager) (input_idx : nat) (input : PsbtInput)
    : option TaprootSignJob :=
  utxo ← witness_utxo input;
  let spk := script_pubkey utxo in
  if negb (is_p2tr spk) then None
  else if negb (zlen spk =? 34) then None
  else
    let output_key := slice 2 34 spk in
    if negb (xonly_valid output_key) then None
    else key_path_job km input input_idx output_key.

Definition find_controlled_taproot_inputs (psbt : Psbt) (km : KeyManager) : list TaprootSignJob :=
  omap id (imap (controlled_input km) (inputs psbt)).

Definition find_taproot_sign_jobs (psbt : Psbt) (km : KeyManager) : enclave_result (list TaprootSignJob) :=
  let? jobs := rmapM (fun job =>
    let? input := expect (inputs psbt !! input_index job) in
    Ok (match tap_key_sig input with None => Some job | Some _ => None end))
    (find_controlled_taproot_inputs psbt km) in
  Ok (omap id jobs).

(** [taproot_key_spend_signature_hash] and the Schnorr signature over it with
    the tweaked key. *)
Class TapSigner : Type := {
  sign_key_spend :
    SecretKey -> option bytes -> Transaction -> list TxOut -> nat -> TapSighashType -> option bytes
}.

Context `{TapSigner}.

Definition set_tap_key_sig (input : PsbtInput) (sig : TapSignature) : PsbtInput :=
  {| non_witness_utxo := non_witness_utxo input; witness_utxo := witness_utxo input;
     witness_script := witness_script input; final_script_sig := final_script_sig input;
     final_script_witness := final_script_witness input; sighash_type := sighash_type input;
     tap_internal_key := tap_internal_key input; tap_merkle_root := tap_merkle_root input;
     tap_key_sig := Some sig; tap_scripts := tap_scripts input;
     tap_key_origins := tap_key_origins input |}.

Definition set_inputs (psbt : Psbt) (l : list PsbtInput) : Psbt :=
  {| unsigned_tx := unsigned_tx psbt; inputs := l; outputs := outputs psbt |}.

(** One turn of the loop of [sign_taproot_inputs]. *)
Definition sign_job (km : KeyManager) (prevouts : list TxOut) (psbt : Psbt) (job : TaprootSignJob)
    : enclave_result Psbt :=
  let? input := expect (inputs psbt !! input_index job) in
  let requested := default 0 (sighash_type input) in
  let? ty :=
    if requested =? 0 then Ok SighashDefault
    else if requested =? 1 then Ok SighashAll
    else Err (Signing "unsupported taproot sighash") in
  let? child_secret := derive_btc_child km (account_type job) (child_path job) in
  let? signature :=
    ok_or (sign_key_spend child_secret (merkle_root job) (unsigned_tx psbt) prevouts
             (input_index job) ty) (Signing "taproot sighash") in
  Ok (set_inputs psbt (<[input_index job :=
        set_tap_key_sig input {| tap_sig := signature; tap_sig_type := ty |}]> (inputs psbt))).

Fixpoint sign_jobs (km : KeyManager) (prevouts : list TxOut) (psbt : Psbt)
    (jobs : list TaprootSignJob) : enclave_result Psbt :=
  match jobs with
  | [] => Ok psbt
  | job :: jobs =>
      let? psbt := sign_job km prevouts psbt job in
      sign_jobs km prevouts psbt jobs
  end.

(** [sign_taproot_inputs]: the PSBT with the signatures, and their number. *)
Definition sign_taproot_inputs (psbt : Psbt) (km : KeyManager) (jobs : list TaprootSignJob)
    : enclave_result (Psbt * Z) :=
  match jobs with
  | [] => Ok (psbt, 0)
  | _ :: _ =>
      let? prevouts := rmapM (fun input =>
        ok_or (witness_utxo input) (Signing "missing witness_utxo for taproot")) (inputs psbt) in
      let? signed := sign_jobs km prevouts psbt jobs in
      Ok (signed, zlen jobs)
  end.

Context `{PsbtCodec}.

Definition sign_psbt_scoped (km : KeyManager) (psbt_bytes : bytes)
    (allowed_account : option AccountType) : enclave_result (bytes * Z) :=
  let? _ := check_psbt_size psbt_bytes in
  let? psbt := ok_or (psbt_deserialize psbt_bytes) (Signing "psbt deserialize") in
  let? jobs := find_taproot_sign_jobs psbt km in
  let jobs :=
    match allowed_account with
    | Some account => filter (fun job => account_type job = account) jobs
    | None => jobs
    end in
  let? (signed, signed_count) := sign_taproot_inputs psbt km jobs in
  Ok (psbt_serialize signed, signed_count).
End Keys.

Arguments KeyManager K : clear implicits.
