(* ===== verification/PsbtSample.v ===== *)
(** * A small PSBT world

    Concrete instances of the interfaces of [PsbtTypes] and [PsbtKeys], in which
    the definitions run on sample PSBTs: keys are 32-byte strings, the tweak is
    the identity, and a PSBT is its own serialization target. *)

From stdpp Require Import base numbers list gmap strings.
From S2P Require Import Prelude Errors Lengths PsbtTypes PsbtKeys.

#[local] Open Scope list_scope.
#[local] Open Scope Z_scope.

Definition key_of (tag : Z) : bytes := z2b tag :: replicate 31 x07.

Definition sample_derive (xpriv : bytes) (path : list ChildNumber) : option bytes :=
  match path with
  | [Normal k; Normal i] => Some (key_of (Z.of_nat (length xpriv) * 16 + k * 4 + i))
  | _ => None
  end.

#[global] Instance sample_bip32 : Bip32 := {
  Xpriv := bytes;
  SecretKey := bytes;
  derive_priv := sample_derive;
  xonly_of_secret := id
}.

Definition sample_funding (p : Psbt) : list (option TxOut) := map witness_utxo (inputs p).

Definition all_some {A} (l : list (option A)) : option (list A) :=
  foldr (fun o acc => a ← o; l ← acc; Some (a :: l)) (Some []) l.

Definition sample_fee (p : Psbt) : option Z :=
  us ← all_some (sample_funding p);
  let fee := sum_values us - sum_values (tx_output (unsigned_tx p)) in
  if (0 <=? fee) && (fee <=? u64_max) then Some fee else None.

Definition starts (pre s : bytes) (len : Z) : bool :=
  bool_decide (take (length pre) s = pre) && (zlen s =? len).

#[global] Instance sample_bitcoin : Bitcoin := {
  is_p2tr s := starts [x51; x20] s 34;
  is_p2wpkh s := starts [x00; x14] s 22;
  is_p2wsh s := starts [x00; x20] s 34;
  is_op_return s := bool_decide (head s = Some x6a);
  is_witness_program s := bool_decide (head s = Some x51) || bool_decide (head s = Some x00);
  to_p2wsh s := x00 :: x20 :: take 32 s;
  base_size _ := 150;
  tx_vsize _ := 150;
  compute_txid tx := z2b (zlen (tx_output tx)) :: replicate 31 x00;
  witness_wire_size w := wire_compact (zlen w) + foldr (fun i acc => wire_item i + acc) 0 w;
  funding_utxos := sample_funding;
  psbt_fee := sample_fee;
  xonly_valid key := zlen key =? 32;
  pubkey_valid key := Some true;
  tap_tweak key _ := key;
  new_p2tr_tweaked key := x51 :: x20 :: key;
  verify_taproot_commitment _ _ _ := true
}.

Lemma all_some_map {A} (l : list (option A)) us : all_some l = Some us -> l = map Some us.
Proof.
  revert us. induction l as [|o l IH]; intros us H; cbn in H; [by injection H as <-|].
  destruct o as [a|]; [|done]. fold (all_some l) in H. destruct (all_some l) as [us'|]; [|done].
  injection H as <-. cbn. by rewrite (IH us').
Qed.

#[global] Instance sample_bitcoin_laws : BitcoinLaws sample_bitcoin.
Proof.
  split; try done.
  - intros s. cbn. unfold starts. split.
    + intros H. apply andb_true_iff in H as [H1%bool_decide_eq_true H2]. zbool.
      destruct s as [|a [|b s]]; try done. cbn in H1. injection H1 as -> ->. exists s.
      split; [done|]. rewrite !zlen_cons in H2. lia.
    + intros (key & -> & Hz). cbn [take length]. rewrite bool_decide_eq_true_2 by done.
      rewrite !zlen_cons, Hz. done.
  - intros p. apply length_map.
  - intros p i inp u Hi Hu. cbn. unfold sample_funding. rewrite list_lookup_fmap, Hi. cbn. by rewrite Hu.
  - intros p f. cbn. unfold sample_fee. destruct (all_some (sample_funding p)) as [us|] eqn:E; [|done].
    cbn. destruct (_ && _) eqn:Ef; [|done]. intros [= <-]. zbool. destruct Ef as [E1 E2].
    split; [unfold is_u64, u64_max in *; lia|]. exists us. split; [by apply all_some_map|lia].
Qed.

#[global] Instance sample_signer : TapSigner := {
  sign_key_spend secret root tx prevouts i ty := Some (replicate 64 x01)
}.

Definition sample_keys : KeyManager sample_bip32 := {|
  master_fingerprint := [x01; x02; x03; x04];
  account_xpriv_vanilla := [] : @Xpriv sample_bip32;
  account_xpriv_colored := [x00] : @Xpriv sample_bip32;
  vanilla_coin_type := 1;
  colored_coin_type := RGB_COIN_TYPE_TESTNET
|}.

(** The key of an account at [0, i], its script and its origin. *)
Definition our_key (account : AccountType) (i : Z) : bytes :=
  key_of (match account with Vanilla => 0 | Colored => 16 end + i).

Definition our_script (account : AccountType) (i : Z) : bytes := x51 :: x20 :: our_key account i.

Definition our_origin (account : AccountType) (i : Z) : gmap bytes KeyOrigin :=
  {[ our_key account i :=
       {| leaf_hashes := []; fingerprint := [x01; x02; x03; x04];
          derivation_path :=
            [Hardened 86; Hardened (match account with Vanilla => 1 | Colored => RGB_COIN_TYPE_TESTNET end);
             Hardened 0; Normal 0; Normal i] |} ]}.

Definition our_input (account : AccountType) (i sats : Z) : PsbtInput :=
  {| non_witness_utxo := None;
     witness_utxo := Some {| value := sats; script_pubkey := our_script account i |};
     witness_script := None; final_script_sig := None; final_script_witness := None;
     sighash_type := None; tap_internal_key := Some (our_key account i); tap_merkle_root := None;
     tap_key_sig := None; tap_scripts := []; tap_key_origins := our_origin account i |}.

Definition our_output (account : AccountType) (i : Z) : PsbtOutput :=
  {| out_tap_tree := None; out_tap_internal_key := Some (our_key account i);
     out_tap_key_origins := our_origin account i |}.

Definition foreign_output : PsbtOutput :=
  {| out_tap_tree := None; out_tap_internal_key := None; out_tap_key_origins := ∅ |}.

Definition foreign_script : bytes := x51 :: x20 :: key_of 99.

Definition sample_txin (tag : Z) : TxIn :=
  {| previous_output := {| op_txid := key_of tag; op_vout := 0 |}; script_sig := []; witness := [] |}.

(** A Vanilla input of 50,000 sat that pays 30,000 sat to a Vanilla output,
    1,000 sat to a stranger, and 19,000 sat as the fee. *)
Definition sample_psbt : Psbt := {|
  unsigned_tx := {|
    tx_input := [sample_txin 1];
    tx_output := [{| value := 30000; script_pubkey := our_script Vanilla 1 |};
                  {| value := 1000; script_pubkey := foreign_script |}];
    tx_rest := [] |};
  inputs := [our_input Vanilla 0 50000];
  outputs := [our_output Vanilla 1; foreign_output]
|}.

#[global] Instance sample_codec : PsbtCodec := {
  psbt_deserialize bs := if bool_decide (bs = []) then None else Some sample_psbt;
  psbt_serialize p := concat (map (fun i => match tap_key_sig i with Some s => tap_sig s | None => [] end) (inputs p))
}.
