(* ===== verification/PsbtKeysProps.v ===== *)
(** * What the key-path signer changes

    [sign_psbt_scoped] adds one signature to each input that is ours, unsigned
    and of the allowed account, and touches nothing else. *)

From stdpp Require Import base numbers list gmap strings.
From S2P Require Import Prelude Errors Lengths PsbtTypes PsbtKeys PsbtSample.

#[local] Open Scope list_scope.
#[local] Open Scope Z_scope.

Section SignerProps.
Context {K : Bip32} {B : Bitcoin} {T : @TapSigner K}.

Definition allows (allowed_account : option AccountType) (job : TaprootSignJob) : bool :=
  match allowed_account with
  | Some account => bool_decide (account_type job = account)
  | None => true
  end.

(** The job for an input that is ours, has no signature and is in scope. *)
Definition signable (km : KeyManager K) (allowed_account : option AccountType) (i : nat)
    (input : PsbtInput) : option TaprootSignJob :=
  job ← controlled_input km i input;
  match tap_key_sig input with
  | Some _ => None
  | None => if allows allowed_account job then Some job else None
  end.

(** The signer's effect on one input: nothing, or one DEFAULT or ALL key-path
    signature of the transaction by the key of its job. *)
Definition signs (km : KeyManager K) (allowed_account : option AccountType) (tx : Transaction)
    (prevouts : list TxOut) (i : nat) (input input' : PsbtInput) : Prop :=
  match signable km allowed_account i input with
  | None => input' = input
  | Some job =>
      exists secret sig, derive_btc_child km (account_type job) (child_path job) = Ok secret /\
        (default 0 (sighash_type input) = 0 /\ tap_sig_type sig = SighashDefault \/
         default 0 (sighash_type input) = 1 /\ tap_sig_type sig = SighashAll) /\
        sign_key_spend secret (merkle_root job) tx prevouts i (tap_sig_type sig) = Some (tap_sig sig) /\
        input' = set_tap_key_sig input sig
  end.

Fixpoint signed_from (km : KeyManager K) (allowed_account : option AccountType) (tx : Transaction)
    (prevouts : list TxOut) (k : nat) (l l' : list PsbtInput) : Prop :=
  match l, l' with
  | [], [] => True
  | x :: l, x' :: l' =>
      signs km allowed_account tx prevouts k x x' /\ signed_from km allowed_account tx prevouts (S k) l l'
  | _, _ => False
  end.

Definition jobs_from (km : KeyManager K) (allowed_account : option AccountType) (k : nat)
    (l : list PsbtInput) : list TaprootSignJob :=
  omap id (imap (fun i => signable km allowed_account (k + i)) l).

Lemma key_path_job_index km input i key job :
  key_path_job km input i key = Some job -> input_index job = i.
Proof.
  unfold key_path_job. destruct (tap_internal_key input) as [ik|]; [|done]. cbn [mbind option_bind].
  destruct (tap_key_origins input !! ik) as [o|]; [|done]. cbn [mbind option_bind].
  destruct (negb _); [done|].
  destruct (resolve_account_and_child_path km _) as [[a c]|]; [|done]. cbn [mbind option_bind].
  destruct (ok _) as [s|]; [|done]. cbn [mbind option_bind].
  destruct (negb _); [done|]. destruct (negb _); [done|]. by intros [= <-].
Qed.

Lemma controlled_input_index km i input job :
  controlled_input km i input = Some job -> input_index job = i.
Proof.
  unfold controlled_input. destruct (witness_utxo input) as [u|]; [|done]. cbn [mbind option_bind].
  destruct (negb _); [done|]. destruct (negb _); [done|]. destruct (negb _); [done|].
  apply key_path_job_index.
Qed.

Lemma signable_controlled km acct i input job :
  signable km acct i input = Some job <->
  controlled_input km i input = Some job /\ tap_key_sig input = None /\ allows acct job = true.
Proof.
  unfold signable. destruct (controlled_input km i input) as [j|]; cbn [mbind option_bind];
    [|split; [done|by intros [? _]]].
  destruct (tap_key_sig input); [split; [done|by intros (_ & ? & _)]|].
  destruct (allows acct j) eqn:E; split; try done.
  - by intros [= <-].
  - by intros ([= <-] & _).
  - intros ([= <-] & _ & ?). congruence.
Qed.

Lemma jobs_from_cons km acct k x l :
  jobs_from km acct k (x :: l) =
    match signable km acct k x with Some job => [job] | None => [] end ++ jobs_from km acct (S k) l.
Proof.
  unfold jobs_from. rewrite imap_cons. cbn [omap list_omap id]. rewrite Nat.add_0_r.
  rewrite (imap_ext _ (fun i => signable km acct (S k + i)))
    by (intros i y _; unfold compose; by rewrite Nat.add_succ_comm).
  by destruct (signable km acct k x).
Qed.

(** The jobs of a PSBT in scope, as one pass over its inputs. *)
Lemma scoped_jobs psbt km acct :
  exists jobs, find_taproot_sign_jobs psbt km = Ok jobs /\
    match acct with
    | Some account => filter (fun job => account_type job = account) jobs
    | None => jobs
    end = jobs_from km acct 0 (inputs psbt).
Proof.
  unfold find_taproot_sign_jobs, find_controlled_taproot_inputs.
  assert (H : forall pre l, inputs psbt = pre ++ l -> exists jobs,
    (let? jobs := rmapM (fun job =>
       let? input := expect (inputs psbt !! input_index job) in
       Ok (match tap_key_sig input with None => Some job | Some _ => None end))
       (omap id (imap (fun i => controlled_input km (length pre + i)) l)) in
     Ok (omap id jobs)) = (Ok jobs : enclave_result _) /\
    match acct with
    | Some account => filter (fun job => account_type job = account) jobs
    | None => jobs
    end = jobs_from km acct (length pre) l).
  2:{ destruct (H [] (inputs psbt) eq_refl) as (jobs & Hj & He). by exists jobs. }
  intros pre l. revert pre. induction l as [|x l IH]; intros pre E.
  { exists []. by destruct acct. }
  destruct (IH (pre ++ [x])) as (jobs & Hj & He); [by rewrite <- app_assoc|].
  rewrite length_app, Nat.add_1_r in Hj, He. rewrite jobs_from_cons, imap_cons.
  rewrite (imap_ext _ (fun i => controlled_input km (S (length pre) + i)))
    by (intros i y _; unfold compose; by rewrite Nat.add_succ_comm).
  cbn [omap list_omap id]. rewrite Nat.add_0_r. unfold signable.
  destruct (controlled_input km (length pre) x) as [job|] eqn:Ec; cbn [mbind option_bind];
    [|by exists jobs].
  cbn [rmapM]. rewrite (controlled_input_index _ _ _ _ Ec), E, lookup_app_r, Nat.sub_diag by done.
  cbn [lookup list_lookup expect rbind]. apply rbind_ok in Hj as (ojobs & Ho & [= Hj]).
  rewrite <- E, Ho. cbn [rbind]. destruct (tap_key_sig x) eqn:Et; cbn [omap list_omap id].
  - exists jobs. by rewrite Hj.
  - rewrite Hj. exists (job :: jobs). split; [done|]. rewrite <- He. destruct acct as [a|]; cbn [allows]; [|done].
    rewrite filter_cons. destruct (decide (account_type job = a)) as [D|D].
    + by rewrite bool_decide_eq_true_2.
    + by rewrite bool_decide_eq_false_2.
Qed.

Lemma sign_job_effect km prevouts psbt job i input psbt' acct :
  inputs psbt !! i = Some input -> signable km acct i input = Some job ->
  sign_job km prevouts psbt job = Ok psbt' ->
  exists input', psbt' = set_inputs psbt (<[i := input']> (inputs psbt)) /\
    signs km acct (unsigned_tx psbt) prevouts i input input'.
Proof.
  intros Hi Hs H. pose proof (proj1 (signable_controlled _ _ _ _ _) Hs) as (Hc & _ & _).
  apply controlled_input_index in Hc. unfold sign_job in H. rewrite Hc, Hi in H. cbn [expect rbind] in H.
  apply rbind_ok in H as (ty & Hty & H). apply rbind_ok in H as (secret & Hsec & H).
  apply rbind_ok in H as (sig & Hsig & H). injection H as <-.
  eexists. split; [done|]. unfold signs. rewrite Hs.
  exists secret, {| tap_sig := sig; tap_sig_type := ty |}. cbn [tap_sig tap_sig_type].
  split; [done|]. split; [|split; [|done]].
  - destruct (_ =? 0) eqn:E0; [injection Hty as <-; zbool; by left|].
    destruct (_ =? 1) eqn:E1; [injection Hty as <-; zbool; by right|done].
  - destruct (sign_key_spend _ _ _ _ _ _); [by injection Hsig as ->|done].
Qed.

Lemma sign_jobs_effect km prevouts acct l : forall pre psbt psbt',
  inputs psbt = pre ++ l ->
  sign_jobs km prevouts psbt (jobs_from km acct (length pre) l) = Ok psbt' ->
  exists l', psbt' = set_inputs psbt (pre ++ l') /\
    signed_from km acct (unsigned_tx psbt) prevouts (length pre) l l'.
Proof.
  induction l as [|x l IH]; intros pre psbt psbt' Hi H.
  { injection H as <-. exists []. rewrite <- Hi. split; [by destruct psbt|done]. }
  rewrite jobs_from_cons in H.
  assert (Hx : inputs psbt !! length pre = Some x) by (rewrite Hi, lookup_app_r, Nat.sub_diag by done; done).
  destruct (signable km acct (length pre) x) as [job|] eqn:Es.
  - cbn [app sign_jobs] in H. apply rbind_ok in H as (psbt1 & H1 & H).
    destruct (sign_job_effect _ _ _ _ _ _ _ _ Hx Es H1) as (x' & -> & Hs).
    assert (E : <[length pre := x']> (inputs psbt) = (pre ++ [x']) ++ l).
    { rewrite Hi, <- app_assoc. rewrite insert_app_r_alt, Nat.sub_diag by done. done. }
    rewrite E in H. replace (S (length pre)) with (length (pre ++ [x'])) in H
      by (rewrite length_app; cbn; lia).
    destruct (IH (pre ++ [x']) (set_inputs psbt ((pre ++ [x']) ++ l)) _ eq_refl H) as (l' & -> & Hl). exists (x' :: l').
    split; [unfold set_inputs; cbn [unsigned_tx outputs]; by rewrite <- app_assoc|]. split; [done|].
    rewrite length_app, Nat.add_1_r in Hl. done.
  - cbn [app] in H. replace (S (length pre)) with (length (pre ++ [x])) in H
      by (rewrite length_app; cbn; lia).
    destruct (IH (pre ++ [x]) psbt psbt') as (l' & -> & Hl); [by rewrite <- app_assoc|done|].
    exists (x :: l'). split; [by rewrite <- app_assoc|]. split; [unfold signs; by rewrite Es|].
    rewrite length_app, Nat.add_1_r in Hl. done.
Qed.

Lemma signed_from_lookup km acct tx prevouts l : forall k l' i input,
  signed_from km acct tx prevouts k l l' -> l !! i = Some input ->
  exists input', l' !! i = Some input' /\ signs km acct tx prevouts (k + i) input input'.
Proof.
  induction l as [|x l IH]; intros k [|x' l'] i input H Hi; try done. destruct H as [Hx H].
  destruct i as [|i]; cbn in Hi.
  - injection Hi as <-. exists x'. by rewrite Nat.add_0_r.
  - destruct (IH (S k) l' i input H Hi) as (input' & ? & ?). exists input'. split; [done|].
    by rewrite <- Nat.add_succ_comm.
Qed.

Lemma signed_from_length km acct tx prevouts l : forall k l',
  signed_from km acct tx prevouts k l l' -> length l' = length l.
Proof.
  induction l as [|x l IH]; intros k [|x' l'] H; try done. destruct H as [_ H]. cbn. f_equal. by eapply IH.
Qed.

(** A signed PSBT has no work left in the same scope. *)
Lemma signed_from_done km acct tx prevouts l : forall k l',
  signed_from km acct tx prevouts k l l' -> jobs_from km acct k l' = [].
Proof.
  induction l as [|x l IH]; intros k [|x' l'] H; try done. destruct H as [Hx H].
  rewrite jobs_from_cons, (IH _ _ H), app_nil_r. unfold signs in Hx.
  destruct (signable km acct k x) as [job|] eqn:Es; [|by rewrite Hx, Es].
  destruct Hx as (secret & sig & _ & _ & _ & ->).
  destruct (signable km acct k (set_tap_key_sig x sig)) as [job'|] eqn:Es'; [|done].
  by apply signable_controlled in Es' as (_ & ? & _).
Qed.

(** Signing the jobs in scope. *)
Lemma sign_taproot_inputs_effect psbt km acct psbt' n :
  sign_taproot_inputs psbt km (jobs_from km acct 0 (inputs psbt)) = Ok (psbt', n) ->
  n = zlen (jobs_from km acct 0 (inputs psbt)) /\
  exists prevouts, (n <> 0 -> Forall2 (fun input u => witness_utxo input = Some u) (inputs psbt) prevouts) /\
  exists l', psbt' = set_inputs psbt l' /\
    signed_from km acct (unsigned_tx psbt) prevouts 0 (inputs psbt) l'.
Proof.
  intros H. unfold sign_taproot_inputs in H. set (jobs := jobs_from km acct 0 (inputs psbt)) in *.
  destruct jobs as [|job jobs'] eqn:Ej.
  - injection H as <- <-. split; [done|]. exists []. split; [done|].
    assert (Hs : sign_jobs km [] psbt (jobs_from km acct (length (@nil PsbtInput)) (inputs psbt)) = Ok psbt).
    { cbn [length]. fold jobs. by rewrite Ej. }
    apply sign_jobs_effect in Hs as (l' & E & Hl); [|done]. by exists l'.
  - apply rbind_ok in H as (prevouts & Hp & H). apply rbind_ok in H as (signed & Hs & H).
    injection H as <- <-. rewrite <- Ej in *. split; [done|]. exists prevouts. split.
    + intros _. apply rmapM_ok in Hp. eapply Forall2_impl; [exact Hp|]. intros inp u.
      cbn beta. destruct (witness_utxo inp) as [v|]; cbn [ok_or]; [|done]. by intros [= <-].
    + apply (sign_jobs_effect km prevouts acct (inputs psbt) [] psbt) in Hs as (l' & -> & Hl); [|done].
      by exists l'.
Qed.
(** ** The specification *)

Definition account_coin (km : KeyManager K) (account : AccountType) : Z :=
  match account with Vanilla => vanilla_coin_type km | Colored => colored_coin_type km end.

Definition account_key (km : KeyManager K) (account : AccountType) : Xpriv :=
  match account with
  | Vanilla => account_xpriv_vanilla km
  | Colored => account_xpriv_colored km
  end.

(** The input asks for a signature by [secret]: it has none yet, it spends a
    P2TR output, and [secret] is derived from our account key along the BIP-86
    path m/86'/coin'/0'/a/b that the input claims under our master fingerprint
    for its internal key; that internal key is [secret]'s, and tweaked with the
    input's root it is the key of the output.  The account is the allowed one. *)
Inductive to_sign (km : KeyManager K) (acct : option AccountType) (input : PsbtInput)
    (secret : SecretKey) : Prop :=
| ToSign account utxo origin a b :
    tap_key_sig input = None ->
    witness_utxo input = Some utxo ->
    script_pubkey utxo = x51 :: x20 :: tap_tweak (xonly_of_secret secret) (tap_merkle_root input) ->
    zlen (tap_tweak (xonly_of_secret secret) (tap_merkle_root input)) = 32 ->
    xonly_valid (tap_tweak (xonly_of_secret secret) (tap_merkle_root input)) = true ->
    tap_internal_key input = Some (xonly_of_secret secret) ->
    tap_key_origins input !! xonly_of_secret secret = Some origin ->
    fingerprint origin = master_fingerprint km ->
    derivation_path origin =
      [Hardened 86; Hardened (account_coin km account); Hardened 0; a; b] ->
    (account = Colored -> colored_coin_type km <> vanilla_coin_type km) ->
    derive_priv (account_key km account) [a; b] = Some secret ->
    (forall only, acct = Some only -> account = only) ->
    to_sign km acct input secret.

(** [input'] is [input] but for its key-path signature. *)
Definition same_but_signature (input input' : PsbtInput) : Prop :=
  non_witness_utxo input' = non_witness_utxo input /\ witness_utxo input' = witness_utxo input /\
  witness_script input' = witness_script input /\ final_script_sig input' = final_script_sig input /\
  final_script_witness input' = final_script_witness input /\
  sighash_type input' = sighash_type input /\ tap_internal_key input' = tap_internal_key input /\
  tap_merkle_root input' = tap_merkle_root input /\ tap_scripts input' = tap_scripts input /\
  tap_key_origins input' = tap_key_origins input.

(** [input'] carries a DEFAULT or ALL signature of the transaction by [secret],
    as the input asks, and is otherwise the same. *)
Definition signed_by (secret : SecretKey) (tx : Transaction) (prevouts : list TxOut) (i : nat)
    (input input' : PsbtInput) : Prop :=
  same_but_signature input input' /\
  exists ty sig, tap_key_sig input' = Some {| tap_sig := sig; tap_sig_type := ty |} /\
    (default 0 (sighash_type input) = 0 /\ ty = SighashDefault \/
     default 0 (sighash_type input) = 1 /\ ty = SighashAll) /\
    sign_key_spend secret (tap_merkle_root input) tx prevouts i ty = Some sig.

Context {L : BitcoinLaws B}.

Lemma resolve_spec km path account child :
  resolve_account_and_child_path km path = Some (account, child) <->
  exists a b, child = [a; b] /\
    path = [Hardened 86; Hardened (account_coin km account); Hardened 0; a; b] /\
    (account = Colored -> colored_coin_type km <> vanilla_coin_type km).
Proof.
  unfold resolve_account_and_child_path. split.
  - destruct path as [|s0 [|c [|s2 [|a [|b [|]]]]]]; try done.
    repeat case_bool_decide; cbn [negb]; intros [= <- <-]; subst; exists a, b;
      split_and!; try done; cbn; congruence.
  - intros (a & b & -> & -> & Hc). rewrite !bool_decide_eq_true_2 by done. cbn [negb].
    destruct account; cbn [account_coin].
    + by rewrite bool_decide_eq_true_2.
    + rewrite bool_decide_eq_false_2, bool_decide_eq_true_2; [done|done|].
      intros [= E]. by apply Hc.
Qed.

Lemma derive_btc_child_spec km account child secret :
  derive_btc_child km account child = Ok secret <-> derive_priv (account_key km account) child = Some secret.
Proof.
  unfold derive_btc_child, account_key. destruct account, (derive_priv _ child); cbn;
    split; congruence.
Qed.

(** The code's job for an input stands for the key the specification names. *)
Lemma signable_to_sign km acct i input job :
  signable km acct i input = Some job ->
  merkle_root job = tap_merkle_root input /\
  exists secret, derive_btc_child km (account_type job) (child_path job) = Ok secret /\
    to_sign km acct input secret.
Proof.
  intros (Hc & Hsig & Hacct)%signable_controlled. unfold controlled_input in Hc.
  destruct (witness_utxo input) as [u|] eqn:Hu; [|done]. cbn [mbind option_bind] in Hc.
  destruct (is_p2tr (script_pubkey u)) eqn:Hp; [|done]. apply is_p2tr_shape in Hp as (key & Hk & Hlen).
  cbn [negb] in Hc. destruct (_ =? 34); [|done]. cbn [negb] in Hc.
  assert (Hs : slice 2 34 (script_pubkey u) = key).
  { rewrite Hk. unfold slice. cbn [drop Nat.sub]. apply take_ge. unfold zlen in Hlen. lia. }
  rewrite Hs in Hc. destruct (xonly_valid key) eqn:Hv; [|done]. cbn [negb] in Hc.
  unfold key_path_job in Hc. destruct (tap_internal_key input) as [ik|] eqn:Hik; [|done].
  cbn [mbind option_bind] in Hc. destruct (tap_key_origins input !! ik) as [o|] eqn:Ho; [|done].
  cbn [mbind option_bind] in Hc. case_bool_decide as Hf; [|done]. cbn [negb] in Hc.
  destruct (resolve_account_and_child_path _ _) as [[account child]|] eqn:Hr; [|done].
  cbn [mbind option_bind] in Hc. destruct (derive_btc_child km account child) as [secret| |] eqn:Hd; try done.
  cbn [ok mbind option_bind] in Hc. case_bool_decide as Hx; [|done]. cbn [negb] in Hc.
  case_bool_decide as Ht; [|done]. injection Hc as <-. subst ik key.
  split; [done|]. exists secret. split; [done|].
  apply resolve_spec in Hr as (a & b & -> & Hpath & Hcol). apply derive_btc_child_spec in Hd.
  eapply (ToSign _ _ _ _ account u o a b); rewrite ?Ht; try done.
  intros only ->. by apply bool_decide_eq_true in Hacct.
Qed.

Lemma to_sign_signable km acct i input secret :
  to_sign km acct input secret -> exists job, signable km acct i input = Some job.
Proof.
  intros [account u o a b Hsig Hu Hspk Hlen Hv Hik Ho Hf Hpath Hcol Hd Hacct].
  set (key := tap_tweak _ _) in *.
  assert (Hp : is_p2tr (script_pubkey u) = true) by (apply is_p2tr_shape; eauto).
  assert (Hs : slice 2 34 (script_pubkey u) = key).
  { rewrite Hspk. unfold slice. cbn [drop Nat.sub]. apply take_ge. unfold zlen in Hlen. lia. }
  eexists. apply signable_controlled. split; [|split; [done|]].
  - unfold controlled_input. rewrite Hu. cbn [mbind option_bind]. rewrite Hp, Hs, Hv.
    replace (zlen (script_pubkey u) =? 34) with true
      by (rewrite Hspk, !zlen_cons, Hlen; done).
    cbn [negb]. unfold key_path_job. rewrite Hik. cbn [mbind option_bind]. rewrite Ho.
    cbn [mbind option_bind]. rewrite bool_decide_eq_true_2 by done. cbn [negb].
    rewrite (proj2 (resolve_spec km (derivation_path o) account [a; b])) by eauto.
    cbn [mbind option_bind]. rewrite (proj2 (derive_btc_child_spec km account [a; b] secret)) by done.
    cbn [ok mbind option_bind]. rewrite !bool_decide_eq_true_2 by done. reflexivity.
  - cbn [allows account_type]. destruct acct as [only|]; [|done].
    cbn. apply bool_decide_eq_true_2. by apply Hacct.
Qed.

(** The effect on one input, in the words of the specification. *)
Lemma signs_spec km acct tx prevouts i input input' :
  signs km acct tx prevouts i input input' ->
  (exists secret, to_sign km acct input secret /\ signed_by secret tx prevouts i input input') \/
  ((forall secret, ~ to_sign km acct input secret) /\ input' = input).
Proof.
  unfold signs. destruct (signable km acct i input) as [job|] eqn:Hj.
  - intros (secret & [sig ty] & Hd & Hty & Hsig & ->). left.
    apply signable_to_sign in Hj as (Hm & secret' & Hd' & Ht). rewrite Hd in Hd'. injection Hd' as <-.
    exists secret. split; [done|]. split; [by split_and!|]. exists ty, sig. by rewrite <- Hm.
  - intros ->. right. split; [|done]. intros secret Ht.
    destruct (to_sign_signable km acct i _ _ Ht) as [job Hj']. by rewrite Hj in Hj'.
Qed.

(** The inputs with a job, by their indices. *)
Lemma jobs_from_indices km acct l : forall k,
  let ids := map input_index (jobs_from km acct k l) in
  NoDup ids /\ forall i, i ∈ ids <->
    exists j input secret, (i = k + j)%nat /\ l !! j = Some input /\ to_sign km acct input secret.
Proof.
  induction l as [|x l IH]; intros k; cbn zeta.
  { split; [constructor|]. intros i. rewrite elem_of_nil. split; [done|]. by intros (j & ? & ? & _ & ? & _). }
  destruct (IH (S k)) as [Hn Hi]. rewrite jobs_from_cons, map_app.
  assert (Hlt : forall i, i ∈ map input_index (jobs_from km acct (S k) l) -> (k < i)%nat).
  { intros i (j & input & secret & -> & _)%Hi. lia. }
  assert (Hl : forall i, (exists j input secret, (i = k + j)%nat /\ (x :: l) !! j = Some input /\
      to_sign km acct input secret) <->
    (i = k /\ exists secret, to_sign km acct x secret) \/ i ∈ map input_index (jobs_from km acct (S k) l)).
  { intros i. rewrite Hi. split.
    - intros ([|j] & input & secret & -> & Hj & Ht); cbn in Hj.
      + injection Hj as <-. left. split; [lia|eauto].
      + right. exists j, input, secret. split; [lia|done].
    - intros [[-> [secret Ht]]|(j & input & secret & -> & Hj & Ht)].
      + exists 0%nat, x, secret. split; [lia|done].
      + exists (S j), input, secret. split; [lia|done]. }
  destruct (signable km acct k x) as [job|] eqn:Hj; cbn [map app].
  - pose proof Hj as (Hc & _)%signable_controlled. apply controlled_input_index in Hc. rewrite Hc.
    apply signable_to_sign in Hj as (_ & secret & _ & Ht). split.
    + apply NoDup_cons. split; [|done]. intros Hk%Hlt. lia.
    + intros i. rewrite Hl, elem_of_cons. naive_solver.
  - split; [done|]. intros i. rewrite Hl. split; [tauto|]. intros [[_ [secret Ht]]|]; [|done].
    destruct (to_sign_signable km acct k _ _ Ht) as [job Hj']. by rewrite Hj in Hj'.
Qed.
End SignerProps.

(** C22: what [sign_psbt_scoped] does to a PSBT it signs: the transaction, the
    outputs and the number of inputs stay as they are.  An input changes exactly
    when it has no signature yet and spends a P2TR output whose key is the tweak,
    by the input's root, of a key derived from our account key along the BIP-86
    path the input claims under our master fingerprint, the account being the
    allowed one; then it gains one DEFAULT or ALL key-path signature by that key
    over the whole transaction and the outputs it spends, and nothing else.  The
    reported count is the number of such inputs, and none is left afterwards. *)
Theorem sign_psbt_scoped_spec {K : Bip32} {B : Bitcoin} {L : BitcoinLaws B} {T : @TapSigner K}
    {C : PsbtCodec} (km : KeyManager K) (psbt_bytes out : bytes) (acct : option AccountType) (n : Z) :
  sign_psbt_scoped km psbt_bytes acct = Ok (out, n) ->
  exists p p' prevouts ids, psbt_deserialize psbt_bytes = Some p /\ out = psbt_serialize p' /\
    unsigned_tx p' = unsigned_tx p /\ outputs p' = outputs p /\
    length (inputs p') = length (inputs p) /\
    (ids <> [] -> Forall2 (fun input u => witness_utxo input = Some u) (inputs p) prevouts) /\
    n = zlen ids /\ NoDup ids /\
    (forall i, i ∈ ids <-> exists input secret, inputs p !! i = Some input /\ to_sign km acct input secret) /\
    (forall i input', inputs p' !! i = Some input' -> forall secret, ~ to_sign km acct input' secret) /\
    forall i input, inputs p !! i = Some input -> exists input', inputs p' !! i = Some input' /\
      ((exists secret, to_sign km acct input secret /\
          signed_by secret (unsigned_tx p) prevouts i input input') \/
       ((forall secret, ~ to_sign km acct input secret) /\ input' = input)).
Proof.
  intros H. unfold sign_psbt_scoped in H. apply rbind_ok in H as (_ & _ & H).
  apply rbind_ok in H as (p & Hp & H). destruct (psbt_deserialize psbt_bytes) as [p0|]; [|done].
  injection Hp as ->. apply rbind_ok in H as (jobs & Hj & H). apply rbind_ok in H as ([p' m] & Hs & H).
  injection H as <- <-. destruct (scoped_jobs p km acct) as (jobs' & Hj' & E).
  rewrite Hj in Hj'. injection Hj' as <-. rewrite E in Hs.
  apply sign_taproot_inputs_effect in Hs as (-> & prevouts & Hprev & l' & -> & Hl).
  pose proof (jobs_from_indices km acct (inputs p) 0) as [Hn Hi].
  pose proof (jobs_from_indices km acct l' 0) as [_ Hi'].
  rewrite (signed_from_done _ _ _ _ _ _ _ Hl) in Hi'.
  exists p, (set_inputs p l'), prevouts, (map input_index (jobs_from km acct 0 (inputs p))).
  split_and!; try done.
  - by eapply signed_from_length.
  - intros Hne. apply Hprev. destruct (jobs_from km acct 0 (inputs p)); [done|]. rewrite zlen_cons.
    pose proof (zlen_nonneg l). lia.
  - unfold zlen. by rewrite length_map.
  - intros i. rewrite Hi. naive_solver.
  - intros i input' Hx secret Ht. eapply (proj1 (elem_of_nil i)), Hi'. by exists i, input', secret.
  - intros i input Hx. destruct (signed_from_lookup _ _ _ _ _ 0 _ _ _ Hl Hx) as (input' & Hx' & Hsg).
    exists input'. split; [done|]. by apply signs_spec in Hsg.
Qed.

Lemma sign_psbt_scoped_spec_witness :
  sign_psbt_scoped sample_keys [x01] (Some Vanilla) = Ok (replicate 64 x01, 1) /\
  exists p p' i input secret input', psbt_deserialize [x01] = Some p /\
    replicate 64 x01 = psbt_serialize p' /\ unsigned_tx p' = unsigned_tx p /\
    inputs p !! i = Some input /\ to_sign sample_keys (Some Vanilla) input secret /\
    inputs p' !! i = Some input' /\ same_but_signature input input'.
Proof.
  assert (H : sign_psbt_scoped sample_keys [x01] (Some Vanilla) = Ok (replicate 64 x01, 1))
    by by vm_compute.
  split; [done|].
  destruct (sign_psbt_scoped_spec _ _ _ _ _ H)
    as (p & p' & prevouts & ids & H1 & H2 & H3 & _ & _ & _ & H4 & _ & H5 & _ & H6).
  destruct ids as [|i ids]; [done|].
  destruct (proj1 (H5 i) (list_elem_of_here i ids)) as (input & secret & Hi & Ht).
  destruct (H6 i input Hi) as (input' & Hi' & [(secret' & _ & [Hs _])|[Hn _]]);
    [|by destruct (Hn secret)].
  by exists p, p', i, input, secret, input'.
Defined.
