(* ===== verification/PsbtPolicy.v ===== *)
(** * PSBT policy: ownership, fees and plain-BTC authorization
      (src/enclave/src/networks/rgb/btc_ownership.rs, psbt_validation.rs,
       btc_crosscheck.rs, and handle_sign_btc of src/enclave/src/server/signers.rs)

    Which outputs pay back into custody, how much a PSBT may pay elsewhere and
    to miners, and the checks that admit a plain-BTC request.  A [HashSet] of
    scripts is a [gset], the [HashMap] of room left per script a [gmap]. *)

From stdpp Require Import base numbers list gmap strings.
From S2P Require Import Prelude Errors Lengths PsbtTypes PsbtSize PsbtKeys.

#[local] Open Scope list_scope.
#[local] Open Scope Z_scope.

Section Policy.
Context {K : Bip32} {B : Bitcoin}.

(** ** Ownership *)

Definition account_allowed (allowed_account : option AccountType) (account : AccountType) : bool :=
  match allowed_account with Some want => bool_decide (account = want) | None => true end.

Definition controlled_input_scripts (psbt : Psbt) (jobs : list TaprootSignJob)
    (allowed_account : option AccountType) : gset bytes :=
  list_to_set (omap (fun job =>
    if negb (account_allowed allowed_account (account_type job)) then None
    else
      input ← inputs psbt !! input_index job;
      utxo ← witness_utxo input;
      Some (script_pubkey utxo)) jobs).

Definition self_controlled_input_scripts_scoped (psbt : Psbt) (keys : KeyManager K)
    (allowed_account : option AccountType) : gset bytes :=
  controlled_input_scripts psbt (find_controlled_taproot_inputs psbt keys) allowed_account.

Definition output_is_self_owned (psbt : Psbt) (index : nat) (input_scripts : gset bytes) : bool :=
  match tx_output (unsigned_tx psbt) !! index with
  | None => false
  | Some txout => bool_decide (script_pubkey txout ∈ input_scripts)
  end.

Definition output_is_self_derived (psbt : Psbt) (index : nat) (keys : KeyManager K)
    (allowed_account : option AccountType) : bool :=
  match outputs psbt !! index, tx_output (unsigned_tx psbt) !! index with
  | Some output, Some txout =>
      match out_tap_tree output with
      | Some _ => false
      | None =>
          match out_tap_internal_key output with
          | None => false
          | Some internal_key =>
              match out_tap_key_origins output !! internal_key with
              | None => false
              | Some origin =>
                  if negb (bool_decide (leaf_hashes origin = []))
                     || negb (bool_decide (fingerprint origin = master_fingerprint keys)) then false
                  else
                    match resolve_account_and_child_path keys (derivation_path origin) with
                    | None => false
                    | Some (account_type, child_path) =>
                        if negb (account_allowed allowed_account account_type) then false
                        else if negb (is_wallet_child_path account_type child_path) then false
                        else
                          match derive_btc_child keys account_type child_path with
                          | Ok child_secret =>
                              if negb (bool_decide (xonly_of_secret child_secret = internal_key))
                              then false
                              else bool_decide
                                     (script_pubkey txout = new_p2tr_tweaked (tap_tweak internal_key None))
                          | _ => false
                          end
                    end
              end
          end
      end
  | _, _ => false
  end.

(** The input value on each script of [input_scripts]; [None] on overflow. *)
Fixpoint input_room (input_scripts : gset bytes) (utxos : list TxOut) (room : gmap bytes Z)
    : option (gmap bytes Z) :=
  match utxos with
  | [] => Some room
  | utxo :: utxos =>
      let spk := script_pubkey utxo in
      if bool_decide (spk ∈ input_scripts) then
        r ← checked (default 0 (room !! spk) + value utxo);
        input_room input_scripts utxos (<[spk := r]> room)
      else input_room input_scripts utxos room
  end.

(** The loop over the outputs from [index] on. *)
Fixpoint unowned_loop (psbt : Psbt) (keys : KeyManager K) (index : nat) (outs : list TxOut)
    (room : gmap bytes Z) (unowned : Z) : option Z :=
  match outs with
  | [] => Some unowned
  | txout :: outs =>
      if output_is_self_derived psbt index keys None then
        unowned_loop psbt keys (S index) outs room unowned
      else
        let sat := value txout in
        let '(room, sat) :=
          match room !! script_pubkey txout with
          | Some r =>
              let exempt := Z.min sat r in
              (<[script_pubkey txout := r - exempt]> room, sat - exempt)
          | None => (room, sat)
          end in
        unowned ← checked (unowned + sat);
        unowned_loop psbt keys (S index) outs room unowned
  end.

Definition unowned_output_sats (psbt : Psbt) (input_scripts : gset bytes) (keys : KeyManager K)
    : option Z :=
  room ← input_room input_scripts (omap witness_utxo (inputs psbt)) ∅;
  unowned_loop psbt keys 0 (tx_output (unsigned_tx psbt)) room 0.

(** ** Shape and fee *)

Context {C : PsbtCodec}.

Definition parse_psbt_shape (psbt_bytes : bytes) : enclave_result Psbt :=
  if bool_decide (psbt_bytes = []) then Err (CrossCheck "psbt_bytes is empty")
  else
    let? _ := check_psbt_size psbt_bytes in
    let? psbt := ok_or (psbt_deserialize psbt_bytes) (CrossCheck "psbt_bytes is not a valid PSBT") in
    if bool_decide (tx_input (unsigned_tx psbt) = []) then
      Err (CrossCheck "psbt has no inputs - nothing to sign")
    else Ok psbt.

Definition validate_psbt_bytes (psbt_bytes : bytes) : enclave_result unit :=
  let? _ := parse_psbt_shape psbt_bytes in Ok tt.

Definition assert_native_segwit_inputs (psbt : Psbt) : enclave_result unit :=
  let? _ := rmapM (fun input =>
    match witness_utxo input with
    | None => Err (CrossCheck "send-RGB PSBT input carries no witness_utxo")
    | Some utxo =>
        if negb (is_witness_program (script_pubkey utxo)) then
          Err (CrossCheck "send-RGB PSBT input spends a non-native-SegWit output")
        else Ok tt
    end) (inputs psbt) in
  Ok tt.

Definition assert_sighash_all (psbt : Psbt) : enclave_result unit :=
  let? _ := rmapM (fun input =>
    match sighash_type input with
    | Some raw =>
        if negb (raw =? 0) && negb (raw =? 1) then
          Err (CrossCheck "PSBT input requests non-ALL sighash")
        else Ok tt
    | None => Ok tt
    end) (inputs psbt) in
  Ok tt.

Definition assert_txid_and_sighash_fixed (psbt : Psbt) : enclave_result unit :=
  let? _ := assert_native_segwit_inputs psbt in
  assert_sighash_all psbt.

Definition assert_only_colored_inputs (psbt : Psbt) (colored : list nat) : enclave_result unit :=
  if forallb (fun i => bool_decide (i ∈ colored)) (seq 0 (length (inputs psbt))) then Ok tt
  else Err (CrossCheck "PSBT input is not a Colored key-path input of this enclave").

Definition assert_keeps_all_sats (psbt : Psbt) (keys : KeyManager K) : enclave_result unit :=
  match unowned_output_sats psbt ∅ keys with
  | Some sats =>
      if sats =? 0 then Ok tt
      else Err (CrossCheck "PSBT pays outputs this enclave does not derive")
  | None => Err (CrossCheck "PSBT output total overflows u64")
  end.

Definition MAX_FEE_RATE_SAT_VB : Z := 200.
Definition MAX_FEE_SATS : Z := 100000.
Definition MIN_FEE_RATE_SAT_VB : Z := 1.

Definition fee_key_path_inputs_of (jobs : list TaprootSignJob) (account : AccountType) : list nat :=
  map input_index (filter (fun job => account_type job = account) jobs).

Definition fee_key_path_inputs_scoped (psbt : Psbt) (keys : KeyManager K) (account : AccountType)
    : list nat :=
  fee_key_path_inputs_of (find_controlled_taproot_inputs psbt keys) account.

Definition check_psbt_fee (psbt : Psbt) (key_path_inputs : list nat) : enclave_result unit :=
  let? fee := ok_or (psbt_fee psbt) (CrossCheck "cannot compute PSBT fee") in
  let vsize := tx_vsize (unsigned_tx psbt) in
  if vsize =? 0 then Err (CrossCheck "PSBT unsigned tx has zero vsize")
  else if MAX_FEE_SATS <? fee then Err (CrossCheck "PSBT fee too high")
  else
    let? max_fee_for_size := ok_or (checked (vsize * MAX_FEE_RATE_SAT_VB))
                               (CrossCheck "maximum PSBT fee calculation overflow") in
    if max_fee_for_size <? fee then Err (CrossCheck "PSBT fee rate too high")
    else
      let? signed_vsize := estimated_signed_vsize psbt key_path_inputs in
      let? minimum_fee := ok_or (checked (signed_vsize * MIN_FEE_RATE_SAT_VB))
                            (CrossCheck "minimum PSBT fee calculation overflow") in
      if fee <? minimum_fee then Err (CrossCheck "PSBT fee rate too low")
      else Ok tt.

(** ** Plain-BTC requests *)

(** The pins of [BridgeConfig] this path reads. *)
Record BtcPins : Type := { btc_max_total_sats : Z; btc_max_unowned_sats : Z }.

(** Sum of the inputs' witness UTXOs; each one must have it. *)
Fixpoint total_input_sats (ins : list PsbtInput) (total : Z) : enclave_result Z :=
  match ins with
  | [] => Ok total
  | input :: ins =>
      match witness_utxo input with
      | None => Err (CrossCheck "plain-BTC input is missing witness_utxo")
      | Some utxo =>
          let? total := ok_or (checked (total + value utxo))
                          (CrossCheck "plain-BTC total input value overflow") in
          total_input_sats ins total
      end
  end.

(** [production]: with [rgb-validation] or a release profile, and not a test. *)
Definition validate_btc_request (production : bool) (psbt_bytes : bytes) (cfg : BtcPins)
    (keys : KeyManager K) : enclave_result unit :=
  let? psbt := parse_psbt_shape psbt_bytes in
  let? total_in_sat := total_input_sats (inputs psbt) 0 in
  if bool_decide (tx_output (unsigned_tx psbt) = []) then
    Err (CrossCheck "plain-BTC PSBT has no outputs")
  else
    let jobs := find_controlled_taproot_inputs psbt keys in
    let input_scripts := controlled_input_scripts psbt jobs (Some Vanilla) in
    let? unowned_sat := ok_or (unowned_output_sats psbt input_scripts keys)
                          (CrossCheck "plain-BTC unowned output value overflow") in
    let? _ :=
      if 0 <? unowned_sat then
        if btc_max_unowned_sats cfg =? 0 then
          if production then Err (CrossCheck "BTC_MAX_UNOWNED_SATS is not pinned") else Ok tt
        else if btc_max_unowned_sats cfg <? unowned_sat then
          Err (CrossCheck "plain-BTC PSBT pays over the pinned budget")
        else Ok tt
      else Ok tt in
    let key_path_inputs := fee_key_path_inputs_of jobs Vanilla in
    let? _ := check_psbt_fee psbt key_path_inputs in
    if btc_max_total_sats cfg =? 0 then
      if production then
        Err (CrossCheck "plain-BTC signing requires BTC_MAX_TOTAL_SATS to be pinned")
      else Ok tt
    else if btc_max_total_sats cfg <? total_in_sat then
      Err (CrossCheck "plain-BTC total input value exceeds pinned cap")
    else Ok tt.

Context {T : @TapSigner K}.

(** [handle_sign_btc] with the keys of an initialized enclave; [policy] is
    [allow_vanilla_psbt] of a production policy. *)
Definition handle_sign_btc (production : bool) (policy : option bool) (cfg : BtcPins)
    (keys : KeyManager K) (psbt_bytes : bytes) : enclave_result (bytes * Z) :=
  let? _ :=
    match policy with
    | Some false => Err (Signing "plain-BTC (vanilla) signing is disabled")
    | _ => Ok tt
    end in
  let? _ := validate_btc_request production psbt_bytes cfg keys in
  let? (signed_psbt, inputs_signed) := sign_psbt_scoped keys psbt_bytes (Some Vanilla) in
  if inputs_signed =? 0 then Err (Signing "sign_btc signed 0 inputs")
  else Ok (signed_psbt, wrap32 inputs_signed).
End Policy.
