(* ===== verification/PsbtPolicyProps.v ===== *)
(** * What the PSBT policy guarantees

    The loop of [unowned_output_sats] computes, whatever the order of the
    outputs, what leaves custody script by script; with the fee policy this
    bounds the loss of every plain-BTC transaction the enclave signs. *)

From stdpp Require Import base numbers list gmap strings.
From S2P Require Import Prelude Errors Lengths PsbtTypes PsbtSize.
From S2P Require Import PsbtKeys PsbtSample PsbtKeysProps PsbtPolicy.

#[local] Open Scope list_scope.
#[local] Open Scope Z_scope.

(** ** Sums over lists *)

Definition zsum {A} (f : A -> Z) (l : list A) : Z := foldr (fun a acc => f a + acc) 0 l.

Lemma zsum_ext {A} (f g : A -> Z) l : (forall a, a ∈ l -> f a = g a) -> zsum f l = zsum g l.
Proof.
  intros H. induction l as [|a l IH]; [done|]. cbn. rewrite H by apply list_elem_of_here.
  f_equal. apply IH. intros b Hb. apply H. by apply list_elem_of_further.
Qed.

Lemma zsum_add {A} (f g : A -> Z) l : zsum (fun a => f a + g a) l = zsum f l + zsum g l.
Proof. induction l as [|a l IH]; cbn; [done|]. unfold zsum in *. lia. Qed.

Lemma zsum_nonneg {A} (f : A -> Z) l : (forall a, a ∈ l -> 0 <= f a) -> 0 <= zsum f l.
Proof.
  intros H. induction l as [|a l IH]; [done|]. cbn. fold (zsum f l).
  pose proof (H a (list_elem_of_here _ _)).
  assert (0 <= zsum f l) by (apply IH; intros b Hb; apply H; by apply list_elem_of_further). lia.
Qed.

Lemma zsum_zero {A} (l : list A) : zsum (fun _ => 0) l = 0.
Proof. induction l as [|a l IH]; [done|]. exact IH. Qed.

(** Functions that differ at one point. *)
Lemma zsum_update {A} (f g : A -> Z) l a d :
  NoDup l -> a ∈ l -> f a = g a + d -> (forall b, b <> a -> f b = g b) -> zsum f l = zsum g l + d.
Proof.
  intros Hnd Hin Ha Hb. induction Hnd as [|b l Hni Hnd IH]; [by apply not_elem_of_nil in Hin|].
  cbn. fold (zsum f l) (zsum g l). apply elem_of_cons in Hin as [<-|Hin].
  - rewrite (zsum_ext f g l); [lia|]. intros c Hc. apply Hb. by intros ->.
  - rewrite IH by done. rewrite Hb; [lia|]. by intros ->.
Qed.

Lemma sum_values_zsum outs : sum_values outs = zsum value outs.
Proof. reflexivity. Qed.

(** Each output is counted at its own script. *)
Lemma zsum_single {A} `{EqDecision A} (a : A) (v : Z) l :
  NoDup l -> a ∈ l -> zsum (fun b => if decide (b = a) then v else 0) l = v.
Proof.
  intros Hnd Hin. rewrite (zsum_update _ (fun _ => 0) l a v Hnd Hin).
  - rewrite zsum_zero. lia.
  - by rewrite decide_True.
  - intros b Hb. by rewrite decide_False.
Qed.

Lemma default_some {A} (d x : A) : default d (Some x) = x.
Proof. done. Qed.

Section Ownership.
Context {K : Bip32} {B : Bitcoin}.
Context (psbt : Psbt) (keys : KeyManager K).

Definition derived (index : nat) : bool := output_is_self_derived psbt index keys None.

(** What the outputs from [index] on pay to [script] without being ours by
    derivation, and what they pay to outputs that are. *)
Fixpoint paid_on (script : bytes) (index : nat) (outs : list TxOut) : Z :=
  match outs with
  | [] => 0
  | o :: outs =>
      (if derived index then 0 else if decide (script_pubkey o = script) then value o else 0)
      + paid_on script (S index) outs
  end.

Fixpoint derived_value (index : nat) (outs : list TxOut) : Z :=
  match outs with
  | [] => 0
  | o :: outs => (if derived index then value o else 0) + derived_value (S index) outs
  end.

(** What the inputs hold on [script], where repayments to it count as ours. *)
Definition spent_on (input_scripts : gset bytes) (script : bytes) : Z :=
  if decide (script ∈ input_scripts) then
    zsum (fun u => if decide (script_pubkey u = script) then value u else 0)
         (omap witness_utxo (inputs psbt))
  else 0.

Definition out_scripts : list bytes := remove_dups (map script_pubkey (tx_output (unsigned_tx psbt))).

(** What leaves custody: on each script, the payments above the input value. *)
Definition unowned_reference (input_scripts : gset bytes) : Z :=
  zsum (fun s => Z.max 0 (paid_on s 0 (tx_output (unsigned_tx psbt)) - spent_on input_scripts s)) out_scripts.

(** What stays: outputs we derive, and payments up to the input value. *)
Definition custody_value (input_scripts : gset bytes) : Z :=
  derived_value 0 (tx_output (unsigned_tx psbt)) +
  zsum (fun s => Z.min (paid_on s 0 (tx_output (unsigned_tx psbt))) (spent_on input_scripts s)) out_scripts.

Definition amounts_ok (outs : list TxOut) : Prop := Forall (fun o => 0 <= value o) outs.

Lemma paid_on_nonneg s outs : forall index, amounts_ok outs -> 0 <= paid_on s index outs.
Proof.
  induction outs as [|o outs IH]; intros index H; [done|]. apply Forall_cons in H as [Ho H].
  cbn. specialize (IH (S index) H). destruct (derived index); [lia|]. destruct (decide _); lia.
Qed.

Lemma input_room_spec scripts utxos : forall room r,
  amounts_ok utxos -> (forall s, 0 <= default 0 (room !! s)) -> input_room scripts utxos room = Some r ->
  forall s, 0 <= default 0 (r !! s) /\
    default 0 (r !! s) = default 0 (room !! s) +
      (if decide (s ∈ scripts)
       then zsum (fun u => if decide (script_pubkey u = s) then value u else 0) utxos else 0).
Proof.
  induction utxos as [|u utxos IH]; intros room r Ha Hr H s; cbn [input_room] in H.
  { injection H as <-. split; [done|]. cbn. destruct (decide _); lia. }
  apply Forall_cons in Ha as [Hu Ha]. cbn [zsum foldr]. fold (zsum (fun u => if decide (script_pubkey u = s) then value u else 0) utxos).
  case_bool_decide as Hin.
  - unfold checked in H. destruct (u64_max <? _); [done|]. cbn [mbind option_bind] in H.
    set (v := default 0 (room !! script_pubkey u) + value u) in H.
    assert (Hr' : forall t, 0 <= default 0 (<[script_pubkey u := v]> room !! t)).
    { intros t. destruct (decide (t = script_pubkey u)) as [->|Hne].
      - rewrite lookup_insert_eq, default_some. pose proof (Hr (script_pubkey u)). lia.
      - rewrite lookup_insert_ne by done. apply Hr. }
    destruct (IH _ _ Ha Hr' H s) as [H1 H2]. unfold v in H2.
    split; [done|]. rewrite H2. destruct (decide (s = script_pubkey u)) as [->|Hne].
    + rewrite lookup_insert_eq, !(decide_True (P := script_pubkey u ∈ scripts)),
        (decide_True (P := script_pubkey u = script_pubkey u)), default_some by done. lia.
    + rewrite lookup_insert_ne by done. rewrite (decide_False (P := script_pubkey u = s)) by done.
      destruct (decide (s ∈ scripts)); lia.
  - destruct (IH _ _ Ha Hr H s) as [H1 H2]. split; [done|]. rewrite H2.
    destruct (decide (s ∈ scripts)); [|done]. rewrite decide_False; [lia|]. by intros <-.
Qed.

(** One output takes what room its script has left. *)
Lemma room_step (room : gmap bytes Z) spk sat :
  0 <= sat -> (forall s, 0 <= default 0 (room !! s)) ->
  let step :=
    match room !! spk with
    | Some r => (<[spk := r - Z.min sat r]> room, sat - Z.min sat r)
    | None => (room, sat)
    end in
  let r := default 0 (room !! spk) in
  (forall s, 0 <= default 0 (step.1 !! s)) /\
  (forall s, default 0 (step.1 !! s) =
     if decide (s = spk) then r - Z.min sat r else default 0 (room !! s)) /\
  step.2 = sat - Z.min sat r.
Proof.
  intros Hs Hr. pose proof (Hr spk) as Hr0. destruct (room !! spk) as [q|] eqn:E; cbn [fst snd].
  - rewrite default_some in *. split; [|split; [|done]]; intros s; destruct (decide (s = spk)) as [->|Hne];
      rewrite ?lookup_insert_eq, ?lookup_insert_ne by done; rewrite ?default_some; (lia || done || apply Hr).
  - change (default 0 None) with 0 in *. split; [done|]. split; [|lia].
    intros s. destruct (decide (s = spk)) as [->|Hne]; [|done]. rewrite E. cbn. lia.
Qed.

Lemma unowned_loop_spec L outs : forall index room acc u,
  NoDup L -> (forall o, o ∈ outs -> script_pubkey o ∈ L) -> amounts_ok outs ->
  (forall s, 0 <= default 0 (room !! s)) ->
  unowned_loop psbt keys index outs room acc = Some u ->
  u = acc + zsum (fun s => Z.max 0 (paid_on s index outs - default 0 (room !! s))) L.
Proof.
  induction outs as [|o outs IH]; intros index room acc u Hnd HL Ha Hr H; cbn [unowned_loop] in H.
  { injection H as <-. rewrite (zsum_ext _ (fun _ => 0)).
    - rewrite zsum_zero. lia.
    - intros s _. specialize (Hr s). cbn. lia. }
  apply Forall_cons in Ha as [Ho Ha].
  assert (HL' : forall o', o' ∈ outs -> script_pubkey o' ∈ L)
    by (intros o' Ho'; apply HL; by apply list_elem_of_further).
  pose proof (HL o (list_elem_of_here _ _)) as Hin.
  change (output_is_self_derived psbt index keys None) with (derived index) in H.
  cbn [paid_on]. destruct (derived index).
  { rewrite (IH _ _ _ _ Hnd HL' Ha Hr H). f_equal. }
  set (spk := script_pubkey o) in *. set (r := default 0 (room !! spk)).
  destruct (room_step room spk (value o) Ho Hr) as (Hr' & Heq & Hsat).
  destruct (match room !! spk with Some r => _ | None => _ end) as [room' sat].
  cbn [fst snd] in *. fold r in Hsat, Heq. subst sat.
  unfold checked in H. destruct (u64_max <? _); [done|]. cbn [mbind option_bind] in H.
  rewrite (IH _ _ _ _ Hnd HL' Ha Hr' H).
  rewrite (zsum_update (fun s => Z.max 0 ((if decide (spk = s) then value o else 0) + paid_on s (S index) outs
      - default 0 (room !! s)))
    (fun s => Z.max 0 (paid_on s (S index) outs - default 0 (room' !! s))) L spk
    (value o - Z.min (value o) r) Hnd Hin).
  - lia.
  - rewrite Heq, decide_True, decide_True by done. fold r.
    pose proof (paid_on_nonneg spk outs (S index) Ha). pose proof (Hr spk) as Hr0. fold r in Hr0. lia.
  - intros s Hne. rewrite Heq, !decide_False by congruence. done.
Qed.

Definition psbt_amounts : Prop :=
  amounts_ok (tx_output (unsigned_tx psbt)) /\ amounts_ok (omap witness_utxo (inputs psbt)).

Lemma out_scripts_spec :
  NoDup out_scripts /\ forall o, o ∈ tx_output (unsigned_tx psbt) -> script_pubkey o ∈ out_scripts.
Proof.
  split; [apply NoDup_remove_dups|]. intros o Ho. apply elem_of_remove_dups.
  by apply (list_elem_of_fmap_2 script_pubkey).
Qed.

Lemma unowned_output_sats_reference input_scripts u :
  psbt_amounts -> unowned_output_sats psbt input_scripts keys = Some u ->
  u = unowned_reference input_scripts.
Proof.
  intros [Ho Hi] H. unfold unowned_output_sats in H.
  destruct (input_room _ _ _) as [room|] eqn:Er; [|done]. cbn [mbind option_bind] in H.
  assert (Hroom : forall s, 0 <= default 0 (room !! s) /\ default 0 (room !! s) = spent_on input_scripts s).
  { intros s. destruct (input_room_spec _ _ _ _ Hi ltac:(by intros t; rewrite lookup_empty) Er s) as [H1 H2].
    split; [done|]. rewrite H2, lookup_empty. unfold spent_on. cbn. done. }
  destruct out_scripts_spec as [Hnd HL].
  rewrite (unowned_loop_spec out_scripts _ _ _ _ _ Hnd HL Ho ltac:(intros s; apply Hroom) H).
  unfold unowned_reference. cbn [Z.add]. apply zsum_ext. intros s _. by rewrite (proj2 (Hroom s)).
Qed.

Lemma outputs_split L outs : forall index,
  NoDup L -> (forall o, o ∈ outs -> script_pubkey o ∈ L) ->
  sum_values outs = derived_value index outs + zsum (fun s => paid_on s index outs) L.
Proof.
  induction outs as [|o outs IH]; intros index Hnd HL.
  { cbn [derived_value paid_on]. by rewrite zsum_zero. }
  change (sum_values (o :: outs)) with (value o + sum_values outs).
  rewrite (IH (S index) Hnd) by (intros o' Ho'; apply HL; by apply list_elem_of_further).
  cbn [derived_value paid_on]. destruct (derived index);
    [by rewrite Z.add_assoc|].
  rewrite (zsum_update (fun s => (if decide (script_pubkey o = s) then value o else 0) + paid_on s (S index) outs)
    (fun s => paid_on s (S index) outs) L (script_pubkey o) (value o) Hnd).
  - lia.
  - apply HL, list_elem_of_here.
  - rewrite decide_True by done. lia.
  - intros s Hs. rewrite decide_False by congruence. lia.
Qed.

(** Every satoshi the outputs pay stays in custody or leaves it. *)
Lemma custody_conservation input_scripts :
  sum_values (tx_output (unsigned_tx psbt)) = custody_value input_scripts + unowned_reference input_scripts.
Proof.
  destruct out_scripts_spec as [Hnd HL]. rewrite (outputs_split out_scripts _ 0 Hnd HL).
  unfold custody_value, unowned_reference. rewrite <- Z.add_assoc, <- zsum_add. f_equal.
  apply zsum_ext. intros s _. lia.
Qed.


Lemma sum_values_nonneg outs : amounts_ok outs -> 0 <= sum_values outs.
Proof.
  intros H. rewrite sum_values_zsum. apply zsum_nonneg. intros a Hin.
  unfold amounts_ok in H. rewrite Forall_forall in H. by apply H.
Qed.

Lemma input_room_total scripts utxos : forall room,
  amounts_ok utxos -> (forall s, default 0 (room !! s) + sum_values utxos <= u64_max) ->
  input_room scripts utxos room <> None.
Proof.
  induction utxos as [|u utxos IH]; intros room Ha Hr; cbn [input_room]; [done|].
  apply Forall_cons in Ha as [Hu Ha].
  pose proof (sum_values_nonneg utxos Ha) as Hs.
  assert (E : sum_values (u :: utxos) = value u + sum_values utxos) by done. rewrite E in Hr.
  case_bool_decide; [|apply IH; [done|intros s; specialize (Hr s); lia]].
  unfold checked. rewrite (proj2 (Z.ltb_ge _ _)) by (specialize (Hr (script_pubkey u)); lia).
  cbn [mbind option_bind]. apply IH; [done|]. intros s. destruct (decide (s = script_pubkey u)) as [->|Hne].
  - rewrite lookup_insert_eq, default_some. specialize (Hr (script_pubkey u)). lia.
  - rewrite lookup_insert_ne by done. specialize (Hr s). lia.
Qed.

Lemma unowned_loop_total outs : forall index room acc,
  amounts_ok outs -> (forall s, 0 <= default 0 (room !! s)) -> acc + sum_values outs <= u64_max ->
  unowned_loop psbt keys index outs room acc <> None.
Proof.
  induction outs as [|o outs IH]; intros index room acc Ha Hr Hs; cbn [unowned_loop]; [done|].
  apply Forall_cons in Ha as [Ho Ha].
  assert (E : sum_values (o :: outs) = value o + sum_values outs) by done. rewrite E in Hs.
  pose proof (sum_values_nonneg outs Ha).
  destruct (output_is_self_derived _ _ _ _); [apply IH; (done || lia)|].
  destruct (room_step room (script_pubkey o) (value o) Ho Hr) as (Hr' & _ & Hsat).
  destruct (match room !! script_pubkey o with Some r => _ | None => _ end) as [room' sat].
  cbn [fst snd] in *. pose proof (Hr (script_pubkey o)). unfold checked.
  rewrite (proj2 (Z.ltb_ge _ _)) by lia. cbn [mbind option_bind]. apply IH; (done || lia).
Qed.

Fixpoint foreign_value (index : nat) (outs : list TxOut) : Z :=
  match outs with
  | [] => 0
  | o :: outs => (if derived index then 0 else value o) + foreign_value (S index) outs
  end.

Lemma foreign_split outs : forall index,
  sum_values outs = derived_value index outs + foreign_value index outs.
Proof.
  induction outs as [|o outs IH]; intros index; [done|].
  change (sum_values (o :: outs)) with (value o + sum_values outs). rewrite (IH (S index)).
  cbn [derived_value foreign_value]. destruct (derived index); lia.
Qed.

(** With no script exempt, what leaves custody is all that is not derived. *)
Lemma unowned_nothing_exempt u :
  psbt_amounts -> unowned_output_sats psbt ∅ keys = Some u ->
  u = foreign_value 0 (tx_output (unsigned_tx psbt)).
Proof.
  intros Ha Hu. apply unowned_output_sats_reference in Hu as ->; [|done].
  pose proof (custody_conservation ∅) as Hc. rewrite (foreign_split _ 0) in Hc.
  unfold custody_value in Hc. rewrite (zsum_ext _ (fun _ => 0)) in Hc.
  - rewrite zsum_zero in Hc. lia.
  - intros s _. unfold spent_on. rewrite decide_False by set_solver.
    pose proof (paid_on_nonneg s _ 0 (proj1 Ha)). lia.
Qed.

Lemma foreign_nonneg outs : forall index, amounts_ok outs -> 0 <= foreign_value index outs.
Proof.
  induction outs as [|o outs IH]; intros index H; [done|]. apply Forall_cons in H as [Ho H].
  cbn. specialize (IH (S index) H). destruct (derived index); lia.
Qed.

Lemma foreign_zero outs : forall index i o,
  amounts_ok outs -> foreign_value index outs = 0 -> outs !! i = Some o ->
  derived (index + i) = true \/ value o = 0.
Proof.
  induction outs as [|x outs IH]; intros index i o H Hz Hi; [done|]. apply Forall_cons in H as [Hx H].
  cbn [foreign_value] in Hz. pose proof (foreign_nonneg outs (S index) H). destruct i as [|i]; cbn in Hi.
  - injection Hi as <-. rewrite Nat.add_0_r. destruct (derived index); [by left|right; lia].
  - rewrite <- Nat.add_succ_comm. apply IH; [done| |done]. destruct (derived index); lia.
Qed.

Lemma foreign_ge outs : forall index i o,
  amounts_ok outs -> outs !! i = Some o -> derived (index + i) = false ->
  value o <= foreign_value index outs.
Proof.
  induction outs as [|x outs IH]; intros index i o H Hi Hd; [done|].
  apply Forall_cons in H as [Hx H]. pose proof (foreign_nonneg outs (S index) H).
  cbn [foreign_value]. destruct i as [|i]; cbn in Hi.
  - injection Hi as <-. rewrite Nat.add_0_r in Hd. rewrite Hd. lia.
  - rewrite <- Nat.add_succ_comm in Hd. specialize (IH _ _ _ H Hi Hd). destruct (derived index); lia.
Qed.

(** One foreign output that carries all the foreign value leaves none elsewhere. *)
Lemma foreign_single outs : forall index i o,
  amounts_ok outs -> outs !! i = Some o -> derived (index + i) = false ->
  foreign_value index outs = value o ->
  forall j o', j <> i -> outs !! j = Some o' -> derived (index + j) = true \/ value o' = 0.
Proof.
  induction outs as [|x outs IH]; intros index i o H Hi Hd Hf j o' Hj Hl; [done|].
  apply Forall_cons in H as [Hx H]. pose proof (foreign_nonneg outs (S index) H).
  cbn [foreign_value] in Hf. destruct i as [|i]; cbn in Hi.
  - injection Hi as <-. rewrite Nat.add_0_r in Hd. rewrite Hd in Hf. destruct j as [|j]; [done|].
    rewrite <- Nat.add_succ_comm. apply (foreign_zero outs); [done|lia|done].
  - rewrite <- Nat.add_succ_comm in Hd.
    assert (Hge : value o <= foreign_value (S index) outs) by by eapply foreign_ge.
    destruct j as [|j]; cbn in Hl.
    + injection Hl as <-. rewrite Nat.add_0_r. destruct (derived index); [by left|right; lia].
    + rewrite <- Nat.add_succ_comm. apply (IH (S index) i o H Hi Hd); [|congruence|done].
      destruct (derived index); lia.
Qed.
End Ownership.

(** What [unowned_output_sats] computes, whatever the order of the inputs
    and outputs: script by script, the payments to outputs the enclave does not
    derive above what the spent inputs held on that script, where only scripts of
    [input_scripts] count.  Together with what stays in custody that is every
    satoshi of the outputs, and the checked sums fail only when an amount does
    not fit [u64]. *)
Theorem unowned_output_sats_exact {K : Bip32} {B : Bitcoin} (psbt : Psbt) (keys : KeyManager K)
    (input_scripts : gset bytes) :
  psbt_amounts psbt ->
  (forall u, unowned_output_sats psbt input_scripts keys = Some u ->
     u = unowned_reference psbt keys input_scripts /\
     sum_values (tx_output (unsigned_tx psbt)) = custody_value psbt keys input_scripts + u) /\
  (sum_values (tx_output (unsigned_tx psbt)) <= u64_max ->
   sum_values (omap witness_utxo (inputs psbt)) <= u64_max ->
   exists u, unowned_output_sats psbt input_scripts keys = Some u).
Proof.
  intros Ha. split.
  - intros u Hu. apply unowned_output_sats_reference in Hu as ->; [|done].
    split; [done|apply custody_conservation].
  - intros Ho Hi. unfold unowned_output_sats.
    destruct (input_room input_scripts (omap witness_utxo (inputs psbt)) ∅) as [room|] eqn:Er.
    + cbn [mbind option_bind].
      destruct (unowned_loop _ _ _ _ _ _) as [u|] eqn:Eu; [by exists u|exfalso; revert Eu].
      apply unowned_loop_total; [apply Ha| |lia].
      intros s. by eapply (input_room_spec _ _ ∅); [apply Ha|intros t; by rewrite lookup_empty|].
    + exfalso. revert Er. apply input_room_total; [apply Ha|]. intros s. by rewrite lookup_empty.
Qed.

Lemma unowned_output_sats_exact_witness :
  unowned_output_sats sample_psbt ∅ sample_keys = Some 1000 /\
  unowned_reference sample_psbt sample_keys ∅ = 1000 /\
  custody_value sample_psbt sample_keys ∅ = 30000.
Proof.
  assert (Ha : psbt_amounts sample_psbt) by by repeat constructor.
  destruct (unowned_output_sats_exact sample_psbt sample_keys ∅ Ha) as [H1 H2].
  destruct H2 as [u Hu]; [by vm_compute|by vm_compute|].
  assert (E : unowned_output_sats sample_psbt ∅ sample_keys = Some 1000) by by vm_compute.
  rewrite E in Hu. injection Hu as <-. destruct (H1 _ E) as [H3 H4].
  split_and!; [done|done|]. change (sum_values _) with 31000 in H4. lia.
Defined.

(** ** Fees *)

Section Fees.
Context {K : Bip32} {B : Bitcoin} {L : BitcoinLaws B}.

Definition fee_ok (psbt : Psbt) (fee : Z) : Prop :=
  0 <= fee <= MAX_FEE_SATS /\ fee <= tx_vsize (unsigned_tx psbt) * MAX_FEE_RATE_SAT_VB.

Lemma check_psbt_fee_ok psbt kp :
  check_psbt_fee psbt kp = Ok tt ->
  exists fee v, psbt_fee psbt = Some fee /\ fee_ok psbt fee /\
    estimated_signed_vsize psbt kp = Ok v /\ v <= fee.
Proof.
  unfold check_psbt_fee. intros H. apply rbind_ok in H as (fee & Hf & H).
  destruct (psbt_fee psbt) as [f|] eqn:Ef; [|done]. injection Hf as ->.
  destruct (_ =? 0); [done|]. destruct (MAX_FEE_SATS <? fee) eqn:E1; [done|].
  apply rbind_ok in H as (m & Hm & H). unfold checked in Hm. destruct (u64_max <? _); [done|].
  injection Hm as <-. destruct (tx_vsize _ * _ <? fee) eqn:E2; [done|]. apply rbind_ok in H as (v & Hv & H).
  apply rbind_ok in H as (lo & Hlo & H). unfold checked in Hlo. destruct (u64_max <? v * _); [done|].
  injection Hlo as <-. destruct (fee <? _) eqn:E3; [done|]. zbool.
  destruct (psbt_fee_spec psbt fee Ef) as [[Hf _] _]. unfold MIN_FEE_RATE_SAT_VB in E3.
  exists fee, v. split_and!; try done. lia.
Qed.

(** With a witness UTXO on every input the fee is inputs minus outputs. *)
Lemma witness_funding psbt us fee :
  Forall2 (fun input u => witness_utxo input = Some u) (inputs psbt) us -> psbt_fee psbt = Some fee ->
  sum_values us = sum_values (tx_output (unsigned_tx psbt)) + fee.
Proof.
  intros Hw Hf. destruct (psbt_fee_spec psbt fee Hf) as (_ & us' & E & Hs).
  replace us with us'; [done|]. apply (inj (fmap Some)).
  change (Some <$> us') with (map Some us'). rewrite <- E.
  apply list_eq_same_length with (length (inputs psbt)).
  - by rewrite length_fmap, (Forall2_length _ _ _ Hw).
  - by rewrite funding_utxos_length.
  - intros i x y Hi Hx Hy. apply list_lookup_fmap_Some in Hy as (u & -> & Hy).
    destruct (Forall2_lookup_r _ _ _ _ _ Hw Hy) as (inp & Hinp & Hu).
    rewrite (funding_utxos_witness psbt i inp u Hinp Hu) in Hx. congruence.
Qed.
End Fees.

(** The fee policy.  A PSBT that passes pays a fee of at most
    [MAX_FEE_SATS] and of at most [MAX_FEE_RATE_SAT_VB] per virtual byte of the
    unsigned transaction, and at least one satoshi per virtual byte of the
    transaction as it will be broadcast, whatever witnesses of the estimated
    kinds complete it. *)
Theorem check_psbt_fee_bounds {B : Bitcoin} {L : BitcoinLaws B} (psbt : Psbt) (kp : list nat)
    (ws : list (list bytes)) :
  check_psbt_fee psbt kp = Ok tt -> all_spend psbt kp 0 (funding_utxos psbt) ws ->
  exists fee us, psbt_fee psbt = Some fee /\ funding_utxos psbt = map Some us /\
    sum_values us = sum_values (tx_output (unsigned_tx psbt)) + fee /\
    0 <= fee <= MAX_FEE_SATS /\ fee <= tx_vsize (unsigned_tx psbt) * MAX_FEE_RATE_SAT_VB /\
    signed_vsize (unsigned_tx psbt) ws <= fee.
Proof.
  intros H Hs. apply check_psbt_fee_ok in H as (fee & v & Hf & [H1 H2] & Hv & Hle).
  destruct (psbt_fee_spec psbt fee Hf) as (_ & us & E & Hsum).
  pose proof (signed_vsize_bounded _ _ _ _ Hv Hs). exists fee, us. split_and!; try done; lia.
Qed.

Lemma check_psbt_fee_bounds_witness :
  check_psbt_fee sample_psbt [0%nat] = Ok tt /\
  signed_vsize (unsigned_tx sample_psbt) [[replicate 64 x01]] <= 19000.
Proof.
  assert (H : check_psbt_fee sample_psbt [0%nat] = Ok tt) by by vm_compute.
  split; [done|].
  destruct (check_psbt_fee_bounds sample_psbt [0%nat] [[replicate 64 x01]] H) as (fee & _ & Hf & _ & _ & _ & _ & Hv).
  - split; [|done]. exists (our_input Vanilla 0 50000). split; [done|]. right.
    by exists (replicate 64 x01).
  - assert (E : psbt_fee sample_psbt = Some 19000) by by vm_compute. rewrite E in Hf. by injection Hf as <-.
Defined.

(** ** Plain-BTC requests *)

(** Amounts in a PSBT are [u64], so not negative. *)
Class PsbtCodecLaws (C : PsbtCodec) : Prop := {
  psbt_deserialize_amounts bs p : psbt_deserialize bs = Some p -> psbt_amounts p
}.

#[global] Instance sample_codec_laws : PsbtCodecLaws sample_codec.
Proof. split. intros bs p. cbn. case_bool_decide; [done|]. intros [= <-]. by repeat constructor. Qed.

Section Requests.
Context {K : Bip32} {B : Bitcoin} {L : BitcoinLaws B} {C : PsbtCodec} {CL : PsbtCodecLaws C}.

Lemma total_input_sats_ok ins : forall t t',
  total_input_sats ins t = Ok t' ->
  exists us, Forall2 (fun input u => witness_utxo input = Some u) ins us /\ t' = t + sum_values us.
Proof.
  induction ins as [|i ins IH]; intros t t' H; cbn [total_input_sats] in H.
  { injection H as <-. exists []. split; [constructor|]. cbn. lia. }
  destruct (witness_utxo i) as [u|] eqn:Eu; [|done]. apply rbind_ok in H as (t1 & Ht & H).
  unfold checked in Ht. destruct (u64_max <? _); [done|]. injection Ht as <-.
  destruct (IH _ _ H) as (us & Hus & ->). exists (u :: us). split; [by constructor|]. cbn.
  unfold sum_values. lia.
Qed.

Lemma parse_psbt_shape_ok bs p :
  parse_psbt_shape bs = Ok p ->
  psbt_deserialize bs = Some p /\ tx_input (unsigned_tx p) <> [] /\ check_psbt_size bs = Ok tt.
Proof.
  unfold parse_psbt_shape. intros H. case_bool_decide; [done|].
  apply rbind_ok in H as ([] & Hs & H). apply rbind_ok in H as (q & Hq & H).
  destruct (psbt_deserialize bs) as [q'|]; [|done]. injection Hq as ->.
  case_bool_decide; [done|]. by injection H as ->.
Qed.

Definition vanilla_scripts (p : Psbt) (keys : KeyManager K) : gset bytes :=
  self_controlled_input_scripts_scoped p keys (Some Vanilla).

Lemma validate_btc_request_ok bs cfg keys :
  validate_btc_request true bs cfg keys = Ok tt ->
  exists p us u, psbt_deserialize bs = Some p /\ tx_output (unsigned_tx p) <> [] /\
    Forall2 (fun input u => witness_utxo input = Some u) (inputs p) us /\
    sum_values us <= btc_max_total_sats cfg /\
    unowned_output_sats p (vanilla_scripts p keys) keys = Some u /\
    (0 < u -> u <= btc_max_unowned_sats cfg) /\
    check_psbt_fee p (fee_key_path_inputs_scoped p keys Vanilla) = Ok tt.
Proof.
  unfold validate_btc_request. intros H. apply rbind_ok in H as (p & Hp & H).
  apply parse_psbt_shape_ok in Hp as (Hp & _ & _). apply rbind_ok in H as (t & Ht & H).
  apply total_input_sats_ok in Ht as (us & Hus & ->). case_bool_decide as Ho; [done|].
  apply rbind_ok in H as (u & Hu & H). fold (self_controlled_input_scripts_scoped p keys (Some Vanilla)) in Hu.
  fold (vanilla_scripts p keys) in Hu. destruct (unowned_output_sats _ _ _) as [u'|] eqn:Eu; [|done].
  injection Hu as ->. apply rbind_ok in H as ([] & Hcap & H). apply rbind_ok in H as ([] & Hfee & H).
  exists p, us, u. split_and!; try done.
  - destruct (btc_max_total_sats cfg =? 0); [done|]. destruct (_ <? 0 + _) eqn:E; [done|]. zbool. lia.
  - intros Hpos. rewrite (proj2 (Z.ltb_lt 0 u) Hpos) in Hcap.
    destruct (btc_max_unowned_sats cfg =? 0); [done|]. destruct (_ <? u) eqn:E; [done|]. zbool. lia.
Qed.

Context {T : @TapSigner K}.

Lemma handle_sign_btc_ok policy cfg keys bs out n :
  handle_sign_btc true policy cfg keys bs = Ok (out, n) ->
  policy <> Some false /\ validate_btc_request true bs cfg keys = Ok tt /\
  exists m, sign_psbt_scoped keys bs (Some Vanilla) = Ok (out, m) /\ m <> 0.
Proof.
  unfold handle_sign_btc. intros H. apply rbind_ok in H as (t & Hpol & H).
  apply rbind_ok in H as ([] & Hv & H). apply rbind_ok in H as ([signed m] & Hs & H).
  destruct (m =? 0) eqn:E; [done|]. injection H as -> <-. zbool.
  split; [by intros ->|]. split; [done|]. by exists m.
Qed.
End Requests.

(** C8: end to end, a plain-BTC request a production enclave signs.  The
    policy allows it; every input carries the output it spends and together they
    hold at most [btc_max_total_sats]; of that, what does not come back to the
    enclave's custody is at most [btc_max_unowned_sats] and a fee of at most
    [MAX_FEE_SATS]; the signatures are those of the Vanilla inputs alone, and
    there is one at least. *)
Theorem sign_btc_bounded_loss {K : Bip32} {B : Bitcoin} {L : BitcoinLaws B} {C : PsbtCodec}
    {CL : PsbtCodecLaws C} {T : @TapSigner K} (policy : option bool) (cfg : BtcPins)
    (keys : KeyManager K) (psbt_bytes out : bytes) (n : Z) :
  handle_sign_btc true policy cfg keys psbt_bytes = Ok (out, n) ->
  0 <= btc_max_unowned_sats cfg ->
  policy <> Some false /\
  (exists m, sign_psbt_scoped keys psbt_bytes (Some Vanilla) = Ok (out, m) /\ m <> 0) /\
  exists p us, psbt_deserialize psbt_bytes = Some p /\
    Forall2 (fun input u => witness_utxo input = Some u) (inputs p) us /\
    sum_values us <= btc_max_total_sats cfg /\
    sum_values us - custody_value p keys (vanilla_scripts p keys)
      <= btc_max_unowned_sats cfg + MAX_FEE_SATS.
Proof.
  intros H Hcfg. apply handle_sign_btc_ok in H as (Hpol & Hv & Hs). split; [done|]. split; [done|].
  apply validate_btc_request_ok in Hv as (p & us & u & Hp & _ & Hus & Ht & Hu & Hcap & Hfee).
  exists p, us. split_and!; try done.
  apply check_psbt_fee_ok in Hfee as (fee & _ & Hf & [Hmax _] & _).
  rewrite (witness_funding _ _ _ Hus Hf), (custody_conservation p keys (vanilla_scripts p keys)).
  apply unowned_output_sats_reference in Hu; [|by eapply psbt_deserialize_amounts]. lia.
Qed.

Lemma sign_btc_bounded_loss_witness :
  let cfg := {| btc_max_total_sats := 50000; btc_max_unowned_sats := 1000 |} in
  handle_sign_btc true (Some true) cfg sample_keys [x01] = Ok (replicate 64 x01, 1) /\
  exists p us, psbt_deserialize [x01] = Some p /\ sum_values us <= 50000 /\
    sum_values us - custody_value p sample_keys (vanilla_scripts p sample_keys) <= 101000.
Proof.
  intros cfg.
  assert (H : handle_sign_btc true (Some true) cfg sample_keys [x01] = Ok (replicate 64 x01, 1))
    by by vm_compute.
  split; [done|].
  destruct (sign_btc_bounded_loss _ _ _ _ _ _ H) as (_ & _ & p & us & H1 & _ & H2 & H3); [done|].
  by exists p, us.
Defined.
