(* ===== verification/RgbCommit.v ===== *)
(** * The transition a transaction commits, and its parent
      (src/enclave/src/networks/rgb/psbt_commit.rs, parent_proof.rs,
       validation/transition.rs, validation/types.rs, validation/asset_bind.rs)

    The mint signer reads the RGB side of a PSBT from the fascia that comes with
    it: rules F3 to F6 find the one transition of the pinned contract the
    transaction commits, rules PP1 to PP7 the output of its parent that holds
    the right it spends.  The types of rgbstd are records with the fields the
    code reads; its hashes, commitments and decoder are the class [RgbStd].
    Maps are read by key only, so a [BTreeMap] is a [gmap]. *)

From stdpp Require Import base numbers list gmap strings.
From S2P Require Import Prelude Errors PsbtTypes PsbtKeys.

#[local] Open Scope list_scope.
#[local] Open Scope Z_scope.

(** ** rgbstd *)

(** An assignment of an operation: which one made it, its type, its number. *)
Record Opout : Type := { op : bytes; ty : Z; no : Z }.

#[export] Instance opout_eq_dec : EqDecision Opout.
Proof. solve_decision. Defined.

#[export] Program Instance opout_countable : Countable Opout :=
  inj_countable' (fun o => (op o, ty o, no o)) (fun '(a, b, c) => {| op := a; ty := b; no := c |}) _.
Next Obligation. by intros []. Qed.

Record GraphSeal : Type := { seal_txid : option bytes; seal_vout : Z }.

Inductive BuilderSeal : Type :=
| SealRevealed (seal : GraphSeal)
| SealConcealed (secret : bytes).

(** The assignments of one type: a seal, with units for a fungible one. *)
Inductive TypedAssigns : Type :=
| Declarative (legs : list BuilderSeal)
| Fungible (legs : list (BuilderSeal * Z))
| Structured (legs : list (BuilderSeal * bytes)).

(** [TypedAssigns::seals], [seal_at] and [as_fungible]. *)
Definition seals (t : TypedAssigns) : list BuilderSeal :=
  match t with
  | Declarative legs => legs
  | Fungible legs => map fst legs
  | Structured legs => map fst legs
  end.

Definition seal_at (t : TypedAssigns) (n : Z) : option BuilderSeal := seals t !! Z.to_nat n.

Definition as_fungible (t : TypedAssigns) : list (BuilderSeal * Z) :=
  match t with Fungible legs => legs | _ => [] end.

Record Transition : Type := {
  contract_id : bytes;
  transition_type : Z;
  t_inputs : list Opout;
  assignments : gmap Z TypedAssigns;
  globals : gmap Z (list bytes);
  metadata : gmap Z bytes
}.

Record KnownTransition : Type := { known_opid : bytes; known_transition : Transition }.

Record TransitionBundle : Type := {
  input_map : gmap Opout bytes;
  known_transitions : list KnownTransition
}.

(** What rgb-lib writes for a transaction: its witness id and transaction, the
    entropy of its commitment tree, and the bundles by contract. *)
Record Fascia : Type := {
  witness_id : bytes;
  witness_tx : Transaction;
  mpc_entropy : option Z;
  bundles : gmap bytes TransitionBundle
}.

(** Functions of rgbstd: the strict decoder of a fascia, [ContractId::from_str]
    and its text form, the ids, the commitment of a tree of messages, the check
    of an opret commitment in a transaction, the text of a concealed seal, and
    [LockId::with]. *)
Class RgbStd : Type := {
  fascia_decode : bytes -> option Fascia;
  contract_from_str : string -> option bytes;
  contract_to_string : bytes -> string;
  transition_id : Transition -> bytes;
  bundle_id : TransitionBundle -> bytes;
  mpc_commit : list (bytes * bytes) -> Z -> option bytes;
  opret_verify : bytes -> Transaction -> bool;
  seal_to_string : bytes -> string;
  lock_id_with : bytes -> bytes -> bytes
}.

(** The BFA schema (crate rgb-schemas). *)
Class BfaSchema : Type := {
  OS_ASSET : Z;
  OS_MINT : Z;
  TS_MINT : Z;
  TS_PROPAGATE : Z;
  GS_ISSUED_SUPPLY : Z;
  MS_BEFORE_BLOCK : Z
}.

(** ** Seals and globals (validation/transition.rs, types.rs) *)

Inductive OutputSeal : Type :=
| Revealed (txid : option bytes) (vout : Z)
| Confidential (secret_seal : string).

Section Rgb.
Context {R : RgbStd} {F : BfaSchema} {B : Bitcoin}.

Definition single_global (n : Z) (gs : gmap Z (list bytes)) (key : Z) : enclave_result (option bytes) :=
  match gs !! key with
  | None => Ok None
  | Some [value] =>
      if negb (zlen value =? n) then Err (CrossCheck "global has an unexpected length")
      else Ok (Some value)
  | Some _ => Err (CrossCheck "settling transition carries several values, expected one")
  end.

(** Display order is the reverse of the internal one. *)
Definition display_bytes (txid : bytes) : bytes := rev txid.

Definition output_seal (seal : BuilderSeal) : OutputSeal :=
  match seal with
  | SealRevealed s => Revealed (display_bytes <$> seal_txid s) (seal_vout s)
  | SealConcealed secret => Confidential (seal_to_string secret)
  end.

(** ** Rules F3 to F6 (psbt_commit.rs) *)

Record Committed : Type := { c_txid : bytes; opid : bytes; transition : Transition }.

Definition pinned_contract (rgb_asset_id : string) : enclave_result bytes :=
  if bool_decide (rgb_asset_id = "") then Err (CrossCheck "asset-identity pin missing")
  else ok_or (contract_from_str rgb_asset_id) (CrossCheck "RGB_ASSET_ID is not a contract id").

(** The 24-bit length bound of [Confined] is above the PSBT limit. *)
Definition parse_fascia (bs : bytes) : enclave_result Fascia :=
  if bool_decide (bs = []) then Err (CrossCheck "fascia required")
  else
    let? _ := check_psbt_size bs in
    if 2 ^ 24 - 1 <? zlen bs then Err (CrossCheck "fascia is too large")
    else ok_or (fascia_decode bs) (CrossCheck "not an rgb-lib fascia").

(** The first OP_RETURN or P2TR output must be an OP_RETURN. *)
Definition assert_opret_host (tx : Transaction) : enclave_result unit :=
  match list_find (fun out => is_op_return (script_pubkey out) || is_p2tr (script_pubkey out)) (tx_output tx) with
  | Some (_, out) =>
      if is_op_return (script_pubkey out) then Ok tt
      else Err (CrossCheck "tx output is a P2TR before the OP_RETURN")
  | None => Err (CrossCheck "tx has no OP_RETURN output to commit its RGB bundle")
  end.

Definition pinned_bundle (bs : gmap bytes TransitionBundle) (pin : bytes) : enclave_result TransitionBundle :=
  match map_to_list bs with
  | [(cid, bundle)] =>
      if bool_decide (cid = pin) then Ok bundle
      else Err (CrossCheck "the fascia discloses a bundle of another contract")
  | _ => Err (CrossCheck "the fascia discloses several contract bundles")
  end.

(** [min_depth] is a constant of the tree; [mpc_commit] is [None] where the
    messages or the tree are refused. *)
Definition assert_commits_exactly (tx : Transaction) (fascia : Fascia) : enclave_result unit :=
  let? entropy := ok_or (mpc_entropy fascia) (CrossCheck "the fascia's MPC block carries no MPC entropy") in
  let messages := map (fun '(cid, bundle) => (cid, bundle_id bundle)) (map_to_list (bundles fascia)) in
  let? commitment := ok_or (mpc_commit messages entropy) (CrossCheck "fascia MPC tree") in
  if opret_verify commitment tx then Ok tt
  else Err (CrossCheck "the OP_RETURN does not commit exactly the bundles").

Definition assert_input_map_is (bundle : TransitionBundle) (t : Transition) (id : bytes) : enclave_result unit :=
  if negb (bool_decide (dom (input_map bundle) = (list_to_set (t_inputs t) : gset Opout))) then
    Err (CrossCheck "the fascia's input map closes other seals")
  else if existsb (fun '(_, other) => negb (bool_decide (other = id))) (map_to_list (input_map bundle)) then
    Err (CrossCheck "the fascia's input map assigns a seal to another transition")
  else Ok tt.

Definition disclosed_transition (bundle : TransitionBundle) (pin : bytes) : enclave_result (bytes * Transition) :=
  match known_transitions bundle with
  | [known] =>
      let t := known_transition known in
      let id := transition_id t in
      if negb (bool_decide (id = known_opid known)) then
        Err (CrossCheck "the fascia stores a transition under another opid")
      else if negb (bool_decide (contract_id t = pin)) then
        Err (CrossCheck "the fascia's transition belongs to another contract")
      else
        let? _ := assert_input_map_is bundle t id in
        Ok (id, t)
  | _ => Err (CrossCheck "the mint signer signs exactly one transition")
  end.

Definition committed_transition (tx : Transaction) (fascia : Fascia) (pin : bytes) : enclave_result Committed :=
  let txid := compute_txid tx in
  if negb (bool_decide (witness_id fascia = txid)) then
    Err (CrossCheck "the fascia is not of the PSBT's tx")
  else
    let? _ := assert_opret_host tx in
    let? bundle := pinned_bundle (bundles fascia) pin in
    let? _ := assert_commits_exactly tx fascia in
    let? (id, t) := disclosed_transition bundle pin in
    Ok {| c_txid := txid; opid := id; transition := t |}.

Definition single_right_input (t : Transition) : enclave_result Opout :=
  match t_inputs t with
  | [input] =>
      if ty input =? OS_MINT then Ok input
      else Err (CrossCheck "must close exactly one mintRight")
  | _ => Err (CrossCheck "must close exactly one mintRight")
  end.

Definition witness_vout (seal : OutputSeal) : enclave_result Z :=
  match seal with
  | Revealed None vout => Ok vout
  | Revealed (Some _) _ => Err (CrossCheck "is on a vout of another transaction")
  | Confidential _ => Err (CrossCheck "is on a blinded seal")
  end.

(** ** Rules PP1 to PP7 (parent_proof.rs) *)

Definition seal_outpoint (seal : BuilderSeal) (witness : bytes) : option OutPoint :=
  match seal with
  | SealRevealed s => Some {| op_txid := default witness (seal_txid s); op_vout := seal_vout s |}
  | SealConcealed _ => None
  end.

Definition assert_alone_on (made : Committed) (input : Opout) (right : OutPoint) : enclave_result unit :=
  let clash '(t, typed) :=
    existsb (fun '(n, seal) =>
      negb (bool_decide ((t, n) = (ty input, Z.to_nat (no input))))
      && bool_decide (seal_outpoint seal (c_txid made) = Some right))
      (imap (fun n seal => (n, seal)) (seals typed)) in
  if existsb clash (map_to_list (assignments (transition made))) then
    Err (CrossCheck "the parent puts another assignment on the spent right's UTXO")
  else Ok tt.

Definition right_vout (made : Committed) (input : Opout) : enclave_result Z :=
  if negb (bool_decide (op input = opid made)) || negb (ty input =? OS_MINT) then
    Err (CrossCheck "parent_fascia did not make the mintRight the request spends")
  else if negb (transition_type (transition made) =? TS_PROPAGATE) then
    Err (CrossCheck "the spent right was not made by a propagate")
  else
    let? _ := single_right_input (transition made) in
    let? seal := ok_or (typed ← assignments (transition made) !! ty input; seal_at typed (no input))
                   (CrossCheck "parent transition has no such mintRight") in
    let? vout := witness_vout (output_seal seal) in
    let? _ := assert_alone_on made input {| op_txid := c_txid made; op_vout := vout |} in
    Ok vout.

Definition spends_outpoint (psbt : Psbt) (right : OutPoint) (i : nat) : bool :=
  match tx_input (unsigned_tx psbt) !! i with
  | Some txin => bool_decide (previous_output txin = right)
  | None => false
  end.

Definition spending_input (psbt : Psbt) (right : OutPoint) : enclave_result nat :=
  match filter (fun i => Is_true (spends_outpoint psbt right i))
          (seq 0 (length (tx_input (unsigned_tx psbt)))) with
  | [i] => Ok i
  | _ => Err (CrossCheck "the PSBT does not spend the UTXO of the right its transition closes")
  end.

Definition right_input (psbt : Psbt) (parent_fascia : bytes) (input : Opout) (pin : bytes) : enclave_result nat :=
  let? parent := parse_fascia parent_fascia in
  let? made := committed_transition (witness_tx parent) parent pin in
  let? vout := right_vout made input in
  spending_input psbt {| op_txid := c_txid made; op_vout := vout |}.

(** ** The asset pin (validation/asset_bind.rs) *)

Inductive AssetBindMode : Type := Source | Destination.

Definition assert_asset_binding (validated_contract_id declared_asset_id rgb_asset_id : string)
    (is_configured : bool) (mode : AssetBindMode) : enclave_result unit :=
  if bool_decide (validated_contract_id = "") then
    Err (CrossCheck "validated consignment has empty contract_id")
  else if negb (bool_decide (validated_contract_id = declared_asset_id)) then
    Err (CrossCheck "contract_id mismatch with the declared asset")
  else
    let check_pin :=
      if negb (bool_decide (validated_contract_id = rgb_asset_id)) then
        Err (CrossCheck "contract_id mismatch with the pinned RGB_ASSET_ID")
      else Ok tt in
    match mode with
    | Source =>
        if negb is_configured then Ok tt
        else if bool_decide (rgb_asset_id = "") then
          Err (CrossCheck "bridge config pinned chain/contract but RGB_ASSET_ID is empty")
        else check_pin
    | Destination =>
        if bool_decide (rgb_asset_id = "") then
          Err (CrossCheck "asset-identity pin missing: RGB_ASSET_ID is not configured")
        else check_pin
    end.

(** [pinned_commitment] (rgb/route.rs). *)
Definition pinned_commitment (psbt : Psbt) (fascia : bytes) (asset_id rgb_asset_id : string)
    (is_configured : bool) : enclave_result (bytes * Committed) :=
  let? pin := pinned_contract rgb_asset_id in
  let? fascia := parse_fascia fascia in
  let? committed := committed_transition (unsigned_tx psbt) fascia pin in
  let? _ := assert_asset_binding (contract_to_string pin) asset_id rgb_asset_id is_configured Destination in
  Ok (pin, committed).
End Rgb.
