(* ===== verification/RgbSample.v ===== *)
(** * A small RGB world

    Concrete instances of [RgbStd] and [BfaSchema] and three transactions: a
    parent that made two rights, a mint that spends the first one, and a refill
    that spends it.  A fascia is one byte on the wire. *)

From stdpp Require Import base numbers list gmap strings.
From S2P Require Import Prelude Errors PsbtTypes PsbtKeys PsbtSample RgbCommit.

#[local] Open Scope list_scope.
#[local] Open Scope Z_scope.

#[global] Instance sample_schema : BfaSchema := {
  OS_ASSET := 4000; OS_MINT := 4010; TS_MINT := 8013; TS_PROPAGATE := 8012;
  GS_ISSUED_SUPPLY := 2010; MS_BEFORE_BLOCK := 3000
}.

Definition pin_id : bytes := [xaa].
Definition parent_opid : bytes := replicate 32 x0e.
Definition child_opid : bytes := replicate 32 x0f.

Definition tx_of (prev : OutPoint) (outs : list TxOut) : Transaction :=
  {| tx_input := [{| previous_output := prev; script_sig := []; witness := [] |}];
     tx_output := {| value := 0; script_pubkey := [x6a] |} :: outs; tx_rest := [] |}.

Definition parent_tx : Transaction :=
  tx_of {| op_txid := key_of 7; op_vout := 0 |}
    [{| value := 50000; script_pubkey := our_script Colored 0 |};
     {| value := 1000; script_pubkey := our_script Colored 2 |}].

Definition right_outpoint : OutPoint := {| op_txid := compute_txid parent_tx; op_vout := 1 |}.

Definition mint_tx : Transaction :=
  tx_of right_outpoint [{| value := 30000; script_pubkey := our_script Colored 1 |}].

(** The same mint to a witness output of 600 sat. *)
Definition witness_mint_tx : Transaction :=
  tx_of right_outpoint [{| value := 30000; script_pubkey := our_script Colored 1 |};
                        {| value := 600; script_pubkey := foreign_script |}].

Definition refill_tx : Transaction :=
  tx_of right_outpoint [{| value := 20000; script_pubkey := our_script Colored 1 |};
                        {| value := 10000; script_pubkey := our_script Colored 2 |};
                        {| value := 1000; script_pubkey := our_script Colored 1 |}].

Definition our_seal (vout : Z) : BuilderSeal := SealRevealed {| seal_txid := None; seal_vout := vout |}.

Definition first_right : Opout := {| op := key_of 5; ty := 4010; no := 0 |}.
Definition spent_right : Opout := {| op := parent_opid; ty := 4010; no := 0 |}.

Definition propagate (input : Opout) (vouts : list Z) : Transition := {|
  contract_id := pin_id; transition_type := 8012; t_inputs := [input];
  assignments := {[ 4010 := Declarative (map our_seal vouts) ]}; globals := ∅; metadata := ∅ |}.

Definition mint_of (seal : BuilderSeal) (units : Z) : Transition := {|
  contract_id := pin_id; transition_type := 8013; t_inputs := [spent_right];
  assignments := {[ 4000 := Fungible [(seal, units)] ]};
  globals := {[ 2010 := [rev (be_split 8 units)] ]};
  metadata := {[ 3000 := rev (be_split 8 95) ]} |}.

Definition fascia_of (tx : Transaction) (id : bytes) (t : Transition) : Fascia := {|
  witness_id := compute_txid tx; witness_tx := tx; mpc_entropy := Some 7;
  bundles := {[ pin_id := {|
    input_map := list_to_map (map (fun o => (o, id)) (t_inputs t));
    known_transitions := [{| known_opid := id; known_transition := t |}] |} ]} |}.

Definition parent_of : Fascia := fascia_of parent_tx parent_opid (propagate first_right [1; 2]).
Definition mint_fascia : Fascia := fascia_of mint_tx child_opid (mint_of (SealConcealed [x05]) 490).
Definition witness_mint_fascia : Fascia := fascia_of witness_mint_tx child_opid (mint_of (our_seal 2) 490).
Definition refill_fascia : Fascia := fascia_of refill_tx child_opid (propagate spent_right [1; 2; 3]).

#[global] Instance sample_rgb : RgbStd := {
  fascia_decode bs :=
    match bs with
    | [x01] => Some parent_of
    | [x02] => Some mint_fascia
    | [x03] => Some witness_mint_fascia
    | [x04] => Some refill_fascia
    | _ => None
    end;
  contract_from_str s := if bool_decide (s = "rgb:asset") then Some pin_id else None;
  contract_to_string _ := "rgb:asset";
  transition_id t := if bool_decide (head (t_inputs t) = Some first_right) then parent_opid else child_opid;
  bundle_id _ := [x0b];
  mpc_commit msgs _ := match msgs with [(_, b)] => Some b | _ => None end;
  opret_verify k _ := bool_decide (k = [x0b]);
  seal_to_string _ := "utxob:seal";
  lock_id_with o txid := take 32 (take 16 o ++ take 16 txid ++ replicate 32 x00)
}.

Definition psbt_of (tx : Transaction) (outs : list PsbtOutput) : Psbt := {|
  unsigned_tx := tx; inputs := [our_input Colored 0 50000]; outputs := foreign_output :: outs |}.

Definition mint_psbt : Psbt := psbt_of mint_tx [our_output Colored 1].
Definition witness_mint_psbt : Psbt := psbt_of witness_mint_tx [our_output Colored 1; foreign_output].
Definition refill_psbt : Psbt :=
  psbt_of refill_tx [our_output Colored 1; our_output Colored 2; our_output Colored 1].

Definition rgb_codec : PsbtCodec := {|
  psbt_deserialize bs :=
    match bs with
    | [x02] => Some mint_psbt
    | [x03] => Some witness_mint_psbt
    | [x04] => Some refill_psbt
    | _ => None
    end;
  psbt_serialize p :=
    concat (map (fun i => match tap_key_sig i with Some s => tap_sig s | None => [] end) (inputs p))
|}.
