(* ===== verification/RgbCommitProps.v ===== *)
(** * What the committed transition and the parent proof guarantee *)

From stdpp Require Import base numbers list gmap strings.
From S2P Require Import Prelude Errors PsbtTypes PsbtKeys PsbtSample RgbCommit RgbSample.

#[local] Open Scope list_scope.
#[local] Open Scope Z_scope.

Section CommitProps.
Context {R : RgbStd} {F : BfaSchema} {B : Bitcoin}.

(** The disclosure of [c] by [f]: one bundle, of the pinned contract, with one
    transition stored under its own id, whose input map closes exactly that
    transition's inputs, all of it committed in the OP_RETURN that hosts the
    transaction's commitment. *)
Record discloses (tx : Transaction) (f : Fascia) (pin : bytes) (c : Committed)
    (bundle : TransitionBundle) : Prop := {
  dis_txid : c_txid c = compute_txid tx;
  dis_witness : witness_id f = compute_txid tx;
  dis_host : assert_opret_host tx = Ok tt;
  dis_bundles : bundles f = {[ pin := bundle ]};
  dis_known : known_transitions bundle = [{| known_opid := opid c; known_transition := transition c |}];
  dis_opid : opid c = transition_id (transition c);
  dis_contract : contract_id (transition c) = pin;
  dis_inputs : dom (input_map bundle) = (list_to_set (t_inputs (transition c)) : gset Opout);
  dis_closes o id : input_map bundle !! o = Some id -> id = opid c;
  dis_commitment : exists entropy k, mpc_entropy f = Some entropy /\
    mpc_commit [(pin, bundle_id bundle)] entropy = Some k /\ opret_verify k tx = true
}.

Lemma pinned_bundle_ok bs pin bundle :
  pinned_bundle bs pin = Ok bundle <-> bs = {[ pin := bundle ]}.
Proof.
  unfold pinned_bundle. split.
  - destruct (map_to_list bs) as [|[cid b] [|]] eqn:E; try done. case_bool_decide as Hc; [|done].
    intros [= ->]. subst cid. apply map_to_list_inj. rewrite E, map_to_list_singleton. done.
  - intros ->. rewrite map_to_list_singleton. by rewrite bool_decide_eq_true_2.
Qed.

Lemma assert_input_map_is_ok bundle t id :
  assert_input_map_is bundle t id = Ok tt <->
  dom (input_map bundle) = (list_to_set (t_inputs t) : gset Opout) /\
  forall o x, input_map bundle !! o = Some x -> x = id.
Proof.
  unfold assert_input_map_is. case_bool_decide as Hd; cbn [negb]; [|split; [done|by intros [? _]]].
  destruct (existsb _ _) eqn:E; split; try done.
  - intros [_ H]. apply existsb_exists in E as ([o x] & Hin & Hx).
    apply list_elem_of_In, elem_of_map_to_list in Hin. apply H in Hin as ->.
    by rewrite bool_decide_eq_true_2 in Hx.
  - intros _. split; [done|]. intros o x Hin. apply elem_of_map_to_list, list_elem_of_In in Hin.
    destruct (decide (x = id)) as [|Hne]; [done|]. exfalso.
    assert (existsb (fun '(_, other) => negb (bool_decide (other = id))) (map_to_list (input_map bundle)) = true)
      as Ht by (apply existsb_exists; exists (o, x); split; [done|]; by rewrite bool_decide_eq_false_2).
    congruence.
Qed.

Lemma committed_transition_ok tx f pin c :
  committed_transition tx f pin = Ok c -> exists bundle, discloses tx f pin c bundle.
Proof.
  unfold committed_transition. case_bool_decide as Hw; [|done]. cbn [negb]. intros H.
  apply rbind_ok in H as ([] & Hhost & H). apply rbind_ok in H as (bundle & Hb & H).
  apply pinned_bundle_ok in Hb. apply rbind_ok in H as ([] & Hc & H).
  apply rbind_ok in H as ([id t] & Hd & H). injection H as <-. exists bundle.
  unfold disclosed_transition in Hd. destruct (known_transitions bundle) as [|k [|]] eqn:Hk; try done.
  case_bool_decide as Hid; [|done]. case_bool_decide as Hpin; [|done]. cbn [negb] in Hd.
  apply rbind_ok in Hd as ([] & Hmap & Hd). injection Hd as <- <-.
  apply assert_input_map_is_ok in Hmap as [Hdom Hvals]. unfold assert_commits_exactly in Hc.
  apply rbind_ok in Hc as (e & He & Hc). apply rbind_ok in Hc as (m & Hm & Hc).
  destruct (opret_verify m tx) eqn:Ev; [|done]. rewrite Hb, map_to_list_singleton in Hm. cbn in Hm.
  destruct (mpc_entropy f) as [e'|] eqn:Ee; [|done]. injection He as ->.
  destruct (mpc_commit _ e) as [m'|] eqn:Em; [|done]. injection Hm as ->.
  split; try done; cbn [opid transition].
  - destruct k as [ko kt]. cbn [known_opid known_transition] in *. by rewrite Hid.
  - by exists e, m.
Qed.

(** ** Rights *)

Lemma single_right_input_ok t o : single_right_input t = Ok o <-> t_inputs t = [o] /\ ty o = OS_MINT.
Proof.
  unfold single_right_input. destruct (t_inputs t) as [|a [|b l]].
  - split; [done|by intros [? _]].
  - destruct (ty a =? OS_MINT) eqn:E; zbool; split; try done; [by intros [= <-]|by intros [[= ->] _]|intros [[= ->] ?]; lia].
  - split; [done|by intros [? _]].
Qed.

Lemma witness_vout_ok seal vout :
  witness_vout (output_seal seal) = Ok vout <->
  exists s, seal = SealRevealed s /\ seal_txid s = None /\ seal_vout s = vout.
Proof.
  destruct seal as [[[txid|] v]|secret]; cbn; split; try done; try (by intros (? & [= <-] & ? & ?)).
  - intros [= ->]. by eexists.
  - by intros (s & [= <-] & _ & <-).
Qed.

(** The spent right: its assignment is alone on [vout] of the parent's tx. *)
Record makes_right (made : Committed) (input : Opout) (vout : Z) : Prop := {
  mr_op : op input = opid made;
  mr_ty : ty input = OS_MINT;
  mr_propagate : transition_type (transition made) = TS_PROPAGATE;
  mr_single : exists o, t_inputs (transition made) = [o] /\ ty o = OS_MINT;
  mr_seal : exists typed s, assignments (transition made) !! OS_MINT = Some typed /\
    seals typed !! Z.to_nat (no input) = Some (SealRevealed s) /\ seal_txid s = None /\ seal_vout s = vout;
  mr_alone t typed n seal : assignments (transition made) !! t = Some typed ->
    seals typed !! n = Some seal -> (t, n) <> (ty input, Z.to_nat (no input)) ->
    seal_outpoint seal (c_txid made) <> Some {| op_txid := c_txid made; op_vout := vout |}
}.

Lemma assert_alone_on_ok made input right :
  assert_alone_on made input right = Ok tt ->
  forall t typed n seal, assignments (transition made) !! t = Some typed ->
    seals typed !! n = Some seal -> (t, n) <> (ty input, Z.to_nat (no input)) ->
    seal_outpoint seal (c_txid made) <> Some right.
Proof.
  unfold assert_alone_on. destruct (existsb _ _) eqn:E; [done|]. intros _ t typed n seal Ht Hn Hne Hs.
  apply not_true_iff_false in E. apply E, existsb_exists. exists (t, typed). split.
  { by apply list_elem_of_In, elem_of_map_to_list. }
  apply existsb_exists. exists (n, seal). split.
  - apply list_elem_of_In, list_elem_of_lookup. exists n. by rewrite list_lookup_imap, Hn.
  - rewrite (bool_decide_eq_false_2 _ Hne), (bool_decide_eq_true_2 _ Hs). done.
Qed.

Lemma right_vout_ok made input vout : right_vout made input = Ok vout -> makes_right made input vout.
Proof.
  unfold right_vout. case_bool_decide as Hop; [|done]. destruct (ty input =? OS_MINT) eqn:Ety; [|done].
  cbn [negb orb]. destruct (_ =? TS_PROPAGATE) eqn:Ep; [|done]. cbn [negb]. intros H. zbool.
  apply rbind_ok in H as (o & Ho & H). apply single_right_input_ok in Ho.
  apply rbind_ok in H as (seal & Hseal & H). apply rbind_ok in H as (v & Hv & H).
  apply rbind_ok in H as ([] & Ha & H). injection H as ->. rewrite Ety in Hseal.
  apply witness_vout_ok in Hv as (s & -> & Hs1 & Hs2).
  destruct (assignments (transition made) !! OS_MINT) as [typed|] eqn:Et; [|done]. cbn in Hseal.
  unfold seal_at in Hseal. destruct (seals typed !! _) as [q|] eqn:Eq; [|done]. injection Hseal as ->.
  split; try done; [by exists o|by exists typed, s|]. by apply assert_alone_on_ok.
Qed.

Lemma spending_input_ok psbt right i :
  spending_input psbt right = Ok i <->
  (exists txin, tx_input (unsigned_tx psbt) !! i = Some txin /\ previous_output txin = right) /\
  forall j txin, tx_input (unsigned_tx psbt) !! j = Some txin -> previous_output txin = right -> j = i.
Proof.
  unfold spending_input. set (L := filter _ _).
  assert (HL : forall j, j ∈ L <-> exists txin, tx_input (unsigned_tx psbt) !! j = Some txin /\ previous_output txin = right).
  { intros j. unfold L. rewrite list_elem_of_filter, elem_of_seq. unfold spends_outpoint.
    destruct (tx_input (unsigned_tx psbt) !! j) as [txin|] eqn:E.
    - apply lookup_lt_Some in E. rewrite Is_true_true, bool_decide_eq_true. split.
      + intros [H _]. by exists txin.
      + intros (? & [= <-] & H). split; [done|lia].
    - split; [by intros [[] _]|by intros (? & ? & _)]. }
  assert (Hnd : NoDup L) by (apply NoDup_filter, NoDup_seq). clearbody L. split.
  - destruct L as [|a [|b l]]; try done. intros [= ->]. split; [apply HL, list_elem_of_here|].
    intros j txin H1 H2. assert (Hj : j ∈ [i]) by (apply HL; by exists txin). by apply list_elem_of_singleton in Hj.
  - intros [Hi Hu]. apply HL in Hi. assert (Hall : forall j, j ∈ L -> j = i).
    { intros j Hj. apply HL in Hj as (txin & H1 & H2). by eapply Hu. }
    destruct L as [|a [|b l]]; [by apply not_elem_of_nil in Hi| |].
    + by rewrite (Hall a (list_elem_of_here _ _)).
    + exfalso. apply NoDup_cons in Hnd as [Hab _]. apply Hab.
      rewrite (Hall a (list_elem_of_here _ _)), <- (Hall b); [apply list_elem_of_here|].
      apply list_elem_of_further, list_elem_of_here.
Qed.

Lemma right_input_ok psbt pf input pin i :
  right_input psbt pf input pin = Ok i ->
  exists parent made vout, parse_fascia pf = Ok parent /\
    committed_transition (witness_tx parent) parent pin = Ok made /\ makes_right made input vout /\
    spending_input psbt {| op_txid := c_txid made; op_vout := vout |} = Ok i.
Proof.
  unfold right_input. intros H. apply rbind_ok in H as (parent & Hp & H).
  apply rbind_ok in H as (made & Hm & H). apply rbind_ok in H as (vout & Hv & H).
  exists parent, made, vout. split_and!; try done. by apply right_vout_ok.
Qed.

(** Input [i], and no other, spends the right [input] of the contract [pin]: the parent
    fascia discloses the one transition its witness transaction commits, this
    transition made the right alone on an output, and the outpoint is that output. *)
Definition spends_right (psbt : Psbt) (pf : bytes) (pin : bytes) (input : Opout) (i : nat) : Prop :=
  exists parent made bundle vout, parse_fascia pf = Ok parent /\
    discloses (witness_tx parent) parent pin made bundle /\ makes_right made input vout /\
    let spent := {| op_txid := c_txid made; op_vout := vout |} in
    (exists txin, tx_input (unsigned_tx psbt) !! i = Some txin /\ previous_output txin = spent) /\
    forall j txin, tx_input (unsigned_tx psbt) !! j = Some txin -> previous_output txin = spent -> j = i.

Lemma right_input_spends psbt pf input pin i : right_input psbt pf input pin = Ok i -> spends_right psbt pf pin input i.
Proof.
  intros (parent & made & vout & Hp & Hm & Hr & Hs)%right_input_ok.
  apply committed_transition_ok in Hm as (bundle & D). apply spending_input_ok in Hs as [Hi Hs].
  by exists parent, made, bundle, vout.
Qed.

Lemma makes_right_unique m1 m2 input v1 v2 :
  makes_right m1 input v1 -> makes_right m2 input v2 -> transition m1 = transition m2 -> v1 = v2.
Proof.
  intros H1 H2 Ht. destruct (mr_seal _ _ _ H1) as (ty1 & s1 & Ha1 & Hs1 & _ & Hv1).
  destruct (mr_seal _ _ _ H2) as (ty2 & s2 & Ha2 & Hs2 & _ & Hv2).
  rewrite Ht, Ha2 in Ha1. injection Ha1 as ->. rewrite Hs1 in Hs2. injection Hs2 as ->. congruence.
Qed.
End CommitProps.

(** The transaction fixes the transition.  Two fascias accepted for one
    transaction and contract disclose the same transition under the same id,
    when an OP_RETURN verifies one commitment only and the commitment tree, the
    bundle id and the transition id do not collide on the two fascias. *)
Theorem committed_transition_unique {R : RgbStd} {F : BfaSchema} {B : Bitcoin}
    (tx : Transaction) (f1 f2 : Fascia) (pin : bytes) (c1 c2 : Committed) :
  committed_transition tx f1 pin = Ok c1 -> committed_transition tx f2 pin = Ok c2 ->
  t_inputs (transition c1) <> [] ->
  (forall k1 k2, opret_verify k1 tx = true -> opret_verify k2 tx = true -> k1 = k2) ->
  (forall b1 b2 e1 e2 k, bundles f1 !! pin = Some b1 -> bundles f2 !! pin = Some b2 ->
     mpc_commit [(pin, bundle_id b1)] e1 = Some k -> mpc_commit [(pin, bundle_id b2)] e2 = Some k ->
     input_map b1 = input_map b2) ->
  (transition_id (transition c1) = transition_id (transition c2) -> transition c1 = transition c2) ->
  c1 = c2.
Proof.
  intros H1 H2 Hne Hopret Hmpc Hid. apply committed_transition_ok in H1 as (b1 & D1).
  apply committed_transition_ok in H2 as (b2 & D2).
  destruct (dis_commitment _ _ _ _ _ D1) as (e1 & k1 & _ & Hm1 & Hv1).
  destruct (dis_commitment _ _ _ _ _ D2) as (e2 & k2 & _ & Hm2 & Hv2).
  rewrite (Hopret k2 k1) in Hm2 by done.
  assert (Emap : input_map b1 = input_map b2).
  { apply (Hmpc b1 b2 e1 e2 k1); try done.
    - rewrite (dis_bundles _ _ _ _ _ D1). apply lookup_singleton_eq.
    - rewrite (dis_bundles _ _ _ _ _ D2). apply lookup_singleton_eq. }
  destruct (t_inputs (transition c1)) as [|o l] eqn:Ei; [done|].
  assert (Ho : o ∈ dom (input_map b1)) by (rewrite (dis_inputs _ _ _ _ _ D1), Ei; set_solver).
  apply elem_of_dom in Ho as [id Ho]. pose proof (dis_closes _ _ _ _ _ D1 _ _ Ho) as Hi1.
  rewrite Emap in Ho. pose proof (dis_closes _ _ _ _ _ D2 _ _ Ho) as Hi2.
  assert (Et : transition c1 = transition c2).
  { apply Hid. rewrite <- (dis_opid _ _ _ _ _ D1), <- (dis_opid _ _ _ _ _ D2). congruence. }
  destruct c1, c2. cbn in *. pose proof (dis_txid _ _ _ _ _ D1). pose proof (dis_txid _ _ _ _ _ D2).
  cbn in *. congruence.
Qed.

Definition mint_committed : Committed := {|
  c_txid := compute_txid mint_tx; opid := child_opid; transition := mint_of (SealConcealed [x05]) 490 |}.

Lemma committed_transition_unique_witness :
  committed_transition mint_tx mint_fascia pin_id = Ok mint_committed /\ mint_committed = mint_committed.
Proof.
  assert (H : committed_transition mint_tx mint_fascia pin_id = Ok mint_committed) by by vm_compute.
  split; [exact H|]. apply (committed_transition_unique mint_tx mint_fascia mint_fascia pin_id _ _ H H).
  - cbn. discriminate.
  - intros k1 k2 H1%bool_decide_eq_true H2%bool_decide_eq_true. congruence.
  - intros b1 b2 e1 e2 k H1 H2 _ _. rewrite H1 in H2. by injection H2 as <-.
  - intros _. reflexivity.
Defined.

(** One right, one outpoint.  Two PSBTs accepted against the same right
    and the same parent transaction each have exactly one input that spends the
    right's UTXO, and it is the same UTXO, on which the parent put no other
    revealed assignment; so at most one of the two transactions confirms.  The
    transition id is assumed not to collide on the two disclosed parents. *)
Theorem right_input_conflict {R : RgbStd} {F : BfaSchema} {B : Bitcoin}
    (p1 p2 : Psbt) (pf1 pf2 : bytes) (input : Opout) (pin : bytes) (i1 i2 : nat) :
  right_input p1 pf1 input pin = Ok i1 -> right_input p2 pf2 input pin = Ok i2 ->
  (forall f1 f2, parse_fascia pf1 = Ok f1 -> parse_fascia pf2 = Ok f2 ->
     compute_txid (witness_tx f1) = compute_txid (witness_tx f2)) ->
  (forall f1 f2 c1 c2, parse_fascia pf1 = Ok f1 -> parse_fascia pf2 = Ok f2 ->
     committed_transition (witness_tx f1) f1 pin = Ok c1 ->
     committed_transition (witness_tx f2) f2 pin = Ok c2 ->
     transition_id (transition c1) = transition_id (transition c2) -> transition c1 = transition c2) ->
  exists outpoint t1 t2, tx_input (unsigned_tx p1) !! i1 = Some t1 /\
    tx_input (unsigned_tx p2) !! i2 = Some t2 /\
    previous_output t1 = outpoint /\ previous_output t2 = outpoint /\
    (forall j t, tx_input (unsigned_tx p1) !! j = Some t -> previous_output t = outpoint -> j = i1) /\
    exists made vout, outpoint = {| op_txid := c_txid made; op_vout := vout |} /\ makes_right made input vout.
Proof.
  intros H1 H2 Htx Hid. apply right_input_ok in H1 as (f1 & m1 & v1 & Hf1 & Hc1 & Hr1 & Hs1).
  apply right_input_ok in H2 as (f2 & m2 & v2 & Hf2 & Hc2 & Hr2 & Hs2).
  pose proof (committed_transition_ok _ _ _ _ Hc1) as (b1 & D1).
  pose proof (committed_transition_ok _ _ _ _ Hc2) as (b2 & D2).
  assert (Et : transition m1 = transition m2).
  { apply (Hid f1 f2 m1 m2 Hf1 Hf2 Hc1 Hc2). rewrite <- (dis_opid _ _ _ _ _ D1), <- (dis_opid _ _ _ _ _ D2).
    by rewrite <- (mr_op _ _ _ Hr1), <- (mr_op _ _ _ Hr2). }
  assert (Ex : c_txid m1 = c_txid m2).
  { rewrite (dis_txid _ _ _ _ _ D1), (dis_txid _ _ _ _ _ D2). by apply Htx. }
  rewrite <- Ex, <- (makes_right_unique _ _ _ _ _ Hr1 Hr2 Et) in Hs2.
  apply spending_input_ok in Hs1 as [(t1 & Ht1 & Hp1) Hu1], Hs2 as [(t2 & Ht2 & Hp2) _].
  exists {| op_txid := c_txid m1; op_vout := v1 |}, t1, t2. split_and!; try done. by exists m1, v1.
Qed.

Lemma right_input_conflict_witness :
  right_input mint_psbt [x01] spent_right pin_id = Ok 0%nat /\
  right_input refill_psbt [x01] spent_right pin_id = Ok 0%nat /\
  exists outpoint t1 t2, tx_input (unsigned_tx mint_psbt) !! 0%nat = Some t1 /\
    tx_input (unsigned_tx refill_psbt) !! 0%nat = Some t2 /\
    previous_output t1 = outpoint /\ previous_output t2 = outpoint.
Proof.
  assert (H1 : right_input mint_psbt [x01] spent_right pin_id = Ok 0%nat) by by vm_compute.
  assert (H2 : right_input refill_psbt [x01] spent_right pin_id = Ok 0%nat) by by vm_compute.
  split; [exact H1|]. split; [exact H2|].
  destruct (right_input_conflict mint_psbt refill_psbt [x01] [x01] spent_right pin_id 0 0 H1 H2)
    as (o & t1 & t2 & Ht1 & Ht2 & Ho1 & Ho2 & _).
  - intros f1 f2 Hf1 Hf2. rewrite Hf1 in Hf2. by injection Hf2 as <-.
  - intros f1 f2 c1 c2 Hf1 Hf2 Hc1 Hc2 _. rewrite Hf1 in Hf2. injection Hf2 as <-.
    rewrite Hc1 in Hc2. by injection Hc2 as <-.
  - exists o, t1, t2. split; [exact Ht1|]. split; [exact Ht2|]. split; [exact Ho1|exact Ho2].
Defined.
