(* ===== verification/GasTx.v ===== *)
(** * The gas-transaction allowlist (src/enclave/src/networks/evm/gas_tx.rs)

    [parse_gas_tx] and [validate_gas_tx_request], against a description of the
    two accepted envelopes and of the operator's policy.  [keccak256] is a
    parameter. *)

From stdpp Require Import strings sorting base numbers list.
From S2P Require Import Prelude Errors Lengths Rlp.

#[local] Open Scope list_scope.
#[local] Open Scope Z_scope.

Definition TX_TYPE_EIP1559 : byte := x02.
Definition ONCHAIN_LZ_FUNDS_OUT_CALL_SELECTOR : bytes := [x8f; x6b; x30; x31].
Definition MAX_GAS_TX_BYTES : Z := 1024 * 1024.

Record GasTx : Type := {
  chain_id : Z;
  to : bytes;
  value : Z;
  gas_limit : Z;
  max_fee_per_gas : Z;
  max_priority_fee_per_gas : Z;
  selector : option bytes;
  data : bytes
}.

(** The pins of [BridgeConfig] the gas path reads. *)
Record GasTxPins : Type := {
  cfg_chain_id : Z;
  cfg_bridge_contract : bytes;
  gas_tx_allowed_to : option bytes;
  gas_tx_max_gas_limit : Z;
  gas_tx_max_fee_per_gas : Z;
  gas_tx_allowed_selectors : list bytes;
  gas_tx_max_value_wei : option Z
}.

Record SignRawDigestRequest : Type := {
  req_digest : bytes;
  unsigned_tx : bytes
}.

(** ** Fields *)

Definition as_list (item : Rlp) : enclave_result (list Rlp) :=
  match item with
  | RList v => Ok v
  | Str _ => Err (reject "rlp: expected a list, found a string")
  end.

Definition as_bytes (item : Rlp) : enclave_result bytes :=
  match item with
  | Str s => Ok s
  | RList _ => Err (reject "rlp: expected a byte string, found a list")
  end.

Definition as_scalar (item : Rlp) : enclave_result bytes :=
  match item with
  | Str s =>
      if bool_decide (head s = Some x00) then
        Err (reject "rlp: non-canonical scalar (leading zero)")
      else Ok s
  | RList _ => Err (reject "rlp: expected a scalar, found a list")
  end.

(** [v = (v << 8) | b], at a width of [w] bits. *)
Definition shift_in (w : Z) (s : bytes) : Z :=
  fold_left (fun v b => Z.lor (Z.shiftl v 8 mod 2 ^ w) (b2z b)) s 0.

Definition scalar_u64 (item : Rlp) : enclave_result Z :=
  let? s := as_scalar item in
  if 8 <? zlen s then Err (reject "rlp: integer exceeds u64") else Ok (shift_in 64 s).

Definition scalar_u128 (item : Rlp) : enclave_result Z :=
  let? s := as_scalar item in
  if 16 <? zlen s then
    Err (reject "gas tx: integer exceeds u128 (far above any pinnable ceiling)")
  else Ok (shift_in 128 s).

Definition scalar_is_zero (item : Rlp) : enclave_result bool :=
  let? s := as_scalar item in Ok (zlen s =? 0).

Definition as_address (item : Rlp) : enclave_result bytes :=
  match item with
  | Str s =>
      if zlen s =? 20 then Ok s
      else if zlen s =? 0 then
        Err (reject "gas tx: contract creation (empty to) is not allowed for the gas key")
      else Err (reject "gas tx: to must be a 20-byte address")
  | RList _ => Err (reject "rlp: expected an address string, found a list")
  end.

Definition as_calldata_selector (item : Rlp) : enclave_result (option bytes) :=
  match item with
  | Str s =>
      if zlen s =? 0 then Ok None
      else if 4 <=? zlen s then Ok (Some (take 4 s))
      else Err (reject "gas tx: calldata is shorter than a 4-byte function selector")
  | RList _ => Err (reject "rlp: expected calldata string, found a list")
  end.

(** [parse_gas_tx]. *)
Definition parse_gas_tx (raw : bytes) : enclave_result GasTx :=
  let? first := ok_or (head raw) (reject "gas tx: empty unsigned_tx") in
  if bool_decide (first = TX_TYPE_EIP1559) then
    let? body := decode_canonical (drop 1 raw) in
    let? items := as_list body in
    match items with
    | [i0; i1; i2; i3; i4; i5; i6; i7; i8] =>
        let? chain := scalar_u64 i0 in
        let? prio := scalar_u128 i2 in
        let? fee := scalar_u128 i3 in
        let? gas := scalar_u64 i4 in
        let? dest := as_address i5 in
        let? v := scalar_u128 i6 in
        let? sel := as_calldata_selector i7 in
        let? d := as_bytes i7 in
        Ok {| chain_id := chain; to := dest; value := v; gas_limit := gas;
              max_fee_per_gas := fee; max_priority_fee_per_gas := prio;
              selector := sel; data := d |}
    | _ => Err (reject "gas tx: EIP-1559 unsigned tx must have 9 fields")
    end
  else if 0xc0 <=? b2z first then
    let? body := decode_canonical raw in
    let? items := as_list body in
    match items with
    | [i0; i1; i2; i3; i4; i5; i6; i7; i8] =>
        let? r_zero := scalar_is_zero i7 in
        let? trailer_ok := if r_zero then scalar_is_zero i8 else Ok false in
        if negb trailer_ok then
          Err (reject "gas tx: legacy EIP-155 trailer must be (chainId, 0, 0)")
        else
          let? gas_price := scalar_u128 i1 in
          let? chain := scalar_u64 i6 in
          let? gas := scalar_u64 i2 in
          let? dest := as_address i3 in
          let? v := scalar_u128 i4 in
          let? sel := as_calldata_selector i5 in
          let? d := as_bytes i5 in
          Ok {| chain_id := chain; to := dest; value := v; gas_limit := gas;
                max_fee_per_gas := gas_price; max_priority_fee_per_gas := gas_price;
                selector := sel; data := d |}
    | _ => Err (reject "gas tx: legacy EIP-155 unsigned tx must have 9 fields")
    end
  else Err (reject "gas tx: unsupported envelope").

(** ** The policy *)

(** The LayerZero carve-out for a non-zero value. *)
Definition check_value (tx : GasTx) (cfg : GasTxPins) : enclave_result unit :=
  if value tx =? 0 then Ok tt
  else if negb (bool_decide (take 4 (data tx) = ONCHAIN_LZ_FUNDS_OUT_CALL_SELECTOR)) then
    Err (reject "gas tx: value must be 0 unless calldata is the payable lzFundsOutCall")
  else if bool_decide (cfg_bridge_contract cfg = replicate 20 x00) then
    Err (reject "gas tx: non-zero value requires a pinned EVM_PROXY_CONTRACT_ADDRESS")
  else if negb (bool_decide (to tx = cfg_bridge_contract cfg)) then
    Err (reject "gas tx: non-zero value is only allowed to the pinned MultisigProxy")
  else
    let? max := ok_or (gas_tx_max_value_wei cfg)
      (reject "gas tx: non-zero value requires a pinned ceiling") in
    if max <? value tx then Err (reject "gas tx: value exceeds pinned GAS_TX_MAX_VALUE_WEI")
    else Ok tt.

Section Validate.
Variable keccak256 : bytes -> bytes.

Definition validate_gas_tx_request (req : SignRawDigestRequest) (cfg : GasTxPins)
    : enclave_result bytes :=
  if zlen (unsigned_tx req) =? 0 then
    Err (reject "gas tx signing requires the unsigned transaction preimage")
  else if MAX_GAS_TX_BYTES <? zlen (unsigned_tx req) then
    Err (reject "gas tx: unsigned_tx is too large")
  else
    let? tx := parse_gas_tx (unsigned_tx req) in
    if cfg_chain_id cfg =? 0 then Err (reject "gas tx: chain_id not pinned")
    else if negb (chain_id tx =? cfg_chain_id cfg) then Err (reject "gas tx: chain_id != pinned")
    else
      let? allowed := ok_or (gas_tx_allowed_to cfg) (reject "gas tx: destination not pinned") in
      if negb (bool_decide (to tx = allowed)) then Err (reject "gas tx: destination != pinned")
      else
        let? _ := check_value tx cfg in
        if gas_tx_max_gas_limit cfg =? 0 then Err (reject "gas tx: gas-limit cap not pinned")
        else if gas_tx_max_fee_per_gas cfg =? 0 then Err (reject "gas tx: fee cap not pinned")
        else if gas_tx_max_gas_limit cfg <? gas_limit tx then
          Err (reject "gas tx: gasLimit exceeds pinned cap")
        else if gas_tx_max_fee_per_gas cfg <? max_fee_per_gas tx then
          Err (reject "gas tx: maxFeePerGas exceeds pinned cap")
        else if gas_tx_max_fee_per_gas cfg <? max_priority_fee_per_gas tx then
          Err (reject "gas tx: maxPriorityFeePerGas exceeds pinned cap")
        else
          let? _ :=
            match selector tx with
            | Some s =>
                if bool_decide (s ∈ gas_tx_allowed_selectors cfg) then Ok tt
                else Err (reject "gas tx: calldata selector is not in the operator allowlist")
            | None => Err (reject "gas tx: empty calldata is not permitted")
            end in
          let digest := keccak256 (unsigned_tx req) in
          if negb (zlen (req_digest req) =? 0) && negb (bool_decide (req_digest req = digest)) then
            Err (reject "gas tx: supplied digest does not match keccak256(unsigned_tx)")
          else Ok digest.

End Validate.

(** ** Reference: the envelopes and the policy *)

(** The canonical item of an integer. *)
Definition scalar_item (v : Z) : Rlp := Str (if v =? 0 then [] else len_bytes v).

(** The unsigned bodies of EIP-1559 and EIP-155, with the nonce (and the access
    list) that the allowlist does not read. *)
Definition eip1559_body (tx : GasTx) (nonce access : Rlp) : Rlp :=
  RList [scalar_item (chain_id tx); nonce; scalar_item (max_priority_fee_per_gas tx);
         scalar_item (max_fee_per_gas tx); scalar_item (gas_limit tx); Str (to tx);
         scalar_item (value tx); Str (data tx); access].

Definition legacy_body (tx : GasTx) (nonce : Rlp) : Rlp :=
  RList [nonce; scalar_item (max_fee_per_gas tx); scalar_item (gas_limit tx); Str (to tx);
         scalar_item (value tx); Str (data tx); scalar_item (chain_id tx); Str []; Str []].

Definition rlp_bounded (r : Rlp) : Prop :=
  (rlp_depth r <= MAX_RLP_DEPTH)%nat /\ rlp_items r <= MAX_RLP_ITEMS.

Record gas_tx_wf (tx : GasTx) : Prop := {
  gw_chain : is_u64 (chain_id tx);
  gw_gas : is_u64 (gas_limit tx);
  gw_fee : is_u128 (max_fee_per_gas tx);
  gw_prio : is_u128 (max_priority_fee_per_gas tx);
  gw_value : is_u128 (value tx);
  gw_to : zlen (to tx) = 20;
  gw_data : zlen (data tx) = 0 \/ 4 <= zlen (data tx);
  gw_selector : selector tx = if zlen (data tx) =? 0 then None else Some (take 4 (data tx))
}.

(** [raw] is the signing preimage of [tx]. *)
Definition gas_preimage (tx : GasTx) (raw : bytes) : Prop :=
  gas_tx_wf tx /\
  ((exists nonce access, rlp_bounded (eip1559_body tx nonce access) /\
      raw = TX_TYPE_EIP1559 :: rlp_encode (eip1559_body tx nonce access)) \/
   (exists nonce, rlp_bounded (legacy_body tx nonce) /\
      max_priority_fee_per_gas tx = max_fee_per_gas tx /\
      raw = rlp_encode (legacy_body tx nonce))).

(** What the operator's pins allow. *)
Record gas_allowed (cfg : GasTxPins) (tx : GasTx) : Prop := {
  ga_chain : chain_id tx = cfg_chain_id cfg /\ cfg_chain_id cfg <> 0;
  ga_to : gas_tx_allowed_to cfg = Some (to tx);
  ga_value : value tx <> 0 ->
    selector tx = Some ONCHAIN_LZ_FUNDS_OUT_CALL_SELECTOR /\
    to tx = cfg_bridge_contract cfg /\ cfg_bridge_contract cfg <> replicate 20 x00 /\
    exists max, gas_tx_max_value_wei cfg = Some max /\ value tx <= max;
  ga_gas : gas_limit tx <= gas_tx_max_gas_limit cfg /\ gas_tx_max_gas_limit cfg <> 0;
  ga_fee : max_fee_per_gas tx <= gas_tx_max_fee_per_gas cfg /\
           max_priority_fee_per_gas tx <= gas_tx_max_fee_per_gas cfg /\
           gas_tx_max_fee_per_gas cfg <> 0;
  ga_selector : exists s, selector tx = Some s /\ s ∈ gas_tx_allowed_selectors cfg
}.

(** ** Scalars *)

Lemma lor_byte v b : 0 <= v -> Z.lor (Z.shiftl v 8) (b2z b) = v * 256 + b2z b.
Proof.
  intros Hv. pose proof (b2z_range b).
  pose proof (Z.add_lor_land (Z.shiftl v 8) (b2z b)) as Hadd.
  assert (Hland : Z.land (Z.shiftl v 8) (b2z b) = 0).
  { apply Z.bits_inj'. intros n Hn. rewrite Z.land_spec, Z.bits_0.
    destruct (decide (n < 8)).
    - by rewrite Z.shiftl_spec_low.
    - rewrite andb_comm, (Z.bits_above_log2 (b2z b)); [done|lia|].
      destruct (decide (b2z b = 0)) as [->|]; [cbn; lia|].
      apply Z.lt_le_trans with 8; [|lia]. apply Z.log2_lt_pow2; lia. }
  rewrite Hland, Z.shiftl_mul_pow2 in Hadd by lia. rewrite Z.shiftl_mul_pow2 by lia. lia.
Qed.

Lemma shift_in_ok m s : 0 <= m -> zlen s <= m -> shift_in (8 * m) s = be_combine s.
Proof.
  intros Hm. unfold shift_in, be_combine.
  assert (H : forall s v, 0 <= v -> v < 256 ^ (m - zlen s) -> zlen s <= m ->
    fold_left (fun v b => Z.lor (Z.shiftl v 8 mod 2 ^ (8 * m)) (b2z b)) s v =
    fold_left (fun v b => v * 256 + b2z b) s v).
  { clear s. induction s as [|b s IH]; intros v Hv Hb Hl; [done|]. cbn [fold_left].
    rewrite zlen_cons in *. pose proof (b2z_range b). pose proof (zlen_nonneg s).
    assert (Hp : 256 ^ (m - zlen s) = 256 ^ (m - (1 + zlen s)) * 256).
    { replace (m - zlen s) with (1 + (m - (1 + zlen s))) by lia.
      rewrite Z.pow_add_r by lia. lia. }
    assert (Hle : 256 ^ (m - zlen s) <= 256 ^ m) by (apply Z.pow_le_mono_r; lia).
    assert (Hw : 2 ^ (8 * m) = 256 ^ m) by (rewrite Z.pow_mul_r by lia; done).
    rewrite Z.mod_small, lor_byte by (rewrite ?Z.shiftl_mul_pow2 by lia; change (2 ^ 8) with 256; lia).
    apply IH; lia. }
  intros Hl. apply H; [done| |done]. apply Z.pow_pos_nonneg; lia.
Qed.

Lemma as_scalar_ok item s : as_scalar item = Ok s <-> item = Str s /\ head s <> Some x00.
Proof.
  destruct item as [s'|l]; cbn [as_scalar]; [|split; [done|by intros [? _]]].
  case_bool_decide; split; try done; [by intros [[= ->] ?]|by intros [= ->]|by intros [[= ->] _]].
Qed.

(** A scalar of at most [m] bytes is the canonical item of its value. *)
Lemma scalar_canonical m item v :
  0 <= m ->
  (exists s, as_scalar item = Ok s /\ zlen s <= m /\ be_combine s = v) <->
  item = scalar_item v /\ 0 <= v < 256 ^ m.
Proof.
  intros Hm. split.
  - intros (s & [-> Hh]%as_scalar_ok & Hz & <-). pose proof (be_combine_bound s) as Hb.
    assert (256 ^ zlen s <= 256 ^ m) by (apply Z.pow_le_mono_r; lia).
    split; [|lia]. unfold scalar_item. f_equal. destruct (be_combine s =? 0) eqn:E; zbool.
    + destruct s as [|b s]; [done|]. exfalso. apply Hh. cbn. f_equal. apply b2z_inj.
      rewrite be_combine_cons in E. pose proof (be_combine_bound s). pose proof (b2z_range b).
      pose proof (Z.pow_pos_nonneg 256 (zlen s) eq_refl (zlen_nonneg s)). change (b2z x00) with 0. nia.
    + symmetry. apply len_bytes_unique; [by intros ->|done].
  - intros [-> Hv]. unfold scalar_item. destruct (v =? 0) eqn:E; zbool.
    + exists []. subst v. by rewrite as_scalar_ok.
    + destruct (len_bytes_gen m v Hm) as (Hz & Hc & Hh); [lia|].
      exists (len_bytes v). rewrite as_scalar_ok. split; [done|]. split; [lia|done].
Qed.

Lemma scalar_u64_ok item v : scalar_u64 item = Ok v <-> item = scalar_item v /\ is_u64 v.
Proof.
  unfold is_u64. change (2 ^ 64) with (256 ^ 8). rewrite <- scalar_canonical by lia.
  unfold scalar_u64. rewrite rbind_ok. apply exist_proper. intros s.
  destruct (8 <? zlen s) eqn:E; zbool; [split; [by intros [_ ?]|intros (_ & ? & _); lia]|].
  change 64 with (8 * 8). rewrite shift_in_ok by lia.
  split; [intros [H [= <-]]; done|]. by intros (? & _ & <-).
Qed.

Lemma scalar_u128_ok item v : scalar_u128 item = Ok v <-> item = scalar_item v /\ is_u128 v.
Proof.
  unfold is_u128. change (2 ^ 128) with (256 ^ 16). rewrite <- scalar_canonical by lia.
  unfold scalar_u128. rewrite rbind_ok. apply exist_proper. intros s.
  destruct (16 <? zlen s) eqn:E; zbool; [split; [by intros [_ ?]|intros (_ & ? & _); lia]|].
  change 128 with (8 * 16). rewrite shift_in_ok by lia.
  split; [intros [H [= <-]]; done|]. by intros (? & _ & <-).
Qed.

Lemma scalar_is_zero_ok item : scalar_is_zero item = Ok true <-> item = Str [].
Proof.
  unfold scalar_is_zero. rewrite rbind_ok. split.
  - intros (s & [-> _]%as_scalar_ok & H). injection H as H. zbool. by destruct s.
  - intros ->. by exists [].
Qed.

Lemma as_address_ok item a : as_address item = Ok a <-> item = Str a /\ zlen a = 20.
Proof.
  destruct item as [s|l]; cbn [as_address]; [|split; [done|by intros [? _]]].
  destruct (zlen s =? 20) eqn:E; zbool.
  - split; [by intros [= ->]|by intros [[= ->] _]].
  - split; [by case_match|by intros [[= ->] ?]].
Qed.

Lemma as_bytes_ok item d : as_bytes item = Ok d <-> item = Str d.
Proof. destruct item; cbn; split; congruence. Qed.

Lemma as_list_ok item l : as_list item = Ok l <-> item = RList l.
Proof. destruct item; cbn; split; congruence. Qed.

(** The calldata and its selector. *)
Definition calldata_ok (sel : option bytes) (d : bytes) : Prop :=
  (zlen d = 0 \/ 4 <= zlen d) /\ sel = if zlen d =? 0 then None else Some (take 4 d).

Lemma as_calldata_ok item sel d :
  as_calldata_selector item = Ok sel /\ as_bytes item = Ok d <-> item = Str d /\ calldata_ok sel d.
Proof.
  rewrite as_bytes_ok. unfold calldata_ok. split.
  - intros [H ->]. split; [done|]. cbn in H. destruct (zlen d =? 0) eqn:E; zbool.
    + injection H as <-. auto.
    + destruct (4 <=? zlen d) eqn:E4; zbool; [|done]. injection H as <-. auto.
  - intros (-> & Hd & ->). split; [|done]. cbn. destruct (zlen d =? 0) eqn:E; zbool; [done|].
    rewrite (proj2 (Z.leb_le _ _)); [done|lia].
Qed.

(** ** Parsing *)

Ltac bind_ok H :=
  let v := fresh "v" in let E := fresh "E" in
  apply rbind_ok in H as (v & E & H).

Lemma parse_1559_sound tl tx :
  zlen tl + 9 < 2 ^ 64 -> parse_gas_tx (TX_TYPE_EIP1559 :: tl) = Ok tx ->
  gas_tx_wf tx /\ exists nonce access,
    rlp_bounded (eip1559_body tx nonce access) /\ rlp_encode (eip1559_body tx nonce access) = tl.
Proof.
  intros Hz H. unfold parse_gas_tx in H. cbn [head ok_or rbind] in H.
  rewrite bool_decide_eq_true_2 in H by done.
  change (drop 1 (TX_TYPE_EIP1559 :: tl)) with tl in H.
  apply rbind_ok in H as (body & Hd & H). apply rbind_ok in H as (items & Hl & H).
  apply decode_canonical_ok in Hd as (He & Hdep & Hit); [|done]. apply as_list_ok in Hl. subst body.
  destruct items as [|i0 [|i1 [|i2 [|i3 [|i4 [|i5 [|i6 [|i7 [|i8 [|]]]]]]]]]]; try done.
  do 8 bind_ok H. injection H as <-.
  apply scalar_u64_ok in E as [-> ?], E2 as [-> ?]. apply scalar_u128_ok in E0 as [-> ?], E1 as [-> ?],
    E4 as [-> ?]. apply as_address_ok in E3 as [-> ?].
  destruct (proj1 (as_calldata_ok i7 v5 v6) (conj E5 E6)) as (-> & Hc & ->).
  split; [by constructor|]. by exists i1, i8.
Qed.

Lemma parse_legacy_sound raw b tl tx :
  raw = b :: tl -> b <> TX_TYPE_EIP1559 -> zlen raw + 9 < 2 ^ 64 ->
  parse_gas_tx raw = Ok tx ->
  gas_tx_wf tx /\ max_priority_fee_per_gas tx = max_fee_per_gas tx /\ exists nonce,
    rlp_bounded (legacy_body tx nonce) /\ rlp_encode (legacy_body tx nonce) = raw.
Proof.
  intros -> Hb Hz H. unfold parse_gas_tx in H. cbn [head ok_or rbind] in H.
  rewrite bool_decide_eq_false_2 in H by done. destruct (0xc0 <=? b2z b); [|done].
  apply rbind_ok in H as (body & Hd & H). apply rbind_ok in H as (items & Hl & H).
  apply decode_canonical_ok in Hd as (He & Hdep & Hit); [|done]. apply as_list_ok in Hl. subst body.
  destruct items as [|i0 [|i1 [|i2 [|i3 [|i4 [|i5 [|i6 [|i7 [|i8 [|]]]]]]]]]]; try done.
  apply rbind_ok in H as (rz & Hrz & H). apply rbind_ok in H as (tr & Htr & H).
  destruct rz; [|by injection Htr as <-]. destruct tr; [|done]. cbn [negb] in H.
  apply scalar_is_zero_ok in Hrz, Htr. subst i7 i8.
  do 7 bind_ok H. injection H as <-.
  apply scalar_u128_ok in E as [-> ?], E3 as [-> ?]. apply scalar_u64_ok in E0 as [-> ?], E1 as [-> ?].
  apply as_address_ok in E2 as [-> ?].
  destruct (proj1 (as_calldata_ok i5 v4 v5) (conj E4 E5)) as (-> & Hc & ->).
  split; [by constructor|]. split; [done|]. by exists i0.
Qed.

Lemma decode_encode r :
  zlen (rlp_encode r) + 9 < 2 ^ 64 -> rlp_bounded r -> decode_canonical (rlp_encode r) = Ok r.
Proof. intros Hz [Hd Hi]. by apply decode_canonical_ok. Qed.

(** The fields of a well-formed transaction decode. *)
Lemma gas_tx_fields tx :
  gas_tx_wf tx ->
  scalar_u64 (scalar_item (chain_id tx)) = Ok (chain_id tx) /\
  scalar_u64 (scalar_item (gas_limit tx)) = Ok (gas_limit tx) /\
  scalar_u128 (scalar_item (max_fee_per_gas tx)) = Ok (max_fee_per_gas tx) /\
  scalar_u128 (scalar_item (max_priority_fee_per_gas tx)) = Ok (max_priority_fee_per_gas tx) /\
  scalar_u128 (scalar_item (value tx)) = Ok (value tx) /\
  as_address (Str (to tx)) = Ok (to tx) /\
  as_calldata_selector (Str (data tx)) = Ok (selector tx).
Proof.
  intros []. rewrite !scalar_u64_ok, !scalar_u128_ok, as_address_ok. split_and!; try done.
  apply (as_calldata_ok (Str (data tx)) (selector tx) (data tx)). done.
Qed.

Lemma parse_gas_tx_ok raw tx :
  zlen raw + 9 < 2 ^ 64 -> parse_gas_tx raw = Ok tx <-> gas_preimage tx raw.
Proof.
  intros Hz. split.
  - intros H. destruct raw as [|b tl]; [done|]. destruct (decide (b = TX_TYPE_EIP1559)) as [->|Hb].
    + rewrite zlen_cons in Hz. destruct (parse_1559_sound tl tx ltac:(lia) H)
        as (Hw & nonce & access & Hbd & <-). split; [done|]. left. by exists nonce, access.
    + destruct (parse_legacy_sound _ b tl tx eq_refl Hb Hz H) as (Hw & Hp & nonce & Hbd & E).
      split; [done|]. right. by exists nonce.
  - intros [Hw Hcase]. destruct (gas_tx_fields tx Hw) as (F1 & F2 & F3 & F4 & F5 & F6 & F7).
    unfold parse_gas_tx. destruct Hcase as [(nonce & access & Hbd & ->)|(nonce & Hbd & Hp & ->)].
    + cbn [head ok_or rbind]. rewrite bool_decide_eq_true_2 by done. rewrite zlen_cons in Hz.
      change (drop 1 (?b :: ?t)) with t.
      rewrite decode_encode by (done || lia). cbn [rbind as_list eip1559_body]. rewrite F1, F2, F3, F4, F5, F6, F7.
      cbn [rbind as_bytes]. by destruct tx.
    + destruct (rlp_list_head [nonce; scalar_item (max_fee_per_gas tx); scalar_item (gas_limit tx);
        Str (to tx); scalar_item (value tx); Str (data tx); scalar_item (chain_id tx); Str []; Str []])
        as (b & tl & E & Hb); [fold (legacy_body tx nonce); lia|].
      fold (legacy_body tx nonce) in E. rewrite E at 1. cbn [head ok_or rbind].
      rewrite bool_decide_eq_false_2, (proj2 (Z.leb_le _ _) Hb); [|intros ->; by vm_compute in Hb].
      rewrite decode_encode by done. cbn [rbind as_list legacy_body].
      rewrite (proj2 (scalar_is_zero_ok (Str [])) eq_refl). cbn [rbind negb].
      rewrite F1, F2, F3, F5, F6, F7. cbn [rbind as_bytes]. rewrite <- Hp at 2. by destruct tx.
Qed.

(** ** The policy *)

Lemma lz_selector_iff tx :
  gas_tx_wf tx ->
  take 4 (data tx) = ONCHAIN_LZ_FUNDS_OUT_CALL_SELECTOR <->
  selector tx = Some ONCHAIN_LZ_FUNDS_OUT_CALL_SELECTOR.
Proof.
  intros W. rewrite (gw_selector tx W). destruct (zlen (data tx) =? 0) eqn:E; zbool.
  - split; [|done]. destruct (data tx); [done|]. rewrite zlen_cons in E.
    pose proof (zlen_nonneg l). lia.
  - split; [by intros ->|by intros [= ->]].
Qed.

Lemma check_value_ok tx cfg :
  gas_tx_wf tx ->
  check_value tx cfg = Ok tt <->
  (value tx <> 0 ->
   selector tx = Some ONCHAIN_LZ_FUNDS_OUT_CALL_SELECTOR /\
   to tx = cfg_bridge_contract cfg /\ cfg_bridge_contract cfg <> replicate 20 x00 /\
   exists max, gas_tx_max_value_wei cfg = Some max /\ value tx <= max).
Proof.
  intros W. rewrite <- (lz_selector_iff tx W). unfold check_value.
  destruct (value tx =? 0) eqn:E; zbool; [split; [done|done]|].
  case_bool_decide as H1; cbn [negb]; [|split; [done|by intros H; destruct (H E)]].
  case_bool_decide as H2; [split; [done|intros H; destruct (H E) as (_ & _ & ? & _); done]|].
  case_bool_decide as H3; cbn [negb]; [|split; [done|intros H; destruct (H E) as (_ & ? & _); done]].
  destruct (gas_tx_max_value_wei cfg) as [max|] eqn:Em; cbn [ok_or rbind].
  - destruct (max <? value tx) eqn:El; zbool.
    + split; [done|]. intros H. destruct (H E) as (_ & _ & _ & m & [= <-] & ?). lia.
    + split; [|done]. intros _ _. split_and!; try done. by exists max.
  - split; [done|]. intros H. by destruct (H E) as (_ & _ & _ & m & ? & _).
Qed.

(** One guard of the sequence. *)
Lemma guard_ok {A} (b : bool) (e : EnclaveError) (k : enclave_result A) a :
  (if b then Err e else k) = Ok a <-> b = false /\ k = Ok a.
Proof. destruct b; [split; [done|by intros [? _]]|]. split; [done|]. by intros [_ ?]. Qed.

(** A gas-transaction digest is signed exactly when the preimage is the
    canonical EIP-1559 or legacy EIP-155 body of a transaction that the
    operator's pins allow: the pinned chain and destination, the caps on gas and
    fees, an allowlisted selector, and no value except the bounded LayerZero fee
    to the pinned proxy.  The digest is the preimage's own hash. *)
Theorem validate_gas_tx_request_iff keccak256 req cfg digest :
  validate_gas_tx_request keccak256 req cfg = Ok digest <->
  1 <= zlen (unsigned_tx req) <= MAX_GAS_TX_BYTES /\
  digest = keccak256 (unsigned_tx req) /\ (req_digest req = [] \/ req_digest req = digest) /\
  exists tx, gas_preimage tx (unsigned_tx req) /\ gas_allowed cfg tx.
Proof.
  unfold validate_gas_tx_request. rewrite !guard_ok, rbind_ok. zbool.
  pose proof (zlen_nonneg (unsigned_tx req)) as Hz0.
  assert (Hdig : forall k : enclave_result bytes,
    k = (if negb (zlen (req_digest req) =? 0) &&
            negb (bool_decide (req_digest req = keccak256 (unsigned_tx req))) then
           Err (reject "gas tx: supplied digest does not match keccak256(unsigned_tx)")
         else Ok (keccak256 (unsigned_tx req))) ->
    k = Ok digest <-> digest = keccak256 (unsigned_tx req) /\
                      (req_digest req = [] \/ req_digest req = digest)).
  { intros k ->. rewrite guard_ok. split.
    - intros [H [= <-]]. split; [done|]. apply andb_false_iff in H as [H|H]; zbool.
      + left. by destruct (req_digest req).
      + right. by apply bool_decide_eq_true in H.
    - intros [-> [E|E]]; rewrite E; (split; [|done]); [done|]. by rewrite bool_decide_eq_true_2, andb_false_r. }
  split.
  - intros (Hne & Hle & tx & Hp & H). apply parse_gas_tx_ok in Hp; [|unfold MAX_GAS_TX_BYTES in *; lia].
    rewrite !guard_ok, rbind_ok in H. destruct H as (Hc1 & Hc2 & allowed & Ha & H).
    rewrite guard_ok, rbind_ok in H. destruct H as (Hto & [] & Hv & H).
    rewrite !guard_ok, rbind_ok in H. destruct H as (Hg1 & Hf1 & Hg2 & Hf2 & Hf3 & [] & Hs & H).
    apply (Hdig _ eq_refl) in H as [Hd Hrd]. pose proof (proj1 (check_value_ok tx cfg (proj1 Hp)) Hv) as Hval.
    zbool. apply bool_decide_eq_true in Hto. subst allowed.
    split; [lia|]. split; [done|]. split; [done|]. exists tx. split; [done|].
    constructor; try done.
    + destruct (gas_tx_allowed_to cfg); cbn in Ha; congruence.
    + destruct (selector tx) as [s|]; [|done]. case_bool_decide; [|done]. by exists s.
  - intros (Hz & Hd & Hrd & tx & Hp & [[Hc1 Hc2] Ha Hv [Hg1 Hg2] (Hf1 & Hf2 & Hf3) (s & Hs & Hin)]).
    split; [lia|]. split; [lia|]. exists tx.
    split; [apply parse_gas_tx_ok; [unfold MAX_GAS_TX_BYTES in *; lia|done]|].
    rewrite !guard_ok, rbind_ok, Ha. zbool. split; [done|]. split; [done|]. exists (to tx).
    split; [done|]. rewrite guard_ok, rbind_ok, bool_decide_eq_true_2 by done. split; [done|].
    exists tt. split; [by apply (check_value_ok tx cfg (proj1 Hp))|].
    rewrite !guard_ok, rbind_ok, Hs. zbool. split_and!; try done. exists tt.
    rewrite bool_decide_eq_true_2 by done. split; [done|]. by apply (Hdig _ eq_refl).
Qed.

(** The loss one signed gas transaction can cause is bounded by the pins:
    gas times fee by the product of the two caps, and the value it carries by
    the pinned ceiling, or zero when no ceiling is pinned. *)
Theorem gas_tx_spend_bounded keccak256 req cfg digest tx :
  validate_gas_tx_request keccak256 req cfg = Ok digest ->
  parse_gas_tx (unsigned_tx req) = Ok tx ->
  gas_limit tx * max_fee_per_gas tx + value tx <=
    gas_tx_max_gas_limit cfg * gas_tx_max_fee_per_gas cfg +
    match gas_tx_max_value_wei cfg with Some max => Z.max 0 max | None => 0 end.
Proof.
  intros H Hp. unfold validate_gas_tx_request in H.
  rewrite !guard_ok, rbind_ok in H. destruct H as (Hne & Hle & tx' & Hp' & H).
  rewrite Hp in Hp'. injection Hp' as <-. zbool.
  apply parse_gas_tx_ok in Hp as [W _]; [|unfold MAX_GAS_TX_BYTES in *; lia].
  rewrite !guard_ok, rbind_ok in H. destruct H as (_ & _ & allowed & _ & H).
  rewrite guard_ok, rbind_ok in H. destruct H as (_ & [] & Hv & H).
  rewrite !guard_ok, rbind_ok in H. destruct H as (_ & _ & Hg & Hf & _ & _). zbool.
  pose proof (proj1 (check_value_ok tx cfg W) Hv) as Hval. destruct W. unfold is_u64, is_u128 in *.
  assert (gas_limit tx * max_fee_per_gas tx <=
          gas_tx_max_gas_limit cfg * gas_tx_max_fee_per_gas cfg)
    by (apply Z.mul_le_mono_nonneg; lia).
  destruct (decide (value tx = 0)) as [E|E]; [destruct (gas_tx_max_value_wei cfg); lia|].
  destruct (Hval E) as (_ & _ & _ & max & -> & ?). lia.
Qed.

(** A release call with a 1000-wei LayerZero fee. *)
Definition sample_tx : GasTx := {|
  chain_id := 1; to := replicate 20 xaa; value := 1000; gas_limit := 100000;
  max_fee_per_gas := 30000000000; max_priority_fee_per_gas := 1000000000;
  selector := Some ONCHAIN_LZ_FUNDS_OUT_CALL_SELECTOR;
  data := ONCHAIN_LZ_FUNDS_OUT_CALL_SELECTOR ++ replicate 32 x00 |}.

Definition sample_pins : GasTxPins := {|
  cfg_chain_id := 1; cfg_bridge_contract := replicate 20 xaa;
  gas_tx_allowed_to := Some (replicate 20 xaa); gas_tx_max_gas_limit := 500000;
  gas_tx_max_fee_per_gas := 100000000000;
  gas_tx_allowed_selectors := [ONCHAIN_LZ_FUNDS_OUT_CALL_SELECTOR];
  gas_tx_max_value_wei := Some 5000 |}.

Definition sample_request : SignRawDigestRequest := {|
  req_digest := [];
  unsigned_tx := TX_TYPE_EIP1559 :: rlp_encode (eip1559_body sample_tx (scalar_item 7) (RList [])) |}.

Example sample_request_ok :
  validate_gas_tx_request (take 32) sample_request sample_pins
    = Ok (take 32 (unsigned_tx sample_request)).
Proof. vm_compute. reflexivity. Qed.

Lemma gas_tx_spend_bounded_witness :
  gas_limit sample_tx * max_fee_per_gas sample_tx + value sample_tx
    <= 500000 * 100000000000 + 5000.
Proof.
  apply (gas_tx_spend_bounded (take 32) sample_request sample_pins
           (take 32 (unsigned_tx sample_request)) sample_tx);
    vm_compute; reflexivity.
Defined.
