(* ===== verification/AttestedPolicy.v ===== *)
(** * The attested policy encoding (src/attestation-verify/src/policy.rs)

    [AttestedPolicy::to_bytes] and [AttestedPolicy::from_bytes]: the canonical
    encoding that the attestation commits to.  A [String] is its UTF-8 bytes. *)

From stdpp Require Import strings sorting base numbers list.
From S2P Require Import Prelude Errors SpvTypes.

#[local] Open Scope list_scope.
#[local] Open Scope Z_scope.

Definition POLICY_COMMITMENT_V1 : byte := x01.

Inductive SignerRole : Type := Combined | Mint | Burn.
Inductive EvmDataSource : Type := Disabled | RawRpc | PinnedTlsRpc.
Inductive BtcDataSource : Type := SpvVerified.
Inductive AttestationMode : Type := Mock | Real.

(** [BitcoinNetwork], the attested form of the SPV [Network]. *)
Inductive BitcoinNetwork : Type :=
| BnMainnet
| BnTestnet3
| BnSignet
| BnRegtest
| BnTestnet4
| BnSignetCustom.

(** [SignerRole::clones]. *)
Definition clones (r : SignerRole) : bool :=
  match r with Mint => false | _ => true end.

Definition tag_str (t : EvmFinalityTag) : string :=
  match t with Latest => "latest" | Safe => "safe" | Finalized => "finalized" end.

Definition tag_from_str (s : string) : option EvmFinalityTag :=
  if String.eqb s "latest" then Some Latest
  else if String.eqb s "safe" then Some Safe
  else if String.eqb s "finalized" then Some Finalized
  else None.

(** [BitcoinNetwork::from_env_str]. *)
Definition bn_from_env_str (s : string) : option BitcoinNetwork :=
  if String.eqb s "bitcoin" || String.eqb s "mainnet" then Some BnMainnet
  else if String.eqb s "testnet" || String.eqb s "testnet3" then Some BnTestnet3
  else if String.eqb s "signet" then Some BnSignet
  else if String.eqb s "signetcustom" then Some BnSignetCustom
  else if String.eqb s "testnet4" then Some BnTestnet4
  else if String.eqb s "regtest" then Some BnRegtest
  else None.

(** [Network::attested] (spv/types.rs). *)
Definition attested (n : Network) : BitcoinNetwork :=
  match n with
  | Mainnet => BnMainnet
  | Signet => BnSignet
  | SignetCustom => BnSignetCustom
  | Testnet3 => BnTestnet3
  | Testnet4 => BnTestnet4
  | Regtest => BnRegtest
  end.

Record EvmRpcTlsPin : Type := { pin_host : bytes; pin_ca_sha256 : bytes }.

Record KmsPin : Type := {
  key_arn : bytes;
  region : bytes;
  seed_id : bytes;
  expected_evm_address : option bytes
}.

Record ProductionFields : Type := {
  allow_vanilla_psbt : bool;
  signer_role : SignerRole;
  attestation : AttestationMode;
  evm_source : EvmDataSource;
  btc_source : BtcDataSource;
  pol_chain_id : Z;
  bitcoin_network : BitcoinNetwork;
  bridge_contract : bytes;
  rgb_asset_id : bytes;
  funds_in_contract : bytes;
  evm_finality_tag : EvmFinalityTag;
  spv_min_confirmations : Z;
  electrum_host : bytes;
  evm_rpc_tls : option EvmRpcTlsPin;
  pol_gas_tx_allowed_to : bytes;
  pol_gas_tx_max_gas_limit : Z;
  pol_gas_tx_max_fee_per_gas : Z;
  pol_gas_tx_max_value_wei : Z;
  pol_gas_tx_allowed_selectors : list bytes;
  token_contract : bytes;
  kms : option KmsPin;
  clone_peer_pcr3 : option bytes
}.

Inductive AttestedPolicy : Type :=
| Production (f : ProductionFields)
| Development.

(** ** Discriminants *)

Definition role_u8 (r : SignerRole) : Z := match r with Combined => 0 | Mint => 1 | Burn => 2 end.
Definition mode_u8 (m : AttestationMode) : Z := match m with Mock => 0 | Real => 1 end.
Definition evm_u8 (s : EvmDataSource) : Z :=
  match s with Disabled => 0 | RawRpc => 1 | PinnedTlsRpc => 3 end.
Definition btc_u8 (s : BtcDataSource) : Z := match s with SpvVerified => 1 end.
Definition tag_u8 (t : EvmFinalityTag) : Z :=
  match t with Latest => 0 | Safe => 1 | Finalized => 2 end.
Definition net_u8 (n : BitcoinNetwork) : Z :=
  match n with
  | BnMainnet => 0 | BnTestnet3 => 1 | BnSignet => 2 | BnRegtest => 3 | BnTestnet4 => 4
  | BnSignetCustom => 5
  end.

(** ** Selectors: [sort_unstable] and [dedup] *)

(** The lexicographic order of byte arrays. *)
Fixpoint lex_leb (a b : bytes) : bool :=
  match a, b with
  | [], _ => true
  | _ :: _, [] => false
  | x :: a, y :: b => (b2z x <? b2z y) || ((b2z x =? b2z y) && lex_leb a b)
  end.

Definition lex_le (a b : bytes) : Prop := lex_leb a b = true.

#[export] Instance lex_le_dec : RelDecision lex_le.
Proof. intros a b. unfold lex_le. apply _. Defined.

Fixpoint dedup (l : list bytes) : list bytes :=
  match l with
  | [] => []
  | x :: l' =>
      match l' with
      | y :: _ => if bool_decide (x = y) then dedup l' else x :: dedup l'
      | [] => [x]
      end
  end.

Definition canonical_selectors (l : list bytes) : list bytes := dedup (merge_sort lex_le l).

(** ** [to_bytes] *)

(** A length-prefixed string; the length is cast to [u32]. *)
Definition w_string (s : bytes) : bytes := be_split 4 (wrap32 (zlen s)) ++ s.

Definition w_option {A : Type} (w : A -> bytes) (o : option A) : bytes :=
  match o with
  | Some a => x01 :: w a
  | None => [x00]
  end.

Definition w_pin (p : EvmRpcTlsPin) : bytes := w_string (pin_host p) ++ pin_ca_sha256 p.

Definition w_kms (k : KmsPin) : bytes :=
  w_string (key_arn k) ++ w_string (region k) ++ w_string (seed_id k) ++
  w_option id (expected_evm_address k).

Definition to_bytes (p : AttestedPolicy) : bytes :=
  POLICY_COMMITMENT_V1 ::
  match p with
  | Production f =>
      x01 :: (if allow_vanilla_psbt f then x01 else x00) ::
      z2b (role_u8 (signer_role f)) :: z2b (mode_u8 (attestation f)) ::
      z2b (evm_u8 (evm_source f)) :: z2b (btc_u8 (btc_source f)) ::
      be_split 8 (pol_chain_id f) ++ z2b (net_u8 (bitcoin_network f)) ::
      bridge_contract f ++ w_string (rgb_asset_id f) ++ funds_in_contract f ++
      z2b (tag_u8 (evm_finality_tag f)) :: be_split 4 (spv_min_confirmations f) ++
      w_string (electrum_host f) ++ w_option w_pin (evm_rpc_tls f) ++
      pol_gas_tx_allowed_to f ++ be_split 8 (pol_gas_tx_max_gas_limit f) ++
      be_split 16 (pol_gas_tx_max_fee_per_gas f) ++ be_split 16 (pol_gas_tx_max_value_wei f) ++
      (let selectors := canonical_selectors (pol_gas_tx_allowed_selectors f) in
       be_split 4 (wrap32 (zlen selectors)) ++ concat selectors) ++
      token_contract f ++ w_option w_kms (kms f) ++ w_option id (clone_peer_pcr3 f)
  | Development => [x00]
  end.

(** ** UTF-8 ([String::from_utf8]) *)

Definition in_range (lo hi : Z) (b : byte) : bool := (lo <=? b2z b) && (b2z b <=? hi).
Definition is_cont (b : byte) : bool := in_range 0x80 0xbf b.

Fixpoint utf8_valid (s : bytes) : bool :=
  match s with
  | [] => true
  | b0 :: s1 =>
      if in_range 0 0x7f b0 then utf8_valid s1
      else
        match s1 with
        | [] => false
        | b1 :: s2 =>
            if in_range 0xc2 0xdf b0 then is_cont b1 && utf8_valid s2
            else
              match s2 with
              | [] => false
              | b2 :: s3 =>
                  if in_range 0xe0 0xef b0 then
                    (if b2z b0 =? 0xe0 then in_range 0xa0 0xbf b1
                     else if b2z b0 =? 0xed then in_range 0x80 0x9f b1
                     else is_cont b1) && is_cont b2 && utf8_valid s3
                  else
                    match s3 with
                    | [] => false
                    | b3 :: s4 =>
                        in_range 0xf0 0xf4 b0 &&
                        (if b2z b0 =? 0xf0 then in_range 0x90 0xbf b1
                         else if b2z b0 =? 0xf4 then in_range 0x80 0x8f b1
                         else is_cont b1) && is_cont b2 && is_cont b3 && utf8_valid s4
                    end
              end
        end
  end.

(** ** [from_bytes] *)

Abbreviation policy_result := (res string).

Definition r_take (n : Z) (r : bytes) : policy_result (bytes * bytes) :=
  if zlen r <? n then Err "truncated"
  else Ok (take (Z.to_nat n) r, drop (Z.to_nat n) r).

Definition r_u8 (r : bytes) : policy_result (Z * bytes) :=
  let? (h, r) := r_take 1 r in
  match h with
  | b :: _ => Ok (b2z b, r)
  | [] => Panic
  end.

(** [array::<N>]: [try_into] fails only on another length. *)
Definition r_array (n : Z) (r : bytes) : policy_result (bytes * bytes) :=
  let? (h, r) := r_take n r in
  if zlen h =? n then Ok (h, r) else Panic.

(** [uN::from_be_bytes(r.array()?)]. *)
Definition r_uint (n : Z) (r : bytes) : policy_result (Z * bytes) :=
  let? (a, r) := r_array n r in Ok (be_combine a, r).

Definition r_flag (r : bytes) : policy_result (bool * bytes) :=
  let? (b, r) := r_u8 r in
  if b =? 0 then Ok (false, r)
  else if b =? 1 then Ok (true, r)
  else Err "unknown presence byte".

Definition r_len (r : bytes) : policy_result (Z * bytes) := r_uint 4 r.

Definition r_string (r : bytes) : policy_result (bytes * bytes) :=
  let? (n, r) := r_len r in
  let? (s, r) := r_take n r in
  if utf8_valid s then Ok (s, r) else Err "not UTF-8".

(** A byte and its table of discriminants. *)
Definition r_enum {A : Type} (table : Z -> option A) (unknown : string) (r : bytes)
    : policy_result (A * bytes) :=
  let? (b, r) := r_u8 r in
  match table b with
  | Some a => Ok (a, r)
  | None => Err unknown
  end.

(** [r.flag()?.then(..).transpose()?]. *)
Definition r_option {A : Type} (read : bytes -> policy_result (A * bytes)) (r : bytes)
    : policy_result (option A * bytes) :=
  let? (f, r) := r_flag r in
  if f then let? (a, r) := read r in Ok (Some a, r) else Ok (None, r).

Definition role_of (b : Z) : option SignerRole :=
  if b =? 0 then Some Combined else if b =? 1 then Some Mint
  else if b =? 2 then Some Burn else None.

Definition mode_of (b : Z) : option AttestationMode :=
  if b =? 0 then Some Mock else if b =? 1 then Some Real else None.

Definition evm_of (b : Z) : option EvmDataSource :=
  if b =? 0 then Some Disabled else if b =? 1 then Some RawRpc
  else if b =? 3 then Some PinnedTlsRpc else None.

Definition btc_of (b : Z) : option BtcDataSource :=
  if b =? 1 then Some SpvVerified else None.

Definition tag_of (b : Z) : option EvmFinalityTag :=
  if b =? 0 then Some Latest else if b =? 1 then Some Safe
  else if b =? 2 then Some Finalized else None.

Definition net_of (b : Z) : option BitcoinNetwork :=
  if b =? 0 then Some BnMainnet else if b =? 1 then Some BnTestnet3
  else if b =? 2 then Some BnSignet else if b =? 3 then Some BnRegtest
  else if b =? 4 then Some BnTestnet4 else if b =? 5 then Some BnSignetCustom else None.

Definition r_pin (r : bytes) : policy_result (EvmRpcTlsPin * bytes) :=
  let? (host, r) := r_string r in
  let? (ca, r) := r_array 32 r in
  Ok ({| pin_host := host; pin_ca_sha256 := ca |}, r).

Definition r_kms (r : bytes) : policy_result (KmsPin * bytes) :=
  let? (arn, r) := r_string r in
  let? (reg, r) := r_string r in
  let? (sid, r) := r_string r in
  let? (addr, r) := r_option (r_array 20) r in
  Ok ({| key_arn := arn; region := reg; seed_id := sid; expected_evm_address := addr |}, r).

(** The selector loop; [last() >= Some(&selector)] holds for no empty list. *)
Fixpoint r_selectors (count : nat) (acc : list bytes) (r : bytes)
    : policy_result (list bytes * bytes) :=
  match count with
  | O => Ok (acc, r)
  | S count =>
      let? (selector, r) := r_array 4 r in
      let unsorted :=
        match last acc with
        | Some l => lex_leb selector l
        | None => false
        end in
      if unsorted then Err "selectors are not sorted and unique"
      else r_selectors count (acc ++ [selector]) r
  end.

Definition r_selector_list (r : bytes) : policy_result (list bytes * bytes) :=
  let? (count, r) := r_len r in
  r_selectors (Z.to_nat count) [] r.

Definition r_production (r : bytes) : policy_result (ProductionFields * bytes) :=
  let? (vanilla, r) := r_flag r in
  let? (role, r) := r_enum role_of "unknown signer role" r in
  let? (mode, r) := r_enum mode_of "unknown attestation mode" r in
  let? (evm, r) := r_enum evm_of "unknown EVM data source" r in
  let? (btc, r) := r_enum btc_of "unknown BTC data source" r in
  let? (chain, r) := r_uint 8 r in
  let? (net, r) := r_enum net_of "unknown Bitcoin network" r in
  let? (bridge, r) := r_array 20 r in
  let? (asset, r) := r_string r in
  let? (funds_in, r) := r_array 20 r in
  let? (tag, r) := r_enum tag_of "unknown EVM finality tag" r in
  let? (conf, r) := r_uint 4 r in
  let? (host, r) := r_string r in
  let? (tls, r) := r_option r_pin r in
  let? (gas_to, r) := r_array 20 r in
  let? (gas_limit, r) := r_uint 8 r in
  let? (gas_fee, r) := r_uint 16 r in
  let? (gas_value, r) := r_uint 16 r in
  let? (selectors, r) := r_selector_list r in
  let? (token, r) := r_array 20 r in
  let? (k, r) := r_option r_kms r in
  let? (pcr3, r) := r_option (r_array 48) r in
  Ok ({| allow_vanilla_psbt := vanilla; signer_role := role; attestation := mode;
         evm_source := evm; btc_source := btc; pol_chain_id := chain; bitcoin_network := net;
         bridge_contract := bridge; rgb_asset_id := asset; funds_in_contract := funds_in;
         evm_finality_tag := tag; spv_min_confirmations := conf; electrum_host := host;
         evm_rpc_tls := tls; pol_gas_tx_allowed_to := gas_to;
         pol_gas_tx_max_gas_limit := gas_limit; pol_gas_tx_max_fee_per_gas := gas_fee;
         pol_gas_tx_max_value_wei := gas_value; pol_gas_tx_allowed_selectors := selectors;
         token_contract := token; kms := k; clone_peer_pcr3 := pcr3 |}, r).

Definition from_bytes (bs : bytes) : policy_result AttestedPolicy :=
  let? (v, r) := r_u8 bs in
  if negb (v =? b2z POLICY_COMMITMENT_V1) then Err "unknown policy version"
  else
    let? (kind, r) := r_u8 r in
    let? (policy, r) :=
      if kind =? 0 then Ok (Development, r)
      else if kind =? 1 then let? (f, r) := r_production r in Ok (Production f, r)
      else Err "unknown policy kind" in
    if negb (zlen r =? 0) then Err "trailing bytes" else Ok policy.

(** [policy_commitment]; the domain tag is [utexo/attested-policy/v1] and a
    zero byte.  [sha256] is a parameter. *)
Definition policy_commitment (sha256 : bytes -> bytes) (policy : bytes) : bytes :=
  sha256 ([x75; x74; x65; x78; x6f; x2f; x61; x74; x74; x65; x73; x74; x65; x64; x2d; x70;
           x6f; x6c; x69; x63; x79; x2f; x76; x31; x00] ++ policy).

(** * Theorems on the attested policy encoding

    Each reader of [from_bytes] with its writer is a [Codec]: it accepts
    exactly what the writer produces.  The round trips of the whole policy
    follow from the codecs of its fields. *)

(** [r] reads exactly the values that satisfy [P] in the form that [w] writes,
    and never panics. *)
Class Codec {A : Type} (w : A -> bytes) (r : bytes -> policy_result (A * bytes))
    (P : A -> Prop) : Prop := {
  codec_read : forall buf a rest, r buf = Ok (a, rest) <-> P a /\ buf = w a ++ rest;
  codec_total : forall buf, r buf <> Panic
}.

Lemma codec_step {A B : Type} w r P `{C : !Codec (A := A) w r P} a rest
    (k : A * bytes -> policy_result B) :
  P a -> rbind (r (w a ++ rest)) k = k (a, rest).
Proof. intros Ha. by rewrite (proj2 (codec_read (w a ++ rest) a rest) (conj Ha eq_refl)). Qed.

Lemma codec_bind_total {A B : Type} w r P `{C : !Codec (A := A) w r P} buf
    (k : A * bytes -> policy_result B) :
  (forall x, k x <> Panic) -> rbind (r buf) k <> Panic.
Proof. intros Hk. pose proof (codec_total (r := r) buf) as Ht. destruct (r buf); cbn; [apply Hk|done|done]. Qed.

(** ** Fields *)

Definition array_ok (n : Z) (a : bytes) : Prop := zlen a = n.

Lemma r_take_ok n buf a rest : 0 <= n -> r_take n buf = Ok (a, rest) <-> zlen a = n /\ buf = a ++ rest.
Proof.
  intros Hn. unfold r_take. destruct (zlen buf <? n) eqn:E; zbool.
  - split; [done|]. intros [<- ->]. rewrite zlen_app in E. pose proof (zlen_nonneg rest). lia.
  - split.
    + intros [= <- <-]. rewrite take_drop. split; [|done]. unfold zlen in *. rewrite length_take. lia.
    + intros [<- ->]. unfold zlen. rewrite Nat2Z.id, take_app_length, drop_app_length. done.
Qed.

Lemma array_codec n : 0 <= n -> Codec id (r_array n) (array_ok n).
Proof.
  intros Hn. split.
  - intros buf a rest. unfold r_array. rewrite rbind_ok. split.
    + intros ([h t] & Ht & H). destruct (zlen h =? n); [|done]. injection H as <- <-.
      by apply r_take_ok in Ht.
    + intros [Ha ->]. exists (a, rest). rewrite r_take_ok by done. split; [done|].
      unfold array_ok in Ha. by rewrite Ha, Z.eqb_refl.
  - intros buf. unfold r_array. destruct (r_take n buf) as [[h t]|e|] eqn:E; cbn [rbind]; [|done|].
    + apply r_take_ok in E as [-> _]; [|done]. by rewrite Z.eqb_refl.
    + unfold r_take in E. by case_match.
Qed.

#[export] Instance u8_codec : Codec (fun z => [z2b z]) r_u8 is_u8.
Proof.
  split.
  - intros buf z rest. unfold r_u8. rewrite rbind_ok. split.
    + intros ([h t] & [H1 ->]%r_take_ok & H); [|done]. destruct h as [|b [|c h]]; try done.
      2: { rewrite !zlen_cons in H1. pose proof (zlen_nonneg h). lia. }
      injection H as <- <-. rewrite z2b_b2z. split; [apply b2z_range|done].
    + intros [Hz ->]. exists ([z2b z], rest). rewrite r_take_ok by done. split; [done|].
      rewrite b2z_small by apply Hz. done.
  - intros buf. unfold r_u8. destruct (r_take 1 buf) as [[h t]|e|] eqn:E; cbn [rbind]; [|done|].
    + apply r_take_ok in E as [H1 _]; [|done]. by destruct h.
    + unfold r_take in E. by case_match.
Qed.

Definition uint_ok (n : nat) (z : Z) : Prop := 0 <= z < 256 ^ Z.of_nat n.

Lemma uint_codec (n : nat) : Codec (be_split n) (r_uint (Z.of_nat n)) (uint_ok n).
Proof.
  pose proof (array_codec (Z.of_nat n) ltac:(lia)) as C. split.
  - intros buf z rest. unfold r_uint. rewrite rbind_ok. split.
    + intros ([a t] & [Ha ->]%codec_read & H). injection H as <- <-.
      unfold array_ok, uint_ok in *. pose proof (be_combine_bound a) as Hb. rewrite Ha in Hb.
      split; [done|]. replace n with (length a) by (unfold zlen in Ha; lia).
      by rewrite be_split_combine.
    + intros [Hz ->]. exists (be_split n z, rest).
      rewrite codec_read. split.
      * split; [|done]. unfold array_ok, zlen. by rewrite be_split_length.
      * by rewrite be_combine_split.
  - intros buf. unfold r_uint. eapply codec_bind_total; [exact C|]. by intros [].
Qed.

#[export] Instance u32_codec : Codec (be_split 4) (r_uint 4) (uint_ok 4) := uint_codec 4.
#[export] Instance u64_codec : Codec (be_split 8) (r_uint 8) (uint_ok 8) := uint_codec 8.
#[export] Instance u128_codec : Codec (be_split 16) (r_uint 16) (uint_ok 16) := uint_codec 16.
#[export] Instance array4_codec : Codec id (r_array 4) (array_ok 4) := array_codec 4 ltac:(lia).
#[export] Instance array20_codec : Codec id (r_array 20) (array_ok 20) := array_codec 20 ltac:(lia).
#[export] Instance array32_codec : Codec id (r_array 32) (array_ok 32) := array_codec 32 ltac:(lia).
#[export] Instance array48_codec : Codec id (r_array 48) (array_ok 48) := array_codec 48 ltac:(lia).

Definition w_flag (f : bool) : bytes := [if f then x01 else x00].

#[export] Instance flag_codec : Codec w_flag r_flag (fun _ => True).
Proof.
  split.
  - intros buf f rest. unfold r_flag. rewrite rbind_ok. split.
    + intros ([b t] & [Hb ->]%codec_read & H).
      destruct (b =? 0) eqn:E0; zbool; [subst b; by injection H as <- <-|].
      destruct (b =? 1) eqn:E1; zbool; [subst b; by injection H as <- <-|done].
    + intros [_ ->]. exists (if f then 1 else 0, rest). rewrite codec_read. by destruct f.
  - intros buf. unfold r_flag. eapply codec_bind_total; [apply u8_codec|].
    intros [b t]. by repeat case_match.
Qed.

Definition string_ok (s : bytes) : Prop := utf8_valid s = true /\ zlen s < 2 ^ 32.

#[export] Instance string_codec : Codec w_string r_string string_ok.
Proof.
  unfold string_ok, w_string. split.
  - intros buf s rest. unfold r_string, r_len. rewrite rbind_ok. split.
    + intros ([n t] & [Hn ->]%codec_read & H). unfold uint_ok in Hn.
      change (256 ^ Z.of_nat 4) with (2 ^ 32) in Hn.
      apply rbind_ok in H as ([s' t'] & [Hs ->]%r_take_ok & H); [|lia].
      destruct (utf8_valid s') eqn:Eu; [|done]. injection H as <- <-.
      split; [split; [done|lia]|]. rewrite Hs, wrap32_small by done. by rewrite app_assoc.
    + intros [[Hu Hs] ->]. pose proof (zlen_nonneg s). rewrite wrap32_small by (unfold is_u32; lia).
      exists (zlen s, s ++ rest). split.
      * apply codec_read. unfold uint_ok. change (256 ^ Z.of_nat 4) with (2 ^ 32).
        rewrite app_assoc. split; [lia|done].
      * rewrite rbind_ok. exists (s, rest). rewrite r_take_ok by done. by rewrite Hu.
  - intros buf. unfold r_string, r_len. eapply codec_bind_total; [apply u32_codec|]. intros [n t].
    unfold r_take. case_match; cbn [rbind]; [done|]. by case_match.
Qed.

(** An enum: the table inverts the discriminant. *)
Lemma enum_codec {A} (enc : A -> Z) (table : Z -> option A) msg :
  (forall a, is_u8 (enc a)) -> (forall b a, table b = Some a <-> b = enc a) ->
  Codec (fun a => [z2b (enc a)]) (r_enum table msg) (fun _ => True).
Proof.
  intros Hu Ht. split.
  - intros buf a rest. unfold r_enum. rewrite rbind_ok. split.
    + intros ([b t] & [Hb ->]%codec_read & H). destruct (table b) as [a'|] eqn:E; [|done].
      injection H as <- <-. by apply Ht in E as ->.
    + intros [_ ->]. exists (enc a, rest). rewrite codec_read. split; [done|].
      by rewrite (proj2 (Ht (enc a) a) eq_refl).
  - intros buf. unfold r_enum. eapply codec_bind_total; [apply u8_codec|].
    intros [b t]. by case_match.
Qed.

Ltac table :=
  apply enum_codec;
  [intros []; by vm_compute
  |intros b a; split;
   [unfold role_of, mode_of, evm_of, btc_of, tag_of, net_of; repeat case_match; zbool;
    intros [= <-]; done
   |intros ->; by destruct a]].

#[export] Instance role_codec m : Codec (fun a => [z2b (role_u8 a)]) (r_enum role_of m) (fun _ => True).
Proof. table. Qed.
#[export] Instance mode_codec m : Codec (fun a => [z2b (mode_u8 a)]) (r_enum mode_of m) (fun _ => True).
Proof. table. Qed.
#[export] Instance evm_codec m : Codec (fun a => [z2b (evm_u8 a)]) (r_enum evm_of m) (fun _ => True).
Proof. table. Qed.
#[export] Instance btc_codec m : Codec (fun a => [z2b (btc_u8 a)]) (r_enum btc_of m) (fun _ => True).
Proof. table. Qed.
#[export] Instance tag_codec m : Codec (fun a => [z2b (tag_u8 a)]) (r_enum tag_of m) (fun _ => True).
Proof. table. Qed.
#[export] Instance net_codec m : Codec (fun a => [z2b (net_u8 a)]) (r_enum net_of m) (fun _ => True).
Proof. table. Qed.

Definition option_ok {A} (P : A -> Prop) (o : option A) : Prop :=
  match o with Some a => P a | None => True end.

#[export] Instance option_codec {A} (w : A -> bytes) r P :
  Codec w r P -> Codec (w_option w) (r_option r) (option_ok P).
Proof.
  intros C. split.
  - intros buf o rest. unfold r_option. rewrite rbind_ok. split.
    + intros ([f t] & [_ ->]%codec_read & H). destruct f.
      * apply rbind_ok in H as ([a t'] & [Ha ->]%codec_read & H). by injection H as <- <-.
      * by injection H as <- <-.
    + intros [Ho ->]. destruct o as [a|]; cbn [w_option option_ok] in *.
      * exists (true, w a ++ rest). rewrite codec_read. split; [done|].
        rewrite rbind_ok. exists (a, rest). by rewrite codec_read.
      * exists (false, rest). by rewrite codec_read.
  - intros buf. unfold r_option. eapply codec_bind_total; [apply flag_codec|].
    intros [[] t]; [|done]. eapply codec_bind_total; [exact C|]. by intros [].
Qed.

Lemma array_step {B : Type} n a rest (k : bytes * bytes -> policy_result B) :
  0 <= n -> array_ok n a -> rbind (r_array n (a ++ rest)) k = k (a, rest).
Proof.
  intros Hn Ha. pose proof (array_codec n Hn) as C.
  apply (codec_step id (r_array n) (array_ok n) a rest k Ha).
Qed.

(** Peel the fields off a chain of binds in [H]. *)
Ltac codec_inv H :=
  repeat (let x := fresh "x" in let r := fresh "r" in let Hx := fresh "Hx" in
          apply rbind_ok in H as ([x r] & [Hx ->]%codec_read & H)).

Definition pin_ok (p : EvmRpcTlsPin) : Prop := string_ok (pin_host p) /\ array_ok 32 (pin_ca_sha256 p).

#[export] Instance pin_codec : Codec w_pin r_pin pin_ok.
Proof.
  split.
  - intros buf p rest. unfold r_pin, w_pin, pin_ok. split.
    + intros H. codec_inv H. injection H as <- <-. cbn [pin_host pin_ca_sha256]. by rewrite <- app_assoc.
    + intros [[H1 H2] ->]. rewrite <- app_assoc.
      rewrite (codec_step w_string r_string string_ok) by done.
      rewrite array_step by done. by destruct p.
  - intros buf. unfold r_pin. eapply codec_bind_total; [apply _|]. intros [].
    eapply codec_bind_total; [apply _|]. by intros [].
Qed.

Definition kms_ok (k : KmsPin) : Prop :=
  string_ok (key_arn k) /\ string_ok (region k) /\ string_ok (seed_id k) /\
  option_ok (array_ok 20) (expected_evm_address k).

#[export] Instance kms_codec : Codec w_kms r_kms kms_ok.
Proof.
  split.
  - intros buf k rest. unfold r_kms, w_kms, kms_ok. split.
    + intros H. codec_inv H. injection H as <- <-.
      cbn [key_arn region seed_id expected_evm_address]. by rewrite <- !app_assoc.
    + intros [(H1 & H2 & H3 & H4) ->]. rewrite <- !app_assoc.
      rewrite !(codec_step w_string r_string string_ok) by done.
      rewrite (codec_step (w_option id) (r_option (r_array 20)) (option_ok (array_ok 20))) by done.
      by destruct k.
  - intros buf. unfold r_kms. repeat (eapply codec_bind_total; [apply _|]; intros [? ?]). done.
Qed.

(** ** Selectors *)

(** [a] is strictly below [b]. *)
Definition lex_lt (a b : bytes) : Prop := lex_leb b a = false.

Lemma lex_leb_refl a : lex_leb a a = true.
Proof. induction a as [|x a IH]; cbn; [done|]. by rewrite Z.eqb_refl, IH, orb_true_r. Qed.

#[export] Instance lex_le_total : Total lex_le.
Proof.
  intros a. unfold lex_le. induction a as [|x a IH]; intros b; [by left|].
  destruct b as [|y b]; [by right|]. cbn.
  destruct (Z.lt_trichotomy (b2z x) (b2z y)) as [H|[H|H]].
  - left. by rewrite (proj2 (Z.ltb_lt _ _) H).
  - rewrite H, Z.eqb_refl. destruct (IH b) as [E|E]; [left|right]; rewrite E; apply orb_true_r.
  - right. by rewrite (proj2 (Z.ltb_lt _ _) H).
Qed.

#[export] Instance lex_le_antisymm : AntiSymm (=) lex_le.
Proof.
  intros a. unfold lex_le. induction a as [|x a IH]; intros [|y b]; cbn; try done.
  intros H1 H2. zbool. destruct H1 as [H1|[H1 H1']]; destruct H2 as [H2|[H2 H2']]; try lia.
  f_equal; [by apply b2z_inj|by apply IH].
Qed.

#[export] Instance lex_le_trans : Transitive lex_le.
Proof.
  intros a. unfold lex_le. induction a as [|x a IH]; intros [|y b] [|z c]; cbn; try done.
  intros H1 H2. zbool. destruct H1 as [H1|[H1 H1']]; destruct H2 as [H2|[H2 H2']]; try (left; lia).
  right. split; [lia|]. by eapply IH.
Qed.

Lemma lex_lt_iff a b : lex_lt a b <-> lex_le a b /\ a <> b.
Proof.
  unfold lex_lt. split.
  - intros H. assert (Hle : lex_le a b).
    { destruct (total lex_le a b) as [?|E]; [done|]. unfold lex_le in E. congruence. }
    split; [done|]. intros ->. by rewrite lex_leb_refl in H.
  - intros [H Hne]. destruct (lex_leb b a) eqn:E; [|done]. exfalso. apply Hne.
    by apply (anti_symm lex_le).
Qed.

#[export] Instance lex_lt_trans : Transitive lex_lt.
Proof.
  intros a b c. rewrite !lex_lt_iff. intros [H1 N1] [H2 N2]. split; [by etransitivity|].
  intros ->. apply N1. by apply (anti_symm lex_le).
Qed.

Lemma sorted_lt_le l : Sorted lex_lt l -> Sorted lex_le l.
Proof.
  induction 1 as [|x l _ IH Hh]; constructor; [done|]. destruct Hh; constructor.
  by apply lex_lt_iff.
Qed.

Lemma sorted_lt_nodup l : Sorted lex_lt l -> NoDup l.
Proof.
  intros H. apply Sorted_StronglySorted in H; [|apply lex_lt_trans].
  induction H as [|x l Hs IH Hf]; constructor; [|done].
  intros Hx. rewrite Forall_forall in Hf. apply Hf, lex_lt_iff in Hx as [_ Hne]. done.
Qed.

Lemma dedup_spec l :
  Sorted lex_le l ->
  Sorted lex_lt (dedup l) /\ (forall x, x ∈ dedup l <-> x ∈ l) /\ head (dedup l) = head l.
Proof.
  induction 1 as [|x l Hs (IH1 & IH2 & IH3) Hh]; [done|].
  destruct l as [|y l]; [split; [by repeat constructor|done]|].
  apply HdRel_inv in Hh. change (dedup (x :: y :: l))
    with (if bool_decide (x = y) then dedup (y :: l) else x :: dedup (y :: l)).
  case_bool_decide as E.
  - subst y. split; [done|]. split; [|done]. intros z. rewrite IH2, !elem_of_cons. tauto.
  - split; [|split; [|done]].
    + constructor; [done|]. destruct (dedup (y :: l)) as [|z l'] eqn:Ed; constructor.
      injection IH3 as ->. by apply lex_lt_iff.
    + intros z. rewrite elem_of_cons, IH2, !elem_of_cons. tauto.
Qed.

Lemma dedup_sorted l : Sorted lex_lt l -> dedup l = l.
Proof.
  induction 1 as [|x l Hs IH Hh]; [done|]. destruct l as [|y l]; [done|].
  apply HdRel_inv in Hh. apply lex_lt_iff in Hh as [_ Hne].
  change (dedup (x :: y :: l)) with (if bool_decide (x = y) then dedup (y :: l) else x :: dedup (y :: l)).
  rewrite bool_decide_eq_false_2 by done. by rewrite IH.
Qed.

Lemma canonical_sorted l : Sorted lex_lt (canonical_selectors l).
Proof. apply dedup_spec, Sorted_merge_sort, _. Qed.

Lemma canonical_elem l x : x ∈ canonical_selectors l <-> x ∈ l.
Proof.
  unfold canonical_selectors.
  rewrite (proj1 (proj2 (dedup_spec (merge_sort lex_le l) (Sorted_merge_sort _ l))) x).
  by rewrite merge_sort_Permutation.
Qed.

Lemma canonical_id l : Sorted lex_lt l -> canonical_selectors l = l.
Proof.
  intros H. unfold canonical_selectors.
  assert (merge_sort lex_le l = l) as ->.
  { apply (Sorted_unique lex_le); [apply Sorted_merge_sort, _|by apply sorted_lt_le|].
    apply merge_sort_Permutation. }
  by apply dedup_sorted.
Qed.

Lemma canonical_idemp l : canonical_selectors (canonical_selectors l) = canonical_selectors l.
Proof. apply canonical_id, canonical_sorted. Qed.

(** [l] continues a strictly sorted list that ends with [prev]. *)
Fixpoint chain_from (prev : option bytes) (l : list bytes) : Prop :=
  match l with
  | [] => True
  | x :: l => match prev with Some p => lex_lt p x | None => True end /\ chain_from (Some x) l
  end.

Lemma chain_from_sorted l : chain_from None l <-> Sorted lex_lt l.
Proof.
  assert (H : forall l p, chain_from (Some p) l <-> Sorted lex_lt (p :: l)).
  { clear l. induction l as [|x l IH]; intros p; cbn [chain_from]; [split; [by repeat constructor|done]|].
    rewrite IH. split.
    - intros [Hp Hs]. constructor; [done|]. by constructor.
    - intros Hs. apply Sorted_inv in Hs as [Hs Hh]. by apply HdRel_inv in Hh. }
  destruct l as [|x l]; cbn [chain_from]; [split; [constructor|done]|]. rewrite H. tauto.
Qed.

Lemma r_selectors_ok n : forall acc buf l rest,
  r_selectors n acc buf = Ok (l, rest) <->
  exists l', l = acc ++ l' /\ length l' = n /\ Forall (array_ok 4) l' /\
    chain_from (last acc) l' /\ buf = concat l' ++ rest.
Proof.
  induction n as [|n IH]; intros acc buf l rest; cbn [r_selectors].
  - split.
    + intros [= <- <-]. exists []. by rewrite app_nil_r.
    + intros (l' & -> & Hl & _ & _ & ->). destruct l'; [|done]. by rewrite app_nil_r.
  - rewrite rbind_ok. split.
    + intros ([x t] & [Hx ->]%codec_read & H).
      destruct (match last acc with Some l => lex_leb x l | None => false end) eqn:E; [done|].
      apply IH in H as (l' & -> & Hl & Hf & Hc & ->). rewrite last_snoc in Hc.
      exists (x :: l'). cbn [concat length chain_from]. rewrite <- !app_assoc. cbn [app].
      split_and!; try done; [by rewrite Hl|by constructor|]. by destruct (last acc).
    + intros (l' & -> & Hl & Hf & Hc & ->). destruct l' as [|x l']; [done|].
      cbn [chain_from] in Hc. destruct Hc as [Hp Hc]. apply Forall_cons in Hf as [Hx Hf].
      injection Hl as Hl. exists (x, concat l' ++ rest). split.
      * apply codec_read. cbn [concat]. by rewrite <- app_assoc.
      * assert (match last acc with Some l => lex_leb x l | None => false end = false) as ->
          by by destruct (last acc).
        apply IH. exists l'. rewrite last_snoc, <- app_assoc. done.
Qed.

Lemma r_selectors_total n : forall acc buf, r_selectors n acc buf <> Panic.
Proof.
  induction n as [|n IH]; intros acc buf; cbn [r_selectors]; [done|].
  eapply codec_bind_total; [apply array4_codec|]. intros [x t].
  destruct (match last acc with Some _ => _ | None => _ end); [done|apply IH].
Qed.

Definition selectors_ok (l : list bytes) : Prop :=
  Forall (array_ok 4) l /\ Sorted lex_lt l /\ zlen l < 2 ^ 32.

Definition w_selectors (l : list bytes) : bytes := be_split 4 (wrap32 (zlen l)) ++ concat l.

#[export] Instance selectors_codec : Codec w_selectors r_selector_list selectors_ok.
Proof.
  unfold r_selector_list, r_len, w_selectors, selectors_ok. split.
  - intros buf l rest. rewrite rbind_ok. split.
    + intros ([n t] & [Hn ->]%codec_read & H). unfold uint_ok in Hn.
      change (256 ^ Z.of_nat 4) with (2 ^ 32) in Hn.
      apply r_selectors_ok in H as (l' & -> & Hl & Hf & Hc & ->). cbn [app].
      assert (Hz : zlen l' = n) by (unfold zlen; lia).
      rewrite Hz, wrap32_small, <- app_assoc by done. apply chain_from_sorted in Hc.
      split; [|done]. split_and!; try done. lia.
    + intros [(Hf & Hs & Hz) ->]. pose proof (zlen_nonneg l).
      rewrite wrap32_small by (unfold is_u32; lia). exists (zlen l, concat l ++ rest). split.
      * apply codec_read. unfold uint_ok. change (256 ^ Z.of_nat 4) with (2 ^ 32).
        rewrite <- app_assoc. split; [lia|done].
      * apply r_selectors_ok. exists l. split_and!; try done; [unfold zlen; lia|].
        by apply chain_from_sorted.
  - intros buf. eapply codec_bind_total; [apply u32_codec|]. intros [n t]. apply r_selectors_total.
Qed.

(** ** The production policy *)

(** The written fields, with the selectors as they are. *)
Definition w_production (f : ProductionFields) : bytes :=
  w_flag (allow_vanilla_psbt f) ++ [z2b (role_u8 (signer_role f))] ++
  [z2b (mode_u8 (attestation f))] ++ [z2b (evm_u8 (evm_source f))] ++
  [z2b (btc_u8 (btc_source f))] ++ be_split 8 (pol_chain_id f) ++
  [z2b (net_u8 (bitcoin_network f))] ++ bridge_contract f ++ w_string (rgb_asset_id f) ++
  funds_in_contract f ++ [z2b (tag_u8 (evm_finality_tag f))] ++
  be_split 4 (spv_min_confirmations f) ++ w_string (electrum_host f) ++
  w_option w_pin (evm_rpc_tls f) ++ pol_gas_tx_allowed_to f ++
  be_split 8 (pol_gas_tx_max_gas_limit f) ++ be_split 16 (pol_gas_tx_max_fee_per_gas f) ++
  be_split 16 (pol_gas_tx_max_value_wei f) ++ w_selectors (pol_gas_tx_allowed_selectors f) ++
  token_contract f ++ w_option w_kms (kms f) ++ w_option id (clone_peer_pcr3 f).

Definition set_selectors (f : ProductionFields) (l : list bytes) : ProductionFields := {|
  allow_vanilla_psbt := allow_vanilla_psbt f; signer_role := signer_role f;
  attestation := attestation f; evm_source := evm_source f; btc_source := btc_source f;
  pol_chain_id := pol_chain_id f; bitcoin_network := bitcoin_network f;
  bridge_contract := bridge_contract f; rgb_asset_id := rgb_asset_id f;
  funds_in_contract := funds_in_contract f; evm_finality_tag := evm_finality_tag f;
  spv_min_confirmations := spv_min_confirmations f; electrum_host := electrum_host f;
  evm_rpc_tls := evm_rpc_tls f; pol_gas_tx_allowed_to := pol_gas_tx_allowed_to f;
  pol_gas_tx_max_gas_limit := pol_gas_tx_max_gas_limit f;
  pol_gas_tx_max_fee_per_gas := pol_gas_tx_max_fee_per_gas f;
  pol_gas_tx_max_value_wei := pol_gas_tx_max_value_wei f;
  pol_gas_tx_allowed_selectors := l; token_contract := token_contract f;
  kms := kms f; clone_peer_pcr3 := clone_peer_pcr3 f |}.

(** What the Rust types guarantee of the fields, [String]s shorter than 4 GiB
    included. *)
Record fields_typed (f : ProductionFields) : Prop := {
  ft_chain : is_u64 (pol_chain_id f);
  ft_bridge : array_ok 20 (bridge_contract f);
  ft_asset : string_ok (rgb_asset_id f);
  ft_funds_in : array_ok 20 (funds_in_contract f);
  ft_conf : is_u32 (spv_min_confirmations f);
  ft_host : string_ok (electrum_host f);
  ft_tls : option_ok pin_ok (evm_rpc_tls f);
  ft_gas_to : array_ok 20 (pol_gas_tx_allowed_to f);
  ft_gas_limit : is_u64 (pol_gas_tx_max_gas_limit f);
  ft_gas_fee : is_u128 (pol_gas_tx_max_fee_per_gas f);
  ft_gas_value : is_u128 (pol_gas_tx_max_value_wei f);
  ft_selectors : Forall (array_ok 4) (pol_gas_tx_allowed_selectors f) /\
                 zlen (pol_gas_tx_allowed_selectors f) < 2 ^ 32;
  ft_token : array_ok 20 (token_contract f);
  ft_kms : option_ok kms_ok (kms f);
  ft_pcr3 : option_ok (array_ok 48) (clone_peer_pcr3 f)
}.

Definition production_ok (f : ProductionFields) : Prop :=
  fields_typed f /\ Sorted lex_lt (pol_gas_tx_allowed_selectors f).

#[export] Instance production_codec : Codec w_production r_production production_ok.
Proof.
  split.
  - intros buf f rest. unfold r_production. split.
    + intros H. codec_inv H. injection H as <- <-. split.
      * destruct Hx17 as (? & ? & ?). split; [constructor|]; done.
      * unfold w_production. rewrite <- !app_assoc. reflexivity.
    + intros [[[] Hs] ->]. destruct ft_selectors0. unfold w_production. rewrite <- !app_assoc.
      repeat (apply rbind_ok; eexists (_, _);
              split; [apply codec_read; split; [|reflexivity]; done|]).
      by destruct f.
  - intros buf. unfold r_production.
    repeat (eapply codec_bind_total; [apply _|]; intros [? ?]). done.
Qed.

(** ** The whole policy *)

(** A policy as the Rust types allow it, and as [from_bytes] returns it. *)
Definition policy_typed (p : AttestedPolicy) : Prop :=
  match p with Production f => fields_typed f | Development => True end.

Definition normalise (p : AttestedPolicy) : AttestedPolicy :=
  match p with
  | Production f =>
      Production (set_selectors f (canonical_selectors (pol_gas_tx_allowed_selectors f)))
  | Development => Development
  end.

Lemma to_bytes_production f :
  to_bytes (Production f) =
  x01 :: x01 :: w_production (set_selectors f (canonical_selectors (pol_gas_tx_allowed_selectors f))).
Proof. reflexivity. Qed.

Lemma set_selectors_id f : set_selectors f (pol_gas_tx_allowed_selectors f) = f.
Proof. by destruct f. Qed.

Lemma canonical_zlen l : zlen (canonical_selectors l) <= zlen l.
Proof.
  unfold canonical_selectors, zlen.
  rewrite <- (Permutation_length (merge_sort_Permutation lex_le l)).
  generalize (merge_sort lex_le l). clear l. intros l. apply Nat2Z.inj_le.
  induction l as [|x l IH]; [done|]. cbn [dedup]. destruct l as [|y l]; [done|].
  case_bool_decide; cbn [length] in *; lia.
Qed.

Lemma normalise_ok f :
  fields_typed f -> production_ok (set_selectors f (canonical_selectors (pol_gas_tx_allowed_selectors f))).
Proof.
  intros []. split; [|apply canonical_sorted]. constructor; try done. cbn.
  destruct ft_selectors0 as [Hf Hz]. split.
  - apply Forall_forall. intros x Hx. rewrite Forall_forall in Hf. by apply Hf, canonical_elem.
  - pose proof (canonical_zlen (pol_gas_tx_allowed_selectors f)). lia.
Qed.

(** Reading one byte that is there. *)
Lemma r_u8_cons b r : r_u8 (b :: r) = Ok (b2z b, r).
Proof.
  change (b :: r) with ([b] ++ r). rewrite <- (z2b_b2z b) at 1.
  apply codec_read. split; [apply b2z_range|]. done.
Qed.

Lemma from_to_bytes p : policy_typed p -> from_bytes (to_bytes p) = Ok (normalise p).
Proof.
  intros W. destruct p as [f|]; [|done]. rewrite to_bytes_production. unfold from_bytes.
  rewrite r_u8_cons. cbn [rbind]. change (negb (b2z x01 =? b2z POLICY_COMMITMENT_V1)) with false.
  rewrite r_u8_cons. cbn [rbind]. change (b2z x01 =? 0) with false. change (b2z x01 =? 1) with true.
  cbv iota. rewrite <- (app_nil_r (w_production _)).
  rewrite (codec_step w_production r_production production_ok) by by apply normalise_ok.
  reflexivity.
Qed.

Lemma from_bytes_sound bs p : from_bytes bs = Ok p -> policy_typed p /\ normalise p = p /\ to_bytes p = bs.
Proof.
  unfold from_bytes. intros H. apply rbind_ok in H as ([v r] & [Hv ->]%codec_read & H).
  destruct (negb _) eqn:Ev; [done|]. apply rbind_ok in H as ([k r'] & [Hk ->]%codec_read & H).
  apply rbind_ok in H as ([q r''] & Hq & H).
  destruct (zlen r'' =? 0) eqn:Er; [|done]. injection H as ->. zbool.
  assert (r'' = []) as ->.
  { destruct r''; [done|]. rewrite zlen_cons in Er. pose proof (zlen_nonneg r''). lia. }
  subst v. change (z2b (b2z POLICY_COMMITMENT_V1)) with x01.
  destruct (k =? 0) eqn:Ek0; zbool; [subst k; by injection Hq as <- ->|].
  destruct (k =? 1) eqn:Ek1; zbool; [|done]. subst k.
  apply rbind_ok in Hq as ([f r] & [Hf ->]%codec_read & Hq). injection Hq as <- ->.
  destruct Hf as [Hf Hs]. cbn [normalise policy_typed]. rewrite to_bytes_production, canonical_id by done.
  rewrite set_selectors_id, app_nil_r. done.
Qed.

Lemma from_bytes_total bs : from_bytes bs <> Panic.
Proof.
  unfold from_bytes. eapply codec_bind_total; [apply u8_codec|]. intros [v r].
  destruct (negb _); [done|]. eapply codec_bind_total; [apply u8_codec|]. intros [k r'].
  destruct (k =? 0); cbn [rbind]; [by case_match|]. destruct (k =? 1); [|done].
  pose proof (codec_total (r := r_production) r') as Ht.
  destruct (r_production r') as [[f r'']| |]; cbn [rbind]; [by case_match|done|done].
Qed.

#[export] Instance Production_inj : Inj (=) (=) Production.
Proof. intros f g E. congruence. Qed.

(** C36: [from_bytes] inverts [to_bytes]: every policy decodes to itself with
    its selectors sorted and deduplicated, and [from_bytes] accepts nothing but
    encodings of such policies.  It never panics. *)
Theorem policy_roundtrip p bs :
  policy_typed p ->
  from_bytes (to_bytes p) = Ok (normalise p) /\
  from_bytes bs <> Panic /\
  (forall q, from_bytes bs = Ok q -> policy_typed q /\ normalise q = q /\ to_bytes q = bs).
Proof.
  intros W. split; [by apply from_to_bytes|]. split; [apply from_bytes_total|].
  intros q. apply from_bytes_sound.
Qed.

(** A production policy whose selectors are neither sorted nor unique. *)
Definition sample_fields : ProductionFields := {|
  allow_vanilla_psbt := false; signer_role := Burn; attestation := Real;
  evm_source := PinnedTlsRpc; btc_source := SpvVerified; pol_chain_id := 42161;
  bitcoin_network := BnMainnet; bridge_contract := repeat x11 20;
  rgb_asset_id := [x72; x67; x62]; funds_in_contract := repeat x22 20;
  evm_finality_tag := Finalized; spv_min_confirmations := 6;
  electrum_host := [x65; x73]; evm_rpc_tls := Some {| pin_host := [x68]; pin_ca_sha256 := repeat x33 32 |};
  pol_gas_tx_allowed_to := repeat x44 20; pol_gas_tx_max_gas_limit := 500000;
  pol_gas_tx_max_fee_per_gas := 2000000000; pol_gas_tx_max_value_wei := 0;
  pol_gas_tx_allowed_selectors := [[xb0; x00; x00; x01]; [x10; x00; x00; x02]; [xb0; x00; x00; x01]];
  token_contract := repeat x55 20; kms := None; clone_peer_pcr3 := Some (repeat x66 48) |}.

Lemma sample_fields_typed : fields_typed sample_fields.
Proof. constructor; cbn; unfold is_u64, is_u32, is_u128, string_ok, pin_ok, string_ok, array_ok; repeat split; try done; repeat constructor; try done. Qed.

Lemma policy_roundtrip_witness :
  pol_gas_tx_allowed_selectors (set_selectors sample_fields
    (canonical_selectors (pol_gas_tx_allowed_selectors sample_fields))) =
    [[x10; x00; x00; x02]; [xb0; x00; x00; x01]] /\
  from_bytes (to_bytes (Production sample_fields)) = Ok (normalise (Production sample_fields)).
Proof.
  split; [reflexivity|].
  exact (proj1 (policy_roundtrip (Production sample_fields) [] sample_fields_typed)).
Defined.

(** The commitment distinguishes postures: two policies have the same
    encoding exactly when they agree on every field, up to the order and
    multiplicity of the selectors.  In particular a production policy never
    has the encoding of a development one. *)
Theorem policy_encoding_injective p q :
  policy_typed p -> policy_typed q ->
  to_bytes p = to_bytes q <->
  match p, q with
  | Production f, Production g =>
      (forall s, s ∈ pol_gas_tx_allowed_selectors f <-> s ∈ pol_gas_tx_allowed_selectors g) /\
      set_selectors f [] = set_selectors g []
  | Development, Development => True
  | _, _ => False
  end.
Proof.
  intros Wp Wq.
  assert (Hn : to_bytes p = to_bytes q <-> normalise p = normalise q).
  { split.
    - intros E. apply from_to_bytes in Wp, Wq. rewrite E, Wq in Wp. congruence.
    - intros E. destruct p, q; try done. rewrite !to_bytes_production. cbn in E. congruence. }
  rewrite Hn. destruct p as [f|], q as [g|]; try (split; done). cbn [normalise]. split.
  - intros E. apply (inj Production) in E. split.
    + intros s. rewrite <- (canonical_elem (pol_gas_tx_allowed_selectors f)).
      rewrite <- (canonical_elem (pol_gas_tx_allowed_selectors g)).
      apply (f_equal pol_gas_tx_allowed_selectors) in E. cbn in E. by rewrite E.
    + by apply (f_equal (fun h => set_selectors h [])) in E.
  - intros [Hs E]. f_equal.
    assert (Ec : canonical_selectors (pol_gas_tx_allowed_selectors f) =
                 canonical_selectors (pol_gas_tx_allowed_selectors g)).
    { apply (StronglySorted_unique_strong lex_lt).
      - intros x y _ _ H1 H2. exfalso. apply lex_lt_iff in H1 as [H1 Hne], H2 as [H2 _].
        apply Hne. by apply (anti_symm lex_le).
      - apply Sorted_StronglySorted; [apply lex_lt_trans|apply canonical_sorted].
      - apply Sorted_StronglySorted; [apply lex_lt_trans|apply canonical_sorted].
      - apply NoDup_Permutation; [| |intros x; by rewrite !canonical_elem, Hs].
        + apply sorted_lt_nodup, canonical_sorted.
        + apply sorted_lt_nodup, canonical_sorted. }
    rewrite Ec. by apply (f_equal (fun h => set_selectors h
      (canonical_selectors (pol_gas_tx_allowed_selectors g)))) in E.
Qed.

Lemma policy_encoding_injective_witness :
  to_bytes (Production sample_fields) =
    to_bytes (Production (set_selectors sample_fields
      (canonical_selectors (pol_gas_tx_allowed_selectors sample_fields)))) /\
  to_bytes (Production sample_fields) <> to_bytes Development.
Proof.
  split.
  - apply (policy_encoding_injective (Production sample_fields) (Production _) sample_fields_typed).
    + apply (normalise_ok sample_fields sample_fields_typed).
    + split; [|reflexivity]. intros s. symmetry. apply canonical_elem.
  - intros E. exact (proj1 (policy_encoding_injective (Production sample_fields) Development sample_fields_typed I) E).
Defined.

(** The enclave's network and the attested one are chosen by the same
    strings: both parsers accept the same values and agree through
    [Network::attested], which keeps every network distinct on the wire. *)
Lemma network_names_agree s :
  bn_from_env_str s = attested <$> from_env_str s /\
  (forall m n, net_u8 (attested m) = net_u8 (attested n) -> m = n).
Proof.
  split; [|intros [] []; done].
  unfold bn_from_env_str, from_env_str.
  destruct (String.eqb_spec s "bitcoin") as [->|]; [done|].
  destruct (String.eqb_spec s "mainnet") as [->|]; [done|].
  destruct (String.eqb_spec s "signet") as [->|]; [done|].
  destruct (String.eqb_spec s "signetcustom") as [->|]; [done|].
  destruct (String.eqb_spec s "testnet") as [->|]; [done|].
  destruct (String.eqb_spec s "testnet3") as [->|]; [done|].
  destruct (String.eqb_spec s "testnet4") as [->|]; [done|].
  destruct (String.eqb_spec s "regtest") as [->|]; done.
Qed.
