(* ===== verification/AttestedKeys.v ===== *)
(** * Public keys and their attestation (src/enclave/src/server/keys.rs)

    The answers of [GetPublicKey] and [GetAttestedPublicKey], the canonical key
    bundle they commit to, and the commitment of a clone response.  The NSM
    device is the interface [Nsm], SHA-256 a parameter; a [String] is its UTF-8
    bytes. *)

From stdpp Require Import strings base gmap numbers list.
From S2P Require Import Prelude Errors Attestation AttestedPolicy.

#[local] Open Scope list_scope.
#[local] Open Scope Z_scope.

(** What [attestation.rs] reads from the NSM. *)
Class Nsm : Type := {
  get_attestation : bytes -> option bytes -> option bytes -> enclave_result bytes;
  get_own_pcrs : enclave_result ExpectedPcrs;
  get_own_pcr3 : enclave_result bytes
}.

(** [KeyInfo] (keys.rs): the public half of the keys. *)
Record KeyInfo : Type := {
  ki_evm_address : bytes;
  ki_evm_uncompressed_pub : bytes;
  ki_evm_gas_tx_address : bytes;
  ki_evm_gas_tx_uncompressed_pub : bytes;
  ki_btc_compressed_pubkey : bytes;
  ki_btc_xpub : bytes;
  ki_master_fingerprint : bytes;
  ki_account_xpub_vanilla : bytes;
  ki_account_xpub_colored : bytes;
  ki_ccd_ed25519_pub : bytes
}.

(** The fields of [BridgeConfig] in the answer. *)
Record KeyConfig : Type := {
  kc_chain_id : Z;
  kc_bridge_contract : bytes;
  kc_rgb_asset_id : bytes
}.

Record PublicKeysResponse : Type := {
  pk_evm_address : bytes;
  pk_btc_compressed_pub : bytes;
  pk_btc_xpub : bytes;
  pk_master_fingerprint : bytes;
  pk_account_xpub_vanilla : bytes;
  pk_account_xpub_colored : bytes;
  pk_evm_uncompressed_pub : bytes;
  pk_chain_id : Z;
  pk_bridge_contract : bytes;
  pk_rgb_asset_id : bytes;
  pk_evm_gas_tx_uncompressed_pub : bytes;
  pk_evm_gas_tx_address : bytes;
  pk_ccd_ed25519_pub : bytes
}.

Definition build_public_keys_response (keys : KeyInfo) (cfg : KeyConfig) : PublicKeysResponse := {|
  pk_evm_address := ki_evm_address keys;
  pk_btc_compressed_pub := ki_btc_compressed_pubkey keys;
  pk_btc_xpub := ki_btc_xpub keys;
  pk_master_fingerprint := ki_master_fingerprint keys;
  pk_account_xpub_vanilla := ki_account_xpub_vanilla keys;
  pk_account_xpub_colored := ki_account_xpub_colored keys;
  pk_evm_uncompressed_pub := ki_evm_uncompressed_pub keys;
  pk_chain_id := kc_chain_id cfg;
  pk_bridge_contract := kc_bridge_contract cfg;
  pk_rgb_asset_id := kc_rgb_asset_id cfg;
  pk_evm_gas_tx_uncompressed_pub := ki_evm_gas_tx_uncompressed_pub keys;
  pk_evm_gas_tx_address := ki_evm_gas_tx_address keys;
  pk_ccd_ed25519_pub := ki_ccd_ed25519_pub keys |}.

(** The loop of both bundle writers: a [u32] length before each part. *)
Definition prefixed (parts : list bytes) : bytes :=
  concat (map (fun p => be_split 4 (zlen p) ++ p) parts).

Definition bundle_parts (keys : PublicKeysResponse) : list bytes :=
  [pk_evm_address keys; pk_btc_compressed_pub keys; pk_btc_xpub keys; pk_master_fingerprint keys;
   pk_account_xpub_vanilla keys; pk_account_xpub_colored keys; pk_evm_uncompressed_pub keys;
   be_split 8 (pk_chain_id keys); pk_bridge_contract keys; pk_rgb_asset_id keys;
   pk_evm_gas_tx_uncompressed_pub keys; pk_evm_gas_tx_address keys; pk_ccd_ed25519_pub keys].

Definition canonical_pubkey_bundle (keys : PublicKeysResponse) : bytes := prefixed (bundle_parts keys).

Record GetAttestedPublicKeyResponse : Type := {
  gr_public_keys : option PublicKeysResponse;
  gr_attestation_doc : bytes;
  gr_attested_policy : bytes
}.

Section Answers.
Context {N : Nsm} (sha256 : bytes -> bytes).

(** [user_data] of a keyed answer. *)
Definition key_commitment (keys : PublicKeysResponse) (policy : bytes) : bytes :=
  sha256 (canonical_pubkey_bundle keys ++ policy).

Definition clone_commitment (bundle : PublicKeysResponse) (policy requester donor ciphertext : bytes)
    : bytes :=
  be_split 4 1 ++
  sha256 (String.list_byte_of_string "utexo/clone-response/v1" ++ [x00] ++
          sha256 (canonical_pubkey_bundle bundle) ++ sha256 policy ++ requester ++ donor ++
          sha256 ciphertext).

Definition verify_clone_commitment (actual : option bytes) (expected : bytes) : enclave_result unit :=
  if bool_decide (actual = Some expected) then Ok tt
  else Err (Attestation "clone response version/identity/policy/transcript mismatch").

(** [keys] is [state.get_keys()], [policy] the policy bytes of the launch, or
    [NotReady] before [SetEndpoints]. *)
Definition handle_get_public_key (keys : enclave_result KeyInfo) (cfg : KeyConfig)
    : enclave_result PublicKeysResponse :=
  let? keys := keys in
  Ok (build_public_keys_response keys cfg).

Definition handle_get_attested_public_key (keys : enclave_result KeyInfo) (cfg : KeyConfig)
    (policy : enclave_result bytes) (nonce : bytes)
    : enclave_result GetAttestedPublicKeyResponse :=
  if negb (zlen nonce =? 32) then Err (InvalidRequest "nonce must be 32 bytes")
  else
    let? attested_policy := policy in
    match keys with
    | Err KeyNotInitialized =>
        let commitment := policy_commitment sha256 attested_policy in
        let? doc := get_attestation nonce None (Some commitment) in
        Ok {| gr_public_keys := None; gr_attestation_doc := doc;
              gr_attested_policy := attested_policy |}
    | Err e => Err e
    | Panic => Panic
    | Ok keys =>
        let public_keys := build_public_keys_response keys cfg in
        let commitment := key_commitment public_keys attested_policy in
        let? doc := get_attestation nonce (Some (pk_evm_uncompressed_pub public_keys))
                      (Some commitment) in
        Ok {| gr_public_keys := Some public_keys; gr_attestation_doc := doc;
              gr_attested_policy := attested_policy |}
    end.

End Answers.

(** ** The bundle is injective *)

(** Lengths within their [u32], the chain id within its [u64]. *)
Definition sized (parts : list bytes) : Prop := Forall (fun p => is_u32 (zlen p)) parts.

Definition keys_sized (k : PublicKeysResponse) : Prop := sized (bundle_parts k) /\ is_u64 (pk_chain_id k).

Lemma prefixed_inj ps : forall qs r s,
  length ps = length qs -> sized ps -> sized qs ->
  prefixed ps ++ r = prefixed qs ++ s -> ps = qs /\ r = s.
Proof.
  induction ps as [|p ps IH]; intros [|q qs] r s Hl Hp Hq H; try discriminate; [done|].
  apply Forall_cons in Hp as [Hp Hps], Hq as [Hq Hqs].
  change (prefixed (p :: ps)) with ((be_split 4 (zlen p) ++ p) ++ prefixed ps) in H.
  change (prefixed (q :: qs)) with ((be_split 4 (zlen q) ++ q) ++ prefixed qs) in H.
  rewrite <- !app_assoc in H. apply app_inj_1 in H as [H1 H]; [|by rewrite !be_split_length].
  apply (f_equal be_combine) in H1. unfold is_u32 in *. rewrite !be_combine_split in H1 by lia.
  apply app_inj_1 in H as [-> H]; [|unfold zlen in H1; lia].
  destruct (IH qs r s ltac:(cbn in Hl; lia) Hps Hqs H) as [-> ->]. done.
Qed.

(** Two bundles that agree with whatever follows them are the same keys. *)
Lemma bundle_inj k l r s :
  keys_sized k -> keys_sized l ->
  canonical_pubkey_bundle k ++ r = canonical_pubkey_bundle l ++ s -> k = l /\ r = s.
Proof.
  intros [Hk Hck] [Hl Hcl] H. apply prefixed_inj in H as [H ->]; [|done..].
  assert (Hc : be_combine (be_split 8 (pk_chain_id k)) = be_combine (be_split 8 (pk_chain_id l)))
    by (apply (f_equal (fun ps => be_combine (nth 7 ps []))) in H; exact H).
  unfold is_u64 in *. rewrite !be_combine_split in Hc by lia.
  unfold bundle_parts in H. rewrite Hc in H. set (c := be_split 8 _) in H. clearbody c.
  injection H as ? ? ? ? ? ? ? ? ? ? ? ?.
  destruct k, l; cbn in *. by subst.
Qed.

(** ** The documents an enclave asks the NSM for

    [serves] is what the enclaves of the image answer [GetAttestedPublicKey]
    with, [initiated] the keys they make in [InitiateCloning], with the secret
    and the donor they are for; the other documents are the policy-only answer,
    the donor's half of the cloning handshake (server/cloning.rs) and the one-shot
    recipient of a KMS call, which carries a key and no user data (kms/mod.rs). *)
Inductive requested (sha256 : bytes -> bytes) (hmac : bytes -> bytes -> bytes)
    (serves : PublicKeysResponse -> bytes -> Prop) (initiated : bytes -> bytes -> bytes -> Prop)
    : option bytes -> option bytes -> Prop :=
| ReqKeys ks pol :
    serves ks pol -> keys_sized ks -> zlen (pk_evm_uncompressed_pub ks) = 64 ->
    requested sha256 hmac serves initiated (Some (pk_evm_uncompressed_pub ks))
      (Some (key_commitment sha256 ks pol))
| ReqPolicy pol : requested sha256 hmac serves initiated None (Some (policy_commitment sha256 pol))
| ReqInitiate secret key target :
    initiated secret key target ->
    requested sha256 hmac serves initiated (Some key) (Some (hmac secret (key ++ target)))
| ReqDonor ks pol requester donor ciphertext :
    requested sha256 hmac serves initiated (Some donor)
      (Some (clone_commitment sha256 ks pol requester donor ciphertext))
| ReqRecipient key : requested sha256 hmac serves initiated (Some key) None.
