(* ===== verification/ParentAttest.v ===== *)
(** * Checking an attested answer (src/parent/src/attest_verify.rs,
      launch_check.rs)

    The operator's side of the attestation: the keyed check, the policy-only
    check at launch, and the bundle that is exported and checked offline.
    [verify_doc] is the document verifier the caller picks; hex and base64 are
    the interface [TextCodecs], and a bundle is read back as [serde_json] reads
    it.  An error is its fixed text. *)

From stdpp Require Import strings pretty base gmap numbers list.
From S2P Require Import Prelude Errors RustText Attestation AttestedPolicy AttestedKeys.

#[local] Open Scope list_scope.
#[local] Open Scope Z_scope.

Abbreviation parent_result := str_result (only parsing).

Inductive VerifyMode : Type := VReal | VMock.

#[export] Instance verify_mode_eq_dec : EqDecision VerifyMode.
Proof. solve_decision. Defined.

Definition refuse_mock_production (mode : VerifyMode) (production : bool) : parent_result unit :=
  if bool_decide (mode = VMock) && production then
    Err "mock mode refuses a Production expectation"
  else Ok tt.

(** [ExpectedPolicy::Production]. *)
Record ExpectedProduction : Type := {
  ep_allow_vanilla_psbt : bool;
  ep_signer_role : SignerRole;
  ep_evm_source : EvmDataSource;
  ep_electrum_host : bytes;
  ep_evm_rpc_tls : option EvmRpcTlsPin;
  expected_chain_id : option Z;
  ep_bitcoin_network : BitcoinNetwork;
  expected_bridge_contract : option bytes;
  expected_rgb_asset_id : option bytes;
  ep_funds_in_contract : bytes;
  ep_evm_finality_tag : EvmFinalityTag;
  ep_token_contract : bytes;
  ep_spv_min_confirmations : Z;
  ep_gas_tx_allowed_to : bytes;
  ep_gas_tx_max_gas_limit : Z;
  ep_gas_tx_max_fee_per_gas : Z;
  ep_gas_tx_max_value_wei : Z;
  ep_gas_tx_allowed_selectors : list bytes;
  ep_kms : option KmsPin
}.

Inductive ExpectedPolicy : Type :=
| ExpectProduction (e : ExpectedProduction)
| ExpectDevelopment.

Definition expects_production (e : ExpectedPolicy) : bool :=
  match e with ExpectProduction _ => true | ExpectDevelopment => false end.

Definition is_production (p : AttestedPolicy) : bool :=
  match p with Production _ => true | Development => false end.

(** The parent's answer; its thirteen key fields are those of the enclave's. *)
Record AttestedPublicKeyResponse : Type := {
  ar_keys : PublicKeysResponse;
  ar_attestation_doc : bytes;
  ar_attested_policy : bytes
}.

Record AttestedPubkeyResult : Type := {
  apr_mode : VerifyMode;
  response : AttestedPublicKeyResponse;
  verified : VerifiedAttestation;
  bundle_commitment : bytes;
  nonce_sent : bytes;
  policy : AttestedPolicy
}.

Definition canonical_bundle (resp : AttestedPublicKeyResponse) : bytes :=
  let k := ar_keys resp in
  prefixed
    [pk_evm_address k; pk_btc_compressed_pub k; pk_btc_xpub k; pk_master_fingerprint k;
     pk_account_xpub_vanilla k; pk_account_xpub_colored k; pk_evm_uncompressed_pub k;
     be_split 8 (pk_chain_id k); pk_bridge_contract k; pk_rgb_asset_id k;
     pk_evm_gas_tx_uncompressed_pub k; pk_evm_gas_tx_address k; pk_ccd_ed25519_pub k].

(** ** The keyed check *)

Section Check.
Context (sha256 : bytes -> bytes).

Definition verify_keyed (resp : AttestedPublicKeyResponse) (nonce : bytes) (mode : VerifyMode)
    (verify_doc : bytes -> parent_result VerifiedAttestation) : parent_result AttestedPubkeyResult :=
  let? v := verify_doc (ar_attestation_doc resp) in
  if negb (bool_decide (enclave_pubkey v = pk_evm_uncompressed_pub (ar_keys resp))) then
    Err "attestation public_key does not match wire evm_uncompressed_pub"
  else
    let commitment := sha256 (canonical_bundle resp ++ ar_attested_policy resp) in
    let? user_data := ok_or (va_user_data v) "attestation has no user_data field" in
    if negb (bool_decide (user_data = commitment)) then
      Err "attestation user_data does not match sha256(canonical_bundle || policy)"
    else
      let? p := from_bytes (ar_attested_policy resp) in
      Ok {| apr_mode := mode; response := resp; verified := v; bundle_commitment := commitment;
            nonce_sent := nonce; policy := p |}.

(** [clone_peer_pcr3]. *)
Definition document_pcr3 (role : SignerRole) (doc_pcrs : gmap Z bytes)
    : parent_result (option bytes) :=
  if negb (clones role) then Ok None
  else
    let? pcr3 := ok_or (doc_pcrs !! 3) "the attestation document has no PCR3" in
    if negb (zlen pcr3 =? 48) then Err "the document PCR3 is not 48 bytes"
    else if forallb (fun b => b2z b =? 0) pcr3 then Err "the document PCR3 is all zero"
    else Ok (Some pcr3).

(** A pin, where the operator gives one. *)
Definition check_pinned {A : Type} `{EqDecision A} (want : option A) (got : A) (m : string)
    : parent_result unit :=
  match want with
  | Some w => if bool_decide (w = got) then Ok tt else Err m
  | None => Ok tt
  end.

Definition expected_attested_policy (expected : ExpectedPolicy) (resp : AttestedPublicKeyResponse)
    (doc_pcrs : gmap Z bytes) : parent_result AttestedPolicy :=
  match expected with
  | ExpectDevelopment => Ok Development
  | ExpectProduction e =>
      let k := ar_keys resp in
      if negb (zlen (pk_bridge_contract k) =? 20) then
        Err "wire bridge_contract has the wrong length, expected 20"
      else
        let? _ := check_pinned (expected_chain_id e) (pk_chain_id k) "chain_id mismatch" in
        let? _ := check_pinned (expected_bridge_contract e) (pk_bridge_contract k)
                    "bridge_contract mismatch" in
        let? _ := check_pinned (expected_rgb_asset_id e) (pk_rgb_asset_id k)
                    "rgb_asset_id mismatch" in
        let? pcr3 := document_pcr3 (ep_signer_role e) doc_pcrs in
        Ok (Production {|
          allow_vanilla_psbt := ep_allow_vanilla_psbt e;
          signer_role := ep_signer_role e;
          attestation := Real;
          evm_source := ep_evm_source e;
          btc_source := SpvVerified;
          pol_chain_id := pk_chain_id k;
          bitcoin_network := ep_bitcoin_network e;
          bridge_contract := pk_bridge_contract k;
          rgb_asset_id := pk_rgb_asset_id k;
          funds_in_contract := ep_funds_in_contract e;
          evm_finality_tag := ep_evm_finality_tag e;
          spv_min_confirmations := ep_spv_min_confirmations e;
          electrum_host := ep_electrum_host e;
          evm_rpc_tls := ep_evm_rpc_tls e;
          pol_gas_tx_allowed_to := ep_gas_tx_allowed_to e;
          pol_gas_tx_max_gas_limit := ep_gas_tx_max_gas_limit e;
          pol_gas_tx_max_fee_per_gas := ep_gas_tx_max_fee_per_gas e;
          pol_gas_tx_max_value_wei := ep_gas_tx_max_value_wei e;
          pol_gas_tx_allowed_selectors := ep_gas_tx_allowed_selectors e;
          token_contract := ep_token_contract e;
          kms := ep_kms e;
          clone_peer_pcr3 := pcr3 |})
  end.

Definition check_expected_policy (result : AttestedPubkeyResult) (expected_policy : ExpectedPolicy)
    : parent_result unit :=
  let? expected :=
    expected_attested_policy expected_policy (response result) (va_pcrs (verified result)) in
  if bool_decide (ar_attested_policy (response result) = to_bytes expected) then Ok tt
  else Err "the attested policy does not match the expected policy".

Definition verify_attested_response_with (resp : AttestedPublicKeyResponse) (nonce : bytes)
    (mode : VerifyMode) (expected_policy : ExpectedPolicy)
    (verify_doc : bytes -> parent_result VerifiedAttestation) : parent_result AttestedPubkeyResult :=
  let? _ := refuse_mock_production mode (expects_production expected_policy) in
  let? result := verify_keyed resp nonce mode verify_doc in
  let? _ := check_expected_policy result expected_policy in
  Ok result.

Definition attested_response (r : GetAttestedPublicKeyResponse)
    : parent_result AttestedPublicKeyResponse :=
  let? pk := ok_or (gr_public_keys r) "the enclave has no key; run init or clone first" in
  Ok {| ar_keys := pk; ar_attestation_doc := gr_attestation_doc r;
        ar_attested_policy := gr_attested_policy r |}.

(** ** The launch check *)

Definition set_pcr3 (f : ProductionFields) (pcr3 : option bytes) : ProductionFields := {|
  allow_vanilla_psbt := allow_vanilla_psbt f; signer_role := signer_role f;
  attestation := attestation f; evm_source := evm_source f; btc_source := btc_source f;
  pol_chain_id := pol_chain_id f; bitcoin_network := bitcoin_network f;
  bridge_contract := bridge_contract f; rgb_asset_id := rgb_asset_id f;
  funds_in_contract := funds_in_contract f; evm_finality_tag := evm_finality_tag f;
  spv_min_confirmations := spv_min_confirmations f; electrum_host := electrum_host f;
  evm_rpc_tls := evm_rpc_tls f; pol_gas_tx_allowed_to := pol_gas_tx_allowed_to f;
  pol_gas_tx_max_gas_limit := pol_gas_tx_max_gas_limit f;
  pol_gas_tx_max_fee_per_gas := pol_gas_tx_max_fee_per_gas f;
  pol_gas_tx_max_value_wei := pol_gas_tx_max_value_wei f;
  pol_gas_tx_allowed_selectors := pol_gas_tx_allowed_selectors f;
  token_contract := token_contract f; kms := kms f; clone_peer_pcr3 := pcr3 |}.

Definition with_document_pcr3 (expected : AttestedPolicy) (doc_pcrs : gmap Z bytes)
    : parent_result AttestedPolicy :=
  match expected with
  | Production f =>
      let? pcr3 := document_pcr3 (signer_role f) doc_pcrs in
      Ok (Production (set_pcr3 f pcr3))
  | Development => Ok Development
  end.

Context {T : TextCodecs}.

Definition hex0x (b : bytes) : bytes := text "0x" ++ hex_encode b.

Definition decimal (z : Z) : bytes := text (pretty (Z.to_N z)).

Definition presence (present : bool) : bytes := text (if present then "present" else "absent").

Definition bool_str (b : bool) : bytes := text (if b then "true" else "false").

(** The derived [Debug] names. *)
Definition role_debug (r : SignerRole) : string :=
  match r with Combined => "Combined" | Mint => "Mint" | Burn => "Burn" end.
Definition mode_debug (m : AttestationMode) : string := match m with Mock => "Mock" | Real => "Real" end.
Definition evm_debug (s : EvmDataSource) : string :=
  match s with Disabled => "Disabled" | RawRpc => "RawRpc" | PinnedTlsRpc => "PinnedTlsRpc" end.
Definition btc_debug (s : BtcDataSource) : string := match s with SpvVerified => "SpvVerified" end.
Definition net_debug (n : BitcoinNetwork) : string :=
  match n with
  | BnMainnet => "Mainnet" | BnTestnet3 => "Testnet3" | BnSignet => "Signet"
  | BnRegtest => "Regtest" | BnTestnet4 => "Testnet4" | BnSignetCustom => "SignetCustom"
  end.

(** [join(",")]. *)
Fixpoint join (l : list bytes) : bytes :=
  match l with
  | [] => []
  | [x] => x
  | x :: l => x ++ text "," ++ join l
  end.

Definition fields (p : AttestedPolicy) : list (string * bytes) :=
  match p with
  | Development => [("policy", text "Development")]
  | Production f =>
      [("policy", text "Production");
       ("allow_vanilla_psbt", bool_str (allow_vanilla_psbt f));
       ("signer_role", text (role_debug (signer_role f)));
       ("attestation", text (mode_debug (attestation f)));
       ("evm_source", text (evm_debug (evm_source f)));
       ("btc_source", text (btc_debug (btc_source f)));
       ("chain_id", decimal (pol_chain_id f));
       ("bitcoin_network", text (net_debug (bitcoin_network f)));
       ("bridge_contract", hex0x (bridge_contract f));
       ("rgb_asset_id", rgb_asset_id f);
       ("funds_in_contract", hex0x (funds_in_contract f));
       ("evm_finality_tag", text (tag_str (evm_finality_tag f)));
       ("spv_min_confirmations", decimal (spv_min_confirmations f));
       ("electrum_host", electrum_host f);
       ("evm_rpc_tls", presence (bool_decide (is_Some (evm_rpc_tls f))))] ++
      match evm_rpc_tls f with
      | Some pin => [("evm_rpc_tls.host", pin_host pin);
                     ("evm_rpc_tls.ca_sha256", hex0x (pin_ca_sha256 pin))]
      | None => []
      end ++
      [("gas_tx_allowed_to", hex0x (pol_gas_tx_allowed_to f));
       ("gas_tx_max_gas_limit", decimal (pol_gas_tx_max_gas_limit f));
       ("gas_tx_max_fee_per_gas", decimal (pol_gas_tx_max_fee_per_gas f));
       ("gas_tx_max_value_wei", decimal (pol_gas_tx_max_value_wei f));
       ("gas_tx_allowed_selectors",
        join (map hex0x (canonical_selectors (pol_gas_tx_allowed_selectors f))));
       ("token_contract", hex0x (token_contract f));
       ("kms", presence (bool_decide (is_Some (kms f))))] ++
      match kms f with
      | Some pin => [("kms.key_arn", key_arn pin); ("kms.region", region pin);
                     ("kms.seed_id", seed_id pin);
                     ("kms.expected_evm_address",
                      match expected_evm_address pin with Some a => hex0x a | None => text "none" end)]
      | None => []
      end ++
      [("clone_peer_pcr3", presence (bool_decide (is_Some (clone_peer_pcr3 f))))] ++
      match clone_peer_pcr3 f with
      | Some pcr3 => [("clone_peer_pcr3.value", hex0x pcr3)]
      | None => []
      end
  end.

(** The loop over the zipped fields. *)
Fixpoint compare_fields (want got : list (string * bytes)) : parent_result unit :=
  match want, got with
  | (_, w) :: want, (_, g) :: got =>
      if bool_decide (w = g) then compare_fields want got else Err "policy field mismatch"
  | _, _ => Ok tt
  end.

Definition compare_policy (expected : AttestedPolicy) (attested : bytes)
    : parent_result AttestedPolicy :=
  let? decoded := from_bytes attested in
  let? _ := compare_fields (fields expected) (fields decoded) in
  if bool_decide (to_bytes expected = attested) then Ok decoded
  else Err "attested policy bytes differ from the expected policy".

Definition check_launch_with (resp : GetAttestedPublicKeyResponse) (mode : VerifyMode)
    (expected : AttestedPolicy) (verify_doc : bytes -> parent_result VerifiedAttestation)
    : parent_result AttestedPolicy :=
  let? _ := refuse_mock_production mode (is_production expected) in
  match gr_public_keys resp with
  | Some _ => Err "the enclave already has keys; the launch check needs a fresh enclave"
  | None =>
      let? v := verify_doc (gr_attestation_doc resp) in
      if negb (bool_decide (va_user_data v =
                            Some (policy_commitment sha256 (gr_attested_policy resp)))) then
        Err "attestation user_data does not commit the returned policy bytes"
      else
        let? expected := with_document_pcr3 expected (va_pcrs v) in
        compare_policy expected (gr_attested_policy resp)
  end.

(** ** Stored bundles *)

Definition BUNDLE_FORMAT : bytes := text "utexo-signer-attestation/2".

Record BundleKeys : Type := {
  bk_evm_address : bytes;
  bk_btc_compressed_pub : bytes;
  bk_btc_xpub : bytes;
  bk_master_fingerprint : bytes;
  bk_account_xpub_vanilla : bytes;
  bk_account_xpub_colored : bytes;
  bk_evm_uncompressed_pub : bytes;
  bk_chain_id : Z;
  bk_bridge_contract : bytes;
  bk_rgb_asset_id : bytes;
  bk_evm_gas_tx_uncompressed_pub : bytes;
  bk_evm_gas_tx_address : bytes;
  bk_ccd_ed25519_pub : bytes
}.

Record AttestationBundle : Type := {
  ab_format : bytes;
  verification_mode : VerifyMode;
  ab_nonce : bytes;
  ab_attestation_doc : bytes;
  public_keys : BundleKeys;
  ab_attested_policy : bytes;
  ab_policy : list (bytes * bytes)
}.

(** [value.strip_prefix("0x").unwrap_or(value)], decoded. *)
Definition from_hex0x (value : bytes) : parent_result bytes :=
  let digits := match value with x30 :: x78 :: rest => rest | _ => value end in
  ok_or (hex_decode digits) "bundle field is not hex".

Definition bundle_keys (r : AttestedPublicKeyResponse) : BundleKeys :=
  let k := ar_keys r in {|
  bk_evm_address := hex0x (pk_evm_address k);
  bk_btc_compressed_pub := hex0x (pk_btc_compressed_pub k);
  bk_btc_xpub := pk_btc_xpub k;
  bk_master_fingerprint := hex0x (pk_master_fingerprint k);
  bk_account_xpub_vanilla := pk_account_xpub_vanilla k;
  bk_account_xpub_colored := pk_account_xpub_colored k;
  bk_evm_uncompressed_pub := hex0x (pk_evm_uncompressed_pub k);
  bk_chain_id := pk_chain_id k;
  bk_bridge_contract := hex0x (pk_bridge_contract k);
  bk_rgb_asset_id := pk_rgb_asset_id k;
  bk_evm_gas_tx_uncompressed_pub := hex0x (pk_evm_gas_tx_uncompressed_pub k);
  bk_evm_gas_tx_address := hex0x (pk_evm_gas_tx_address k);
  bk_ccd_ed25519_pub := hex0x (pk_ccd_ed25519_pub k) |}.

(** The policy fields as the bundle stores them. *)
Definition stored_fields (p : AttestedPolicy) : list (bytes * bytes) :=
  map (fun '(field, value) => (text field, value)) (fields p).

(** [AttestationBundle::new]. *)
Definition bundle_of (result : AttestedPubkeyResult) : AttestationBundle :=
  let r := response result in {|
  ab_format := BUNDLE_FORMAT;
  verification_mode := apr_mode result;
  ab_nonce := hex0x (nonce_sent result);
  ab_attestation_doc := base64_encode (ar_attestation_doc r);
  public_keys := bundle_keys r;
  ab_attested_policy := hex0x (ar_attested_policy r);
  ab_policy := stored_fields (policy result) |}.

(** [AttestationBundle::response]. *)
Definition bundle_response (b : AttestationBundle) : parent_result (bytes * AttestedPublicKeyResponse) :=
  let? nonce := from_hex0x (ab_nonce b) in
  if negb (zlen nonce =? 32) then Err "bundle field nonce is not 32 bytes"
  else
    let k := public_keys b in
    let? evm_address := from_hex0x (bk_evm_address k) in
    let? evm_uncompressed_pub := from_hex0x (bk_evm_uncompressed_pub k) in
    let? btc_compressed_pub := from_hex0x (bk_btc_compressed_pub k) in
    let? master_fingerprint := from_hex0x (bk_master_fingerprint k) in
    let? doc := ok_or (base64_decode (ab_attestation_doc b))
                  "bundle field attestation_doc is not base64" in
    let? contract := from_hex0x (bk_bridge_contract k) in
    let? gas_pub := from_hex0x (bk_evm_gas_tx_uncompressed_pub k) in
    let? gas_address := from_hex0x (bk_evm_gas_tx_address k) in
    let? ccd := from_hex0x (bk_ccd_ed25519_pub k) in
    let? attested_policy := from_hex0x (ab_attested_policy b) in
    Ok (nonce, {|
      ar_keys := {|
        pk_evm_address := evm_address; pk_btc_compressed_pub := btc_compressed_pub;
        pk_btc_xpub := bk_btc_xpub k; pk_master_fingerprint := master_fingerprint;
        pk_account_xpub_vanilla := bk_account_xpub_vanilla k;
        pk_account_xpub_colored := bk_account_xpub_colored k;
        pk_evm_uncompressed_pub := evm_uncompressed_pub; pk_chain_id := bk_chain_id k;
        pk_bridge_contract := contract; pk_rgb_asset_id := bk_rgb_asset_id k;
        pk_evm_gas_tx_uncompressed_pub := gas_pub; pk_evm_gas_tx_address := gas_address;
        pk_ccd_ed25519_pub := ccd |};
      ar_attestation_doc := doc;
      ar_attested_policy := attested_policy |}).

Definition export_bundle_with (resp : GetAttestedPublicKeyResponse) (nonce : bytes)
    (mode : VerifyMode) (expected : AttestedPolicy) (expect_evm : option bytes)
    (verify_doc : bytes -> parent_result VerifiedAttestation) : parent_result AttestationBundle :=
  let? _ := refuse_mock_production mode (is_production expected) in
  let? resp := attested_response resp in
  let? result := verify_keyed resp nonce mode verify_doc in
  let? expected := with_document_pcr3 expected (va_pcrs (verified result)) in
  let? _ := compare_policy expected (ar_attested_policy (response result)) in
  let? _ :=
    match expect_evm with
    | Some want =>
        if bool_decide (pk_evm_address (ar_keys (response result)) = want) then Ok tt
        else Err "evm_address mismatch"
    | None => Ok tt
    end in
  Ok (bundle_of result).

(** The loop over the stored policy fields and the length check after it. *)
Fixpoint check_stored (attested : list (string * bytes)) (stored : list (bytes * bytes))
    : parent_result unit :=
  match attested with
  | [] =>
      match stored with
      | [] => Ok tt
      | _ => Err "policy has fields the attestation does not have"
      end
  | (field, value) :: attested =>
      match stored with
      | (f, v) :: stored =>
          if bool_decide (f = text field) && bool_decide (v = value) then check_stored attested stored
          else Err "policy field mismatch"
      | [] => Err "policy field mismatch"
      end
  end.

(** [json] is what [serde_json] makes of the file: the [format] field, then the
    bundle. *)
Definition verify_bundle_with (json_format : parent_result bytes)
    (json_bundle : parent_result AttestationBundle) (mode : VerifyMode)
    (expected_policy : ExpectedPolicy)
    (verify_doc : bytes -> bytes -> parent_result VerifiedAttestation)
    : parent_result AttestedPubkeyResult :=
  let? _ := refuse_mock_production mode (expects_production expected_policy) in
  let? format := json_format in
  if negb (bool_decide (format = BUNDLE_FORMAT)) then Err "bundle format is not supported"
  else
    let? bundle := json_bundle in
    if negb (bool_decide (verification_mode bundle = mode)) then
      Err "bundle verification_mode does not match the mode of this check"
    else
      let? (nonce, resp) := bundle_response bundle in
      let? result := verify_keyed resp nonce mode (fun doc => verify_doc doc nonce) in
      let? _ := check_expected_policy result expected_policy in
      let? _ := check_stored (fields (policy result)) (ab_policy bundle) in
      Ok result.

(** ** The entry points, with the document verifier of each mode *)

Context {C : Ciborium} {X : X509} {P : P384}.
Context (allow_debug : bool) (root_cert_der : bytes).

(** [anyhow]'s [context]. *)
Definition context {A : Type} (m : string) (r : verify_result A) : parent_result A :=
  rmap_err (fun _ => m) r.

Definition verify_now (doc : bytes) (pcrs : ExpectedPcrs) (nonce : bytes) (mode : VerifyMode)
    (now : option Z) : parent_result VerifiedAttestation :=
  match mode with
  | VReal => context "attestation verify failed"
               (verify_attestation allow_debug root_cert_der doc pcrs (Some nonce) now)
  | VMock => context "mock attestation verify failed"
               (verify_mock_attestation doc pcrs (Some nonce))
  end.

Definition verify_attested_response (resp : AttestedPublicKeyResponse) (nonce : bytes)
    (pcrs : ExpectedPcrs) (mode : VerifyMode) (expected_policy : ExpectedPolicy) (now : option Z)
    : parent_result AttestedPubkeyResult :=
  verify_attested_response_with resp nonce mode expected_policy
    (fun doc => verify_now doc pcrs nonce mode now).

Definition check_launch (resp : GetAttestedPublicKeyResponse) (nonce : bytes) (pcrs : ExpectedPcrs)
    (expected : AttestedPolicy) (mode : VerifyMode) (now : option Z) : parent_result AttestedPolicy :=
  check_launch_with resp mode expected (fun doc =>
    context "attestation verification failed"
      match mode with
      | VReal => verify_policy_attestation allow_debug root_cert_der doc pcrs nonce now
      | VMock => verify_mock_policy_attestation doc pcrs nonce
      end).

Definition export_bundle (resp : GetAttestedPublicKeyResponse) (nonce : bytes)
    (pcrs : ExpectedPcrs) (mode : VerifyMode) (expected : AttestedPolicy)
    (expect_evm : option bytes) (now : option Z) : parent_result AttestationBundle :=
  export_bundle_with resp nonce mode expected expect_evm
    (fun doc => verify_now doc pcrs nonce mode now).

(** A real document is checked at its own timestamp. *)
Definition verify_bundle (json_format : parent_result bytes)
    (json_bundle : parent_result AttestationBundle) (pcrs : ExpectedPcrs) (mode : VerifyMode)
    (expected_policy : ExpectedPolicy) (now : option Z) : parent_result AttestedPubkeyResult :=
  verify_bundle_with json_format json_bundle mode expected_policy (fun doc nonce =>
    match mode with
    | VReal => context "attestation verify failed"
                 (verify_attestation_at_document_time allow_debug root_cert_der doc pcrs nonce now)
    | VMock => context "mock attestation verify failed"
                 (verify_mock_attestation doc pcrs (Some nonce))
    end).

End Check.
