(* ===== verification/ParentAttestProps.v ===== *)
(** * Theorems on attested answers

    What the operator learns from an accepted answer, that the enclave's own
    answers are accepted, and that an exported bundle verifies offline. *)

From stdpp Require Import strings base gmap numbers list.
From S2P Require Import Prelude Errors RustText Attestation AttestationSample AttestationProps.
From S2P Require Import AttestedPolicy AttestedKeys ParentAttest.

#[local] Open Scope list_scope.
#[local] Open Scope Z_scope.

(** Both sides hash the same bytes. *)
Lemma canonical_bundle_eq resp : canonical_bundle resp = canonical_pubkey_bundle (ar_keys resp).
Proof. reflexivity. Qed.

(** ** Comparing policies *)

Section Policies.
Context {T : TextCodecs}.

Lemma fields_normalise p : fields (normalise p) = fields p.
Proof.
  destruct p as [f|]; [|done]. cbn [normalise].
  assert (E : canonical_selectors (canonical_selectors (pol_gas_tx_allowed_selectors f)) =
              canonical_selectors (pol_gas_tx_allowed_selectors f))
    by apply canonical_id, canonical_sorted.
  unfold fields. cbn [set_selectors allow_vanilla_psbt signer_role attestation evm_source btc_source
    pol_chain_id bitcoin_network bridge_contract rgb_asset_id funds_in_contract evm_finality_tag
    spv_min_confirmations electrum_host evm_rpc_tls pol_gas_tx_allowed_to pol_gas_tx_max_gas_limit
    pol_gas_tx_max_fee_per_gas pol_gas_tx_max_value_wei pol_gas_tx_allowed_selectors token_contract
    kms clone_peer_pcr3]. by rewrite E.
Qed.

Lemma compare_fields_refl l : compare_fields l l = Ok tt.
Proof. induction l as [|[f v] l IH]; [done|]. cbn [compare_fields]. by rewrite bool_decide_true. Qed.

(** The comparison field by field never refuses what the bytes accept. *)
Lemma compare_policy_iff p a d :
  policy_typed p -> compare_policy p a = Ok d <-> a = to_bytes p /\ d = normalise p.
Proof.
  intros W. unfold compare_policy. split.
  - intros H. apply rbind_ok in H as (q & Hq & H). apply rbind_ok in H as ([] & _ & H).
    case_bool_decide as E; [|done]. injection H as <-. split; [done|].
    rewrite <- E, from_to_bytes in Hq by done. by injection Hq as <-.
  - intros [-> ->]. rewrite from_to_bytes by done. cbn [rbind].
    rewrite fields_normalise, compare_fields_refl. cbn [rbind]. by rewrite bool_decide_true.
Qed.

Lemma check_stored_self p : check_stored (fields p) (stored_fields p) = Ok tt.
Proof.
  unfold stored_fields. generalize (fields p). intros l.
  induction l as [|[f v] l IH]; [done|]. cbn [map check_stored]. by rewrite !bool_decide_true.
Qed.

(** ** The text codecs of a bundle *)

Class TextLaws : Prop := {
  hex_roundtrip b : hex_decode (hex_encode b) = Some b;
  base64_roundtrip b : base64_decode (base64_encode b) = Some b
}.

Context {TL : TextLaws}.

Lemma from_hex0x_hex0x b : from_hex0x (hex0x b) = Ok b.
Proof. unfold from_hex0x, hex0x. cbn. by rewrite hex_roundtrip. Qed.

(** A stored bundle reads back as the answer it was made of. *)
Lemma bundle_response_of r :
  zlen (nonce_sent r) = 32 -> bundle_response (bundle_of r) = Ok (nonce_sent r, response r).
Proof.
  intros Hn. unfold bundle_response, bundle_of.
  cbn [ab_nonce public_keys ab_attestation_doc ab_attested_policy bundle_keys bk_evm_address
    bk_btc_compressed_pub bk_btc_xpub bk_master_fingerprint bk_account_xpub_vanilla
    bk_account_xpub_colored bk_evm_uncompressed_pub bk_chain_id bk_bridge_contract bk_rgb_asset_id
    bk_evm_gas_tx_uncompressed_pub bk_evm_gas_tx_address bk_ccd_ed25519_pub].
  repeat first [rewrite from_hex0x_hex0x | rewrite base64_roundtrip | progress cbn [rbind ok_or]
               | rewrite Hn; change (negb (32 =? 32)) with false; cbv iota].
  destruct (response r) as [[] doc pol]. done.
Qed.

End Policies.

(** ** The keyed check *)

Section Keyed.
Context (sha256 : bytes -> bytes).

Lemma verify_keyed_iff resp nonce mode vd result :
  verify_keyed sha256 resp nonce mode vd = Ok result <->
  exists v p,
    vd (ar_attestation_doc resp) = Ok v /\
    enclave_pubkey v = pk_evm_uncompressed_pub (ar_keys resp) /\
    va_user_data v = Some (key_commitment sha256 (ar_keys resp) (ar_attested_policy resp)) /\
    from_bytes (ar_attested_policy resp) = Ok p /\
    result = {| apr_mode := mode; response := resp; verified := v;
                bundle_commitment := key_commitment sha256 (ar_keys resp) (ar_attested_policy resp);
                nonce_sent := nonce; policy := p |}.
Proof.
  unfold verify_keyed. rewrite canonical_bundle_eq.
  change (sha256 (canonical_pubkey_bundle (ar_keys resp) ++ ar_attested_policy resp))
    with (key_commitment sha256 (ar_keys resp) (ar_attested_policy resp)). split.
  - intros H. apply rbind_ok in H as (v & Hv & H). case_bool_decide as Hk; [|done]. cbn [negb] in H.
    apply rbind_ok in H as (u & Hu & H). apply ok_or_ok in Hu.
    case_bool_decide as Hc; [|done]. cbn [negb] in H. apply rbind_ok in H as (p & Hp & H).
    injection H as <-. exists v, p. by subst u.
  - intros (v & p & -> & Hk & Hu & Hp & ->). cbn [rbind]. rewrite bool_decide_true by done.
    cbn [negb]. rewrite Hu. cbn [ok_or rbind]. rewrite bool_decide_true by done. cbn [negb].
    by rewrite Hp.
Qed.

Lemma check_expected_iff result ep :
  check_expected_policy result ep = Ok tt <->
  exists p, expected_attested_policy ep (response result) (va_pcrs (verified result)) = Ok p /\
            ar_attested_policy (response result) = to_bytes p.
Proof.
  unfold check_expected_policy. rewrite rbind_ok. split.
  - intros (p & Hp & H). case_bool_decide; [|done]. by exists p.
  - intros (p & Hp & H). exists p. split; [done|]. by rewrite bool_decide_true.
Qed.

Lemma expected_production ep resp m p :
  expected_attested_policy ep resp m = Ok p -> expects_production ep = is_production p.
Proof.
  unfold expected_attested_policy. destruct ep as [e|]; [|by intros [= <-]].
  intros H. destruct (negb _); [done|]. repeat (apply rbind_ok in H as (? & _ & H)).
  by injection H as <-.
Qed.

End Keyed.

Section Genuine.
Context {C : Ciborium} {X : X509} {P : P384} {XL : X509Laws} {CL : CiboriumLaws}.

(** C10: an accepted answer is the enclave's.  Let the documents with the approved
    PCRs be those that the image asks for, in any of its five uses.  Then keys
    and policy bytes that the check accepts, for the nonce just sent, are those
    that an enclave of the image serves, and the policy is the expected one:
    its role, its flags, and the chain, contract and asset of the key bundle.
    Neither the documents of the cloning handshake, nor a policy-only document,
    nor that of a KMS recipient pass for keys. *)
Theorem attested_keys_genuine sha256 hmac serves initiated root_der issued genuine resp nonce approved e now
    result :
  trusted_pki root_der issued genuine ->
  (forall body a, genuine body -> document_from_reader body = Some a ->
     has_pcrs (pcrs a) approved ->
     requested sha256 hmac serves initiated (public_key a) (user_data a)) ->
  (forall m, zlen (sha256 m) = 32) ->
  (forall secret k t, initiated secret k t ->
     hmac secret (k ++ t) <> key_commitment sha256 (ar_keys resp) (ar_attested_policy resp)) ->
  (forall ks pol, serves ks pol ->
     key_commitment sha256 ks pol = key_commitment sha256 (ar_keys resp) (ar_attested_policy resp) ->
     canonical_pubkey_bundle ks ++ pol =
     canonical_pubkey_bundle (ar_keys resp) ++ ar_attested_policy resp) ->
  keys_sized (ar_keys resp) -> (forall t, now = Some t -> is_u64 t) ->
  verify_attested_response sha256 false root_der resp nonce approved VReal (ExpectProduction e) now
    = Ok result ->
  serves (ar_keys resp) (ar_attested_policy resp) /\
  va_nonce (verified result) = nonce /\
  to_bytes (policy result) = ar_attested_policy resp /\
  exists f,
    expected_attested_policy (ExpectProduction e) resp (va_pcrs (verified result)) = Ok (Production f) /\
    ar_attested_policy resp = to_bytes (Production f) /\
    signer_role f = ep_signer_role e /\ allow_vanilla_psbt f = ep_allow_vanilla_psbt e /\
    pol_chain_id f = pk_chain_id (ar_keys resp) /\
    bridge_contract f = pk_bridge_contract (ar_keys resp) /\
    rgb_asset_id f = pk_rgb_asset_id (ar_keys resp).
Proof.
  intros Hpki Hreq Hlen Hhmac Hsha Hsz Hnow H. unfold verify_attested_response in H.
  unfold verify_attested_response_with in H. apply rbind_ok in H as ([] & _ & H).
  apply rbind_ok in H as (r & Hk & H). apply rbind_ok in H as ([] & He & H). injection H as ->.
  apply verify_keyed_iff in Hk as (v & p & Hv & Hkey & Hud & Hp & ->). cbn [verified policy].
  unfold verify_now, context in Hv.
  destruct (verify_attestation _ _ _ _ _ _) as [v'| |] eqn:Ev; [|done..]. injection Hv as ->.
  unfold verify_attestation in Ev. apply rbind_ok in Ev as ([a n] & Ed & Ei).
  apply (attestation_genuine Hpki _ _ _ _ _ _ _ _ Hnow) in Ed as (body & Hg & Hb & Hn & Hx & Hpc & _).
  unfold into_verified in Ei. destruct (public_key a) as [key|] eqn:Ek; [|done].
  injection Ei as <-. cbn in Hkey, Hud |- *.
  apply check_expected_iff in He as (q & Hq & Hqb). cbn in Hq, Hqb. split; [|split; [|split]].
  - pose proof (Hreq body a Hg Hb Hpc) as R. rewrite Ek, Hud in R.
    remember (Some key) as ok eqn:Eok. remember (Some (key_commitment _ _ _)) as oc eqn:Eoc.
    destruct R as [ks pol Hs Hks Hu64|pol|s k t|ks pol rq dn ct|k].
    + injection Eoc as Eoc. by destruct (bundle_inj _ _ _ _ Hks Hsz (Hsha ks pol Hs Eoc)) as [<- <-].
    + discriminate Eok.
    + injection Eoc as Eoc. by apply Hhmac in Eoc.
    + injection Eoc as Eoc. apply (f_equal zlen) in Eoc. unfold key_commitment in Eoc.
      rewrite Hlen in Eoc. unfold clone_commitment in Eoc. rewrite zlen_app, Hlen in Eoc.
      change (zlen (be_split 4 1)) with 4 in Eoc. discriminate Eoc.
    + discriminate Eoc.
  - by apply Hx.
  - by apply from_bytes_sound in Hp as (_ & _ & ->).
  - pose proof Hq as Hq'. unfold expected_attested_policy in Hq'. destruct (negb _); [done|].
    repeat (apply rbind_ok in Hq' as (? & ? & Hq')). injection Hq' as <-.
    eexists. split; [exact Hq|]. split; [exact Hqb|]. done.
Qed.

End Genuine.

(** ** The enclave's own answers pass *)

Section Answers.
Context {N : Nsm} {T : TextCodecs} (sha256 : bytes -> bytes).

(** The answers of [GetAttestedPublicKey] pass the operator's checks.  If the
    documents of the NSM verify as what was asked for, an enclave with keys gives
    an answer whose keys and decoded policy the keyed check returns, and an
    enclave without keys one that the launch check accepts for exactly the
    attested policy, and that the keyed check cannot take for keys. *)
Theorem enclave_answers_accepted keys cfg p nonce r mode vd pcr_map :
  (forall key ud doc, get_attestation nonce key ud = Ok doc ->
     exists v, vd doc = Ok v /\ enclave_pubkey v = default [] key /\ va_user_data v = ud /\
               va_pcrs v = pcr_map) ->
  policy_typed p ->
  handle_get_attested_public_key sha256 keys cfg (Ok (to_bytes p)) nonce = Ok r ->
  match keys with
  | Ok k =>
      exists resp result, attested_response r = Ok resp /\
        verify_keyed sha256 resp nonce mode vd = Ok result /\
        ar_keys (response result) = build_public_keys_response k cfg /\
        policy result = normalise p
  | _ =>
      (exists m, attested_response r = Err m) /\
      forall expected q d,
        mode = VReal \/ is_production expected = false ->
        with_document_pcr3 expected pcr_map = Ok q -> policy_typed q ->
        check_launch_with sha256 r mode expected vd = Ok d <->
        to_bytes q = to_bytes p /\ d = normalise q
  end.
Proof.
  intros Hnsm Hp H. unfold handle_get_attested_public_key in H. destruct (negb _); [done|].
  cbn [rbind] in H. destruct keys as [k|[]|]; try discriminate H;
    apply rbind_ok in H as (doc & Hd & H); injection H as <-;
    destruct (Hnsm _ _ _ Hd) as (v & Hv & Hk & Hu & Hm).
  - eexists _, _. split; [reflexivity|]. split; [|split].
    + apply verify_keyed_iff. exists v, (normalise p).
      cbn [ar_attestation_doc ar_keys ar_attested_policy gr_attested_policy gr_attestation_doc].
      rewrite from_to_bytes by done. by eauto 6.
    + reflexivity.
    + reflexivity.
  - split; [by eexists|]. intros expected q d Hmode Hq Wq.
    unfold check_launch_with, refuse_mock_production.
    replace (bool_decide (mode = VMock) && is_production expected) with false
      by (destruct Hmode as [-> | ->]; [done|by rewrite Bool.andb_false_r]).
    cbn [rbind gr_public_keys gr_attestation_doc gr_attested_policy]. rewrite Hv. cbn [rbind].
    rewrite bool_decide_true by done. cbn [negb]. rewrite Hm, Hq. cbn [rbind].
    rewrite compare_policy_iff by done. intuition congruence.
Qed.

End Answers.

(** ** Bundles *)

Section Bundles.
Context {T : TextCodecs} {TL : TextLaws} (sha256 : bytes -> bytes).

Lemma compare_policy_ok p a d : compare_policy p a = Ok d -> a = to_bytes p.
Proof.
  unfold compare_policy. intros H. apply rbind_ok in H as (q & _ & H).
  apply rbind_ok in H as ([] & _ & H). by case_bool_decide.
Qed.

(** An exported bundle verifies offline.  When the document still verifies at
    its own timestamp for the stored nonce and the operator expects the policy of
    the deploy, the offline check of the stored bundle accepts, with the keys and
    the policy of the answer that was exported, and exporting that result gives
    the same bundle again. *)
Theorem exported_bundle_verifies resp nonce mode expected expect_evm vd vd' ep b :
  zlen nonce = 32 ->
  export_bundle_with sha256 resp nonce mode expected expect_evm vd = Ok b ->
  (forall doc v, vd doc = Ok v -> vd' doc nonce = Ok v) ->
  (forall r m, attested_response resp = Ok r ->
     expected_attested_policy ep r m = with_document_pcr3 expected m) ->
  exists result,
    verify_bundle_with sha256 (Ok (ab_format b)) (Ok b) mode ep vd' = Ok result /\
    attested_response resp = Ok (response result) /\ nonce_sent result = nonce /\
    bundle_of result = b.
Proof.
  intros Hn H Hvd Hep. unfold export_bundle_with in H. apply rbind_ok in H as ([] & Hm & H).
  apply rbind_ok in H as (r & Hr & H). apply rbind_ok in H as (result & Hk & H).
  apply rbind_ok in H as (q & Hq & H). apply rbind_ok in H as (d & Hc & H).
  apply rbind_ok in H as ([] & _ & H). injection H as <-.
  apply verify_keyed_iff in Hk as (v & p & Hv & Hkey & Hud & Hp & Eres).
  exists result. subst result. split; [|split; [exact Hr|split; reflexivity]].
  cbn [verified response] in *.
  pose proof (Hep r (va_pcrs v) Hr) as Hexp. rewrite Hq in Hexp.
  assert (Hprod : expects_production ep = is_production expected).
  { rewrite (expected_production _ _ _ _ Hexp). unfold with_document_pcr3 in Hq.
    destruct expected; [apply rbind_ok in Hq as (? & _ & Hq)|]; by injection Hq as <-. }
  unfold verify_bundle_with. rewrite Hprod, Hm. cbn [rbind].
  change (ab_format (bundle_of _)) with BUNDLE_FORMAT. rewrite bool_decide_true by done. cbn [negb].
  cbn [bundle_of verification_mode apr_mode]. rewrite bool_decide_true by done. cbn [negb].
  change (bundle_response _) with (bundle_response (bundle_of {|
    apr_mode := mode; response := r; verified := v;
    bundle_commitment := key_commitment sha256 (ar_keys r) (ar_attested_policy r);
    nonce_sent := nonce; policy := p |})).
  rewrite (bundle_response_of (TL := TL)) by done. cbn [rbind nonce_sent response].
  rewrite (proj2 (verify_keyed_iff sha256 r nonce mode (fun doc => vd' doc nonce) _)
    (ex_intro _ v (ex_intro _ p (conj (Hvd _ _ Hv) (conj Hkey (conj Hud (conj Hp eq_refl))))))).
  cbn [rbind]. rewrite (proj2 (check_expected_iff _ ep)); [cbn [rbind]|].
  - cbn [policy bundle_of ab_policy]. by rewrite check_stored_self.
  - exists q. cbn. split; [exact Hexp|]. by apply compare_policy_ok in Hc.
Qed.

End Bundles.

(** ** A sample deployment *)

Definition sample_sha (m : bytes) : bytes := take 32 (m ++ replicate 32 x00).
Definition sample_hmac (_ _ : bytes) : bytes := replicate 32 xff.

Definition sample_info : KeyInfo := {|
  ki_evm_address := replicate 20 x0a; ki_evm_uncompressed_pub := replicate 64 x0b;
  ki_evm_gas_tx_address := replicate 20 x0c; ki_evm_gas_tx_uncompressed_pub := replicate 64 x0d;
  ki_btc_compressed_pubkey := replicate 33 x02; ki_btc_xpub := text "xpub";
  ki_master_fingerprint := [x01; x02; x03; x04]; ki_account_xpub_vanilla := text "tpubV";
  ki_account_xpub_colored := text "tpubC"; ki_ccd_ed25519_pub := replicate 32 x0e |}.

Definition sample_config : KeyConfig := {|
  kc_chain_id := 42161; kc_bridge_contract := repeat x11 20; kc_rgb_asset_id := [x72; x67; x62] |}.

Definition sample_keys : PublicKeysResponse := build_public_keys_response sample_info sample_config.

(** The sample policy, bound to the PCR3 of the sample documents. *)
Definition sample_policy : AttestedPolicy := Production (set_pcr3 sample_fields (Some sample_pcr3)).

Lemma sample_policy_typed : policy_typed sample_policy.
Proof. destruct sample_fields_typed. constructor; try done. Qed.

Definition sample_expected : ExpectedProduction := {|
  ep_allow_vanilla_psbt := false; ep_signer_role := Burn; ep_evm_source := PinnedTlsRpc;
  ep_electrum_host := electrum_host sample_fields; ep_evm_rpc_tls := evm_rpc_tls sample_fields;
  expected_chain_id := Some 42161; ep_bitcoin_network := BnMainnet;
  expected_bridge_contract := None; expected_rgb_asset_id := Some [x72; x67; x62];
  ep_funds_in_contract := funds_in_contract sample_fields; ep_evm_finality_tag := Finalized;
  ep_token_contract := token_contract sample_fields; ep_spv_min_confirmations := 6;
  ep_gas_tx_allowed_to := pol_gas_tx_allowed_to sample_fields;
  ep_gas_tx_max_gas_limit := 500000; ep_gas_tx_max_fee_per_gas := 2000000000;
  ep_gas_tx_max_value_wei := 0;
  ep_gas_tx_allowed_selectors := pol_gas_tx_allowed_selectors sample_fields; ep_kms := None |}.

#[local] Instance sample_nsm : Nsm := {|
  get_attestation := fun nonce key ud => Ok (sample_document (default [] key) (default [] ud) nonce);
  get_own_pcrs := Ok sample_own_pcrs;
  get_own_pcr3 := Ok sample_pcr3
|}.

(** The identity is a codec. *)
#[local] Instance sample_text : TextCodecs := {|
  hex_encode := id; hex_decode := Some; base64_encode := id; base64_decode := Some |}.

#[local] Instance sample_text_laws : TextLaws.
Proof. by split. Qed.

Definition sample_answer : GetAttestedPublicKeyResponse := {|
  gr_public_keys := Some sample_keys;
  gr_attestation_doc := sample_document (replicate 64 x0b)
    (key_commitment sample_sha sample_keys (to_bytes sample_policy)) sample_nonce;
  gr_attested_policy := to_bytes sample_policy |}.

Definition sample_resp : AttestedPublicKeyResponse := {|
  ar_keys := sample_keys; ar_attestation_doc := gr_attestation_doc sample_answer;
  ar_attested_policy := to_bytes sample_policy |}.

(** Only the payload of the sample answer is genuine. *)
Definition sample_genuine (body : bytes) : bool :=
  bool_decide (body = sample_payload (replicate 64 x0b)
    (key_commitment sample_sha sample_keys (to_bytes sample_policy)) sample_nonce).

Definition sample_serves (ks : PublicKeysResponse) (pol : bytes) : Prop :=
  ks = sample_keys /\ pol = to_bytes sample_policy.

Lemma sample_keys_sized : keys_sized sample_keys.
Proof. split; [|vm_compute; split; congruence]. repeat constructor; vm_compute; congruence. Qed.

Lemma attested_keys_genuine_witness :
  sample_serves (ar_keys sample_resp) (ar_attested_policy sample_resp).
Proof.
  assert (H : exists result, verify_attested_response (P := sample_p384 sample_genuine) sample_sha
    false sample_root sample_resp sample_nonce sample_own_pcrs VReal
    (ExpectProduction sample_expected) (Some 1700000000) = Ok result)
    by (eexists; vm_compute; reflexivity).
  destruct H as [result H].
  refine (proj1 (attested_keys_genuine (P := sample_p384 sample_genuine) sample_sha sample_hmac
    sample_serves (fun _ _ _ => True) sample_root _ _ sample_resp sample_nonce sample_own_pcrs sample_expected
    (Some 1700000000) result (sample_pki sample_genuine) _ _ _ _ sample_keys_sized _ H)).
  - intros body a Hg Hb _. apply bool_decide_eq_true in Hg. subst body.
    assert (Ha : document_from_reader (sample_payload (replicate 64 x0b)
              (key_commitment sample_sha sample_keys (to_bytes sample_policy)) sample_nonce) =
            Some (sample_body (replicate 64 x0b)
              (key_commitment sample_sha sample_keys (to_bytes sample_policy)) sample_nonce))
      by (vm_compute; reflexivity).
    rewrite Ha in Hb. injection Hb as <-.
    apply (ReqKeys sample_sha sample_hmac sample_serves _ sample_keys (to_bytes sample_policy));
      [by split|exact sample_keys_sized|reflexivity].
  - intros m. unfold sample_sha, zlen. rewrite length_take, length_app, length_replicate. lia.
  - intros secret k t _ E. vm_compute in E. discriminate E.
  - intros ks pol [-> ->] _. reflexivity.
  - intros t [= <-]. vm_compute. split; congruence.
Defined.

Lemma enclave_answers_accepted_witness :
  exists resp result, attested_response sample_answer = Ok resp /\
    verify_keyed sample_sha resp sample_nonce VReal
      (fun _ => Ok {| enclave_pubkey := replicate 64 x0b; va_pcrs := sample_pcr_map;
         va_timestamp := 0; va_nonce := sample_nonce;
         va_user_data := Some (key_commitment sample_sha sample_keys (to_bytes sample_policy)) |})
      = Ok result /\
    ar_keys (response result) = sample_keys /\ policy result = normalise sample_policy.
Proof.
  set (vd := fun doc : bytes => _).
  apply (enclave_answers_accepted (N := {|
     get_attestation := fun nonce key ud =>
       if bool_decide (key = Some (replicate 64 x0b) /\
            ud = Some (key_commitment sample_sha sample_keys (to_bytes sample_policy)))
       then Ok (gr_attestation_doc sample_answer) else Err (Attestation "no NSM");
     get_own_pcrs := Ok sample_own_pcrs; get_own_pcr3 := Ok sample_pcr3 |})
    sample_sha (Ok sample_info) sample_config sample_policy sample_nonce sample_answer VReal vd
    sample_pcr_map).
  - cbn [get_attestation]. intros key ud doc H. case_bool_decide as Hd; [|discriminate H].
    destruct Hd as [-> ->]. by eexists.
  - exact sample_policy_typed.
  - reflexivity.
Defined.

Lemma exported_bundle_verifies_witness :
  exists b result,
    export_bundle sample_sha (P := sample_p384 sample_all) false sample_root sample_answer
      sample_nonce sample_own_pcrs VReal sample_policy (Some (replicate 20 x0a)) (Some 1700000000)
      = Ok b /\
    verify_bundle sample_sha (P := sample_p384 sample_all) false sample_root (Ok (ab_format b))
      (Ok b) sample_own_pcrs VReal (ExpectProduction sample_expected) None = Ok result /\
    bundle_of result = b.
Proof.
  assert (H : exists b, export_bundle sample_sha (P := sample_p384 sample_all) false sample_root
    sample_answer sample_nonce sample_own_pcrs VReal sample_policy (Some (replicate 20 x0a))
    (Some 1700000000) = Ok b) by (eexists; vm_compute; reflexivity).
  destruct H as [b H].
  destruct (exported_bundle_verifies sample_sha sample_answer sample_nonce VReal sample_policy
    (Some (replicate 20 x0a)) _
    (fun doc nonce => context "attestation verify failed"
       (verify_attestation_at_document_time (P := sample_p384 sample_all) false sample_root doc
          sample_own_pcrs nonce None))
    (ExpectProduction sample_expected) b eq_refl H) as (result & H1 & _ & _ & H2).
  - intros doc v Hv. rewrite <- Hv. unfold verify_now. f_equal.
    unfold verify_attestation_at_document_time, verify_attestation, verify_real_document.
    destruct (check_document_size doc); cbn [rbind]; [|done|done].
    destruct (cose_from_bytes doc) as [c| |]; cbn [rbind]; [|done|done].
    destruct (verify_cose_alg_es384 _); cbn [rbind]; [|done|done].
    destruct (payload c) as [body|]; cbn [rbind ok_or]; [|done].
    destruct (document_from_reader body) as [d|] eqn:Ea; cbn [rbind ok_or]; [|done].
    apply sample_read_body in Ea as (key & ud & n & ->). cbn [timestamp sample_body].
    by change (1700000000000 / 1000) with 1700000000.
  - intros r m Hr. injection Hr as <-. reflexivity.
  - exists b, result. split; [exact H|]. split; [exact H1|exact H2].
Defined.
