(* ===== verification/Cloning.v ===== *)
(** * The cloning handshake (src/enclave/src/cloning.rs, server/cloning.rs,
      attestation.rs) and key initialization (server/keys.rs)

    Three messages move a seed from a running donor to a new enclave:
    [InitiateCloning] on the requester, [GetClone] on the donor, [SetClone] on
    the requester.  X25519, HMAC, HKDF and ChaCha20-Poly1305 are the interfaces
    [X25519] and [CloneCrypto], key derivation is [KeyOps].  A handler takes the
    random values and clock readings it draws as arguments and returns the
    state it leaves. *)

From stdpp Require Import strings base gmap numbers list.
From S2P Require Import Prelude Errors ReplayGuard ResultCache RefillRate EnclaveState.
From S2P Require Import Attestation AttestedPolicy AttestedKeys.

#[local] Open Scope list_scope.
#[local] Open Scope Z_scope.

(** [x25519_dalek]; a static and an ephemeral secret are used alike. *)
Class X25519 : Type := {
  StaticSecret : Type;
  public_from : StaticSecret -> bytes;
  diffie_hellman : StaticSecret -> bytes -> bytes;
  was_contributory : bytes -> bool
}.

Class CloneCrypto : Type := {
  hmac_sha256 : bytes -> bytes -> bytes;
  hkdf_sha256 : bytes -> bytes -> bytes -> bytes;
  chacha_encrypt : bytes -> bytes -> bytes -> option bytes;
  chacha_decrypt : bytes -> bytes -> bytes -> option bytes;
  sha256 : bytes -> bytes
}.

(** [KeyManager], with its public half. *)
Class KeyOps : Type := {
  Manager : Type;
  Words : Type;
  Net : Type;
  Reply : Type;
  op_generate : bytes -> Net -> enclave_result (Manager * Words);
  op_from_mnemonic : string -> Net -> enclave_result Manager;
  op_from_seed : bytes -> Net -> enclave_result Manager;
  op_expose_seed : Manager -> bytes;
  op_evm_address : Manager -> bytes;
  key_info : Manager -> KeyInfo
}.

Definition HKDF_SALT : bytes := String.list_byte_of_string "utexo-cloning-v1".
Definition HKDF_INFO : bytes := String.list_byte_of_string "seed-encryption".
Definition ZERO_NONCE : bytes := replicate 12 x00.

Section Crypto.
Context {D : X25519} {CC : CloneCrypto}.

Record CloneSession : Type := { secret : StaticSecret; public : bytes }.

(** [CloneSession::new], from the random secret. *)
Definition new_session (s : StaticSecret) : CloneSession := {| secret := s; public := public_from s |}.

Definition reject_non_contributory (shared : bytes) : enclave_result unit :=
  if was_contributory shared then Ok tt
  else Err (InvalidRequest "peer X25519 public key was small-order (non-contributory DH)").

Definition derive_symmetric_key (shared_secret donor_pubkey requester_pubkey : bytes) : bytes :=
  hkdf_sha256 HKDF_SALT shared_secret (HKDF_INFO ++ donor_pubkey ++ requester_pubkey).

Definition encrypt_with_key (key plaintext : bytes) : enclave_result bytes :=
  ok_or (chacha_encrypt key ZERO_NONCE plaintext) (CloneFailed "seed seal failed").

Definition decrypt_with_key (key ciphertext : bytes) : enclave_result bytes :=
  let? plaintext := ok_or (chacha_decrypt key ZERO_NONCE ciphertext)
                      (CloneFailed "seed unseal failed") in
  if negb (zlen plaintext =? 64) then Err (CloneFailed "decrypted seed has wrong length")
  else Ok plaintext.

Definition decrypt_seed_from_peer (s : CloneSession) (peer_pubkey ciphertext : bytes)
    : enclave_result bytes :=
  let shared := diffie_hellman (secret s) peer_pubkey in
  let? _ := reject_non_contributory shared in
  let key := derive_symmetric_key shared peer_pubkey (public s) in
  decrypt_with_key key ciphertext.

(** With the fresh ephemeral secret [our_secret]. *)
Definition encrypt_seed_for_peer (our_secret : StaticSecret) (peer_pubkey seed : bytes)
    : enclave_result (bytes * bytes) :=
  let our_pub := public_from our_secret in
  let shared := diffie_hellman our_secret peer_pubkey in
  let? _ := reject_non_contributory shared in
  let key := derive_symmetric_key shared our_pub peer_pubkey in
  let? ciphertext := encrypt_with_key key seed in
  Ok (ciphertext, our_pub).

Definition make_cloning_digest (secret encryption_pubkey target_cluster_pk : bytes) : bytes :=
  hmac_sha256 secret (encryption_pubkey ++ target_cluster_pk).

Definition verify_cloning_digest (secret encryption_pubkey target_cluster_pk digest : bytes) : bool :=
  bool_decide (make_cloning_digest secret encryption_pubkey target_cluster_pk = digest).

End Crypto.

(** [check_clone_peer_pcr3] (attestation.rs). *)
Definition check_clone_peer_pcr3 (own_pcr3 : bytes) (peer : VerifiedAttestation) : enclave_result unit :=
  if forallb (fun b => b2z b =? 0) own_pcr3 then
    Err (Attestation "this enclave's PCR3 is all zero: the parent instance has no IAM role")
  else
    let? actual := ok_or (va_pcrs peer !! 3)
                     (Attestation "the peer attestation has no PCR3 - refusing to clone") in
    if bool_decide (actual = own_pcr3) then Ok tt else Err (PcrMismatch 3 "" "").

Record InitiateCloningRequest : Type := { ic_cloning_secret : bytes; ic_cluster_public_key : bytes }.

Record InitiateCloningResponse : Type := {
  requester_attestation : bytes;
  encryption_pubkey : bytes;
  cloning_digest : bytes
}.

Record GetCloneRequest : Type := {
  gc_cluster_public_key : bytes;
  gc_requester_attestation : bytes;
  gc_encryption_pubkey : bytes;
  gc_cloning_digest : bytes
}.

Record GetCloneResponse : Type := {
  encrypted_seed : bytes;
  donor_pubkey : bytes;
  donor_attestation : bytes
}.

Abbreviation SetCloneRequest := GetCloneResponse (only parsing).

(** [slice.try_into()] to an array. *)
Definition array_of (n : Z) (b : bytes) (e : EnclaveError) : enclave_result bytes :=
  if zlen b =? n then Ok b else Err e.

Section Handlers.
Context {D : X25519} {CC : CloneCrypto} {O : KeyOps} {N : Nsm}.
Context {C : Ciborium} {X : X509} {P : P384} (allow_debug : bool) (root_cert_der : bytes).

(** The interface of the state machine, with the sessions of this file. *)
#[local] Instance clone_keys : Keys := {|
  KeyManager := Manager; Mnemonic := Words; EnclaveState.CloneSession := CloneSession;
  BtcNetwork := Net; EnclaveResponse := Reply;
  generate := op_generate; from_mnemonic := op_from_mnemonic; from_seed := op_from_seed;
  expose_seed := op_expose_seed; km_evm_address := op_evm_address |}.

Definition set_replay_guard (s : EnclaveState) (g : NonceReplayGuard) : EnclaveState := {|
  inner := inner s; network := network s; seed_source := seed_source s;
  donor_cloning_secret := donor_cloning_secret s;
  replay_guard := g; op_replay_guard := op_replay_guard s;
  signed_results := signed_results s; refill_rate := refill_rate s;
  seed_export_count := seed_export_count s; seed_export_slots := seed_export_slots s;
  seed_export_soft_cap := seed_export_soft_cap s;
  seed_export_hard_cap := seed_export_hard_cap s |}.

(** [verify_peer_attestation]; [wall] is the wall clock in seconds. *)
Definition verify_peer_attestation (doc : bytes) (expected_pcrs : ExpectedPcrs)
    (expected_nonce : option bytes) (wall : option Z) : enclave_result VerifiedAttestation :=
  rmap_err from_verify_error
    (verify_attestation allow_debug root_cert_der doc expected_pcrs expected_nonce wall).

Definition get_keys (s : EnclaveState) : enclave_result KeyInfo :=
  with_active s (fun km => Ok (key_info km)).

(** ** InitiateCloning *)

Definition handle_initiate_cloning (s : EnclaveState) (req : InitiateCloningRequest)
    (random : StaticSecret) (fresh_nonce : enclave_result bytes) (created_at now : Z)
    : EnclaveState * enclave_result InitiateCloningResponse :=
  let body :=
    let? _ := validate_cloning_secret (ic_cloning_secret req) in
    let? cluster_public_key := array_of 20 (ic_cluster_public_key req)
                                 (InvalidRequest "cluster_public_key must be 20 bytes") in
    let session := new_session random in
    let? nonce := fresh_nonce in
    let digest := make_cloning_digest (ic_cloning_secret req) (public session) cluster_public_key in
    let? attestation := get_attestation nonce (Some (public session)) (Some digest) in
    let? cs := new_session_at session cluster_public_key (ic_cloning_secret req) created_at in
    Ok (cs, {| requester_attestation := attestation; encryption_pubkey := public session;
               cloning_digest := digest |}) in
  match body with
  | Ok (cs, reply) =>
      let '(s, r) := enter_cloning_at s cs now in
      (s, let? _ := r in Ok reply)
  | Err e => (s, Err e)
  | Panic => (s, Panic)
  end.

(** ** GetClone *)

(** Steps 1 to 5: identity, digest, attestation, key and user data. *)
Definition check_get_clone (s : EnclaveState) (req : GetCloneRequest) (wall : option Z)
    : enclave_result VerifiedAttestation :=
  let? cluster_pk := array_of 20 (gc_cluster_public_key req)
                       (InvalidRequest "cluster_public_key must be 20 bytes") in
  let? encryption_pk := array_of 32 (gc_encryption_pubkey req)
                          (InvalidRequest "encryption_pubkey must be 32 bytes") in
  let? digest := array_of 32 (gc_cloning_digest req)
                   (InvalidRequest "cloning_digest must be 32 bytes") in
  let? our_evm := evm_address s in
  if negb (bool_decide (cluster_pk = our_evm)) then
    Err (InvalidRequest "cluster_public_key does not match this enclave's address")
  else
    let? _ := with_donor_cloning_secret s (fun secret =>
      if verify_cloning_digest secret encryption_pk cluster_pk digest then Ok tt
      else Err DigestMismatch) in
    let? expected_pcrs := rmap_err (fun _ => Internal "attestation") get_own_pcrs in
    let? verified := verify_peer_attestation (gc_requester_attestation req) expected_pcrs None wall in
    let? own_pcr3 := get_own_pcr3 in
    let? _ := check_clone_peer_pcr3 own_pcr3 verified in
    if negb (bool_decide (enclave_pubkey verified = encryption_pk)) then Err PubkeyMismatch
    else
      let? user_data := ok_or (va_user_data verified)
        (Attestation "requester attestation missing user_data (cloning digest)") in
      if negb (bool_decide (user_data = digest)) then Err DigestMismatch else Ok verified.

(** Steps 7 and 8: the sealed seed and the donor's attestation. *)
Definition seal_reply (s : EnclaveState) (cfg : KeyConfig) (policy : enclave_result bytes)
    (encryption_pk : bytes) (ephemeral : StaticSecret) (fresh_nonce : enclave_result bytes)
    : enclave_result GetCloneResponse :=
  let? (encrypted_seed, donor_pubkey) :=
    with_seed s (fun seed => encrypt_seed_for_peer ephemeral encryption_pk seed) in
  let? donor_nonce := fresh_nonce in
  let? keys := get_keys s in
  let bundle := build_public_keys_response keys cfg in
  let? policy := policy in
  let commitment := clone_commitment sha256 bundle policy encryption_pk donor_pubkey encrypted_seed in
  let? doc := rmap_err (fun _ => Internal "attestation")
                (get_attestation donor_nonce (Some donor_pubkey) (Some commitment)) in
  Ok {| encrypted_seed := encrypted_seed; donor_pubkey := donor_pubkey; donor_attestation := doc |}.

(** The whole handler.  The reservations are dropped on every error. *)
Definition handle_get_clone (s : EnclaveState) (req : GetCloneRequest) (cfg : KeyConfig)
    (policy : enclave_result bytes) (ephemeral : StaticSecret) (fresh_nonce : enclave_result bytes)
    (wall : option Z) (now : Z) : EnclaveState * enclave_result GetCloneResponse :=
  match check_get_clone s req wall with
  | Err e => (s, Err e)
  | Panic => (s, Panic)
  | Ok verified =>
      let '(s, quota) := reserve_export_quota s in
      match quota with
      | Err e => (s, Err e)
      | Panic => (s, Panic)
      | Ok quota =>
          match array_of 32 (va_nonce verified)
                  (Attestation "attestation nonce has wrong length") with
          | Err e => (drop_quota s quota, Err e)
          | Panic => (drop_quota s quota, Panic)
          | Ok nonce =>
              let '(g, r) := reserve_at (replay_guard s) nonce now in
              let s := set_replay_guard s g in
              match r with
              | Err e => (drop_quota s quota, Err e)
              | Panic => (drop_quota s quota, Panic)
              | Ok reservation =>
                  let release s :=
                    drop_quota (set_replay_guard s (drop_reservation (replay_guard s) reservation))
                      quota in
                  match seal_reply s cfg policy (gc_encryption_pubkey req) ephemeral fresh_nonce with
                  | Err e => (release s, Err e)
                  | Panic => (release s, Panic)
                  | Ok reply =>
                      let s := set_replay_guard s
                                 (drop_reservation (replay_guard s) (commit reservation)) in
                      let '(s, _) := commit_quota s quota in
                      (s, Ok reply)
                  end
              end
          end
      end
  end.

(** ** SetClone *)

(** Steps 1 and 2. *)
Definition check_set_clone (req : SetCloneRequest) (wall : option Z)
    : enclave_result VerifiedAttestation :=
  let? donor_pubkey := array_of 32 (donor_pubkey req)
                         (InvalidRequest "donor_pubkey must be 32 bytes") in
  let? expected_pcrs := get_own_pcrs in
  let? verified := verify_peer_attestation (donor_attestation req) expected_pcrs None wall in
  let? own_pcr3 := get_own_pcr3 in
  let? _ := check_clone_peer_pcr3 own_pcr3 verified in
  if negb (bool_decide (enclave_pubkey verified = donor_pubkey)) then Err PubkeyMismatch
  else Ok verified.

(** The closure given to [complete_cloning]. *)
Definition unseal_keys (n : Net) (cfg : KeyConfig) (policy : enclave_result bytes)
    (req : SetCloneRequest) (user_data : option bytes) (session : CloningSession)
    : enclave_result Manager :=
  let? seed := decrypt_seed_from_peer (cs_session session) (donor_pubkey req) (encrypted_seed req) in
  let? km := op_from_seed seed n in
  if negb (bool_decide (op_evm_address km = cs_cluster_public_key session)) then Err IdentityMismatch
  else
    let bundle := build_public_keys_response (key_info km) cfg in
    let? policy := policy in
    let expected := clone_commitment sha256 bundle policy (public (cs_session session))
                      (donor_pubkey req) (encrypted_seed req) in
    let? _ := verify_clone_commitment user_data expected in
    Ok km.

Definition handle_set_clone (s : EnclaveState) (req : SetCloneRequest) (cfg : KeyConfig)
    (policy : enclave_result bytes) (wall : option Z) (now : Z)
    : EnclaveState * enclave_result unit :=
  match
    let? verified := check_set_clone req wall in
    let? nonce := array_of 32 (va_nonce verified)
                    (Attestation "attestation nonce has wrong length") in
    Ok (verified, nonce)
  with
  | Err e => (s, Err e)
  | Panic => (s, Panic)
  | Ok (verified, nonce) =>
      let '(g, r) := reserve_at (replay_guard s) nonce now in
      let s := set_replay_guard s g in
      match r with
      | Err e => (s, Err e)
      | Panic => (s, Panic)
      | Ok reservation =>
          let '(s, done) :=
            complete_cloning s (unseal_keys (network s) cfg policy req (va_user_data verified)) in
          match done with
          | Ok _ => (set_replay_guard s (drop_reservation (replay_guard s) (commit reservation)), Ok tt)
          | Err e => (set_replay_guard s (drop_reservation (replay_guard s) reservation), Err e)
          | Panic => (set_replay_guard s (drop_reservation (replay_guard s) reservation), Panic)
          end
      end
  end.

(** ** InitializeKey (server/keys.rs) *)

Definition MAX_MNEMONIC_BYTES : Z := 1024.
Definition RESPONSE_RESERVE : Z := secs 2.

Record InitializeKeyRequest : Type := {
  ik_seed : bytes;
  ik_mnemonic : string;
  ik_cloning_secret : bytes
}.

(** [initialize_from_persistence_until]: reserve, load, finish.  [now] and
    [now'] are the readings before and after the load. *)
Definition initialize_from_persistence_until (s : EnclaveState) (deadline now now' : Z)
    : EnclaveState * enclave_result unit :=
  let '(s, r) := begin_recovery s deadline now in
  match r with
  | Ok (source, deadline) => finish_recovery s (source (network s) deadline) deadline now'
  | Err e => (s, Err e)
  | Panic => (s, Panic)
  end.

(** Validate a cloning secret that is given. *)
Definition check_init_secret (req : InitializeKeyRequest) : enclave_result unit :=
  if bool_decide (ik_cloning_secret req = []) then Ok tt
  else validate_cloning_secret (ik_cloning_secret req).

(** The part of [handle_initialize] that installs the keys.  [kms] and
    [allow_seed_import] are the build's features, [launch] is [ctx.launch()]. *)
Definition install_keys (kms allow_seed_import : bool) (s : EnclaveState)
    (req : InitializeKeyRequest) (entropy : enclave_result bytes) (launch : enclave_result unit)
    (deadline now now' : Z) : EnclaveState * enclave_result unit :=
  let run (r : enclave_result unit) (k : EnclaveState * enclave_result unit) :=
    match r with Ok _ => k | Err e => (s, Err e) | Panic => (s, Panic) end in
  if negb (bool_decide (ik_mnemonic req = "")) then
    if allow_seed_import then
      run (if MAX_MNEMONIC_BYTES <? Z.of_nat (String.length (ik_mnemonic req)) then
             Err (InvalidRequest "mnemonic is too long")
           else check_init_secret req)
        (initialize_from_mnemonic s (ik_mnemonic req))
    else (s, Err (InvalidRequest "mnemonic import not allowed without allow-seed-import feature"))
  else if bool_decide (ik_seed req = []) then
    if kms then
      run (let? _ := launch in
           if deadline <? RESPONSE_RESERVE then
             Err (InvalidRequest "initialization request deadline exceeded")
           else Ok tt)
        (initialize_from_persistence_until s (deadline - RESPONSE_RESERVE) now now')
    else
      match (let? _ := check_init_secret req in entropy) with
      | Ok entropy =>
          let '(s, r) := initialize_from_entropy s entropy in
          (s, let? _ := r in Ok tt)
      | Err e => (s, Err e)
      | Panic => (s, Panic)
      end
  else if allow_seed_import then
    run (let? _ := array_of 64 (ik_seed req) (InvalidRequest "seed must be exactly 64 bytes") in
         check_init_secret req)
      (initialize_from_seed s (ik_seed req))
  else (s, Err (InvalidRequest "seed import not allowed without allow-seed-import feature")).

(** The answer has the fields of [PublicKeysResponse]. *)
Definition handle_initialize (kms allow_seed_import : bool) (s : EnclaveState)
    (req : InitializeKeyRequest) (cfg : KeyConfig) (entropy : enclave_result bytes)
    (launch : enclave_result unit) (deadline now now' : Z)
    : EnclaveState * enclave_result PublicKeysResponse :=
  if kms && negb (bool_decide (ik_cloning_secret req = [])) then
    (s, Err (InvalidRequest "cloning_secret is not supported with KMS persistence"))
  else
    let '(s, r) := install_keys kms allow_seed_import s req entropy launch deadline now now' in
    match r with
    | Err e => (s, Err e)
    | Panic => (s, Panic)
    | Ok _ =>
        let '(s, r) :=
          if bool_decide (ik_cloning_secret req = []) then (s, Ok tt)
          else set_donor_cloning_secret s (ik_cloning_secret req) in
        (s, let? _ := r in
            let? keys := get_keys s in
            Ok (build_public_keys_response keys cfg))
    end.

End Handlers.
