(* ===== verification/CloningProps.v ===== *)
(** * Theorems on the cloning handshake

    [get_clone_safe]: to whom a donor seals its seed.  [clone_handshake]: the
    three messages move the keys.  [set_clone_cases] and
    [initialize_all_or_nothing]: what the requester and an initialization
    install. *)

From stdpp Require Import strings base gmap numbers list.
From S2P Require Import Prelude Errors ReplayGuard ResultCache RefillRate EnclaveState EnclaveStateProps.
From S2P Require Import Attestation AttestationSample AttestationProps.
From S2P Require Import AttestedPolicy AttestedKeys ParentAttestProps Cloning.

#[local] Open Scope list_scope.
#[local] Open Scope Z_scope.

Section Handlers.
Context {D : X25519} {CC : CloneCrypto} {O : KeyOps} {N : Nsm}.
Context {C : Ciborium} {X : X509} {P : P384} (allow_debug : bool) (root_der : bytes).

#[local] Existing Instance clone_keys.

Abbreviation get_clone := (handle_get_clone allow_debug root_der).
Abbreviation set_clone := (handle_set_clone allow_debug root_der).

Lemma array_of_iff n b e a : array_of n b e = Ok a <-> zlen b = n /\ a = b.
Proof. unfold array_of. destruct (Z.eqb_spec (zlen b) n); split; intros H; intuition congruence. Qed.

Lemma peer_pcr3_iff own v :
  check_clone_peer_pcr3 own v = Ok tt <->
  ~ Forall (fun b => b = x00) own /\ va_pcrs v !! 3 = Some own.
Proof.
  unfold check_clone_peer_pcr3.
  assert (Hz : forallb (fun b => b2z b =? 0) own = true <-> Forall (fun b => b = x00) own).
  { rewrite forallb_forall, Forall_forall. setoid_rewrite Z.eqb_eq. setoid_rewrite list_elem_of_In.
    split; intros H b Hb; specialize (H b Hb); [by apply b2z_inj|by subst]. }
  destruct (forallb _ own); [split; [done|by intros [? _]; exfalso; intuition]|].
  destruct (va_pcrs v !! 3) as [a|]; cbn [ok_or rbind]; [|split; [done|by intros [_ [=]]]].
  case_bool_decide; subst; split; intros H'; try done.
  - split; [|done]. intros Hf. by apply Hz in Hf.
  - destruct H' as [_ [= ->]]. done.
Qed.

(** What the donor has checked when it goes on to seal. *)
Record get_clone_checked (s : EnclaveState) (req : GetCloneRequest) (wall : option Z)
    (v : VerifiedAttestation) (km : Manager) (secret : bytes) (own : ExpectedPcrs) (pcr3 : bytes)
    : Prop := {
  gcc_active : poisoned (inner s) = false /\ contents (inner s) = Active km;
  gcc_secret : poisoned (donor_cloning_secret s) = false /\
               contents (donor_cloning_secret s) = Some secret;
  gcc_cluster : gc_cluster_public_key req = op_evm_address km;
  gcc_digest : gc_cloning_digest req =
               hmac_sha256 secret (gc_encryption_pubkey req ++ gc_cluster_public_key req);
  gcc_sizes : zlen (gc_cluster_public_key req) = 20 /\ zlen (gc_encryption_pubkey req) = 32 /\
              zlen (gc_cloning_digest req) = 32;
  gcc_pcrs : get_own_pcrs = Ok own;
  gcc_doc : verify_attestation allow_debug root_der (gc_requester_attestation req) own None wall = Ok v;
  gcc_pcr3 : get_own_pcr3 = Ok pcr3 /\ ~ Forall (fun b => b = x00) pcr3 /\ va_pcrs v !! 3 = Some pcr3;
  gcc_key : enclave_pubkey v = gc_encryption_pubkey req;
  gcc_data : va_user_data v = Some (gc_cloning_digest req)
}.

Lemma with_active_ok {T} (s : EnclaveState) (f : KeyManager -> enclave_result T) a :
  with_active s f = Ok a <->
  exists km, poisoned (inner s) = false /\ contents (inner s) = Active km /\ f km = Ok a.
Proof.
  unfold with_active, lock_phase. destruct (poisoned (inner s)); cbn [rbind];
    [split; [done|by intros (? & [=] & _)]|].
  destruct (contents (inner s)) as [| |cs|km]; try (split; [done|by intros (? & _ & [=] & _)]).
  split; [by exists km|]. by intros (? & _ & [= <-] & H).
Qed.

Lemma with_secret_ok {T} (s : EnclaveState) (f : bytes -> enclave_result T) a :
  with_donor_cloning_secret s f = Ok a <->
  exists secret, poisoned (donor_cloning_secret s) = false /\
    contents (donor_cloning_secret s) = Some secret /\ f secret = Ok a.
Proof.
  unfold with_donor_cloning_secret. destruct (poisoned _); [split; [done|by intros (? & [=] & _)]|].
  destruct (contents _) as [secret|]; [|split; [done|by intros (? & _ & [=] & _)]].
  split; [by exists secret|]. by intros (? & _ & [= <-] & H).
Qed.

Lemma rmap_err_ok {E F A} (f : E -> F) (r : res E A) a : rmap_err f r = Ok a <-> r = Ok a.
Proof. destruct r; cbn; split; intros H; congruence. Qed.

Lemma check_get_clone_iff s req wall v :
  check_get_clone allow_debug root_der s req wall = Ok v <->
  exists km secret own pcr3, get_clone_checked s req wall v km secret own pcr3.
Proof.
  unfold check_get_clone. split.
  - intros H. apply rbind_ok in H as (cluster & Hc & H). apply rbind_ok in H as (pk & Hk & H).
    apply rbind_ok in H as (digest & Hd & H). apply array_of_iff in Hc as [Hc ->].
    apply array_of_iff in Hk as [Hk ->]. apply array_of_iff in Hd as [Hd ->].
    apply rbind_ok in H as (evm & He & H).
    apply with_active_ok in He as (km & Hp & Ha & He). injection He as <-.
    case_bool_decide as Hcl; [|done]. cbn [negb] in H.
    apply rbind_ok in H as ([] & Hs & H). apply with_secret_ok in Hs as (secret & Hsp & Hss & Hdg).
    unfold verify_cloning_digest in Hdg. case_bool_decide as Hm; [|done].
    apply rbind_ok in H as (own & Hown & H). apply rmap_err_ok in Hown.
    apply rbind_ok in H as (v' & Hv & H). apply rmap_err_ok in Hv.
    apply rbind_ok in H as (pcr3 & Hpcr & H). apply rbind_ok in H as ([] & Hpeer & H).
    apply peer_pcr3_iff in Hpeer as [Hz H3]. case_bool_decide as Hkey; [|done]. cbn [negb] in H.
    apply rbind_ok in H as (ud & Hud & H). apply ok_or_ok in Hud.
    case_bool_decide as Hdat; [|done]. injection H as ->. subst ud.
    by exists km, secret, own, pcr3.
  - intros (km & secret & own & pcr3 & [[Hp Ha] [Hsp Hs] Hcl Hdg (H1 & H2 & H3) Ho Hv (Hq & Hz & Hl) Hk Hu]).
    rewrite (proj2 (array_of_iff _ _ _ _) (conj H1 eq_refl)). cbn [rbind].
    rewrite (proj2 (array_of_iff _ _ _ _) (conj H2 eq_refl)). cbn [rbind].
    rewrite (proj2 (array_of_iff _ _ _ _) (conj H3 eq_refl)). cbn [rbind].
    assert (evm_address s = Ok (op_evm_address km)) as -> by (apply with_active_ok; by exists km).
    cbn [rbind]. rewrite bool_decide_true by done. cbn [negb].
    rewrite (proj2 (with_secret_ok s _ tt)).
    2:{ exists secret. split; [done|]. split; [done|]. unfold verify_cloning_digest.
        by rewrite bool_decide_true. }
    cbn [rbind]. rewrite Ho. cbn [rmap_err rbind].
    unfold verify_peer_attestation. rewrite Hv. cbn [rmap_err rbind]. rewrite Hq. cbn [rbind].
    rewrite (proj2 (peer_pcr3_iff _ _) (conj Hz Hl)). cbn [rbind].
    rewrite bool_decide_true by done. cbn [negb]. rewrite Hu. cbn [ok_or rbind].
    by rewrite bool_decide_true.
Qed.

(** ** GetClone: what it leaves *)

Lemma quota_release (s : EnclaveState) quota s1 g :
  is_u64 (seed_export_slots s) -> reserve_export_quota s = (s1, Ok quota) ->
  set_replay_guard (drop_quota (set_replay_guard s1 g) quota) (replay_guard s) = s.
Proof.
  intros Hu. unfold reserve_export_quota, drop_quota.
  destruct (0 <? seed_export_hard_cap s); cbv zeta.
  - destruct (seed_export_slots s <? seed_export_hard_cap s); intros H; [|discriminate H].
    injection H as <- <-. destruct s. unfold set_replay_guard, set_exports. cbn in *. f_equal.
    unfold wrap64, is_u64 in *. rewrite Zminus_mod_idemp_l.
    match goal with |- (?u + 1 - 1) mod _ = _ => replace (u + 1 - 1) with u by lia end.
    by apply Z.mod_small.
  - intros H. injection H as <- <-. by destruct s.
Qed.

(** Everything but the replay guard is as before. *)
Definition only_guard (s s' : EnclaveState) : Prop := set_replay_guard s' (replay_guard s) = s.

(** A reservation that is committed, seen through the state. *)
Record sealed_reply (s s' : EnclaveState) (req : GetCloneRequest) (cfg : KeyConfig)
    (policy : bytes) (ephemeral : StaticSecret) (nonce donor_nonce : bytes) (now : Z) (km : Manager)
    (reply : GetCloneResponse) : Prop := {
  sr_seed : encrypt_seed_for_peer ephemeral (gc_encryption_pubkey req) (op_expose_seed km) =
            Ok (encrypted_seed reply, donor_pubkey reply);
  sr_doc : get_attestation donor_nonce (Some (donor_pubkey reply))
             (Some (clone_commitment sha256 (build_public_keys_response (key_info km) cfg) policy
                      (gc_encryption_pubkey req) (donor_pubkey reply) (encrypted_seed reply))) =
           Ok (donor_attestation reply);
  sr_phase : inner s' = inner s /\ donor_cloning_secret s' = donor_cloning_secret s;
  sr_count : seed_export_count s' = wrap64 (seed_export_count s + 1);
  sr_slots : 0 < seed_export_hard_cap s ->
             seed_export_slots s < seed_export_hard_cap s /\
             seed_export_slots s' = wrap64 (seed_export_slots s + 1);
  sr_nonce : exists g gen, check_and_record_at (replay_guard s) nonce now = (g, Ok gen) /\
                           replay_guard s' = g
}.

Lemma seal_reply_iff s cfg policy pk ephemeral fresh km reply :
  poisoned (inner s) = false -> contents (inner s) = Active km ->
  seal_reply s cfg policy pk ephemeral fresh = Ok reply <->
  exists pol donor_nonce,
    policy = Ok pol /\ fresh = Ok donor_nonce /\
    encrypt_seed_for_peer ephemeral pk (op_expose_seed km) =
      Ok (encrypted_seed reply, donor_pubkey reply) /\
    get_attestation donor_nonce (Some (donor_pubkey reply))
      (Some (clone_commitment sha256 (build_public_keys_response (key_info km) cfg) pol pk
               (donor_pubkey reply) (encrypted_seed reply))) = Ok (donor_attestation reply).
Proof.
  intros Hp Ha. unfold seal_reply, with_seed, get_keys.
  assert (Hw : forall T (f : KeyManager -> enclave_result T), with_active s f = f km).
  { intros T f. unfold with_active, lock_phase. by rewrite Hp, Ha. }
  rewrite !Hw. split.
  - intros H. apply rbind_ok in H as ([ct dpk] & He & H). apply rbind_ok in H as (dn & Hf & H).
    apply rbind_ok in H as (ki & Hk & H). injection Hk as <-.
    apply rbind_ok in H as (pol & Hpol & H). apply rbind_ok in H as (doc & Hd & H).
    apply rmap_err_ok in Hd. injection H as <-. by exists pol, dn.
  - intros (pol & dn & -> & -> & He & Hd). cbn [expose_seed clone_keys]. rewrite He. cbn [rbind].
    rewrite Hd. cbn [rmap_err rbind]. by destruct reply.
Qed.

(** Every outcome of the handler. *)
Lemma get_clone_cases s req cfg policy ephemeral fresh wall now s' r :
  is_u64 (seed_export_slots s) ->
  get_clone s req cfg policy ephemeral fresh wall now = (s', r) ->
  match r with
  | Ok reply =>
      exists v km secret own pcr3 pol donor_nonce,
        get_clone_checked s req wall v km secret own pcr3 /\ zlen (va_nonce v) = 32 /\
        policy = Ok pol /\ fresh = Ok donor_nonce /\
        sealed_reply s s' req cfg pol ephemeral (va_nonce v) donor_nonce now km reply
  | _ => only_guard s s'
  end.
Proof.
  intros Hu. unfold handle_get_clone, only_guard.
  assert (Hid : forall s : EnclaveState, set_replay_guard s (replay_guard s) = s) by by intros [].
  destruct (check_get_clone _ _ _ _ _) as [v| |] eqn:Ec; [|by intros [= <- <-]..].
  destruct (reserve_export_quota s) as [s1 q] eqn:Eq.
  destruct q as [q| |]; [|unfold reserve_export_quota in Eq; repeat case_match; simplify_eq;
    by intros [= <- <-]..].
  assert (Hrel : forall g, set_replay_guard (drop_quota (set_replay_guard s1 g) q) (replay_guard s) = s)
    by (intros g; by apply quota_release).
  assert (Hg1 : replay_guard s1 = replay_guard s)
    by (unfold reserve_export_quota in Eq; repeat case_match; by simplify_eq).
  destruct (array_of 32 _ _) as [nonce| |] eqn:En;
    [|intros [= <- <-]; specialize (Hrel (replay_guard s1)); by rewrite Hid in Hrel..].
  apply array_of_iff in En as [En ->]. rewrite Hg1.
  unfold reserve_at. destruct (check_and_record_at (replay_guard s) (va_nonce v) now) as [g [gen| |]] eqn:Er;
    cbn [rbind]; [|by intros [= <- <-]..].
  set (s2 := set_replay_guard s1 g).
  destruct (proj1 (check_get_clone_iff _ _ _ _) Ec) as (km & secret & own & pcr3 & Hc).
  destruct (seal_reply s2 cfg policy _ _ _) as [reply| |] eqn:Es; [|intros [= <- <-]; apply Hrel..].
  assert (Hin : inner s1 = inner s /\ donor_cloning_secret s1 = donor_cloning_secret s /\
                seed_export_count s1 = seed_export_count s).
  { unfold reserve_export_quota in Eq; repeat case_match; by simplify_eq. }
  destruct (gcc_active _ _ _ _ _ _ _ _ Hc) as [Hp Ha]. destruct Hin as (Hi & Hsec & Hcnt).
  apply (seal_reply_iff _ _ _ _ _ _ km) in Es as (pol & dn & -> & -> & Hseed & Hdoc);
    [|by cbn; rewrite Hi..].
  intros [= <- <-]. exists v, km, secret, own, pcr3, pol, dn. split; [done|]. split; [done|].
  split; [done|]. split; [done|]. split; [done|done|done| | |].
  - cbn. by rewrite Hcnt.
  - intros Hcap. unfold reserve_export_quota in Eq. apply Z.ltb_lt in Hcap. rewrite Hcap in Eq.
    destruct (_ <? _) eqn:El; [|done]. injection Eq as <- <-. zbool. by split.
  - by exists g, gen.
Qed.

(** ** SetClone: what it leaves *)

Lemma set_clone_cases s req cfg policy wall now s' r :
  set_clone s req cfg policy wall now = (s', r) ->
  match r with
  | Ok _ =>
      exists v session km,
        check_set_clone allow_debug root_der req wall = Ok v /\
        contents (inner s) = Cloning session /\
        unseal_keys (network s) cfg policy req (va_user_data v) session = Ok km /\
        contents (inner s') = Active km /\
        contents (donor_cloning_secret s') = Some (cs_donor_cloning_secret session) /\
        exists g gen, check_and_record_at (replay_guard s) (va_nonce v) now = (g, Ok gen) /\
                      replay_guard s' = g
  | _ => only_guard s s'
  end.
Proof.
  unfold handle_set_clone, only_guard.
  assert (Hid : forall s : EnclaveState, set_replay_guard s (replay_guard s) = s) by by intros [].
  destruct (check_set_clone _ _ _ _) as [v| |]; cbn [rbind]; [|by intros [= <- <-]..].
  destruct (array_of 32 _ _) as [nonce| |] eqn:En; cbn [rbind]; [|by intros [= <- <-]..].
  apply array_of_iff in En as [En ->]. unfold reserve_at.
  destruct (check_and_record_at _ _ _) as [g [gen| |]] eqn:Er; cbn [rbind];
    [|intros [= <- <-]; by destruct s..].
  set (s1 := set_replay_guard s g).
  change (network s1) with (network s).
  destruct (complete_cloning_cases s1 (unseal_keys (network s) cfg policy req (va_user_data v)))
    as [(session & km & Hc & Hf & _ & ->)|[Hs Hr]].
  - intros [= <- <-]. exists v, session, km. split; [done|]. split; [done|]. split; [done|].
    split; [done|]. split; [done|]. by exists g, gen.
  - destruct (complete_cloning _ _) as [s2 [[]| |]]; cbn in Hs, Hr; [done|..]; subst s2;
      intros [= <- <-]; by destruct s.
Qed.

(** Of the documents the image asks for, only that of [InitiateCloning] has a
    32-byte key and a 32-byte digest under the donor's secret. *)
Lemma requested_initiate serves initiated key digest secret t :
  requested sha256 hmac_sha256 serves initiated (Some key) (Some digest) ->
  (forall m, zlen (sha256 m) = 32) ->
  (forall secret' k t',
     initiated secret' k t' -> hmac_sha256 secret' (k ++ t') = hmac_sha256 secret (key ++ t) ->
     secret' = secret /\ k ++ t' = key ++ t) ->
  zlen key = 32 -> zlen digest = 32 -> digest = hmac_sha256 secret (key ++ t) ->
  initiated secret key t.
Proof.
  intros R Hlen Hhmac Hk Hd Hdg.
  remember (Some key) as ok eqn:Eok. remember (Some digest) as od eqn:Eod.
  destruct R as [ks pl _ _ H64|pl|sec k t' Hin|ks pl rq dk ct|k]; try discriminate Eok; try discriminate Eod;
    injection Eok as Eok; injection Eod as Eod; subst.
  - lia.
  - destruct (Hhmac _ _ _ Hin Hdg) as [-> Et]. by apply app_inj_1 in Et as [_ ->].
  - unfold clone_commitment in Hd. rewrite zlen_app, Hlen in Hd.
    change (zlen (be_split 4 1)) with 4 in Hd. lia.
Qed.

(** ** Theorems *)

Section Trust.
Context {XL : X509Laws} {CL : CiboriumLaws}.

(** C6: to whom a donor gives its seed.  Let the documents of this image be those
    it asks for ([requested]).  When [GetClone] answers, the enclave is active,
    the seed is sealed with a fresh ephemeral key to the requester's key and to
    nothing else, and that key was made in [InitiateCloning] by an enclave of the
    same image under the same IAM role, for this donor and under this donor's
    secret; its nonce is used up, and the export is counted within the cap.  When
    it refuses, everything but the replay guard is as before: no slot stays
    taken. *)
Theorem get_clone_safe serves initiated issued genuine s req cfg policy ephemeral fresh wall now
    s' r :
  trusted_pki root_der issued genuine ->
  (forall body a own, genuine body -> document_from_reader body = Some a ->
     get_own_pcrs = Ok own -> has_pcrs (pcrs a) own ->
     requested sha256 hmac_sha256 serves initiated (public_key a) (user_data a)) ->
  (forall m, zlen (sha256 m) = 32) ->
  (forall secret secret' k t m,
     contents (donor_cloning_secret s) = Some secret ->
     m = gc_encryption_pubkey req ++ gc_cluster_public_key req -> initiated secret' k t ->
     hmac_sha256 secret' (k ++ t) = hmac_sha256 secret m -> secret' = secret /\ k ++ t = m) ->
  (forall t, wall = Some t -> is_u64 t) -> is_u64 (seed_export_slots s) ->
  get_clone s req cfg policy ephemeral fresh wall now = (s', r) ->
  match r with
  | Ok reply =>
      exists km secret pcr3 body a nonce,
        contents (inner s) = Active km /\ contents (donor_cloning_secret s) = Some secret /\
        encrypt_seed_for_peer ephemeral (gc_encryption_pubkey req) (op_expose_seed km) =
          Ok (encrypted_seed reply, donor_pubkey reply) /\
        initiated secret (gc_encryption_pubkey req) (op_evm_address km) /\
        genuine body /\ document_from_reader body = Some a /\
        get_own_pcr3 = Ok pcr3 /\ pcrs a !! 3 = Some pcr3 /\ ~ Forall (fun b => b = x00) pcr3 /\
        doc_nonce a = Some nonce /\
        (forall t, sat_sub t now < g_ttl (replay_guard s) ->
           guard_check (replay_guard s') nonce t = Err NonceReplay) /\
        inner s' = inner s /\ seed_export_count s' = wrap64 (seed_export_count s + 1) /\
        (0 < seed_export_hard_cap s -> seed_export_slots s < seed_export_hard_cap s)
  | _ => only_guard s s'
  end.
Proof.
  intros Hpki Hreq Hlen Hhmac Hwall Hu H. pose proof (get_clone_cases _ _ _ _ _ _ _ _ _ _ Hu H) as Hc.
  destruct r as [reply| |]; [|done|done].
  destruct Hc as (v & km & secret & own & pcr3 & pol & dn & Hc & _ & _ & _ & Hs).
  destruct Hc as [[_ Ha] [_ Hsec] Hcl Hdg (_ & Hpk & Hdl) Ho Hv (Hq & Hz & H3) Hk Hd].
  destruct Hs as [Hseed _ [Hi _] Hcnt Hslots (g & gen & Hrec & Hg)].
  unfold verify_attestation in Hv. apply rbind_ok in Hv as ([a n] & Ed & Ei).
  apply (attestation_genuine Hpki _ _ _ _ _ _ _ _ Hwall) in Ed as (body & Hgen & Hb & Hn & _ & Hpc & _).
  unfold into_verified in Ei. destruct (public_key a) as [key|] eqn:Ek; [|done].
  injection Ei as <-. cbn in Hk, Hd, H3, Hrec. subst key.
  pose proof (Hreq body a own Hgen Hb Ho Hpc) as R. rewrite Ek, Hd in R.
  pose proof (requested_initiate _ _ _ _ _ _ R Hlen
    (fun sec k t => Hhmac _ sec k t _ Hsec eq_refl) Hpk Hdl Hdg) as Hinit. rewrite Hcl in Hinit.
  exists km, secret, pcr3, body, a, n. repeat (split; [done|]). split.
  - intros t Ht. rewrite Hg. by apply (record_then_check _ _ _ _ _ t Hrec).
  - split; [done|]. split; [done|]. intros Hcap. by apply Hslots in Hcap as [? _].
Qed.

End Trust.

(** *** The handshake from start to end *)

(** What the handshake needs of the primitives. *)
Class CloneLaws : Prop := {
  dh_comm a b : diffie_hellman a (public_from b) = diffie_hellman b (public_from a);
  chacha_total key nonce m : exists c, chacha_encrypt key nonce m = Some c;
  chacha_inverse key nonce m c :
    chacha_encrypt key nonce m = Some c -> chacha_decrypt key nonce c = Some m;
  public_size a : zlen (public_from a) = 32;
  hmac_size k m : zlen (hmac_sha256 k m) = 32;
  sha_size m : zlen (sha256 m) = 32
}.

Context {L : CloneLaws}.

(** Sealing and unsealing are inverse. *)
Lemma seal_unseal x y seed :
  was_contributory (diffie_hellman y (public_from x)) = true -> zlen seed = 64 ->
  exists ct, encrypt_seed_for_peer y (public_from x) seed = Ok (ct, public_from y) /\
             decrypt_seed_from_peer (new_session x) (public_from y) ct = Ok seed.
Proof.
  intros Hc Hs. unfold encrypt_seed_for_peer, decrypt_seed_from_peer, reject_non_contributory.
  cbn [secret public new_session]. rewrite (dh_comm x y), Hc. cbn [rbind].
  unfold encrypt_with_key, decrypt_with_key.
  destruct (chacha_total (derive_symmetric_key (diffie_hellman y (public_from x)) (public_from y)
    (public_from x)) ZERO_NONCE seed) as [ct Hct].
  exists ct. rewrite Hct. cbn [ok_or rbind]. split; [done|].
  rewrite (chacha_inverse _ _ _ _ Hct). cbn [ok_or rbind]. apply Z.eqb_eq in Hs. by rewrite Hs.
Qed.

Lemma initiate_ok s req x nonce created now s' r :
  handle_initiate_cloning s req x (Ok nonce) created now = (s', Ok r) ->
  zlen (ic_cluster_public_key req) = 20 /\
  encryption_pubkey r = public_from x /\
  cloning_digest r = hmac_sha256 (ic_cloning_secret req) (public_from x ++ ic_cluster_public_key req) /\
  get_attestation nonce (Some (public_from x)) (Some (cloning_digest r)) = Ok (requester_attestation r) /\
  poisoned (inner s) = false /\
  exists cs, s' = set_phase s (Cloning cs) /\ cs_session cs = new_session x /\
             cs_cluster_public_key cs = ic_cluster_public_key req /\
             cs_donor_cloning_secret cs = ic_cloning_secret req.
Proof.
  unfold handle_initiate_cloning. intros H.
  destruct (let? _ := validate_cloning_secret _ in _) as [[cs reply]| |] eqn:E; [|done..].
  apply rbind_ok in E as ([] & _ & E). apply rbind_ok in E as (cl & Hcl & E).
  apply array_of_iff in Hcl as [Hcl ->]. cbn [rbind] in E.
  apply rbind_ok in E as (doc & Hd & E). apply rbind_ok in E as (cs' & Hcs & E). injection E as <- <-.
  unfold new_session_at in Hcs. apply rbind_ok in Hcs as (u & _ & Hcs). injection Hcs as <-.
  unfold enter_cloning_at in H. destruct (lock_phase s) as [p| |] eqn:El; cbn [rbind] in H; [|done..].
  destruct (match p with Initial => _ | _ => _ end) as [[]| |] eqn:Em; cbn [rbind commit_phase] in H;
    [|done..].
  injection H as <- <-. cbn. split; [done|]. split; [done|]. split; [done|]. split; [done|]. split.
  - unfold lock_phase in El. by destruct (poisoned (inner s)).
  - by eexists.
Qed.

(** The donor answers when all its checks pass. *)
Lemma get_clone_ok s req cfg pol ephemeral dn wall now v km secret own pcr3 g gen reply :
  get_clone_checked s req wall v km secret own pcr3 -> zlen (va_nonce v) = 32 ->
  seed_export_hard_cap s = 0 \/ 0 < seed_export_hard_cap s /\ seed_export_slots s < seed_export_hard_cap s ->
  check_and_record_at (replay_guard s) (va_nonce v) now = (g, Ok gen) ->
  encrypt_seed_for_peer ephemeral (gc_encryption_pubkey req) (op_expose_seed km) =
    Ok (encrypted_seed reply, donor_pubkey reply) ->
  get_attestation dn (Some (donor_pubkey reply))
    (Some (clone_commitment sha256 (build_public_keys_response (key_info km) cfg) pol
             (gc_encryption_pubkey req) (donor_pubkey reply) (encrypted_seed reply)))
    = Ok (donor_attestation reply) ->
  exists s', get_clone s req cfg (Ok pol) ephemeral (Ok dn) wall now = (s', Ok reply) /\
             inner s' = inner s.
Proof.
  intros Hc Hn Hq Hr He Hd. unfold handle_get_clone.
  rewrite (proj2 (check_get_clone_iff _ _ _ _)) by by exists km, secret, own, pcr3.
  assert (Hres : exists s1 q, reserve_export_quota s = (s1, Ok q) /\ inner s1 = inner s /\
                              replay_guard s1 = replay_guard s).
  { unfold reserve_export_quota. destruct Hq as [-> | [Hp Hl]]; [by eexists _, _|].
    apply Z.ltb_lt in Hp, Hl. rewrite Hp, Hl. by eexists _, _. }
  destruct Hres as (s1 & q & -> & Hi & Hg).
  rewrite (proj2 (array_of_iff _ _ _ _) (conj Hn eq_refl)).
  unfold reserve_at. rewrite Hg, Hr. cbn [rbind].
  destruct (gcc_active _ _ _ _ _ _ _ _ Hc) as [Hp Ha].
  rewrite (proj2 (seal_reply_iff (set_replay_guard s1 g) cfg (Ok pol) _ ephemeral (Ok dn) km reply
    ltac:(cbn; by rewrite Hi) ltac:(cbn; by rewrite Hi)));
    [|by exists pol, dn].
  by eexists.
Qed.

(** Two enclaves of one image under one role: the NSM answers (it takes up to 512
    bytes of user data), and its documents verify with what was asked for. *)
Record same_image (wall : option Z) (own : ExpectedPcrs) (pcr3 : bytes) : Prop := {
  si_pcrs : get_own_pcrs = Ok own;
  si_pcr3 : get_own_pcr3 = Ok pcr3 /\ ~ Forall (fun b => b = x00) pcr3;
  si_doc nonce key ud : zlen nonce = 32 -> zlen key = 32 -> zlen ud <= 512 -> exists doc v,
    get_attestation nonce (Some key) (Some ud) = Ok doc /\
    verify_attestation allow_debug root_der doc own None wall = Ok v /\
    enclave_pubkey v = key /\ va_user_data v = Some ud /\ va_nonce v = nonce /\
    va_pcrs v !! 3 = Some pcr3
}.

Lemma commitment_size ks pol rq dk ct : zlen (clone_commitment sha256 ks pol rq dk ct) <= 512.
Proof. unfold clone_commitment. rewrite zlen_app, sha_size. vm_compute. congruence. Qed.

(** A donor with the keys [km] that will take the nonce at [t]. *)
Record ready_donor (s : EnclaveState) (km : Manager) (secret nonce : bytes) (t : Z) : Prop := {
  rd_active : poisoned (inner s) = false /\ contents (inner s) = Active km;
  rd_secret : poisoned (donor_cloning_secret s) = false /\
              contents (donor_cloning_secret s) = Some secret;
  rd_quota : seed_export_hard_cap s = 0 \/
             0 < seed_export_hard_cap s /\ seed_export_slots s < seed_export_hard_cap s;
  rd_fresh : exists g gen, check_and_record_at (replay_guard s) nonce t = (g, Ok gen)
}.

(** [km'] are the keys of the seed of [km]. *)
Definition same_keys (n : Net) (km km' : Manager) : Prop :=
  zlen (op_expose_seed km) = 64 /\ op_from_seed (op_expose_seed km) n = Ok km' /\
  op_evm_address km' = op_evm_address km /\ key_info km' = key_info km.

Lemma image_doc wall own pcr3 nonce key ud doc :
  same_image wall own pcr3 -> zlen nonce = 32 -> zlen key = 32 -> zlen ud <= 512 ->
  get_attestation nonce (Some key) (Some ud) = Ok doc ->
  exists v, verify_attestation allow_debug root_der doc own None wall = Ok v /\
    enclave_pubkey v = key /\ va_user_data v = Some ud /\ va_nonce v = nonce /\
    va_pcrs v !! 3 = Some pcr3.
Proof.
  intros Hi Hn Hk Hu Hd. destruct (si_doc _ _ _ Hi nonce key ud Hn Hk Hu) as (doc' & v & Hd' & Hv).
  rewrite Hd in Hd'. injection Hd' as ->. by exists v.
Qed.

(** The requester takes the donor's answer. *)
Lemma set_clone_ok s cs reply cfg pol wall own pcr3 dn now km' seed g gen :
  same_image wall own pcr3 -> zlen (donor_pubkey reply) = 32 -> zlen dn = 32 ->
  poisoned (inner s) = false -> contents (inner s) = Cloning cs ->
  poisoned (donor_cloning_secret s) = false ->
  check_and_record_at (replay_guard s) dn now = (g, Ok gen) ->
  decrypt_seed_from_peer (cs_session cs) (donor_pubkey reply) (encrypted_seed reply) = Ok seed ->
  op_from_seed seed (network s) = Ok km' -> op_evm_address km' = cs_cluster_public_key cs ->
  get_attestation dn (Some (donor_pubkey reply))
    (Some (clone_commitment sha256 (build_public_keys_response (key_info km') cfg) pol
             (public (cs_session cs)) (donor_pubkey reply) (encrypted_seed reply)))
    = Ok (donor_attestation reply) ->
  exists s', set_clone s reply cfg (Ok pol) wall now = (s', Ok tt) /\
    contents (inner s') = Active km' /\
    contents (donor_cloning_secret s') = Some (cs_donor_cloning_secret cs).
Proof.
  intros Hi Hk Hn Hp Hc Hsp Hr Hs Hf He Hd.
  destruct (image_doc _ _ _ _ _ _ _ Hi Hn Hk (commitment_size _ _ _ _ _) Hd) as (v & Hv & Hvk & Hvu & Hvn & Hv3).
  unfold handle_set_clone, check_set_clone.
  rewrite (proj2 (array_of_iff _ _ _ _) (conj Hk eq_refl)). cbn [rbind].
  rewrite (si_pcrs _ _ _ Hi). cbn [rbind]. unfold verify_peer_attestation. rewrite Hv.
  cbn [rmap_err rbind]. destruct (si_pcr3 _ _ _ Hi) as [Hq Hz]. rewrite Hq. cbn [rbind].
  rewrite (proj2 (peer_pcr3_iff _ _) (conj Hz Hv3)). cbn [rbind].
  rewrite bool_decide_true by done. cbn [negb rbind]. rewrite Hvn.
  rewrite (proj2 (array_of_iff _ _ _ _) (conj Hn eq_refl)). cbn [rbind].
  unfold reserve_at. rewrite Hr. cbn [rbind].
  assert (Hu : unseal_keys (network s) cfg (Ok pol) reply (va_user_data v) cs = Ok km').
  { unfold unseal_keys. rewrite Hs. cbn [rbind]. rewrite Hf. cbn [rbind].
    rewrite bool_decide_true by done. cbn [negb rbind]. unfold verify_clone_commitment.
    by rewrite Hvu, bool_decide_true. }
  unfold complete_cloning, lock_phase. cbn [set_replay_guard inner donor_cloning_secret network].
  rewrite Hp, Hc. cbn [rbind]. rewrite Hu. cbn [rbind]. rewrite Hsp. by eexists.
Qed.

(** C19: the handshake works.  Let a requester have answered [InitiateCloning]
    for the address and the secret of a donor of the same image and role that is
    ready.  Then the donor answers [GetClone] on the fields of that reply, the
    requester accepts [SetClone] on the donor's reply, and ends active with the
    donor's keys and as a donor of the same secret; the donor keeps its keys. *)
Theorem clone_handshake sr req x nr created t0 sr1 r1 sd km km' y dn cfg pol wall t1 t2 own pcr3 :
  same_image wall own pcr3 -> zlen nr = 32 -> zlen dn = 32 ->
  handle_initiate_cloning sr req x (Ok nr) created t0 = (sr1, Ok r1) ->
  ready_donor sd km (ic_cloning_secret req) nr t1 ->
  ic_cluster_public_key req = op_evm_address km ->
  same_keys (network sr) km km' ->
  was_contributory (diffie_hellman y (public_from x)) = true ->
  poisoned (donor_cloning_secret sr) = false ->
  (exists g gen, check_and_record_at (replay_guard sr) dn t2 = (g, Ok gen)) ->
  exists sd1 r2 sr2,
    get_clone sd {| gc_cluster_public_key := ic_cluster_public_key req;
                    gc_requester_attestation := requester_attestation r1;
                    gc_encryption_pubkey := encryption_pubkey r1;
                    gc_cloning_digest := cloning_digest r1 |}
      cfg (Ok pol) y (Ok dn) wall t1 = (sd1, Ok r2) /\
    set_clone sr1 r2 cfg (Ok pol) wall t2 = (sr2, Ok tt) /\
    contents (inner sr2) = Active km' /\ contents (inner sd1) = Active km /\
    contents (donor_cloning_secret sr2) = Some (ic_cloning_secret req).
Proof.
  intros Hi Hn Hdn H [[Hp Ha] [Hsp Hs] Hq (g & gen & Hf)] Hcl (H64 & Hfs & Hev & Hki) Hc Hrp (g2 & gen2 & Hf2).
  apply initiate_ok in H as (H20 & Hk & Hdg & Hdoc & Hrl & cs & -> & Hcs & Hcc & Hcd).
  assert (Hdz : zlen (cloning_digest r1) <= 512) by (rewrite Hdg, hmac_size; lia).
  destruct (image_doc _ _ _ _ _ _ _ Hi Hn (public_size x) Hdz Hdoc) as (v & Hv & Hvk & Hvu & Hvn & Hv3).
  destruct (seal_unseal x y (op_expose_seed km) Hc H64) as (ct & He & Hd).
  set (commitment := clone_commitment sha256 (build_public_keys_response (key_info km) cfg) pol
                       (public_from x) (public_from y) ct).
  destruct (si_doc _ _ _ Hi dn (public_from y) commitment Hdn (public_size y)
    (commitment_size _ _ _ _ _)) as (doc & _ & Hdd & _).
  set (r2 := {| encrypted_seed := ct; donor_pubkey := public_from y; donor_attestation := doc |}).
  set (greq := {| gc_cluster_public_key := _ |}).
  assert (Hchk : get_clone_checked sd greq wall v km (ic_cloning_secret req) own pcr3).
  { destruct (si_pcr3 _ _ _ Hi). split; cbn; try done.
    - by rewrite Hk.
    - rewrite Hk, Hdg. split; [done|]. split; [apply public_size|apply hmac_size].
    - by apply (si_pcrs _ _ _ Hi).
    - by rewrite Hk. }
  destruct (get_clone_ok sd greq cfg pol y dn wall t1 v km (ic_cloning_secret req) own pcr3 g gen r2)
    as (sd1 & Hg & Hin); try done; [by rewrite Hvn|by rewrite Hvn|by cbn; rewrite Hk|by cbn; rewrite Hk|].
  destruct (set_clone_ok (set_phase sr (Cloning cs)) cs r2 cfg pol wall own pcr3 dn t2 km'
    (op_expose_seed km) g2 gen2) as (sr2 & Hset & Hact & Hsec); try done.
  - apply public_size.
  - by rewrite Hcs.
  - by rewrite Hev, Hcc.
  - by rewrite Hcs, Hki.
  - exists sd1, r2, sr2. split; [exact Hg|]. split; [exact Hset|]. split; [exact Hact|].
    split; [by rewrite Hin|]. by rewrite Hsec, Hcd.
Qed.

(** *** Initialization *)

Definition installed (s s' : EnclaveState) (km : Manager) : Prop :=
  contents (inner s) = Initial /\ contents (inner s') = Active km /\
  poisoned (inner s') = false /\ donor_cloning_secret s' = donor_cloning_secret s.

Definition kept (s s' : EnclaveState) : Prop :=
  contents (inner s') = contents (inner s) /\ donor_cloning_secret s' = donor_cloning_secret s.

(** The outcome of a step that installs keys or keeps the state. *)
Definition install_outcome (s s' : EnclaveState) {A} (r : enclave_result A) : Prop :=
  match r with Ok _ => exists km, installed s s' km | _ => kept s s' end.

Lemma commit_install {A B} (s : EnclaveState) (k : enclave_result B) (f : B -> Manager * A) s' r :
  commit_phase s (let? guard := lock_phase s in
                  let? _ := ensure_initial guard in
                  let? b := k in Ok (Active (K := clone_keys) (f b).1, (f b).2)) = (s', r) ->
  install_outcome s s' r.
Proof.
  destruct (lock_phase s) as [g| |] eqn:El; cbn [rbind commit_phase]; [|by intros [= <- <-]..].
  destruct (ensure_initial g) as [u| |] eqn:Ei; cbn [rbind commit_phase]; [|by intros [= <- <-]..].
  destruct k as [b| |]; cbn [rbind commit_phase]; [|by intros [= <- <-]..].
  intros [= <- <-]. apply ensure_initial_ok in Ei. subst g. exists (f b).1. split; [|split; [|split]].
  - by apply lock_phase_ok in El.
  - done.
  - unfold lock_phase in El. cbn. by destruct (poisoned (inner s)).
  - done.
Qed.

Lemma finish_poisoned (s : EnclaveState) loaded deadline now :
  poisoned (inner (finish_recovery s loaded deadline now).1) = poisoned (inner s).
Proof.
  unfold finish_recovery, drop_initialization.
  destruct (let? manager := loaded in _) as [[p a]| |]; cbn [commit_phase fst]; by case_match.
Qed.

Lemma recovery_install (s : EnclaveState) deadline now now' s' r :
  initialize_from_persistence_until s deadline now now' = (s', r) -> install_outcome s s' r.
Proof.
  unfold initialize_from_persistence_until.
  destruct (begin_recovery s deadline now) as [s1 b] eqn:Eb.
  assert (Hp : forall a, b = Ok a -> poisoned (inner s) = false).
  { intros a ->. unfold begin_recovery in Eb. destruct (remaining_until _ _); [|done..].
    cbn [rbind] in Eb. destruct (ok_or _ _); [|done..]. cbn [rbind] in Eb.
    unfold lock_phase in Eb. by destruct (poisoned (inner s)). }
  destruct (begin_recovery_cases s deadline now) as [(source & d & E & Hi)|[E1 E2]].
  - rewrite E in Eb. injection Eb as <- <-. specialize (Hp _ eq_refl). intros H.
    pose proof (finish_recovery_cases (set_phase s Initializing)
      (source (network (set_phase s Initializing)) d) d now') as (_ & Hs & Hm).
    rewrite H in Hs, Hm. cbn in Hs, Hm. unfold install_outcome, installed, kept.
    destruct Hm as [[Hc Hr]|(km & _ & Hc & ->)].
    + destruct r as [[]| |]; [done|by rewrite Hc, Hi..].
    + exists km. split; [done|]. split; [done|]. split; [|done].
      pose proof (finish_poisoned (set_phase s Initializing)
        (source (network (set_phase s Initializing)) d) d now') as Hf.
      rewrite H in Hf. cbn in Hf. by rewrite Hf.
  - rewrite Eb in E1, E2. cbn in E1, E2. subst s1. destruct b as [[]| |]; [by destruct (E2 _ eq_refl)|..];
      by intros [= <- <-].
Qed.

Lemma entropy_commit (s : EnclaveState) e :
  initialize_from_entropy s e =
  commit_phase s (let? guard := lock_phase s in
                  let? _ := ensure_initial guard in
                  let? b := op_generate e (network s) in Ok (Active (K := clone_keys) (id b).1, (id b).2)).
Proof.
  unfold initialize_from_entropy. f_equal. destruct (lock_phase s) as [g| |]; [|done..].
  cbn [rbind]. destruct (ensure_initial g); [|done..]. cbn [rbind generate clone_keys].
  by destruct (op_generate e (network s)) as [[]| |].
Qed.

Lemma install_keys_outcome kms import s req entropy launch deadline now now' s' r :
  install_keys kms import s req entropy launch deadline now now' = (s', r) ->
  install_outcome s s' r /\
  (forall u, r = Ok u ->
     (kms = false \/ ik_mnemonic req <> "" \/ ik_seed req <> [] -> check_init_secret req = Ok tt) /\
     (ik_mnemonic req <> "" \/ ik_seed req <> [] -> import = true)).
Proof.
  unfold install_keys. case_bool_decide as Hm; cbn [negb].
  - case_bool_decide as Hs.
    + destruct kms.
      * destruct (let? _ := launch in _) as [u| |]; [|by intros [= <- <-]..].
        intros H. split; [by eapply recovery_install|]. intros _ _. by split; intros [|[]].
      * destruct (check_init_secret req) as [[]| |]; cbn [rbind]; [|by intros [= <- <-]..].
        destruct entropy as [e| |]; [|by intros [= <- <-]..].
        destruct (initialize_from_entropy s e) as [s1 r1] eqn:Ei. intros [= <- <-].
        split; [|intros _ _; split; [done|by intros []]].
        rewrite entropy_commit in Ei.
        apply (commit_install s (op_generate e (network s)) id) in Ei. by destruct r1.
    + destruct import; [|by intros [= <- <-]].
      destruct (let? _ := array_of _ _ _ in _) as [[]| |] eqn:Ec; [|by intros [= <- <-]..].
      apply rbind_ok in Ec as (a & _ & Ec). intros H. split; [|done].
      by apply (commit_install s (op_from_seed (ik_seed req) (network s)) (fun m => (m, tt))) in H.
  - destruct import; [|by intros [= <- <-]].
    destruct (MAX_MNEMONIC_BYTES <? _); [by intros [= <- <-]|].
    destruct (check_init_secret req) as [[]| |] eqn:Ec; [|by intros [= <- <-]..].
    intros H. split; [|done].
    by apply (commit_install s (op_from_mnemonic (ik_mnemonic req) (network s)) (fun m => (m, tt))) in H.
Qed.

(** An initialization installs keys and secret together or nothing.  While the
    lock of the donor secret is not poisoned, a request that is answered finds the
    enclave without keys and leaves it active with the keys it reports and, if the
    request carries one, a donor secret of the required strength; a request that
    is refused leaves phase and secret as they were, also when a recovery fails.
    Seeds and mnemonics are imported only in a build that allows it. *)
Theorem initialize_all_or_nothing kms import s req cfg entropy launch deadline now now' s' r :
  handle_initialize kms import s req cfg entropy launch deadline now now' = (s', r) ->
  poisoned (donor_cloning_secret s) = false ->
  match r with
  | Ok reply =>
      contents (inner s) = Initial /\
      (exists km, contents (inner s') = Active km /\
                  reply = build_public_keys_response (key_info km) cfg) /\
      (if bool_decide (ik_cloning_secret req = []) then
         donor_cloning_secret s' = donor_cloning_secret s
       else contents (donor_cloning_secret s') = Some (ik_cloning_secret req) /\
            validate_cloning_secret (ik_cloning_secret req) = Ok tt) /\
      (ik_mnemonic req <> "" \/ ik_seed req <> [] -> import = true)
  | _ => kept s s'
  end.
Proof.
  unfold handle_initialize. intros H Hp.
  destruct (kms && negb _) eqn:Ek; [injection H as <- <-; done|].
  destruct (install_keys _ _ _ _ _ _ _ _ _) as [s1 r1] eqn:Ei.
  apply install_keys_outcome in Ei as [Ho Hok].
  destruct r1 as [u| |]; [|injection H as <- <-; done..]. destruct Ho as (km & Hi & Ha & Hl & Hs).
  destruct (Hok u eq_refl) as [Hv Himp].
  assert (Hk : forall s2, inner s2 = inner s1 -> get_keys s2 = Ok (key_info km)).
  { intros s2 E. unfold get_keys, with_active, lock_phase. by rewrite E, Hl, Ha. }
  destruct (bool_decide (ik_cloning_secret req = [])) eqn:Es.
  - rewrite (Hk s1 eq_refl) in H. injection H as <- <-. split; [done|]. split; [by exists km|]. done.
  - assert (Hval : validate_cloning_secret (ik_cloning_secret req) = Ok tt).
    { rewrite Bool.andb_true_r in Ek. unfold check_init_secret in Hv. rewrite Es in Hv.
      apply Hv. by left. }
    unfold set_donor_cloning_secret in H. rewrite Hval in H. cbn [rbind] in H. rewrite Hs, Hp in H.
    rewrite Hk in H by done. injection H as <- <-.
    split; [done|]. split; [by exists km|]. split; [by split|done].
Qed.

End Handlers.

(** ** Two sample enclaves *)

Definition sample_public (a : bool) : bytes := replicate 32 (if a then x01 else x02).

(** Two key pairs, with one shared secret for the two. *)
#[local] Instance sample_dh : X25519 := {|
  StaticSecret := bool; public_from := sample_public;
  diffie_hellman := fun a p => if bool_decide (p = sample_public (negb a)) then [x03] else [];
  was_contributory := fun shared => bool_decide (shared = [x03]) |}.

Definition sample_tag : bytes := replicate 16 x00.

#[local] Instance sample_crypto : CloneCrypto := {|
  hmac_sha256 := fun _ m => sample_sha m;
  hkdf_sha256 := fun _ secret _ => secret;
  chacha_encrypt := fun _ _ m => Some (m ++ sample_tag);
  chacha_decrypt := fun _ _ c => Some (take (length c - 16) c);
  sha256 := sample_sha |}.

(** The keys are their seed. *)
#[local] Instance sample_ops : KeyOps := {|
  Manager := bytes; Words := unit; Net := unit; Reply := unit;
  op_generate := fun e _ => Ok (take 64 (e ++ replicate 64 x00), tt);
  op_from_mnemonic := fun _ _ => Ok (replicate 64 x05);
  op_from_seed := fun seed _ => Ok seed;
  op_expose_seed := id; op_evm_address := fun _ => replicate 20 x0a;
  key_info := fun _ => sample_info |}.

#[local] Existing Instances clone_keys sample_nsm.
#[local] Instance sample_signer : P384 := sample_p384 sample_all.

#[local] Instance sample_clone_laws : CloneLaws.
Proof.
  assert (Hs : forall m, zlen (sample_sha m) = 32).
  { intros m. unfold sample_sha, zlen. rewrite length_take, length_app, length_replicate. lia. }
  split; [by intros [] []|by eexists| |by intros []|by intros; apply Hs|exact Hs].
  intros key nonce m c H. injection H as <-. unfold chacha_decrypt, sample_crypto. f_equal.
  rewrite length_app. change (length sample_tag) with 16%nat. by rewrite take_app_length' by lia.
Qed.

Definition sample_secret : bytes := map z2b (map Z.of_nat (seq 1 40)).
Definition sample_wall : option Z := Some 1700000000.

Lemma sample_image : same_image false sample_root sample_wall sample_own_pcrs sample_pcr3.
Proof.
  split; [reflexivity|split; [reflexivity|]|].
  - intros H. inversion H. discriminate.
  - intros nonce key ud Hn Hk Hu. exists (sample_document key ud nonce). eexists.
    split; [reflexivity|]. split.
    + apply sample_verifies; [|by intros ->|lia..].
      unfold sample_all. rewrite sample_read_payload. reflexivity.
    + repeat split.
Qed.

Definition sample_requester : EnclaveState := new_state tt 0 2.
Definition sample_seed : bytes := replicate 64 x42.

(** An active donor with the sample secret. *)
Definition sample_donor : EnclaveState :=
  (set_donor_cloning_secret (initialize_from_seed sample_requester sample_seed).1 sample_secret).1.

Definition sample_initiate : InitiateCloningRequest := {|
  ic_cloning_secret := sample_secret; ic_cluster_public_key := replicate 20 x0a |}.

Definition sample_initiated : InitiateCloningResponse := {|
  requester_attestation := sample_document (sample_public true) (sample_public true) sample_nonce;
  encryption_pubkey := sample_public true; cloning_digest := sample_public true |}.

Definition sample_get : GetCloneRequest := {|
  gc_cluster_public_key := replicate 20 x0a;
  gc_requester_attestation := requester_attestation sample_initiated;
  gc_encryption_pubkey := sample_public true; gc_cloning_digest := sample_public true |}.

Definition sample_donor_nonce : bytes := replicate 32 x08.

(** Only the payload of the sample request is genuine. *)
Definition sample_only (body : bytes) : bool :=
  bool_decide (body = sample_payload (sample_public true) (sample_public true) sample_nonce).

Definition sample_answered := handle_get_clone (P := sample_p384 sample_only) false sample_root
  sample_donor sample_get sample_config (Ok []) false (Ok sample_donor_nonce) sample_wall 5.

Lemma get_clone_safe_witness :
  exists reply, sample_answered.2 = Ok reply /\
    encrypt_seed_for_peer false (sample_public true) sample_seed =
      Ok (encrypted_seed reply, donor_pubkey reply).
Proof.
  assert (Hr : exists reply, sample_answered.2 = Ok reply) by (eexists; vm_compute; reflexivity).
  destruct Hr as [reply Hr]. exists reply. split; [exact Hr|].
  destruct (get_clone_safe (P := sample_p384 sample_only) false sample_root (fun _ _ => False)
    (fun sec k t => sec = sample_secret /\ k = sample_public true /\ t = replicate 20 x0a)
    (fun _ => True) (fun b => sample_only b = true)
    sample_donor sample_get sample_config (Ok []) false (Ok sample_donor_nonce) sample_wall 5
    sample_answered.1 (Ok reply))
    as (km & sec & pcr3 & body & a & nonce & Ha & _ & Hseed & _).
  - apply sample_pki.
  - intros body a own Hg Hb _ _. apply bool_decide_eq_true in Hg. subst body.
    cbn [document_from_reader sample_ciborium] in Hb. rewrite sample_read_payload in Hb.
    injection Hb as <-.
    assert (forall k u n, user_data (sample_body k u n) = Some u) as -> by done.
    assert (Hp : public_key (sample_body (sample_public true) (sample_public true) sample_nonce) =
                 Some (sample_public true)) by (vm_compute; reflexivity).
    assert (Hd : sample_public true = hmac_sha256 sample_secret (sample_public true ++ replicate 20 x0a))
      by (vm_compute; reflexivity).
    rewrite Hp. rewrite Hd at 2.
    apply (ReqInitiate sha256 hmac_sha256 _ _ sample_secret (sample_public true) (replicate 20 x0a)).
    repeat split.
  - apply sha_size.
  - intros secret secret' k t m Hs -> (-> & -> & ->) _. split; [|reflexivity].
    vm_compute in Hs. injection Hs as <-. vm_compute. reflexivity.
  - intros t [= <-]. vm_compute. split; congruence.
  - vm_compute. split; congruence.
  - rewrite <- Hr. apply surjective_pairing.
  - assert (Hk : contents (inner sample_donor) = Active (K := clone_keys) sample_seed) by reflexivity.
    rewrite Hk in Ha. injection Ha as <-. exact Hseed.
Defined.

Lemma clone_handshake_witness :
  exists sr1 sd1 r2 sr2,
    handle_initiate_cloning sample_requester sample_initiate true (Ok sample_nonce) 0 0 =
      (sr1, Ok sample_initiated) /\
    handle_get_clone false sample_root sample_donor sample_get sample_config (Ok []) false
      (Ok sample_donor_nonce) sample_wall 5 = (sd1, Ok r2) /\
    handle_set_clone false sample_root sr1 r2 sample_config (Ok []) sample_wall 9 = (sr2, Ok tt) /\
    contents (inner sr2) = Active (K := clone_keys) sample_seed.
Proof.
  assert (Hi : exists sr1, handle_initiate_cloning sample_requester sample_initiate true
    (Ok sample_nonce) 0 0 = (sr1, Ok sample_initiated)) by (eexists; vm_compute; reflexivity).
  destruct Hi as [sr1 Hi].
  destruct (clone_handshake false sample_root sample_requester sample_initiate true sample_nonce 0 0 sr1
    sample_initiated sample_donor sample_seed sample_seed false sample_donor_nonce sample_config []
    sample_wall 5 9 sample_own_pcrs sample_pcr3) as (sd1 & r2 & sr2 & Hg & Hs & Ha & _).
  - exact sample_image.
  - reflexivity.
  - reflexivity.
  - exact Hi.
  - split; [split; reflexivity|split; vm_compute; reflexivity|right; split; reflexivity|].
    eexists _, _. vm_compute. reflexivity.
  - reflexivity.
  - repeat split.
  - reflexivity.
  - reflexivity.
  - eexists _, _. vm_compute. reflexivity.
  - exists sr1, sd1, r2, sr2. split; [exact Hi|]. split; [exact Hg|]. split; [exact Hs|exact Ha].
Defined.

Lemma initialize_all_or_nothing_witness :
  exists km reply,
    (handle_initialize false false sample_requester
       {| ik_seed := []; ik_mnemonic := ""; ik_cloning_secret := sample_secret |} sample_config
       (Ok [x77]) (Ok tt) 0 0 0).2 = Ok reply /\
    reply = build_public_keys_response (key_info km) sample_config.
Proof.
  set (run := handle_initialize _ _ _ _ _ _ _ _ _ _).
  assert (Hr : exists reply, run.2 = Ok reply) by (eexists; vm_compute; reflexivity).
  destruct Hr as [reply Hr].
  destruct (initialize_all_or_nothing false false sample_requester
    {| ik_seed := []; ik_mnemonic := ""; ik_cloning_secret := sample_secret |} sample_config
    (Ok [x77]) (Ok tt) 0 0 0 run.1 (Ok reply)) as (_ & (km & _ & Hk) & _).
  - rewrite <- Hr. apply surjective_pairing.
  - reflexivity.
  - exists km, reply. split; [exact Hr|exact Hk].
Defined.
