(* ===== verification/SpvCrosscheck.v ===== *)
(** * SPV cross-check (src/enclave/src/networks/rgb/spv_crosscheck.rs)

    The gate between a validated consignment and the header chain: every
    witness transaction has one Merkle proof, each proof is included in a
    stored block that is deep enough, and the blocks used are pinned and
    checked again before the key is used.  [sha256d], [ChainNet::prefix] and
    [WitnessPos::bitcoin] are parameters. *)

From stdpp Require Import strings sorting base gmap numbers list.
From S2P Require Import Prelude Errors SpvTypes SpvChain SpvConcrete SpvChainSpec.
From S2P Require Import SpvChainProps SpvMerkle.

#[local] Open Scope list_scope.
#[local] Open Scope Z_scope.

Definition SPV_MAX_TIP_AGE_SECS : Z := 2 * 60 * 60.
Definition SPV_MAX_TIP_FUTURE_SECS : Z := 2 * 60 * 60.

(** [rgbstd::ChainNet], the values [Network::chain_net] uses. *)
Inductive ChainNet : Type :=
| BitcoinMainnet
| BitcoinSignet
| BitcoinSignetCustom
| BitcoinTestnet3
| BitcoinTestnet4
| BitcoinRegtest.

Definition chain_net (n : Network) : ChainNet :=
  match n with
  | Mainnet => BitcoinMainnet
  | Signet => BitcoinSignet
  | SignetCustom => BitcoinSignetCustom
  | Testnet3 => BitcoinTestnet3
  | Testnet4 => BitcoinTestnet4
  | Regtest => BitcoinRegtest
  end.

Record MerkleProofEntry : Type := {
  mp_txid : bytes;
  mp_block_height : Z;
  mp_tx_position : Z;
  mp_merkle_path : list bytes
}.

(** The fields of [ValidatedConsignment] this module reads. *)
Record AnchoredConsignment : Type := {
  vc_chain_net : string;
  vc_witness_txids : list bytes
}.

Record Pin : Type := { pin_hash : bytes; pin_depth : Z }.

(** [ChainPins]: a map from height to pin behind a mutex. *)
Record ChainPins : Type := { pinned : mutex (gmap Z Pin) }.

Definition new_pins : ChainPins := {| pinned := new_mutex ∅ |}.

(** [<[u8; 32]>::try_from]. *)
Definition array32 (b : bytes) (e : EnclaveError) : enclave_result bytes :=
  if zlen b =? 32 then Ok b else Err e.

Lemma new_pins_empty j p : contents (pinned new_pins) !! j = Some p -> False.
Proof. change (contents (pinned new_pins)) with (∅ : gmap Z Pin). by rewrite lookup_empty. Qed.

Section Crosscheck.
Context {B : BitcoinCrate}.
Variable sha256d : bytes -> bytes.
Variable prefix : ChainNet -> string.

Definition proof_txid (p : MerkleProofEntry) : enclave_result bytes :=
  let? txid := array32 (mp_txid p) (Spv "merkle_proofs txid must be 32 bytes") in
  if MAX_MERKLE_PATH_DEPTH <? zlen (mp_merkle_path p) then Err (Spv "merkle_path too deep")
  else Ok txid.

Definition merkle_message (e : MerkleError) : string :=
  match e with
  | RootMismatch _ _ => "proof failed: computed root != header root"
  | BadSiblingLength _ _ => "merkle_path has wrong length"
  | PositionOutOfRange _ _ => "tx_position is out of reach of the merkle_path"
  | TransactionShapedNode _ => "the merkle node is a 64-byte transaction"
  end.

Definition verify_one_proof (chain : HeaderChain) (min_confirmations : Z)
    (p : MerkleProofEntry) : enclave_result unit :=
  let? header := ok_or (header_at chain (mp_block_height p)) (Spv "no header at height") in
  let confs := confirmations chain (mp_block_height p) min_confirmations in
  if confs <? min_confirmations then Err (Spv "insufficient confirmations")
  else
    let? txid := array32 (mp_txid p) (Spv "txid must be 32 bytes (already validated above; defensive)") in
    let? path :=
      rmapM (fun sib => let? s := array32 sib (Spv "merkle_path must be 32 bytes") in Ok (reverse s))
        (mp_merkle_path p) in
    rmap_err (fun e => Spv (merkle_message e))
      (verify_merkle_proof sha256d (reverse txid) (mp_tx_position p) path
         (header_merkle_root header)).

(** The coverage loop of [validate_spv_proofs]. *)
Fixpoint coverage_loop (expected : gset bytes) (proofs : list MerkleProofEntry) (seen : gset bytes)
    : enclave_result (gset bytes) :=
  match proofs with
  | [] => Ok seen
  | p :: proofs =>
      let? txid := proof_txid p in
      if bool_decide (txid ∈ seen) then Err (Spv "duplicate merkle proof")
      else if negb (bool_decide (txid ∈ expected)) then
        Err (Spv "merkle proof does not match any consignment witness txid")
      else coverage_loop expected proofs ({[ txid ]} ∪ seen)
  end.

Definition validate_spv_proofs (chain : HeaderChain) (expected_txids : list bytes)
    (proofs : list MerkleProofEntry) (min_confirmations : Z) : enclave_result unit :=
  let expected : gset bytes := list_to_set expected_txids in
  let? seen := coverage_loop expected proofs ∅ in
  if negb (size seen =? size expected)%nat then Err (Spv "missing merkle proofs")
  else
    let? _ := rmapM (verify_one_proof chain min_confirmations) proofs in
    Ok tt.

(** [proven_witnesses]; [witness_pos] is [WitnessPos::bitcoin]. *)
Definition proven_witnesses {W : Type} (witness_pos : Z -> Z -> option W) (chain : HeaderChain)
    (proofs : list MerkleProofEntry) (min_confirmations : Z) : enclave_result (gmap bytes W) :=
  let step := fun (acc : enclave_result (gmap bytes W)) p =>
    let? proven := acc in
    let? txid := proof_txid p in
    let? _ := verify_one_proof chain min_confirmations p in
    let? pos :=
      ok_or
        (match header_at chain (mp_block_height p) with
         | Some header =>
             if mp_block_height p =? 0 then None
             else witness_pos (mp_block_height p) (time header)
         | None => None
         end) (Spv "block has no valid witness position") in
    match proven !! reverse txid with
    | Some _ => Err (Spv "duplicate merkle proof")
    | None => Ok (<[reverse txid := pos]> proven)
    end in
  fold_left step proofs (Ok ∅).

(** [assert_chain_not_stale]; [now] is nanoseconds since the epoch, negative
    before it, and the bounds are in seconds. *)
Definition assert_chain_not_stale (chain : HeaderChain) (now max_age max_future : Z)
    : enclave_result unit :=
  if now <? 0 then Err (Internal "system clock is before UNIX_EPOCH")
  else
    let now_unix := now / secs 1 in
    let tip := tip_time chain in
    if now_unix <=? tip then
      if max_future <? tip - now_unix then Err (Spv "chain tip is in the future") else Ok tt
    else if max_age <? sat_sub now_unix tip then Err (Spv "chain tip is too stale")
    else Ok tt.

Definition assert_chain_fresh (chain : HeaderChain) (now : Z) : enclave_result unit :=
  assert_chain_not_stale chain now SPV_MAX_TIP_AGE_SECS SPV_MAX_TIP_FUTURE_SECS.

Definition assert_chain_ready (chain : HeaderChain) (now min_confirmations : Z)
    : enclave_result unit :=
  let? _ := assert_chain_fresh chain now in
  let depth :=
    confirmations chain (wrap32 (cp_height (hc_checkpoint chain) + 1)) min_confirmations in
  if depth <? min_confirmations then Err (Spv "chain is too few blocks past the checkpoint")
  else Ok tt.

Definition assert_chain_net (consignment_chain_net : string) (n : Network) : enclave_result unit :=
  if String.eqb consignment_chain_net (prefix (chain_net n)) then Ok tt
  else Err (Spv "consignment chain_net does not match enclave network").

(** [ChainPins::pin].  A poisoned lock fails. *)
Definition pin (pins : ChainPins) (chain : HeaderChain) (height depth : Z)
    : ChainPins * enclave_result unit :=
  match hash_at chain height with
  | None => (pins, Err (Spv "chain pin: enclave holds no header at height"))
  | Some hash =>
      if poisoned (pinned pins) then (pins, Err (Internal "chain pin set lock poisoned"))
      else
        let m := contents (pinned pins) in
        match m !! height with
        | None =>
            ({| pinned := set_contents (pinned pins)
                  (<[height := {| pin_hash := hash; pin_depth := depth |}]> m) |}, Ok tt)
        | Some p =>
            if bool_decide (pin_hash p = hash) then
              ({| pinned := set_contents (pinned pins)
                    (<[height := {| pin_hash := pin_hash p;
                                    pin_depth := Z.max (pin_depth p) depth |}]> m) |}, Ok tt)
            else (pins, Err (Spv "chain pin: the header chain changed between two validation checks"))
        end
  end.

(** One entry of [assert_unchanged]. *)
Definition check_pin (chain : HeaderChain) (hp : Z * Pin) : enclave_result unit :=
  let '(height, p) := hp in
  match hash_at chain height with
  | Some current =>
      if bool_decide (current = pin_hash p) then
        if wrap32 (tip_height chain - height + 1) <? pin_depth p
        then Err (Spv "chain reorg after validation: fewer confirmations than the check required")
        else Ok tt
      else Err (Spv "chain reorg after validation: refusing to sign against a replaced block")
  | None => Err (Spv "chain reorg after validation: the enclave now holds no header there")
  end.

Definition height_le (a b : Z * Pin) : Prop := a.1 <= b.1.
#[local] Instance height_le_dec : RelDecision height_le.
Proof. intros a b. unfold height_le. apply _. Defined.

(** [ChainPins::assert_unchanged]: the [BTreeMap] is read in height order. *)
Definition assert_unchanged (pins : ChainPins) (chain : HeaderChain) : enclave_result unit :=
  if poisoned (pinned pins) then Err (Internal "chain pin set lock poisoned")
  else
    let? _ :=
      rmapM (check_pin chain) (merge_sort height_le (map_to_list (contents (pinned pins)))) in
    Ok tt.

(** [ChainPins::len]; zero on a poisoned lock. *)
Definition pins_len (pins : ChainPins) : Z :=
  if poisoned (pinned pins) then 0 else Z.of_nat (size (contents (pinned pins))).

Definition pins_is_empty (pins : ChainPins) : bool := pins_len pins =? 0.

(** The loop that pins the block of every proof. *)
Fixpoint pin_all (pins : ChainPins) (chain : HeaderChain) (min_confirmations : Z)
    (proofs : list MerkleProofEntry) : ChainPins * enclave_result unit :=
  match proofs with
  | [] => (pins, Ok tt)
  | p :: proofs =>
      let '(pins, r) := pin pins chain (mp_block_height p) min_confirmations in
      match r with
      | Ok _ => pin_all pins chain min_confirmations proofs
      | _ => (pins, r)
      end
  end.

Definition validate_source_chain (chain : HeaderChain)
    (validated_consignment : option AnchoredConsignment) (proofs : list MerkleProofEntry)
    (now : Z) (pins : ChainPins) (min_confirmations : Z) : ChainPins * enclave_result unit :=
  let checks :=
    let? validated :=
      ok_or validated_consignment (Spv "RGB source requires a non-empty validated consignment") in
    let? _ := assert_chain_fresh chain now in
    let? _ := assert_chain_net (vc_chain_net validated) (hc_network chain) in
    validate_spv_proofs chain (vc_witness_txids validated) proofs min_confirmations in
  match checks with
  | Ok _ => pin_all pins chain min_confirmations proofs
  | r => (pins, r)
  end.

(** ** What an accepted set of proofs shows *)

(** A proof that shows its transaction at least [k] blocks deep. *)
Record proof_ok (c : HeaderChain) (k : Z) (p : MerkleProofEntry) : Prop := {
  po_txid : zlen (mp_txid p) = 32;
  po_path : zlen (mp_merkle_path p) <= MAX_MERKLE_PATH_DEPTH;
  po_siblings : Forall (fun s => zlen s = 32) (mp_merkle_path p);
  po_block : exists h, header_at c (mp_block_height p) = Some h /\
    verify_merkle_proof sha256d (reverse (mp_txid p)) (mp_tx_position p)
      (reverse <$> mp_merkle_path p) (header_merkle_root h) = Ok tt;
  po_depth : k <= tip_height c - mp_block_height p + 1
}.

Lemma array32_ok b e x : array32 b e = Ok x <-> zlen b = 32 /\ x = b.
Proof. unfold array32. destruct (zlen b =? 32) eqn:E; zbool; split; intuition congruence. Qed.

Lemma proof_txid_ok p t :
  proof_txid p = Ok t <->
  zlen (mp_txid p) = 32 /\ zlen (mp_merkle_path p) <= MAX_MERKLE_PATH_DEPTH /\ t = mp_txid p.
Proof.
  unfold proof_txid. rewrite rbind_ok. setoid_rewrite array32_ok. split.
  - intros (x & [H ->] & Hx). destruct (_ <? _) eqn:E; [done|]. zbool. by injection Hx as <-.
  - intros (H & Hp & ->). exists (mp_txid p). split; [done|]. by rewrite (proj2 (Z.ltb_ge _ _)).
Qed.

(** The heights at which a chain holds a header. *)
Lemma header_at_range c k h :
  chain_wf c -> is_u32 k -> header_at c k = Some h -> hc_base_height c < k <= tip_height c.
Proof.
  intros W [_ Hk] H. rewrite tip_height_eq by done.
  assert (Hb : hc_base_height c < k) by (unfold header_at in H; destruct (_ <=? _) eqn:E; zbool; done).
  rewrite header_at_eq in H by done. apply lookup_lt_Some in H. unfold zlen. lia.
Qed.

Lemma hash_at_header c k h :
  chain_wf c -> is_u32 k -> header_at c k = Some h -> hash_at c k = Some (block_hash h).
Proof.
  intros W Hk H. pose proof (header_at_range c k h W Hk H) as [Hb _].
  unfold hash_at, header_at in *. rewrite (proj2 (Z.leb_gt _ _)) in H by lia.
  rewrite (proj2 (Z.eqb_neq _ _)), (proj2 (Z.ltb_ge _ _)) by lia.
  by rewrite (wf_hashes c W), list_lookup_fmap, H.
Qed.

Lemma depth_wrap c k :
  chain_wf c -> is_u32 k -> k <= tip_height c ->
  wrap32 (tip_height c - k + 1) = tip_height c - k + 1.
Proof.
  intros W Hk Hle. apply wrap32_small. unfold is_u32 in *. rewrite tip_height_eq in * by done.
  destruct W. lia.
Qed.

Lemma verify_one_proof_ok c k p :
  chain_wf c -> is_u32 (mp_block_height p) -> zlen (mp_merkle_path p) <= MAX_MERKLE_PATH_DEPTH ->
  verify_one_proof c k p = Ok tt <-> proof_ok c k p.
Proof.
  intros W Hh Hp. unfold verify_one_proof.
  assert (Hd : forall h, header_at c (mp_block_height p) = Some h ->
    confirmations c (mp_block_height p) k = Z.min (tip_height c - mp_block_height p + 1) k).
  { intros h H. pose proof (header_at_range c _ h W Hh H). unfold confirmations.
    rewrite H, depth_wrap by (done || lia). done. }
  assert (Hpath : forall path,
    rmapM (fun sib => let? s := array32 sib (Spv "merkle_path must be 32 bytes") in Ok (reverse s))
      (mp_merkle_path p) = Ok path <->
    Forall (fun s => zlen s = 32) (mp_merkle_path p) /\ path = reverse <$> mp_merkle_path p).
  { generalize (mp_merkle_path p) as l. intros l path. rewrite rmapM_ok. split.
    - induction 1 as [|s x l path H _ [IH ->]]; [done|].
      apply rbind_ok in H as (s' & [Hs ->]%array32_ok & [= <-]). by split; [constructor|].
    - intros [H ->]. induction H as [|s l Hs _ IH]; cbn; constructor; [|done].
      apply rbind_ok. exists s. by rewrite array32_ok. }
  split.
  - intros H. apply rbind_ok in H as (h & Hhd & H).
    destruct (header_at c (mp_block_height p)) as [h'|] eqn:Eh; [|done]. injection Hhd as ->.
    rewrite (Hd h eq_refl) in H. destruct (_ <? k) eqn:Ek; [done|]. zbool.
    apply rbind_ok in H as (t & [Ht ->]%array32_ok & H).
    apply rbind_ok in H as (path & [Hs ->]%Hpath & H).
    constructor; try done; [|lia]. exists h. split; [done|].
    by destruct (verify_merkle_proof _ _ _ _ _) as [[]| |].
  - intros [Ht _ Hs (h & Hhd & Hm) Hk]. rewrite Hhd. cbn [ok_or rbind].
    rewrite (Hd h Hhd), (proj2 (Z.ltb_ge _ _)) by lia.
    apply rbind_ok. exists (mp_txid p). rewrite array32_ok. split; [done|].
    apply rbind_ok. exists (reverse <$> mp_merkle_path p). rewrite Hpath. split; [done|].
    by rewrite Hm.
Qed.

Lemma coverage_loop_ok E ps : forall seen seen',
  coverage_loop E ps seen = Ok seen' <->
  Forall (fun p => zlen (mp_txid p) = 32 /\ zlen (mp_merkle_path p) <= MAX_MERKLE_PATH_DEPTH) ps /\
  NoDup ((mp_txid <$> ps)) /\
  (forall t, t ∈ (mp_txid <$> ps) -> t ∉ seen /\ t ∈ E) /\
  seen' = list_to_set (mp_txid <$> ps) ∪ seen.
Proof.
  induction ps as [|p ps IH]; intros seen seen'; cbn [coverage_loop].
  - split.
    + intros [= <-]. split_and!; [constructor|constructor| |set_solver]. intros t Ht. by apply not_elem_of_nil in Ht.
    + intros (_ & _ & _ & ->). f_equal. set_solver.
  - rewrite rbind_ok. setoid_rewrite proof_txid_ok. rewrite !fmap_cons, NoDup_cons, Forall_cons. split.
    + intros (t & (Ht & Hp & ->) & H).
      case_bool_decide as Hs; [done|]. case_bool_decide as He; [|done]. cbn [negb] in H.
      apply IH in H as (Hf & Hn & Hin & ->). split_and!; try done.
      * intros Hx. apply Hin in Hx as [Hx _]. set_solver.
      * intros x [->|Hx]%elem_of_cons; [done|]. apply Hin in Hx as [? ?]. set_solver.
      * cbn [list_to_set]. set_solver.
    + intros ([[Ht Hp] Hf] & [Hx Hn] & Hin & ->). exists (mp_txid p). split; [done|].
      destruct (Hin (mp_txid p)) as [Hs He]; [apply list_elem_of_here|].
      rewrite bool_decide_eq_false_2, bool_decide_eq_true_2 by done. cbn [negb].
      apply IH. split_and!; try done; [|cbn [list_to_set]; set_solver].
      intros x Hxp. destruct (Hin x) as [? ?]; [by apply list_elem_of_further|].
      split; [|done]. intros [->%elem_of_singleton|]%elem_of_union; done.
Qed.


(** ** Pins *)

(** A pin that [chain] still satisfies. *)
Definition pin_holds (c : HeaderChain) (height : Z) (p : Pin) : Prop :=
  hash_at c height = Some (pin_hash p) /\ pin_depth p <= wrap32 (tip_height c - height + 1).

Lemma check_pin_ok c height p : check_pin c (height, p) = Ok tt <-> pin_holds c height p.
Proof.
  unfold check_pin, pin_holds. destruct (hash_at c height) as [h|]; [|split; [done|by intros []]].
  case_bool_decide as E.
  - subst h. destruct (_ <? _) eqn:Ed; zbool.
    + split; [done|]. intros [_ ?]. lia.
    + split; [|done]. intros _. split; [done|lia].
  - split; [done|]. intros [[= ->] _]. done.
Qed.

Lemma assert_unchanged_ok pins c :
  assert_unchanged pins c = Ok tt <->
  poisoned (pinned pins) = false /\
  forall height p, contents (pinned pins) !! height = Some p -> pin_holds c height p.
Proof.
  unfold assert_unchanged. destruct (poisoned (pinned pins)); [split; [done|by intros []]|].
  rewrite rmapM_unit_ok, Forall_forall. split.
  - intros [H _]. split; [done|]. intros height p Hp. apply check_pin_ok, H.
    rewrite merge_sort_Permutation. by apply elem_of_map_to_list.
  - intros [_ H]. split; [|done]. intros [height p] Hp. apply check_pin_ok, H.
    rewrite merge_sort_Permutation in Hp. by apply elem_of_map_to_list.
Qed.

(** What a successful [pin] records: the block's hash, at least the depth. *)
Lemma pin_recorded pins c height depth pins' :
  pin pins c height depth = (pins', Ok tt) ->
  poisoned (pinned pins') = poisoned (pinned pins) /\
  (exists p, contents (pinned pins') !! height = Some p /\
     hash_at c height = Some (pin_hash p) /\ depth <= pin_depth p) /\
  (forall k p, contents (pinned pins) !! k = Some p ->
     exists p', contents (pinned pins') !! k = Some p' /\ pin_hash p' = pin_hash p /\
       pin_depth p <= pin_depth p') /\
  (forall k p', contents (pinned pins') !! k = Some p' -> k <> height ->
     contents (pinned pins) !! k = Some p') /\
  (forall p', contents (pinned pins') !! height = Some p' ->
     pin_depth p' = depth \/ exists p, contents (pinned pins) !! height = Some p /\
       pin_depth p' = Z.max (pin_depth p) depth).
Proof.
  unfold pin. destruct (hash_at c height) as [hash|]; [|done].
  destruct (poisoned (pinned pins)) eqn:Ep; [done|].
  destruct (contents (pinned pins) !! height) as [p|] eqn:El.
  - case_bool_decide as Eh; [|done]. intros [= <-]. cbn. subst hash. split; [done|].
    split; [|split; [|split]].
    + eexists. rewrite lookup_insert_eq. split_and!; [done|done|]. cbn. lia.
    + intros k q Hq. destruct (decide (k = height)) as [->|].
      * eexists. rewrite lookup_insert_eq. split_and!; [done|cbn; congruence|].
        cbn. rewrite El in Hq. injection Hq as ->. lia.
      * exists q. rewrite lookup_insert_ne by done. done.
    + intros k q Hq Hne. by rewrite lookup_insert_ne in Hq.
    + intros q Hq. rewrite lookup_insert_eq in Hq. injection Hq as <-. right. by exists p.
  - intros [= <-]. cbn. split; [done|]. split; [|split; [|split]].
    + eexists. rewrite lookup_insert_eq. split_and!; [done|done|]. cbn. lia.
    + intros k q Hq. destruct (decide (k = height)) as [->|]; [congruence|].
      exists q. rewrite lookup_insert_ne by done. done.
    + intros k q Hq Hne. by rewrite lookup_insert_ne in Hq.
    + intros q Hq. rewrite lookup_insert_eq in Hq. injection Hq as <-. by left.
Qed.

(** The pins of a run over [proofs] record every block it used. *)
Lemma pin_all_records c k proofs : forall pins pins',
  pin_all pins c k proofs = (pins', Ok tt) ->
  poisoned (pinned pins') = poisoned (pinned pins) /\
  (forall j p, contents (pinned pins) !! j = Some p ->
     exists p', contents (pinned pins') !! j = Some p' /\ pin_hash p' = pin_hash p /\
       pin_depth p <= pin_depth p') /\
  Forall (fun q => exists p', contents (pinned pins') !! mp_block_height q = Some p' /\
     hash_at c (mp_block_height q) = Some (pin_hash p') /\ k <= pin_depth p') proofs.
Proof.
  induction proofs as [|q proofs IH]; intros pins pins'; cbn [pin_all].
  { intros [= <-]. split; [done|]. split; [|constructor]. intros j p Hp. by exists p. }
  destruct (pin pins c (mp_block_height q) k) as [pins1 [[]| |]] eqn:E; try done.
  intros H. apply pin_recorded in E as (Ep & (p & Hp & Hh & Hk) & Hold & _).
  apply IH in H as (Ep' & Hold' & Hf). split; [congruence|]. split.
  - intros j r Hr. apply Hold in Hr as (r' & Hr' & ? & ?).
    apply Hold' in Hr' as (r'' & ? & ? & ?). exists r''. split_and!; [done|congruence|lia].
  - constructor; [|done]. apply Hold' in Hp as (p' & ? & ? & ?).
    exists p'. split_and!; [done|congruence|lia].
Qed.

(** Pins that a chain satisfies stay so when more blocks are pinned on it, and
    such a run never fails. *)
Lemma pin_all_holds c k proofs : forall pins,
  poisoned (pinned pins) = false ->
  (forall j p, contents (pinned pins) !! j = Some p -> pin_holds c j p) ->
  Forall (fun q => exists h, hash_at c (mp_block_height q) = Some h /\
     k <= wrap32 (tip_height c - mp_block_height q + 1)) proofs ->
  exists pins', pin_all pins c k proofs = (pins', Ok tt) /\
    poisoned (pinned pins') = false /\
    forall j p, contents (pinned pins') !! j = Some p -> pin_holds c j p.
Proof.
  induction proofs as [|q proofs IH]; intros pins Hp Hh Hf; cbn [pin_all]; [by exists pins|].
  apply Forall_cons in Hf as [(h & Hq & Hk) Hf].
  assert (exists pins1, pin pins c (mp_block_height q) k = (pins1, Ok tt)) as [pins1 E].
  { unfold pin. rewrite Hq, Hp.
    destruct (contents (pinned pins) !! mp_block_height q) as [p|] eqn:El; [|by eexists].
    apply Hh in El as [El _]. rewrite bool_decide_eq_true_2 by congruence. by eexists. }
  rewrite E. apply pin_recorded in E as (Ep & (p & Hpl & Hph & Hpk) & _ & Hother & Hself).
  apply IH; [congruence| |done]. intros j r Hr.
  destruct (decide (j = mp_block_height q)) as [->|Hne]; [|by apply Hh, Hother].
  rewrite Hpl in Hr. injection Hr as <-. split; [done|].
  destruct (Hself p Hpl) as [->|(r & Hr & ->)]; [done|]. apply Hh in Hr as [_ Hr]. lia.
Qed.

(** Only blocks of the proofs are pinned. *)
Lemma pin_all_domain c k proofs : forall pins pins' j q,
  pin_all pins c k proofs = (pins', Ok tt) -> contents (pinned pins') !! j = Some q ->
  is_Some (contents (pinned pins) !! j) \/ exists p, p ∈ proofs /\ j = mp_block_height p.
Proof.
  induction proofs as [|p proofs IH]; intros pins pins' j q; cbn [pin_all].
  { intros [= <-] ?. left. by eexists. }
  destruct (pin pins c (mp_block_height p) k) as [pins1 [[]| |]] eqn:E; try done.
  intros H Hq. apply pin_recorded in E as (_ & _ & _ & Hother & _).
  destruct (decide (j = mp_block_height p)) as [->|Hne].
  { right. exists p. by split; [apply list_elem_of_here|]. }
  destruct (IH _ _ _ _ H Hq) as [[r Hr]|(p' & ? & ->)].
  - left. exists r. by apply Hother.
  - right. exists p'. by split; [apply list_elem_of_further|].
Qed.

(** A hash above the base is that of a stored header. *)
Lemma chain_held c k hash :
  chain_wf c -> is_u32 k -> hc_base_height c < k -> hash_at c k = Some hash ->
  exists h, header_at c k = Some h /\ block_hash h = hash /\ k <= tip_height c.
Proof.
  intros W Hk Hb H.
  assert (exists h, header_at c k = Some h) as [h Hh].
  { unfold hash_at in H. rewrite (proj2 (Z.eqb_neq _ _)), (proj2 (Z.ltb_ge _ _)) in H by lia.
    rewrite (wf_hashes c W), list_lookup_fmap in H. unfold header_at.
    rewrite (proj2 (Z.leb_gt _ _)) by lia. destruct (hc_headers c !! _) as [h|]; [by exists h|done]. }
  exists h. split; [done|]. rewrite (hash_at_header c k h) in H by done.
  pose proof (header_at_range c k h W Hk Hh). split; [congruence|lia].
Qed.

(** ** The gate *)

Lemma validate_spv_proofs_ok c expected proofs k :
  chain_wf c -> Forall (fun p => is_u32 (mp_block_height p)) proofs ->
  validate_spv_proofs c expected proofs k = Ok tt <->
  NoDup (mp_txid <$> proofs) /\
  (forall t, t ∈ expected <-> t ∈ (mp_txid <$> proofs)) /\
  Forall (proof_ok c k) proofs.
Proof.
  intros W Hh. unfold validate_spv_proofs. rewrite rbind_ok. setoid_rewrite coverage_loop_ok.
  assert (Hall : Forall (fun p => zlen (mp_txid p) = 32 /\
      zlen (mp_merkle_path p) <= MAX_MERKLE_PATH_DEPTH) proofs ->
    Forall (fun p => verify_one_proof c k p = Ok tt) proofs <-> Forall (proof_ok c k) proofs).
  { intros Hs. rewrite !Forall_forall in *. split; intros H p Hp; specialize (H p Hp);
      apply verify_one_proof_ok in H || apply verify_one_proof_ok; try done;
      by apply Hh || by apply Hs. }
  split.
  - intros (seen & (Hs & Hn & Hin & ->) & H). rewrite union_empty_r_L in H.
    destruct (negb _) eqn:E; [done|]. apply negb_false_iff, Nat.eqb_eq in E.
    apply rmapM_unit_ok in H as [H _]. split_and!; [done| |by apply Hall].
    assert (Hsub : list_to_set (mp_txid <$> proofs) ⊆ (list_to_set expected : gset bytes)).
    { intros t Ht. apply elem_of_list_to_set in Ht. by apply Hin. }
    pose proof (set_subseteq_size_eq _ _ Hsub ltac:(lia)) as Heq. intros t.
    rewrite <- (elem_of_list_to_set (C := gset bytes) t expected), <- Heq.
    apply elem_of_list_to_set.
  - intros (Hn & Heq & Hok). exists (list_to_set (mp_txid <$> proofs) ∪ ∅).
    assert (Hs : Forall (fun p => zlen (mp_txid p) = 32 /\
      zlen (mp_merkle_path p) <= MAX_MERKLE_PATH_DEPTH) proofs).
    { eapply Forall_impl; [exact Hok|]. by intros p []. }
    split.
    + split_and!; try done. intros t Ht. split; [apply not_elem_of_empty|].
      apply elem_of_list_to_set. by apply Heq.
    + rewrite union_empty_r_L.
      assert (list_to_set (mp_txid <$> proofs) = (list_to_set expected : gset bytes)) as ->.
      { apply set_eq. intros t. rewrite !elem_of_list_to_set. by rewrite Heq. }
      rewrite Nat.eqb_refl. cbn [negb]. apply rmapM_unit_ok. split; [|done]. by apply Hall.
Qed.

(** [validate_spv_proofs] accepts exactly the proof sets that cover the
    witness transactions: one proof per txid and no other, each at most 32
    siblings deep, included under the Merkle root of a stored header, at least
    [min_confirmations] blocks from the tip. *)
Theorem validate_spv_proofs_iff c expected proofs k :
  chain_inv c -> Forall (fun p => is_u32 (mp_block_height p)) proofs ->
  validate_spv_proofs c expected proofs k = Ok tt <->
  NoDup (mp_txid <$> proofs) /\
  (forall t, t ∈ expected <-> t ∈ (mp_txid <$> proofs)) /\
  Forall (proof_ok c k) proofs.
Proof. intros [W _]. by apply validate_spv_proofs_ok. Qed.

Lemma validate_source_chain_ok c v proofs now pins k pins' :
  validate_source_chain c v proofs now pins k = (pins', Ok tt) ->
  exists cons, v = Some cons /\
    validate_spv_proofs c (vc_witness_txids cons) proofs k = Ok tt /\
    pin_all pins c k proofs = (pins', Ok tt).
Proof.
  unfold validate_source_chain. destruct v as [cons|]; [|done]. cbn [ok_or rbind].
  destruct (assert_chain_fresh c now) as [[]| |]; cbn [rbind]; [|done|done].
  destruct (assert_chain_net _ _) as [[]| |]; cbn [rbind]; [|done|done].
  destruct (validate_spv_proofs _ _ _ _) as [[]| |] eqn:E; [|done|done].
  intros H. by exists cons.
Qed.

(** [c'] is [c] with more headers on top. *)
Definition extends (c c' : HeaderChain) : Prop :=
  exists ext, hc_headers c' = hc_headers c ++ ext /\
    hc_checkpoint c' = hc_checkpoint c.

(** A block of [c] is the same block of an extension, at least as deep. *)
Lemma pin_extends c c' height p :
  chain_wf c -> chain_wf c' -> extends c c' -> is_u32 height ->
  (exists h, header_at c height = Some h) -> pin_holds c height p -> pin_holds c' height p.
Proof.
  intros W W' (ext & He & Hcp) Hh [h Hhd] [Hhash Hd].
  pose proof (header_at_range c height h W Hh Hhd) as [Hb Ht].
  assert (Hbase : hc_base_height c' = hc_base_height c)
    by (rewrite (wf_height c W), (wf_height c' W'); by rewrite Hcp).
  assert (Htip : tip_height c <= tip_height c').
  { rewrite !tip_height_eq, Hbase, He, zlen_app by done. pose proof (zlen_nonneg ext). lia. }
  rewrite depth_wrap in Hd by done. split; [|rewrite depth_wrap by (done || lia); lia].
  rewrite (hash_at_header c height h) in Hhash by done.
  rewrite (hash_at_header c' height h); [done|done|done|].
  rewrite header_at_eq in * by (done || (unfold is_u32 in Hh; lia)).
  rewrite Hbase, He. by apply lookup_app_l_Some.
Qed.

(** The pins carry the SPV check to the time of signing.  After
    [validate_source_chain], if [assert_unchanged] passes on the chain as it is
    then, every witness transaction is still included in the block the check
    used, with at least [min_confirmations] blocks; and it passes on every
    extension of the checked chain. *)
Theorem pins_protect_signing c c' cons proofs now k pins' :
  chain_inv c -> chain_inv c' -> hc_checkpoint c' = hc_checkpoint c ->
  Forall (fun p => is_u32 (mp_block_height p)) proofs ->
  validate_source_chain c (Some cons) proofs now new_pins k = (pins', Ok tt) ->
  (assert_unchanged pins' c' = Ok tt ->
   forall t, t ∈ vc_witness_txids cons ->
   exists p h h', p ∈ proofs /\ mp_txid p = t /\ header_at c (mp_block_height p) = Some h /\
     verify_merkle_proof sha256d (reverse t) (mp_tx_position p) (reverse <$> mp_merkle_path p)
       (header_merkle_root h) = Ok tt /\
     header_at c' (mp_block_height p) = Some h' /\ block_hash h' = block_hash h /\
     k <= tip_height c' - mp_block_height p + 1) /\
  (extends c c' -> assert_unchanged pins' c' = Ok tt).
Proof.
  intros [W _] [W' _] Hcp Hh H. apply validate_source_chain_ok in H as (cons' & [= <-] & Hv & Hpin).
  apply validate_spv_proofs_ok in Hv as (_ & Hcov & Hok); [|done|done].
  rewrite Forall_forall in Hh, Hok. split.
  - intros Hu t Ht. apply Hcov in Ht as (p & -> & Hp)%list_elem_of_fmap.
    destruct (Hok p Hp) as [_ _ _ (h & Hhd & Hm) _].
    apply assert_unchanged_ok in Hu as [_ Hu]. apply pin_all_records in Hpin as (_ & _ & Hrec).
    rewrite Forall_forall in Hrec. destruct (Hrec p Hp) as (q & Hq & Hhq & Hkq).
    apply Hu in Hq as [Hq Hd]. pose proof (Hh p Hp) as Hhp.
    rewrite (hash_at_header c _ h) in Hhq by done. injection Hhq as Hhq.
    destruct (chain_held c' (mp_block_height p) (pin_hash q) W' Hhp) as (h' & Hh' & Hb & Ht').
    { pose proof (header_at_range c _ h W Hhp Hhd) as [Hb _].
      rewrite (wf_height c' W'), Hcp, <- (wf_height c W). done. }
    { done. }
    exists p, h, h'. split_and!; try done; [congruence|].
    rewrite depth_wrap in Hd by done. lia.
  - intros He. apply assert_unchanged_ok.
    destruct (pin_all_holds c k proofs new_pins) as (pins1 & Hpin1 & Hpo & Hholds).
    + done.
    + intros j p Hp. by apply new_pins_empty in Hp.
    + apply Forall_forall. intros p Hp. destruct (Hok p Hp) as [_ _ _ (h & Hhd & _) Hk].
      exists (block_hash h). split; [by apply hash_at_header; [|apply Hh|]|].
      pose proof (header_at_range c _ h W (Hh p Hp) Hhd).
      rewrite depth_wrap by (done || (by apply Hh) || lia). done.
    + rewrite Hpin in Hpin1. injection Hpin1 as <-. split; [done|]. intros j q Hq.
      destruct (pin_all_domain c k proofs new_pins pins' j q Hpin Hq) as [[r Hn]|(p & Hp & ->)].
      { by apply new_pins_empty in Hn. }
      destruct (Hok p Hp) as [_ _ _ (h & Hhd & _) _].
      apply (pin_extends c); [done|done|done|by apply Hh|by exists h|by apply Hholds].
Qed.
End Crosscheck.

(** ** A concrete run

    The hash [fun _ => [x02]] makes every branch end in the root of the header
    at height 2018. *)

Definition sample_sha (_ : bytes) : bytes := [x02].
Definition sample_prefix (_ : ChainNet) : string := "bc".
Definition sample_txid : bytes := replicate 32 x00.

Definition sample_proof : MerkleProofEntry := {|
  mp_txid := sample_txid;
  mp_block_height := 2018;
  mp_tx_position := 0;
  mp_merkle_path := [replicate 32 x00]
|}.

Definition sample_consignment : AnchoredConsignment := {|
  vc_chain_net := "bc";
  vc_witness_txids := [sample_txid]
|}.

Lemma validate_spv_proofs_iff_witness :
  Forall (proof_ok (B := small_crate) sample_sha (small_chain Mainnet) 2) [sample_proof] /\
  validate_spv_proofs (B := small_crate) sample_sha (small_chain Mainnet) [sample_txid]
    [sample_proof] 3 <> Ok tt.
Proof.
  split.
  - apply (validate_spv_proofs_iff (B := small_crate) sample_sha (small_chain Mainnet) [sample_txid]
             [sample_proof] 2 (small_chain_inv Mainnet)); [|by vm_compute].
    repeat constructor; done.
  - by vm_compute.
Defined.

Definition extended_chain : HeaderChain (B := small_crate) :=
  fst (submit_headers (small_chain Mainnet) 2020 [raw_header x03 12400 x07 x04] 20000).

Lemma extended_chain_inv : chain_inv (B := small_crate) extended_chain.
Proof. apply submit_headers_inv, small_chain_inv. Qed.

Lemma pins_protect_signing_witness :
  assert_unchanged (B := small_crate)
    (fst (validate_source_chain sample_sha sample_prefix (small_chain Mainnet)
            (Some sample_consignment) [sample_proof] (secs 12000) new_pins 2))
    extended_chain = Ok tt.
Proof.
  apply (pins_protect_signing (B := small_crate) sample_sha sample_prefix (small_chain Mainnet)
           extended_chain sample_consignment [sample_proof] (secs 12000) 2 _
           (small_chain_inv Mainnet) extended_chain_inv).
  - by vm_compute.
  - repeat constructor; done.
  - by vm_compute.
  - exists [{| sh_prev := x03; sh_time := be_split 4 12400; sh_bits := x07; sh_id := x04 |}].
    by vm_compute.
Defined.
