(* ===== verification/EvmRelease.v ===== *)
(** * EVM release validation (src/enclave/src/networks/evm)

    The destination side of an RGB to EVM release: [lz_options.rs],
    [burn_destination.rs], [validation.rs] and the binds of [crosscheck.rs]
    that compare the calldata with the validated consignment.  The ABI codec of
    [alloy], Keccak-256, the EIP-712 hash and the BFA schema id are parameters. *)

From stdpp Require Import strings sorting base numbers list.
From S2P Require Import Prelude Errors AttestedPolicy.

#[local] Open Scope list_scope.
#[local] Open Scope Z_scope.

Definition HASH_LEN : Z := 32.
Definition RGB_CHAIN_ID : Z := 827166.
Definition ADDRESS_LEN : Z := 20.
Definition zero_address : bytes := replicate 20 x00.

(** ** LayerZero options (lz_options.rs) *)

Definition MAX_LZ_RECEIVE_GAS : Z := 1000000.
Definition OPTIONS_TYPE_3 : Z := 3.
Definition EXECUTOR_WORKER_ID : Z := 1.
Definition OPTION_TYPE_LZRECEIVE : Z := 1.
Definition LZRECEIVE_GAS_LEN : Z := 16.

Definition lz_reject {A : Type} (m : string) : enclave_result A := Err (CrossCheck m).

(** [split_first_chunk::<2>] is the pattern [b1 :: b0 :: rest]. *)
Definition validate_extra_options (options : bytes) : enclave_result unit :=
  match options with
  | [] => Ok tt
  | t1 :: t0 :: rest =>
      if negb (be_combine [t1; t0] =? OPTIONS_TYPE_3) then lz_reject "options type is not type 3"
      else
        match rest with
        | [] => lz_reject "no option after the type"
        | worker_id :: rest =>
            if negb (b2z worker_id =? EXECUTOR_WORKER_ID) then lz_reject "worker id is not the executor"
            else
              match rest with
              | s1 :: s0 :: rest =>
                  if negb (be_combine [s1; s0] =? zlen rest)
                  then lz_reject "option size != remaining bytes (only one option is allowed)"
                  else
                    match rest with
                    | [] => lz_reject "empty option"
                    | option_type :: body =>
                        if negb (b2z option_type =? OPTION_TYPE_LZRECEIVE)
                        then lz_reject "executor option type is not lzReceive"
                        else if negb (zlen body =? LZRECEIVE_GAS_LEN)
                        then lz_reject "lzReceive option body: gas only, no value"
                        else if MAX_LZ_RECEIVE_GAS <? be_combine body
                        then lz_reject "lzReceive gas exceeds the maximum"
                        else Ok tt
                    end
              | _ => lz_reject "option size is truncated"
              end
        end
  | [_] => lz_reject "too short for the options type"
  end.

(** ** Burn destination (burn_destination.rs) *)

Definition VERSION_V1 : Z := 1.

Record BurnDestinationRecord : Type := {
  bd_version : Z;
  bd_destination_chain_id : Z;
  bd_dst_eid : Z;
  bd_recipient : bytes
}.

(** [UtexoBurnDestinationV1], the hashed struct. *)
Record UtexoBurnDestinationV1 : Type := {
  v1_destination_chain_id : Z;
  v1_dst_eid : Z;
  v1_recipient : bytes
}.

Definition to_sol_v1 (r : BurnDestinationRecord) : UtexoBurnDestinationV1 := {|
  v1_destination_chain_id := bd_destination_chain_id r;
  v1_dst_eid := bd_dst_eid r;
  v1_recipient := bd_recipient r
|}.

Record BurnTarget : Type := {
  bt_destination_chain_id : option Z;
  bt_dst_eid : option Z;
  bt_recipient : bytes
}.

(** [recipient] copied to the low end of a zero word. *)
Definition left_pad (n : Z) (b : bytes) : bytes :=
  replicate (Z.to_nat (n - zlen b)) x00 ++ b.

(** ** The release (validation.rs) *)

Definition FUNDS_OUT_SELECTOR_POOLS : bytes := [x34; x02; x76; xaa].
Definition MAX_FUNDS_OUT_CALL_DATA_LEN : Z := 96 * 1024.
Definition MAX_TEE_DEADLINE_SECS : Z := 24 * 60 * 60.

(** [FundsOutParams]; a [uint256] is a [Z], an [address] 20 bytes. *)
Record FundsOutParams : Type := {
  fo_recipient : bytes;
  fo_amount : Z;
  fo_burnId : Z;
  fo_sourceChainId : Z;
  fo_destinationChainId : Z;
  fo_sourceAddress : bytes;
  fo_proof : bytes;
  fo_settlementData : bytes;
  fo_sourceBurnTxId : bytes
}.

Record lzFundsOutCall : Type := {
  lz_amount : Z;
  lz_burnId : Z;
  lz_sourceChainId : Z;
  lz_destinationChainId : Z;
  lz_sourceAddress : bytes;
  lz_proof : bytes;
  lz_settlementData : bytes;
  lz_dstEid : Z;
  lz_recipient : bytes;
  lz_minAmountLD : Z;
  lz_extraOptions : bytes;
  lz_sourceBurnTxId : bytes
}.

(** [RouteProof] (networks/route.rs). *)
Record RouteProof : Type := {
  rp_amount : Z;
  rp_operation_id : option string
}.

Record ReleaseIdentity : Type := {
  burn_id : Z;
  amount : Z;
  source_chain_id : Z;
  source_address : bytes;
  settlement_data : bytes;
  source_burn_tx_id : bytes;
  recipient : bytes;
  destination_chain_id : Z;
  dst_eid : option Z;
  proof : bytes
}.

Definition from_funds_out (p : FundsOutParams) : ReleaseIdentity := {|
  burn_id := fo_burnId p;
  amount := fo_amount p;
  source_chain_id := fo_sourceChainId p;
  source_address := fo_sourceAddress p;
  settlement_data := fo_settlementData p;
  source_burn_tx_id := fo_sourceBurnTxId p;
  recipient := replicate 12 x00 ++ fo_recipient p;
  destination_chain_id := fo_destinationChainId p;
  dst_eid := None;
  proof := fo_proof p
|}.

Definition from_lz_funds_out (c : lzFundsOutCall) : ReleaseIdentity := {|
  burn_id := lz_burnId c;
  amount := lz_amount c;
  source_chain_id := lz_sourceChainId c;
  source_address := lz_sourceAddress c;
  settlement_data := lz_settlementData c;
  source_burn_tx_id := lz_sourceBurnTxId c;
  recipient := lz_recipient c;
  destination_chain_id := lz_destinationChainId c;
  dst_eid := Some (lz_dstEid c);
  proof := lz_proof c
|}.

(** [EvmDestination], the fields the validation reads. *)
Record EvmDestination : Type := {
  call_data : bytes;
  deadline : Z;
  dest_chain_id : Z;
  proxy_contract : bytes;
  calldata_amount : Z;
  lz_release_present : bool
}.

(** The pins of [BridgeConfig] the release path reads. *)
Record ReleasePins : Type := {
  rel_chain_id : Z;
  rel_bridge_contract : bytes;
  rel_rgb_asset_id : bytes;
  rel_funds_in_contract : bytes;
  rel_token_contract : bytes
}.

Definition is_configured (cfg : ReleasePins) : bool :=
  negb (rel_chain_id cfg =? 0) && negb (bool_decide (rel_bridge_contract cfg = zero_address)) &&
  negb (zlen (rel_rgb_asset_id cfg) =? 0).

(** The build: feature [rgb-validation], [debug_assertions] and [test]. *)
Record ReleaseBuild : Type := {
  rgb_validation : bool;
  debug_build : bool;
  test_build : bool
}.

(** What the [sol!] macro and [alloy] provide. *)
Class AbiCodec : Type := {
  LZ_FUNDS_OUT_SELECTOR : bytes;
  abi_decode_funds_out : bytes -> option FundsOutParams;
  abi_encode_funds_out : FundsOutParams -> bytes;
  abi_decode_lz_funds_out : bytes -> option lzFundsOutCall;
  abi_encode_lz_funds_out : lzFundsOutCall -> bytes;
  abi_decode_settlement : bytes -> option (list bytes);
  abi_encode_settlement : list bytes -> bytes
}.

Section Release.
Context {A : AbiCodec}.

Definition decode_funds_out_params (cd : bytes) : enclave_result FundsOutParams :=
  let? decoded := ok_or (abi_decode_funds_out cd) (CrossCheck "invalid fundsOut calldata") in
  if bool_decide (abi_encode_funds_out decoded = cd) then Ok decoded
  else Err (CrossCheck "non-canonical fundsOut calldata encoding").

Definition decode_lz_funds_out_params (cd : bytes) : enclave_result lzFundsOutCall :=
  let? decoded := ok_or (abi_decode_lz_funds_out cd) (CrossCheck "invalid lzFundsOut calldata") in
  if bool_decide (abi_encode_lz_funds_out decoded = cd) then Ok decoded
  else Err (CrossCheck "non-canonical lzFundsOut calldata encoding").

(** [u64::try_from] of a [U256]. *)
Definition u256_to_u64 (v : Z) (m : string) : enclave_result Z :=
  if v <=? u64_max then Ok v else Err (CrossCheck m).

Definition route_proof_from_params (p : FundsOutParams) : enclave_result RouteProof :=
  let? a := u256_to_u64 (fo_amount p) "fundsOut amount exceeds u64 range" in
  Ok {| rp_amount := a; rp_operation_id := None |}.

Definition lz_route_proof_from_params (c : lzFundsOutCall) : enclave_result RouteProof :=
  let? a := u256_to_u64 (lz_amount c) "lzFundsOut amount exceeds u64 range" in
  Ok {| rp_amount := a; rp_operation_id := None |}.

Definition validate_min_amount_ld (c : lzFundsOutCall) : enclave_result unit :=
  if lz_minAmountLD c =? 0 then Err (CrossCheck "lzFundsOut minAmountLD must be > 0")
  else if lz_amount c <? lz_minAmountLD c then Err (CrossCheck "lzFundsOut minAmountLD exceeds amount")
  else Ok tt.

(** The selector and [lz_release] checks; the result is [is_entrypoint_route]. *)
Definition check_selector (d : EvmDestination) : enclave_result bool :=
  if zlen (call_data d) <? 4 then Err (CrossCheck "call_data too short")
  else if MAX_FUNDS_OUT_CALL_DATA_LEN <? zlen (call_data d) then Err (CrossCheck "call_data too large")
  else
    let selector := take 4 (call_data d) in
    if negb (bool_decide (selector = FUNDS_OUT_SELECTOR_POOLS) ||
             bool_decide (selector = LZ_FUNDS_OUT_SELECTOR))
    then Err (CrossCheck "unexpected calldata selector: not in fundsOut whitelist")
    else
      let is_entrypoint_route := bool_decide (selector = LZ_FUNDS_OUT_SELECTOR) in
      match is_entrypoint_route, lz_release_present d with
      | true, false => Err (CrossCheck "lzFundsOut calldata requires lz_release")
      | false, true => Err (CrossCheck "lz_release is only valid with lzFundsOut calldata")
      | _, _ => Ok is_entrypoint_route
      end.

(** Decode, the route's own checks, and the mapping to the neutral forms. *)
Definition decode_release (d : EvmDestination) (is_entrypoint_route : bool)
    : enclave_result (RouteProof * option FundsOutParams * Z * ReleaseIdentity) :=
  if is_entrypoint_route then
    let? decoded := decode_lz_funds_out_params (call_data d) in
    let? _ := validate_min_amount_ld decoded in
    let? _ := validate_extra_options (lz_extraOptions decoded) in
    let? pr := lz_route_proof_from_params decoded in
    Ok (pr, None, lz_destinationChainId decoded, from_lz_funds_out decoded)
  else
    let? params := decode_funds_out_params (call_data d) in
    let? pr := route_proof_from_params params in
    Ok (pr, Some params, fo_destinationChainId params, from_funds_out params).

(** The pins: the build's own requirement, the chain, the calldata's
    destination chain and the proxy. *)
Definition check_pins (b : ReleaseBuild) (cfg : ReleasePins) (d : EvmDestination)
    (is_entrypoint_route : bool) (calldata_destination_chain_id : Z) : enclave_result unit :=
  if rgb_validation b && negb (test_build b) && negb (is_configured cfg)
  then Err (CrossCheck "bridge config unconfigured")
  else if negb (rgb_validation b) && negb (debug_build b) && negb (test_build b) &&
          ((rel_chain_id cfg =? 0) || bool_decide (rel_bridge_contract cfg = zero_address))
  then Err (CrossCheck "EVM domain unpinned")
  else if negb (rel_chain_id cfg =? 0) && negb (dest_chain_id d =? rel_chain_id cfg)
  then Err (CrossCheck "chain_id mismatch")
  else
    let? _ :=
      if is_entrypoint_route then
        if calldata_destination_chain_id =? 0
        then Err (CrossCheck "calldata destinationChainId must be > 0")
        else if negb (rel_chain_id cfg =? 0) && (calldata_destination_chain_id =? rel_chain_id cfg)
        then Err (CrossCheck "a local payout must use the direct fundsOut route")
        else Ok tt
      else if negb (rel_chain_id cfg =? 0) && negb (calldata_destination_chain_id =? rel_chain_id cfg)
      then Err (CrossCheck "calldata destinationChainId mismatch")
      else Ok tt in
    if negb (bool_decide (rel_bridge_contract cfg = zero_address)) &&
       negb (bool_decide (proxy_contract d = rel_bridge_contract cfg))
    then Err (CrossCheck "proxy_contract mismatch")
    else Ok tt.

(** [now] is nanoseconds since the epoch, negative before it. *)
Definition check_deadline (d : EvmDestination) (now : Z) : enclave_result unit :=
  if now <? 0 then Err (Internal "system time error")
  else
    let now := now / secs 1 in
    if deadline d <=? now then Err (CrossCheck "request deadline expired")
    else if sat_add64 now MAX_TEE_DEADLINE_SECS <? deadline d
    then Err (CrossCheck "request deadline is too far after now")
    else Ok tt.

Definition validate_destination (b : ReleaseBuild) (cfg : ReleasePins) (d : EvmDestination) (now : Z)
    : enclave_result (RouteProof * option FundsOutParams * ReleaseIdentity) :=
  let? is_entrypoint_route := check_selector d in
  let? (pr, params, chain, release) := decode_release d is_entrypoint_route in
  if negb (rp_amount pr =? calldata_amount d) then Err (CrossCheck "calldata amount mismatch")
  else if dest_chain_id d =? 0 then Err (CrossCheck "chain_id must be > 0")
  else if negb (zlen (proxy_contract d) =? ADDRESS_LEN)
  then Err (CrossCheck "proxy_contract must be 20 bytes")
  else
    let? _ := check_pins b cfg d is_entrypoint_route chain in
    let? _ := check_deadline d now in
    Ok (pr, params, release).

(** [validate_source]: the listener's EVM source. *)
Definition validate_source (amount : Z) (tx_hash : bytes) : enclave_result RouteProof :=
  if negb (zlen tx_hash =? HASH_LEN) then Err (CrossCheck "evm_tx_hash must be 32 bytes")
  else Ok {| rp_amount := amount; rp_operation_id := None |}.

Definition validate_rgb_source_identity (r : ReleaseIdentity) : enclave_result unit :=
  if negb (source_chain_id r =? RGB_CHAIN_ID) then Err (CrossCheck "calldata sourceChainId != RGB network id")
  else if negb (zlen (source_address r) =? 0) then Err (CrossCheck "calldata sourceAddress must be empty")
  else Ok tt.

(** ** burnId *)

Section BurnId.
Variable keccak256 : bytes -> bytes.

(** [BURN_TYPEHASH_STR.as_bytes()]. *)
Definition BURN_TYPEHASH_STR : string :=
  "UtexoBurnId(address bridge,uint256 chainId,address token,uint256 amount,uint256 sourceChainId,bytes32 sourceAddressHash,bytes32 sourceBurnTxId)".

(** The eight words that are hashed. *)
Definition burn_id_preimage (cfg : ReleasePins) (r : ReleaseIdentity) : bytes :=
  keccak256 (String.list_byte_of_string BURN_TYPEHASH_STR) ++
  replicate 12 x00 ++ rel_funds_in_contract cfg ++
  be_split 32 (rel_chain_id cfg) ++
  replicate 12 x00 ++ rel_token_contract cfg ++
  be_split 32 (amount r) ++
  be_split 32 (source_chain_id r) ++
  keccak256 (source_address r) ++
  source_burn_tx_id r.

Definition expected_burn_id (cfg : ReleasePins) (r : ReleaseIdentity) : Z :=
  be_combine (keccak256 (burn_id_preimage cfg r)).

Definition validate_burn_id (cfg : ReleasePins) (r : ReleaseIdentity) : enclave_result unit :=
  if bool_decide (rel_token_contract cfg = zero_address) then Ok tt
  else if negb (burn_id r =? expected_burn_id cfg r)
  then Err (CrossCheck "calldata burnId is not the one the Bridge derives")
  else Ok tt.

End BurnId.

(** ** Binds to the consignment (crosscheck.rs, rgb/flow.rs) *)

(** The fields of [TransitionSummary] and [ValidatedConsignment] the binds read;
    [last_witness_txid] is in internal byte order, [mint_lock_ids] the
    operation ids of [mint_locks]. *)
Record TransitionSummary : Type := {
  transition_type : Z;
  burned_asset_amount : option Z;
  burn_reason : option bytes
}.

Record ValidatedBurn : Type := {
  last_transition : option TransitionSummary;
  last_witness_txid : option bytes;
  last_transfer_op_id : option bytes;
  non_mined_witness_txids : list bytes;
  mint_lock_ids : list bytes
}.

Section Binds.
Variable TS_BURN : Z.
Variable eip712_hash_struct : UtexoBurnDestinationV1 -> bytes.

Definition hash_v1 (r : BurnDestinationRecord) : bytes := eip712_hash_struct (to_sol_v1 r).

Definition resolve_v1 (reason : bytes) (r : BurnDestinationRecord) : enclave_result BurnTarget :=
  if bd_destination_chain_id r =? 0
  then Err (CrossCheck "burn_destination destinationChainId must be > 0")
  else
    let len := zlen (bd_recipient r) in
    let len_ok :=
      if bd_dst_eid r =? 0 then len =? ADDRESS_LEN else (1 <=? len) && (len <=? HASH_LEN) in
    if negb len_ok then Err (CrossCheck "burn_destination recipient length")
    else if negb (bool_decide (hash_v1 r = reason))
    then Err (CrossCheck "burn_destination hash != burn burnReason")
    else
      Ok {| bt_destination_chain_id := Some (bd_destination_chain_id r);
            bt_dst_eid := if bd_dst_eid r =? 0 then None else Some (bd_dst_eid r);
            bt_recipient := left_pad HASH_LEN (bd_recipient r) |}.

Definition resolve (reason : bytes) (record : option BurnDestinationRecord)
    : enclave_result BurnTarget :=
  if bool_decide (take 12 reason = replicate 12 x00) then
    match record with
    | Some _ => Err (CrossCheck "burn_destination sent for a legacy (V0) burn")
    | None => Ok {| bt_destination_chain_id := None; bt_dst_eid := None; bt_recipient := reason |}
    end
  else
    let? r := ok_or record (CrossCheck "burn commits to a destination hash, but the request has no burn_destination") in
    if bd_version r =? VERSION_V1 then resolve_v1 reason r
    else Err (CrossCheck "unknown burn_destination version").

Definition assert_witnesses_confirmed (v : ValidatedBurn) : enclave_result unit :=
  match non_mined_witness_txids v with
  | [] => Ok tt
  | _ => Err (CrossCheck "fundsOut requires every consignment witness tx to be mined")
  end.

(** [flow::funds_out_source_amount] and [flow::assert_funds_out_amount]. *)
Definition funds_out_source_amount (t : TransitionSummary) : enclave_result Z :=
  if negb (transition_type t =? TS_BURN) then Err (CrossCheck "fundsOut requires a burn transition")
  else ok_or (burned_asset_amount t) (CrossCheck "burn transition carries no burnedAsset global").

Definition assert_funds_out_amount (source_amount calldata_amount : Z) : enclave_result unit :=
  if negb (source_amount =? calldata_amount) then Err (CrossCheck "fundsOut amount mismatch")
  else Ok tt.

Definition validate_funds_out_amount (r : ReleaseIdentity) (v : ValidatedBurn) : enclave_result unit :=
  let? last := ok_or (last_transition v)
    (CrossCheck "fundsOut requires a consignment with at least one transition") in
  let? source_amount := funds_out_source_amount last in
  let? calldata_amount := u256_to_u64 (amount r) "fundsOut amount exceeds u64 range" in
  assert_funds_out_amount source_amount calldata_amount.

Definition validate_funds_out_burn_recipient (r : ReleaseIdentity) (v : ValidatedBurn)
    (record : option BurnDestinationRecord) : enclave_result unit :=
  let? last := ok_or (last_transition v)
    (CrossCheck "burn fundsOut requires a consignment with at least one transition") in
  let? reason := ok_or (burn_reason last) (CrossCheck "burn transition carries no burnReason") in
  let? target := resolve reason record in
  if negb (bool_decide (bt_dst_eid target = dst_eid r)) then Err (CrossCheck "dstEid mismatch")
  else
    let? _ :=
      match bt_destination_chain_id target with
      | Some chain =>
          if negb (destination_chain_id r =? chain) then Err (CrossCheck "destinationChainId mismatch")
          else Ok tt
      | None => Ok tt
      end in
    if negb (bool_decide (bt_recipient target = recipient r)) then Err (CrossCheck "recipient mismatch")
    else Ok tt.

Definition validate_funds_out_source_burn_tx_id (r : ReleaseIdentity) (v : ValidatedBurn)
    : enclave_result unit :=
  let? _ := ok_or (last_transition v)
    (CrossCheck "fundsOut requires a consignment with at least one transition") in
  let? expected := ok_or (last_transfer_op_id v)
    (CrossCheck "fundsOut requires the validated OpId of the settling burn") in
  if bool_decide (source_burn_tx_id r = replicate 32 x00) then Err (CrossCheck "fundsOut sourceBurnTxId is zero")
  else if negb (bool_decide (source_burn_tx_id r = expected))
  then Err (CrossCheck "fundsOut sourceBurnTxId mismatch")
  else Ok tt.

(** [ids.windows(2).any(|w| w[0] >= w[1])]. *)
Fixpoint not_ascending (ids : list bytes) : bool :=
  match ids with
  | x :: ((y :: _) as rest) => lex_leb y x || not_ascending rest
  | _ => false
  end.

Definition validate_funds_out_settlement (r : ReleaseIdentity) (lock_ids : list bytes)
    : enclave_result unit :=
  if zlen lock_ids =? 0 then Err (CrossCheck "fundsOut settles no verified deposit")
  else
    let? ids := ok_or (abi_decode_settlement (settlement_data r))
      (CrossCheck "fundsOut settlementData does not decode") in
    if negb (bool_decide (abi_encode_settlement ids = settlement_data r))
    then Err (CrossCheck "fundsOut settlementData is not canonically encoded")
    else if not_ascending ids
    then Err (CrossCheck "fundsOut settlementData operationIds are not strictly ascending")
    else if negb (bool_decide (ids = canonical_selectors lock_ids))
    then Err (CrossCheck "fundsOut settlementData mismatch")
    else Ok tt.

End Binds.
End Release.
