(* ===== verification/EvmReleaseProps.v ===== *)
(** * Theorems on EVM release validation

    What an accepted release is: its options, its route and pins, the payout
    the burn names, and the replay key that identifies the burn. *)

From stdpp Require Import strings sorting base numbers list.
From S2P Require Import Prelude Errors AttestedPolicy EvmRelease.

#[local] Open Scope list_scope.
#[local] Open Scope Z_scope.

(** ** Options *)

Lemma be_combine_two a b : be_combine [a; b] = b2z a * 256 + b2z b.
Proof. unfold be_combine. cbn. lia. Qed.

(** Two bytes with a known value below 256. *)
Lemma two_bytes a b z : 0 <= z < 256 -> be_combine [a; b] = z -> a = x00 /\ b = z2b z.
Proof.
  intros Hz H. rewrite be_combine_two in H. pose proof (b2z_range a). pose proof (b2z_range b).
  assert (b2z a = 0) by lia. split; apply b2z_inj; [done|]. rewrite b2z_small by done. lia.
Qed.

Lemma one_byte b z : 0 <= z < 256 -> b2z b = z -> b = z2b z.
Proof. intros Hz H. apply b2z_inj. by rewrite b2z_small. Qed.

(** The one allowed option: type 3, executor, 17 bytes, [lzReceive] gas. *)
Definition gas_option (gas : Z) : bytes := [x00; x03; x01; x00; x11; x01] ++ be_split 16 gas.

(** [validate_extra_options] accepts the empty string and exactly one
    executor [lzReceive] option with no value and at most
    [MAX_LZ_RECEIVE_GAS] gas; every other byte string is refused. *)
Theorem validate_extra_options_iff o :
  validate_extra_options o = Ok tt <->
  o = [] \/ exists gas, 0 <= gas <= MAX_LZ_RECEIVE_GAS /\ o = gas_option gas.
Proof.
  split.
  - unfold validate_extra_options, lz_reject. destruct o as [|t1 [|t0 [|w o]]]; [by left|done| |].
    { by destruct (negb _). }
    destruct (negb (be_combine [t1; t0] =? _)) eqn:E1; [done|].
    destruct (negb (b2z w =? _)) eqn:E2; [done|]. destruct o as [|s1 [|s0 o]]; [done|done|].
    destruct (negb (be_combine [s1; s0] =? _)) eqn:E3; [done|].
    destruct o as [|ty body]; [done|]. destruct (negb (b2z ty =? _)) eqn:E4; [done|].
    destruct (negb (zlen body =? _)) eqn:E5; [done|].
    destruct (_ <? be_combine body) eqn:E6; [done|]. intros _. right. zbool.
    rewrite zlen_cons, E5 in E3.
    apply two_bytes in E1 as [-> ->], E3 as [-> ->]; [|done|done].
    apply one_byte in E2 as ->, E4 as ->; [|done|done].
    exists (be_combine body). pose proof (be_combine_bound body). split; [lia|].
    unfold gas_option. rewrite <- (be_split_combine body) at 1.
    replace (length body) with 16%nat by (unfold zlen, LZRECEIVE_GAS_LEN in E5; lia). reflexivity.
  - intros [->|(gas & Hg & ->)]; [done|]. unfold gas_option, validate_extra_options. cbn [app].
    change (negb (be_combine [x00; x03] =? OPTIONS_TYPE_3)) with false. cbv iota.
    change (negb (b2z x01 =? EXECUTOR_WORKER_ID)) with false. cbv iota.
    change (negb (b2z x01 =? OPTION_TYPE_LZRECEIVE)) with false. cbv iota.
    assert (Hl : zlen (be_split 16 gas) = 16) by (unfold zlen; by rewrite be_split_length).
    rewrite zlen_cons, Hl. change (negb (be_combine [x00; x11] =? 1 + 16)) with false. cbv iota.
    change (negb (16 =? LZRECEIVE_GAS_LEN)) with false. cbv iota.
    rewrite be_combine_split by (unfold MAX_LZ_RECEIVE_GAS in Hg; cbn; lia).
    by rewrite (proj2 (Z.ltb_ge _ _)) by lia.
Qed.

(** ** The destination *)

Section Destination.
Context {A : AbiCodec}.

Lemma decode_funds_out_ok cd p :
  decode_funds_out_params cd = Ok p <->
  abi_decode_funds_out cd = Some p /\ abi_encode_funds_out p = cd.
Proof.
  unfold decode_funds_out_params. destruct (abi_decode_funds_out cd) as [q|]; cbn [ok_or rbind].
  - case_bool_decide; split; try done; intuition congruence.
  - split; [done|by intros []].
Qed.

Lemma decode_lz_ok cd c :
  decode_lz_funds_out_params cd = Ok c <->
  abi_decode_lz_funds_out cd = Some c /\ abi_encode_lz_funds_out c = cd.
Proof.
  unfold decode_lz_funds_out_params. destruct (abi_decode_lz_funds_out cd) as [q|]; cbn [ok_or rbind].
  - case_bool_decide; split; try done; intuition congruence.
  - split; [done|by intros []].
Qed.

Lemma check_selector_ok d e :
  check_selector d = Ok e <->
  4 <= zlen (call_data d) <= MAX_FUNDS_OUT_CALL_DATA_LEN /\ lz_release_present d = e /\
  if e then take 4 (call_data d) = LZ_FUNDS_OUT_SELECTOR
  else take 4 (call_data d) = FUNDS_OUT_SELECTOR_POOLS /\ take 4 (call_data d) <> LZ_FUNDS_OUT_SELECTOR.
Proof.
  unfold check_selector.
  destruct (zlen (call_data d) <? 4) eqn:E1; [split; [done|intros; zbool; lia]|].
  destruct (_ <? zlen (call_data d)) eqn:E2; [split; [done|intros; zbool; lia]|]. zbool.
  case_bool_decide as H1; case_bool_decide as H2; cbn [negb orb];
    destruct (lz_release_present d), e; split; intros H; try done; intuition congruence.
Qed.

(** A direct release of [p], and a LayerZero release of [c], to the pinned
    bridge. *)
Record direct_release (cfg : ReleasePins) (d : EvmDestination) (p : FundsOutParams) : Prop := {
  dr_selector : take 4 (call_data d) = FUNDS_OUT_SELECTOR_POOLS;
  dr_not_lz : take 4 (call_data d) <> LZ_FUNDS_OUT_SELECTOR;
  dr_no_lz_release : lz_release_present d = false;
  dr_decoded : abi_decode_funds_out (call_data d) = Some p;
  dr_canonical : abi_encode_funds_out p = call_data d;
  dr_amount : fo_amount p = calldata_amount d;
  dr_amount_u64 : fo_amount p <= u64_max;
  dr_chain : fo_destinationChainId p = rel_chain_id cfg
}.

Record lz_release (cfg : ReleasePins) (d : EvmDestination) (c : lzFundsOutCall) : Prop := {
  lr_selector : take 4 (call_data d) = LZ_FUNDS_OUT_SELECTOR;
  lr_lz_release : lz_release_present d = true;
  lr_decoded : abi_decode_lz_funds_out (call_data d) = Some c;
  lr_canonical : abi_encode_lz_funds_out c = call_data d;
  lr_amount : lz_amount c = calldata_amount d;
  lr_amount_u64 : lz_amount c <= u64_max;
  lr_floor : lz_minAmountLD c <> 0 /\ lz_minAmountLD c <= lz_amount c;
  lr_options : validate_extra_options (lz_extraOptions c) = Ok tt;
  lr_chain : lz_destinationChainId c <> 0 /\ lz_destinationChainId c <> rel_chain_id cfg
}.

Lemma u256_to_u64_ok v m a : u256_to_u64 v m = Ok a <-> v <= u64_max /\ a = v.
Proof. unfold u256_to_u64. destruct (v <=? u64_max) eqn:E; zbool; split; intuition (congruence || lia). Qed.

Lemma decode_direct_ok d pr params chain rel :
  decode_release d false = Ok (pr, params, chain, rel) <->
  exists p, abi_decode_funds_out (call_data d) = Some p /\ abi_encode_funds_out p = call_data d /\
    fo_amount p <= u64_max /\ pr = {| rp_amount := fo_amount p; rp_operation_id := None |} /\
    params = Some p /\ chain = fo_destinationChainId p /\ rel = from_funds_out p.
Proof.
  unfold decode_release, route_proof_from_params. rewrite rbind_ok. setoid_rewrite decode_funds_out_ok.
  split.
  - intros (p & [Hd He] & H). apply rbind_ok in H as (pr' & Hpr & H).
    apply rbind_ok in Hpr as (a & [Ha ->]%u256_to_u64_ok & [= <-]). injection H as <- <- <- <-.
    by exists p.
  - intros (p & Hd & He & Ha & -> & -> & -> & ->). exists p. split; [done|].
    rewrite (proj2 (u256_to_u64_ok _ _ _) (conj Ha eq_refl)). done.
Qed.

Lemma decode_lz_release_ok d pr params chain rel :
  decode_release d true = Ok (pr, params, chain, rel) <->
  exists c, abi_decode_lz_funds_out (call_data d) = Some c /\ abi_encode_lz_funds_out c = call_data d /\
    (lz_minAmountLD c <> 0 /\ lz_minAmountLD c <= lz_amount c) /\
    validate_extra_options (lz_extraOptions c) = Ok tt /\
    lz_amount c <= u64_max /\ pr = {| rp_amount := lz_amount c; rp_operation_id := None |} /\
    params = None /\ chain = lz_destinationChainId c /\ rel = from_lz_funds_out c.
Proof.
  unfold decode_release, lz_route_proof_from_params. rewrite rbind_ok. setoid_rewrite decode_lz_ok.
  assert (Hm : forall c, validate_min_amount_ld c = Ok tt <->
    lz_minAmountLD c <> 0 /\ lz_minAmountLD c <= lz_amount c).
  { intros c. unfold validate_min_amount_ld. destruct (lz_minAmountLD c =? 0) eqn:E1,
      (lz_amount c <? lz_minAmountLD c) eqn:E2; zbool;
      split; intros; try done; lia. }
  split.
  - intros (c & [Hd He] & H). apply rbind_unit_ok in H as [Hc H]. apply Hm in Hc.
    apply rbind_unit_ok in H as [Ho H]. apply rbind_ok in H as (pr' & Hpr & H).
    apply rbind_ok in Hpr as (a & [Ha ->]%u256_to_u64_ok & [= <-]). injection H as <- <- <- <-.
    by exists c.
  - intros (c & Hd & He & Hc & Ho & Ha & -> & -> & -> & ->). exists c. split; [done|].
    apply Hm in Hc. rewrite Hc, Ho. cbn [rbind].
    rewrite (proj2 (u256_to_u64_ok _ _ _) (conj Ha eq_refl)). done.
Qed.

Lemma check_deadline_ok d now :
  check_deadline d now = Ok tt <->
  0 <= now /\ now / secs 1 < deadline d <= sat_add64 (now / secs 1) MAX_TEE_DEADLINE_SECS.
Proof.
  unfold check_deadline. destruct (now <? 0) eqn:E1, (deadline d <=? now / secs 1) eqn:E2,
    (sat_add64 (now / secs 1) MAX_TEE_DEADLINE_SECS <? deadline d) eqn:E3; zbool; split; intros; try done; lia.
Qed.

(** The pin checks of a production build. *)
Lemma check_pins_ok b cfg d e chain :
  rgb_validation b = true -> test_build b = false ->
  check_pins b cfg d e chain = Ok tt <->
  is_configured cfg = true /\ dest_chain_id d = rel_chain_id cfg /\
  proxy_contract d = rel_bridge_contract cfg /\
  if e then chain <> 0 /\ chain <> rel_chain_id cfg else chain = rel_chain_id cfg.
Proof.
  intros Hv Ht. unfold check_pins. rewrite Hv, Ht. cbn [andb negb].
  destruct (is_configured cfg) eqn:Ec; cbn [negb andb]; [|split; [done|by intros []]].
  unfold is_configured in Ec. apply andb_true_iff in Ec as [Ec _]. apply andb_true_iff in Ec as [E0 Ez].
  rewrite E0, Ez. cbn [andb]. zbool.
  destruct (negb (dest_chain_id d =? _)) eqn:Ed; [zbool; split; [done|intros (_ & ? & _); done]|].
  zbool. rewrite rbind_unit_ok, refuse_ok, negb_false_iff, bool_decide_eq_true.
  destruct e.
  - destruct (chain =? 0) eqn:E1, (chain =? rel_chain_id cfg) eqn:E2; zbool; intuition congruence.
  - rewrite refuse_ok, negb_false_iff, Z.eqb_eq. tauto.
Qed.

(** The accepted destinations of a production build. *)
Lemma destination_spec b cfg d now pr params rel :
  rgb_validation b = true -> test_build b = false ->
  validate_destination b cfg d now = Ok (pr, params, rel) <->
  (is_configured cfg = true /\ dest_chain_id d = rel_chain_id cfg /\
   proxy_contract d = rel_bridge_contract cfg /\ zlen (proxy_contract d) = ADDRESS_LEN /\
   4 <= zlen (call_data d) <= MAX_FUNDS_OUT_CALL_DATA_LEN /\
   0 <= now /\ now / secs 1 < deadline d <= sat_add64 (now / secs 1) MAX_TEE_DEADLINE_SECS) /\
  pr = {| rp_amount := calldata_amount d; rp_operation_id := None |} /\
  ((exists p, direct_release cfg d p /\ params = Some p /\ rel = from_funds_out p) \/
   (exists c, lz_release cfg d c /\ params = None /\ rel = from_lz_funds_out c)).
Proof.
  intros Hv Ht. unfold validate_destination. rewrite rbind_ok. setoid_rewrite check_selector_ok. split.
  - intros (e & (Hl & Hp & He) & H). apply rbind_ok in H as ([[[pr' params'] chain] rel'] & Hdec & H).
    destruct (negb (rp_amount pr' =? _)) eqn:E1; [done|].
    destruct (dest_chain_id d =? 0) eqn:E2; [done|].
    destruct (negb (zlen (proxy_contract d) =? _)) eqn:E3; [done|]. zbool.
    apply rbind_unit_ok in H as [Hpins H]. apply rbind_unit_ok in H as [Hdl H].
    injection H as -> -> ->. apply check_pins_ok in Hpins as (Hc & Hch & Hpr & Hroute); [|done|done].
    apply check_deadline_ok in Hdl. split; [tauto|]. destruct e.
    + apply decode_lz_release_ok in Hdec as (c & Hd & Hen & Hm & Ho & Ha & -> & -> & -> & ->).
      cbn in E1. rewrite E1. split; [done|]. right. exists c. split; [|done].
      constructor; try done.
    + apply decode_direct_ok in Hdec as (p & Hd & Hen & Ha & -> & -> & -> & ->).
      cbn in E1. rewrite E1. split; [done|]. left. exists p. split; [|done].
      destruct He. constructor; done.
  - intros ((Hc & Hch & Hpr & Hpl & Hl & Hdl) & -> & Hroute).
    assert (Hch0 : (dest_chain_id d =? 0) = false).
    { unfold is_configured in Hc. zbool. rewrite Hch. tauto. }
    destruct Hroute as [(p & [] & -> & ->)|(c & [] & -> & ->)].
    + exists false. split; [done|]. apply rbind_ok.
      eexists (_, _, _, _). split; [apply decode_direct_ok; by exists p|]. cbv iota beta.
      rewrite dr_amount0, Z.eqb_refl, Hch0, Hpl. cbn [rp_amount negb].
      apply rbind_unit_ok. split; [by apply check_pins_ok|].
      apply rbind_unit_ok. split; [by apply check_deadline_ok|congruence].
    + exists true. split; [done|]. apply rbind_ok.
      eexists (_, _, _, _). split; [apply decode_lz_release_ok; by exists c|]. cbv iota beta.
      rewrite lr_amount0, Z.eqb_refl, Hch0, Hpl. cbn [rp_amount negb].
      apply rbind_unit_ok. split; [by apply check_pins_ok|].
      apply rbind_unit_ok. split; [by apply check_deadline_ok|congruence].
Qed.

(** C37: a production build signs for exactly these destinations: the pinned
    chain and proxy, a deadline at most a day ahead, and canonical calldata of
    one of the two release calls with the declared amount: a direct
    [fundsOut] on the pinned chain, or an [lzFundsOut] to another chain with a
    non-zero floor and gas-only options.  The returned identity is that of the
    decoded call. *)
Theorem validate_destination_iff b cfg d now pr params rel :
  rgb_validation b = true -> test_build b = false ->
  validate_destination b cfg d now = Ok (pr, params, rel) <->
  (is_configured cfg = true /\ dest_chain_id d = rel_chain_id cfg /\
   proxy_contract d = rel_bridge_contract cfg /\ zlen (proxy_contract d) = ADDRESS_LEN /\
   4 <= zlen (call_data d) <= MAX_FUNDS_OUT_CALL_DATA_LEN /\
   0 <= now /\ now / secs 1 < deadline d <= sat_add64 (now / secs 1) MAX_TEE_DEADLINE_SECS) /\
  pr = {| rp_amount := calldata_amount d; rp_operation_id := None |} /\
  ((exists p, direct_release cfg d p /\ params = Some p /\ rel = from_funds_out p) \/
   (exists c, lz_release cfg d c /\ params = None /\ rel = from_lz_funds_out c)).
Proof. apply destination_spec. Qed.

End Destination.

(** ** The payout the burn names *)

Section Payout.
Variable eip712_hash_struct : UtexoBurnDestinationV1 -> bytes.

(** A burn whose reason has twelve leading zero bytes is a V0 burn. *)
Definition legacy (reason : bytes) : bool := bool_decide (take 12 reason = replicate 12 x00).

(** The target that [reason] and [record] resolve to. *)
Definition names_target (reason : bytes) (record : option BurnDestinationRecord) (t : BurnTarget)
    : Prop :=
  if legacy reason then
    record = None /\
    t = {| bt_destination_chain_id := None; bt_dst_eid := None; bt_recipient := reason |}
  else
    exists r, record = Some r /\ bd_version r = VERSION_V1 /\ bd_destination_chain_id r <> 0 /\
      (if bd_dst_eid r =? 0 then zlen (bd_recipient r) = ADDRESS_LEN
       else 1 <= zlen (bd_recipient r) <= HASH_LEN) /\
      hash_v1 eip712_hash_struct r = reason /\
      t = {| bt_destination_chain_id := Some (bd_destination_chain_id r);
             bt_dst_eid := if bd_dst_eid r =? 0 then None else Some (bd_dst_eid r);
             bt_recipient := left_pad HASH_LEN (bd_recipient r) |}.

Lemma resolve_ok reason record t :
  resolve eip712_hash_struct reason record = Ok t <-> names_target reason record t.
Proof.
  unfold resolve, names_target, legacy. case_bool_decide.
  { destruct record; split; try done; intuition congruence. }
  destruct record as [r|]; cbn [ok_or rbind]; [|split; [done|by intros (? & ? & _)]].
  destruct (bd_version r =? VERSION_V1) eqn:Ev; zbool;
    [|split; [done|intros (? & [= <-] & ? & _); done]].
  unfold resolve_v1. destruct (bd_destination_chain_id r =? 0) eqn:Ec; zbool;
    [split; [done|intros (? & [= <-] & _ & ? & _); done]|].
  set (len_ok := if bd_dst_eid r =? 0 then _ else _).
  assert (Hl : len_ok = true <-> if bd_dst_eid r =? 0 then zlen (bd_recipient r) = ADDRESS_LEN
     else 1 <= zlen (bd_recipient r) <= HASH_LEN).
  { unfold len_ok. destruct (bd_dst_eid r =? 0); zbool; done. }
  destruct len_ok; cbn [negb].
  2: { split; [done|]. intros (? & [= <-] & _ & _ & Hx & _). by apply Hl in Hx. }
  case_bool_decide as Eh; cbn [negb].
  2: { split; [done|]. intros (? & [= <-] & _ & _ & _ & ? & _). done. }
  split.
  - intros [= <-]. exists r. split_and!; try done. by apply Hl.
  - intros (? & [= <-] & _ & _ & _ & _ & ->). done.
Qed.

Lemma burn_recipient_ok r v record :
  validate_funds_out_burn_recipient eip712_hash_struct r v record = Ok tt <->
  exists last reason t, last_transition v = Some last /\ burn_reason last = Some reason /\
    names_target reason record t /\ bt_dst_eid t = dst_eid r /\ bt_recipient t = recipient r /\
    (forall c, bt_destination_chain_id t = Some c -> destination_chain_id r = c).
Proof.
  unfold validate_funds_out_burn_recipient. split.
  - intros H. apply rbind_ok in H as (last & Hl & H). apply rbind_ok in H as (reason & Hr & H).
    apply rbind_ok in H as (t & Ht%resolve_ok & H). exists last, reason, t.
    destruct (last_transition v) as [l|]; [|done]. injection Hl as ->.
    destruct (burn_reason last) as [l|]; [|done]. injection Hr as ->.
    case_bool_decide as E1; [|done]. cbn [negb] in H. apply rbind_unit_ok in H as [H1 H2].
    apply refuse_ok, negb_false_iff, bool_decide_eq_true in H2. split_and!; try done.
    intros c Hc. rewrite Hc in H1. apply refuse_ok, negb_false_iff, Z.eqb_eq in H1. done.
  - intros (last & reason & t & -> & Hr & Ht & He & Hp & Hc). cbn [ok_or rbind]. rewrite Hr.
    cbn [ok_or rbind]. apply resolve_ok in Ht. rewrite Ht. cbn [rbind].
    rewrite bool_decide_eq_true_2 by done. cbn [negb]. apply rbind_unit_ok. split.
    + destruct (bt_destination_chain_id t) as [c|]; [|done]. rewrite (Hc c), Z.eqb_refl by done. done.
    + by rewrite bool_decide_eq_true_2.
Qed.

(** One burn, one payout.  Two releases accepted for the same burn go to
    the same payee over the same route, whatever records the requests carry;
    for a V1 burn, on the same destination chain.  A V0 burn pays directly to
    the address it holds.  The EIP-712 hash is assumed not to collide on the
    two records. *)
Theorem burn_payout_unique r1 r2 v rec1 rec2 :
  (forall x y, rec1 = Some x -> rec2 = Some y ->
     eip712_hash_struct (to_sol_v1 x) = eip712_hash_struct (to_sol_v1 y) ->
     to_sol_v1 x = to_sol_v1 y) ->
  validate_funds_out_burn_recipient eip712_hash_struct r1 v rec1 = Ok tt ->
  validate_funds_out_burn_recipient eip712_hash_struct r2 v rec2 = Ok tt ->
  exists last reason, last_transition v = Some last /\ burn_reason last = Some reason /\
    recipient r1 = recipient r2 /\ dst_eid r1 = dst_eid r2 /\
    if legacy reason then recipient r1 = reason /\ dst_eid r1 = None
    else destination_chain_id r1 = destination_chain_id r2.
Proof.
  intros Hinj (last & reason & t1 & Hl & Hr & Ht1 & He1 & Hp1 & Hc1)%burn_recipient_ok
    (last' & reason' & t2 & Hl' & Hr' & Ht2 & He2 & Hp2 & Hc2)%burn_recipient_ok.
  rewrite Hl in Hl'. injection Hl' as <-. rewrite Hr in Hr'. injection Hr' as <-.
  exists last, reason. split; [done|]. split; [done|]. unfold names_target in *.
  rewrite <- He1, <- He2, <- Hp1, <- Hp2. destruct (legacy reason).
  - destruct Ht1 as [_ ->], Ht2 as [_ ->]. done.
  - destruct Ht1 as (x & Hx & _ & _ & _ & Hhx & ->), Ht2 as (y & Hy & _ & _ & _ & Hhy & ->).
    cbn in *. assert (Hxy : to_sol_v1 x = to_sol_v1 y).
    { apply Hinj; [done|done|]. unfold hash_v1 in *. congruence. }
    injection Hxy as E1 E2 E3. rewrite E2, E3. split_and!; try done.
    rewrite (Hc1 _ eq_refl), (Hc2 _ eq_refl). done.
Qed.

End Payout.

(** ** The replay key *)

Section ReplayKey.
Context {A : AbiCodec}.
Variable keccak256 : bytes -> bytes.
Variable TS_BURN : Z.

(** The units the settling transition burns. *)
Definition burned (v : ValidatedBurn) : option Z :=
  t ← last_transition v; burned_asset_amount t.

Lemma amount_range r v :
  validate_funds_out_amount TS_BURN r v = Ok tt -> burned v = Some (amount r) /\ amount r <= u64_max.
Proof.
  unfold validate_funds_out_amount, burned. intros Ha.
  apply rbind_ok in Ha as (t & Ht & Ha). destruct (last_transition v) as [t'|] eqn:El; [|done].
  injection Ht as ->. apply rbind_ok in Ha as (s & Hsrc & Ha).
  apply rbind_ok in Ha as (c & [Hc ->]%u256_to_u64_ok & Ha).
  unfold assert_funds_out_amount in Ha. apply refuse_ok in Ha. zbool. subst s.
  unfold funds_out_source_amount in Hsrc. destruct (negb _); [done|].
  cbn. destruct (burned_asset_amount t) as [x|] eqn:Eb; [|done]. by injection Hsrc as ->.
Qed.

Lemma amount_ok r v : validate_funds_out_amount TS_BURN r v = Ok tt -> burned v = Some (amount r).
Proof. apply amount_range. Qed.

Lemma op_id_ok r v :
  validate_funds_out_source_burn_tx_id r v = Ok tt -> last_transfer_op_id v = Some (source_burn_tx_id r).
Proof.
  unfold validate_funds_out_source_burn_tx_id. intros Ho.
  destruct (last_transition v) as [t|]; [|done]. cbn [ok_or rbind] in Ho.
  apply rbind_ok in Ho as (o & Hop & Ho). destruct (last_transfer_op_id v) as [o'|]; [|done].
  injection Hop as ->. destruct (bool_decide _) in Ho; [done|]. apply refuse_ok in Ho.
  apply negb_false_iff, bool_decide_eq_true in Ho. congruence.
Qed.

(** Every bind between a release and the burn it settles. *)
Definition release_bound (cfg : ReleasePins) (r : ReleaseIdentity) (v : ValidatedBurn) : Prop :=
  validate_rgb_source_identity r = Ok tt /\ validate_burn_id keccak256 cfg r = Ok tt /\
  validate_funds_out_amount TS_BURN r v = Ok tt /\
  validate_funds_out_source_burn_tx_id r v = Ok tt.

Lemma release_bound_facts cfg r v :
  rel_token_contract cfg <> zero_address -> release_bound cfg r v ->
  source_chain_id r = RGB_CHAIN_ID /\ source_address r = [] /\
  burn_id r = expected_burn_id keccak256 cfg r /\ burned v = Some (amount r) /\
  amount r <= u64_max /\ last_transfer_op_id v = Some (source_burn_tx_id r).
Proof.
  intros Htok (Hs & Hb & Ha & Ho). unfold validate_rgb_source_identity in Hs.
  destruct (negb _) eqn:E1 in Hs; [done|]. apply refuse_ok in Hs. zbool.
  unfold validate_burn_id in Hb. rewrite bool_decide_eq_false_2 in Hb by done.
  apply refuse_ok in Hb. zbool. apply amount_range in Ha as [Ha Hm]. apply op_id_ok in Ho.
  split_and!; try done.
  destruct (source_address r) as [|b l]; [done|]. rewrite zlen_cons in Hs. pose proof (zlen_nonneg l). lia.
Qed.

(** Equal preimages have equal amounts and burn ids. *)
Lemma preimage_inj cfg r1 r2 :
  0 <= amount r1 < 2 ^ 256 -> 0 <= amount r2 < 2 ^ 256 ->
  source_chain_id r1 = source_chain_id r2 -> source_address r1 = source_address r2 ->
  burn_id_preimage keccak256 cfg r1 = burn_id_preimage keccak256 cfg r2 ->
  amount r1 = amount r2 /\ source_burn_tx_id r1 = source_burn_tx_id r2.
Proof.
  intros H1 H2 Hc Hs H. unfold burn_id_preimage in H. rewrite Hc, Hs in H.
  do 6 apply app_inv_head in H. apply app_inj_1 in H as [Ha H]; [|by rewrite !be_split_length].
  do 2 apply app_inv_head in H. split; [|done].
  rewrite <- (be_combine_split 32 (amount r1)), <- (be_combine_split 32 (amount r2)) by done.
  by rewrite Ha.
Qed.

(** C38: the replay key identifies the burn.  Two bound releases under the
    same pins have the same [burnId] exactly when they settle the same burn
    operation for the same amount, so a second release of one burn carries the
    [burnId] the Bridge has already used.  Keccak-256 is assumed to give 32
    bytes and not to collide on the two preimages. *)
Theorem burn_id_identifies_burn cfg r1 r2 v1 v2 :
  rel_token_contract cfg <> zero_address ->
  0 <= amount r1 -> 0 <= amount r2 ->
  (forall x, zlen (keccak256 x) = 32) ->
  (keccak256 (burn_id_preimage keccak256 cfg r1) = keccak256 (burn_id_preimage keccak256 cfg r2) ->
   burn_id_preimage keccak256 cfg r1 = burn_id_preimage keccak256 cfg r2) ->
  release_bound cfg r1 v1 -> release_bound cfg r2 v2 ->
  burn_id r1 = burn_id r2 <->
  last_transfer_op_id v1 = last_transfer_op_id v2 /\ burned v1 = burned v2.
Proof.
  intros Htok Ha1 Ha2 Hlen Hcf B1 B2.
  apply release_bound_facts in B1 as (Hc1 & Hs1 & Hb1 & Hbu1 & Hm1 & Ho1); [|done].
  apply release_bound_facts in B2 as (Hc2 & Hs2 & Hb2 & Hbu2 & Hm2 & Ho2); [|done].
  rewrite Hbu1, Hbu2, Ho1, Ho2, Hb1, Hb2. unfold expected_burn_id. unfold u64_max in *. split.
  - intros H. assert (Hk : keccak256 (burn_id_preimage keccak256 cfg r1) =
      keccak256 (burn_id_preimage keccak256 cfg r2)).
    { rewrite <- (be_split_combine (keccak256 (burn_id_preimage keccak256 cfg r1))), H.
      rewrite <- (be_split_combine (keccak256 (burn_id_preimage keccak256 cfg r2))) at 2.
      f_equal. pose proof (Hlen (burn_id_preimage keccak256 cfg r1)).
      pose proof (Hlen (burn_id_preimage keccak256 cfg r2)). unfold zlen in *. lia. }
    apply Hcf, preimage_inj in Hk as [-> ->]; [done|lia|lia|congruence|congruence].
  - intros [[= Ho] [= Ham]]. unfold burn_id_preimage. by rewrite Ho, Ham, Hc1, Hc2, Hs1, Hs2.
Qed.

End ReplayKey.

(** ** Concrete releases *)

Definition sample_params : FundsOutParams := {|
  fo_recipient := replicate 20 x77; fo_amount := 5000; fo_burnId := 1;
  fo_sourceChainId := RGB_CHAIN_ID; fo_destinationChainId := 42161; fo_sourceAddress := [];
  fo_proof := []; fo_settlementData := []; fo_sourceBurnTxId := replicate 32 x09 |}.

Definition sample_encode (p : FundsOutParams) : bytes :=
  FUNDS_OUT_SELECTOR_POOLS ++ be_split 32 (fo_amount p).

(** A codec that knows one direct release and no LayerZero call. *)
Definition sample_codec : AbiCodec := {|
  LZ_FUNDS_OUT_SELECTOR := [x01; x02; x03; x04];
  abi_decode_funds_out := fun cd =>
    if bool_decide (cd = sample_encode sample_params) then Some sample_params else None;
  abi_encode_funds_out := sample_encode;
  abi_decode_lz_funds_out := fun _ => None;
  abi_encode_lz_funds_out := fun _ => [];
  abi_decode_settlement := fun _ => None;
  abi_encode_settlement := fun ids => concat ids
|}.

Definition sample_release_pins : ReleasePins := {|
  rel_chain_id := 42161; rel_bridge_contract := replicate 20 x11;
  rel_rgb_asset_id := [x72; x67; x62]; rel_funds_in_contract := replicate 20 x22;
  rel_token_contract := replicate 20 x33 |}.

Definition sample_destination : EvmDestination := {|
  call_data := sample_encode sample_params; deadline := 1003600; dest_chain_id := 42161;
  proxy_contract := replicate 20 x11; calldata_amount := 5000; lz_release_present := false |}.

Definition production_build : ReleaseBuild :=
  {| rgb_validation := true; debug_build := false; test_build := false |}.

Lemma validate_destination_iff_witness :
  validate_destination (A := sample_codec) production_build sample_release_pins sample_destination
    (secs 1000000) =
  Ok ({| rp_amount := 5000; rp_operation_id := None |}, Some sample_params,
      from_funds_out sample_params).
Proof.
  apply (validate_destination_iff (A := sample_codec) production_build sample_release_pins
           sample_destination (secs 1000000) _ _ _ eq_refl eq_refl).
  split; [by vm_compute|]. split; [done|]. left. exists sample_params.
  split; [|done]. constructor; by vm_compute.
Defined.

(** A hash of fixed-width fields, injective on 20-byte recipients. *)
Definition sample_hash (d : UtexoBurnDestinationV1) : bytes :=
  be_split 8 (v1_destination_chain_id d) ++ be_split 4 (v1_dst_eid d) ++ v1_recipient d.

Definition sample_record : BurnDestinationRecord := {|
  bd_version := 1; bd_destination_chain_id := 1; bd_dst_eid := 30101;
  bd_recipient := replicate 20 x77 |}.

Definition sample_burn (op : bytes) : ValidatedBurn := {|
  last_transition := Some {| transition_type := 8000; burned_asset_amount := Some 5000;
                             burn_reason := Some (sample_hash (to_sol_v1 sample_record)) |};
  last_witness_txid := None;
  last_transfer_op_id := Some op;
  non_mined_witness_txids := [];
  mint_lock_ids := []
|}.

Definition lz_identity : ReleaseIdentity := {|
  burn_id := 7; amount := 5000; source_chain_id := RGB_CHAIN_ID; source_address := [];
  settlement_data := []; source_burn_tx_id := replicate 32 x09;
  recipient := replicate 12 x00 ++ replicate 20 x77; destination_chain_id := 1;
  dst_eid := Some 30101; proof := [] |}.

Lemma burn_payout_unique_witness :
  exists last reason, last_transition (sample_burn []) = Some last /\ burn_reason last = Some reason /\
    recipient lz_identity = recipient lz_identity /\ dst_eid lz_identity = dst_eid lz_identity /\
    if legacy reason then recipient lz_identity = reason /\ dst_eid lz_identity = None
    else destination_chain_id lz_identity = destination_chain_id lz_identity.
Proof.
  apply (burn_payout_unique sample_hash lz_identity lz_identity (sample_burn [])
           (Some sample_record) (Some sample_record)).
  - intros x y [= <-] [= <-] _. reflexivity.
  - by vm_compute.
  - by vm_compute.
Defined.

(** The low 256 bits of the input. *)
Definition sample_keccak (x : bytes) : bytes := be_split 32 (be_combine x).

(** The bound release of the burn [op]. *)
Definition bound_identity (op : bytes) : ReleaseIdentity := {|
  burn_id := be_combine op; amount := 5000; source_chain_id := RGB_CHAIN_ID; source_address := [];
  settlement_data := []; source_burn_tx_id := op;
  recipient := replicate 32 x77; destination_chain_id := 42161; dst_eid := None; proof := [] |}.

Lemma burn_id_identifies_burn_witness :
  burn_id (bound_identity (replicate 32 x08)) <> burn_id (bound_identity (replicate 32 x09)).
Proof.
  intros E.
  apply (burn_id_identifies_burn sample_keccak 8000 sample_release_pins
           (bound_identity (replicate 32 x08)) (bound_identity (replicate 32 x09))
           (sample_burn (replicate 32 x08)) (sample_burn (replicate 32 x09))) in E.
  - destruct E as [E _]. by vm_compute in E.
  - by vm_compute.
  - done.
  - done.
  - intros x. unfold zlen, sample_keccak. by rewrite be_split_length.
  - intros Hk. by vm_compute in Hk.
  - split_and!; by vm_compute.
  - split_and!; by vm_compute.
Defined.
