(* ===== verification/EvmEvents.v ===== *)
(** * EVM deposit events (src/enclave/src/networks/evm/events.rs)

    How the enclave reads a deposit from the pinned EVM node: the log decoders,
    the finality checks and the two predicates [verify_funds_in_event] and
    [verify_rgb_funds_in].

    The node is a [EvmReceiptProvider].  Its answers may change between calls, so
    a provider is a function of the number of calls made before, and the
    predicates run in the small monad [Rpc], which counts calls and stops at the
    first error.  A [String] is its UTF-8 bytes. *)

From stdpp Require Import base numbers list strings.
From S2P Require Import Prelude Errors Lengths EvmRelease.

#[local] Open Scope list_scope.
#[local] Open Scope Z_scope.

(** ** ABI words *)

Definition extract_uint256_as_u64 (data : bytes) (offset : Z) : enclave_result Z :=
  let end_ := offset + 32 in
  if zlen data <? end_ then Err (CrossCheck "call_data too short")
  else
    let slot := slice offset end_ data in
    if existsb (fun b => negb (b2z b =? 0)) (take 24 slot)
    then Err (CrossCheck "uint256 value exceeds u64 range")
    else Ok (be_combine (drop 24 slot)).

Definition BRIDGE_FUNDS_IN_SIG : string :=
  "BridgeFundsIn(bytes32,bytes32,address,uint256,uint256,uint256,uint256,uint256,uint256,uint256,string,bytes)".
Definition BFI_OPERATION_ID_TOPIC : nat := 1.
Definition BFI_AMOUNT_OFF : Z := 32.
Definition BFI_NET_AMOUNT_OFF : Z := 64.
Definition BFI_TOKEN_COMMISSION_OFF : Z := 96.
Definition BFI_DEST_CHAIN_ID_OFF : Z := 192.
Definition BFI_DEST_ADDRESS_HEAD_OFF : Z := 224.
Definition BFI_MAX_DEST_ADDRESS_LEN : Z := 2048.
Definition BFI_MIN_DATA_LEN : Z := 9 * 32.
Definition FUNDS_IN_SIG : string := "FundsIn(address,uint256,uint64)".
Definition FUNDS_IN_LOCK_ID_TOPIC : nat := 2.

Record LogEntry : Type := { log_address : bytes; topics : list bytes; log_data : bytes }.

Record ReceiptData : Type := {
  status_success : bool;
  block_number : Z;
  block_hash : bytes;
  logs : list LogEntry
}.

Record BlockData : Type := { bd_number : Z; bd_hash : bytes }.

#[export] Instance block_data_eq_dec : EqDecision BlockData.
Proof. solve_decision. Defined.

(** ** The provider *)

(** The trait [EvmReceiptProvider]; the first argument counts the calls made
    before this one. *)
Class EvmReceiptProvider : Type := {
  get_transaction_receipt : nat -> bytes -> enclave_result (option ReceiptData);
  get_block_by_tag : nat -> EvmFinalityTag -> enclave_result (option BlockData);
  get_block_by_number : nat -> Z -> enclave_result (option BlockData);
  get_chain_id : nat -> enclave_result Z
}.

Definition Rpc (A : Type) : Type := nat -> enclave_result (A * nat).

Definition rpc_ret {A : Type} (a : A) : Rpc A := fun t => Ok (a, t).
Definition rpc_lift {A : Type} (r : enclave_result A) : Rpc A := fun t => let? a := r in Ok (a, t).
Definition rpc_call {A : Type} (f : nat -> enclave_result A) : Rpc A :=
  fun t => let? a := f t in Ok (a, S t).
Definition rpc_bind {A B : Type} (c : Rpc A) (k : A -> Rpc B) : Rpc B :=
  fun t => let? (a, t') := c t in k a t'.

Notation "'rpc?' x ':=' c 'in' k" := (rpc_bind c (fun x => k))
  (at level 10, x pattern, c at level 100, k at level 200,
   format "'rpc?'  x  ':='  c  'in' '//' k") : rust_scope.

(** [String::from_utf8] accepts: the well-formed byte sequences of UTF-8. *)
Fixpoint utf8_valid (fuel : nat) (bs : bytes) : bool :=
  let cont b := (0x80 <=? b2z b) && (b2z b <=? 0xbf) in
  match fuel with
  | O => bool_decide (bs = [])
  | S fuel =>
      match bs with
      | [] => true
      | a :: bs =>
          let z := b2z a in
          if z <? 0x80 then utf8_valid fuel bs
          else if (0xc2 <=? z) && (z <=? 0xdf) then
            match bs with b :: bs => cont b && utf8_valid fuel bs | _ => false end
          else if (0xe0 <=? z) && (z <=? 0xef) then
            match bs with
            | b :: c :: bs =>
                (if z =? 0xe0 then (0xa0 <=? b2z b) && (b2z b <=? 0xbf)
                 else if z =? 0xed then (0x80 <=? b2z b) && (b2z b <=? 0x9f)
                 else cont b) && cont c && utf8_valid fuel bs
            | _ => false
            end
          else if (0xf0 <=? z) && (z <=? 0xf4) then
            match bs with
            | b :: c :: d :: bs =>
                (if z =? 0xf0 then (0x90 <=? b2z b) && (b2z b <=? 0xbf)
                 else if z =? 0xf4 then (0x80 <=? b2z b) && (b2z b <=? 0x8f)
                 else cont b) && cont c && cont d && utf8_valid fuel bs
            | _ => false
            end
          else false
      end
  end.

Definition from_utf8 (bs : bytes) : bool := utf8_valid (length bs) bs.

(** ** Decoders *)

(** [decode_abi_string]; [usize] is 64 bits wide. *)
Definition decode_abi_string (data : bytes) (head_off : Z) : enclave_result bytes :=
  let word_at off :=
    rmap_err (fun _ => CrossCheck "BridgeFundsIn word") (extract_uint256_as_u64 data off) in
  let? offset := word_at head_off in
  if u64_max <? offset + 32 then Err (CrossCheck "tail offset overflow")
  else
    let len_off := offset + 32 in
    if zlen data <? len_off then Err (CrossCheck "tail offset is past the log data")
    else
      let? len := word_at offset in
      if BFI_MAX_DEST_ADDRESS_LEN <? len then Err (CrossCheck "tail length exceeds the cap")
      else if u64_max <? len_off + len then Err (CrossCheck "tail length overflow")
      else
        let end_ := len_off + len in
        if zlen data <? end_ then Err (CrossCheck "tail claims more bytes than the log data")
        else
          let tail := slice len_off end_ data in
          if from_utf8 tail then Ok tail else Err (CrossCheck "tail is not valid UTF-8").

Definition decode_u64_word (data : bytes) (offset : Z) : enclave_result Z :=
  rmap_err (fun _ => CrossCheck "FundsIn field") (extract_uint256_as_u64 data offset).

Record BridgeFundsInRecord : Type := {
  operation_id : bytes;
  gross : Z;
  net : Z;
  bfi_commission : Z;
  dest_chain_id : Z;
  bfi_destination_address : bytes
}.

Definition decode_bridge_funds_in (log : LogEntry) : enclave_result BridgeFundsInRecord :=
  let? operation_id := ok_or (topics log !! BFI_OPERATION_ID_TOPIC)
                         (CrossCheck "BridgeFundsIn log has no operationId topic") in
  if zlen (log_data log) <? BFI_MIN_DATA_LEN then Err (CrossCheck "BridgeFundsIn data too short")
  else
    let? gross := decode_u64_word (log_data log) BFI_AMOUNT_OFF in
    let? net := decode_u64_word (log_data log) BFI_NET_AMOUNT_OFF in
    let? commission := decode_u64_word (log_data log) BFI_TOKEN_COMMISSION_OFF in
    let? dest_chain_id := decode_u64_word (log_data log) BFI_DEST_CHAIN_ID_OFF in
    let? destination_address := decode_abi_string (log_data log) BFI_DEST_ADDRESS_HEAD_OFF in
    Ok {| operation_id := operation_id; gross := gross; net := net; bfi_commission := commission;
          dest_chain_id := dest_chain_id; bfi_destination_address := destination_address |}.

Definition check_eq (got want : Z) : enclave_result unit :=
  if negb (got =? want) then Err (CrossCheck "FundsIn field mismatch") else Ok tt.

(** The filter of [select_unique_log]. *)
Definition log_matches (emitter topic0 : bytes) (id_topic : nat) (id : bytes) (data : option bytes)
    (log : LogEntry) : bool :=
  bool_decide (log_address log = emitter) && bool_decide (head (topics log) = Some topic0)
  && bool_decide (topics log !! id_topic = Some id)
  && match data with None => true | Some d => bool_decide (log_data log = d) end.

Definition select_unique_log (receipt : ReceiptData) (emitter topic0 : bytes) (id_topic : nat)
    (id : bytes) (data : option bytes) : enclave_result LogEntry :=
  match filter (fun log => Is_true (log_matches emitter topic0 id_topic id data log)) (logs receipt) with
  | _ :: _ :: _ => Err (CrossCheck "ambiguous: multiple logs")
  | [log] => Ok log
  | [] => Err (CrossCheck "no such log in tx")
  end.

Section Events.
Context {P : EvmReceiptProvider}.
Variable keccak256 : bytes -> bytes.

Definition event_topic0 (sig : string) : bytes := keccak256 (String.list_byte_of_string sig).
Definition BRIDGE_FUNDS_IN_TOPIC0 : bytes := event_topic0 BRIDGE_FUNDS_IN_SIG.
Definition FUNDS_IN_TOPIC0 : bytes := event_topic0 FUNDS_IN_SIG.

(** ** Receipts and finality *)

Definition fetch_successful_receipt (evm_tx_hash : bytes) : Rpc ReceiptData :=
  rpc? r := rpc_call (fun t => get_transaction_receipt t evm_tx_hash) in
  rpc? receipt := rpc_lift (ok_or r (CrossCheck "FundsIn receipt not found")) in
  if negb (status_success receipt) then rpc_lift (Err (CrossCheck "FundsIn tx reverted"))
  else rpc_ret receipt.

Definition fetch_finality_block (tag : EvmFinalityTag) : Rpc BlockData :=
  rpc? b := rpc_call (fun t => get_block_by_tag t tag) in
  rpc_lift (ok_or b (CrossCheck "FundsIn block unavailable from RPC")).

Definition check_finality_inclusion (tag : EvmFinalityTag) (head_block : BlockData)
    (receipt : ReceiptData) : Rpc unit :=
  if bd_number head_block <? block_number receipt then
    rpc_lift match tag with
    | Safe | Finalized => Err (EvmFinalityPending (block_number receipt) tag (bd_number head_block))
    | Latest => Err (CrossCheck "FundsIn receipt block is above the RPC head")
    end
  else
    rpc? c := rpc_call (fun t => get_block_by_number t (block_number receipt)) in
    rpc? canonical := rpc_lift (ok_or c (CrossCheck "FundsIn canonical block unavailable from RPC")) in
    if negb (bd_number canonical =? block_number receipt) then
      rpc_lift (Err (CrossCheck "FundsIn canonical block number mismatch"))
    else if negb (bool_decide (bd_hash canonical = block_hash receipt)) then
      rpc_lift (Err (CrossCheck "FundsIn receipt block hash does not match canonical block"))
    else if (block_number receipt =? bd_number head_block)
            && negb (bool_decide (block_hash receipt = bd_hash head_block)) then
      rpc_lift (Err (CrossCheck "FundsIn receipt block hash does not match block snapshot"))
    else rpc_ret tt.

Definition check_finality_snapshot (tag : EvmFinalityTag) (initial : BlockData) : Rpc unit :=
  rpc? current := fetch_finality_block tag in
  if bd_number current <? bd_number initial then
    rpc_lift (Err (CrossCheck "FundsIn block regressed during verification"))
  else
    rpc? original :=
      if bd_number current =? bd_number initial then rpc_ret current
      else
        rpc? o := rpc_call (fun t => get_block_by_number t (bd_number initial)) in
        rpc_lift (ok_or o (CrossCheck "FundsIn original block unavailable from RPC")) in
    if negb (bool_decide (original = initial)) then
      rpc_lift (Err (CrossCheck "FundsIn block snapshot changed during verification"))
    else rpc_ret tt.

(** ** The deposit of a request *)

Definition verify_funds_in_event (bridge_contract : bytes) (finality_tag : EvmFinalityTag)
    (evm_tx_hash expected_operation_id : bytes) (expected_gross_amount expected_commission : Z)
    : Rpc bytes :=
  if negb (zlen expected_operation_id =? 32) then
    rpc_lift (Err (CrossCheck "FundsIn expected operationId must be exactly 32 bytes"))
  else
    rpc? head_block := fetch_finality_block finality_tag in
    rpc? receipt := fetch_successful_receipt evm_tx_hash in
    rpc? r := rpc_lift (
      let? log := select_unique_log receipt bridge_contract BRIDGE_FUNDS_IN_TOPIC0
                    BFI_OPERATION_ID_TOPIC expected_operation_id None in
      let? r := decode_bridge_funds_in log in
      if negb (bool_decide (expected_operation_id = operation_id r)) then
        Err (CrossCheck "FundsIn operationId mismatch")
      else
        let? _ := check_eq (gross r) expected_gross_amount in
        let? _ := check_eq (bfi_commission r) expected_commission in
        if gross r <? bfi_commission r then
          Err (CrossCheck "BridgeFundsIn commission exceeds gross amount")
        else
          let max_net := gross r - bfi_commission r in
          if max_net <? net r then
            Err (CrossCheck "BridgeFundsIn netAmount exceeds gross - commission")
          else Ok r) in
    rpc? _ := check_finality_inclusion finality_tag head_block receipt in
    rpc? _ := check_finality_snapshot finality_tag head_block in
    rpc_ret (bfi_destination_address r).

(** ** The lock of a mint *)

Definition decode_funds_in (log : LogEntry) (expected_lock_id : bytes) : enclave_result Z :=
  if negb (bool_decide (head (topics log) = Some FUNDS_IN_TOPIC0)) then
    Err (CrossCheck "log is not a FundsIn event")
  else if negb (zlen (topics log) =? 3) || negb (zlen (log_data log) =? 32) then
    Err (CrossCheck "unexpected FundsIn event layout")
  else
    let? lock_id := expect (topics log !! FUNDS_IN_LOCK_ID_TOPIC) in
    let? amount := extract_uint256_as_u64 (log_data log) 0 in
    if negb (bool_decide (lock_id = expected_lock_id)) then
      Err (CrossCheck "FundsIn lockId mismatch")
    else Ok amount.

Definition RGB_MINT_DEPOSIT_TYPEHASH_STR : string :=
  "UtexoRgbMintDeposit(address bridge,uint256 chainId,address token,uint256 rgbNetwork,uint256 rgbOpId,uint256 netAmount)".

(** The pins of [BridgeConfig] the deposit id is derived from. *)
Record DepositPins : Type := {
  dep_funds_in_contract : bytes;
  dep_chain_id : Z;
  dep_token_contract : bytes
}.

Definition word (value : Z) : bytes := replicate 24 x00 ++ be_split 8 value.
Definition address_word (a : bytes) : bytes := replicate 12 x00 ++ a.

(** The bytes [rgb_mint_deposit_id] hashes. *)
Definition deposit_preimage (cfg : DepositPins) (lock_id : bytes) (minted : Z) : bytes :=
  keccak256 (String.list_byte_of_string RGB_MINT_DEPOSIT_TYPEHASH_STR) ++
  address_word (dep_funds_in_contract cfg) ++ word (dep_chain_id cfg) ++
  address_word (dep_token_contract cfg) ++ word RGB_CHAIN_ID ++ lock_id ++ word minted.

Definition rgb_mint_deposit_id (cfg : DepositPins) (lock_id : bytes) (minted : Z)
    : enclave_result bytes :=
  if bool_decide (dep_token_contract cfg = replicate 20 x00) || (dep_chain_id cfg =? 0) then
    Err (CrossCheck "TOKEN_CONTRACT and EVM_CHAIN_ID must be pinned")
  else if minted =? 0 then Err (CrossCheck "BFA mint mints nothing")
  else Ok (keccak256 (deposit_preimage cfg lock_id minted)).

(** [VerifiedLock] (rgb/validation/bfa.rs). *)
Record VerifiedLock : Type := {
  vl_lock_id : bytes;
  minted : Z;
  vl_operation_id : bytes;
  net_amount : Z
}.

#[export] Instance verified_lock_eq_dec : EqDecision VerifiedLock.
Proof. solve_decision. Defined.

Definition derived_lock (cfg : DepositPins) (lock_id : bytes) (minted : Z)
    : enclave_result VerifiedLock :=
  let? id := rgb_mint_deposit_id cfg lock_id minted in
  Ok {| vl_lock_id := lock_id; minted := minted; vl_operation_id := id; net_amount := minted |}.

Definition verify_rgb_funds_in (funds_in_contract : bytes) (finality_tag : EvmFinalityTag)
    (evm_tx_hash lock_id operation_id : bytes) (minted before_block : Z) : Rpc VerifiedLock :=
  rpc? head_block := fetch_finality_block finality_tag in
  rpc? receipt := fetch_successful_receipt evm_tx_hash in
  rpc? lock := rpc_lift (
    let amount_word := word minted in
    let? log := select_unique_log receipt funds_in_contract FUNDS_IN_TOPIC0 FUNDS_IN_LOCK_ID_TOPIC
                  lock_id (Some amount_word) in
    let? minted := decode_funds_in log lock_id in
    let? bridge_log := select_unique_log receipt funds_in_contract BRIDGE_FUNDS_IN_TOPIC0
                         BFI_OPERATION_ID_TOPIC operation_id None in
    let? r := decode_bridge_funds_in bridge_log in
    if negb (dest_chain_id r =? RGB_CHAIN_ID) then
      Err (CrossCheck "BridgeFundsIn destinationChainId is not the RGB network id")
    else if before_block <=? block_number receipt then
      Err (CrossCheck "FundsIn block is not before the mint's beforeBlock")
    else Ok {| vl_lock_id := lock_id; minted := minted; vl_operation_id := EvmEvents.operation_id r;
               net_amount := net r |}) in
  rpc? _ := check_finality_inclusion finality_tag head_block receipt in
  rpc? _ := check_finality_snapshot finality_tag head_block in
  rpc_ret lock.

Definition check_node_chain_id (pinned : Z) : Rpc Z :=
  rpc? node := rpc_call get_chain_id in
  if negb (node =? pinned) then
    rpc_lift (Err (CrossCheck "EVM RPC node reports another chain id"))
  else rpc_ret node.
End Events.
