(* ===== verification/EvmEventsProps.v ===== *)
(** * What a verified deposit proves

    The word and string decoders read exactly the ABI encoding, the log filters
    find the one log there is, and with a node that reports a hash-linked chain
    the receipt's block stays on that chain for the whole verification. *)

From stdpp Require Import base numbers list strings.
From S2P Require Import Prelude Errors Lengths EvmRelease EvmEvents.

#[local] Open Scope list_scope.
#[local] Open Scope Z_scope.

(** ** The monad *)

Lemma rpc_bind_ok {A C} (c : Rpc A) (k : A -> Rpc C) t x :
  rpc_bind c k t = Ok x <-> exists a t', c t = Ok (a, t') /\ k a t' = Ok x.
Proof.
  unfold rpc_bind. rewrite rbind_ok. split.
  - intros ([a t'] & H1 & H2). by exists a, t'.
  - intros (a & t' & H1 & H2). by exists (a, t').
Qed.

Lemma rpc_lift_ok {A} (r : enclave_result A) t a t' :
  rpc_lift r t = Ok (a, t') <-> r = Ok a /\ t' = t.
Proof.
  unfold rpc_lift. rewrite rbind_ok. split.
  - intros (b & Hb & [= <- <-]). done.
  - intros [-> ->]. by exists a.
Qed.

Lemma rpc_call_ok {A} (f : nat -> enclave_result A) t a t' :
  rpc_call f t = Ok (a, t') <-> f t = Ok a /\ t' = S t.
Proof.
  unfold rpc_call. rewrite rbind_ok. split.
  - intros (b & Hb & [= <- <-]). done.
  - intros [-> ->]. by exists a.
Qed.

Ltac inv_rpc H :=
  repeat match type of H with
  | rpc_bind _ _ _ = Ok _ =>
      let a := fresh "a" in let t := fresh "t" in let H1 := fresh "H" in
      apply rpc_bind_ok in H as (a & t & H1 & H); inv_rpc H1
  | rpc_lift _ _ = Ok _ => apply rpc_lift_ok in H as [H ->]
  | rpc_call _ _ = Ok _ => apply rpc_call_ok in H as [H ->]
  | rpc_ret _ _ = Ok _ => injection H as <- <-
  | ok_or _ _ = Ok _ => apply ok_or_ok in H as ->
  end.

(** ** Words *)

Lemma word_length v : length (word v) = 32%nat.
Proof. unfold word. by rewrite length_app, length_replicate, be_split_length. Qed.

Lemma zeros_spec (l : bytes) : existsb (fun b => negb (b2z b =? 0)) l = false <-> l = replicate (length l) x00.
Proof.
  induction l as [|b l IH]; cbn; [done|]. rewrite orb_false_iff, IH, negb_false_iff, Z.eqb_eq. split.
  - intros [H1 H2]. f_equal; [|done]. apply b2z_inj. by rewrite H1.
  - intros [= -> H2]. done.
Qed.

Lemma word_inv (slot : bytes) v :
  length slot = 32%nat ->
  take 24 slot = replicate 24 x00 /\ be_combine (drop 24 slot) = v <-> slot = word v /\ is_u64 v.
Proof.
  intros Hl. assert (Hd : length (drop 24 slot) = 8%nat) by (rewrite length_drop; lia). split.
  - intros [H1 H2]. rewrite <- (take_drop 24 slot) at 1. unfold word. split.
    + rewrite H1. f_equal. pose proof (be_split_combine (drop 24 slot)) as Hs. rewrite Hd, H2 in Hs. done.
    + pose proof (be_combine_bound (drop 24 slot)) as Hb. unfold zlen in Hb. rewrite Hd, H2 in Hb. done.
  - intros [-> Hv]. unfold word. split.
    + rewrite take_app_length'; [done|]. by rewrite length_replicate.
    + rewrite drop_app_length'; [|by rewrite length_replicate]. by apply be_combine_split.
Qed.

Lemma slice_length (data : bytes) lo n :
  0 <= lo -> 0 <= n -> lo + n <= zlen data -> length (slice lo (lo + n) data) = Z.to_nat n.
Proof. intros H1 H2 H3. unfold slice, zlen in *. rewrite length_take, length_drop. lia. Qed.

Lemma extract_iff data offset v :
  0 <= offset ->
  extract_uint256_as_u64 data offset = Ok v <->
  offset + 32 <= zlen data /\ slice offset (offset + 32) data = word v /\ is_u64 v.
Proof.
  intros Ho. unfold extract_uint256_as_u64. destruct (zlen data <? offset + 32) eqn:E; zbool.
  { split; [done|lia]. }
  assert (Hl : length (slice offset (offset + 32) data) = 32%nat) by (rewrite slice_length; lia).
  assert (Ht : length (take 24 (slice offset (offset + 32) data)) = 24%nat) by (rewrite length_take; lia).
  rewrite <- (word_inv _ v Hl). destruct (existsb _ _) eqn:Ez.
  - split; [done|]. intros (_ & Hz & _). exfalso. rewrite Hz in Ez. done.
  - apply zeros_spec in Ez. rewrite Ht in Ez. split.
    + intros [= H]. done.
    + intros (_ & _ & H). by f_equal.
Qed.

Lemma decode_word_iff (f : EnclaveError -> EnclaveError) data offset v :
  0 <= offset ->
  rmap_err f (extract_uint256_as_u64 data offset) = Ok v <->
  offset + 32 <= zlen data /\ slice offset (offset + 32) data = word v /\ is_u64 v.
Proof.
  intros Ho. rewrite <- extract_iff by done.
  destruct (extract_uint256_as_u64 data offset); cbn; split; congruence.
Qed.

(** ** Strings and the event *)

Lemma decode_abi_string_iff data h s :
  0 <= h -> zlen data <= u64_max ->
  decode_abi_string data h = Ok s <->
  exists offset, is_u64 offset /\ h + 32 <= zlen data /\ slice h (h + 32) data = word offset /\
    slice offset (offset + 32) data = word (zlen s) /\ zlen s <= BFI_MAX_DEST_ADDRESS_LEN /\
    offset + 32 + zlen s <= zlen data /\ slice (offset + 32) (offset + 32 + zlen s) data = s /\
    from_utf8 s = true.
Proof.
  intros Hh Hd. unfold decode_abi_string.
  rewrite rbind_ok. split.
  - intros (o & Ho & H). apply decode_word_iff in Ho as (Hl & Hs & Hu); [|done].
    destruct (u64_max <? o + 32); [done|]. destruct (zlen data <? o + 32) eqn:E1; [done|].
    apply rbind_ok in H as (n & Hn & H). apply decode_word_iff in Hn as (_ & Hns & Hnu); [|apply Hu].
    destruct (_ <? n) eqn:E2; [done|]. destruct (u64_max <? _); [done|].
    destruct (zlen data <? o + 32 + n) eqn:E3; [done|]. destruct (from_utf8 _) eqn:E4; [|done].
    injection H as <-. zbool. destruct Hu, Hnu.
    assert (En : zlen (slice (o + 32) (o + 32 + n) data) = n).
    { unfold zlen at 1. rewrite slice_length; lia. }
    exists o. rewrite En. unfold is_u64. split_and!; (done || lia).
  - intros (o & Hu & Hl & Hs & Hn & Hcap & Hend & Hsl & Hutf). pose proof (zlen_nonneg s) as Hz.
    destruct Hu as [Hu1 Hu2]. exists o. split; [by apply decode_word_iff|].
    rewrite (proj2 (Z.ltb_ge _ _)), (proj2 (Z.ltb_ge _ _)) by lia.
    rewrite (proj2 (decode_word_iff _ data o (zlen s) Hu1)).
    + cbn [rbind]. rewrite !(proj2 (Z.ltb_ge _ _)) by lia. by rewrite Hsl, Hutf.
    + unfold is_u64, BFI_MAX_DEST_ADDRESS_LEN in *. split_and!; (done || lia).
Qed.

Lemma slice_concat (L : list bytes) i c lo hi :
  L !! i = Some c -> lo = zlen (concat (take i L)) -> hi = lo + zlen c -> slice lo hi (concat L) = c.
Proof.
  intros Hi -> ->. rewrite <- (take_drop_middle L i c Hi) at 3. rewrite concat_app. cbn [concat].
  unfold slice, zlen. rewrite Nat2Z.id, drop_app_length.
  replace (Z.to_nat _) with (length c) by lia. by rewrite take_app_length.
Qed.

(** Zero bytes up to the next word. *)
Definition padding (bs : bytes) : bytes := replicate (Z.to_nat ((- zlen bs) mod 32)) x00.

(** The data of a [BridgeFundsIn] event, as Solidity encodes it. *)
Definition bridge_funds_in_chunks (nonce gross net commission native src dst : Z)
    (addr settlement : bytes) : list bytes :=
  [be_split 32 nonce; word gross; word net; word commission; be_split 32 native; be_split 32 src;
   word dst; word 288; word (320 + zlen addr + zlen (padding addr)); word (zlen addr); addr;
   padding addr; word (zlen settlement); settlement; padding settlement].

Definition bridge_funds_in_data nonce gross net commission native src dst addr settlement : bytes :=
  concat (bridge_funds_in_chunks nonce gross net commission native src dst addr settlement).

Lemma decode_bridge_funds_in_iff log r :
  zlen (log_data log) <= u64_max ->
  decode_bridge_funds_in log = Ok r <->
  topics log !! BFI_OPERATION_ID_TOPIC = Some (operation_id r) /\
  BFI_MIN_DATA_LEN <= zlen (log_data log) /\
  slice 32 64 (log_data log) = word (gross r) /\ is_u64 (gross r) /\
  slice 64 96 (log_data log) = word (net r) /\ is_u64 (net r) /\
  slice 96 128 (log_data log) = word (bfi_commission r) /\ is_u64 (bfi_commission r) /\
  slice 192 224 (log_data log) = word (EvmEvents.dest_chain_id r) /\ is_u64 (EvmEvents.dest_chain_id r) /\
  decode_abi_string (log_data log) 224 = Ok (bfi_destination_address r).
Proof.
  intros Hd. unfold decode_bridge_funds_in, decode_u64_word. rewrite rbind_ok. split.
  - intros (id & Hid & H). apply ok_or_ok in Hid. destruct (_ <? _) eqn:E; [done|]. zbool.
    apply rbind_ok in H as (g & Hg & H). apply rbind_ok in H as (n & Hn & H).
    apply rbind_ok in H as (c & Hc & H). apply rbind_ok in H as (d & Hdc & H).
    apply rbind_ok in H as (s & Hs & H). injection H as <-. cbn.
    apply decode_word_iff in Hg as (_ & ? & ?), Hn as (_ & ? & ?), Hc as (_ & ? & ?), Hdc as (_ & ? & ?);
      try done.
  - intros (Hid & Hlen & Hg & Hg' & Hn & Hn' & Hc & Hc' & Hdc & Hdc' & Hs).
    exists (operation_id r). split; [by apply ok_or_ok|]. unfold BFI_MIN_DATA_LEN in *.
    rewrite (proj2 (Z.ltb_ge _ _)) by lia.
    unfold BFI_AMOUNT_OFF, BFI_NET_AMOUNT_OFF, BFI_TOKEN_COMMISSION_OFF, BFI_DEST_CHAIN_ID_OFF.
    rewrite (proj2 (decode_word_iff _ _ 32 (gross r) ltac:(done))) by (split_and!; (done || lia)).
    rewrite (proj2 (decode_word_iff _ _ 64 (net r) ltac:(done))) by (split_and!; (done || lia)).
    rewrite (proj2 (decode_word_iff _ _ 96 (bfi_commission r) ltac:(done))) by (split_and!; (done || lia)).
    rewrite (proj2 (decode_word_iff _ _ 192 (EvmEvents.dest_chain_id r) ltac:(done)))
      by (split_and!; (done || lia)).
    cbn [rbind]. unfold BFI_DEST_ADDRESS_HEAD_OFF. rewrite Hs. by destruct r.
Qed.

(** Positions in the encoding of an event. *)
Lemma zlen_word v : zlen (word v) = 32.
Proof. unfold zlen. by rewrite word_length. Qed.

Lemma zlen_be_split n v : zlen (be_split n v) = Z.of_nat n.
Proof. unfold zlen. by rewrite be_split_length. Qed.

(** The decoder of [BridgeFundsIn] reads back the ABI encoding of an
    event: the id from its topic, gross, net, commission and destination chain
    from their words, and the address string from the tail its offset word
    names, whatever the other fields and the settlement data are. *)
Theorem bridge_funds_in_roundtrip nonce gross net commission native src dst addr settlement
    (address : bytes) (topic0 id : bytes) (more : list bytes) :
  is_u64 gross -> is_u64 net -> is_u64 commission -> is_u64 dst ->
  zlen addr <= BFI_MAX_DEST_ADDRESS_LEN -> from_utf8 addr = true ->
  zlen (bridge_funds_in_data nonce gross net commission native src dst addr settlement) <= u64_max ->
  decode_bridge_funds_in {|
    log_address := address; topics := topic0 :: id :: more;
    log_data := bridge_funds_in_data nonce gross net commission native src dst addr settlement |} =
  Ok {| operation_id := id; gross := gross; net := net; bfi_commission := commission;
        EvmEvents.dest_chain_id := dst; bfi_destination_address := addr |}.
Proof.
  intros Hg Hn Hc Hd Ha Hutf Hmax. apply decode_bridge_funds_in_iff; [done|]. cbn [topics log_data].
  assert (Hlen : 320 + zlen addr <= zlen (bridge_funds_in_data nonce gross net commission native src dst addr settlement)).
  { unfold bridge_funds_in_data, bridge_funds_in_chunks. cbn [concat].
    rewrite !zlen_app, !zlen_word, !zlen_be_split. pose proof (zlen_nonneg (padding addr)).
    pose proof (zlen_nonneg settlement). pose proof (zlen_nonneg (padding settlement)). rewrite ?zlen_nil. lia. }
  pose proof (zlen_nonneg addr). unfold BFI_MIN_DATA_LEN, bridge_funds_in_data in *.
  cbn [EvmEvents.operation_id EvmEvents.gross EvmEvents.net bfi_commission EvmEvents.dest_chain_id
       bfi_destination_address].
  split_and!; try (done || lia).
  apply decode_abi_string_iff; [done|done|]. exists 288. split_and!; try (done || lia).
  apply (slice_concat _ 10); [reflexivity| |]; unfold bridge_funds_in_chunks;
    cbn [take concat]; rewrite ?zlen_app, ?zlen_word, ?zlen_be_split, ?zlen_nil; lia.
Qed.

Lemma bridge_funds_in_roundtrip_witness :
  decode_bridge_funds_in {|
    log_address := []; topics := [[x01]; [x02]];
    log_data := bridge_funds_in_data 1 500 490 10 0 42161 RGB_CHAIN_ID [x72; x67; x62] [x09] |} =
  Ok {| operation_id := [x02]; gross := 500; net := 490; bfi_commission := 10;
        EvmEvents.dest_chain_id := RGB_CHAIN_ID; bfi_destination_address := [x72; x67; x62] |}.
Proof. by apply bridge_funds_in_roundtrip; vm_compute. Defined.

(** ** Logs *)

(** [log] is in the receipt and no other log of it matches. *)
Definition only_log (p : LogEntry -> bool) (l : list LogEntry) (log : LogEntry) : Prop :=
  p log = true /\ exists pre post, l = pre ++ log :: post /\
    Forall (fun x => p x = false) pre /\ Forall (fun x => p x = false) post.

Lemma filter_none (p : LogEntry -> bool) l :
  filter (fun x => Is_true (p x)) l = [] <-> Forall (fun x => p x = false) l.
Proof.
  induction l as [|a l IH]; [done|]. rewrite filter_cons, Forall_cons, <- IH.
  destruct (p a); [rewrite decide_True by done|rewrite decide_False by (cbn; tauto)]; split; try done.
  - by intros [? _].
  - by intros [_ ?].
Qed.

Lemma filter_single (p : LogEntry -> bool) l log :
  filter (fun x => Is_true (p x)) l = [log] <-> only_log p l log.
Proof.
  unfold only_log. induction l as [|a l IH].
  { split; [done|]. intros (_ & pre & post & H & _). by destruct pre. }
  rewrite filter_cons. destruct (p a) eqn:Ea; cbn [Is_true]; [rewrite decide_True by done|rewrite decide_False by tauto].
  - split.
    + intros [= -> H]. split; [done|]. exists [], l. split; [done|]. split; [constructor|by apply filter_none].
    + intros (Hp & pre & post & E & Hpre & Hpost). destruct pre as [|b pre].
      * injection E as -> ->. f_equal. by apply filter_none.
      * injection E as -> ->. apply Forall_cons in Hpre as [Hb _]. congruence.
  - rewrite IH. split.
    + intros (Hp & pre & post & -> & H1 & H2). split; [done|]. exists (a :: pre), post.
      split_and!; try done. by constructor.
    + intros (Hp & pre & post & E & Hpre & Hpost). split; [done|]. destruct pre as [|b pre].
      * injection E as -> ->. congruence.
      * injection E as -> ->. apply Forall_cons in Hpre as [_ Hpre]. by exists pre, post.
Qed.

Lemma select_unique_log_iff receipt emitter topic0 id_topic id data log :
  select_unique_log receipt emitter topic0 id_topic id data = Ok log <->
  only_log (log_matches emitter topic0 id_topic id data) (logs receipt) log.
Proof.
  rewrite <- filter_single. unfold select_unique_log.
  destruct (filter _ _) as [|a [|b l]]; split; congruence.
Qed.

Lemma log_matches_spec emitter topic0 id_topic id data log :
  log_matches emitter topic0 id_topic id data log = true <->
  log_address log = emitter /\ head (topics log) = Some topic0 /\ topics log !! id_topic = Some id /\
  (forall d, data = Some d -> log_data log = d).
Proof.
  unfold log_matches. rewrite !andb_true_iff, !bool_decide_eq_true. split.
  - intros [[[H1 H2] H3] H4]. split_and!; try done. intros d ->. by apply bool_decide_eq_true in H4.
  - intros (H1 & H2 & H3 & H4). split_and!; try done. destruct data as [d|]; [|done].
    by apply bool_decide_eq_true, H4.
Qed.

(** ** Finality *)

Section Finality.
Context {P : EvmReceiptProvider}.
Variable keccak256 : bytes -> bytes.

(** A node that reports its canonical chain: [chain t n] is the hash at height
    [n] when call [t] is made.  A block hash fixes the blocks below it, and a
    block that left the chain during a verification does not come back to it. *)
Record honest_node (chain : nat -> Z -> option bytes) : Prop := {
  hn_number t n b : get_block_by_number t n = Ok (Some b) -> bd_number b = n -> chain t n = Some (bd_hash b);
  hn_tag t tag b : get_block_by_tag t tag = Ok (Some b) -> chain t (bd_number b) = Some (bd_hash b);
  hn_linked t u h x : chain t h = Some x -> chain u h = Some x ->
    forall k, k <= h -> chain t k = chain u k;
  hn_no_return t u v h x : (t <= u <= v)%nat ->
    chain t h = Some x -> chain v h = Some x -> chain u h = Some x
}.

Lemma fetch_finality_block_ok tag t b t' :
  fetch_finality_block tag t = Ok (b, t') -> get_block_by_tag t tag = Ok (Some b) /\ t' = S t.
Proof. unfold fetch_finality_block. intros H. by inv_rpc H. Qed.

Lemma fetch_successful_receipt_ok h t r t' :
  fetch_successful_receipt h t = Ok (r, t') ->
  get_transaction_receipt t h = Ok (Some r) /\ status_success r = true /\ t' = S t.
Proof.
  unfold fetch_successful_receipt. intros H. inv_rpc H.
  destruct (status_success _) eqn:E; cbn [negb] in H; by inv_rpc H.
Qed.

Lemma check_finality_inclusion_ok tag b r t x t' :
  check_finality_inclusion tag b r t = Ok (x, t') ->
  block_number r <= bd_number b /\ t' = S t /\
  exists c, get_block_by_number t (block_number r) = Ok (Some c) /\ bd_number c = block_number r /\
    bd_hash c = block_hash r.
Proof.
  unfold check_finality_inclusion. destruct (_ <? _) eqn:E.
  { intros H. apply rpc_lift_ok in H as [H _]. by destruct tag. }
  intros H. inv_rpc H. destruct (bd_number _ =? _) eqn:E1; [|by inv_rpc H].
  case_bool_decide as E2; [|by inv_rpc H]. destruct (_ && _) eqn:E3; [by inv_rpc H|].
  cbn [negb] in H. inv_rpc H.
  zbool. split_and!; [lia|done|]. eauto.
Qed.

Lemma check_finality_snapshot_ok chain tag b t x t' :
  honest_node chain ->
  check_finality_snapshot tag b t = Ok (x, t') ->
  exists v, (t <= v)%nat /\ t' = S v /\ chain v (bd_number b) = Some (bd_hash b).
Proof.
  intros Hn. unfold check_finality_snapshot. intros H. apply rpc_bind_ok in H as (c & t1 & Hc & H).
  apply fetch_finality_block_ok in Hc as [Hc ->]. destruct (_ <? _) eqn:E; [by inv_rpc H|]. zbool.
  apply rpc_bind_ok in H as (o & t2 & Ho & H). case_bool_decide as Eo; [|by inv_rpc H]. cbn [negb] in H.
  inv_rpc H. subst o.
  destruct (_ =? _) eqn:E1.
  - inv_rpc Ho. exists t. split_and!; [done|done|]. by eapply hn_tag.
  - inv_rpc Ho. exists (S t). split_and!; [lia|done|]. by eapply hn_number.
Qed.

(** The receipt's block is canonical from the first call to the last. *)
Lemma finality_window chain tag b r t0 t1 x t2 y t3 :
  honest_node chain -> get_block_by_tag t0 tag = Ok (Some b) -> (t0 <= t1)%nat ->
  check_finality_inclusion tag b r t1 = Ok (x, t2) ->
  check_finality_snapshot tag b t2 = Ok (y, t3) ->
  forall u, (t0 <= u < t3)%nat -> chain u (block_number r) = Some (block_hash r).
Proof.
  intros Hn Hb H01 Hi Hs u Hu. apply check_finality_inclusion_ok in Hi as (Hle & -> & c & Hc & Hcn & Hch).
  apply (check_finality_snapshot_ok chain) in Hs as (v & Hv & -> & Hcv); [|done].
  assert (H0 : chain t0 (bd_number b) = Some (bd_hash b)) by by eapply hn_tag.
  assert (Hall : forall w, (t0 <= w <= v)%nat -> chain w (bd_number b) = Some (bd_hash b))
    by (intros w Hw; by apply (hn_no_return _ Hn t0 w v)).
  rewrite (hn_linked _ Hn u t1 (bd_number b) (bd_hash b)); [|apply Hall; lia|apply Hall; lia|done].
  rewrite <- Hch. by eapply hn_number.
Qed.

(** The successful receipt of [tx], canonical at the calls [t .. t'). *)
Definition deposit_receipt (chain : nat -> Z -> option bytes) (tx : bytes) (t t' : nat) (r : ReceiptData) : Prop :=
  (t < t')%nat /\ get_transaction_receipt (S t) tx = Ok (Some r) /\ status_success r = true /\
  forall u, (t <= u < t')%nat -> chain u (block_number r) = Some (block_hash r).

(** The logs of the bridge [contract] that make a lock: one [FundsIn] of this
    lock id and amount, one [BridgeFundsIn] of this operation id to RGB. *)
Definition lock_logs (contract lock_id op_id : bytes) (minted : Z) (r : ReceiptData) (l : VerifiedLock) : Prop :=
  vl_lock_id l = lock_id /\ EvmEvents.minted l = minted /\ vl_operation_id l = op_id /\
  (exists log, only_log (log_matches contract (FUNDS_IN_TOPIC0 keccak256) 2 lock_id (Some (word minted)))
     (logs r) log) /\
  exists log b, only_log (log_matches contract (BRIDGE_FUNDS_IN_TOPIC0 keccak256) 1 op_id None) (logs r) log /\
    decode_bridge_funds_in log = Ok b /\ EvmEvents.dest_chain_id b = RGB_CHAIN_ID /\ net_amount l = net b.

Lemma decode_funds_in_amount log lock_id m :
  is_u64 m -> log_data log = word m -> decode_funds_in keccak256 log lock_id <> Panic /\
  forall v, decode_funds_in keccak256 log lock_id = Ok v -> v = m.
Proof.
  intros Hm Hd. assert (E : extract_uint256_as_u64 (log_data log) 0 = Ok m).
  { apply extract_iff; [done|]. rewrite Hd, zlen_word. split_and!; try done; apply Hm. }
  unfold decode_funds_in. case_bool_decide; [|done]. destruct (negb (zlen (topics log) =? 3) || _) eqn:Et; [done|].
  cbn [negb]. zbool. destruct Et as [Et _].
  destruct (topics log !! FUNDS_IN_LOCK_ID_TOPIC) as [l|] eqn:El.
  - cbn [expect rbind]. rewrite E. cbn [rbind]. case_bool_decide; cbn [negb]; [|done].
    split; [done|]. by intros v [= ->].
  - apply lookup_ge_None in El. unfold zlen in Et. unfold FUNDS_IN_LOCK_ID_TOPIC in El. lia.
Qed.

Lemma bridge_operation_id log contract op r :
  log_matches contract (BRIDGE_FUNDS_IN_TOPIC0 keccak256) 1 op None log = true ->
  decode_bridge_funds_in log = Ok r -> operation_id r = op.
Proof.
  intros Hm H. apply log_matches_spec in Hm as (_ & _ & Hid & _). unfold decode_bridge_funds_in in H.
  apply rbind_ok in H as (id & Hi & H). apply ok_or_ok in Hi. unfold BFI_OPERATION_ID_TOPIC in Hi. rewrite Hid in Hi. injection Hi as ->.
  destruct (_ <? _); [done|]. do 5 apply rbind_ok in H as (? & _ & H). by injection H as <-.
Qed.

Lemma verify_rgb_funds_in_ok chain contract tag tx lock_id op m before t l t' :
  honest_node chain -> is_u64 m ->
  verify_rgb_funds_in keccak256 contract tag tx lock_id op m before t = Ok (l, t') ->
  exists r, deposit_receipt chain tx t t' r /\ block_number r < before /\
    lock_logs contract lock_id op m r l.
Proof.
  intros Hn Hm H. unfold verify_rgb_funds_in in H. apply rpc_bind_ok in H as (b & t1 & Hb & H).
  apply fetch_finality_block_ok in Hb as [Hb ->]. apply rpc_bind_ok in H as (r & t2 & Hr & H).
  apply fetch_successful_receipt_ok in Hr as (Hr & Hs & ->). apply rpc_bind_ok in H as (l' & t3 & Hl & H).
  apply rpc_lift_ok in Hl as [Hl ->]. apply rpc_bind_ok in H as (x & t4 & Hi & H).
  apply rpc_bind_ok in H as (y & t5 & Hsn & H). injection H as -> ->.
  apply rbind_ok in Hl as (log & Hlog & Hl). apply rbind_ok in Hl as (m' & Hm' & Hl).
  apply rbind_ok in Hl as (blog & Hblog & Hl). apply rbind_ok in Hl as (bfi & Hbfi & Hl).
  destruct (EvmEvents.dest_chain_id bfi =? _) eqn:Ec; [|done]. cbn [negb] in Hl.
  destruct (before <=? _) eqn:Eb; [done|]. injection Hl as <-. zbool.
  apply select_unique_log_iff in Hlog, Hblog.
  pose proof (proj1 Hlog) as Hmatch. apply log_matches_spec in Hmatch as (_ & _ & _ & Hd).
  apply (proj2 (decode_funds_in_amount log lock_id m Hm (Hd _ eq_refl))) in Hm' as ->.
  rewrite (bridge_operation_id _ _ _ _ (proj1 Hblog) Hbfi).
  exists r. split; [split_and!; try done|split; [done|]].
  - apply check_finality_inclusion_ok in Hi as (_ & -> & _).
    destruct (check_finality_snapshot_ok chain _ _ _ _ _ Hn Hsn) as (v & Hv & -> & _). lia.
  - apply (finality_window chain _ _ _ _ _ _ _ _ _ Hn Hb) with (2 := Hi) (3 := Hsn). lia.
  - split_and!; try done; [by exists log|by exists blog, bfi].
Qed.

(** The one [BridgeFundsIn] of the bridge [contract] with this id, decoded. *)
Definition deposit_log (contract op : bytes) (r : ReceiptData) (b : BridgeFundsInRecord) : Prop :=
  zlen op = 32 /\ operation_id b = op /\
  exists log, only_log (log_matches contract (BRIDGE_FUNDS_IN_TOPIC0 keccak256) 1 op None) (logs r) log /\
    decode_bridge_funds_in log = Ok b.

Lemma verify_funds_in_event_ok chain contract tag tx op amount commission t addr t' :
  honest_node chain ->
  verify_funds_in_event keccak256 contract tag tx op amount commission t = Ok (addr, t') ->
  exists r b, deposit_receipt chain tx t t' r /\ deposit_log contract op r b /\
    addr = bfi_destination_address b /\ gross b = amount /\ bfi_commission b = commission /\
    commission <= amount /\ net b <= amount - commission.
Proof.
  intros Hn H. unfold verify_funds_in_event in H. destruct (zlen op =? 32) eqn:El; [|by inv_rpc H].
  cbn [negb] in H. apply rpc_bind_ok in H as (b & t1 & Hb & H).
  apply fetch_finality_block_ok in Hb as [Hb ->]. apply rpc_bind_ok in H as (r & t2 & Hr & H).
  apply fetch_successful_receipt_ok in Hr as (Hr & Hs & ->). apply rpc_bind_ok in H as (bfi & t3 & Hl & H).
  apply rpc_lift_ok in Hl as [Hl ->]. apply rpc_bind_ok in H as (x & t4 & Hi & H).
  apply rpc_bind_ok in H as (y & t5 & Hsn & H). injection H as <- ->.
  apply rbind_ok in Hl as (log & Hlog & Hl). apply rbind_ok in Hl as (bfi' & Hbfi & Hl).
  case_bool_decide as Eid; [|done]. cbn [negb] in Hl. apply rbind_ok in Hl as ([] & Hg & Hl).
  apply rbind_ok in Hl as ([] & Hc & Hl). unfold check_eq in Hg, Hc.
  destruct (gross bfi' =? amount) eqn:Eg; [|done]. destruct (bfi_commission bfi' =? commission) eqn:Ec; [|done].
  destruct (_ <? bfi_commission bfi') eqn:Egc; [done|]. destruct (_ <? net bfi') eqn:En; [done|].
  injection Hl as ->. zbool. apply select_unique_log_iff in Hlog.
  exists r, bfi. split; [split_and!; try done|split; [|split_and!; (done || lia)]].
  - apply check_finality_inclusion_ok in Hi as (_ & -> & _).
    destruct (check_finality_snapshot_ok chain _ _ _ _ _ Hn Hsn) as (v & Hv & -> & _). lia.
  - apply (finality_window chain _ _ _ _ _ _ _ _ _ Hn Hb) with (2 := Hi) (3 := Hsn). lia.
  - split_and!; try done. by exists log.
Qed.
End Finality.

(** ** The deposit id *)

Lemma deposit_preimage_inj keccak256 cfg l1 l2 m1 m2 :
  zlen l1 = zlen l2 -> is_u64 m1 -> is_u64 m2 ->
  deposit_preimage keccak256 cfg l1 m1 = deposit_preimage keccak256 cfg l2 m2 -> l1 = l2 /\ m1 = m2.
Proof.
  intros Hl H1 H2 H. unfold deposit_preimage in H. do 5 apply app_inv_head in H.
  apply app_inj_1 in H as [-> H]; [|unfold zlen in Hl; lia]. split; [done|]. unfold word in H.
  apply app_inv_head in H. rewrite <- (be_combine_split 8 m1), <- (be_combine_split 8 m2) by done.
  by rewrite H.
Qed.

Lemma derived_lock_ok keccak256 cfg lock_id m l :
  derived_lock keccak256 cfg lock_id m = Ok l ->
  l = {| vl_lock_id := lock_id; minted := m;
         vl_operation_id := keccak256 (deposit_preimage keccak256 cfg lock_id m); net_amount := m |} /\ m <> 0.
Proof.
  unfold derived_lock, rgb_mint_deposit_id. destruct (_ || _); [done|].
  destruct (m =? 0) eqn:E; [done|]. intros [= <-]. zbool. done.
Qed.

(** ** A node for examples *)

Definition sample_keccak (bs : bytes) : bytes := z2b (zlen bs) :: z2b (be_combine (drop 180 bs)) :: replicate 30 x00.

Definition sample_contract : bytes := replicate 20 x0b.

(** One deposit of 500 with a commission of 10 to the lock id [lock]. *)
Definition sample_receipt (lock op : bytes) (m : Z) : ReceiptData := {|
  status_success := true; block_number := 90; block_hash := replicate 32 x5a;
  logs := [
    {| log_address := sample_contract; topics := [FUNDS_IN_TOPIC0 sample_keccak; replicate 32 x01; lock];
       log_data := word m |};
    {| log_address := sample_contract; topics := [BRIDGE_FUNDS_IN_TOPIC0 sample_keccak; op];
       log_data := bridge_funds_in_data 1 500 m 10 0 42161 RGB_CHAIN_ID [] [] |}] |}.

Definition sample_hash (n : Z) : bytes := if n =? 90 then replicate 32 x5a else [z2b n].

Definition sample_provider (lock op : bytes) (m : Z) : EvmReceiptProvider := {|
  get_transaction_receipt _ tx := Ok (if bool_decide (tx = replicate 32 x77) then Some (sample_receipt lock op m) else None);
  get_block_by_tag _ _ := Ok (Some {| bd_number := 100; bd_hash := sample_hash 100 |});
  get_block_by_number _ n := Ok (if n <=? 100 then Some {| bd_number := n; bd_hash := sample_hash n |} else None);
  get_chain_id _ := Ok 42161
|}.

Definition sample_chain (_ : nat) (n : Z) : option bytes := Some (sample_hash n).

Lemma sample_honest lock op m : honest_node (P := sample_provider lock op m) sample_chain.
Proof.
  split; try done.
  - intros t n b. cbn. destruct (n <=? 100); [|done]. by intros [= <-] _.
  - intros t tag b. cbn. by intros [= <-].
Qed.

(** What the deposit check of a request proves.  When the node reports a
    hash-linked chain, a request passes only if the one [BridgeFundsIn] log with
    its operation id that the pinned bridge emitted in the successful transaction
    [tx] has the claimed gross amount and commission and a net of at most their
    difference, and the receipt's block is on the canonical chain at every call
    from the first reading of the head to the last. *)
Theorem verify_funds_in_event_sound {P : EvmReceiptProvider} keccak256 chain contract tag tx op amount
    commission (t : nat) addr (t' : nat) :
  honest_node chain ->
  verify_funds_in_event keccak256 contract tag tx op amount commission t = Ok (addr, t') ->
  exists r b, get_transaction_receipt (S t) tx = Ok (Some r) /\ status_success r = true /\
    (forall u, (t <= u < t')%nat -> chain u (block_number r) = Some (block_hash r)) /\
    deposit_log keccak256 contract op r b /\ addr = bfi_destination_address b /\
    gross b = amount /\ bfi_commission b = commission /\
    commission <= amount /\ net b <= amount - commission.
Proof.
  intros Hn H. destruct (verify_funds_in_event_ok _ _ _ _ _ _ _ _ _ _ _ Hn H)
    as (r & b & (_ & H1 & H2 & H3) & H4). by exists r, b.
Qed.

Lemma verify_funds_in_event_sound_witness :
  let P := sample_provider (replicate 32 x0a) (replicate 32 x02) 490 in
  exists r b, @get_transaction_receipt P 1 (replicate 32 x77) = Ok (Some r) /\ gross b = 500 /\ net b <= 490.
Proof.
  intros P.
  assert (H : verify_funds_in_event sample_keccak sample_contract Finalized (replicate 32 x77)
                (replicate 32 x02) 500 10 0%nat = Ok ([], 4%nat)) by by vm_compute.
  destruct (verify_funds_in_event_sound _ _ _ _ _ _ _ _ _ _ _ (sample_honest _ _ _) H)
    as (r & b & H1 & _ & _ & _ & _ & H2 & _ & _ & H3). by exists r, b.
Defined.
