(* ===== verification/RgbMint.v ===== *)
(** * Mint and refill rules
      (src/enclave/src/networks/rgb/psbt_validation/mint.rs, refill.rs, flow.rs,
       invoice.rs and route.rs)

    The rules M0 to M8 on a mint, G1 and RR6 to RR13 on a rights refill, and the
    two entry points that run them on a PSBT with its fascias. *)

From stdpp Require Import base numbers list gmap strings.
From S2P Require Import Prelude Errors PsbtTypes PsbtSize PsbtKeys PsbtPolicy RgbCommit EvmEvents.

#[local] Open Scope list_scope.
#[local] Open Scope Z_scope.

(** ** Mint (mint.rs) *)

Definition MINT_INPUTS : Z := 1.
Definition MINT_MAX_INPUTS : Z := 16.
Definition MINT_MAX_OUTPUTS : Z := 16.

Definition assert_mint_shape (psbt : Psbt) : enclave_result unit :=
  if MINT_MAX_INPUTS <? zlen (tx_input (unsigned_tx psbt)) then
    Err (CrossCheck "mint PSBT has too many inputs")
  else if MINT_MAX_OUTPUTS <? zlen (tx_output (unsigned_tx psbt)) then
    Err (CrossCheck "mint PSBT has too many outputs")
  else Ok tt.

Inductive MintRecipient : Type :=
| Blinded (seal : string)
| Witness (vout : Z).

Definition blinded_seals (r : MintRecipient) : list string :=
  match r with Blinded seal => [seal] | Witness _ => [] end.

Record MintFacts : Type := {
  right : Opout;
  mf_opid : bytes;
  lock_id : bytes;
  issued : Z;
  before_block : Z;
  recipient : MintRecipient
}.

(** [flow::assert_group_amount] and [flow::is_signing_transition]. *)
Definition assert_group_amount (minted source_amount source_commission : Z) : enclave_result unit :=
  let net_credited := sat_sub source_amount source_commission in
  if negb (minted =? net_credited) then Err (CrossCheck "mint-RGB amount mismatch") else Ok tt.

Section Mint.
Context {R : RgbStd} {F : BfaSchema} {K : Bip32} {B : Bitcoin}.

Definition is_signing_transition (t : Z) : bool := t =? TS_MINT.

Definition assert_mint_type (t : Transition) : enclave_result unit :=
  if negb (is_signing_transition (transition_type t)) then
    Err (CrossCheck "mint-RGB PSBT commits another transition type")
  else Ok tt.

Definition assert_asset_assignments_only (t : Transition) : enclave_result unit :=
  match assignments t !! OS_MINT with
  | Some _ => Err (CrossCheck "mint passes mintRight outputs on")
  | None =>
      if negb (bool_decide (dom (assignments t) = ({[OS_ASSET]} : gset Z))) then
        Err (CrossCheck "a mint assigns asset units only")
      else Ok tt
  end.

(** [before_block]; the name is taken by the field of [MintFacts]. *)
Definition read_before_block (t : Transition) : enclave_result Z :=
  let value := default [] (metadata t !! MS_BEFORE_BLOCK) in
  if negb (zlen value =? 8) then Err (CrossCheck "mint beforeBlock is not 8 bytes")
  else Ok (le_combine value).

Definition mint_globals (t : Transition) : enclave_result (Z * Z) :=
  if negb (bool_decide (dom (globals t) = ({[GS_ISSUED_SUPPLY]} : gset Z)))
     || negb (bool_decide (dom (metadata t) = ({[MS_BEFORE_BLOCK]} : gset Z))) then
    Err (CrossCheck "a mint carries issuedSupply and beforeBlock only")
  else
    let? value := single_global 8 (globals t) GS_ISSUED_SUPPLY in
    let issued := default 0 (le_combine <$> value) in
    if issued =? 0 then Err (CrossCheck "mint issuedSupply is 0")
    else
      let? b := read_before_block t in
      Ok (issued, b).

Definition one_asset_leg (t : Transition) : enclave_result (Z * MintRecipient) :=
  match default [] (as_fungible <$> assignments t !! OS_ASSET) with
  | [(seal, units)] =>
      let? recipient :=
        match seal with
        | SealConcealed secret => Ok (Blinded (seal_to_string secret))
        | SealRevealed _ =>
            let? vout := witness_vout (output_seal seal) in
            Ok (Witness vout)
        end in
      Ok (units, recipient)
  | _ => Err (CrossCheck "mint pays exactly one asset leg, to the depositor's seal")
  end.

Definition mint_facts (committed : Committed) : enclave_result MintFacts :=
  let t := transition committed in
  let? _ := assert_mint_type t in
  let? right := single_right_input t in
  let? _ := assert_asset_assignments_only t in
  let? (issued, before_block) := mint_globals t in
  let? (units, recipient) := one_asset_leg t in
  if negb (units =? issued) then Err (CrossCheck "mint pays other units than its issuedSupply")
  else
    Ok {| right := right; mf_opid := opid committed;
          lock_id := lock_id_with (opid committed) (c_txid committed);
          issued := issued; before_block := before_block; recipient := recipient |}.

Definition assert_mints_net_deposit (mint : MintFacts) (amount commission : Z) : enclave_result unit :=
  assert_group_amount (issued mint) amount commission.

Definition assert_witness_output (psbt : Psbt) (keys : KeyManager K) (vout witness_sat : Z)
    : enclave_result unit :=
  let index := Z.to_nat vout in
  match tx_output (unsigned_tx psbt) !! index with
  | None => Err (CrossCheck "mint pays its units to a vout its tx does not have")
  | Some txout =>
      if is_op_return (script_pubkey txout) then
        Err (CrossCheck "mint pays its units to the OP_RETURN")
      else
        let our_inputs := self_controlled_input_scripts_scoped psbt keys None in
        if output_is_self_derived psbt index keys None || output_is_self_owned psbt index our_inputs then
          Err (CrossCheck "mint pays its units to an output of this enclave")
        else if negb (value txout =? witness_sat) then
          Err (CrossCheck "a witness mint pays exactly MINT_WITNESS_SAT")
        else Ok tt
  end.

Definition assert_mint_sats (psbt : Psbt) (keys : KeyManager K) (recipient : MintRecipient)
    (witness_sat : Z) : enclave_result unit :=
  match recipient with
  | Blinded _ => assert_keeps_all_sats psbt keys
  | Witness vout =>
      let? _ := assert_witness_output psbt keys vout witness_sat in
      match unowned_output_sats psbt ∅ keys with
      | Some sats =>
          if sats =? witness_sat then Ok tt
          else Err (CrossCheck "mint PSBT pays other outputs this enclave does not derive")
      | None => Err (CrossCheck "mint PSBT output total overflows u64")
      end
  end.

(** ** Refill (refill.rs) *)

Definition MAX_REFILL_FEE_INPUTS : Z := 1.
Definition MIN_REFILL_RIGHTS : Z := 2.
Definition MAX_REFILL_RIGHTS : Z := 255.

Definition assert_refill_input_count (psbt : Psbt) : enclave_result unit :=
  if 1 + MAX_REFILL_FEE_INPUTS <? zlen (tx_input (unsigned_tx psbt)) then
    Err (CrossCheck "rights-refill PSBT spends too many inputs")
  else Ok tt.

Definition refill_colored_inputs (psbt : Psbt) (keys : KeyManager K) : enclave_result (list nat) :=
  let jobs := find_controlled_taproot_inputs psbt keys in
  let colored := fee_key_path_inputs_of jobs Colored in
  let? _ := assert_only_colored_inputs psbt colored in
  Ok colored.

Definition refill_gate (psbt : Psbt) (keys : KeyManager K) : enclave_result unit :=
  let? _ := assert_refill_input_count psbt in
  let? colored := refill_colored_inputs psbt keys in
  let? _ := assert_keeps_all_sats psbt keys in
  check_psbt_fee psbt colored.

Definition assert_propagate (t : Transition) : enclave_result unit :=
  if negb (transition_type t =? TS_PROPAGATE) then
    Err (CrossCheck "rights refill requires a propagate transition")
  else Ok tt.

Definition assert_rights_only (t : Transition) : enclave_result unit :=
  let empty := bool_decide (globals t = ∅) && bool_decide (metadata t = ∅) in
  if negb (bool_decide (dom (assignments t) = ({[OS_MINT]} : gset Z))) || negb empty then
    Err (CrossCheck "a refill moves rights only")
  else
    match assignments t !! OS_MINT with
    | Some (Declarative _) => Ok tt
    | _ => Err (CrossCheck "rights refill makes mintRights that carry state")
    end.

(** The loop of [assert_refill_rights]: the vouts so far, a sorted set. *)
Fixpoint refill_vouts (rights : list OutputSeal) (vouts : gset Z) : enclave_result (gset Z) :=
  match rights with
  | [] => Ok vouts
  | seal :: rights =>
      let? vout := witness_vout seal in
      if bool_decide (vout ∈ vouts) then Err (CrossCheck "rights refill puts two rights on one vout")
      else refill_vouts rights ({[vout]} ∪ vouts)
  end.

Definition assert_refill_rights (rights : list OutputSeal) : enclave_result (list Z) :=
  if negb ((MIN_REFILL_RIGHTS <=? zlen rights) && (zlen rights <=? MAX_REFILL_RIGHTS)) then
    Err (CrossCheck "a refill makes 2 to 255 rights")
  else
    let? vouts := refill_vouts rights ∅ in
    Ok (elements vouts).

Definition refill_rights (committed : Committed) : enclave_result (Opout * list Z) :=
  let t := transition committed in
  let? _ := assert_propagate t in
  let? right := single_right_input t in
  let? _ := assert_rights_only t in
  let rights := default [] ((fun typed => map output_seal (seals typed)) <$> assignments t !! OS_MINT) in
  let? vouts := assert_refill_rights rights in
  Ok (right, vouts).

Definition assert_refill_rights_owned (psbt : Psbt) (vouts : list Z) (keys : KeyManager K)
    : enclave_result unit :=
  let? _ := rmapM (fun vout =>
    if negb (output_is_self_derived psbt (Z.to_nat vout) keys (Some Colored)) then
      Err (CrossCheck "rights refill gives a right away")
    else Ok tt) vouts in
  Ok tt.

(** ** Entry points (rgb/route.rs) *)

(** The pins of [BridgeConfig] the mint direction reads. *)
Record MintPins : Type := {
  mp_chain_id : Z;
  mp_bridge_contract : bytes;
  mp_funds_in_contract : bytes;
  mp_token_contract : bytes;
  mp_rgb_asset_id : string;
  mp_is_configured : bool;
  mp_finality_tag : EvmFinalityTag;
  mint_witness_sat : Z
}.

Record RgbDestination : Type := {
  psbt_bytes : bytes;
  asset_id : string;
  fascia : bytes;
  parent_fascia : bytes
}.

Context {C : PsbtCodec}.

(** F7; the key-path resolver of the handler reads the keys. *)
Definition mint_inputs (psbt : Psbt) (keys : KeyManager K) : enclave_result (list nat) :=
  if negb (zlen (tx_input (unsigned_tx psbt)) =? MINT_INPUTS) then
    Err (CrossCheck "a mint spends its right alone")
  else
    let colored := fee_key_path_inputs_scoped psbt keys Colored in
    let? _ := assert_only_colored_inputs psbt colored in
    Ok colored.

(** [validate_destination_anchor] with the callbacks of [handle_sign]: the
    Colored inputs, rule M8 and the deposit binder [bind]. *)
Definition validate_destination_anchor (cfg : MintPins) (keys : KeyManager K)
    (bind : MintFacts -> Rpc unit) (d : RgbDestination) (source_amount source_commission : Z)
    : Rpc (Z * list string) :=
  rpc? (psbt, mint) := rpc_lift (
    let? psbt := parse_psbt_shape (psbt_bytes d) in
    let? _ := assert_mint_shape psbt in
    let? _ := assert_txid_and_sighash_fixed psbt in
    let? (pin, committed) :=
      pinned_commitment psbt (fascia d) (asset_id d) (mp_rgb_asset_id cfg) (mp_is_configured cfg) in
    let? mint := mint_facts committed in
    let? _ := assert_mints_net_deposit mint source_amount source_commission in
    let? colored := mint_inputs psbt keys in
    let? _ := right_input psbt (parent_fascia d) (right mint) pin in
    let? _ := check_psbt_fee psbt colored in
    let? _ := assert_mint_sats psbt keys (recipient mint) (mint_witness_sat cfg) in
    Ok (psbt, mint)) in
  rpc? _ := bind mint in
  rpc_ret (issued mint, blinded_seals (recipient mint)).

Record SignRightsRefillRequest : Type := {
  rr_psbt_bytes : bytes;
  rr_asset_id : string;
  rr_fascia : bytes;
  rr_parent_fascia : bytes
}.

Definition validate_rights_refill (req : SignRightsRefillRequest) (psbt : Psbt) (cfg : MintPins)
    : enclave_result (list Z) :=
  let? _ := assert_txid_and_sighash_fixed psbt in
  let? (pin, committed) :=
    pinned_commitment psbt (rr_fascia req) (rr_asset_id req) (mp_rgb_asset_id cfg) (mp_is_configured cfg) in
  let? (right, vouts) := refill_rights committed in
  let? _ := right_input psbt (rr_parent_fascia req) right pin in
  Ok vouts.
End Mint.

(** ** Invoices (invoice.rs) *)

(** [Beneficiary] of a parsed invoice. *)
Inductive Beneficiary : Type := BlindedSeal (seal : string) | WitnessVout.

Definition MAX_INVOICE_LEN : Z := BFI_MAX_DEST_ADDRESS_LEN.

(** The characters with the Unicode property White_Space, in UTF-8. *)
Definition white_space : list bytes :=
  [[x09]; [x0a]; [x0b]; [x0c]; [x0d]; [x20]; [xc2; x85]; [xc2; xa0]; [xe1; x9a; x80];
   [xe2; x80; x80]; [xe2; x80; x81]; [xe2; x80; x82]; [xe2; x80; x83]; [xe2; x80; x84];
   [xe2; x80; x85]; [xe2; x80; x86]; [xe2; x80; x87]; [xe2; x80; x88]; [xe2; x80; x89];
   [xe2; x80; x8a]; [xe2; x80; xa8]; [xe2; x80; xa9]; [xe2; x80; xaf]; [xe2; x81; x9f];
   [xe3; x80; x80]].

(** Strip characters of [set] from the front. *)
Fixpoint strip (set : list bytes) (fuel : nat) (bs : bytes) : bytes :=
  match fuel with
  | O => bs
  | S fuel =>
      match list_find (fun c => bool_decide (take (length c) bs = c)) set with
      | Some (_, c) => strip set fuel (drop (length c) bs)
      | None => bs
      end
  end.

(** [str::trim]. *)
Definition trim (bs : bytes) : bytes :=
  let bs := strip white_space (length bs) bs in
  rev (strip (map (@rev byte) white_space) (length bs) (rev bs)).

Section Invoice.
(** [RgbInvoice::from_str] of the rgb-invoicing crate. *)
Variable invoice_from_str : bytes -> option Beneficiary.

Definition parse_authorized_recipient (destination_address : bytes) : enclave_result string :=
  let trimmed := trim destination_address in
  if bool_decide (trimmed = []) then Err (CrossCheck "BridgeFundsIn.destinationAddress is empty")
  else if MAX_INVOICE_LEN <? zlen trimmed then
    Err (CrossCheck "BridgeFundsIn.destinationAddress is too long")
  else
    let? invoice := ok_or (invoice_from_str trimmed)
      (CrossCheck "BridgeFundsIn.destinationAddress is not a valid RGB invoice") in
    match invoice with
    | BlindedSeal seal => Ok seal
    | WitnessVout => Err (CrossCheck "BridgeFundsIn.destinationAddress names a witness-vout beneficiary")
    end.
End Invoice.

Definition assert_recipient_authorized (seals : list string) (expected : string) : enclave_result unit :=
  match seals with
  | [only] =>
      if negb (bool_decide (only = expected)) then Err (CrossCheck "send-RGB recipient seal mismatch")
      else Ok tt
  | _ => Err (CrossCheck "exactly one confidential recipient leg is authorised by the deposit")
  end.
