(* ===== verification/RgbMintProps.v ===== *)
(** * What the mint and refill rules guarantee *)

From stdpp Require Import base numbers list gmap strings.
From S2P Require Import Prelude Errors Lengths PsbtTypes PsbtSize PsbtKeys PsbtSample PsbtPolicy PsbtPolicyProps.
From S2P Require Import RgbCommit RgbSample RgbCommitProps EvmEvents RgbMint.

#[local] Open Scope list_scope.
#[local] Open Scope Z_scope.

Section MintProps.
Context {R : RgbStd} {F : BfaSchema} {K : Bip32} {B : Bitcoin} {L : BitcoinLaws B}.

(** A mint: one right in, its [issuedSupply] out on one seal, nothing else. *)
Record mints (c : Committed) (m : MintFacts) : Prop := {
  mt_type : transition_type (transition c) = TS_MINT;
  mt_inputs : t_inputs (transition c) = [right m];
  mt_right : ty (right m) = OS_MINT;
  mt_assigns : dom (assignments (transition c)) = ({[OS_ASSET]} : gset Z);
  mt_leg : exists seal, assignments (transition c) !! OS_ASSET = Some (Fungible [(seal, issued m)]) /\
    match recipient m with
    | Blinded s => exists secret, seal = SealConcealed secret /\ s = seal_to_string secret
    | Witness vout => exists g, seal = SealRevealed g /\ seal_txid g = None /\ seal_vout g = vout
    end;
  mt_globals : exists value, globals (transition c) = {[ GS_ISSUED_SUPPLY := [value] ]} /\
    zlen value = 8 /\ issued m = le_combine value;
  mt_issued : 1 <= issued m < 2 ^ 64;
  mt_metadata : exists value, metadata (transition c) = {[ MS_BEFORE_BLOCK := value ]} /\
    zlen value = 8 /\ before_block m = le_combine value;
  mt_lock : lock_id m = lock_id_with (opid c) (c_txid c)
}.

Lemma dom_single {A} (m : gmap Z A) k x : dom m = ({[k]} : gset Z) -> m !! k = Some x -> m = {[ k := x ]}.
Proof.
  intros Hd Hx. apply map_eq. intros i. destruct (decide (i = k)) as [->|Hne].
  - by rewrite lookup_singleton_eq.
  - rewrite lookup_singleton_ne by done. apply not_elem_of_dom. rewrite Hd. set_solver.
Qed.

Lemma dom_single_lookup {A} (m : gmap Z A) k : dom m = ({[k]} : gset Z) -> exists x, m !! k = Some x.
Proof. intros Hd. apply elem_of_dom. rewrite Hd. set_solver. Qed.

Lemma mint_globals_ok t issued b :
  mint_globals t = Ok (issued, b) ->
  (exists value, globals t = {[ GS_ISSUED_SUPPLY := [value] ]} /\ zlen value = 8 /\ issued = le_combine value) /\
  1 <= issued < 2 ^ 64 /\
  exists value, metadata t = {[ MS_BEFORE_BLOCK := value ]} /\ zlen value = 8 /\ b = le_combine value.
Proof.
  unfold mint_globals. case_bool_decide as Hg; [|done]. case_bool_decide as Hm; [|done]. cbn [negb orb].
  intros H. apply rbind_ok in H as (v & Hv & H). destruct (dom_single_lookup _ _ Hg) as [vs Hvs].
  unfold single_global in Hv. rewrite Hvs in Hv. destruct vs as [|value [|]]; try done.
  destruct (zlen value =? 8) eqn:E8; [|done]. cbn [negb] in Hv. injection Hv as <-. cbn [fmap option_fmap option_map] in H.
  rewrite default_some in H. destruct (le_combine value =? 0) eqn:E0; [done|].
  apply rbind_ok in H as (bb & Hb & H). injection H as <- <-. zbool.
  pose proof (le_combine_bound value) as Hbound. rewrite E8 in Hbound. change (256 ^ 8) with (2 ^ 64) in Hbound.
  split; [exists value; split; [by apply dom_single|done]|]. split; [lia|].
  unfold read_before_block in Hb. destruct (dom_single_lookup _ _ Hm) as [w Hw]. rewrite Hw, default_some in Hb.
  destruct (zlen w =? 8) eqn:E8'; [|done]. injection Hb as <-. zbool. exists w.
  split; [by apply dom_single|done].
Qed.

Lemma one_asset_leg_ok t units r :
  one_asset_leg t = Ok (units, r) ->
  exists seal, assignments t !! OS_ASSET = Some (Fungible [(seal, units)]) /\
    match r with
    | Blinded s => exists secret, seal = SealConcealed secret /\ s = seal_to_string secret
    | Witness vout => exists g, seal = SealRevealed g /\ seal_txid g = None /\ seal_vout g = vout
    end.
Proof.
  unfold one_asset_leg. destruct (assignments t !! OS_ASSET) as [typed|]; [|done].
  cbn [fmap option_fmap option_map]. rewrite default_some.
  destruct typed as [|legs|]; [done| |done]. cbn [as_fungible]. destruct legs as [|[seal u] [|]]; try done.
  intros H. apply rbind_ok in H as (q & Hq & H). injection H as <- <-. exists seal. split; [done|].
  destruct seal as [g|secret].
  - apply rbind_ok in Hq as (v & Hv & Hq). injection Hq as <-.
    apply witness_vout_ok in Hv as (s & [= ->] & H1 & H2). by exists s.
  - injection Hq as <-. by exists secret.
Qed.

Lemma mint_facts_ok c m : mint_facts c = Ok m -> mints c m.
Proof.
  unfold mint_facts. intros H. apply rbind_ok in H as ([] & Ht & H).
  apply rbind_ok in H as (o & Ho & H). apply single_right_input_ok in Ho as [Ho1 Ho2].
  apply rbind_ok in H as ([] & Ha & H). apply rbind_ok in H as ([i b] & Hg & H).
  apply rbind_ok in H as ([u r] & Hl & H). destruct (u =? i) eqn:E; [|done]. injection H as <-. zbool. subst u.
  apply mint_globals_ok in Hg as (G1 & G2 & G3). apply one_asset_leg_ok in Hl.
  unfold assert_mint_type, is_signing_transition in Ht. destruct (_ =? TS_MINT) eqn:Et; [|done]. zbool.
  unfold assert_asset_assignments_only in Ha. destruct (assignments _ !! OS_MINT); [done|].
  case_bool_decide; [|done]. by split.
Qed.

(** ** Satoshis *)

(** Every output is ours by derivation or worth nothing. *)
Definition kept (psbt : Psbt) (keys : KeyManager K) (except : option Z) : Prop :=
  forall i o, tx_output (unsigned_tx psbt) !! i = Some o -> except <> Some (Z.of_nat i) ->
    output_is_self_derived psbt i keys None = true \/ value o = 0.

Lemma assert_keeps_all_sats_ok psbt keys :
  psbt_amounts psbt -> assert_keeps_all_sats psbt keys = Ok tt -> kept psbt keys None.
Proof.
  intros Ha H. unfold assert_keeps_all_sats in H.
  destruct (unowned_output_sats psbt ∅ keys) as [u|] eqn:Eu; [|done].
  destruct (u =? 0) eqn:E; [|done]. zbool. subst u.
  apply unowned_nothing_exempt in Eu; [|done]. intros i o Hi _.
  destruct (foreign_zero psbt keys _ 0 i o (proj1 Ha) (eq_sym Eu) Hi) as [Hd|Hz]; [by left|by right].
Qed.

Lemma assert_witness_output_ok psbt keys vout sat :
  assert_witness_output psbt keys vout sat = Ok tt ->
  exists o, tx_output (unsigned_tx psbt) !! Z.to_nat vout = Some o /\ value o = sat /\
    is_op_return (script_pubkey o) = false /\
    output_is_self_derived psbt (Z.to_nat vout) keys None = false /\
    script_pubkey o ∉ self_controlled_input_scripts_scoped psbt keys None.
Proof.
  unfold assert_witness_output. destruct (tx_output _ !! _) as [o|] eqn:Eo; [|done].
  destruct (is_op_return _) eqn:Er; [done|]. destruct (_ || _) eqn:Ed; [done|].
  destruct (value o =? sat) eqn:Ev; [|done]. intros _. apply orb_false_iff in Ed as [Ed1 Ed2].
  unfold output_is_self_owned in Ed2. rewrite Eo in Ed2. apply bool_decide_eq_false in Ed2. zbool.
  by exists o.
Qed.

Definition mint_sats_ok (psbt : Psbt) (keys : KeyManager K) (r : MintRecipient) (witness_sat : Z) : Prop :=
  match r with
  | Blinded _ => kept psbt keys None
  | Witness vout =>
      (exists o, tx_output (unsigned_tx psbt) !! Z.to_nat vout = Some o /\ value o = witness_sat /\
         is_op_return (script_pubkey o) = false /\
         output_is_self_derived psbt (Z.to_nat vout) keys None = false /\
         script_pubkey o ∉ self_controlled_input_scripts_scoped psbt keys None) /\
      kept psbt keys (Some (Z.of_nat (Z.to_nat vout)))
  end.

Lemma assert_mint_sats_ok psbt keys r sat :
  psbt_amounts psbt -> assert_mint_sats psbt keys r sat = Ok tt -> mint_sats_ok psbt keys r sat.
Proof.
  intros Ha H. destruct r as [s|vout]; cbn in *; [by apply assert_keeps_all_sats_ok|].
  apply rbind_ok in H as ([] & Hw & H). apply assert_witness_output_ok in Hw as Hw'. split; [done|].
  destruct Hw' as (o & Ho & Hv & _ & Hd & _).
  destruct (unowned_output_sats psbt ∅ keys) as [u|] eqn:Eu; [|done].
  destruct (u =? sat) eqn:E; [|done]. zbool. subst u. apply unowned_nothing_exempt in Eu; [|done].
  intros i o' Hi Hne.
  destruct (foreign_single psbt keys _ 0 (Z.to_nat vout) o (proj1 Ha) Ho Hd ltac:(congruence) i o') as [?|?];
    [congruence|done|by left|by right].
Qed.

(** ** Refills *)

Lemma refill_vouts_ok rights : forall vouts r,
  refill_vouts rights vouts = Ok r ->
  exists vs, Forall2 (fun seal v => witness_vout seal = Ok v) rights vs /\ NoDup vs /\
    (forall v, v ∈ vs -> v ∉ vouts) /\ r = list_to_set vs ∪ vouts.
Proof.
  induction rights as [|seal rights IH]; intros vouts r H; cbn [refill_vouts] in H.
  { injection H as <-. exists []. split_and!; [constructor|constructor|set_solver|set_solver]. }
  apply rbind_ok in H as (v & Hv & H). case_bool_decide as Hin; [done|].
  destruct (IH _ _ H) as (vs & H1 & H2 & H3 & ->). exists (v :: vs). split_and!.
  - by constructor.
  - apply NoDup_cons. split; [|done]. intros Hvs. apply H3 in Hvs. set_solver.
  - intros w Hw. apply elem_of_cons in Hw as [->|Hw]; [done|]. specialize (H3 w Hw). set_solver.
  - cbn [list_to_set]. set_solver.
Qed.

Lemma assert_refill_rights_ok rights vouts :
  assert_refill_rights rights = Ok vouts ->
  2 <= zlen rights <= 255 /\ NoDup vouts /\ zlen vouts = zlen rights /\
  forall seal, seal ∈ rights -> exists v, v ∈ vouts /\ witness_vout seal = Ok v.
Proof.
  unfold assert_refill_rights. destruct (_ && _) eqn:E; [|done]. cbn [negb]. intros H.
  apply rbind_ok in H as (r & Hr & H). injection H as <-. apply refill_vouts_ok in Hr as (vs & H1 & H2 & _ & ->).
  apply andb_true_iff in E as [E1 E2]. unfold MIN_REFILL_RIGHTS, MAX_REFILL_RIGHTS in *. zbool.
  assert (Hp : elements (list_to_set vs ∪ ∅ : gset Z) ≡ₚ vs).
  { rewrite union_empty_r_L. by apply elements_list_to_set. }
  split; [done|]. split; [apply NoDup_elements|]. split.
  - unfold zlen. rewrite Hp. by rewrite (Forall2_length _ _ _ H1).
  - intros seal Hs. apply list_elem_of_lookup in Hs as [i Hi].
    destruct (Forall2_lookup_l _ _ _ _ _ H1 Hi) as (v & Hv & Hw). exists v. split; [|done].
    rewrite Hp. apply list_elem_of_lookup. by exists i.
Qed.

(** A refill: one right in, 2 to 255 rights out on distinct outputs of its own
    transaction, nothing else. *)
Record refills (c : Committed) (right : Opout) (vouts : list Z) : Prop := {
  rf_type : transition_type (transition c) = TS_PROPAGATE;
  rf_inputs : t_inputs (transition c) = [right];
  rf_right : ty right = OS_MINT;
  rf_only : exists legs, assignments (transition c) = {[ OS_MINT := Declarative legs ]} /\
    2 <= zlen legs <= 255 /\ zlen vouts = zlen legs /\
    forall seal, seal ∈ legs -> exists v, v ∈ vouts /\ witness_vout (output_seal seal) = Ok v;
  rf_distinct : NoDup vouts;
  rf_no_globals : globals (transition c) = ∅ /\ metadata (transition c) = ∅
}.

Lemma refill_rights_ok c right vouts : refill_rights c = Ok (right, vouts) -> refills c right vouts.
Proof.
  unfold refill_rights. intros H. apply rbind_ok in H as ([] & Hp & H).
  apply rbind_ok in H as (o & Ho & H). apply single_right_input_ok in Ho as [Ho1 Ho2].
  apply rbind_ok in H as ([] & Hr & H). apply rbind_ok in H as (vs & Hv & H). injection H as -> ->.
  unfold assert_propagate in Hp. destruct (_ =? TS_PROPAGATE) eqn:Et; [|done]. zbool.
  unfold assert_rights_only in Hr. case_bool_decide as Hd; [|done].
  case_bool_decide as Hg; [|done]. case_bool_decide as Hm; [|done]. cbn [negb andb orb] in Hr.
  destruct (assignments _ !! OS_MINT) as [[legs| |]|] eqn:Ea; try done.
  cbn [fmap option_fmap option_map seals] in Hv. rewrite default_some in Hv.
  apply assert_refill_rights_ok in Hv as (H1 & H2 & H3 & H4). unfold zlen in H1, H3. rewrite length_map in H1, H3.
  split; try done. exists legs. unfold zlen. split_and!; [by apply dom_single|lia|lia|lia|].
  intros seal Hs. apply H4. by apply list_elem_of_fmap_2.
Qed.

Lemma assert_only_colored_ok psbt colored :
  assert_only_colored_inputs psbt colored = Ok tt ->
  forall i, (i < length (inputs psbt))%nat -> i ∈ colored.
Proof.
  unfold assert_only_colored_inputs. destruct (forallb _ _) eqn:E; [|done]. intros _ i Hi.
  rewrite forallb_forall in E. specialize (E i).
  apply (bool_decide_eq_true (i ∈ colored)), E, list_elem_of_In, elem_of_seq. lia.
Qed.

Lemma refill_gate_ok psbt keys :
  psbt_amounts psbt -> refill_gate psbt keys = Ok tt ->
  zlen (tx_input (unsigned_tx psbt)) <= 2 /\
  (forall i, (i < length (inputs psbt))%nat -> i ∈ fee_key_path_inputs_scoped psbt keys Colored) /\
  kept psbt keys None /\
  exists fee, psbt_fee psbt = Some fee /\ fee_ok psbt fee.
Proof.
  intros Ha H. unfold refill_gate in H. apply rbind_ok in H as ([] & Hc & H).
  apply rbind_ok in H as (colored & Hcol & H). apply rbind_ok in H as ([] & Hs & H).
  unfold assert_refill_input_count in Hc. destruct (_ <? _) eqn:E; [done|]. zbool.
  unfold refill_colored_inputs in Hcol. apply rbind_ok in Hcol as ([] & Ho & Hcol). injection Hcol as <-.
  apply check_psbt_fee_ok in H as (fee & v & Hf & Hok & _ & _).
  split; [unfold MAX_REFILL_FEE_INPUTS in E; lia|]. split; [by apply assert_only_colored_ok|].
  split; [by apply assert_keeps_all_sats_ok|]. by exists fee.
Qed.

Lemma assert_refill_rights_owned_ok psbt vouts keys :
  assert_refill_rights_owned psbt vouts keys = Ok tt ->
  Forall (fun v => output_is_self_derived psbt (Z.to_nat v) keys (Some Colored) = true) vouts.
Proof.
  unfold assert_refill_rights_owned. intros H. apply rbind_ok in H as (us & Hu & _).
  apply rmapM_ok in Hu. induction Hu as [|v u vs us Hv _ IH]; constructor; [|done].
  destruct (output_is_self_derived _ _ _ _); [done|]. discriminate.
Qed.
End MintProps.

(** Rule M8.  A blinded mint that passes pays nothing outside the enclave:
    every output is one it derives or carries 0 sat.  A witness mint pays exactly
    the pinned amount to the recipient's output, which exists, is spendable and
    is not the enclave's, and nothing else leaves. *)
Theorem mint_sats_accounted {K : Bip32} {B : Bitcoin} (psbt : Psbt) (keys : KeyManager K)
    (r : MintRecipient) (witness_sat : Z) :
  psbt_amounts psbt -> assert_mint_sats psbt keys r witness_sat = Ok tt ->
  match r with
  | Blinded _ => foreign_value psbt keys 0 (tx_output (unsigned_tx psbt)) = 0 /\ kept psbt keys None
  | Witness vout =>
      foreign_value psbt keys 0 (tx_output (unsigned_tx psbt)) = witness_sat /\
      exists o, tx_output (unsigned_tx psbt) !! Z.to_nat vout = Some o /\ value o = witness_sat /\
        is_op_return (script_pubkey o) = false /\
        script_pubkey o ∉ self_controlled_input_scripts_scoped psbt keys None /\
        forall i o', tx_output (unsigned_tx psbt) !! i = Some o' -> i <> Z.to_nat vout ->
          output_is_self_derived psbt i keys None = true \/ value o' = 0
  end.
Proof.
  intros Ha H. pose proof (assert_mint_sats_ok _ _ _ _ Ha H) as Hs. destruct r as [s|vout]; cbn in H, Hs.
  - split; [|done]. unfold assert_keeps_all_sats in H.
    destruct (unowned_output_sats psbt ∅ keys) as [u|] eqn:Eu; [|done].
    destruct (u =? 0) eqn:E; [|done]. zbool. subst u. by apply unowned_nothing_exempt in Eu.
  - apply rbind_ok in H as ([] & _ & H). destruct Hs as [(o & H1 & H2 & H3 & _ & H5) Hk].
    destruct (unowned_output_sats psbt ∅ keys) as [u|] eqn:Eu; [|done].
    destruct (u =? witness_sat) eqn:E; [|done]. zbool. subst u. apply unowned_nothing_exempt in Eu; [|done].
    split; [done|]. exists o. split_and!; try done. intros i o' Hi Hne. apply Hk; [done|].
    intros [= Hq]. lia.
Qed.

Lemma mint_sats_accounted_witness :
  assert_mint_sats witness_mint_psbt sample_keys (Witness 2) 600 = Ok tt /\
  foreign_value witness_mint_psbt sample_keys 0 (tx_output (unsigned_tx witness_mint_psbt)) = 600.
Proof.
  assert (H : assert_mint_sats witness_mint_psbt sample_keys (Witness 2) 600 = Ok tt) by by vm_compute.
  split; [exact H|].
  assert (Ha : psbt_amounts witness_mint_psbt) by by repeat constructor.
  exact (proj1 (mint_sats_accounted witness_mint_psbt sample_keys (Witness 2) 600 Ha H)).
Defined.
