(* ===== verification/MintSign.v ===== *)
(** * Signing a mint (src/enclave/src/server/sign.rs, bfa.rs, signers.rs,
      rights_refill.rs and src/enclave/src/networks/route.rs)

    [handle_sign] of a mint signer, the build of the EVM to RGB direction alone:
    role check, cached reply, replay precheck, deposit check, mint rules, route
    amounts, recipient bind, deadline, reservation, signature, cache.  Then
    [handle_sign_rights_refill].

    [keys] is what [with_keys] gives on this enclave: the keys once it is
    initialized, the refusal before.  [launch] is [ctx.launch()], with whether
    the EVM RPC client was built.  The clock readings are a [Clock]. *)

From stdpp Require Import base numbers list gmap strings.
From S2P Require Import Prelude Errors ReplayGuard ResultCache RefillRate.
From S2P Require Import PsbtTypes PsbtSize PsbtKeys PsbtPolicy RgbCommit EvmRelease EvmEvents RgbMint.

#[local] Open Scope list_scope.
#[local] Open Scope Z_scope.

Record EvmSource : Type := {
  tx_hash : bytes;
  commission : Z;
  funds_in_operation_id : bytes
}.

(** The networks of a [SignRequest]; a mint signer reads no field of the others. *)
Inductive SourceNetwork : Type := SEvm (s : EvmSource) | SRgb | SCcd.
Inductive DestinationNetwork : Type := DRgb (d : RgbDestination) | DEvm.

(** [sr_encoded] is the request as protobuf bytes. *)
Record SignRequest : Type := {
  sr_amount : Z;
  source_network : option SourceNetwork;
  destination_network : option DestinationNetwork;
  sr_encoded : bytes
}.

(** A signed PSBT and how many inputs were signed. *)
Abbreviation SignedPsbtResponse := (bytes * Z)%type (only parsing).

Record SignState : Type := {
  op_replay_guard : NonceReplayGuard;
  signed_results : SignedResultCache (EnclaveResponse := SignedPsbtResponse)
}.

Record Clock : Type := {
  at_lookup : Z;
  at_deposit : Z;
  at_binding : Z;
  at_signing : Z;
  at_reserve : Z;
  at_store : Z
}.

(** ** Route proofs (networks/route.rs) *)

Definition validate_amount_covers_destination (source_amount destination_amount : Z)
    : enclave_result unit :=
  if source_amount <? destination_amount then Err (CrossCheck "amount mismatch") else Ok tt.

Definition validate_route_proofs (source : SourceNetwork) (destination : DestinationNetwork)
    (source_amount destination_amount : Z) : enclave_result unit :=
  match source, destination with
  | SEvm _, DRgb _ => validate_amount_covers_destination source_amount destination_amount
  | SRgb, DEvm => validate_amount_covers_destination source_amount destination_amount
  | _, _ => Err (InvalidRequest "unsupported source/destination network pair")
  end.

Definition wrong_signer_role : EnclaveError := InvalidRequest "wrong signer role".

(** [check_signer_role] of a build without the RGB to EVM direction. *)
Definition check_signer_role (source : SourceNetwork) (destination : DestinationNetwork)
    : enclave_result unit :=
  match source, destination with
  | SRgb, _ | _, DEvm => Err wrong_signer_role
  | _, _ => Ok tt
  end.

Definition source_commission (source : SourceNetwork) : enclave_result Z :=
  match source with
  | SEvm s => Ok (commission s)
  | SRgb | SCcd => Err (InvalidRequest "this build has no such source")
  end.

Definition ensure_time_left (deadline now : Z) : enclave_result unit :=
  if deadline <=? now then Err Io else Ok tt.

Section Sign.
Context {R : RgbStd} {F : BfaSchema} {K : Bip32} {B : Bitcoin} {C : PsbtCodec} {T : @TapSigner K}.
Context {P : EvmReceiptProvider}.
Variables (keccak256 sha256 : bytes -> bytes).
Variable invoice_from_str : bytes -> option Beneficiary.

Variable cfg : MintPins.
Variable keys : enclave_result (KeyManager K).
Variable launch : enclave_result bool.

(** ** The replay key (psbt_validation.rs, sign.rs) *)

Definition psbt_operation_preimage (chain_id : Z) (bridge_contract evm_tx_hash funds_in_operation_id : bytes)
    (rgb_asset_id : bytes) : bytes :=
  String.list_byte_of_string "utexo:psbt-op:v1" ++ be_split 8 chain_id ++ bridge_contract ++
  be_split 8 (zlen evm_tx_hash) ++ evm_tx_hash ++
  be_split 8 (zlen funds_in_operation_id) ++ funds_in_operation_id ++
  be_split 8 (zlen rgb_asset_id) ++ rgb_asset_id.

Definition psbt_operation_key (chain_id : Z) (bridge_contract evm_tx_hash funds_in_operation_id : bytes)
    (rgb_asset_id : string) : bytes :=
  keccak256 (psbt_operation_preimage chain_id bridge_contract evm_tx_hash funds_in_operation_id
    (String.list_byte_of_string rgb_asset_id)).

Definition operation_key (source : SourceNetwork) (destination : DestinationNetwork) : option bytes :=
  match source, destination with
  | SEvm s, DRgb d =>
      Some (psbt_operation_key (mp_chain_id cfg) (mp_bridge_contract cfg) (tx_hash s)
              (funds_in_operation_id s) (asset_id d))
  | _, _ => None
  end.

Definition request_digest (req : SignRequest) : bytes := sha256 (sr_encoded req).

Definition precheck_operation (st : SignState) (source : SourceNetwork) (destination : DestinationNetwork)
    (now : Z) : enclave_result unit :=
  match operation_key source destination with
  | None => Ok tt
  | Some op_key =>
      rmap_err (fun e => match e with
        | NonceReplay => CrossCheck "duplicate bridge operation: refusing to sign a replay"
        | e => e
        end) (guard_check (op_replay_guard st) op_key now)
  end.

Definition reserve_operation (st : SignState) (source : SourceNetwork) (destination : DestinationNetwork)
    (now : Z) : SignState * enclave_result (option ReplayReservation) :=
  match operation_key source destination, source with
  | Some op_key, SEvm _ =>
      let '(g, r) := reserve_at (op_replay_guard st) op_key now in
      ({| op_replay_guard := g; signed_results := signed_results st |},
       match r with
       | Ok reservation => Ok (Some reservation)
       | Err NonceReplay => Err (CrossCheck "duplicate bridge operation: this operation was already signed recently")
       | Err e => Err e
       | Panic => Panic
       end)
  | _, _ => (st, Ok None)
  end.

(** ** The deposit (sign.rs, bfa.rs) *)

Definition evm_tx_hash (s : EvmSource) : enclave_result bytes :=
  if negb (zlen (tx_hash s) =? 32) then Err (CrossCheck "evm_tx_hash must be 32 bytes")
  else Ok (tx_hash s).

Definition rpc_client : enclave_result unit :=
  let? client := launch in
  if client then Ok tt else Err (CrossCheck "RPC client unavailable").

Definition verify_funds_in_deposit (amount : Z) (source : SourceNetwork) (destination : DestinationNetwork)
    : Rpc (option string) :=
  match source, destination with
  | SEvm s, DRgb _ =>
      rpc? hash := rpc_lift (evm_tx_hash s) in
      rpc? _ := rpc_lift rpc_client in
      rpc? address :=
        verify_funds_in_event keccak256 (mp_funds_in_contract cfg) (mp_finality_tag cfg) hash
          (funds_in_operation_id s) amount (commission s) in
      if bool_decide (trim address = []) then rpc_ret None
      else
        rpc? r := rpc_lift (parse_authorized_recipient invoice_from_str address) in
        rpc_ret (Some r)
  | _, _ => rpc_ret None
  end.

Definition deposit_pins : DepositPins := {|
  dep_funds_in_contract := mp_funds_in_contract cfg;
  dep_chain_id := mp_chain_id cfg;
  dep_token_contract := mp_token_contract cfg
|}.

Definition bind_request_deposit (derived paid : VerifiedLock) : enclave_result unit :=
  if negb (bool_decide (paid = derived)) then
    Err (CrossCheck "the request's deposit is not the one the mint's lockId derives")
  else Ok tt.

Definition bind_mint_deposit (hash request_operation_id : bytes) (mint : MintFacts) : Rpc unit :=
  rpc? derived := rpc_lift (derived_lock keccak256 deposit_pins (lock_id mint) (issued mint)) in
  if negb (bool_decide (request_operation_id = vl_operation_id derived)) then
    rpc_lift (Err (CrossCheck "the request's funds_in_operation_id is not the derived deposit id"))
  else
    rpc? _ := rpc_lift rpc_client in
    rpc? _ := check_node_chain_id (mp_chain_id cfg) in
    rpc? paid :=
      verify_rgb_funds_in keccak256 (mp_funds_in_contract cfg) (mp_finality_tag cfg) hash
        (lock_id mint) (vl_operation_id derived) (issued mint) (before_block mint) in
    rpc_lift (bind_request_deposit derived paid).

Definition bind_mint (source : SourceNetwork) (mint : MintFacts) : Rpc unit :=
  match source with
  | SEvm s =>
      rpc? hash := rpc_lift (evm_tx_hash s) in
      bind_mint_deposit hash (funds_in_operation_id s) mint
  | _ => rpc_lift (Err (CrossCheck "a mint is bound to an EVM deposit only"))
  end.

Definition bind_funds_in_recipient (authorized : option string) (seals : list string) : enclave_result unit :=
  match authorized with
  | Some authorized => assert_recipient_authorized seals authorized
  | None => Ok tt
  end.

(** ** Validation, source and destination (networks/route.rs) *)

(** [validate_source] of a mint build: the amount of an EVM source. *)
Definition validate_source_network (amount : Z) (source : SourceNetwork) : enclave_result Z :=
  match source with
  | SEvm s => let? p := EvmRelease.validate_source amount (tx_hash s) in Ok (rp_amount p)
  | SRgb | SCcd => Err (InvalidRequest "source network not supported by this build")
  end.

(** [validate_destination]: the route amount and the blinded recipient seals. *)
Definition validate_destination_network (km : KeyManager K) (bind : MintFacts -> Rpc unit)
    (amount source_commission : Z) (destination : DestinationNetwork) : Rpc (Z * list string) :=
  match destination with
  | DRgb d =>
      rpc? _ := rpc_lift (validate_psbt_bytes (psbt_bytes d)) in
      rpc? (destination_amount, seals) :=
        validate_destination_anchor cfg km bind d amount source_commission in
      rpc? total := rpc_lift (ok_or (checked (destination_amount + source_commission))
        (CrossCheck "destination amount + source_commission overflow")) in
      rpc_ret (total, seals)
  | DEvm => rpc_lift (Err (InvalidRequest "destination network not signed by this signer role"))
  end.

(** Everything between the precheck and the reservation. *)
Definition validate_sign (req : SignRequest) (source : SourceNetwork) (destination : DestinationNetwork)
    (km : KeyManager K) (deadline : Z) (clk : Clock) : Rpc unit :=
  rpc? authorized := verify_funds_in_deposit (sr_amount req) source destination in
  rpc? _ := rpc_lift (ensure_time_left deadline (at_deposit clk)) in
  let binder mint :=
    rpc? _ := rpc_lift (ensure_time_left deadline (at_binding clk)) in
    bind_mint source mint in
  rpc? source_amount := rpc_lift (validate_source_network (sr_amount req) source) in
  rpc? commission := rpc_lift (source_commission source) in
  rpc? (destination_amount, seals) :=
    validate_destination_network km binder (sr_amount req) commission destination in
  rpc? _ := rpc_lift (validate_route_proofs source destination source_amount destination_amount) in
  rpc? _ := rpc_lift (bind_funds_in_recipient authorized seals) in
  rpc_lift (ensure_time_left deadline (at_signing clk)).

(** ** Signing (signers.rs) *)

Definition signed_psbt_response (signed : bytes * Z) : enclave_result SignedPsbtResponse :=
  let '(signed_psbt, inputs_signed) := signed in
  if inputs_signed =? 0 then Err (Signing "sign_psbt signed 0 inputs")
  else Ok (signed_psbt, wrap32 inputs_signed).

Definition sign_colored_psbt (km : KeyManager K) (bs : bytes) : enclave_result SignedPsbtResponse :=
  let? signed := sign_psbt_scoped km bs (Some Colored) in
  signed_psbt_response signed.

(** [handle_sign_psbt]: an EVM source pins no block, so the chain check is
    skipped. *)
Definition handle_sign_psbt (km : KeyManager K) (d : RgbDestination) : enclave_result SignedPsbtResponse :=
  sign_colored_psbt km (psbt_bytes d).

(** What [handle_sign] does before it validates: the networks, the keys and the
    reply of an identical request. *)
Definition sign_prologue (st : SignState) (req : SignRequest) (clk : Clock)
    : enclave_result (SourceNetwork * DestinationNetwork * KeyManager K * option SignedPsbtResponse) :=
  let? source := ok_or (source_network req) (InvalidRequest "sign request has no source_network") in
  let? destination := ok_or (destination_network req)
                        (InvalidRequest "sign request has no destination_network") in
  let? _ := check_signer_role source destination in
  let? km := keys in
  let cached :=
    op_key ← operation_key source destination;
    get_at (signed_results st) op_key (request_digest req) (at_lookup clk) in
  match cached with
  | Some reply => Ok (source, destination, km, Some reply)
  | None =>
      let? _ := precheck_operation st source destination (at_lookup clk) in
      Ok (source, destination, km, None)
  end.

(** From the reservation on. *)
Definition reserve_and_sign (st : SignState) (req : SignRequest) (source : SourceNetwork)
    (destination : DestinationNetwork) (km : KeyManager K) (clk : Clock)
    : SignState * enclave_result (SignedPsbtResponse * option ReplayReservation) :=
  let '(st, reserved) := reserve_operation st source destination (at_reserve clk) in
  match reserved with
  | Err e => (st, Err e)
  | Panic => (st, Panic)
  | Ok reservation =>
      let result :=
        match destination with
        | DRgb d => handle_sign_psbt km d
        | DEvm => Err wrong_signer_role
        end in
      match result with
      | Ok response =>
          let cache :=
            match operation_key source destination with
            | Some op_key => put_at (signed_results st) op_key (request_digest req) response (at_store clk)
            | None => signed_results st
            end in
          ({| op_replay_guard := op_replay_guard st; signed_results := cache |}, Ok (response, reservation))
      | Err e =>
          let guard :=
            match reservation with
            | Some r => drop_reservation (op_replay_guard st) r
            | None => op_replay_guard st
            end in
          ({| op_replay_guard := guard; signed_results := signed_results st |}, Err e)
      | Panic => (st, Panic)
      end
  end.

(** [handle_sign]; [t] counts the RPC calls made before. *)
Definition handle_sign (st : SignState) (req : SignRequest) (deadline : Z) (clk : Clock) (t : nat)
    : SignState * enclave_result (SignedPsbtResponse * option ReplayReservation) :=
  match sign_prologue st req clk with
  | Err e => (st, Err e)
  | Panic => (st, Panic)
  | Ok (_, _, _, Some cached) => (st, Ok (cached, None))
  | Ok (source, destination, km, None) =>
      match validate_sign req source destination km deadline clk t with
      | Err e => (st, Err e)
      | Panic => (st, Panic)
      | Ok _ => reserve_and_sign st req source destination km clk
      end
  end.

(** ** Rights refill (rights_refill.rs) *)

Definition handle_sign_rights_refill (rate : RefillRateLimit) (req : SignRightsRefillRequest) (now : Z)
    : RefillRateLimit * enclave_result SignedPsbtResponse :=
  match (let? psbt := parse_psbt_shape (rr_psbt_bytes req) in
         let? km := keys in
         let? _ := refill_gate psbt km in
         Ok (psbt, km)) with
  | Err e => (rate, Err e)
  | Panic => (rate, Panic)
  | Ok (psbt, km) =>
      let '(rate, admitted) := refill_admit rate now in
      (rate,
       let? _ := admitted in
       let? rights := validate_rights_refill req psbt cfg in
       let? _ := assert_refill_rights_owned psbt rights km in
       sign_colored_psbt km (rr_psbt_bytes req))
  end.
End Sign.
