(* ===== verification/MintSignProps.v ===== *)
(** * What a signed mint or refill guarantees *)

From stdpp Require Import base numbers list gmap strings.
From S2P Require Import Prelude Errors Lengths ReplayGuard ResultCache RefillRate.
From S2P Require Import PsbtTypes PsbtSize PsbtKeys PsbtSample PsbtPolicy PsbtPolicyProps.
From S2P Require Import RgbCommit RgbSample RgbCommitProps EvmRelease EvmEvents EvmEventsProps RgbMint RgbMintProps MintSign.

#[local] Open Scope list_scope.
#[local] Open Scope Z_scope.

Section SignProps.
Context {R : RgbStd} {F : BfaSchema} {K : Bip32} {B : Bitcoin} {L : BitcoinLaws B}.
Context {C : PsbtCodec} {CL : PsbtCodecLaws C} {T : @TapSigner K} {P : EvmReceiptProvider}.
Context (keccak256 sha256 : bytes -> bytes) (invoice_from_str : bytes -> option Beneficiary).
Context (cfg : MintPins) (keys : enclave_result (KeyManager K)) (launch : enclave_result bool).

#[local] Abbreviation sign := (handle_sign keccak256 sha256 invoice_from_str cfg keys launch).
#[local] Abbreviation validate := (validate_sign keccak256 invoice_from_str cfg launch).
#[local] Abbreviation op_key := (operation_key keccak256 cfg).

(** A reply that was not cached: the request passed every check, its key was
    reserved, the Colored inputs were signed and the reply was stored. *)
Lemma handle_sign_fresh st req deadline clk t st' resp res :
  sign st req deadline clk t = (st', Ok (resp, Some res)) ->
  exists s d km key g t',
    source_network req = Some (SEvm s) /\ destination_network req = Some (DRgb d) /\ keys = Ok km /\
    op_key (SEvm s) (DRgb d) = Some key /\
    validate req (SEvm s) (DRgb d) km deadline clk t = Ok (tt, t') /\
    reserve_at (op_replay_guard st) key (at_reserve clk) = (g, Ok res) /\
    sign_colored_psbt km (psbt_bytes d) = Ok resp /\
    st' = {| op_replay_guard := g;
             signed_results := put_at (signed_results st) key (request_digest sha256 req) resp (at_store clk) |}.
Proof.
  unfold handle_sign. destruct (sign_prologue _ _ _ _ _ _ _) as [[[[src dst] km] [c|]]|e|] eqn:Hp; try done.
  assert (Hkeys : source_network req = Some src /\ destination_network req = Some dst /\ keys = Ok km).
  { unfold sign_prologue in Hp. apply rbind_ok in Hp as (src' & H1 & Hp).
    apply rbind_ok in Hp as (dst' & H2 & Hp). apply rbind_ok in Hp as ([] & _ & Hp).
    apply rbind_ok in Hp as (km' & H3 & Hp). apply ok_or_ok in H1, H2.
    destruct (op ← _; _); [done|]. apply rbind_ok in Hp as ([] & _ & [= <- <- <-]). done. }
  destruct Hkeys as (Hs & Hd & Hk).
  destruct (validate _ _ _ _ _ _ _) as [[[] t']|e|] eqn:Hv; try done.
  unfold reserve_and_sign, reserve_operation, handle_sign_psbt.
  destruct src as [s| |], dst as [d|]; cbn [operation_key]; intros H; try done.
  - destruct (reserve_at _ _ _) as [g [r|e|]] eqn:Hr; try done; [|by destruct e].
    destruct (sign_colored_psbt km (psbt_bytes d)) as [x|e|] eqn:Hc; try done.
    injection H as <- <- <-. eexists s, d, km, _, g, t'. split_and!; try done.
  - by destruct (sign_colored_psbt km (psbt_bytes d)).
  - by destruct (sign_colored_psbt km (psbt_bytes d)).
Qed.

(** Everything the checks of a mint request established. *)
Record checked_mint (req : SignRequest) (s : EvmSource) (d : RgbDestination) (km : KeyManager K)
    (psbt : Psbt) (pin : bytes) (c : Committed) (m : MintFacts) (f : Fascia) : Prop := {
  cm_psbt : psbt_deserialize (psbt_bytes d) = Some psbt;
  cm_pin : pinned_contract (mp_rgb_asset_id cfg) = Ok pin;
  cm_asset : asset_id d = mp_rgb_asset_id cfg /\ contract_to_string pin = mp_rgb_asset_id cfg;
  cm_fascia : parse_fascia (fascia d) = Ok f;
  cm_committed : committed_transition (unsigned_tx psbt) f pin = Ok c;
  cm_mint : mint_facts c = Ok m;
  cm_fixed : assert_txid_and_sighash_fixed psbt = Ok tt;
  cm_amount : issued m = sat_sub (sr_amount req) (commission s);
  cm_inputs : zlen (tx_input (unsigned_tx psbt)) = 1;
  cm_colored : forall i, (i < length (inputs psbt))%nat -> i ∈ fee_key_path_inputs_scoped psbt km Colored;
  cm_right : exists i, right_input psbt (parent_fascia d) (right m) pin = Ok i;
  cm_fee : check_psbt_fee psbt (fee_key_path_inputs_scoped psbt km Colored) = Ok tt;
  cm_sats : assert_mint_sats psbt km (recipient m) (mint_witness_sat cfg) = Ok tt;
  cm_deposit : exists t addr t', verify_funds_in_event keccak256 (mp_funds_in_contract cfg) (mp_finality_tag cfg)
    (tx_hash s) (funds_in_operation_id s) (sr_amount req) (commission s) t = Ok (addr, t') /\
    (trim addr <> [] -> exists seal, parse_authorized_recipient invoice_from_str addr = Ok seal /\
       recipient m = Blinded seal);
  cm_lock : exists t l t', derived_lock keccak256 (deposit_pins cfg) (lock_id m) (issued m) = Ok l /\
    funds_in_operation_id s = vl_operation_id l /\
    verify_rgb_funds_in keccak256 (mp_funds_in_contract cfg) (mp_finality_tag cfg) (tx_hash s) (lock_id m)
      (vl_operation_id l) (issued m) (before_block m) t = Ok (l, t')
}.

Lemma asset_binding_destination a b p q :
  assert_asset_binding a b p q Destination = Ok tt -> a = b /\ a = p.
Proof.
  unfold assert_asset_binding. case_bool_decide; [done|]. case_bool_decide; [|done].
  case_bool_decide; [done|]. by case_bool_decide.
Qed.

Lemma pinned_commitment_ok psbt fb a pin c :
  pinned_commitment psbt fb a (mp_rgb_asset_id cfg) (mp_is_configured cfg) = Ok (pin, c) ->
  exists f, pinned_contract (mp_rgb_asset_id cfg) = Ok pin /\ parse_fascia fb = Ok f /\
    committed_transition (unsigned_tx psbt) f pin = Ok c /\
    a = mp_rgb_asset_id cfg /\ contract_to_string pin = mp_rgb_asset_id cfg.
Proof.
  unfold pinned_commitment. intros H. apply rbind_ok in H as (pin' & Hp & H).
  apply rbind_ok in H as (f & Hf & H). apply rbind_ok in H as (c' & Hc & H).
  apply rbind_ok in H as ([] & Hb & H). injection H as <- <-.
  apply asset_binding_destination in Hb as [-> Hb]. exists f. by split_and!.
Qed.

Lemma bind_mint_deposit_ok hash id m t t' :
  bind_mint_deposit keccak256 cfg launch hash id m t = Ok (tt, t') ->
  exists u l u', derived_lock keccak256 (deposit_pins cfg) (lock_id m) (issued m) = Ok l /\
    id = vl_operation_id l /\
    verify_rgb_funds_in keccak256 (mp_funds_in_contract cfg) (mp_finality_tag cfg) hash (lock_id m)
      (vl_operation_id l) (issued m) (before_block m) u = Ok (l, u').
Proof.
  unfold bind_mint_deposit. intros H. apply rpc_bind_ok in H as (l & t1 & Hl & H).
  apply rpc_lift_ok in Hl as [Hl ->]. case_bool_decide as Hid; cbn [negb] in H; [|by inv_rpc H].
  apply rpc_bind_ok in H as ([] & t2 & _ & H). apply rpc_bind_ok in H as (n & t3 & _ & H).
  apply rpc_bind_ok in H as (paid & t4 & Hp & H). apply rpc_lift_ok in H as [H ->].
  unfold bind_request_deposit in H. case_bool_decide as Hq; [|done]. subst paid. by exists t3, l, t4.
Qed.

Lemma validate_destination_anchor_ok km bind d amount comm t x t' :
  validate_destination_anchor cfg km bind d amount comm t = Ok (x, t') ->
  exists psbt pin c m, psbt_deserialize (psbt_bytes d) = Some psbt /\
    assert_txid_and_sighash_fixed psbt = Ok tt /\
    pinned_commitment psbt (fascia d) (asset_id d) (mp_rgb_asset_id cfg) (mp_is_configured cfg) = Ok (pin, c) /\
    mint_facts c = Ok m /\ issued m = sat_sub amount comm /\
    zlen (tx_input (unsigned_tx psbt)) = 1 /\
    (forall i, (i < length (inputs psbt))%nat -> i ∈ fee_key_path_inputs_scoped psbt km Colored) /\
    (exists i, right_input psbt (parent_fascia d) (right m) pin = Ok i) /\
    check_psbt_fee psbt (fee_key_path_inputs_scoped psbt km Colored) = Ok tt /\
    assert_mint_sats psbt km (recipient m) (mint_witness_sat cfg) = Ok tt /\
    (exists u u', bind m u = Ok (tt, u')) /\ x = (issued m, blinded_seals (recipient m)).
Proof.
  unfold validate_destination_anchor. intros H. apply rpc_bind_ok in H as ([psbt m] & t1 & H1 & H).
  apply rpc_lift_ok in H1 as [H1 ->]. apply rpc_bind_ok in H as ([] & t2 & Hb & H). injection H as <- <-.
  apply rbind_ok in H1 as (p & Hp & H1). apply parse_psbt_shape_ok in Hp as (Hp & _ & _).
  apply rbind_ok in H1 as ([] & _ & H1). apply rbind_ok in H1 as ([] & Hf & H1).
  apply rbind_ok in H1 as ([pin c] & Hc & H1). apply rbind_ok in H1 as (m' & Hm & H1).
  apply rbind_ok in H1 as ([] & Hn & H1). apply rbind_ok in H1 as (colored & Hcol & H1).
  apply rbind_ok in H1 as (i & Hi & H1). apply rbind_ok in H1 as ([] & Hfee & H1).
  apply rbind_ok in H1 as ([] & Hsats & H1). injection H1 as <- <-.
  unfold mint_inputs in Hcol. destruct (_ =? MINT_INPUTS) eqn:E1; [|done]. cbn [negb] in Hcol.
  apply rbind_ok in Hcol as ([] & Hc2 & Hcol). injection Hcol as <-.
  unfold assert_mints_net_deposit, assert_group_amount in Hn. destruct (_ =? sat_sub _ _) eqn:E2; [|done]. zbool.
  exists p, pin, c, m'. split_and!; try done; [by apply assert_only_colored_ok|by exists i|by exists t, t2].
Qed.

Lemma validate_sign_ok req s d km deadline clk t t' :
  validate req (SEvm s) (DRgb d) km deadline clk t = Ok (tt, t') ->
  exists psbt pin c m f, checked_mint req s d km psbt pin c m f.
Proof.
  unfold validate_sign. intros H. apply rpc_bind_ok in H as (auth & t1 & Ha & H).
  apply rpc_bind_ok in H as ([] & t2 & _ & H). apply rpc_bind_ok in H as (sa & t3 & _ & H).
  apply rpc_bind_ok in H as (comm & t4 & Hc & H). cbn [source_commission] in Hc.
  apply rpc_lift_ok in Hc as [Hc ->]. injection Hc as <-.
  apply rpc_bind_ok in H as ([da seals] & t5 & Hd & H). apply rpc_bind_ok in H as ([] & t6 & _ & H).
  apply rpc_bind_ok in H as ([] & t7 & Hr & H). apply rpc_lift_ok in Hr as [Hr ->]. clear H.
  cbn [validate_destination_network] in Hd. apply rpc_bind_ok in Hd as ([] & t8 & _ & Hd).
  apply rpc_bind_ok in Hd as ([da' seals'] & t9 & Hd & Hd2). apply rpc_bind_ok in Hd2 as (total & t10 & _ & Hd2).
  injection Hd2 as <- <- <-.
  apply validate_destination_anchor_ok in Hd
    as (psbt & pin & c & m & Hp & Hfix & Hpc & Hm & Hamt & Hin & Hcol & Hri & Hfee & Hsats & Hb & [= -> ->]).
  apply pinned_commitment_ok in Hpc as (f & Hpin & Hf & Hct & Ha1 & Ha2).
  destruct Hb as (u & u' & Hb). apply rpc_bind_ok in Hb as ([] & u1 & _ & Hb). cbn [bind_mint] in Hb.
  apply rpc_bind_ok in Hb as (h & u2 & Hh & Hb). apply rpc_lift_ok in Hh as [Hh ->].
  unfold evm_tx_hash in Hh. destruct (_ =? 32); [|done]. injection Hh as <-. apply bind_mint_deposit_ok in Hb.
  exists psbt, pin, c, m, f. split; try done.
  cbn [verify_funds_in_deposit] in Ha. apply rpc_bind_ok in Ha as (h & v1 & Hh & Ha).
  apply rpc_lift_ok in Hh as [Hh ->]. unfold evm_tx_hash in Hh. destruct (_ =? 32); [|done]. injection Hh as <-.
  apply rpc_bind_ok in Ha as ([] & v2 & Hcl & Ha). apply rpc_bind_ok in Ha as (addr & v3 & Hv & Ha).
  exists v2, addr, v3. split; [done|]. intros Hne. rewrite bool_decide_eq_false_2 in Ha by done.
  apply rpc_bind_ok in Ha as (seal & v4 & Hseal & Ha). injection Ha as <- <-.
  apply rpc_lift_ok in Hseal as [Hseal ->]. exists seal. split; [done|]. cbn in Hr.
  destruct (recipient m) as [q|]; cbn in Hr; [|done]. case_bool_decide; [|done]. by subst.
Qed.

(** Two mints of one deposit id have one lock and one amount. *)
Lemma deposit_id_unique req1 req2 s1 s2 d1 d2 km1 km2 p1 p2 pin1 pin2 c1 c2 m1 m2 f1 f2 :
  checked_mint req1 s1 d1 km1 p1 pin1 c1 m1 f1 -> checked_mint req2 s2 d2 km2 p2 pin2 c2 m2 f2 ->
  funds_in_operation_id s1 = funds_in_operation_id s2 ->
  zlen (lock_id m1) = zlen (lock_id m2) ->
  (keccak256 (deposit_preimage keccak256 (deposit_pins cfg) (lock_id m1) (issued m1)) =
   keccak256 (deposit_preimage keccak256 (deposit_pins cfg) (lock_id m2) (issued m2)) ->
   deposit_preimage keccak256 (deposit_pins cfg) (lock_id m1) (issued m1) =
   deposit_preimage keccak256 (deposit_pins cfg) (lock_id m2) (issued m2)) ->
  lock_id m1 = lock_id m2 /\ issued m1 = issued m2.
Proof.
  intros H1 H2 Hid Hlen Hcf. destruct (cm_lock _ _ _ _ _ _ _ _ _ H1) as (_ & l1 & _ & Hl1 & Hi1 & _).
  destruct (cm_lock _ _ _ _ _ _ _ _ _ H2) as (_ & l2 & _ & Hl2 & Hi2 & _).
  apply derived_lock_ok in Hl1 as [-> _], Hl2 as [-> _]. cbn [vl_operation_id] in *.
  pose proof (mt_issued _ _ (mint_facts_ok _ _ (cm_mint _ _ _ _ _ _ _ _ _ H1))).
  pose proof (mt_issued _ _ (mint_facts_ok _ _ (cm_mint _ _ _ _ _ _ _ _ _ H2))).
  apply (deposit_preimage_inj keccak256 (deposit_pins cfg)); [done|unfold is_u64; lia|unfold is_u64; lia|].
  apply Hcf. congruence.
Qed.
End SignProps.

(** C1: end to end, what a freshly signed mint rests on.  The transaction of
    the PSBT commits one transition of the pinned asset, a mint of exactly the
    request's amount less its commission; the pinned bridge emitted, in a
    successful transaction whose block was canonical throughout its
    verification and is before the mint's [beforeBlock], the one lock of that
    amount under the [LockId] of this very transition and transaction, and the
    deposit of the id derived from them, which is the request's; the only input
    spends the right of the mint on the output where the one transition of the
    parent fascia, committed by its own transaction, put it alone; no satoshi
    leaves beyond the pinned amount of a witness mint and a bounded fee; and the
    signatures are those of the Colored account. *)
Theorem signed_mint_backed {R : RgbStd} {F : BfaSchema} {K : Bip32} {B : Bitcoin} {L : BitcoinLaws B}
    {C : PsbtCodec} {CL : PsbtCodecLaws C} {T : @TapSigner K} {P : EvmReceiptProvider}
    keccak256 sha256 invoice_from_str (cfg : MintPins) keys launch st req deadline clk t st' out n res
    (chain : nat -> Z -> option bytes) :
  handle_sign keccak256 sha256 invoice_from_str cfg keys launch st req deadline clk t =
    (st', Ok ((out, n), Some res)) ->
  honest_node chain ->
  exists s d km psbt pin f c m bundle,
    source_network req = Some (SEvm s) /\ destination_network req = Some (DRgb d) /\ keys = Ok km /\
    psbt_deserialize (psbt_bytes d) = Some psbt /\
    pinned_contract (mp_rgb_asset_id cfg) = Ok pin /\ parse_fascia (fascia d) = Ok f /\
    discloses (unsigned_tx psbt) f pin c bundle /\ mints c m /\ issued m = sr_amount req - commission s /\
    (exists r l u u', deposit_receipt chain (tx_hash s) u u' r /\ block_number r < before_block m /\
       lock_logs keccak256 (mp_funds_in_contract cfg) (lock_id_with (opid c) (c_txid c))
         (funds_in_operation_id s) (issued m) r l /\ net_amount l = issued m) /\
    (exists i, spends_right psbt (parent_fascia d) pin (right m) i) /\ zlen (tx_input (unsigned_tx psbt)) = 1 /\
    mint_sats_ok psbt km (recipient m) (mint_witness_sat cfg) /\
    (exists fee, psbt_fee psbt = Some fee /\ 0 <= fee <= MAX_FEE_SATS) /\
    exists k, sign_psbt_scoped km (psbt_bytes d) (Some Colored) = Ok (out, k) /\ k <> 0.
Proof.
  intros H Hn. apply handle_sign_fresh in H as (s & d & km & key & g & t' & Hs & Hd & Hk & _ & Hv & _ & Hsig & _).
  apply validate_sign_ok in Hv as (psbt & pin & c & m & f & V).
  pose proof (mint_facts_ok _ _ (cm_mint _ _ _ _ _ _ _ _ _ _ _ _ V)) as M.
  destruct (cm_deposit _ _ _ _ _ _ _ _ _ _ _ _ V) as (u1 & addr & u1' & Hdep & _).
  apply (verify_funds_in_event_ok _ chain) in Hdep as (_ & _ & _ & _ & _ & _ & _ & Hle & _); [|done].
  destruct (cm_lock _ _ _ _ _ _ _ _ _ _ _ _ V) as (u & l & u' & Hl & Hop & Hver).
  pose proof (mt_issued _ _ M) as Hiss.
  apply (verify_rgb_funds_in_ok _ chain) in Hver as (r & Hrec & Hbb & Hlogs); [|done|unfold is_u64; lia].
  destruct (committed_transition_ok _ _ _ _ (cm_committed _ _ _ _ _ _ _ _ _ _ _ _ V)) as (bundle & D).
  destruct (cm_right _ _ _ _ _ _ _ _ _ _ _ _ V) as (i & Hi).
  apply right_input_spends in Hi.
  destruct (check_psbt_fee_ok _ _ (cm_fee _ _ _ _ _ _ _ _ _ _ _ _ V)) as (fee & _ & Hfee & [Hb _] & _).
  pose proof (cm_psbt _ _ _ _ _ _ _ _ _ _ _ _ V) as Hpsbt.
  exists s, d, km, psbt, pin, f, c, m, bundle. split_and!; try done.
  - by apply V.
  - by apply V.
  - rewrite (cm_amount _ _ _ _ _ _ _ _ _ _ _ _ V). unfold sat_sub. lia.
  - exists r, l, u, u'. rewrite <- (mt_lock _ _ M), Hop. split_and!; try done.
    by apply derived_lock_ok in Hl as [-> _].
  - by exists i.
  - by apply V.
  - apply assert_mint_sats_ok; [by eapply psbt_deserialize_amounts|by apply V].
  - by exists fee.
  - unfold sign_colored_psbt in Hsig. apply rbind_ok in Hsig as ([out' k] & Hsc & Hsig). cbn in Hsig.
    destruct (k =? 0) eqn:E; [done|]. injection Hsig as -> _. zbool. by exists k.
Qed.

(** ** A signed mint and a signed refill *)

#[global] Instance rgb_codec_laws : PsbtCodecLaws rgb_codec.
Proof.
  split. intros bs p H. cbn in H.
  repeat match type of H with context [match ?x with _ => _ end] => destruct x; try discriminate H end;
    injection H as <-; by repeat constructor.
Qed.

Definition sample_pins : MintPins := {|
  mp_chain_id := 42161; mp_bridge_contract := replicate 20 x0c; mp_funds_in_contract := sample_contract;
  mp_token_contract := replicate 20 x0d; mp_rgb_asset_id := "rgb:asset"; mp_is_configured := true;
  mp_finality_tag := Finalized; mint_witness_sat := 600 |}.

Definition mint_lock_id : bytes := lock_id_with child_opid (compute_txid mint_tx).

Definition mint_deposit_id : bytes :=
  sample_keccak (deposit_preimage sample_keccak (deposit_pins sample_pins) mint_lock_id 490).

Definition mint_provider : EvmReceiptProvider := sample_provider mint_lock_id mint_deposit_id 490.

Definition mint_request : SignRequest := {|
  sr_amount := 500;
  source_network := Some (SEvm {| tx_hash := replicate 32 x77; commission := 10;
                                  funds_in_operation_id := mint_deposit_id |});
  destination_network := Some (DRgb {| psbt_bytes := [x02]; asset_id := "rgb:asset"; fascia := [x02];
                                       parent_fascia := [x01] |});
  sr_encoded := [x2a] |}.

Definition mint_clock (now : Z) : Clock := {|
  at_lookup := now; at_deposit := now; at_binding := now; at_signing := now; at_reserve := now; at_store := now |}.

Definition empty_state : SignState := {|
  op_replay_guard := default_guard; signed_results := default_cache |}.

Definition sample_sign (st : SignState) (req : SignRequest) (now : Z) :=
  handle_sign (C := rgb_codec) (P := mint_provider) sample_keccak id (fun _ => None) sample_pins
    (Ok sample_keys) (Ok true) st req (secs 100) (mint_clock now) 0%nat.

Definition mint_reservation : ReplayReservation :=
  match (sample_sign empty_state mint_request 0).2 with
  | Ok (_, Some r) => r
  | _ => {| rr_nonce := []; rr_generation := 0; rr_committed := true |}
  end.

Lemma sample_sign_ok :
  sample_sign empty_state mint_request 0 =
  ((sample_sign empty_state mint_request 0).1, Ok ((replicate 64 x01, 1), Some mint_reservation)).
Proof. by vm_compute. Qed.

Lemma signed_mint_backed_witness :
  exists s d km psbt pin f c m bundle,
    source_network mint_request = Some (SEvm s) /\ destination_network mint_request = Some (DRgb d) /\
    Ok (E := EnclaveError) sample_keys = Ok km /\ psbt_deserialize (PsbtCodec := rgb_codec) (psbt_bytes d) = Some psbt /\
    discloses (unsigned_tx psbt) f pin c bundle /\ mints c m /\ issued m = 500 - commission s.
Proof.
  destruct (signed_mint_backed (C := rgb_codec) (P := mint_provider) _ _ _ _ _ _ _ _ _ _ _ _ _ _ _ _
              sample_sign_ok (sample_honest _ _ _))
    as (s & d & km & psbt & pin & f & c & m & bundle & H1 & H2 & H3 & H4 & _ & _ & H5 & H6 & H7 & _).
  exists s, d, km, psbt, pin, f, c, m, bundle.
  exact (conj H1 (conj H2 (conj H3 (conj H4 (conj H5 (conj H6 H7)))))).
Defined.

(** The mint a destination asks for: a function of the request and the pins. *)
Definition request_mint {R : RgbStd} {F : BfaSchema} {B : Bitcoin} {C : PsbtCodec} (cfg : MintPins)
    (req : SignRequest) (s : EvmSource) (psbt : Psbt) (c : Committed) (m : MintFacts) : Prop :=
  exists d pin f, source_network req = Some (SEvm s) /\ destination_network req = Some (DRgb d) /\
    psbt_deserialize (psbt_bytes d) = Some psbt /\ pinned_contract (mp_rgb_asset_id cfg) = Ok pin /\
    parse_fascia (fascia d) = Ok f /\ committed_transition (unsigned_tx psbt) f pin = Ok c /\
    mint_facts c = Ok m.

(** A fresh signature is of the mint its request asks for. *)
Lemma fresh_request_mint {R : RgbStd} {F : BfaSchema} {K : Bip32} {B : Bitcoin} {L : BitcoinLaws B}
    {C : PsbtCodec} {CL : PsbtCodecLaws C} {T : @TapSigner K} {P : EvmReceiptProvider}
    keccak256 sha256 inv cfg keys launch st req deadline clk t st' resp res s psbt c m :
  handle_sign keccak256 sha256 inv cfg keys launch st req deadline clk t = (st', Ok (resp, Some res)) ->
  request_mint cfg req s psbt c m ->
  exists d km pin f, checked_mint keccak256 inv cfg req s d km psbt pin c m f.
Proof.
  intros H (d & pin & f & Hs & Hd & Hp & Hpin & Hf & Hc & Hm).
  apply handle_sign_fresh in H as (s' & d' & km & key & g & t' & Hs' & Hd' & _ & _ & Hv & _).
  rewrite Hs in Hs'. injection Hs' as <-. rewrite Hd in Hd'. injection Hd' as <-.
  apply validate_sign_ok in Hv as (psbt' & pin' & c' & m' & f' & V). exists d, km, pin', f'.
  pose proof (cm_psbt _ _ _ _ _ _ _ _ _ _ _ _ V) as E1. rewrite Hp in E1. injection E1 as <-.
  pose proof (cm_pin _ _ _ _ _ _ _ _ _ _ _ _ V) as E2. rewrite Hpin in E2. injection E2 as <-.
  pose proof (cm_fascia _ _ _ _ _ _ _ _ _ _ _ _ V) as E3. rewrite Hf in E3. injection E3 as <-.
  pose proof (cm_committed _ _ _ _ _ _ _ _ _ _ _ _ V) as E4. rewrite Hc in E4. injection E4 as <-.
  pose proof (cm_mint _ _ _ _ _ _ _ _ _ _ _ _ V) as E5. rewrite Hm in E5. injection E5 as <-.
  exact V.
Qed.

(** C3: a deposit backs one mint.  Two requests with the same deposit id that a
    mint signer freshly signs, in whatever states and however far apart, mint
    the same amount by the same transition in the same transaction: after the
    first one confirms there is nothing left to mint.  Keccak-256 and [LockId]
    are assumed not to collide on the two mints, and lock ids to have one length. *)
Theorem one_deposit_one_mint {R : RgbStd} {F : BfaSchema} {K : Bip32} {B : Bitcoin} {L : BitcoinLaws B}
    {C : PsbtCodec} {CL : PsbtCodecLaws C} {T : @TapSigner K} {P : EvmReceiptProvider}
    keccak256 sha256 inv (cfg : MintPins) keys launch st1 st2 req1 req2 deadline1 deadline2 clk1 clk2 t1 t2
    st1' st2' resp1 resp2 res1 res2 s1 s2 psbt1 psbt2 c1 c2 m1 m2 :
  handle_sign keccak256 sha256 inv cfg keys launch st1 req1 deadline1 clk1 t1 = (st1', Ok (resp1, Some res1)) ->
  handle_sign keccak256 sha256 inv cfg keys launch st2 req2 deadline2 clk2 t2 = (st2', Ok (resp2, Some res2)) ->
  request_mint cfg req1 s1 psbt1 c1 m1 -> request_mint cfg req2 s2 psbt2 c2 m2 ->
  funds_in_operation_id s1 = funds_in_operation_id s2 ->
  (forall o t, zlen (lock_id_with o t) = 32) ->
  (lock_id_with (opid c1) (c_txid c1) = lock_id_with (opid c2) (c_txid c2) ->
   opid c1 = opid c2 /\ c_txid c1 = c_txid c2) ->
  (keccak256 (deposit_preimage keccak256 (deposit_pins cfg) (lock_id m1) (issued m1)) =
   keccak256 (deposit_preimage keccak256 (deposit_pins cfg) (lock_id m2) (issued m2)) ->
   deposit_preimage keccak256 (deposit_pins cfg) (lock_id m1) (issued m1) =
   deposit_preimage keccak256 (deposit_pins cfg) (lock_id m2) (issued m2)) ->
  opid c1 = opid c2 /\ issued m1 = issued m2 /\
  compute_txid (unsigned_tx psbt1) = compute_txid (unsigned_tx psbt2).
Proof.
  intros H1 H2 M1 M2 Hid Hlen Hlock Hcf.
  destruct (fresh_request_mint _ _ _ _ _ _ _ _ _ _ _ _ _ _ _ _ _ _ H1 M1) as (d1 & km1 & pin1 & f1 & V1).
  destruct (fresh_request_mint _ _ _ _ _ _ _ _ _ _ _ _ _ _ _ _ _ _ H2 M2) as (d2 & km2 & pin2 & f2 & V2).
  pose proof (mt_lock _ _ (mint_facts_ok _ _ (cm_mint _ _ _ _ _ _ _ _ _ _ _ _ V1))) as L1.
  pose proof (mt_lock _ _ (mint_facts_ok _ _ (cm_mint _ _ _ _ _ _ _ _ _ _ _ _ V2))) as L2.
  destruct (deposit_id_unique _ _ _ _ _ _ _ _ _ _ _ _ _ _ _ _ _ _ _ _ _ V1 V2 Hid) as [El Ei];
    [by rewrite L1, L2, !Hlen|done|].
  rewrite L1, L2 in El. destruct (Hlock El) as [Eo Et]. split_and!; try done.
  destruct (committed_transition_ok _ _ _ _ (cm_committed _ _ _ _ _ _ _ _ _ _ _ _ V1)) as (b1 & D1).
  destruct (committed_transition_ok _ _ _ _ (cm_committed _ _ _ _ _ _ _ _ _ _ _ _ V2)) as (b2 & D2).
  by rewrite <- (dis_txid _ _ _ _ _ D1), <- (dis_txid _ _ _ _ _ D2).
Qed.

Definition sample_mint_facts : MintFacts := {|
  right := spent_right; mf_opid := child_opid; lock_id := mint_lock_id; issued := 490; before_block := 95;
  recipient := Blinded "utxob:seal" |}.

Lemma sample_request_mint :
  request_mint (C := rgb_codec) sample_pins mint_request
    {| tx_hash := replicate 32 x77; commission := 10; funds_in_operation_id := mint_deposit_id |}
    mint_psbt mint_committed sample_mint_facts.
Proof.
  exists {| psbt_bytes := [x02]; asset_id := "rgb:asset"; fascia := [x02]; parent_fascia := [x01] |},
    pin_id, mint_fascia. do 6 (split; [vm_compute; reflexivity|]). vm_compute. reflexivity.
Qed.

Lemma one_deposit_one_mint_witness :
  opid mint_committed = opid mint_committed /\ issued sample_mint_facts = issued sample_mint_facts /\
  compute_txid (unsigned_tx mint_psbt) = compute_txid (unsigned_tx mint_psbt).
Proof.
  apply (one_deposit_one_mint (C := rgb_codec) (P := mint_provider) _ _ _ _ _ _ _ _ _ _ _ _ _ _ _ _ _ _ _ _ _ _ _ _
    _ _ _ _ _ _ sample_sign_ok sample_sign_ok sample_request_mint sample_request_mint).
  - reflexivity.
  - intros o t. unfold zlen.
    change (lock_id_with o t) with (take 32 (take 16 o ++ take 16 t ++ replicate 32 x00)). rewrite length_take, !length_app, length_replicate. lia.
  - intros _. split; reflexivity.
  - intros _. reflexivity.
Defined.

(** Retries.  After a fresh signature, the same request again within the
    cache's lifetime gets the same reply and nothing is signed, while a request
    for the same operation with any other content is refused while the
    reservation lives. *)
Theorem mint_retry {R : RgbStd} {F : BfaSchema} {K : Bip32} {B : Bitcoin} {C : PsbtCodec}
    {T : @TapSigner K} {P : EvmReceiptProvider}
    keccak256 sha256 inv (cfg : MintPins) keys launch st req deadline clk t st' resp res req2 deadline2 clk2 t2 s d s2 d2 :
  handle_sign keccak256 sha256 inv cfg keys launch st req deadline clk t = (st', Ok (resp, Some res)) ->
  source_network req = Some (SEvm s) -> destination_network req = Some (DRgb d) ->
  source_network req2 = Some (SEvm s2) -> destination_network req2 = Some (DRgb d2) ->
  operation_key keccak256 cfg (SEvm s2) (DRgb d2) = operation_key keccak256 cfg (SEvm s) (DRgb d) ->
  sat_sub (at_lookup clk2) (at_store clk) < c_ttl (signed_results st) ->
  sat_sub (at_lookup clk2) (at_reserve clk) < g_ttl (op_replay_guard st) ->
  (request_digest sha256 req2 = request_digest sha256 req ->
   handle_sign keccak256 sha256 inv cfg keys launch st' req2 deadline2 clk2 t2 = (st', Ok (resp, None))) /\
  (request_digest sha256 req2 <> request_digest sha256 req ->
   exists e, handle_sign keccak256 sha256 inv cfg keys launch st' req2 deadline2 clk2 t2 = (st', Err (CrossCheck e))).
Proof.
  intros H Hs Hd Hs2 Hd2 Hkey Hc Hg.
  apply handle_sign_fresh in H as (s' & d' & km & key & g & t' & Es & Ed & -> & Ek & _ & Hr & _ & ->).
  rewrite Hs in Es. injection Es as <-. rewrite Hd in Ed. injection Ed as <-. rewrite Ek in Hkey.
  unfold handle_sign, sign_prologue. rewrite Hs2, Hd2. cbn [ok_or rbind check_signer_role]. rewrite Hkey.
  cbn [mbind option_bind signed_results]. rewrite (put_then_get _ _ _ _ _ _ _ Hc). split; intros E.
  - by rewrite bool_decide_eq_true_2 by done.
  - rewrite bool_decide_eq_false_2 by congruence. unfold precheck_operation. rewrite Hkey.
    cbn [op_replay_guard]. unfold reserve_at in Hr. destruct (check_and_record_at _ _ _) as [g' [gen|e|]] eqn:Hrec; try done.
    injection Hr as <- _. rewrite (record_then_check _ _ _ _ _ _ Hrec Hg). cbn [rmap_err rbind]. by eexists.
Qed.

(** The same operation with other bytes. *)
Definition other_request : SignRequest := {|
  sr_amount := 499; source_network := source_network mint_request;
  destination_network := destination_network mint_request; sr_encoded := [x2b] |}.

Lemma mint_retry_witness :
  sample_sign (sample_sign empty_state mint_request 0).1 mint_request (secs 60) =
    ((sample_sign empty_state mint_request 0).1, Ok ((replicate 64 x01, 1), None)) /\
  exists e, sample_sign (sample_sign empty_state mint_request 0).1 other_request (secs 60) =
    ((sample_sign empty_state mint_request 0).1, Err (CrossCheck e)).
Proof.
  split.
  - refine (proj1 (mint_retry (C := rgb_codec) (P := mint_provider) _ _ _ _ _ _ _ _ _ _ _ _ _ _ mint_request
      _ _ _ _ _ _ _ sample_sign_ok eq_refl eq_refl eq_refl eq_refl eq_refl _ _) eq_refl); by vm_compute.
  - refine (proj2 (mint_retry (C := rgb_codec) (P := mint_provider) _ _ _ _ _ _ _ _ _ _ _ _ _ _ other_request
      _ _ _ _ _ _ _ sample_sign_ok eq_refl eq_refl eq_refl eq_refl eq_refl _ _) _); by vm_compute.
Defined.

(** C23: a signed refill gives no right away.  It spends at most two inputs, all
    of them Colored inputs of the enclave, keeps every satoshi but a bounded fee,
    and commits the propagate that the fascia of the request discloses; it closes one
    right of the pinned asset, which exactly one of the inputs spends on the output
    where the committed transition of the parent fascia put it alone, and makes at least as many rights as the transaction has inputs,
    each alone on its own output, which the enclave derives from its Colored
    account; and the rate limit admitted it. *)
Theorem signed_refill_keeps_rights {R : RgbStd} {F : BfaSchema} {K : Bip32} {B : Bitcoin} {L : BitcoinLaws B}
    {C : PsbtCodec} {CL : PsbtCodecLaws C} {T : @TapSigner K} (cfg : MintPins)
    (keys : enclave_result (KeyManager K)) rate req now rate' resp :
  handle_sign_rights_refill cfg keys rate req now = (rate', Ok resp) ->
  exists km psbt pin f c bundle right vouts i,
    keys = Ok km /\ psbt_deserialize (rr_psbt_bytes req) = Some psbt /\
    refill_admit rate now = (rate', Ok tt) /\
    pinned_contract (mp_rgb_asset_id cfg) = Ok pin /\ parse_fascia (rr_fascia req) = Ok f /\
    discloses (unsigned_tx psbt) f pin c bundle /\ refills c right vouts /\
    spends_right psbt (rr_parent_fascia req) pin right i /\
    zlen (tx_input (unsigned_tx psbt)) <= 2 <= zlen vouts /\
    Forall (fun v => output_is_self_derived psbt (Z.to_nat v) km (Some Colored) = true) vouts /\
    (forall i, (i < length (inputs psbt))%nat -> i ∈ fee_key_path_inputs_scoped psbt km Colored) /\
    kept psbt km None /\ (exists fee, psbt_fee psbt = Some fee /\ 0 <= fee <= MAX_FEE_SATS).
Proof.
  unfold handle_sign_rights_refill. intros H.
  destruct (let? psbt := _ in _) as [[psbt km]|e|] eqn:Hpre; try done.
  apply rbind_ok in Hpre as (p & Hp & Hpre). apply parse_psbt_shape_ok in Hp as (Hp & _ & _).
  apply rbind_ok in Hpre as (km' & Hk & Hpre). apply rbind_ok in Hpre as ([] & Hgate & Hpre).
  injection Hpre as -> ->. destruct (refill_admit rate now) as [rate2 adm] eqn:Hadm.
  injection H as <- H. apply rbind_ok in H as ([] & -> & H). apply rbind_ok in H as (vouts & Hv & H).
  apply rbind_ok in H as ([] & Ho & _). apply assert_refill_rights_owned_ok in Ho.
  apply refill_gate_ok in Hgate as (G1 & G2 & G3 & fee & Hfee & [Hb _]); [|by eapply psbt_deserialize_amounts].
  unfold validate_rights_refill in Hv. apply rbind_ok in Hv as ([] & _ & Hv).
  apply rbind_ok in Hv as ([pin c] & Hc & Hv). apply rbind_ok in Hv as ([right vs] & Hr & Hv).
  apply rbind_ok in Hv as (i & Hi & Hv). injection Hv as ->. apply refill_rights_ok in Hr.
  apply pinned_commitment_ok in Hc as (f & Hpin & Hf & Hct & _). apply committed_transition_ok in Hct as (b & D).
  apply right_input_spends in Hi.
  destruct (rf_only _ _ _ Hr) as (legs & _ & Hl1 & Hl2 & _).
  exists km, psbt, pin, f, c, b, right, vouts, i. split_and!; try done; [lia|by exists fee].
Qed.

Definition sample_refill : SignRightsRefillRequest := {|
  rr_psbt_bytes := [x04]; rr_asset_id := "rgb:asset"; rr_fascia := [x04]; rr_parent_fascia := [x01] |}.

Definition sample_refill_run : RefillRateLimit * enclave_result (bytes * Z) :=
  handle_sign_rights_refill (C := rgb_codec) sample_pins (Ok sample_keys) default_refill sample_refill 0.

Lemma signed_refill_keeps_rights_witness :
  sample_refill_run = (sample_refill_run.1, Ok (replicate 64 x01, 1)) /\
  exists km psbt vouts, Ok (E := EnclaveError) sample_keys = Ok km /\
    psbt_deserialize (PsbtCodec := rgb_codec) [x04] = Some psbt /\
    zlen (tx_input (unsigned_tx psbt)) <= 2 <= zlen vouts /\
    Forall (fun v => output_is_self_derived psbt (Z.to_nat v) km (Some Colored) = true) vouts.
Proof.
  assert (H : sample_refill_run = (sample_refill_run.1, Ok (replicate 64 x01, 1))) by by vm_compute.
  split; [exact H|].
  destruct (signed_refill_keeps_rights (C := rgb_codec) _ _ _ _ _ _ _ H)
    as (km & psbt & pin & f & c & b & right & vouts & i & H1 & H2 & _ & _ & _ & _ & _ & _ & H3 & H4 & _).
  exists km, psbt, vouts. exact (conj H1 (conj H2 (conj H3 H4))).
Defined.
