(* ===== verification/EvmRelay.v ===== *)
(** * BtcRelay agreement and the burn binding

    The second half of src/enclave/src/networks/evm/crosscheck.rs: the finality
    proof in the calldata is compared with the enclave's own header chain; and
    [apply_funds_out_binding] (server/sign.rs), the sequence of binds before a
    release is signed, with [sign_with_chain_pins_unchanged]
    (server/signers.rs).  Header serialization and Keccak-256 are parameters. *)

From stdpp Require Import strings sorting base gmap numbers list.
From S2P Require Import Prelude Errors SpvTypes SpvChain SpvChainSpec SpvMerkle SpvCrosscheck.
From S2P Require Import AttestedPolicy EvmRelease.

#[local] Open Scope list_scope.
#[local] Open Scope Z_scope.

Inductive BtcRelayMode : Type := Required | NoRelay.

Record ProofBlock : Type := { pb_height : Z; pb_commitment : bytes }.

Record ConsignmentAnchor : Type := {
  ca_height : Z;
  ca_commitment : bytes;
  ca_txid : bytes
}.

Definition FUNDS_OUT_PROOF_LEN : Z := 4 * 32.
Definition MAX_RELAY_TIP_LAG_BLOCKS : Z := MAX_REORG_DEPTH.

(** [&b[lo..hi]] of a slice known to be long enough. *)
Definition sub_slice (lo hi : nat) (b : bytes) : bytes := take (hi - lo) (drop lo b).

Definition proof_height (word : bytes) : enclave_result Z :=
  if existsb (fun b => negb (b2z b =? 0)) (take 28 word)
  then Err (CrossCheck "fundsOut proof height exceeds u32 range")
  else Ok (be_combine (sub_slice 28 32 word)).

Definition decode_funds_out_proof (r : ReleaseIdentity) : enclave_result (ProofBlock * ProofBlock) :=
  let p := proof r in
  if zlen p =? 0 then Err (CrossCheck "fundsOut proof is empty")
  else if negb (zlen p =? FUNDS_OUT_PROOF_LEN) then Err (CrossCheck "fundsOut proof must be 128 bytes")
  else
    let? source_height := proof_height (sub_slice 0 32 p) in
    let? latest_height := proof_height (sub_slice 64 96 p) in
    Ok ({| pb_height := source_height; pb_commitment := sub_slice 32 64 p |},
        {| pb_height := latest_height; pb_commitment := sub_slice 96 128 p |}).

Section Relay.
Context {B : BitcoinCrate} {A : AbiCodec}.
Variable sha256d : bytes -> bytes.
Variable keccak256 : bytes -> bytes.
Variable serialize_header : Header -> bytes.
Variable TS_BURN : Z.
Variable eip712_hash_struct : UtexoBurnDestinationV1 -> bytes.

Definition display_hash_at (chain : HeaderChain) (height : Z) : option bytes :=
  h ← header_at chain height; Some (reverse (block_hash h)).

Definition assert_header_present (chain : HeaderChain) (b : ProofBlock) : enclave_result unit :=
  let? _ := ok_or (display_hash_at chain (pb_height b))
    (Spv "fundsOut BtcRelay check: no header at block height") in
  Ok tt.

(** [relay_record]; [copy_from_slice] panics unless a header is 80 bytes. *)
Definition relay_record (chain : HeaderChain) (height : Z) : enclave_result bytes :=
  let cp := hc_checkpoint chain in
  let? header := ok_or (header_at chain height) (Spv "fundsOut relay record: no header at height") in
  let? cp_work := ok_or (cp_chain_work cp) (Spv "fundsOut relay record: the checkpoint has no chainwork") in
  let epoch_start := height - height mod RETARGET_INTERVAL in
  if (height <? wrap32 (cp_height cp + 10)) || (epoch_start <? cp_height cp)
  then Err (Spv "fundsOut relay record needs blocks below the checkpoint")
  else
    let time_at := fun h =>
      match header_at chain h with Some hd => time hd | None => cp_time cp end in
    let w :=
      fold_left (fun acc hd => work_add acc (work hd))
        (omap (header_at chain) (seqZ (cp_height cp + 1) (height - cp_height cp))) (be_combine cp_work) in
    if negb (zlen (serialize_header header) =? 80) then Panic
    else
      Ok (serialize_header header ++ be_split 32 w ++ be_split 4 height ++
          be_split 4 (time_at epoch_start) ++
          concat ((fun h => be_split 4 (time_at h)) <$> seqZ (height - 10) 10)).

Definition assert_relay_commitment (chain : HeaderChain) (b : ProofBlock) : enclave_result unit :=
  let? record := relay_record chain (pb_height b) in
  if negb (bool_decide (pb_commitment b = keccak256 record))
  then Err (CrossCheck "fundsOut relay commitment mismatch")
  else Ok tt.

Definition resolve_consignment_anchor (v : ValidatedBurn) (proofs : list MerkleProofEntry)
    (chain : HeaderChain) (min_confirmations : Z) : enclave_result ConsignmentAnchor :=
  let? witness_txid := ok_or (last_witness_txid v)
    (CrossCheck "fundsOut requires a consignment with at least one witness bundle") in
  let txid := reverse witness_txid in
  let? p := ok_or (List.find (fun p => bool_decide (mp_txid p = txid)) proofs)
    (Spv "fundsOut source block: no merkle proof for the consignment's last witness tx") in
  let? commitment := ok_or (display_hash_at chain (mp_block_height p))
    (Spv "fundsOut source block: enclave holds no header at height") in
  let? _ := validate_spv_proofs sha256d chain [txid] [p] min_confirmations in
  Ok {| ca_height := mp_block_height p; ca_commitment := commitment; ca_txid := txid |}.

Definition is_zero_block (b : ProofBlock) : bool := bool_decide (pb_commitment b = replicate 32 x00).

(** The mode's rule for the two commitment words. *)
Definition check_commitments (chain : HeaderChain) (mode : BtcRelayMode) (source latest : ProofBlock)
    : enclave_result unit :=
  match mode with
  | Required =>
      if is_zero_block source || is_zero_block latest
      then Err (CrossCheck "fundsOut relay proof carries a zero commitment")
      else
        let? _ := assert_relay_commitment chain source in
        assert_relay_commitment chain latest
  | NoRelay =>
      if negb (is_zero_block source) || negb (is_zero_block latest)
      then Err (CrossCheck "fundsOut relay proof carries a commitment, but this enclave runs without a relay")
      else Ok tt
  end.

(** Continue with the pins after a step that may have changed them. *)
Definition and_then (s : ChainPins * enclave_result unit)
    (k : ChainPins -> ChainPins * enclave_result unit) : ChainPins * enclave_result unit :=
  match s with
  | (pins, Ok _) => k pins
  | (pins, r) => (pins, r)
  end.

Definition verify_btc_relay_agreement (r : ReleaseIdentity) (v : ValidatedBurn)
    (proofs : list MerkleProofEntry) (chain : HeaderChain) (pins : ChainPins) (mode : BtcRelayMode)
    (min_confirmations : Z) : ChainPins * enclave_result unit :=
  match decode_funds_out_proof r with
  | Ok (source, latest) =>
      if pb_height latest <? pb_height source
      then (pins, Err (Spv "fundsOut BtcRelay check: proof latest height is below source height"))
      else
        and_then (pins, assert_header_present chain latest) (fun pins =>
        and_then (pin pins chain (pb_height latest) 1) (fun pins =>
        if MAX_RELAY_TIP_LAG_BLOCKS <? sat_sub (tip_height chain) (pb_height latest)
        then (pins, Err (Spv "fundsOut BtcRelay check: the relay's view is too stale"))
        else
          match resolve_consignment_anchor v proofs chain min_confirmations with
          | Ok anchor =>
              and_then (pin pins chain (ca_height anchor) min_confirmations) (fun pins =>
              if negb (pb_height source =? ca_height anchor)
              then (pins, Err (CrossCheck "fundsOut source block mismatch"))
              else (pins, check_commitments chain mode source latest))
          | Err e => (pins, Err e)
          | Panic => (pins, Panic)
          end))
  | Err e => (pins, Err e)
  | Panic => (pins, Panic)
  end.

(** [apply_funds_out_binding] of a build with SPV and [bfa-mint]; the header
    chain's lock fails when poisoned. *)
Definition apply_funds_out_binding (header_chain : mutex HeaderChain) (mode : BtcRelayMode)
    (min_confirmations : Z) (r : ReleaseIdentity) (validated : option ValidatedBurn)
    (proofs : list MerkleProofEntry) (pins : ChainPins) (record : option BurnDestinationRecord)
    : ChainPins * enclave_result unit :=
  match validated with
  | None => (pins, Err (CrossCheck "fundsOut signing requires a validated RGB source consignment"))
  | Some v =>
      and_then (pins, assert_witnesses_confirmed v) (fun pins =>
      if poisoned header_chain then (pins, Err (Internal "SPV header chain lock poisoned"))
      else
        and_then
          (verify_btc_relay_agreement r v proofs (contents header_chain) pins mode min_confirmations)
          (fun pins =>
             (pins,
              let? _ := validate_funds_out_amount TS_BURN r v in
              let? _ := validate_funds_out_source_burn_tx_id r v in
              let? _ := validate_funds_out_burn_recipient eip712_hash_struct r v record in
              validate_funds_out_settlement r (mint_lock_ids v))))
  end.

(** [sign_with_chain_pins_unchanged] around the key use [sign]. *)
Definition sign_with_chain_pins_unchanged {T : Type} (header_chain : mutex HeaderChain)
    (pins : ChainPins) (sign : enclave_result T) : enclave_result T :=
  if pins_is_empty pins then sign
  else if poisoned header_chain then Err (Internal "SPV header chain lock poisoned")
  else
    let? _ := assert_unchanged pins (contents header_chain) in
    sign.
End Relay.
