(* ===== verification/EvmRelayProps.v ===== *)
(** * Theorems on the BtcRelay agreement and the burn binding

    What the finality proof binds, and the chain of guarantees from an accepted
    release to the use of the key. *)

From stdpp Require Import strings sorting base gmap numbers list.
From S2P Require Import Prelude Errors Lengths SpvTypes SpvChain SpvConcrete SpvChainSpec SpvChainProps.
From S2P Require Import SpvMerkle SpvCrosscheck AttestedPolicy EvmRelease EvmReleaseProps EvmRelay.

#[local] Open Scope list_scope.
#[local] Open Scope Z_scope.

(** ** ABI words *)

Lemma be_combine_inj a b : length a = length b -> be_combine a = be_combine b -> a = b.
Proof. intros Hl H. by rewrite <- (be_split_combine a), <- (be_split_combine b), Hl, H. Qed.

Lemma be_split_pad k n z :
  0 <= z < 256 ^ Z.of_nat n -> be_split (k + n) z = replicate k x00 ++ be_split n z.
Proof.
  intros Hz. apply be_combine_inj.
  - by rewrite length_app, length_replicate, !be_split_length.
  - rewrite be_combine_zeros, !be_combine_split; [done|done|].
    split; [lia|]. rewrite Nat2Z.inj_add, Z.pow_add_r by lia.
    pose proof (Z.pow_pos_nonneg 256 (Z.of_nat k) ltac:(lia) ltac:(lia)). nia.
Qed.

Lemma zeros_exist l : existsb (fun b => negb (b2z b =? 0)) l = false <-> l = replicate (length l) x00.
Proof.
  induction l as [|b l IH]; cbn [existsb length replicate]; [done|].
  rewrite orb_false_iff, IH, negb_false_iff, Z.eqb_eq. split.
  - intros [Hb Hl]. f_equal; [by apply b2z_inj|done].
  - intros [= -> Hl]. split; [done|]. by rewrite Hl at 1.
Qed.

(** A word is read as a height exactly when it is the ABI encoding of a [u32]. *)
Lemma proof_height_ok word h :
  zlen word = 32 -> proof_height word = Ok h <-> is_u32 h /\ word = be_split 32 h.
Proof.
  intros Hl. unfold proof_height, sub_slice. assert (Hln : length word = 32%nat) by (unfold zlen in Hl; lia).
  replace (take (32 - 28) (drop 28 word)) with (drop 28 word)
    by (rewrite take_ge; [done|rewrite length_drop; lia]).
  assert (Hbound : 0 <= be_combine (drop 28 word) < 2 ^ 32).
  { pose proof (be_combine_bound (drop 28 word)) as Hb. unfold zlen in Hb.
    rewrite length_drop, Hln in Hb. exact Hb. }
  destruct (existsb _ _) eqn:E.
  - split; [done|]. intros [Hh ->]. rewrite (be_split_pad 28 4) in E by done.
    rewrite take_app_le, take_ge in E by (rewrite length_replicate; lia).
    assert (existsb (fun b => negb (b2z b =? 0)) (replicate 28 x00) = false) by reflexivity. congruence.
  - apply zeros_exist in E. rewrite length_take, Hln in E.
    change (28 `min` 32)%nat with 28%nat in E. split.
    + intros [= <-]. split; [done|]. apply be_combine_inj; [by rewrite be_split_length|].
      rewrite be_combine_split by (cbn; lia).
      rewrite <- (take_drop 28 word) at 1. by rewrite E, be_combine_zeros.
    + intros [Hh ->]. f_equal. rewrite (be_split_pad 28 4) by done.
      rewrite drop_app_length' by by rewrite length_replicate. by apply be_combine_split.
Qed.

(** The decoded proof is the ABI encoding of its two pairs. *)
Lemma decode_proof_ok r s l :
  decode_funds_out_proof r = Ok (s, l) ->
  is_u32 (pb_height s) /\ is_u32 (pb_height l) /\
  zlen (pb_commitment s) = 32 /\ zlen (pb_commitment l) = 32 /\
  proof r = be_split 32 (pb_height s) ++ pb_commitment s ++
            be_split 32 (pb_height l) ++ pb_commitment l.
Proof.
  unfold decode_funds_out_proof. destruct (zlen (proof r) =? 0); [done|].
  destruct (negb _) eqn:E; [done|]. zbool. intros H. unfold FUNDS_OUT_PROOF_LEN in E.
  assert (Hln : length (proof r) = 128%nat) by (unfold zlen in E; lia).
  assert (Hsub : forall lo hi, (lo <= hi <= 128)%nat -> length (sub_slice lo hi (proof r)) = (hi - lo)%nat).
  { intros lo hi Hr. unfold sub_slice. rewrite length_take, length_drop. lia. }
  apply rbind_ok in H as (hs & Hs & H). apply rbind_ok in H as (hl & Hh & H). injection H as <- <-.
  apply proof_height_ok in Hs as [Us Ws]; [|unfold zlen; rewrite Hsub; lia].
  apply proof_height_ok in Hh as [Ul Wl]; [|unfold zlen; rewrite Hsub; lia].
  cbn [pb_height pb_commitment].
  split_and!; try done; try (unfold zlen; rewrite Hsub; lia).
  rewrite <- Ws, <- Wl. unfold sub_slice.
  rewrite <- (take_drop 32 (proof r)) at 1. f_equal.
  rewrite <- (take_drop 32 (drop 32 (proof r))) at 1. rewrite drop_drop. f_equal.
  rewrite <- (take_drop 32 (drop _ (proof r))) at 1. rewrite drop_drop. f_equal.
  rewrite take_ge; [done|]. rewrite length_drop. lia.
Qed.

Section Props.
Context {B : BitcoinCrate} {L : BitcoinCrateLaws B} {A : AbiCodec}.
Variable sha256d : bytes -> bytes.
Variable keccak256 : bytes -> bytes.
Variable serialize_header : Header -> bytes.
Variable TS_BURN : Z.
Variable eip712_hash_struct : UtexoBurnDestinationV1 -> bytes.

#[local] Abbreviation agree := (verify_btc_relay_agreement sha256d keccak256 serialize_header).
#[local] Abbreviation apply_binding :=
  (apply_funds_out_binding sha256d keccak256 serialize_header TS_BURN eip712_hash_struct).

Lemma and_then_ok s k pins' :
  and_then s k = (pins', Ok tt) <-> exists pins1, s = (pins1, Ok tt) /\ k pins1 = (pins', Ok tt).
Proof.
  destruct s as [p [[]|e|]]; cbn; split; try (by intros (? & [= <-] & ?)); try done.
  intros H. by exists p.
Qed.

Lemma resolve_anchor_ok v proofs c k a :
  chain_wf c -> Forall (fun p => is_u32 (mp_block_height p)) proofs ->
  resolve_consignment_anchor sha256d v proofs c k = Ok a ->
  exists p, p ∈ proofs /\ last_witness_txid v = Some (reverse (mp_txid p)) /\
    ca_height a = mp_block_height p /\ proof_ok sha256d c k p.
Proof.
  intros W Hh H. unfold resolve_consignment_anchor in H. apply rbind_ok in H as (w & Hw & H).
  destruct (last_witness_txid v) as [w'|]; [|done]. injection Hw as ->.
  apply rbind_ok in H as (p & Hp & H). destruct (List.find _ proofs) as [p'|] eqn:Ef; [|done].
  injection Hp as ->. apply List.find_some in Ef as [Hin Ht%bool_decide_eq_true].
  apply list_elem_of_In in Hin. apply rbind_ok in H as (cm & _ & H).
  apply rbind_unit_ok in H as [Hv H]. injection H as <-.
  rewrite Forall_forall in Hh. apply validate_spv_proofs_ok in Hv as (_ & _ & Hok);
    [|done|by constructor; [apply Hh|constructor]].
  exists p. rewrite Ht, reverse_involutive. apply Forall_cons in Hok as [Hok _]. done.
Qed.

(** What the check establishes, step by step. *)
Lemma agree_ok r v proofs c pins mode k pins' :
  agree r v proofs c pins mode k = (pins', Ok tt) ->
  exists s l a pins1, decode_funds_out_proof r = Ok (s, l) /\ pb_height s <= pb_height l /\
    (exists h, header_at c (pb_height l) = Some h) /\
    pin pins c (pb_height l) 1 = (pins1, Ok tt) /\
    sat_sub (tip_height c) (pb_height l) <= MAX_RELAY_TIP_LAG_BLOCKS /\
    resolve_consignment_anchor sha256d v proofs c k = Ok a /\
    pin pins1 c (ca_height a) k = (pins', Ok tt) /\ pb_height s = ca_height a /\
    check_commitments keccak256 serialize_header c mode s l = Ok tt.
Proof.
  unfold verify_btc_relay_agreement.
  destruct (decode_funds_out_proof r) as [[s l]| |] eqn:Ed; [|done|done].
  destruct (_ <? _) eqn:E1; [done|]. intros (p1 & Hp & H)%and_then_ok. injection Hp as -> Hp.
  apply and_then_ok in H as (p2 & Hp2 & H). destruct (_ <? _) eqn:E2 in H; [done|].
  destruct (resolve_consignment_anchor _ _ _ _ _) as [a| |] eqn:Ea; [|done|done].
  apply and_then_ok in H as (p3 & Hp3 & H). destruct (negb _) eqn:E3; [done|].
  injection H as -> Hc. zbool. exists s, l, a, p2. split_and!; try done.
  unfold assert_header_present, display_hash_at in Hp.
  destruct (header_at c (pb_height l)) as [h|]; [by exists h|done].
Qed.

Lemma check_commitments_ok c mode s l :
  check_commitments keccak256 serialize_header c mode s l = Ok tt ->
  match mode with
  | Required => exists rs rl,
      relay_record serialize_header c (pb_height s) = Ok rs /\ pb_commitment s = keccak256 rs /\
      relay_record serialize_header c (pb_height l) = Ok rl /\ pb_commitment l = keccak256 rl
  | NoRelay => pb_commitment s = replicate 32 x00 /\ pb_commitment l = replicate 32 x00
  end.
Proof.
  unfold check_commitments, assert_relay_commitment, is_zero_block. destruct mode.
  - destruct (_ || _); [done|]. intros [H1 H2]%rbind_unit_ok.
    apply rbind_ok in H1 as (rs & Hs & H1). apply rbind_ok in H2 as (rl & Hl & H2).
    apply refuse_ok, negb_false_iff, bool_decide_eq_true in H1, H2. by exists rs, rl.
  - do 2 case_bool_decide; cbn; done.
Qed.

(** A pin that was made is found by every later [assert_unchanged]. *)
Lemma pin_checked pins c height depth pins' c' :
  pin pins c height depth = (pins', Ok tt) -> assert_unchanged pins' c' = Ok tt ->
  hash_at c' height = hash_at c height /\ depth <= wrap32 (tip_height c' - height + 1).
Proof.
  intros (_ & (p & Hp & Hh & Hd) & _)%pin_recorded [_ Hu]%assert_unchanged_ok.
  apply Hu in Hp as [Hp Hdp]. split; [congruence|lia].
Qed.

(** Pinning more keeps the earlier pins checked. *)
Lemma pin_checked_before pins c height depth pins' c' j d pins0 :
  pin pins0 c j d = (pins, Ok tt) -> pin pins c height depth = (pins', Ok tt) ->
  assert_unchanged pins' c' = Ok tt -> hash_at c' j = hash_at c j.
Proof.
  intros (_ & (p & Hp & Hh & _) & _)%pin_recorded (_ & _ & Hold & _)%pin_recorded [_ Hu]%assert_unchanged_ok.
  apply Hold in Hp as (p' & Hp' & Heq & _). apply Hu in Hp' as [Hp' _]. congruence.
Qed.

(** The relay agreement binds the calldata's finality proof to the
    enclave's chain.  An accepted proof is the ABI encoding of two blocks the
    enclave holds; the source block is the one whose Merkle proof includes the
    last witness transaction, deep enough; the latest block is at most 100
    blocks below the tip; in [Required] mode both commitments hash the records
    rebuilt from the enclave's own headers; and both blocks are pinned. *)
Theorem relay_agreement_binds r v proofs c pins pins' mode k :
  chain_inv c -> Forall (fun p => is_u32 (mp_block_height p)) proofs ->
  agree r v proofs c pins mode k = (pins', Ok tt) ->
  exists s l p,
    proof r = be_split 32 (pb_height s) ++ pb_commitment s ++
              be_split 32 (pb_height l) ++ pb_commitment l /\
    p ∈ proofs /\ last_witness_txid v = Some (reverse (mp_txid p)) /\
    mp_block_height p = pb_height s /\ proof_ok sha256d c k p /\
    pb_height s <= pb_height l <= tip_height c /\ tip_height c <= pb_height l + MAX_REORG_DEPTH /\
    match mode with
    | Required => exists rs rl,
        relay_record serialize_header c (pb_height s) = Ok rs /\ pb_commitment s = keccak256 rs /\
        relay_record serialize_header c (pb_height l) = Ok rl /\ pb_commitment l = keccak256 rl
    | NoRelay => pb_commitment s = replicate 32 x00 /\ pb_commitment l = replicate 32 x00
    end /\
    (forall c', assert_unchanged pins' c' = Ok tt ->
       hash_at c' (pb_height s) = hash_at c (pb_height s) /\
       hash_at c' (pb_height l) = hash_at c (pb_height l)).
Proof.
  intros [W _] Hh (s & l & a & pins1 & Hd & Hle & [h Hhd] & Hp1 & Hlag & Ha & Hp2 & Hsa & Hc)%agree_ok.
  apply decode_proof_ok in Hd as (Us & Ul & _ & _ & Hpr).
  apply resolve_anchor_ok in Ha as (p & Hin & Hw & Hha & Hok); [|done|done].
  exists s, l, p. pose proof (header_at_range c _ h W Ul Hhd).
  unfold sat_sub, MAX_RELAY_TIP_LAG_BLOCKS in Hlag.
  split_and!; try done; try lia; [by apply check_commitments_ok|].
  intros c' Hu. split; [|by eapply pin_checked_before].
  rewrite Hsa. by eapply pin_checked.
Qed.

(** ** The binding as a whole *)

Lemma not_ascending_sorted ids : not_ascending ids = false <-> Sorted lex_lt ids.
Proof.
  induction ids as [|x ids IH]; [split; [constructor|done]|].
  destruct ids as [|y ids]; [split; [by repeat constructor|done]|].
  change (not_ascending (x :: y :: ids)) with (lex_leb y x || not_ascending (y :: ids)).
  rewrite orb_false_iff, IH. split.
  - intros [Hx Hs]. constructor; [done|]. by constructor.
  - intros [Hs Hh]%Sorted_inv. apply HdRel_inv in Hh. done.
Qed.

Lemma settlement_ok r locks :
  validate_funds_out_settlement r locks = Ok tt ->
  locks <> [] /\ exists ids, abi_encode_settlement ids = settlement_data r /\ Sorted lex_lt ids /\
    forall x, x ∈ ids <-> x ∈ locks.
Proof.
  unfold validate_funds_out_settlement. destruct (zlen locks =? 0) eqn:E0; [done|]. intros H.
  apply rbind_ok in H as (ids & _ & H). case_bool_decide as E1; [|done]. cbn [negb] in H.
  destruct (not_ascending ids) eqn:E2; [done|]. case_bool_decide as E3; [|done].
  split; [by intros ->|]. exists ids. split; [done|]. split; [by apply not_ascending_sorted|].
  intros x. rewrite E3. apply canonical_elem.
Qed.

Lemma apply_binding_ok hc mode k r validated proofs pins record pins' :
  apply_binding hc mode k r validated proofs pins record = (pins', Ok tt) ->
  exists v, validated = Some v /\ non_mined_witness_txids v = [] /\ poisoned hc = false /\
    agree r v proofs (contents hc) pins mode k = (pins', Ok tt) /\
    validate_funds_out_amount TS_BURN r v = Ok tt /\
    validate_funds_out_source_burn_tx_id r v = Ok tt /\
    validate_funds_out_burn_recipient eip712_hash_struct r v record = Ok tt /\
    validate_funds_out_settlement r (mint_lock_ids v) = Ok tt.
Proof.
  unfold apply_funds_out_binding. destruct validated as [v|]; [|done].
  intros (p1 & Hp1 & H)%and_then_ok. injection Hp1 as -> Hm. destruct (poisoned hc); [done|].
  apply and_then_ok in H as (p2 & Ha & H). injection H as -> H.
  apply rbind_unit_ok in H as [H1 H]. apply rbind_unit_ok in H as [H2 H].
  apply rbind_unit_ok in H as [H3 H4]. exists v. split_and!; try done.
  unfold assert_witnesses_confirmed in Hm. by destruct (non_mined_witness_txids v).
Qed.

(** The pins are not empty, so the check before the key is not skipped. *)
Lemma agree_pins_kept r v proofs c mode k pins' :
  agree r v proofs c new_pins mode k = (pins', Ok tt) ->
  pins_is_empty pins' = false.
Proof.
  intros (s & l & a & pins1 & _ & _ & _ & Hp1 & _ & _ & Hp2 & _)%agree_ok.
  apply pin_recorded in Hp1 as (Hpo1 & _). apply pin_recorded in Hp2 as (Hpo2 & (p & Hp & _) & _).
  unfold pins_is_empty, pins_len. rewrite Hpo2, Hpo1. apply Z.eqb_neq. intros E.
  assert (size (contents (pinned pins')) = 0%nat) as E0%map_size_empty_inv by (cbn in E; lia).
  by rewrite E0, lookup_empty in Hp.
Qed.

(** From the burn to the signature.  When [apply_funds_out_binding]
    accepts a release on the chain [hc] and the key is used on the chain
    [hc'], the release names the validated burn: its amount, its operation id,
    the payee, chain and route of its reason, exactly the deposits of its mint
    ancestry; and the block that includes its witness transaction is still in
    the chain, at least [k] deep, when the key is used. *)
Theorem burn_release_end_to_end hc hc' mode k r validated proofs record pins' {T : Type}
    (sign : enclave_result T) signature :
  chain_inv (contents hc) -> chain_inv (contents hc') ->
  hc_checkpoint (contents hc') = hc_checkpoint (contents hc) ->
  Forall (fun p => is_u32 (mp_block_height p)) proofs ->
  apply_binding hc mode k r validated proofs new_pins record = (pins', Ok tt) ->
  sign_with_chain_pins_unchanged hc' pins' sign = Ok signature ->
  exists v, validated = Some v /\ non_mined_witness_txids v = [] /\
    burned v = Some (amount r) /\ last_transfer_op_id v = Some (source_burn_tx_id r) /\
    (exists last reason t, last_transition v = Some last /\ burn_reason last = Some reason /\
       names_target eip712_hash_struct reason record t /\
       bt_dst_eid t = dst_eid r /\ bt_recipient t = recipient r /\
       (forall ch, bt_destination_chain_id t = Some ch -> destination_chain_id r = ch)) /\
    (mint_lock_ids v <> [] /\ exists ids, abi_encode_settlement ids = settlement_data r /\
       Sorted lex_lt ids /\ forall x, x ∈ ids <-> x ∈ mint_lock_ids v) /\
    (exists p h h', p ∈ proofs /\ last_witness_txid v = Some (reverse (mp_txid p)) /\
       header_at (contents hc) (mp_block_height p) = Some h /\
       verify_merkle_proof sha256d (reverse (mp_txid p)) (mp_tx_position p)
         (reverse <$> mp_merkle_path p) (header_merkle_root h) = Ok tt /\
       header_at (contents hc') (mp_block_height p) = Some h' /\ block_hash h' = block_hash h /\
       k <= tip_height (contents hc') - mp_block_height p + 1).
Proof.
  intros [W _] [W' _] Hcp Hh (v & -> & Hm & _ & Hag & Ha & Ho & Hr & Hs)%apply_binding_ok Hsign.
  exists v. apply amount_ok in Ha. apply op_id_ok in Ho. apply burn_recipient_ok in Hr.
  apply settlement_ok in Hs. split_and!; try done; [apply Hs|apply Hs|].
  unfold sign_with_chain_pins_unchanged in Hsign. rewrite (agree_pins_kept _ _ _ _ _ _ _ Hag) in Hsign.
  destruct (poisoned hc'); [done|]. apply rbind_unit_ok in Hsign as [Hu _].
  apply agree_ok in Hag as (s & l & a & pins1 & _ & _ & _ & _ & _ & Hanchor & Hp2 & _).
  apply resolve_anchor_ok in Hanchor as (p & Hin & Hw & Hha & [_ _ _ (h & Hhd & Hmp) _]); [|done|done].
  rewrite Hha in Hp2. pose proof (pin_checked _ _ _ _ _ _ Hp2 Hu) as [Hhash Hdepth].
  rewrite Forall_forall in Hh. pose proof (Hh p Hin) as Hu32.
  rewrite (hash_at_header _ _ h W Hu32 Hhd) in Hhash.
  destruct (chain_held (contents hc') (mp_block_height p) (block_hash h) W' Hu32) as (h' & Hh' & Hb & Ht).
  { pose proof (header_at_range _ _ h W Hu32 Hhd) as [Hb _].
    rewrite (wf_height _ W'), Hcp, <- (wf_height _ W). done. }
  { done. }
  rewrite depth_wrap in Hdepth by done. exists p, h, h'. split_and!; done.
Qed.

(** A poisoned pin set counts as empty: the key is then used without the
    second check. *)
Lemma poisoned_pins_are_skipped hc pins {T : Type} (sign : enclave_result T) :
  poisoned (pinned pins) = true -> sign_with_chain_pins_unchanged hc pins sign = sign.
Proof.
  intros Hp. unfold sign_with_chain_pins_unchanged, pins_is_empty, pins_len. by rewrite Hp.
Qed.

End Props.

(** ** A concrete run: a burn anchored two blocks below the tip *)

Definition relay_checkpoint : Checkpoint := {|
  cp_height := 2016; cp_hash := [x00]; cp_bits := 7; cp_time := 10000; cp_is_real := true;
  cp_chain_work := Some (replicate 32 x00) |}.

(** Twelve blocks above the checkpoint. *)
Definition relay_chain : HeaderChain (B := small_crate) :=
  fst (submit_headers (new_chain Mainnet relay_checkpoint) 2017
         ((fun i => raw_header (z2b i) (10600 + 600 * i) x07 (z2b (i + 1))) <$> seqZ 0 12) 20000).

Lemma relay_chain_inv : chain_inv (B := small_crate) relay_chain.
Proof. apply submit_headers_inv, new_chain_inv; by vm_compute. Qed.

Definition relay_sha (_ : bytes) : bytes := [x0a].
Definition relay_keccak (_ : bytes) : bytes := replicate 32 x07.
Definition relay_serialize (_ : small_header) : bytes := replicate 80 x00.

Definition relay_codec : AbiCodec := {|
  LZ_FUNDS_OUT_SELECTOR := [x01; x02; x03; x04];
  abi_decode_funds_out := fun _ => None;
  abi_encode_funds_out := sample_encode;
  abi_decode_lz_funds_out := fun _ => None;
  abi_encode_lz_funds_out := fun _ => [];
  abi_decode_settlement := fun d => Some [d];
  abi_encode_settlement := fun ids => concat ids
|}.

Definition relay_proof : MerkleProofEntry := {|
  mp_txid := sample_txid; mp_block_height := 2026; mp_tx_position := 0;
  mp_merkle_path := [replicate 32 x00] |}.

Definition relay_burn : ValidatedBurn := {|
  last_transition := Some {| transition_type := 8000; burned_asset_amount := Some 5000;
                             burn_reason := Some (sample_hash (to_sol_v1 sample_record)) |};
  last_witness_txid := Some sample_txid;
  last_transfer_op_id := Some (replicate 32 x09);
  non_mined_witness_txids := [];
  mint_lock_ids := [replicate 32 x05; replicate 32 x05] |}.

Definition relay_release : ReleaseIdentity := {|
  burn_id := 7; amount := 5000; source_chain_id := RGB_CHAIN_ID; source_address := [];
  settlement_data := replicate 32 x05; source_burn_tx_id := replicate 32 x09;
  recipient := replicate 12 x00 ++ replicate 20 x77; destination_chain_id := 1;
  dst_eid := Some 30101;
  proof := be_split 32 2026 ++ replicate 32 x07 ++ be_split 32 2028 ++ replicate 32 x07 |}.

Lemma relay_agreement_binds_witness :
  exists s l p,
    proof relay_release = be_split 32 (pb_height s) ++ pb_commitment s ++
      be_split 32 (pb_height l) ++ pb_commitment l /\
    p ∈ [relay_proof] /\ mp_block_height p = pb_height s /\
    tip_height relay_chain <= pb_height l + MAX_REORG_DEPTH.
Proof.
  destruct (relay_agreement_binds (B := small_crate) relay_sha relay_keccak relay_serialize
    relay_release relay_burn [relay_proof] relay_chain new_pins
    (fst (verify_btc_relay_agreement (B := small_crate) relay_sha relay_keccak relay_serialize
            relay_release relay_burn [relay_proof] relay_chain new_pins Required 2)) Required 2
    relay_chain_inv) as (s & l & p & H1 & H2 & _ & H3 & _ & _ & H4 & _).
  - repeat constructor; done.
  - by vm_compute.
  - by exists s, l, p.
Defined.

Lemma burn_release_end_to_end_witness :
  burned relay_burn = Some (amount relay_release) /\
  exists p, p ∈ [relay_proof] /\ 2 <= tip_height relay_chain - mp_block_height p + 1.
Proof.
  destruct (burn_release_end_to_end (B := small_crate) (A := relay_codec) relay_sha relay_keccak
    relay_serialize 8000 sample_hash (new_mutex relay_chain) (new_mutex relay_chain) Required 2
    relay_release (Some relay_burn) [relay_proof] (Some sample_record)
    (fst (apply_funds_out_binding (B := small_crate) (A := relay_codec) relay_sha relay_keccak
            relay_serialize 8000 sample_hash (new_mutex relay_chain) Required 2 relay_release
            (Some relay_burn) [relay_proof] new_pins (Some sample_record)))
    (Ok 42) 42 relay_chain_inv relay_chain_inv eq_refl)
    as (v & [= <-] & _ & Hb & _ & _ & _ & (p & h & h' & Hp & _ & _ & _ & _ & _ & Hk)).
  - repeat constructor; done.
  - by vm_compute.
  - by vm_compute.
  - split; [exact Hb|]. by exists p.
Defined.
