(* ===== verification/LaunchConfig.v ===== *)
(** * Configuration (src/enclave/src/config.rs, kms/mod.rs)

    [BridgeConfig::from_env] reads the pins of the measured image,
    [Endpoints::parse] the endpoints and the KMS key that the operator sets once
    at launch.  A build feature is a field of [Features]; a [panic!] or [expect]
    at boot is [Panic]. *)

From stdpp Require Import strings base numbers list.
From S2P Require Import Prelude Errors RustText SpvTypes AttestedPolicy EvmRelay.

#[local] Open Scope list_scope.
#[local] Open Scope Z_scope.

#[export] Instance signer_role_eq_dec : EqDecision SignerRole.
Proof. solve_decision. Defined.
#[export] Instance evm_source_eq_dec : EqDecision EvmDataSource.
Proof. solve_decision. Defined.
#[export] Instance bitcoin_network_eq_dec : EqDecision BitcoinNetwork.
Proof. solve_decision. Defined.
#[export] Instance finality_eq_dec : EqDecision EvmFinalityTag.
Proof. solve_decision. Defined.
#[export] Instance relay_mode_eq_dec : EqDecision BtcRelayMode.
Proof. solve_decision. Defined.

Definition ZERO20 : bytes := replicate 20 x00.

Definition u16_max : Z := 2 ^ 16 - 1.
Definition u128_max : Z := 2 ^ 128 - 1.

(** ** The environment *)

Inductive VarError : Type := NotPresent | NotUnicode.

(** [std::env::var]. *)
Definition Env : Type := string -> res VarError bytes.

(** [.ok()]. *)
Definition var_ok (env : Env) (key : string) : option bytes :=
  match env key with Ok v => Some v | _ => None end.

(** ** BridgeConfig *)

Definition DEFAULT_MAX_CONSIGNMENT_BYTES : Z := 10 * 1024 * 1024.
Definition DEFAULT_MAX_MERKLE_PROOFS : Z := 16384.
Definition DEFAULT_MAX_TOTAL_PROOF_BYTES : Z := 8 * 1024 * 1024.
Definition DEFAULT_SPV_MIN_CONFIRMATIONS : Z := 3.
Definition DEFAULT_MINT_WITNESS_SAT : Z := 1500.
Definition MIN_MINT_WITNESS_SAT : Z := 546.
Definition MAX_MINT_WITNESS_SAT : Z := 10000.

Record BridgeConfig : Type := {
  bc_chain_id : Z;
  bc_bridge_contract : bytes;
  bc_rgb_asset_id : bytes;
  bc_gas_tx_allowed_to : option bytes;
  bc_gas_tx_max_gas_limit : Z;
  bc_gas_tx_max_fee_per_gas : Z;
  bc_gas_tx_allowed_selectors : list bytes;
  bc_gas_tx_max_value_wei : option Z;
  bc_btc_max_total_sats : Z;
  bc_btc_max_unowned_sats : Z;
  bc_funds_in_contract : bytes;
  bc_evm_finality_tag : EvmFinalityTag;
  bc_token_contract : bytes;
  bc_bitcoin_network : BitcoinNetwork;
  bc_btc_relay_mode : BtcRelayMode;
  bc_max_consignment_bytes : Z;
  bc_max_merkle_proofs : Z;
  bc_max_total_proof_bytes : Z;
  bc_spv_min_confirmations : Z;
  bc_mint_witness_sat : Z;
  bc_endpoints_sha256 : option bytes;
  bc_kms_allowed_accounts : list bytes
}.

Definition parse_evm_finality_tag (value : res VarError bytes) : str_result EvmFinalityTag :=
  match value with
  | Ok value => ok_or (tag_from_str (to_str value)) "invalid EVM finality tag"
  | Err NotPresent => Ok Finalized
  | Err NotUnicode => Err "value must be valid Unicode"
  | Panic => Panic
  end.

(** [BtcRelayMode::from_env_value]. *)
Definition relay_mode_from_env (value : option bytes) : BtcRelayMode :=
  match trim <$> value with
  | None | Some [] => Required
  | Some v =>
      if eq_ignore_ascii_case v (text "required") then Required
      else if eq_ignore_ascii_case v (text "none") then NoRelay
      else Required
  end.

Definition parse_kms_allowed_accounts (value : option bytes) : str_result (list bytes) :=
  let ids := filter (fun id => id <> []) (map trim (split x2c (default [] value))) in
  if existsb (fun id => negb (zlen id =? 12) || negb (forallb is_ascii_digit id)) ids then
    Err "KMS_ALLOWED_ACCOUNT_IDS must list 12-digit AWS account ids"
  else Ok ids.

Definition parse_consignment_limit (value : option bytes) : str_result Z :=
  match value ≫= parse_uint u64_max with
  | Some n =>
      if negb (0 <? n) then Ok DEFAULT_MAX_CONSIGNMENT_BYTES
      else if n <=? DEFAULT_MAX_CONSIGNMENT_BYTES then Ok n
      else Err "MAX_CONSIGNMENT_BYTES is above the largest consignment the memory model allows"
  | None => Ok DEFAULT_MAX_CONSIGNMENT_BYTES
  end.

(** [value.map(str::trim).filter(|v| !v.is_empty())]. *)
Definition trimmed (value : option bytes) : option bytes :=
  match trim <$> value with Some [] | None => None | Some v => Some v end.

Definition parse_spv_min_confirmations (value : option bytes) : str_result Z :=
  match trimmed value with
  | None => Ok DEFAULT_SPV_MIN_CONFIRMATIONS
  | Some raw =>
      match parse_uint u32_max raw with
      | Some n => if 1 <=? n then Ok n else Err "SPV_MIN_CONFIRMATIONS is not valid"
      | None => Err "SPV_MIN_CONFIRMATIONS is not valid"
      end
  end.

Definition parse_mint_witness_sat (value : option bytes) : str_result Z :=
  match trimmed value with
  | None => Ok DEFAULT_MINT_WITNESS_SAT
  | Some raw =>
      match parse_uint u64_max raw with
      | Some n =>
          if (MIN_MINT_WITNESS_SAT <=? n) && (n <=? MAX_MINT_WITNESS_SAT) then Ok n
          else Err "MINT_WITNESS_SAT is not valid"
      | None => Err "MINT_WITNESS_SAT is not valid"
      end
  end.

(** [unwrap_or_else(|e| panic!(..))] and [expect]. *)
Definition or_panic {A} (r : str_result A) : enclave_result A :=
  match r with Ok a => Ok a | _ => Panic end.

Section Config.
Context {T : TextCodecs}.

Definition array_hex (n : Z) (s : bytes) : option bytes :=
  match hex_decode s with
  | Some b => if zlen b =? n then Some b else None
  | None => None
  end.

Definition parse_endpoints_sha256 (value : option bytes) : str_result (option bytes) :=
  match value with
  | None | Some [] => Ok None
  | Some value =>
      let? b := ok_or (array_hex 32 value) "ENDPOINTS_SHA256 must be exactly 64 hex characters" in
      Ok (Some b)
  end.

Definition parse_eth_address (s : bytes) : enclave_result bytes :=
  let? b := ok_or (hex_decode (strip_0x s)) (InvalidRequest "eth address not hex") in
  if zlen b =? 20 then Ok b else Err (InvalidRequest "eth address must decode to 20 bytes").

Definition eth_address (s : bytes) : option bytes :=
  match parse_eth_address s with Ok b => Some b | _ => None end.

(** The closure of [GAS_TX_ALLOWED_SELECTORS]: a malformed entry is dropped. *)
Definition parse_selectors (s : bytes) : list bytes :=
  omap (fun part => array_hex 4 (strip_0x part)) (filter (fun p => p <> []) (map trim (split x2c s))).

(** [parse_cap]: unset, unparseable or zero gives the default. *)
Definition parse_cap (value : option bytes) (default_cap : Z) : Z :=
  match value ≫= parse_uint u64_max with
  | Some n => if 0 <? n then n else default_cap
  | None => default_cap
  end.

Definition from_env (env : Env) : enclave_result BridgeConfig :=
  let var := var_ok env in
  let number key max := default 0 (var key ≫= parse_uint max) in
  let bridge := default ZERO20 (var "EVM_PROXY_CONTRACT_ADDRESS" ≫= eth_address) in
  let? tag := or_panic (parse_evm_finality_tag (env "EVM_FINALITY_TAG")) in
  let? net := or_panic (ok_or
    (from_env_str (to_str (default (text "bitcoin") (var "BITCOIN_NETWORK")))) "unknown network") in
  let? consignment := or_panic (parse_consignment_limit (var "MAX_CONSIGNMENT_BYTES")) in
  let? confirmations := or_panic (parse_spv_min_confirmations (var "SPV_MIN_CONFIRMATIONS")) in
  let? witness_sat := or_panic (parse_mint_witness_sat (var "MINT_WITNESS_SAT")) in
  let? endpoints := or_panic (parse_endpoints_sha256 (var "ENDPOINTS_SHA256")) in
  let? accounts := or_panic (parse_kms_allowed_accounts (var "KMS_ALLOWED_ACCOUNT_IDS")) in
  Ok {|
    bc_chain_id := number "EVM_CHAIN_ID" u64_max;
    bc_bridge_contract := bridge;
    bc_rgb_asset_id := default [] (var "RGB_ASSET_ID");
    bc_gas_tx_allowed_to := var "GAS_TX_ALLOWED_TO" ≫= eth_address;
    bc_gas_tx_max_gas_limit := number "GAS_TX_MAX_GAS_LIMIT" u64_max;
    bc_gas_tx_max_fee_per_gas := number "GAS_TX_MAX_FEE_PER_GAS" u128_max;
    bc_gas_tx_allowed_selectors := default [] (parse_selectors <$> var "GAS_TX_ALLOWED_SELECTORS");
    bc_gas_tx_max_value_wei :=
      var "GAS_TX_MAX_VALUE_WEI" ≫= fun s => parse_uint u128_max (trim s);
    bc_btc_max_total_sats := number "BTC_MAX_TOTAL_SATS" u64_max;
    bc_btc_max_unowned_sats := number "BTC_MAX_UNOWNED_SATS" u64_max;
    bc_funds_in_contract := default bridge (var "FUNDS_IN_CONTRACT" ≫= eth_address);
    bc_evm_finality_tag := tag;
    bc_token_contract := default ZERO20 (var "TOKEN_CONTRACT" ≫= eth_address);
    bc_bitcoin_network := attested net;
    bc_btc_relay_mode := relay_mode_from_env (var "BTC_RELAY_MODE");
    bc_max_consignment_bytes := consignment;
    bc_max_merkle_proofs := parse_cap (var "MAX_MERKLE_PROOFS") DEFAULT_MAX_MERKLE_PROOFS;
    bc_max_total_proof_bytes := parse_cap (var "MAX_TOTAL_PROOF_BYTES") DEFAULT_MAX_TOTAL_PROOF_BYTES;
    bc_spv_min_confirmations := confirmations;
    bc_mint_witness_sat := witness_sat;
    bc_endpoints_sha256 := endpoints;
    bc_kms_allowed_accounts := accounts
  |}.

Definition config_is_configured (c : BridgeConfig) : bool :=
  negb (bc_chain_id c =? 0) && negb (bool_decide (bc_bridge_contract c = ZERO20)) &&
  negb (bool_decide (bc_rgb_asset_id c = [])).

Definition is_partially_configured (c : BridgeConfig) : bool :=
  (negb (bc_chain_id c =? 0) || negb (bool_decide (bc_bridge_contract c = ZERO20)) ||
   negb (bool_decide (bc_rgb_asset_id c = []))) && negb (config_is_configured c).

Definition allows_vanilla_btc (c : BridgeConfig) : bool := negb (bc_btc_max_total_sats c =? 0).

Definition validate_indexer_only (c : BridgeConfig) : str_result unit :=
  if negb (bool_decide (bc_bitcoin_network c = BnSignet)) then
    Err "RGB validation without SPV requires BITCOIN_NETWORK=signet (public signet)"
  else if negb (bool_decide (bc_btc_relay_mode c = NoRelay)) then
    Err "RGB validation without SPV requires BTC_RELAY_MODE=none"
  else if bc_spv_min_confirmations c =? 0 then
    Err "indexer-trusted validation requires at least one Bitcoin confirmation"
  else if bool_decide (bc_endpoints_sha256 c = None \/
                       bc_endpoints_sha256 c = Some (replicate 32 x00)) then
    Err "RGB validation without SPV requires a nonzero ENDPOINTS_SHA256 pin"
  else if negb (config_is_configured c) || bool_decide (bc_funds_in_contract c = ZERO20) ||
          bool_decide (bc_token_contract c = ZERO20) then
    Err "RGB validation without SPV requires the chain, contract and asset pins"
  else Ok tt.

End Config.

(** ** Endpoints *)

Definition MAX_EVM_RPC_CA_DER_BYTES : Z := 16 * 1024.
Definition MAX_ENDPOINT_STRING_BYTES : Z := 2048.

Record SetEndpointsRequest : Type := {
  se_electrum_url : bytes;
  se_evm_rpc_host : bytes;
  se_evm_rpc_ca_der : bytes;
  se_evm_rpc_tls_port : Z;
  se_kms_key_arn : bytes;
  se_kms_region : bytes;
  se_kms_seed_id : bytes;
  se_kms_expected_evm_address : bytes;
  se_evm_rpc_path : bytes
}.

Record EvmRpcTls : Type := { tls_host : bytes; tls_ca_der : bytes; tls_port : Z }.

Record Endpoints : Type := {
  e_electrum_url : bytes;
  e_electrum_host : bytes;
  e_electrum_port : Z;
  e_evm_rpc_tls : option EvmRpcTls;
  e_kms : option KmsPin
}.

Definition indexer_uses_tls (e : Endpoints) : bool :=
  starts_with (text "ssl://") (e_electrum_url e) || starts_with (text "https://") (e_electrum_url e).

(** The features of a build that decide what it compiles. *)
Record Features : Type := {
  rgb_validation : bool;
  spv : bool;
  evm_rpc : bool;
  kms_persistence : bool
}.

(** [BuildContext] of policy.rs. *)
Record BuildContext : Type := {
  debug_or_test : bool;
  mock_attestation : bool;
  allow_seed_import : bool;
  bx_rgb_validation : bool;
  bx_signer_role : SignerRole
}.

(** [DnsName] of [rustls_pki_types] and [anchor_from_trusted_cert] of [webpki]. *)
Class TlsNames : Type := {
  dns_try_from : bytes -> bool;
  dns_to_lowercase : bytes -> bytes;
  anchor_from_trusted_cert : bytes -> bool
}.

Section Endpoints.
Context {T : TextCodecs} {D : TlsNames}.

Definition unused (name : string) (empty : bool) : str_result unit :=
  if empty then Ok tt else Err (name +:+ " is set, but this build does not use it").

Definition parse_port (name : string) (port : Z) : str_result Z :=
  if (port <=? u16_max) && negb (port =? 0) then Ok port else Err (name +:+ " is not in 1-65535").

Definition parse_host (name : string) (host : bytes) : str_result bytes :=
  if bool_decide (x5f ∈ host) || ends_with (text ".") host then Err (name +:+ " is not a host name")
  else if negb (dns_try_from host) then Err (name +:+ " is not a host name")
  else Ok (dns_to_lowercase host).

(** [plaintext_indexer_allowed]. *)
Definition plaintext_indexer_allowed (ctx : BuildContext) : bool :=
  debug_or_test ctx || mock_attestation ctx || allow_seed_import ctx.

(** The rest of the URL and the default port of its scheme. *)
Definition indexer_scheme (url : bytes) (allow_plaintext : bool) : str_result (bytes * option Z) :=
  let plaintext (scheme : string) : str_result (option bytes) :=
    match strip_prefix (text scheme) url with
    | None => Ok None
    | Some rest =>
        if allow_plaintext then Ok (Some rest)
        else Err "electrum_url is plaintext; a release image accepts only ssl:// or https://"
    end in
  match strip_prefix (text "ssl://") url with
  | Some rest => Ok (rest, None)
  | None =>
      match strip_prefix (text "https://") url with
      | Some rest => Ok (rest, Some 443)
      | None =>
          let? tcp := plaintext "tcp://" in
          match tcp with
          | Some rest => Ok (rest, None)
          | None =>
              let? http := plaintext "http://" in
              match http with
              | Some rest => Ok (rest, Some 80)
              | None => Err "electrum_url is not ssl://, tcp://, https:// or http://"
              end
          end
      end
  end.

Definition parse_indexer_url (url : bytes) (allow_plaintext : bool) : str_result (bytes * Z) :=
  let? (rest, default_port) := indexer_scheme url allow_plaintext in
  let? (host, port) :=
    match rsplit_once x3a rest, default_port with
    | Some (host, port), _ =>
        let? port := ok_or (parse_uint u32_max port) "electrum_url has a bad port" in
        Ok (host, port)
    | None, Some port => Ok (rest, port)
    | None, None => Err "electrum_url has no port"
    end in
  let? host := parse_host "electrum_url host" host in
  let? port := parse_port "electrum_url port" port in
  Ok (host, port).

(** *** The KMS key (kms/mod.rs) *)

Definition region_ok (region : bytes) : bool :=
  (3 <=? zlen region) && (zlen region <=? 32) &&
  forallb (fun b => is_ascii_lowercase b || is_ascii_digit b || bool_decide (b = x2d)) region &&
  negb (starts_with (text "-") region) && negb (ends_with (text "-") region) &&
  negb (starts_with (text "cn-") region) && negb (starts_with (text "us-gov-") region) &&
  negb (starts_with (text "us-iso") region).

Definition uuid_ok (key_id : bytes) : bool :=
  (zlen key_id =? 36) &&
  forallb (fun '(i, b) =>
    if existsb (Nat.eqb i) [8; 13; 18; 23]%nat then bool_decide (b = x2d) else is_ascii_hexdigit b)
    (imap pair key_id).

Definition multi_region_ok (key_id : bytes) : bool :=
  match strip_prefix (text "mrk-") key_id with
  | Some id => (zlen id =? 32) && forallb is_ascii_hexdigit id
  | None => false
  end.

Definition seed_id_ok (seed_id : bytes) : bool :=
  negb (bool_decide (seed_id = [])) && (zlen seed_id <=? 128) &&
  forallb (fun b => is_ascii_alphanumeric b || bool_decide (b ∈ [x2d; x5f; x2e])) seed_id.

(** [KmsConfig::validate]. *)
Definition kms_validate (key_arn region seed_id : bytes) : str_result unit :=
  if negb (region_ok region) then Err "KMS_REGION must be a commercial AWS region"
  else
    match split x3a key_arn with
    | [p0; p1; p2; p3; p4; p5] =>
        if negb (bool_decide (p0 = text "arn")) || negb (bool_decide (p1 = text "aws")) ||
           negb (bool_decide (p2 = text "kms")) || negb (bool_decide (p3 = region)) ||
           negb (zlen p4 =? 12) || negb (forallb is_ascii_digit p4) ||
           negb (starts_with (text "key/") p5) then
          Err "KMS_KEY_ARN must be a full key ARN in KMS_REGION (aliases are not accepted)"
        else
          let key_id := drop 4 p5 in
          if negb (uuid_ok key_id) && negb (multi_region_ok key_id) then
            Err "KMS_KEY_ARN has an invalid key identifier"
          else if negb (seed_id_ok seed_id) then Err "KMS_SEED_ID is not valid"
          else Ok tt
    | _ => Err "KMS_KEY_ARN must be a full key ARN in KMS_REGION (aliases are not accepted)"
    end.

(** [KmsConfig::validate_account]. *)
Definition validate_account (key_arn : bytes) (allowed : list bytes) (allow_unpinned : bool)
    : str_result unit :=
  if bool_decide (allowed = []) then
    if allow_unpinned then Ok tt
    else Err "KMS_ALLOWED_ACCOUNT_IDS is not pinned in the image"
  else
    let account := default [] (split x3a key_arn !! 4%nat) in
    if bool_decide (account ∈ allowed) then Ok tt
    else Err "KMS_KEY_ARN is in an AWS account this image does not pin".

Definition endpoint_host (region : bytes) : bytes :=
  text "kms." ++ region ++ text ".amazonaws.com".

(** [chain_endpoints_sha256]; [encode] is [prost]'s [encode_to_vec]. *)
Definition chain_endpoints_sha256 (sha256 : bytes -> bytes) (encode : SetEndpointsRequest -> bytes)
    (req : SetEndpointsRequest) : bytes :=
  sha256 (encode {|
    se_electrum_url := se_electrum_url req; se_evm_rpc_host := se_evm_rpc_host req;
    se_evm_rpc_ca_der := se_evm_rpc_ca_der req; se_evm_rpc_tls_port := se_evm_rpc_tls_port req;
    se_kms_key_arn := []; se_kms_region := []; se_kms_seed_id := [];
    se_kms_expected_evm_address := []; se_evm_rpc_path := se_evm_rpc_path req |}).

(** *** [Endpoints::parse] *)

Definition kms_values (req : SetEndpointsRequest) : list (string * bytes) :=
  [("kms_key_arn", se_kms_key_arn req); ("kms_region", se_kms_region req);
   ("kms_seed_id", se_kms_seed_id req);
   ("kms_expected_evm_address", se_kms_expected_evm_address req)].

Definition check_string_sizes (req : SetEndpointsRequest) : str_result unit :=
  if existsb (fun value => MAX_ENDPOINT_STRING_BYTES <? zlen value)
       [se_electrum_url req; se_evm_rpc_host req; se_kms_key_arn req; se_kms_region req;
        se_kms_seed_id req; se_kms_expected_evm_address req]
  then Err "a string is over the limit" else Ok tt.

Definition parse_electrum (f : Features) (ctx : BuildContext) (req : SetEndpointsRequest)
    (electrum_url : bytes) : str_result (bytes * Z) :=
  if rgb_validation f then parse_indexer_url electrum_url (plaintext_indexer_allowed ctx)
  else let? _ := unused "electrum_url" (bool_decide (se_electrum_url req = [])) in Ok ([], 0).

Definition parse_evm_rpc (f : Features) (req : SetEndpointsRequest) (electrum_port : Z)
    : str_result (option EvmRpcTls) :=
  if evm_rpc f then
    let? host := parse_host "evm_rpc_host" (se_evm_rpc_host req) in
    if MAX_EVM_RPC_CA_DER_BYTES <? zlen (se_evm_rpc_ca_der req) then
      Err "evm_rpc_ca_der is over the limit"
    else if negb (anchor_from_trusted_cert (se_evm_rpc_ca_der req)) then
      Err "evm_rpc_ca_der is not a valid CA certificate"
    else
      let? port := parse_port "evm_rpc_tls_port" (se_evm_rpc_tls_port req) in
      if port =? electrum_port then Err "evm_rpc_tls_port is also the Electrum port"
      else Ok (Some {| tls_host := host; tls_ca_der := se_evm_rpc_ca_der req; tls_port := port |})
  else
    let? _ := unused "evm_rpc_host" (bool_decide (se_evm_rpc_host req = [])) in
    let? _ := unused "evm_rpc_ca_der" (bool_decide (se_evm_rpc_ca_der req = [])) in
    let? _ := unused "evm_rpc_tls_port" (se_evm_rpc_tls_port req =? 0) in
    Ok None.

Definition parse_kms (f : Features) (ctx : BuildContext) (req : SetEndpointsRequest)
    (kms_accounts : list bytes) (allow_unpinned : bool) (electrum_host : bytes)
    : str_result (option KmsPin) :=
  if kms_persistence f then
    if allow_seed_import ctx && forallb (fun v => bool_decide (v.2 = [])) (kms_values req) then
      Ok None
    else
      let? _ := kms_validate (se_kms_key_arn req) (se_kms_region req) (se_kms_seed_id req) in
      let? _ := validate_account (se_kms_key_arn req) kms_accounts allow_unpinned in
      if bool_decide (electrum_host = endpoint_host (se_kms_region req)) then
        Err "electrum_url host is the KMS host"
      else
        let address := se_kms_expected_evm_address req in
        let? expected :=
          if bool_decide (address = []) then Ok None
          else
            let? a := ok_or (array_hex 20 (strip_0x address))
                        "kms_expected_evm_address must be 20-byte hex" in
            Ok (Some a) in
        Ok (Some {| key_arn := se_kms_key_arn req; region := se_kms_region req;
                    seed_id := se_kms_seed_id req; expected_evm_address := expected |})
  else
    let? _ := foldr (fun '(name, v) k => let? _ := unused name (bool_decide (v = [])) in k)
                (Ok tt) (kms_values req) in
    Ok None.

Definition parse_endpoints (f : Features) (ctx : BuildContext) (req : SetEndpointsRequest)
    (kms_accounts : list bytes) (allow_unpinned : bool) : str_result Endpoints :=
  let? _ := check_string_sizes req in
  let electrum_url := default (se_electrum_url req) (strip_suffix (text "/") (se_electrum_url req)) in
  let? (host, port) := parse_electrum f ctx req electrum_url in
  let? tls := parse_evm_rpc f req port in
  let? pin := parse_kms f ctx req kms_accounts allow_unpinned host in
  Ok {| e_electrum_url := electrum_url; e_electrum_host := host; e_electrum_port := port;
        e_evm_rpc_tls := tls; e_kms := pin |}.

End Endpoints.

(** ** The boot checkpoint (networks/rgb/spv/checkpoint.rs) *)

Inductive CheckpointSource : Type := Compiled | FromSpec.

Section BootCheckpoint.
Context {T : TextCodecs}.

(** A 32-byte value in hex, with or without [0x]. *)
Definition hex32 (s : bytes) (what : string) : str_result bytes :=
  let? b := ok_or (hex_decode (strip_0x s)) (what +:+ " is not hex") in
  if zlen b =? 32 then Ok b else Err (what +:+ " must be 32 bytes (64 hex chars)").

Definition parse_checkpoint_spec (spec : bytes) : str_result Checkpoint :=
  let? (height_s, hash_s, bits_s, time_s, work_s) :=
    match map trim (split x3a (trim spec)) with
    | [h; hash; bits; time] => Ok (h, hash, bits, time, None)
    | [h; hash; bits; time; work] => Ok (h, hash, bits, time, Some work)
    | _ => Err "SPV_CHECKPOINT must be `height:block_hash:bits:time` or `height:block_hash:bits:time:chainwork`"
    end in
  let? height := ok_or (parse_uint u32_max height_s) "height is not a block height" in
  let? hash := hex32 hash_s "block_hash" in
  let hash := reverse hash in
  let? _ := if bool_decide (hash = replicate 32 x00) then Err "block_hash is all zeros" else Ok tt in
  let? bits_hex := ok_or (strip_prefix (text "0x") bits_s) "bits must be hex with an explicit `0x` prefix" in
  let? bits := ok_or (parse_hex_uint u32_max bits_hex) "bits is not hex u32" in
  let? time := ok_or (parse_uint u32_max time_s) "time is not a timestamp" in
  let? work :=
    match work_s with
    | Some w => let? w := hex32 w "chainwork" in Ok (Some w)
    | None => Ok None
    end in
  Ok {| cp_height := height; cp_hash := hash; cp_bits := bits; cp_time := time; cp_is_real := true; cp_chain_work := work |}.

Definition resolve_checkpoint (b : BuildCfg) (env : Env) (network : Network) : str_result (Checkpoint * CheckpointSource) :=
  match env "SPV_CHECKPOINT" with
  | Ok spec =>
      if negb (checkpoint_override_allowed b) then
        Err "SPV_CHECKPOINT is set but this is a production-shaped build"
      else let? cp := parse_checkpoint_spec spec in Ok (cp, FromSpec)
  | _ => Ok (checkpoint_for network, Compiled)
  end.

(** The anchor of a production build is the compiled one, whatever the environment; the
    anchor of any build has fields of their widths, and a spec names a real block. *)
Theorem boot_checkpoint_sound b env network cp source :
  resolve_checkpoint b env network = Ok (cp, source) ->
  (checkpoint_override_allowed b = false -> cp = checkpoint_for network /\ source = Compiled) /\
  checkpoint_typed cp /\
  (source = FromSpec ->
   length (cp_hash cp) = 32%nat /\ cp_hash cp <> replicate 32 x00 /\ cp_is_real cp = true /\
   forall w, cp_chain_work cp = Some w -> length w = 32%nat).
Proof.
  assert (H32 : forall s what x, hex32 s what = Ok x -> length x = 32%nat).
  { intros s what x H. unfold hex32 in H. inv_bind H y Hy. destruct (Z.eqb_spec (zlen y) 32); [|done]. injection H as <-.
    unfold zlen in *. lia. }
  unfold resolve_checkpoint. destruct (env _) as [spec|e|];
    [|intros [= <- <-]; split_and!; [done|apply checkpoint_for_typed|done]..].
  destruct (checkpoint_override_allowed b); [|done]. cbn [negb]. intros H. inv_bind H c Hp. injection H as <- <-.
  split; [done|]. unfold parse_checkpoint_spec in Hp. inv_bind Hp x Hx. destruct x as [[[[h hash] bits] time] work].
  inv_bind Hp height Hh. inv_bind Hp hs Hhs. inv_bind Hp u Hz. inv_bind Hp bh Hbh. inv_bind Hp bs Hbs. inv_bind Hp tm Htm.
  inv_bind Hp wk Hwk. injection Hp as <-. apply ok_or_ok in Hh, Hbs, Htm. apply H32 in Hhs.
  apply parse_uint_bound in Hh, Htm; [|done..]. apply parse_hex_uint_bound in Hbs; [|done].
  case_bool_decide as Hne; [done|]. unfold checkpoint_typed, is_u32, u32_max in *. cbn. split; [lia|]. intros _.
  split_and!; [by rewrite length_reverse|done|done|]. intros w ->. destruct work as [w'|]; [|done].
  inv_bind Hwk y Hy. injection Hwk as ->. by apply H32 in Hy.
Qed.

End BootCheckpoint.
