(* ===== verification/LaunchPolicy.v ===== *)
(** * The security policy and the launch (src/enclave/src/policy.rs,
      server/endpoints.rs, server/context.rs)

    [resolve] makes the policy from build, configuration and endpoints,
    [assert_valid_for_build] gates it, [handle_set_endpoints] writes it once into
    the launch slot.  The steps that touch the operating system (binding the
    forwarders, /etc/hosts, building the clients) are arguments: their result. *)

From stdpp Require Import strings base numbers list.
From S2P Require Import Prelude Errors RustText ReplayGuard ResultCache RefillRate EnclaveState.
From S2P Require Import SpvTypes AttestedPolicy EvmRelay LaunchConfig.

#[local] Open Scope list_scope.
#[local] Open Scope Z_scope.

Definition MAINNET_EVM_CHAIN_IDS : list Z := [1; 42161].

Record ProductionPolicy : Type := {
  pp_chain_id : Z;
  pp_bitcoin_network : BitcoinNetwork;
  pp_bridge_contract : bytes;
  pp_rgb_asset_id : bytes;
  pp_funds_in_contract : bytes;
  pp_evm_finality_tag : EvmFinalityTag;
  pp_token_contract : bytes;
  pp_spv_min_confirmations : Z;
  pp_btc_relay_required : bool;
  pp_allow_vanilla_psbt : bool;
  pp_signer_role : SignerRole;
  pp_attestation : AttestationMode;
  pp_evm_source : EvmDataSource;
  pp_electrum_host : bytes;
  pp_evm_rpc_tls : option EvmRpcTlsPin;
  pp_btc_source : BtcDataSource;
  pp_gas_tx_allowed_to : option bytes;
  pp_gas_tx_max_gas_limit : Z;
  pp_gas_tx_max_fee_per_gas : Z;
  pp_gas_tx_max_value_wei : option Z;
  pp_gas_tx_allowed_selectors : list bytes;
  pp_kms : option KmsPin;
  pp_clone_peer_pcr3 : option bytes
}.

Inductive DevReason : Type :=
| IndexerTrusted | DebugBuild | MockAttestation | AllowSeedImport | NonBridgeBuild | Unconfigured.

Inductive SecurityPolicy : Type :=
| SProduction (p : ProductionPolicy)
| SDevelopment (reason : DevReason).

(** [INDEXER_TRUSTED]. *)
Definition indexer_trusted (f : Features) : bool := rgb_validation f && negb (spv f).

(** [Option::filter] by a condition on the build. *)
Definition keep {A} (b : bool) (o : option A) : option A := if b then o else None.

Definition resolve (f : Features) (ctx : BuildContext) (bridge : BridgeConfig)
    (evm_source : EvmDataSource) (tls : option EvmRpcTlsPin) (electrum_host : bytes)
    : SecurityPolicy :=
  if bx_rgb_validation ctx && indexer_trusted f then
    SDevelopment (match validate_indexer_only bridge with
                  | Ok _ => IndexerTrusted | _ => Unconfigured end)
  else if mock_attestation ctx then SDevelopment MockAttestation
  else if allow_seed_import ctx then SDevelopment AllowSeedImport
  else if debug_or_test ctx then SDevelopment DebugBuild
  else if negb (bx_rgb_validation ctx) then SDevelopment NonBridgeBuild
  else if negb (config_is_configured bridge) then SDevelopment Unconfigured
  else
    let signs_plain_btc := negb (bool_decide (bx_signer_role ctx = Burn)) in
    let signs_gas_tx := negb (bool_decide (bx_signer_role ctx = Mint)) in
    SProduction {|
      pp_chain_id := bc_chain_id bridge;
      pp_bitcoin_network := bc_bitcoin_network bridge;
      pp_bridge_contract := bc_bridge_contract bridge;
      pp_rgb_asset_id := bc_rgb_asset_id bridge;
      pp_funds_in_contract := bc_funds_in_contract bridge;
      pp_evm_finality_tag := bc_evm_finality_tag bridge;
      pp_token_contract := bc_token_contract bridge;
      pp_spv_min_confirmations := bc_spv_min_confirmations bridge;
      pp_btc_relay_required := bool_decide (bc_btc_relay_mode bridge = Required);
      pp_allow_vanilla_psbt := signs_plain_btc && allows_vanilla_btc bridge;
      pp_signer_role := bx_signer_role ctx;
      pp_attestation := Real;
      pp_evm_source := evm_source;
      pp_electrum_host := electrum_host;
      pp_evm_rpc_tls := tls;
      pp_btc_source := SpvVerified;
      pp_gas_tx_allowed_to := keep signs_gas_tx (bc_gas_tx_allowed_to bridge);
      pp_gas_tx_max_gas_limit := if signs_gas_tx then bc_gas_tx_max_gas_limit bridge else 0;
      pp_gas_tx_max_fee_per_gas := if signs_gas_tx then bc_gas_tx_max_fee_per_gas bridge else 0;
      pp_gas_tx_max_value_wei := keep signs_gas_tx (bc_gas_tx_max_value_wei bridge);
      pp_gas_tx_allowed_selectors := if signs_gas_tx then bc_gas_tx_allowed_selectors bridge else [];
      pp_kms := None;
      pp_clone_peer_pcr3 := None |}.

(** The assignment of the two fields that the launch sets. *)
Definition set_launch_pins (p : ProductionPolicy) (kms : option KmsPin) (pcr3 : option bytes)
    : ProductionPolicy := {|
  pp_chain_id := pp_chain_id p; pp_bitcoin_network := pp_bitcoin_network p;
  pp_bridge_contract := pp_bridge_contract p; pp_rgb_asset_id := pp_rgb_asset_id p;
  pp_funds_in_contract := pp_funds_in_contract p; pp_evm_finality_tag := pp_evm_finality_tag p;
  pp_token_contract := pp_token_contract p; pp_spv_min_confirmations := pp_spv_min_confirmations p;
  pp_btc_relay_required := pp_btc_relay_required p;
  pp_allow_vanilla_psbt := pp_allow_vanilla_psbt p; pp_signer_role := pp_signer_role p;
  pp_attestation := pp_attestation p; pp_evm_source := pp_evm_source p;
  pp_electrum_host := pp_electrum_host p; pp_evm_rpc_tls := pp_evm_rpc_tls p;
  pp_btc_source := pp_btc_source p; pp_gas_tx_allowed_to := pp_gas_tx_allowed_to p;
  pp_gas_tx_max_gas_limit := pp_gas_tx_max_gas_limit p;
  pp_gas_tx_max_fee_per_gas := pp_gas_tx_max_fee_per_gas p;
  pp_gas_tx_max_value_wei := pp_gas_tx_max_value_wei p;
  pp_gas_tx_allowed_selectors := pp_gas_tx_allowed_selectors p;
  pp_kms := kms; pp_clone_peer_pcr3 := pcr3 |}.

Definition with_kms (s : SecurityPolicy) (kms : option KmsPin) : SecurityPolicy :=
  match s with
  | SProduction p => SProduction (set_launch_pins p kms (pp_clone_peer_pcr3 p))
  | SDevelopment _ => s
  end.

Definition with_clone_peer_pcr3 (s : SecurityPolicy) (read_pcr3 : enclave_result bytes)
    : enclave_result SecurityPolicy :=
  match s with
  | SProduction p =>
      if clones (pp_signer_role p) then
        let? pcr3 := read_pcr3 in
        Ok (SProduction (set_launch_pins p (pp_kms p) (Some pcr3)))
      else Ok s
  | SDevelopment _ => Ok s
  end.

(** [SecurityPolicy::attested]. *)
Definition attested_policy (s : SecurityPolicy) : AttestedPolicy :=
  match s with
  | SDevelopment _ => Development
  | SProduction p => Production {|
      allow_vanilla_psbt := pp_allow_vanilla_psbt p;
      signer_role := pp_signer_role p;
      attestation := pp_attestation p;
      evm_source := pp_evm_source p;
      btc_source := pp_btc_source p;
      pol_chain_id := pp_chain_id p;
      bitcoin_network := pp_bitcoin_network p;
      bridge_contract := pp_bridge_contract p;
      rgb_asset_id := pp_rgb_asset_id p;
      funds_in_contract := pp_funds_in_contract p;
      evm_finality_tag := pp_evm_finality_tag p;
      spv_min_confirmations := pp_spv_min_confirmations p;
      electrum_host := pp_electrum_host p;
      evm_rpc_tls := pp_evm_rpc_tls p;
      pol_gas_tx_allowed_to := default ZERO20 (pp_gas_tx_allowed_to p);
      pol_gas_tx_max_gas_limit := pp_gas_tx_max_gas_limit p;
      pol_gas_tx_max_fee_per_gas := pp_gas_tx_max_fee_per_gas p;
      pol_gas_tx_max_value_wei := default 0 (pp_gas_tx_max_value_wei p);
      pol_gas_tx_allowed_selectors := pp_gas_tx_allowed_selectors p;
      token_contract := pp_token_contract p;
      kms := pp_kms p;
      clone_peer_pcr3 := pp_clone_peer_pcr3 p |}
  end.

Definition commitment_bytes (s : SecurityPolicy) : bytes := to_bytes (attested_policy s).

(** ** The gates *)

Definition check_build_invariants (p : ProductionPolicy) : str_result unit :=
  if (pp_chain_id p =? 0) || bool_decide (pp_bridge_contract p = ZERO20) ||
     bool_decide (pp_rgb_asset_id p = []) then
    Err "production policy is missing one or more of the chain/contract/asset pins"
  else if existsb (Z.eqb (pp_chain_id p)) MAINNET_EVM_CHAIN_IDS &&
          negb (bool_decide (pp_bitcoin_network p = BnMainnet)) then
    Err "a mainnet EVM chain requires BITCOIN_NETWORK=bitcoin"
  else if bool_decide (pp_funds_in_contract p = ZERO20) then
    Err "production policy must pin a non-zero FundsIn contract"
  else if bool_decide (pp_token_contract p = ZERO20) then
    Err "production policy must pin a non-zero TOKEN_CONTRACT"
  else if bool_decide (pp_evm_finality_tag p = Latest) then
    Err "production policy must not accept EVM_FINALITY_TAG=latest"
  else if pp_spv_min_confirmations p =? 0 then
    Err "production policy must require at least one Bitcoin confirmation"
  else if negb (pp_btc_relay_required p) then
    Err "production policy must verify BtcRelay commitments on fundsOut"
  else
    match pp_attestation p with
    | Mock => Err "production policy must use real (NSM) attestation"
    | Real => match pp_btc_source p with SpvVerified => Ok tt end
    end.

Definition check_invariants (p : ProductionPolicy) : str_result unit :=
  let? _ := check_build_invariants p in
  if bool_decide (pp_electrum_host p = []) then Err "production policy has no Electrum host"
  else if bool_decide (pp_evm_source p = RawRpc) then
    Err "production policy reads the EVM RPC over plaintext"
  else if bool_decide (pp_evm_source p = PinnedTlsRpc) && negb (bool_decide (is_Some (pp_evm_rpc_tls p)))
  then Err "production policy uses the pinned TLS EVM source without a valid pin"
  else
    match clones (pp_signer_role p), pp_clone_peer_pcr3 p with
    | true, Some pcr3 =>
        if existsb (fun b => negb (b2z b =? 0)) pcr3 then Ok tt
        else Err "production policy has no clone-peer PCR3"
    | true, None => Err "production policy has no clone-peer PCR3"
    | false, None => Ok tt
    | false, Some _ => Err "production policy of a role that does not clone has a PCR3"
    end.

Definition assert_valid_for_build (f : Features) (s : SecurityPolicy) (ctx : BuildContext)
    : str_result unit :=
  if bx_rgb_validation ctx && indexer_trusted f then
    match s with
    | SDevelopment IndexerTrusted => Ok tt
    | _ => Err "RGB validation without SPV requires a valid public-signet policy"
    end
  else if debug_or_test ctx || negb (bx_rgb_validation ctx) then Ok tt
  else
    match s with
    | SProduction p => check_invariants p
    | SDevelopment _ => Err "release build resolved to a non-production security policy"
    end.

Definition assert_valid_at_boot (f : Features) (s : SecurityPolicy) (ctx : BuildContext)
    : str_result unit :=
  match s with
  | SProduction p =>
      if negb (debug_or_test ctx) && bx_rgb_validation ctx then check_build_invariants p
      else assert_valid_for_build f s ctx
  | _ => assert_valid_for_build f s ctx
  end.

(** ** The forwarders *)

(** [Ipv4Addr::LOCALHOST] and [KMS_LOOPBACK]. *)
Inductive Loopback : Type := Localhost | KmsLoopback.

Definition KMS_PORT : Z := 443.
Definition DEFAULT_KMS_VSOCK_PORT : Z := 8003.

(** The loopback end, the vsock port of the parent, and whether it takes only TLS. *)
Record Forwarder : Type := {
  fw_address : Loopback * Z;
  fw_vsock_port : Z;
  fw_require_tls : bool
}.

Definition vsock_port (env : Env) (name : string) (default_port : Z) : Z :=
  default default_port (var_ok env name ≫= parse_uint u32_max).

Definition forwarder_plan (f : Features) (env : Env) (e : Endpoints) : list Forwarder :=
  (if rgb_validation f then
     [{| fw_address := (Localhost, e_electrum_port e);
         fw_vsock_port := vsock_port env "ESPLORA_VSOCK_PORT" 8001;
         fw_require_tls := indexer_uses_tls e |}]
   else []) ++
  (if evm_rpc f then
     match e_evm_rpc_tls e with
     | Some tls => [{| fw_address := (Localhost, tls_port tls);
                       fw_vsock_port := vsock_port env "EVM_RPC_VSOCK_PORT" 8002;
                       fw_require_tls := true |}]
     | None => []
     end
   else []) ++
  (if kms_persistence f then
     match e_kms e with
     | Some _ => [{| fw_address := (KmsLoopback, KMS_PORT);
                     fw_vsock_port := vsock_port env "KMS_VSOCK_PORT" DEFAULT_KMS_VSOCK_PORT;
                     fw_require_tls := true |}]
     | None => []
     end
   else []).

(** ** SetEndpoints *)

Record Launch : Type := { l_endpoints : Endpoints; l_policy : SecurityPolicy }.

Section SetEndpoints.
Context {T : TextCodecs} {D : TlsNames} {K : Keys}.
Context (sha256 : bytes -> bytes) (encode : SetEndpointsRequest -> bytes).

(** The parts of [ServerContext] that the launch uses. *)
Record LaunchContext : Type := {
  lc_state : EnclaveState;
  lc_bridge_config : BridgeConfig;
  lc_build_ctx : BuildContext;
  lc_launch : option Launch
}.

(** [ServerContext::launch]. *)
Definition launch_of (c : LaunchContext) : enclave_result Launch :=
  ok_or (lc_launch c) (NotReady "endpoints-unset").

(** [resolve_evm_data_source] (bootstrap.rs). *)
Definition resolve_evm_data_source (tls : EvmRpcTls) : EvmDataSource * option EvmRpcTlsPin :=
  (PinnedTlsRpc, Some {| pin_host := tls_host tls; pin_ca_sha256 := sha256 (tls_ca_der tls) |}).

(** Everything before the first step outside the program: the endpoints and
    the policy. *)
Definition prepare_launch (f : Features) (c : LaunchContext) (req : SetEndpointsRequest)
    (own_pcr3 : enclave_result bytes) : enclave_result Launch :=
  let invalid {A} (r : str_result A) : enclave_result A := rmap_err InvalidRequest r in
  let? _ := match lc_launch c with
            | Some _ => Err (InvalidRequest "endpoints are already set")
            | None => Ok tt
            end in
  let? _ :=
    if indexer_trusted f &&
       negb (bool_decide (bc_endpoints_sha256 (lc_bridge_config c) =
                          Some (chain_endpoints_sha256 sha256 encode req))) then
      Err (InvalidRequest "SetEndpoints does not match the measured ENDPOINTS_SHA256 pin")
    else Ok tt in
  let? endpoints := invalid (parse_endpoints f (lc_build_ctx c) req
    (bc_kms_allowed_accounts (lc_bridge_config c)) (debug_or_test (lc_build_ctx c))) in
  let? (source, tls) :=
    if evm_rpc f then
      let? tls := ok_or (e_evm_rpc_tls endpoints)
                    (InvalidRequest "the EVM RPC endpoint is not set") in
      Ok (resolve_evm_data_source tls)
    else Ok (Disabled, None) in
  let policy := resolve f (lc_build_ctx c) (lc_bridge_config c) source tls
                  (e_electrum_host endpoints) in
  let? policy := with_clone_peer_pcr3 (with_kms policy (e_kms endpoints)) own_pcr3 in
  let? _ := invalid (assert_valid_for_build f policy (lc_build_ctx c)) in
  Ok {| l_endpoints := endpoints; l_policy := policy |}.

(** The whole handler.  [persistent_seed] is [PersistentSeed::new], [system] the
    binds, clients and host pins that come before the slot is written. *)
Definition handle_set_endpoints (f : Features) (c : LaunchContext) (req : SetEndpointsRequest)
    (own_pcr3 : enclave_result bytes) (persistent_seed : KmsPin -> enclave_result SeedSource)
    (system : Launch -> enclave_result unit) : LaunchContext * enclave_result unit :=
  match
    let? launch := prepare_launch f c req own_pcr3 in
    let? source :=
      match (if kms_persistence f then e_kms (l_endpoints launch) else None) with
      | Some pin => let? s := persistent_seed pin in Ok (Some s)
      | None => Ok None
      end in
    let? _ := system launch in
    Ok (launch, source)
  with
  | Err e => (c, Err e)
  | Panic => (c, Panic)
  | Ok (launch, source) =>
      let '(state, installed) :=
        match source with
        | Some source => set_seed_source (lc_state c) source
        | None => (lc_state c, Ok tt)
        end in
      match installed with
      | Ok _ => ({| lc_state := state; lc_bridge_config := lc_bridge_config c;
                    lc_build_ctx := lc_build_ctx c; lc_launch := Some launch |}, Ok tt)
      | Err e => ({| lc_state := state; lc_bridge_config := lc_bridge_config c;
                     lc_build_ctx := lc_build_ctx c; lc_launch := lc_launch c |}, Err e)
      | Panic => (c, Panic)
      end
  end.

End SetEndpoints.
