(* ===== verification/LaunchExpect.v ===== *)
(** * The operator's expectation (src/parent/src/launch_check.rs)

    [expected_policy]: the policy a production enclave must attest, computed from
    the environment of the measured image and the endpoints that were set.  It is
    written apart from the parsers of the enclave. *)

From stdpp Require Import strings base numbers list.
From S2P Require Import Prelude Errors RustText AttestedPolicy LaunchConfig.

#[local] Open Scope list_scope.
#[local] Open Scope Z_scope.

(** [entries.iter().filter_map(|e| e.split_once('=')).collect()], a [HashMap]:
    the last entry of a key counts. *)
Definition image_var (entries : list bytes) (key : string) : option bytes :=
  last (omap (fun e => match split_once x3d e with
                       | Some (k, v) => if bool_decide (k = text key) then Some v else None
                       | None => None
                       end) entries).

(** The process environment of the image. *)
Definition image_env (entries : list bytes) : Env :=
  fun key => match image_var entries key with Some v => Ok v | None => Err NotPresent end.

(** [number]: an unset optional number is 0. *)
Definition number (max : Z) (value : option bytes) : str_result Z :=
  match value with
  | None => Ok 0
  | Some v => ok_or (parse_uint max v) "not a number"
  end.

Definition indexer_host (url : bytes) : str_result bytes :=
  let url := default url (strip_suffix (text "/") url) in
  let or_else (a b : option bytes) := match a with Some x => Some x | None => b end in
  let? (rest, port_optional) :=
    match or_else (strip_prefix (text "ssl://") url) (strip_prefix (text "tcp://") url) with
    | Some rest => Ok (rest, false)
    | None =>
        match or_else (strip_prefix (text "https://") url) (strip_prefix (text "http://") url) with
        | Some rest => Ok (rest, true)
        | None => Err "electrum_url is not ssl://, tcp://, https:// or http://"
        end
    end in
  match rsplit_once x3a rest with
  | Some (host, _) => Ok (to_ascii_lowercase host)
  | None => if (port_optional : bool) then Ok (to_ascii_lowercase rest) else Err "electrum_url has no port"
  end.

Section Expect.
Context {T : TextCodecs} (sha256 : bytes -> bytes).

Definition address20 (value : bytes) : str_result bytes :=
  ok_or (array_hex 20 (strip_0x value)) "not a 20-byte hex address".

(** The KMS pin of the endpoints. *)
Definition expected_kms (e : SetEndpointsRequest) : str_result (option KmsPin) :=
  if forallb (fun v => bool_decide (v = []))
       [se_kms_key_arn e; se_kms_region e; se_kms_seed_id e; se_kms_expected_evm_address e] then
    Ok None
  else
    let address := se_kms_expected_evm_address e in
    let? a := if bool_decide (address = []) then Ok None
              else let? a := address20 address in Ok (Some a) in
    Ok (Some {| key_arn := se_kms_key_arn e; region := se_kms_region e; seed_id := se_kms_seed_id e;
                expected_evm_address := a |}).

Definition expected_selectors (value : bytes) : str_result (list bytes) :=
  rmapM (fun s => ok_or (array_hex 4 (strip_0x s)) "GAS_TX_ALLOWED_SELECTORS entry is not 4 bytes")
    (filter (fun s => s <> []) (map trim (split x2c value))).

Definition expected_policy (role : SignerRole) (entries : list bytes) (endpoints : SetEndpointsRequest)
    : str_result AttestedPolicy :=
  let env := image_var entries in
  let required key := ok_or (env key) ("IMAGE-ENV.json has no " +:+ key) in
  let optional key := match env key with Some [] | None => None | Some v => Some v end in
  let? tag :=
    match env "EVM_FINALITY_TAG" with
    | None => Ok Finalized
    | Some v => ok_or (tag_from_str (to_str v)) "EVM_FINALITY_TAG"
    end in
  if bool_decide (tag = Latest) then Err "EVM_FINALITY_TAG=latest is not a production policy"
  else
    let gas key := if bool_decide (role = Mint) then None else optional key in
    let? host := indexer_host (se_electrum_url endpoints) in
    let tls :=
      if bool_decide (se_evm_rpc_ca_der endpoints = []) then None
      else Some {| pin_host := to_ascii_lowercase (se_evm_rpc_host endpoints);
                   pin_ca_sha256 := sha256 (se_evm_rpc_ca_der endpoints) |} in
    let? kms := expected_kms endpoints in
    let? vanilla :=
      if bool_decide (role = Burn) then Ok false
      else let? n := number u64_max (optional "BTC_MAX_TOTAL_SATS") in Ok (negb (n =? 0)) in
    let? chain_value := required "EVM_CHAIN_ID" in
    let? chain := number u64_max (Some chain_value) in
    let? net := ok_or (bn_from_env_str (to_str (default (text "bitcoin") (optional "BITCOIN_NETWORK"))))
                  "BITCOIN_NETWORK is not a known network" in
    let? bridge_value := required "EVM_PROXY_CONTRACT_ADDRESS" in
    let? bridge := address20 bridge_value in
    let? asset := required "RGB_ASSET_ID" in
    let? funds_value := required "FUNDS_IN_CONTRACT" in
    let? funds := address20 funds_value in
    let? spv_value := required "SPV_MIN_CONFIRMATIONS" in
    let? confirmations := number u32_max (Some spv_value) in
    let? to := match gas "GAS_TX_ALLOWED_TO" with
               | None => Ok ZERO20
               | Some v => address20 v
               end in
    let? gas_limit := number u64_max (gas "GAS_TX_MAX_GAS_LIMIT") in
    let? fee := number u128_max (gas "GAS_TX_MAX_FEE_PER_GAS") in
    let? wei := number u128_max (gas "GAS_TX_MAX_VALUE_WEI") in
    let? selectors := expected_selectors (default [] (gas "GAS_TX_ALLOWED_SELECTORS")) in
    let? token_value := required "TOKEN_CONTRACT" in
    let? token := address20 token_value in
    Ok (Production {|
      allow_vanilla_psbt := vanilla; signer_role := role; attestation := Real;
      evm_source := PinnedTlsRpc; btc_source := SpvVerified; pol_chain_id := chain;
      bitcoin_network := net; bridge_contract := bridge; rgb_asset_id := asset;
      funds_in_contract := funds; evm_finality_tag := tag; spv_min_confirmations := confirmations;
      electrum_host := host; evm_rpc_tls := tls; pol_gas_tx_allowed_to := to;
      pol_gas_tx_max_gas_limit := gas_limit; pol_gas_tx_max_fee_per_gas := fee;
      pol_gas_tx_max_value_wei := wei; pol_gas_tx_allowed_selectors := selectors;
      token_contract := token; kms := kms; clone_peer_pcr3 := None |}).

End Expect.
