(* ===== verification/LaunchProps.v ===== *)
(** * Theorems on the launch

    [launch_matches_expectation]: two independent readings of image and
    endpoints agree.  [launched_policy_safe]: what a release build that was
    launched has pinned. *)

From stdpp Require Import strings base gmap numbers list.
From S2P Require Import Prelude Errors RustText ReplayGuard ResultCache RefillRate EnclaveState.
From S2P Require Import SpvTypes Attestation AttestedPolicy AttestedKeys ParentAttest.
From S2P Require Import EnclaveStateProps AttestationSample ParentAttestProps EvmRelay LaunchConfig LaunchPolicy LaunchExpect.

#[local] Open Scope list_scope.
#[local] Open Scope Z_scope.

(** What is used of the crates: a DNS name is lowercased as ASCII, and no bytes
    are no certificate. *)
Class TlsNamesLaws (D : TlsNames) : Prop := {
  lowercase_ascii s : dns_try_from s = true -> dns_to_lowercase s = to_ascii_lowercase s;
  anchor_nonempty : anchor_from_trusted_cert [] = false
}.

Section Fields.
Context {T : TextCodecs} {D : TlsNames} {L : TlsNamesLaws D}.

(** ** The two readings, value by value *)

Lemma address_agree v b : address20 v = Ok b -> eth_address v = Some b.
Proof.
  unfold address20, eth_address, parse_eth_address, array_hex.
  destruct (hex_decode (strip_0x v)) as [x|]; cbn [ok_or rbind]; [|done].
  destruct (zlen x =? 20); cbn [ok_or]; [|done]. by intros [= ->].
Qed.

Definition optional (o : option bytes) : option bytes :=
  match o with Some [] | None => None | Some v => Some v end.

Lemma number_agree max o n :
  number max (optional o) = Ok n -> default 0 (o ≫= parse_uint max) = n.
Proof.
  destruct o as [[|b v]|]; cbn [optional number]; try (by intros [= <-]).
  intros H. apply ok_or_ok in H. cbn [mbind option_bind]. by rewrite H.
Qed.

Lemma trimmed_number_agree max o n :
  number max (optional o) = Ok n -> default 0 (o ≫= fun s => parse_uint max (trim s)) = n.
Proof.
  intros H. rewrite <- (number_agree _ _ _ H). destruct o as [v|]; [|done]. cbn [mbind option_bind].
  destruct v as [|b v]; [done|]. cbn [optional number] in H. apply ok_or_ok in H.
  by rewrite (trim_number _ _ _ H).
Qed.

Lemma confirmations_agree v n m :
  number u32_max (Some v) = Ok n -> parse_spv_min_confirmations (Some v) = Ok m -> m = n.
Proof.
  intros H. apply ok_or_ok in H. unfold parse_spv_min_confirmations, trimmed. cbn [fmap option_fmap option_map].
  rewrite (trim_number _ _ _ H). pose proof (parse_uint_chars _ _ _ H) as [Hn _].
  destruct v as [|b v]; [done|]. rewrite H. destruct (1 <=? n); [|done]. by intros [= <-].
Qed.

Lemma omap_rmapM {A B} (g : A -> option B) (e : string) l cs :
  rmapM (fun s => ok_or (g s) e) l = Ok cs -> omap g l = cs.
Proof.
  intros H. apply rmapM_ok in H. induction H as [|a c l cs Hac _ IH]; [done|].
  apply ok_or_ok in Hac. cbn. by rewrite Hac, IH.
Qed.

Lemma selectors_agree o l :
  expected_selectors (default [] (optional o)) = Ok l -> default [] (parse_selectors <$> o) = l.
Proof.
  intros H. apply omap_rmapM in H. destruct o as [[|b v]|]; [|exact H|].
  - rewrite <- H. reflexivity.
  - rewrite <- H. reflexivity.
Qed.

Lemma indexer_agree url allow host port :
  parse_indexer_url (default url (strip_suffix (text "/") url)) allow = Ok (host, port) ->
  indexer_host url = Ok host.
Proof.
  unfold parse_indexer_url, indexer_host, indexer_scheme. set (u := default url _). intros H.
  apply rbind_ok in H as ([rest dp] & Hs & H). apply rbind_ok in H as ([h p] & Hh & H).
  apply rbind_ok in H as (h' & Hp & H). apply rbind_ok in H as (p' & _ & H). injection H as -> ->.
  assert (Hl : host = to_ascii_lowercase h).
  { unfold parse_host in Hp. destruct (_ || _); [done|]. destruct (dns_try_from h) eqn:E; [|done].
    cbn in Hp. injection Hp as <-. by apply lowercase_ascii. }
  assert (Hr : forall b, (dp <> None -> b = true) ->
    match rsplit_once x3a rest with
    | Some (host, _) => Ok (to_ascii_lowercase host)
    | None => if (b : bool) then Ok (to_ascii_lowercase rest) else Err "electrum_url has no port"
    end = Ok (E := string) host).
  { intros b Hb. destruct (rsplit_once x3a rest) as [[h0 p0]|].
    - apply rbind_ok in Hh as (q & _ & Hh). injection Hh as -> ->. by rewrite Hl.
    - destruct dp; [|done]. injection Hh as <- <-. rewrite Hb by done. by rewrite Hl. }
  destruct (strip_prefix (text "ssl://") u) as [r|]; [injection Hs as -> <-; by apply (Hr false)|].
  destruct (strip_prefix (text "https://") u) as [r|] eqn:Eh.
  - injection Hs as -> <-. assert (strip_prefix (text "tcp://") u = None) as ->.
    { unfold strip_prefix, starts_with in *. case_bool_decide as E1; [|done].
      case_bool_decide as E2; [|done]. exfalso. destruct u as [|b u]; [done|]. cbn in E1, E2. congruence. }
    by apply (Hr true).
  - destruct (strip_prefix (text "tcp://") u) as [r|]; cbn [rbind] in Hs.
    + destruct allow; [|done]. injection Hs as -> <-. by apply (Hr false).
    + destruct (strip_prefix (text "http://") u) as [r|]; cbn [rbind] in Hs; [|done].
      destruct allow; [|done]. injection Hs as -> <-. by apply (Hr true).
Qed.

Lemma kms_validate_arn arn region seed : kms_validate arn region seed = Ok tt -> arn <> [].
Proof. intros H ->. unfold kms_validate in H. destruct (negb (region_ok region)); discriminate H. Qed.

Lemma unused_ok name b : unused name b = Ok tt <-> b = true.
Proof. unfold unused. by destruct b. Qed.

Lemma kms_agree f ctx req accounts unpinned host k k' :
  allow_seed_import ctx = false -> parse_kms f ctx req accounts unpinned host = Ok k ->
  expected_kms req = Ok k' -> k = k'.
Proof.
  unfold parse_kms, expected_kms. intros Hi H He. destruct (kms_persistence f).
  - rewrite Hi in H. cbn [andb] in H. apply rbind_ok in H as ([] & Hv & H).
    apply kms_validate_arn in Hv. apply rbind_ok in H as ([] & _ & H).
    destruct (bool_decide (host = _)); [discriminate H|]. cbn [forallb] in He. rewrite bool_decide_false in He by done.
    cbn [andb] in He. apply rbind_ok in H as (a & Ha & H). injection H as <-.
    apply rbind_ok in He as (a' & Ha' & He). injection He as <-. do 2 f_equal.
    destruct (bool_decide (_ = [])); [congruence|]. apply rbind_ok in Ha as (x & Hx & Ha). injection Ha as <-.
    apply rbind_ok in Ha' as (y & Hy & Ha'). injection Ha' as <-. unfold address20 in Hy.
    apply ok_or_ok in Hx, Hy. congruence.
  - apply rbind_ok in H as ([] & Hu & H). injection H as <-. cbn [kms_values foldr] in Hu.
    apply rbind_ok in Hu as ([] & H1 & Hu). apply rbind_ok in Hu as ([] & H2 & Hu).
    apply rbind_ok in Hu as ([] & H3 & Hu). apply rbind_ok in Hu as ([] & H4 & _).
    apply unused_ok in H1, H2, H3, H4. cbn [forallb] in He. rewrite H1, H2, H3, H4 in He.
    cbn in He. congruence.
Qed.

Lemma evm_rpc_agree f req port tls :
  evm_rpc f = true -> parse_evm_rpc f req port = Ok tls ->
  tls = Some {| tls_host := to_ascii_lowercase (se_evm_rpc_host req);
                tls_ca_der := se_evm_rpc_ca_der req; tls_port := se_evm_rpc_tls_port req |} /\
  se_evm_rpc_ca_der req <> [].
Proof.
  unfold parse_evm_rpc. intros -> H. apply rbind_ok in H as (host & Hh & H).
  destruct (_ <? _); [done|]. destruct (anchor_from_trusted_cert _) eqn:Ea; [|done]. cbn [negb] in H.
  apply rbind_ok in H as (p & Hp & H). destruct (p =? port); [done|]. injection H as <-.
  split.
  - unfold parse_port in Hp. destruct (_ && _); [|done]. injection Hp as <-. do 2 f_equal.
    unfold parse_host in Hh. destruct (_ || _); [done|]. destruct (dns_try_from _) eqn:E; [|done].
    cbn in Hh. injection Hh as <-. by apply lowercase_ascii.
  - intros E. rewrite E, anchor_nonempty in Ea. done.
Qed.

End Fields.

(** ** The configuration of an image *)

Lemma var_image es key : var_ok (image_env es) key = image_var es key.
Proof. unfold var_ok, image_env. by destruct (image_var es key). Qed.

Lemma or_panic_ok {A} (r : str_result A) a : or_panic r = Ok a <-> r = Ok a.
Proof. destruct r; cbn; split; intros H; congruence. Qed.

Section Image.
Context {T : TextCodecs} {D : TlsNames} {L : TlsNamesLaws D} (sha256 : bytes -> bytes).

(** The pins of an image that boots, by variable. *)
Record image_config (es : list bytes) (c : BridgeConfig) : Prop := {
  im_chain : bc_chain_id c = default 0 (image_var es "EVM_CHAIN_ID" ≫= parse_uint u64_max);
  im_bridge : bc_bridge_contract c =
    default ZERO20 (image_var es "EVM_PROXY_CONTRACT_ADDRESS" ≫= eth_address);
  im_asset : bc_rgb_asset_id c = default [] (image_var es "RGB_ASSET_ID");
  im_to : bc_gas_tx_allowed_to c = image_var es "GAS_TX_ALLOWED_TO" ≫= eth_address;
  im_limit : bc_gas_tx_max_gas_limit c =
    default 0 (image_var es "GAS_TX_MAX_GAS_LIMIT" ≫= parse_uint u64_max);
  im_fee : bc_gas_tx_max_fee_per_gas c =
    default 0 (image_var es "GAS_TX_MAX_FEE_PER_GAS" ≫= parse_uint u128_max);
  im_selectors : bc_gas_tx_allowed_selectors c =
    default [] (parse_selectors <$> image_var es "GAS_TX_ALLOWED_SELECTORS");
  im_wei : bc_gas_tx_max_value_wei c =
    image_var es "GAS_TX_MAX_VALUE_WEI" ≫= fun s => parse_uint u128_max (trim s);
  im_sats : bc_btc_max_total_sats c =
    default 0 (image_var es "BTC_MAX_TOTAL_SATS" ≫= parse_uint u64_max);
  im_funds : bc_funds_in_contract c =
    default (bc_bridge_contract c) (image_var es "FUNDS_IN_CONTRACT" ≫= eth_address);
  im_tag : match image_var es "EVM_FINALITY_TAG" with
           | Some v => tag_from_str (to_str v) = Some (bc_evm_finality_tag c)
           | None => bc_evm_finality_tag c = Finalized
           end;
  im_token : bc_token_contract c = default ZERO20 (image_var es "TOKEN_CONTRACT" ≫= eth_address);
  im_net : attested <$> from_env_str (to_str (default (text "bitcoin") (image_var es "BITCOIN_NETWORK")))
           = Some (bc_bitcoin_network c);
  im_confirmations : parse_spv_min_confirmations (image_var es "SPV_MIN_CONFIRMATIONS") =
    Ok (bc_spv_min_confirmations c)
}.

Lemma from_env_image es c : from_env (image_env es) = Ok c -> image_config es c.
Proof.
  unfold from_env. cbv zeta. rewrite !var_image. intros H.
  apply rbind_ok in H as (tag & Ht & H). apply rbind_ok in H as (net & Hn & H).
  apply rbind_ok in H as (consignment & _ & H). apply rbind_ok in H as (conf & Hc & H).
  apply rbind_ok in H as (sat & _ & H). apply rbind_ok in H as (ep & _ & H).
  apply rbind_ok in H as (acc & _ & H). apply or_panic_ok in Ht, Hn, Hc. apply ok_or_ok in Hn.
  injection H as <-. split; try reflexivity.
  - cbn [bc_evm_finality_tag]. unfold image_env in Ht. destruct (image_var es "EVM_FINALITY_TAG") as [v|].
    + cbn [parse_evm_finality_tag] in Ht. by apply ok_or_ok in Ht.
    + by injection Ht as <-.
  - cbn [bc_bitcoin_network]. by rewrite Hn.
  - exact Hc.
Qed.

Definition gas_of (role : SignerRole) (o : option bytes) : option bytes :=
  if bool_decide (role = Mint) then None else optional o.

(** The operator's values, by variable. *)
Record expected_fields (role : SignerRole) (es : list bytes) (req : SetEndpointsRequest)
    (f : ProductionFields) : Prop := {
  xf_role : signer_role f = role /\ attestation f = Real /\ evm_source f = PinnedTlsRpc /\
            btc_source f = SpvVerified /\ clone_peer_pcr3 f = None;
  xf_tag : match image_var es "EVM_FINALITY_TAG" with
           | Some v => tag_from_str (to_str v) = Some (evm_finality_tag f)
           | None => evm_finality_tag f = Finalized
           end;
  xf_host : indexer_host (se_electrum_url req) = Ok (electrum_host f);
  xf_tls : evm_rpc_tls f =
    if bool_decide (se_evm_rpc_ca_der req = []) then None
    else Some {| pin_host := to_ascii_lowercase (se_evm_rpc_host req);
                 pin_ca_sha256 := sha256 (se_evm_rpc_ca_der req) |};
  xf_kms : expected_kms req = Ok (kms f);
  xf_vanilla : if bool_decide (role = Burn) then allow_vanilla_psbt f = false
               else exists n, number u64_max (optional (image_var es "BTC_MAX_TOTAL_SATS")) = Ok n /\
                              allow_vanilla_psbt f = negb (n =? 0);
  xf_chain : exists v, image_var es "EVM_CHAIN_ID" = Some v /\
                       number u64_max (Some v) = Ok (pol_chain_id f);
  xf_net : bn_from_env_str (to_str (default (text "bitcoin") (optional (image_var es "BITCOIN_NETWORK"))))
           = Some (bitcoin_network f);
  xf_bridge : exists v, image_var es "EVM_PROXY_CONTRACT_ADDRESS" = Some v /\
                        address20 v = Ok (bridge_contract f);
  xf_asset : image_var es "RGB_ASSET_ID" = Some (rgb_asset_id f);
  xf_funds : exists v, image_var es "FUNDS_IN_CONTRACT" = Some v /\
                       address20 v = Ok (funds_in_contract f);
  xf_confirmations : exists v, image_var es "SPV_MIN_CONFIRMATIONS" = Some v /\
                               number u32_max (Some v) = Ok (spv_min_confirmations f);
  xf_to : match gas_of role (image_var es "GAS_TX_ALLOWED_TO") with
          | None => Ok ZERO20 | Some v => address20 v end = Ok (pol_gas_tx_allowed_to f);
  xf_limit : number u64_max (gas_of role (image_var es "GAS_TX_MAX_GAS_LIMIT")) =
             Ok (pol_gas_tx_max_gas_limit f);
  xf_fee : number u128_max (gas_of role (image_var es "GAS_TX_MAX_FEE_PER_GAS")) =
           Ok (pol_gas_tx_max_fee_per_gas f);
  xf_wei : number u128_max (gas_of role (image_var es "GAS_TX_MAX_VALUE_WEI")) =
           Ok (pol_gas_tx_max_value_wei f);
  xf_selectors : expected_selectors (default [] (gas_of role (image_var es "GAS_TX_ALLOWED_SELECTORS")))
                 = Ok (pol_gas_tx_allowed_selectors f);
  xf_token : exists v, image_var es "TOKEN_CONTRACT" = Some v /\ address20 v = Ok (token_contract f)
}.

Lemma expected_policy_fields role es req e :
  expected_policy sha256 role es req = Ok e ->
  exists f, e = Production f /\ expected_fields role es req f.
Proof.
  unfold expected_policy. cbv zeta. intros H. inv_bind H tag Ht. case_bool_decide; [done|].
  inv_bind H host Hh. inv_bind H km Hk. inv_bind H vanilla Hva. inv_bind H cv Hcv. inv_bind H chain Hc.
  inv_bind H net Hn. inv_bind H bv Hbv. inv_bind H bridge Hb. inv_bind H asset Ha.
  inv_bind H fv Hfv. inv_bind H funds Hf. inv_bind H sv Hsv. inv_bind H conf Hcf.
  inv_bind H to Hto. inv_bind H limit Hl. inv_bind H fee Hfe. inv_bind H wei Hw.
  inv_bind H sel Hs. inv_bind H tv Htv. inv_bind H token Htk. injection H as <-.
  apply ok_or_ok in Hcv, Hbv, Ha, Hfv, Hsv, Htv, Hn.
  eexists. split; [reflexivity|]. split; try assumption; try reflexivity; try (by eexists).
  - cbn. destruct (image_var es "EVM_FINALITY_TAG"); [by apply ok_or_ok in Ht|by injection Ht as <-].
  - destruct (bool_decide (role = Burn)); [by injection Hva as <-|]. inv_bind Hva n Hn'. exists n. by injection Hva as <-.
Qed.

End Image.

(** ** The gate, as a specification *)

(** What a production policy has to be. *)
Record production_safe (p : ProductionPolicy) : Prop := {
  ps_chain : pp_chain_id p <> 0;
  ps_bridge : pp_bridge_contract p <> ZERO20;
  ps_asset : pp_rgb_asset_id p <> [];
  ps_mainnet : pp_chain_id p ∈ MAINNET_EVM_CHAIN_IDS -> pp_bitcoin_network p = BnMainnet;
  ps_funds : pp_funds_in_contract p <> ZERO20;
  ps_token : pp_token_contract p <> ZERO20;
  ps_tag : pp_evm_finality_tag p <> Latest;
  ps_confirmations : pp_spv_min_confirmations p <> 0;
  ps_relay : pp_btc_relay_required p = true;
  ps_attestation : pp_attestation p = Real;
  ps_host : pp_electrum_host p <> [];
  ps_source : pp_evm_source p <> RawRpc /\ (pp_evm_source p = PinnedTlsRpc -> is_Some (pp_evm_rpc_tls p));
  ps_pcr3 : if clones (pp_signer_role p)
            then exists x, pp_clone_peer_pcr3 p = Some x /\ forallb (fun b => b2z b =? 0) x = false
            else pp_clone_peer_pcr3 p = None
}.

Lemma nonzero_forallb (x : bytes) :
  existsb (fun b => negb (b2z b =? 0)) x = negb (forallb (fun b => b2z b =? 0) x).
Proof. induction x as [|b x IH]; [done|]. cbn. rewrite IH. by destruct (b2z b =? 0). Qed.

Lemma mainnet_bool z : existsb (Z.eqb z) MAINNET_EVM_CHAIN_IDS = bool_decide (z ∈ MAINNET_EVM_CHAIN_IDS).
Proof.
  apply Bool.eq_iff_eq_true. rewrite bool_decide_eq_true, existsb_exists, list_elem_of_In.
  split; [intros (y & Hy & E); zbool; by subst|intros H; exists z; split; [done|lia]].
Qed.

Lemma check_build_invariants_iff p :
  check_build_invariants p = Ok tt <->
  pp_chain_id p <> 0 /\ pp_bridge_contract p <> ZERO20 /\ pp_rgb_asset_id p <> [] /\
  (pp_chain_id p ∈ MAINNET_EVM_CHAIN_IDS -> pp_bitcoin_network p = BnMainnet) /\
  pp_funds_in_contract p <> ZERO20 /\ pp_token_contract p <> ZERO20 /\
  pp_evm_finality_tag p <> Latest /\ pp_spv_min_confirmations p <> 0 /\
  pp_btc_relay_required p = true /\ pp_attestation p = Real.
Proof.
  unfold check_build_invariants. rewrite mainnet_bool.
  destruct (Z.eqb_spec (pp_chain_id p) 0); [split; [discriminate|intuition congruence]|].
  destruct (bool_decide_reflect (pp_bridge_contract p = ZERO20)); [split; [discriminate|intuition congruence]|].
  destruct (bool_decide_reflect (pp_rgb_asset_id p = [])); [split; [discriminate|intuition congruence]|]. cbn [orb].
  destruct (bool_decide_reflect (pp_chain_id p ∈ MAINNET_EVM_CHAIN_IDS)),
    (bool_decide_reflect (pp_bitcoin_network p = BnMainnet));
    cbn [andb negb]; try (split; [discriminate|tauto]).
  all: destruct (bool_decide_reflect (pp_funds_in_contract p = ZERO20)); [split; [discriminate|intuition congruence]|].
  all: destruct (bool_decide_reflect (pp_token_contract p = ZERO20)); [split; [discriminate|intuition congruence]|].
  all: destruct (bool_decide_reflect (pp_evm_finality_tag p = Latest)); [split; [discriminate|intuition congruence]|].
  all: destruct (Z.eqb_spec (pp_spv_min_confirmations p) 0); [split; [discriminate|intuition congruence]|].
  all: destruct (pp_btc_relay_required p); [|split; [discriminate|intuition congruence]]; cbn [negb].
  all: destruct (pp_attestation p); [split; [discriminate|intuition congruence]|]; destruct (pp_btc_source p); split; [intros _; split_and!; tauto|done].
Qed.

Lemma check_invariants_iff p : check_invariants p = Ok tt <-> production_safe p.
Proof.
  assert (Hps : production_safe p <-> check_build_invariants p = Ok tt /\
    pp_electrum_host p <> [] /\
    (pp_evm_source p <> RawRpc /\ (pp_evm_source p = PinnedTlsRpc -> is_Some (pp_evm_rpc_tls p))) /\
    (if clones (pp_signer_role p)
     then exists x, pp_clone_peer_pcr3 p = Some x /\ forallb (fun b => b2z b =? 0) x = false
     else pp_clone_peer_pcr3 p = None)).
  { rewrite check_build_invariants_iff. split; [intros []; tauto|intros H; split; tauto]. }
  rewrite Hps. clear Hps. unfold check_invariants. destruct (check_build_invariants p) as [[]| |]; cbn [rbind];
    [|by split; [|intros [? _]]..].
  destruct (bool_decide_reflect (pp_electrum_host p = [])) as [|Hh];
    [split; [done|by intros (_ & ? & _)]|].
  assert (Hs : (if bool_decide (pp_evm_source p = RawRpc) then False
                else if bool_decide (pp_evm_source p = PinnedTlsRpc) &&
                        negb (bool_decide (is_Some (pp_evm_rpc_tls p))) then False else True) <->
               pp_evm_source p <> RawRpc /\ (pp_evm_source p = PinnedTlsRpc -> is_Some (pp_evm_rpc_tls p))).
  { destruct (pp_evm_source p), (pp_evm_rpc_tls p) as [t|]; cbn; split; try tauto; try done.
    intros [_ H]. by destruct (H eq_refl). }
  rewrite <- Hs. destruct (bool_decide (pp_evm_source p = RawRpc)); [split; [done|tauto]|].
  destruct (bool_decide (pp_evm_source p = PinnedTlsRpc) && _); [split; [done|tauto]|].
  clear Hs. destruct (clones (pp_signer_role p)), (pp_clone_peer_pcr3 p) as [x|];
    try (by split; [|intros (_ & _ & _ & H); first [done|destruct H as (? & ? & _)]]).
  rewrite nonzero_forallb. destruct (forallb _ x) eqn:Ex; cbn [negb]; split; try done.
  - intros (_ & _ & _ & y & [= <-] & Hy). congruence.
  - intros _. split_and!; try done. by exists x.
Qed.

(** ** SetEndpoints *)

Section Launch.
Context {T : TextCodecs} {D : TlsNames} {L : TlsNamesLaws D} {K : Keys}.
Context (sha256 : bytes -> bytes) (encode : SetEndpointsRequest -> bytes).

Abbreviation set_endpoints := (handle_set_endpoints sha256 encode).
Abbreviation prepare := (prepare_launch sha256 encode).

(** Refused, the context is as before; accepted, the slot is filled. *)
Lemma set_endpoints_cases f c req pcr3 seed system c' r :
  set_endpoints f c req pcr3 seed system = (c', r) ->
  match r with
  | Ok _ => exists l, prepare f c req pcr3 = Ok l /\ lc_launch c' = Some l /\
                      lc_bridge_config c' = lc_bridge_config c /\ lc_build_ctx c' = lc_build_ctx c /\
                      inner (lc_state c') = inner (lc_state c)
  | _ => c' = c
  end.
Proof.
  unfold handle_set_endpoints. destruct (prepare f c req pcr3) as [l| |]; cbn [rbind];
    [|by intros [= <- <-]..].
  destruct (match (if kms_persistence f then _ else _) with Some _ => _ | None => _ end) as [src| |];
    cbn [rbind]; [|by intros [= <- <-]..].
  destruct (system l) as [u| |]; cbn [rbind]; [|by intros [= <- <-]..].
  destruct src as [src|]; [|intros [= <- <-]; by exists l].
  unfold set_seed_source. destruct (seed_source (lc_state c)); intros [= <- <-]; [by destruct c|].
  by exists l.
Qed.

Lemma prepare_ok f c req pcr3 l :
  prepare f c req pcr3 = Ok l ->
  lc_launch c = None /\
  parse_endpoints f (lc_build_ctx c) req (bc_kms_allowed_accounts (lc_bridge_config c))
    (debug_or_test (lc_build_ctx c)) = Ok (l_endpoints l) /\
  assert_valid_for_build f (l_policy l) (lc_build_ctx c) = Ok tt /\
  exists src tls,
    (if evm_rpc f then exists t, e_evm_rpc_tls (l_endpoints l) = Some t /\
                                 (src, tls) = resolve_evm_data_source sha256 t
     else src = Disabled /\ tls = None) /\
    with_clone_peer_pcr3
      (with_kms (resolve f (lc_build_ctx c) (lc_bridge_config c) src tls
                   (e_electrum_host (l_endpoints l))) (e_kms (l_endpoints l))) pcr3
    = Ok (l_policy l).
Proof.
  unfold prepare_launch. intros H. inv_bind H u1 H1. destruct (lc_launch c); [done|].
  inv_bind H u2 H2. inv_bind H ep Hep. inv_bind H st Hst. destruct st as [src tls].
  inv_bind H pol Hpol. inv_bind H u3 H3. injection H as <-. cbn [l_endpoints l_policy].
  split; [done|]. split; [by destruct (parse_endpoints _ _ _ _ _); [injection Hep as <-|..]|].
  split; [destruct u3; by destruct (assert_valid_for_build _ _ _) as [[]| |]|].
  exists src, tls. split; [|done]. destruct (evm_rpc f).
  - inv_bind Hst t Ht. apply ok_or_ok in Ht. exists t. split; [done|]. congruence.
  - by injection Hst as <- <-.
Qed.

(** A bridge build as it is shipped. *)
Definition release (f : Features) (ctx : BuildContext) : Prop :=
  rgb_validation f = true /\ spv f = true /\ bx_rgb_validation ctx = true /\
  debug_or_test ctx = false /\ mock_attestation ctx = false /\ allow_seed_import ctx = false.

(** What a shipped build has launched with: a production policy that passed the
    gate. *)
Lemma prepare_release f c req pcr3 l :
  prepare f c req pcr3 = Ok l -> release f (lc_build_ctx c) ->
  exists p src tls host, l_policy l = SProduction p /\ check_invariants p = Ok tt /\
    host = e_electrum_host (l_endpoints l) /\
    (if evm_rpc f then exists t, e_evm_rpc_tls (l_endpoints l) = Some t /\
                                 (src, tls) = resolve_evm_data_source sha256 t
     else src = Disabled /\ tls = None) /\
    (exists p0, resolve f (lc_build_ctx c) (lc_bridge_config c) src tls host = SProduction p0 /\
       p = set_launch_pins p0 (e_kms (l_endpoints l)) (pp_clone_peer_pcr3 p)) /\
    (if clones (pp_signer_role p) then exists x, pcr3 = Ok x /\ pp_clone_peer_pcr3 p = Some x
     else pp_clone_peer_pcr3 p = None).
Proof.
  intros H (Hr & Hspv & Hb & Hd & Hm & Hi). apply prepare_ok in H as (_ & _ & Hv & src & tls & Hs & Hp).
  unfold assert_valid_for_build, indexer_trusted in Hv. rewrite Hr, Hspv, Hb, Hd in Hv. cbn in Hv.
  destruct (l_policy l) as [p|]; [|done]. exists p, src, tls, (e_electrum_host (l_endpoints l)).
  split; [done|]. split; [done|]. split; [done|]. split; [done|].
  destruct (resolve _ _ _ _ _ _) as [p0|r] eqn:E; [|discriminate Hp]. cbn [with_kms with_clone_peer_pcr3] in Hp.
  assert (Hn : pp_clone_peer_pcr3 p0 = None).
  { unfold resolve in E. repeat (destruct (_ : bool) in E; [discriminate E|]). by injection E as <-. }
  change (pp_signer_role (set_launch_pins p0 _ _)) with (pp_signer_role p0) in Hp.
  destruct (clones (pp_signer_role p0)) eqn:Ec.
  - inv_bind Hp x Hx. injection Hp as <-. split; [by exists p0|]. cbn. rewrite Ec. by exists x.
  - injection Hp as <-. split; [by exists p0|]. cbn. by rewrite Ec.
Qed.

(** ** Agreement *)

Context (hex_empty : hex_decode [] = Some []).

Lemma eth_address_of o v b : o = Some v -> address20 v = Ok b -> o ≫= eth_address = Some b.
Proof. intros -> H. cbn. by apply address_agree. Qed.

(** An empty destination is none, for both. *)
Lemma destination_agree o b :
  match optional o with None => Ok ZERO20 | Some v => address20 v end = Ok b ->
  default ZERO20 (o ≫= eth_address) = b.
Proof.
  destruct o as [[|x v]|]; cbn [optional mbind option_bind].
  - intros [= <-]. unfold eth_address, parse_eth_address. change (strip_0x []) with (@nil byte).
    by rewrite hex_empty.
  - intros H. by rewrite (address_agree _ _ H).
  - by intros [= <-].
Qed.

Lemma network_agree o m n :
  attested <$> from_env_str (to_str (default (text "bitcoin") o)) = Some m ->
  bn_from_env_str (to_str (default (text "bitcoin") (optional o))) = Some n -> m = n.
Proof.
  intros H. rewrite (proj1 (network_names_agree _)). destruct o as [[|x v]|]; [discriminate H|..];
    cbn [optional]; rewrite H; by intros [= ->].
Qed.

Lemma gas_rules_agree role es f' (c : BridgeConfig) (ef : ProductionFields) :
  image_config es c -> expected_fields sha256 role es f' ef ->
  let gas := negb (bool_decide (role = Mint)) in
  default ZERO20 (keep gas (bc_gas_tx_allowed_to c)) = pol_gas_tx_allowed_to ef /\
  (if gas then bc_gas_tx_max_gas_limit c else 0) = pol_gas_tx_max_gas_limit ef /\
  (if gas then bc_gas_tx_max_fee_per_gas c else 0) = pol_gas_tx_max_fee_per_gas ef /\
  default 0 (keep gas (bc_gas_tx_max_value_wei c)) = pol_gas_tx_max_value_wei ef /\
  (if gas then bc_gas_tx_allowed_selectors c else []) = pol_gas_tx_allowed_selectors ef.
Proof.
  intros C E. rewrite (im_to _ _ C), (im_limit _ _ C), (im_fee _ _ C), (im_wei _ _ C), (im_selectors _ _ C).
  pose proof (xf_to _ _ _ _ _ E) as Hto. pose proof (xf_limit _ _ _ _ _ E) as Hl.
  pose proof (xf_fee _ _ _ _ _ E) as Hf. pose proof (xf_wei _ _ _ _ _ E) as Hw.
  pose proof (xf_selectors _ _ _ _ _ E) as Hs. unfold gas_of in *.
  destruct (bool_decide (role = Mint)); cbn [negb keep].
  - injection Hto as <-. injection Hl as <-. injection Hf as <-. injection Hw as <-. by injection Hs as <-.
  - split_and!.
    + by apply destination_agree.
    + by apply number_agree.
    + by apply number_agree.
    + by apply trimmed_number_agree.
    + by apply selectors_agree.
Qed.

Lemma pins_agree role es f' (c : BridgeConfig) (ef : ProductionFields) :
  image_config es c -> expected_fields sha256 role es f' ef ->
  bc_chain_id c = pol_chain_id ef /\ bc_bitcoin_network c = bitcoin_network ef /\
  bc_bridge_contract c = bridge_contract ef /\ bc_rgb_asset_id c = rgb_asset_id ef /\
  bc_funds_in_contract c = funds_in_contract ef /\ bc_evm_finality_tag c = evm_finality_tag ef /\
  bc_token_contract c = token_contract ef /\ bc_spv_min_confirmations c = spv_min_confirmations ef /\
  negb (bool_decide (role = Burn)) && allows_vanilla_btc c = allow_vanilla_psbt ef.
Proof.
  intros C E. rewrite (im_chain _ _ C), (im_asset _ _ C), (im_funds _ _ C), (im_token _ _ C), (im_bridge _ _ C).
  destruct (xf_chain _ _ _ _ _ E) as (v1 & V1 & H1). destruct (xf_bridge _ _ _ _ _ E) as (v2 & V2 & H2).
  destruct (xf_funds _ _ _ _ _ E) as (v3 & V3 & H3). destruct (xf_token _ _ _ _ _ E) as (v4 & V4 & H4).
  destruct (xf_confirmations _ _ _ _ _ E) as (v5 & V5 & H5).
  rewrite (eth_address_of _ _ _ V2 H2), (eth_address_of _ _ _ V3 H3), (eth_address_of _ _ _ V4 H4).
  rewrite V1, (xf_asset _ _ _ _ _ E). pose proof (im_confirmations _ _ C) as H5'. rewrite V5 in H5'.
  split_and!; try done.
  - cbn [number] in H1. apply ok_or_ok in H1. cbn. by rewrite H1.
  - eapply network_agree; [exact (im_net _ _ C)|exact (xf_net _ _ _ _ _ E)].
  - pose proof (im_tag _ _ C) as Ht. pose proof (xf_tag _ _ _ _ _ E) as Ht'.
    destruct (image_var es "EVM_FINALITY_TAG"); congruence.
  - by eapply confirmations_agree.
  - pose proof (xf_vanilla _ _ _ _ _ E) as Hv. destruct (bool_decide (role = Burn)); [done|].
    destruct Hv as (n & Hn & ->). cbn [negb andb]. unfold allows_vanilla_btc.
    rewrite (im_sats _ _ C). by rewrite (number_agree _ _ _ Hn).
Qed.

(** The attested policy of a launch, field by field against the operator's. *)
Lemma attested_agree es req c (p0 : ProductionPolicy) f ctx ef tls host k x :
  image_config es c -> expected_fields sha256 (bx_signer_role ctx) es req ef ->
  resolve f ctx c PinnedTlsRpc tls host = SProduction p0 ->
  tls = evm_rpc_tls ef -> host = electrum_host ef -> k = kms ef ->
  attested_policy (SProduction (set_launch_pins p0 k x)) = Production (set_pcr3 ef x).
Proof.
  intros C E Hr -> -> ->. unfold resolve in Hr.
  repeat (destruct (_ : bool) in Hr; [discriminate Hr|]). injection Hr as <-.
  destruct (gas_rules_agree _ _ _ _ _ C E) as (H1 & H2 & H3 & H4 & H5).
  destruct (pins_agree _ _ _ _ _ C E) as (P1 & P2 & P3 & P4 & P5 & P6 & P7 & P8 & P9).
  destruct (xf_role _ _ _ _ _ E) as (R1 & R2 & R3 & R4 & _). unfold set_pcr3, attested_policy.
  f_equal. f_equal; first [assumption | symmetry; assumption | reflexivity].
Qed.

(** The endpoints of a launch, against the operator's. *)
Lemma endpoints_agree f c req pcr3 l ef :
  prepare f c req pcr3 = Ok l -> release f (lc_build_ctx c) -> evm_rpc f = true ->
  forall role es, expected_fields sha256 role es req ef ->
  (exists t, e_evm_rpc_tls (l_endpoints l) = Some t /\
             (resolve_evm_data_source sha256 t).2 = evm_rpc_tls ef) /\
  e_electrum_host (l_endpoints l) = electrum_host ef /\ e_kms (l_endpoints l) = kms ef.
Proof.
  intros H (Hr & _ & _ & _ & Hm & Hi) He role es E. apply prepare_ok in H as (_ & H & _).
  unfold parse_endpoints in H. inv_bind H u Hu. inv_bind H hp Hp. destruct hp as [host port].
  inv_bind H tls Ht. inv_bind H k Hk. injection H as H. rewrite <- H. cbn.
  unfold parse_electrum in Hp. rewrite Hr in Hp. apply indexer_agree in Hp.
  destruct (evm_rpc_agree _ _ _ _ He Ht) as [-> Hca].
  split_and!.
  - eexists. split; [done|]. rewrite (xf_tls _ _ _ _ _ E). by rewrite bool_decide_false.
  - pose proof (xf_host _ _ _ _ _ E). congruence.
  - eapply kms_agree; [exact Hi|exact Hk|exact (xf_kms _ _ _ _ _ E)].
Qed.

(** C11: the launch of a shipped image is the one its operator expects: when the enclave of
    that image accepts the endpoints, the policy that it attests is, byte for byte,
    what [expected_policy] computes from the image environment and the endpoints,
    completed with the document's PCR3; so the launch check passes.  The two are
    written apart: one reads at boot and in SetEndpoints, with defaults and dropped
    values, the other refuses. *)
Theorem launch_matches_expectation f c req pcr3 seed system c' es e pcrs :
  from_env (image_env es) = Ok (lc_bridge_config c) ->
  release f (lc_build_ctx c) -> evm_rpc f = true ->
  set_endpoints f c req pcr3 seed system = (c', Ok tt) ->
  expected_policy sha256 (bx_signer_role (lc_build_ctx c)) es req = Ok e ->
  (forall x, pcr3 = Ok x -> pcrs !! 3 = Some x /\ zlen x = 48) ->
  exists l q, lc_launch c' = Some l /\ with_document_pcr3 e pcrs = Ok q /\
    q = attested_policy (l_policy l) /\
    (policy_typed q -> compare_policy q (commitment_bytes (l_policy l)) = Ok (normalise q)).
Proof.
  intros Hb Hrel Hrpc Hs He Hpcr. apply set_endpoints_cases in Hs as (l & Hl & Hc' & _).
  apply from_env_image in Hb. apply expected_policy_fields in He as (ef & -> & E).
  destruct (prepare_release _ _ _ _ _ Hl Hrel) as (p & src & tls & host & Hp & Hi & Hh & Ht & (p0 & Hr & Hset) & Hc).
  destruct (endpoints_agree _ _ _ _ _ _ Hl Hrel Hrpc _ _ E) as ((t & Et & Ht') & Hhost & Hk).
  rewrite Hrpc in Ht. destruct Ht as (t' & Et' & Ht). rewrite Et in Et'. injection Et' as <-.
  injection Ht as -> ->.
  assert (Ha : attested_policy (SProduction p) = Production (set_pcr3 ef (pp_clone_peer_pcr3 p))).
  { rewrite Hset at 1. by eapply attested_agree; [exact Hb|exact E|exact Hr|exact Ht'|congruence|]. }
  exists l, (attested_policy (l_policy l)). rewrite Hp, Ha. split_and!; [done| |done|].
  - cbn [with_document_pcr3]. unfold document_pcr3. destruct (xf_role _ _ _ _ _ E) as (-> & _).
    injection Ha as _ Ha. assert (pp_signer_role p = bx_signer_role (lc_build_ctx c)) as Hrole.
    { rewrite Hset. unfold resolve in Hr. repeat (destruct (_ : bool) in Hr; [discriminate Hr|]).
      by injection Hr as <-. }
    apply check_invariants_iff, ps_pcr3 in Hi. rewrite <- Hrole.
    destruct (clones (pp_signer_role p)); [|by rewrite Hc].
    destruct Hc as (x & -> & Hx). destruct (Hpcr _ eq_refl) as [-> Hz]. destruct Hi as (y & Hy & Hn).
    rewrite Hx in Hy. injection Hy as <-. cbn [negb ok_or rbind]. by rewrite Hz, Hn, Hx.
  - intros W. unfold commitment_bytes. rewrite Ha. by apply compare_policy_iff.
Qed.

(** ** Safety *)

Lemma indexer_tls url hp : parse_indexer_url url false = Ok hp ->
  starts_with (text "ssl://") url || starts_with (text "https://") url = true.
Proof.
  unfold parse_indexer_url. intros H. inv_bind H s Hs. clear H. unfold indexer_scheme, strip_prefix in Hs.
  destruct (starts_with (text "ssl://") url); [done|]. destruct (starts_with (text "https://") url); [done|].
  destruct (starts_with (text "tcp://") url); [discriminate Hs|].
  destruct (starts_with (text "http://") url); discriminate Hs.
Qed.

(** The account of a key ARN. *)
Definition arn_account (arn : bytes) : bytes := default [] (split x3a arn !! 4%nat).

Lemma kms_account f ctx req accounts host k :
  allow_seed_import ctx = false -> parse_kms f ctx req accounts false host = Ok k ->
  match k with
  | Some k => arn_account (key_arn k) ∈ accounts
  | None => kms_persistence f = false
  end.
Proof.
  unfold parse_kms. intros Hi H. destruct (kms_persistence f).
  - rewrite Hi in H. cbn [andb] in H. inv_bind H u1 H1. inv_bind H u2 H2.
    destruct (bool_decide (host = _)); [done|]. inv_bind H a Ha. injection H as <-. cbn.
    unfold validate_account in H2. destruct (bool_decide (accounts = [])); [done|].
    clear Ha. case_bool_decide as Hin; [exact Hin|discriminate H2].
  - inv_bind H u1 H1. by injection H as <-.
Qed.

(** The forwarders of accepted endpoints. *)
Lemma forwarders_ok f ctx req accounts unpinned e env :
  parse_endpoints f ctx req accounts unpinned = Ok e -> indexer_uses_tls e = true ->
  Forall (fun w => fw_require_tls w = true) (forwarder_plan f env e) /\
  NoDup (map fw_address (forwarder_plan f env e)).
Proof.
  intros H Ht. unfold parse_endpoints in H. inv_bind H u1 H1. inv_bind H hp H2. destruct hp as [h port].
  inv_bind H t H3. inv_bind H k Hk. injection H as <-. unfold forwarder_plan. rewrite Ht.
  cbn [e_electrum_port e_evm_rpc_tls e_kms].
  assert (Hp : forall x, evm_rpc f = true -> t = Some x -> tls_port x <> port).
  { intros x He ->. unfold parse_evm_rpc in H3. rewrite He in H3. inv_bind H3 host Hh.
    destruct (_ <? _); [done|]. destruct (negb _); [done|]. inv_bind H3 q Hq.
    destruct (Z.eqb_spec q port); [done|]. injection H3 as <-. done. }
  split.
  - rewrite !Forall_app. destruct (rgb_validation f), (evm_rpc f), (kms_persistence f), t, k; repeat constructor.
  - destruct (rgb_validation f), (evm_rpc f), (kms_persistence f), t as [x|], k; cbn;
      repeat (apply NoDup_cons_2;
        [intros Hin; apply list_elem_of_In in Hin; cbn in Hin; repeat destruct Hin as [Hin|Hin];
           first [done|injection Hin as Hin; exact (Hp _ eq_refl eq_refl Hin)]|]);
      apply NoDup_nil_2.
Qed.

(** C14: a shipped build that takes its endpoints runs under a production policy that is
    safe: pins set, Bitcoin mainnet for a mainnet EVM chain, a finality tag other
    than latest, one confirmation at least, BtcRelay checked, the indexer over TLS,
    no plaintext EVM source, a PCR3 that is not zero where the role clones, the KMS
    key in an account of the image.  Its forwarders take only TLS and listen on
    different addresses.  Endpoints it refuses leave the whole context as
    it was, and it takes them only once. *)
Theorem launched_policy_safe f c req pcr3 seed system c' r :
  release f (lc_build_ctx c) ->
  set_endpoints f c req pcr3 seed system = (c', r) ->
  match r with
  | Ok _ => lc_launch c = None /\ exists l p, lc_launch c' = Some l /\
      l_policy l = SProduction p /\ production_safe p /\ pp_kms p = e_kms (l_endpoints l) /\
      indexer_uses_tls (l_endpoints l) = true /\
      match e_kms (l_endpoints l) with
      | Some k => arn_account (key_arn k) ∈ bc_kms_allowed_accounts (lc_bridge_config c)
      | None => kms_persistence f = false
      end /\
      forall env, Forall (fun w => fw_require_tls w = true) (forwarder_plan f env (l_endpoints l)) /\
                  NoDup (map fw_address (forwarder_plan f env (l_endpoints l)))
  | _ => c' = c
  end /\
  (lc_launch c <> None -> r = Err (InvalidRequest "endpoints are already set")).
Proof.
  intros Hrel Hs. split.
  - apply set_endpoints_cases in Hs. destruct r as [u| |]; [|done..].
    destruct Hs as (l & Hl & Hc' & _). pose proof (prepare_ok _ _ _ _ _ Hl) as (Hn & He & _).
    destruct (prepare_release _ _ _ _ _ Hl Hrel) as (p & src & tls & host & Hp & Hi & _ & _ & (p0 & _ & Hset) & _).
    split; [done|]. exists l, p. apply check_invariants_iff in Hi.
    assert (Hf : indexer_uses_tls (l_endpoints l) = true -> forall env,
      Forall (fun w => fw_require_tls w = true) (forwarder_plan f env (l_endpoints l)) /\
      NoDup (map fw_address (forwarder_plan f env (l_endpoints l)))) by (intros; by eapply forwarders_ok).
    enough (indexer_uses_tls (l_endpoints l) = true /\
      match e_kms (l_endpoints l) with
      | Some k => arn_account (key_arn k) ∈ bc_kms_allowed_accounts (lc_bridge_config c)
      | None => kms_persistence f = false
      end) as [Htls Hkms] by (split_and!; [done|done|done|by rewrite Hset|done|done|by apply Hf]).
    clear Hf. split.
    all: destruct Hrel as (Hr & _ & _ & Hd & Hm & Hi'); unfold parse_endpoints in He; rewrite Hd in He.
    all: inv_bind He u1 H1; inv_bind He hp H2; destruct hp as [h port]; inv_bind He t Ht; inv_bind He k Hk.
    all: injection He as <-; cbn.
    + unfold parse_electrum, plaintext_indexer_allowed in H2. rewrite Hr, Hd, Hm, Hi' in H2.
      by apply indexer_tls in H2.
    + by apply kms_account in Hk.
  - intros Hn. unfold handle_set_endpoints, prepare_launch in Hs.
    destruct (lc_launch c); [|done]. by injection Hs as <- <-.
Qed.

End Launch.

(** ** A sample launch *)

(** The identity as codec; a host name is any string that is not empty. *)
#[local] Instance launch_text : TextCodecs := {|
  hex_encode := id; hex_decode := Some; base64_encode := id; base64_decode := Some |}.

#[local] Instance launch_names : TlsNames := {|
  dns_try_from s := negb (bool_decide (s = [])); dns_to_lowercase := to_ascii_lowercase;
  anchor_from_trusted_cert der := negb (bool_decide (der = [])) |}.

#[local] Instance launch_names_laws : TlsNamesLaws launch_names.
Proof. by split. Qed.

Definition sample_image : list bytes :=
  map text ["EVM_CHAIN_ID=42161"; "EVM_PROXY_CONTRACT_ADDRESS=bridge-contract-20--";
    "RGB_ASSET_ID=rgb:asset"; "FUNDS_IN_CONTRACT=funds-in-contract-20"; "SPV_MIN_CONFIRMATIONS=6";
    "TOKEN_CONTRACT=token-contract-20---"; "KMS_ALLOWED_ACCOUNT_IDS=123456789012, 210987654321";
    "GAS_TX_ALLOWED_TO=gas-destination-20--"; "GAS_TX_MAX_GAS_LIMIT=500000";
    "GAS_TX_MAX_FEE_PER_GAS=2000000000"; "GAS_TX_MAX_VALUE_WEI=";
    "GAS_TX_ALLOWED_SELECTORS= abcd, 0xefgh ,"; "BTC_MAX_TOTAL_SATS=100000"].

Definition sample_endpoints : SetEndpointsRequest := {|
  se_electrum_url := text "ssl://Electrum.Example:50002/"; se_evm_rpc_host := text "RPC.example";
  se_evm_rpc_ca_der := [x30]; se_evm_rpc_tls_port := 443;
  se_kms_key_arn := text "arn:aws:kms:eu-west-1:123456789012:key/01234567-89ab-cdef-0123-456789abcdef";
  se_kms_region := text "eu-west-1"; se_kms_seed_id := text "bridge-1";
  se_kms_expected_evm_address := text "0xaddress-of-20-bytes-"; se_evm_rpc_path := [] |}.

Definition bridge_features : Features := {|
  rgb_validation := true; spv := true; evm_rpc := true; kms_persistence := true |}.

Definition release_ctx : BuildContext := {|
  debug_or_test := false; mock_attestation := false; allow_seed_import := false;
  bx_rgb_validation := true; bx_signer_role := Burn |}.

(** The configuration of the sample image. *)
Definition sample_bridge : BridgeConfig :=
  match from_env (image_env sample_image) as r
    return match r with Ok _ => BridgeConfig | _ => unit end with
  | Ok c => c
  | _ => tt
  end.

Definition sample_context : LaunchContext (K := toy_keys) := {|
  lc_state := toy_state; lc_bridge_config := sample_bridge; lc_build_ctx := release_ctx;
  lc_launch := None |}.

Definition sample_launch : LaunchContext (K := toy_keys) * enclave_result unit :=
  handle_set_endpoints (K := toy_keys) sample_sha (fun _ => []) bridge_features sample_context
    sample_endpoints (Ok sample_pcr3) (fun _ => Ok toy_source) (fun _ => Ok tt).

Lemma sample_release : release bridge_features release_ctx.
Proof. by repeat split. Qed.

Lemma sample_accepted : sample_launch = (fst sample_launch, Ok tt).
Proof. vm_compute. reflexivity. Qed.

Lemma launch_matches_expectation_witness :
  exists e l q, expected_policy sample_sha Burn sample_image sample_endpoints = Ok e /\
    lc_launch (fst sample_launch) = Some l /\
    with_document_pcr3 e (<[3 := sample_pcr3]> ∅) = Ok q /\ q = attested_policy (l_policy l).
Proof.
  assert (He : exists e, expected_policy sample_sha Burn sample_image sample_endpoints = Ok e)
    by (eexists; vm_compute; reflexivity).
  destruct He as [e He].
  destruct (launch_matches_expectation (T := launch_text) (D := launch_names) (K := toy_keys) sample_sha (fun _ => []) eq_refl bridge_features
    sample_context sample_endpoints (Ok sample_pcr3) (fun _ => Ok toy_source) (fun _ => Ok tt)
    (fst sample_launch) sample_image e (<[3 := sample_pcr3]> ∅))
    as (l & q & H1 & H2 & H3 & _).
  - vm_compute. reflexivity.
  - exact sample_release.
  - reflexivity.
  - exact sample_accepted.
  - exact He.
  - intros x [= <-]. split; reflexivity.
  - exists e, l, q. by split_and!.
Defined.

Lemma launched_policy_safe_witness :
  exists l p, lc_launch (fst sample_launch) = Some l /\ l_policy l = SProduction p /\
    production_safe p /\ arn_account (key_arn (default {| key_arn := []; region := []; seed_id := [];
      expected_evm_address := None |} (pp_kms p))) = text "123456789012".
Proof.
  destruct (launched_policy_safe (T := launch_text) (D := launch_names) (K := toy_keys) sample_sha (fun _ => []) bridge_features
    sample_context sample_endpoints (Ok sample_pcr3) (fun _ => Ok toy_source) (fun _ => Ok tt)
    (fst sample_launch) (Ok tt) sample_release sample_accepted) as [(_ & l & p & Hl & Hp & Hs & _) _].
  exists l, p. split_and!; [done..|]. vm_compute in Hl. injection Hl as <-. injection Hp as <-.
  vm_compute. reflexivity.
Defined.
