(* ===== verification/Io.v ===== *)
(** * Programs over a world

    A result with the world threaded through: the calls that leave the program
    (clock, sockets, AWS) are functions of a world [W], which a client keeps
    abstract.  [let!] sequences, an error stops.  [io_keeps R c]: every run of
    [c], failed ones included, relates the worlds before and after by [R]. *)

From stdpp Require Import base relations.
From S2P Require Import Prelude.

Definition io (W E A : Type) : Type := W -> W * res E A.

Definition io_lift {W E A : Type} (r : res E A) : io W E A := fun w => (w, r).

Definition io_bind {W E A B : Type} (c : io W E A) (k : A -> io W E B) : io W E B :=
  fun w => match c w with
           | (w, Ok a) => k a w
           | (w, Err e) => (w, Err e)
           | (w, Panic) => (w, Panic)
           end.

(** A call that cannot fail. *)
Definition io_call {W E A : Type} (f : W -> W * A) : io W E A :=
  fun w => let '(w, a) := f w in (w, Ok a).

(** [map_err]. *)
Definition io_map_err {W E F A : Type} (f : E -> F) (c : io W E A) : io W F A :=
  fun w => let '(w, r) := c w in (w, rmap_err f r).

Notation "'let!' x ':=' c 'in' k" := (io_bind c (fun x => k))
  (at level 10, x pattern, c at level 100, k at level 200,
   format "'let!'  x  ':='  c  'in' '//' k") : rust_scope.

(** ** Lemmas *)

Section Io.
Context {W E : Type}.

Lemma io_bind_ok {A B} (c : io W E A) (k : A -> io W E B) w w' b :
  io_bind c k w = (w', Ok b) <-> exists a w1, c w = (w1, Ok a) /\ k a w1 = (w', Ok b).
Proof.
  unfold io_bind. destruct (c w) as [w1 [a| |]].
  - split; [intros H; by exists a, w1|]. intros (a' & w1' & [= <- <-] & H). exact H.
  - split; [done|]. by intros (? & ? & ? & _).
  - split; [done|]. by intros (? & ? & ? & _).
Qed.

Lemma io_lift_ok {A} (r : res E A) (w w' : W) a : io_lift r w = (w', Ok a) <-> w' = w /\ r = Ok a.
Proof. unfold io_lift. split; [by intros [= -> ->]|by intros [-> ->]]. Qed.

Lemma io_map_err_ok {F A} (f : E -> F) (c : io W E A) w w' a :
  io_map_err f c w = (w', Ok a) <-> c w = (w', Ok a).
Proof.
  unfold io_map_err. destruct (c w) as [w1 [a1| |]]; cbn; split; intros H; congruence.
Qed.

Context (R : relation W) {P : PreOrder R}.

Definition io_keeps {A} (c : io W E A) : Prop := forall w, R w (c w).1.

Lemma keeps_lift {A} (r : res E A) : io_keeps (@io_lift W E A r).
Proof. intros w. reflexivity. Qed.

Lemma keeps_bind {A B} (c : io W E A) (k : A -> io W E B) :
  io_keeps c -> (forall a, io_keeps (k a)) -> io_keeps (io_bind c k).
Proof.
  intros Hc Hk w. unfold io_bind. specialize (Hc w). destruct (c w) as [w1 [a| |]]; cbn in *; [|done..].
  etransitivity; [exact Hc|apply Hk].
Qed.

Lemma keeps_call {A} (f : W -> W * A) : (forall w, R w (f w).1) -> io_keeps (io_call f).
Proof. intros Hf w. unfold io_call. specialize (Hf w). by destruct (f w). Qed.

Lemma io_call_keeps {A} (f : W -> W * A) w w' (a : A) :
  (forall w, R w (f w).1) -> io_call f w = (w', Ok (E := E) a) -> R w w'.
Proof. intros Hf. unfold io_call. specialize (Hf w). destruct (f w). by intros [= <- _]. Qed.

End Io.

Lemma keeps_map_err {W E F A} (R : relation W) (f : E -> F) (c : io W E A) :
  io_keeps R c -> io_keeps R (io_map_err f c).
Proof. intros Hc w. unfold io_map_err. specialize (Hc w). by destruct (c w). Qed.

Create HintDb io.
#[export] Hint Extern 0 (PreOrder _) => apply _ : io.
#[export] Hint Resolve keeps_lift keeps_bind keeps_call keeps_map_err : io.
#[export] Hint Extern 1 (io_keeps _ (match ?x with _ => _ end)) => destruct x : io.

(** The runs of a sequence that succeed, one call at a time. *)
Ltac io_inv H a w Ha := apply io_bind_ok in H as (a & w & Ha & H).
