(* ===== verification/KmsClient.v ===== *)
(** * The KMS client (src/enclave/src/kms/mod.rs, kms/recipient.rs)

    GenerateDataKey and Decrypt with recipient attestation: the one-shot RSA
    key and its document, the call and its time budget, the checks of the
    answer, and the CMS envelope that holds the seed.  The AWS SDK, RSA, AES,
    the CMS decoder and the clock are the interface [KmsCrates]. *)

From stdpp Require Import strings base numbers list.
From S2P Require Import Prelude Errors RustText Io ReplayGuard ResultCache RefillRate EnclaveState.
From S2P Require Import Ber SpvTypes AttestedPolicy EvmRelay LaunchConfig.

#[local] Open Scope list_scope.
#[local] Open Scope Z_scope.

Definition MAX_CIPHERTEXT_BYTES : Z := 6144.
Definition SEED_BYTES : Z := 64.
Definition CALL_TIMEOUT : Z := secs 12.
Definition CONNECT_TIMEOUT : Z := secs 5.
Definition RECIPIENT_RSA_BITS : Z := 2048.
Definition CUSTODY_FLOW : bytes := text "rgb-mint".

(** ** Errors *)

Definition custody (failure : CustodyFailure) : EnclaveError := Custody "KMS" failure.
Definition invalid (reason : string) : EnclaveError := custody InvalidResponse.
Definition fail (message : string) : EnclaveError := Internal ("KMS custody: " +:+ message).

(** [ConnectorError] of the SDK: what [classify] asks. *)
Record ConnectorError : Type := { is_timeout : bool; is_io : bool; is_user : bool }.

Inductive SdkError : Type :=
| ConstructionFailure
| TimeoutError
| DispatchFailure (connector : option ConnectorError)
| ResponseError
| ServiceError (status : Z) (code : option bytes)
| OtherSdkError.

(** [code.rsplit('#').next().unwrap_or(code)]. *)
Definition kms_error_name (code : bytes) : bytes := default code (last (split x23 code)).

Definition code_in (code : option bytes) (names : list string) : bool :=
  match code with Some c => existsb (fun n => bool_decide (c = text n)) names | None => false end.

Definition classify_service (status : Z) (code : option bytes) : CustodyFailure :=
  if (status =? 401) || (status =? 403) then AccessDenied
  else if (status =? 429) || ((500 <=? status) && (status <=? 599)) then Unavailable
  else if negb (status =? 400) then InvalidResponse
  else if code_in code ["AccessDeniedException"; "UnrecognizedClientException";
                        "ExpiredTokenException"; "InvalidSignatureException"] then AccessDenied
  else if code_in code ["ThrottlingException"; "DependencyTimeoutException";
                        "KMSInternalException"; "KeyUnavailableException"] then Unavailable
  else if code_in code ["NotFoundException"; "DisabledException"; "IncorrectKeyException";
                        "InvalidCiphertextException"; "InvalidKeyUsageException";
                        "KMSInvalidStateException"] then KeyOrCiphertext
  else if code_in code ["ValidationException"; "InvalidArnException";
                        "UnsupportedOperationException"] then Configuration
  else InvalidResponse.

Definition classify (error : SdkError) : EnclaveError :=
  custody
    match error with
    | ConstructionFailure => CustodyInternal
    | TimeoutError => Unavailable
    | DispatchFailure connector =>
        match connector with
        | Some c => if is_timeout c || is_io c then Unavailable
                    else if is_user c then Configuration
                    else InvalidResponse
        | None => InvalidResponse
        end
    | ResponseError => InvalidResponse
    | ServiceError status code => classify_service status (kms_error_name <$> code)
    | OtherSdkError => CustodyInternal
    end.

(** ** Configuration and credentials *)

Record KmsConfig : Type := { cfg_key_arn : bytes; cfg_region : bytes; cfg_seed_id : bytes }.

(** [KmsConfig::validate], with the error it gives. *)
Definition validate_config (c : KmsConfig) : enclave_result unit :=
  rmap_err fail (kms_validate (cfg_key_arn c) (cfg_region c) (cfg_seed_id c)).

Record AwsCredentials : Type := {
  access_key_id : bytes;
  secret_access_key : bytes;
  session_token : bytes
}.

Definition is_ascii_graphic (b : byte) : bool := (33 <=? b2z b) && (b2z b <=? 126).

Definition from_protected (id secret token : bytes) : enclave_result AwsCredentials :=
  if bool_decide (id = []) || (128 <? zlen id) || negb (forallb is_ascii_alphanumeric id) ||
     bool_decide (secret = []) || (256 <? zlen secret) || negb (forallb is_ascii_graphic secret) ||
     (16 * 1024 <? zlen token) || negb (forallb is_ascii_graphic token)
  then Err (fail "invalid AWS credentials")
  else Ok {| access_key_id := id; secret_access_key := secret; session_token := token |}.

(** [Credentials] of the SDK: an empty token is none. *)
Record SdkCredentials : Type := {
  sdk_access_key_id : bytes;
  sdk_secret_access_key : bytes;
  sdk_session_token : option bytes
}.

Definition to_sdk (c : AwsCredentials) : SdkCredentials := {|
  sdk_access_key_id := access_key_id c;
  sdk_secret_access_key := secret_access_key c;
  sdk_session_token := if bool_decide (session_token c = []) then None else Some (session_token c) |}.

(** ** Calls and answers *)

Inductive KmsAction : Type :=
| GenerateDataKey (number_of_bytes : Z)
| Decrypt (ciphertext_blob : bytes).

(** A request, with the client that sends it.  [EncryptionAlgorithmSpec] is
    always [SymmetricDefault] in a Decrypt. *)
Record KmsCall : Type := {
  kc_action : KmsAction;
  kc_key_id : bytes;
  kc_region : bytes;
  kc_credentials : SdkCredentials;
  kc_context : list (bytes * bytes);
  kc_recipient : option bytes;
  kc_connect_timeout : Z;
  kc_operation_timeout : Z
}.

Inductive EncryptionAlgorithmSpec : Type := SymmetricDefault | OtherAlgorithm.

#[export] Instance algorithm_eq_dec : EqDecision EncryptionAlgorithmSpec.
Proof. solve_decision. Defined.

Record KmsOutput : Type := {
  out_key_id : option bytes;
  out_plaintext : option bytes;
  out_ciphertext_blob : option bytes;
  out_encryption_algorithm : option EncryptionAlgorithmSpec;
  out_ciphertext_for_recipient : option bytes
}.

(** *** The CMS structures (crates cms and rsa); an object identifier is its
    dotted form *)

Record OaepParams : Type := {
  oaep_hash : string;
  oaep_mask_gen : string;
  oaep_mgf_hash : option string
}.

(** The parameters of an algorithm are decoded when they are asked for: [None]
    missing, [Some None] not decodable. *)
Record KeyTransRecipientInfo : Type := {
  ktri_key_enc_alg : string;
  ktri_params : option (option OaepParams);
  ktri_enc_key : bytes
}.

Inductive RecipientInfo : Type := Ktri (r : KeyTransRecipientInfo) | OtherRecipient.

Record EncryptedContentInfo : Type := {
  eci_content_type : string;
  eci_alg : string;
  eci_iv : option (option bytes);
  eci_encrypted_content : option bytes
}.

Record EnvelopedData : Type := {
  recip_infos : list RecipientInfo;
  encrypted_content : EncryptedContentInfo
}.

Record ContentInfo : Type := {
  content_type : string;
  content : option EnvelopedData
}.

Class KmsCrates (W : Type) : Type := {
  instant_now : W -> W * Z;
  RsaPrivateKey : Type;
  rsa_new : Z -> W -> W * option RsaPrivateKey;
  public_key_der : RsaPrivateKey -> option bytes;
  rsa_oaep_decrypt : RsaPrivateKey -> bytes -> option bytes;
  aes_256_cbc_decrypt : bytes -> bytes -> bytes -> option bytes;
  content_info_from_der : bytes -> option ContentInfo;
  getrandom32 : W -> W * option bytes;
  nsm_document : bytes -> option bytes -> option bytes -> W -> W * enclave_result bytes;
  https_client : W -> W * bool;
  async_sleep : W -> W * bool;
  tokio_runtime : W -> W * bool;
  (** The call under [tokio::time::timeout]: [None] when the budget ends. *)
  sdk_send : KmsCall -> Z -> W -> W * option (SdkError + KmsOutput)
}.

(** ** The recipient envelope *)

Definition ID_ENVELOPED_DATA : string := "1.2.840.113549.1.7.3".
Definition ID_DATA : string := "1.2.840.113549.1.7.1".
Definition ID_RSAES_OAEP : string := "1.2.840.113549.1.1.7".
Definition ID_MGF_1 : string := "1.2.840.113549.1.1.8".
Definition ID_SHA_256 : string := "2.16.840.1.101.3.4.2.1".
Definition ID_AES_256_CBC : string := "2.16.840.1.101.3.4.1.42".
Definition CEK_BYTES : Z := 32.
Definition IV_BYTES : Z := 16.
Definition MAX_ENVELOPE_BYTES : Z := 8 * 1024.

Section Kms.
Context {W : Type} {C : KmsCrates W} {K : Keys}.
Context (network_string : BtcNetwork -> bytes).

Abbreviation M := (io W EnclaveError).

Definition reject (reason : string) : EnclaveError := Custody "KMS" InvalidResponse.

(** The content-encryption key of the only recipient. *)
Definition unwrap_cek (key : RsaPrivateKey) (enveloped : EnvelopedData) : enclave_result bytes :=
  match recip_infos enveloped with
  | [Ktri ktri] =>
      if negb (bool_decide (ktri_key_enc_alg ktri = ID_RSAES_OAEP)) then
        Err (reject "key encryption is not RSAES-OAEP")
      else
        let? params := ok_or (ktri_params ktri) (reject "RSAES-OAEP parameters are missing") in
        let? params := ok_or params (reject "RSAES-OAEP parameters do not decode") in
        if negb (bool_decide (oaep_hash params = ID_SHA_256)) ||
           negb (bool_decide (oaep_mask_gen params = ID_MGF_1)) ||
           negb (bool_decide (oaep_mgf_hash params = Some ID_SHA_256)) then
          Err (reject "RSAES-OAEP parameters are not SHA-256/MGF1-SHA-256")
        else
          let? cek := ok_or (rsa_oaep_decrypt key (ktri_enc_key ktri))
                        (reject "content-encryption key does not unwrap") in
          if negb (zlen cek =? CEK_BYTES) then Err (reject "content-encryption key is not 256 bits")
          else Ok cek
  | _ => Err (reject "expected exactly one key-transport recipient")
  end.

Definition open_envelope (key : RsaPrivateKey) (envelope : bytes) : enclave_result bytes :=
  if bool_decide (envelope = []) || (MAX_ENVELOPE_BYTES <? zlen envelope) then
    Err (reject "envelope size")
  else
    let? der := rmap_err (fun _ => reject "envelope is not BER") (ber_to_der envelope) in
    let? info := ok_or (content_info_from_der der) (reject "envelope is not CMS") in
    if negb (bool_decide (content_type info = ID_ENVELOPED_DATA)) then
      Err (reject "content type is not EnvelopedData")
    else
      let? enveloped := ok_or (content info) (reject "EnvelopedData does not decode") in
      let? cek := unwrap_cek key enveloped in
      let content := encrypted_content enveloped in
      if negb (bool_decide (eci_content_type content = ID_DATA)) then
        Err (reject "encrypted content is not id-data")
      else if negb (bool_decide (eci_alg content = ID_AES_256_CBC)) then
        Err (reject "content encryption is not AES-256-CBC")
      else
        let? iv := ok_or (eci_iv content) (reject "AES-CBC IV is missing") in
        let? iv := ok_or iv (reject "AES-CBC IV does not decode") in
        if negb (zlen iv =? IV_BYTES) then Err (reject "AES-CBC IV is not 16 bytes")
        else
          let? ciphertext := ok_or (eci_encrypted_content content) (reject "encrypted content is missing") in
          ok_or (aes_256_cbc_decrypt cek iv ciphertext) (reject "AES-CBC padding").

Record Recipient : Type := { rec_key : RsaPrivateKey; rec_document : bytes }.

Definition new_recipient (key : RsaPrivateKey) : M Recipient :=
  let! public_key := io_lift (ok_or (public_key_der key) (custody CustodyInternal)) in
  let! nonce := io_call getrandom32 in
  let! nonce := io_lift (ok_or nonce (custody CustodyInternal)) in
  let! document := nsm_document nonce (Some public_key) None in
  io_lift (Ok {| rec_key := key; rec_document := document |}).

(** [KmsClient::recipient]. *)
Definition recipient : M Recipient :=
  let! key := io_call (rsa_new RECIPIENT_RSA_BITS) in
  let! key := io_lift (ok_or key (custody CustodyInternal)) in
  new_recipient key.

(** [Recipient::open]. *)
Definition open_recipient (r : Recipient) (envelope : option bytes) : enclave_result bytes :=
  let? envelope := ok_or envelope (invalid "KMS omitted CiphertextForRecipient") in
  let? plaintext := open_envelope (rec_key r) envelope in
  if negb (zlen plaintext =? SEED_BYTES) then
    Err (invalid "KMS recipient envelope did not hold a 64-byte seed")
  else Ok plaintext.

(** ** The client *)

Record KmsClient : Type := {
  kms_config : KmsConfig;
  kms_credentials : AwsCredentials;
  kms_network : BtcNetwork
}.

(** [KmsClient::new]. *)
Definition new_client (config : KmsConfig) (credentials : AwsCredentials) (network : BtcNetwork)
    : enclave_result KmsClient :=
  let? _ := validate_config config in
  Ok {| kms_config := config; kms_credentials := credentials; kms_network := network |}.

(** [remaining_until(deadline)?], the clock included. *)
Definition remaining (deadline : Z) : M Z :=
  let! now := io_call instant_now in
  io_lift (remaining_until deadline now).

Definition call_budget (deadline : Z) : M Z :=
  let! time_left := remaining deadline in
  io_lift (Ok (Z.min time_left CALL_TIMEOUT)).

Definition encryption_context (c : KmsClient) : list (bytes * bytes) :=
  [(text "application", text "utexo-enclave-signer"); (text "flow", CUSTODY_FLOW);
   (text "seed_id", cfg_seed_id (kms_config c));
   (text "bitcoin_network", network_string (kms_network c))].

Definition check_key_id (c : KmsClient) (key_id : option bytes) : enclave_result unit :=
  if bool_decide (key_id = Some (cfg_key_arn (kms_config c))) then Ok tt
  else Err (invalid "KMS answered for an unexpected key").

Definition reject_plaintext (plaintext : option bytes) : enclave_result unit :=
  match plaintext with
  | None | Some [] => Ok tt
  | Some _ => Err (invalid "KMS returned plaintext to an attested request")
  end.

(** [sdk_client]: the parts of the SDK client; its settings are in the call. *)
Definition sdk_client : M unit :=
  let! http := io_call https_client in
  let! _ := io_lift (if http then Ok tt else Err (custody CustodyInternal)) in
  let! sleep := io_call async_sleep in
  io_lift (if sleep then Ok tt else Err (custody CustodyInternal)).

Definition kms_call (c : KmsClient) (action : KmsAction) (recipient : option bytes) (budget : Z)
    : KmsCall := {|
  kc_action := action;
  kc_key_id := cfg_key_arn (kms_config c);
  kc_region := cfg_region (kms_config c);
  kc_credentials := to_sdk (kms_credentials c);
  kc_context := encryption_context c;
  kc_recipient := recipient;
  kc_connect_timeout := Z.min CONNECT_TIMEOUT budget;
  kc_operation_timeout := budget |}.

(** [block_on], with the [map_err(classify)] that follows it. *)
Definition block_on (budget : Z) (call : KmsCall) : M KmsOutput :=
  let! runtime := io_call tokio_runtime in
  let! _ := io_lift (if runtime then Ok tt else Err (custody CustodyInternal)) in
  let! answer := io_call (sdk_send call budget) in
  io_lift match answer with
          | None => Err (custody Unavailable)
          | Some (inl error) => Err (classify error)
          | Some (inr output) => Ok output
          end.

Definition check_blob (blob : option bytes) : enclave_result bytes :=
  let? ciphertext := ok_or blob (invalid "KMS omitted CiphertextBlob") in
  if bool_decide (ciphertext = []) || (MAX_CIPHERTEXT_BYTES <? zlen ciphertext) then
    Err (invalid "KMS CiphertextBlob has an invalid length")
  else Ok ciphertext.

Definition generate_ciphertext (c : KmsClient) (deadline : Z) : M bytes :=
  let! r := recipient in
  let! budget := call_budget deadline in
  let! _ := sdk_client in
  let! output := block_on budget
    (kms_call c (GenerateDataKey SEED_BYTES) (Some (rec_document r)) budget) in
  let! _ := io_lift (check_key_id c (out_key_id output)) in
  let! _ := io_lift (reject_plaintext (out_plaintext output)) in
  let! ciphertext := io_lift (check_blob (out_ciphertext_blob output)) in
  let! _ := io_lift (open_recipient r (out_ciphertext_for_recipient output)) in
  io_lift (Ok ciphertext).

(** The variant of a mock-attestation build. *)
Definition generate_ciphertext_mock (c : KmsClient) (deadline : Z) : M bytes :=
  let! budget := call_budget deadline in
  let! _ := sdk_client in
  let! output := block_on budget (kms_call c (GenerateDataKey SEED_BYTES) None budget) in
  let! _ := io_lift (check_key_id c (out_key_id output)) in
  let! _ := io_lift match out_plaintext output with
                    | Some blob =>
                        if zlen blob =? SEED_BYTES then Ok tt
                        else Err (invalid "KMS plaintext absent or wrong length (mock mode)")
                    | None => Err (invalid "KMS plaintext absent or wrong length (mock mode)")
                    end in
  io_lift (check_blob (out_ciphertext_blob output)).

Definition check_persisted (blob : bytes) : enclave_result unit :=
  if bool_decide (blob = []) || (MAX_CIPHERTEXT_BYTES <? zlen blob) then
    Err (fail "invalid persisted KMS ciphertext length")
  else Ok tt.

Definition check_algorithm (o : KmsOutput) : enclave_result unit :=
  if bool_decide (out_encryption_algorithm o = Some SymmetricDefault) then Ok tt
  else Err (invalid "KMS reported an unexpected encryption algorithm").

Definition decrypt_seed (c : KmsClient) (blob : bytes) (deadline : Z) : M bytes :=
  let! _ := io_lift (check_persisted blob) in
  let! r := recipient in
  let! budget := call_budget deadline in
  let! _ := sdk_client in
  let! output := block_on budget (kms_call c (Decrypt blob) (Some (rec_document r)) budget) in
  let! _ := io_lift (check_key_id c (out_key_id output)) in
  let! _ := io_lift (reject_plaintext (out_plaintext output)) in
  let! _ := io_lift (check_algorithm output) in
  io_lift (open_recipient r (out_ciphertext_for_recipient output)).

Definition decrypt_seed_mock (c : KmsClient) (blob : bytes) (deadline : Z) : M bytes :=
  let! _ := io_lift (check_persisted blob) in
  let! budget := call_budget deadline in
  let! _ := sdk_client in
  let! output := block_on budget (kms_call c (Decrypt blob) None budget) in
  let! _ := io_lift (check_key_id c (out_key_id output)) in
  let! _ := io_lift (check_algorithm output) in
  let! plaintext := io_lift (ok_or (out_plaintext output) (invalid "KMS omitted plaintext (mock mode)")) in
  if negb (zlen plaintext =? SEED_BYTES) then
    io_lift (Err (invalid "KMS plaintext has unexpected length (mock mode)"))
  else io_lift (Ok plaintext).

End Kms.
