(* ===== verification/SeedPersistence.v ===== *)
(** * The persistent seed (src/enclave/src/seed_persistence.rs)

    [recover_seed] decides between the saved ciphertext and a new one,
    [PersistentSeed::load_keys] is the whole recovery: credentials, KMS client,
    seed, keys.  [SeedStore] and [SeedKms] are the two traits; the parent's
    broker is the store, behind framed JSON.  The socket with its deadline and
    serde_json are the interface [BrokerLink]. *)

From stdpp Require Import strings base numbers list.
From S2P Require Import Prelude Errors RustText Io ReplayGuard ResultCache RefillRate EnclaveState.
From S2P Require Import SpvTypes AttestedPolicy EvmRelay LaunchConfig KmsClient.

#[local] Open Scope list_scope.
#[local] Open Scope Z_scope.

Definition MAX_MESSAGE_BYTES : Z := 64 * 1024.
Definition BROKER_TIMEOUT : Z := secs 8.

Definition failure (message : string) : EnclaveError :=
  InvalidRequest ("seed persistence: " +:+ message).

Definition broker_error (code : bytes) : EnclaveError :=
  Custody "seed broker"
    (if code_in (Some code) ["configuration_error"; "seed_id_not_allowed"] then Configuration
     else if code_in (Some code) ["access_denied"] then AccessDenied
     else if code_in (Some code) ["aws_unavailable"; "broker_busy"; "operation_timeout"; "request_timeout"]
     then Unavailable
     else if code_in (Some code) ["invalid_ciphertext"] then InvalidCiphertext
     else if code_in (Some code) ["internal_error"] then CustodyInternal
     else InvalidResponse).

(** The three requests of the broker protocol, as their JSON objects. *)
Inductive BrokerRequest : Type :=
| CredentialsOp
| LoadOp (seed_id : bytes)
| CreateOp (seed_id ciphertext : bytes).

(** A [serde_json::Value], as far as [decode_blob] looks at it. *)
Inductive JsonValue : Type := JNull | JString (s : bytes) | JOther.

Class BrokerLink (W : Type) : Type := {
  (** [connect] within the deadline. *)
  link_connect : Z -> W -> W * bool;
  (** [write_all] and [read_exact] of the [DeadlineStream]. *)
  link_write : Z -> bytes -> W -> W * bool;
  link_read : Z -> Z -> W -> W * option bytes;
  request_to_vec : BrokerRequest -> option bytes;
  failure_from_slice : bytes -> option bytes;
  blob_from_slice : bytes -> option JsonValue;
  credentials_from_slice : bytes -> option (bytes * bytes * bytes)
}.

Definition validate_ciphertext (blob : bytes) : enclave_result unit :=
  if bool_decide (blob = []) || (MAX_CIPHERTEXT_BYTES <? zlen blob) then
    Err (failure "invalid ciphertext length")
  else Ok tt.

Section Recovery.
Context {W : Type} {C : KmsCrates W}.

Abbreviation M := (io W EnclaveError).

(** The traits. *)
Record SeedStore : Type := {
  store_load : Z -> M (option bytes);
  store_create : bytes -> Z -> M bytes
}.

Record SeedKms : Type := {
  kms_generate : Z -> M bytes;
  kms_decrypt : bytes -> Z -> M bytes
}.

(** The ciphertext of a bootstrap. *)
Definition bootstrap (store : SeedStore) (kms : SeedKms) (deadline : Z) : M bytes :=
  let! _ := remaining deadline in
  let! blob := kms_generate kms deadline in
  let! _ := io_lift (validate_ciphertext blob) in
  let! _ := remaining deadline in
  let! committed := store_create store blob deadline in
  if negb (bool_decide (committed = blob)) then
    io_lift (Err (failure "another initializer committed a different seed; pin its identity and restart"))
  else io_lift (Ok committed).

Definition recover_seed (store : SeedStore) (kms : SeedKms) (expected_evm_address : option bytes)
    (deadline : Z) : M bytes :=
  let! _ := remaining deadline in
  let! loaded := store_load store deadline in
  let! ciphertext :=
    match loaded, expected_evm_address with
    | Some blob, Some _ => io_lift (Ok blob)
    | Some _, None =>
        io_lift (Err (failure "saved seed exists; an unpinned launch only bootstraps, set KMS_EXPECTED_EVM_ADDRESS to recover it"))
    | None, None => bootstrap store kms deadline
    | None, Some _ =>
        io_lift (Err (failure "saved seed is missing; a pinned identity cannot be replaced"))
    end in
  let! _ := io_lift (validate_ciphertext ciphertext) in
  let! _ := remaining deadline in
  let! seed := kms_decrypt kms ciphertext deadline in
  let! _ := remaining deadline in
  io_lift (Ok seed).

Context {K : Keys}.

Definition restore_keys (seed : bytes) (network : BtcNetwork) (expected : option bytes)
    : enclave_result KeyManager :=
  let? manager := from_seed seed network in
  match expected with
  | Some address =>
      if bool_decide (km_evm_address manager = address) then Ok manager else Err IdentityMismatch
  | None => Ok manager
  end.

(** ** The broker *)

Context {B : BrokerLink W} {T : TextCodecs}.

Record SeedBroker : Type := { sb_seed_id : bytes }.

(** [SeedBroker::request], with the parser of the answer. *)
Definition request {A : Type} (parse : bytes -> option A) (req : BrokerRequest) (deadline : Z) : M A :=
  let unavailable (ok : bool) : enclave_result unit :=
    if ok then Ok tt else Err (broker_error (text "aws_unavailable")) in
  let! now := io_call instant_now in
  let deadline := Z.min deadline (now + BROKER_TIMEOUT) in
  let! _ := io_map_err (fun _ => broker_error (text "operation_timeout")) (remaining deadline) in
  let! connected := io_call (link_connect deadline) in
  let! _ := io_lift (unavailable connected) in
  let! frame := io_lift (ok_or (request_to_vec req) (failure "encode broker request")) in
  if MAX_MESSAGE_BYTES <? zlen frame then io_lift (Err (failure "broker request too large"))
  else
    let! written := io_call (link_write deadline (be_split 4 (zlen frame))) in
    let! _ := io_lift (unavailable written) in
    let! written := io_call (link_write deadline frame) in
    let! _ := io_lift (unavailable written) in
    let! length_ := io_call (link_read deadline 4) in
    let! length_ := io_lift (ok_or length_ (broker_error (text "aws_unavailable"))) in
    let length_ := be_combine length_ in
    if (length_ =? 0) || (MAX_MESSAGE_BYTES <? length_) then
      io_lift (Err (broker_error (text "invalid_response")))
    else
      let! response := io_call (link_read deadline length_) in
      let! response := io_lift (ok_or response (broker_error (text "aws_unavailable"))) in
      match failure_from_slice response with
      | Some code => io_lift (Err (broker_error code))
      | None => io_lift (ok_or (parse response) (broker_error (text "invalid_response")))
      end.

Definition credentials (b : SeedBroker) (deadline : Z) : M AwsCredentials :=
  let! (id, secret, token) := request credentials_from_slice CredentialsOp deadline in
  io_lift (from_protected id secret token).

Definition decode_blob (response : JsonValue) : enclave_result (option bytes) :=
  match response with
  | JNull => Ok None
  | JOther => Err (failure "invalid ciphertext encoding")
  | JString encoded =>
      let? blob := ok_or (base64_decode encoded) (failure "invalid ciphertext encoding") in
      let? _ := validate_ciphertext blob in
      Ok (Some blob)
  end.

(** [SeedStore for SeedBroker]. *)
Definition broker_load (b : SeedBroker) (deadline : Z) : M (option bytes) :=
  let! response := request blob_from_slice (LoadOp (sb_seed_id b)) deadline in
  io_lift (decode_blob response).

Definition broker_create (b : SeedBroker) (ciphertext : bytes) (deadline : Z) : M bytes :=
  let! _ := io_lift (validate_ciphertext ciphertext) in
  let! response := request blob_from_slice
    (CreateOp (sb_seed_id b) (base64_encode ciphertext)) deadline in
  let! blob := io_lift (decode_blob response) in
  io_lift (ok_or blob (failure "broker did not return a committed seed")).

Definition broker_store (b : SeedBroker) : SeedStore := {|
  store_load := broker_load b; store_create := broker_create b |}.

(** ** The whole recovery *)

Context (network_string : BtcNetwork -> bytes).

(** [SeedKms for KmsClient]; [mock] is the feature mock-attestation. *)
Definition client_kms (mock : bool) (c : KmsClient) : SeedKms := {|
  kms_generate := if mock then generate_ciphertext_mock network_string c
                  else generate_ciphertext network_string c;
  kms_decrypt := if mock then decrypt_seed_mock network_string c
                 else decrypt_seed network_string c |}.

Record PersistentSeed : Type := {
  ps_config : KmsConfig;
  ps_broker : SeedBroker;
  ps_expected : option bytes
}.

(** [PersistentSeed::new]. *)
Definition new_persistent (pin : KmsPin) : enclave_result PersistentSeed :=
  let config := {| cfg_key_arn := key_arn pin; cfg_region := region pin; cfg_seed_id := seed_id pin |} in
  let? _ := validate_config config in
  Ok {| ps_config := config; ps_broker := {| sb_seed_id := seed_id pin |};
        ps_expected := expected_evm_address pin |}.

Definition load_keys (mock : bool) (p : PersistentSeed) (network : BtcNetwork) (deadline : Z)
    : M KeyManager :=
  let! creds := credentials (ps_broker p) deadline in
  let! kms := io_lift (new_client (ps_config p) creds network) in
  let! seed := recover_seed (broker_store (ps_broker p)) (client_kms mock kms) (ps_expected p) deadline in
  io_lift (restore_keys seed network (ps_expected p)).

End Recovery.
