(* ===== verification/SeedBroker.v ===== *)
(** * The seed broker of the parent (src/parent/src/seed_persistence.rs)

    The store behind [SeedPersistence]: settings, request checks, the S3 object
    behind a conditional PUT, and the framed JSON connection.  S3, the
    credentials provider and serde_json are the interface [Host]; the token
    bucket is an f64 computation and only its verdict is used. *)

From stdpp Require Import strings base numbers list.
From S2P Require Import Prelude Errors RustText Io SeedPersistence.

#[local] Open Scope list_scope.
#[local] Open Scope Z_scope.

Definition MAX_FRAME : Z := 65536.
Definition MAX_CIPHERTEXT : Z := 6144.
Definition MAX_CONNECTIONS : Z := 16.
Definition CONNECTIONS_PER_CID : Z := 4.
Definition OPERATIONS_PER_CID : Z := 2.

Inductive BrokerFailure : Type :=
| BConfiguration
| BAccessDenied
| BAwsUnavailable
| BInvalidCiphertext
| BBusy
| BOperationTimeout
| BRequestTimeout
| BInvalidFrame
| BInvalidRequest
| BSeedIdNotAllowed
| BResponseTooLarge
| BInternal.

(** The [Display] of an error. *)
Definition code_of (e : BrokerFailure) : bytes :=
  text match e with
       | BConfiguration => "configuration_error"
       | BAccessDenied => "access_denied"
       | BAwsUnavailable => "aws_unavailable"
       | BInvalidCiphertext => "invalid_ciphertext"
       | BBusy => "broker_busy"
       | BOperationTimeout => "operation_timeout"
       | BRequestTimeout => "request_timeout"
       | BInvalidFrame => "invalid_frame"
       | BInvalidRequest => "invalid_request"
       | BSeedIdNotAllowed => "seed_id_not_allowed"
       | BResponseTooLarge => "response_too_large"
       | BInternal => "internal_error"
       end.

Abbreviation broker_result := (res BrokerFailure).

(** ** Settings *)

(** [SocketAddr]: whether the address is 127.0.0.1, and the port. *)
Record SocketAddr : Type := { sa_localhost : bool; sa_port : Z }.

(** The fields of the parent's [Config] that are read. *)
Record ParentConfig : Type := { use_vsock : bool; enclave_vsock_cid : Z }.

Record Settings : Type := {
  st_seed_id : bytes;
  st_bucket : bytes;
  st_key : bytes;
  st_region : bytes;
  st_cids : list Z;
  st_tcp : option SocketAddr
}.

Definition CONFIG_KEYS : list string :=
  ["KMS_SEED_ID"; "KMS_S3_BUCKET"; "KMS_S3_KEY"; "KMS_ALLOWED_CIDS"; "KMS_BROKER_TCP"].

Definition configured (get : string -> option bytes) : bool :=
  existsb (fun key => bool_decide (is_Some (get key))) CONFIG_KEYS.

(** One entry of KMS_ALLOWED_CIDS. *)
Definition push_cid (cids : list Z) (value : bytes) : broker_result (list Z) :=
  let value := trim value in
  if bool_decide (value = []) || negb (forallb is_ascii_digit value) then Err BConfiguration
  else
    let? cid := ok_or (parse_uint u32_max value) BConfiguration in
    if (cid <=? 3) || (cid =? u32_max) || bool_decide (cid ∈ cids) then Err BConfiguration
    else Ok (cids ++ [cid]).

Fixpoint push_cids (cids : list Z) (values : list bytes) : broker_result (list Z) :=
  match values with
  | [] => Ok cids
  | value :: values => let? cids := push_cid cids value in push_cids cids values
  end.

Section Settings.
Context (parse_socket_addr : bytes -> option SocketAddr).

Definition read_tcp (parent : ParentConfig) (value : option bytes)
    : broker_result (option SocketAddr) :=
  match value with
  | None => Ok None
  | Some value =>
      let? addr := ok_or (parse_socket_addr value) BConfiguration in
      if use_vsock parent || negb (sa_localhost addr) || (sa_port addr =? 0) then Err BConfiguration
      else Ok (Some addr)
  end.

Definition read_cids (parent : ParentConfig) (value : option bytes) : broker_result (list Z) :=
  match value with
  | Some raw =>
      if 4096 <? zlen raw then Err BConfiguration
      else
        let? cids := push_cids [] (split x2c raw) in
        if 64 <? zlen cids then Err BConfiguration else Ok cids
  | None =>
      if (enclave_vsock_cid parent <=? 3) || (enclave_vsock_cid parent =? u32_max) then
        Err BConfiguration
      else Ok [enclave_vsock_cid parent]
  end.

(** [Settings::read]. *)
Definition read_settings (parent : ParentConfig) (get : string -> option bytes)
    : broker_result (option Settings) :=
  if negb (configured get) then Ok None
  else
    let required name : broker_result bytes :=
      match get name with
      | Some v => if negb (bool_decide (v = [])) && bool_decide (trim v = v) then Ok v
                  else Err BConfiguration
      | None => Err BConfiguration
      end in
    let? seed_id := required "KMS_SEED_ID" in
    let? bucket := required "KMS_S3_BUCKET" in
    let? key := required "KMS_S3_KEY" in
    let? region := required "AWS_REGION" in
    if (256 <? zlen seed_id) || (255 <? zlen bucket) || (1024 <? zlen key) || (64 <? zlen region) then
      Err BConfiguration
    else
      let? tcp := read_tcp parent (get "KMS_BROKER_TCP") in
      if bool_decide (tcp = None) && negb (use_vsock parent) then Err BConfiguration
      else
        let? cids := read_cids parent (get "KMS_ALLOWED_CIDS") in
        match get "KMS_BROKER_PORT" with
        | Some port =>
            if negb (bool_decide (port = text "8004")) then Err BConfiguration
            else Ok (Some {| st_seed_id := seed_id; st_bucket := bucket; st_key := key;
                             st_region := region; st_cids := cids; st_tcp := tcp |})
        | None => Ok (Some {| st_seed_id := seed_id; st_bucket := bucket; st_key := key;
                              st_region := region; st_cids := cids; st_tcp := tcp |})
        end.

End Settings.

(** ** AWS *)

Inductive CredentialsError : Type :=
| CredentialsNotLoaded
| InvalidConfiguration
| OtherCredentialsError.

(** An [SdkError] of the S3 client: the first credentials error among its
    sources, the construction failure, the status and the service code. *)
Record S3Error : Type := {
  s3_credentials_cause : option CredentialsError;
  s3_construction : bool;
  s3_status : option Z;
  s3_code : option bytes
}.

(** A body stream: the bytes it gives, then its end or an error. *)
Record S3Object : Type := {
  s3_content_length : option Z;
  s3_body : bytes;
  s3_body_fails : bool
}.

(** The calls: [None] when the operation deadline cancels the future while it
    waits.  A cancelled PUT can still have committed. *)
Class Host (W : Type) : Type := {
  get_object : bytes -> bytes -> W -> W * option (S3Error + S3Object);
  (** With [If-None-Match: *]. *)
  put_object : bytes -> bytes -> bytes -> W -> W * option (S3Error + unit);
  (** Key id, secret, session token. *)
  provide_credentials : W -> W * option (CredentialsError + bytes * bytes * option bytes);
  json_request : bytes -> option BrokerRequest;
  json_credentials : bytes -> bytes -> bytes -> bytes;
  json_ciphertext : option bytes -> bytes
}.

Definition one_of (code : option bytes) (names : list string) : bool :=
  match code with Some c => existsb (fun n => bool_decide (c = text n)) names | None => false end.

Definition aws_code (code : option bytes) : BrokerFailure :=
  if one_of code ["AccessDenied"; "AccessDeniedException"; "UnauthorizedOperation";
                  "InvalidAccessKeyId"; "InvalidClientTokenId"; "SignatureDoesNotMatch"] then BAccessDenied
  else if one_of code ["NoSuchBucket"; "PermanentRedirect"; "AuthorizationHeaderMalformed";
                       "IllegalLocationConstraintException"; "InvalidRegion"] then BConfiguration
  else BAwsUnavailable.

Definition credential_error (e : CredentialsError) : BrokerFailure :=
  match e with
  | CredentialsNotLoaded | InvalidConfiguration => BConfiguration
  | OtherCredentialsError => BAwsUnavailable
  end.

Definition sdk_error (e : S3Error) : BrokerFailure :=
  match s3_credentials_cause e with
  | Some c => credential_error c
  | None => if s3_construction e then BConfiguration else aws_code (s3_code e)
  end.

Definition service_error_is (e : S3Error) (status : Z) (codes : list string) : bool :=
  bool_decide (s3_status e = Some status) && one_of (s3_code e) codes.

(** [body.take(n).read_to_end()]. *)
Definition read_capped (n : Z) (o : S3Object) : option bytes :=
  if s3_body_fails o && (zlen (s3_body o) <? n) then None
  else Some (take (Z.to_nat n) (s3_body o)).

Section Broker.
Context {W : Type} {H : Host W} {T : TextCodecs}.

Abbreviation M := (io W BrokerFailure).

Definition decode_ciphertext (encoded : bytes) : broker_result bytes :=
  if (MAX_CIPHERTEXT + 2) / 3 * 4 <? zlen encoded then Err BInvalidCiphertext
  else
    let? blob := ok_or (base64_decode encoded) BInvalidCiphertext in
    if bool_decide (blob = []) || (MAX_CIPHERTEXT <? zlen blob) ||
       negb (bool_decide (base64_encode blob = encoded)) then Err BInvalidCiphertext
    else Ok blob.

(** A call under the operation deadline. *)
Definition call {A : Type} (f : W -> W * option A) : M A :=
  let! r := io_call f in
  io_lift (ok_or r BOperationTimeout).

(** What [Broker::load] makes of the answer of S3. *)
Definition loaded (r : S3Error + S3Object) : broker_result (option bytes) :=
  match r with
  | inl error =>
      if service_error_is error 404 ["NoSuchKey"; "NotFound"; "404"] then Ok None
      else Err (sdk_error error)
  | inr output =>
      let bad_length (size : Z) := (size <=? 0) || (MAX_CIPHERTEXT <? size) in
      if match s3_content_length output with Some size => bad_length size | None => false end then
        Err BInvalidCiphertext
      else
        let? blob := ok_or (read_capped (MAX_CIPHERTEXT + 1) output) BAwsUnavailable in
        if bool_decide (blob = []) || (MAX_CIPHERTEXT <? zlen blob) ||
           match s3_content_length output with Some size => negb (size =? zlen blob) | None => false end
        then Err BInvalidCiphertext
        else Ok (Some blob)
  end.

Definition load (st : Settings) : M (option bytes) :=
  let! r := call (get_object (st_bucket st) (st_key st)) in
  io_lift (loaded r).

Definition create (st : Settings) (blob : bytes) : M bytes :=
  let! r := call (put_object (st_bucket st) (st_key st) blob) in
  let! _ := io_lift
    match r with
    | inr _ => Ok tt
    | inl error =>
        if service_error_is error 412 ["PreconditionFailed"] ||
           service_error_is error 409 ["ConditionalRequestConflict"] then Ok tt
        else Err (sdk_error error)
    end in
  let! committed := load st in
  io_lift (ok_or committed BAwsUnavailable).

(** [Broker::validate]. *)
Definition validate (st : Settings) (req : BrokerRequest) : broker_result unit :=
  let check_id seed_id (k : broker_result unit) :=
    if negb (bool_decide (seed_id = st_seed_id st)) then Err BSeedIdNotAllowed else k in
  match req with
  | CredentialsOp => Ok tt
  | LoadOp seed_id => check_id seed_id (Ok tt)
  | CreateOp seed_id ciphertext =>
      check_id seed_id (let? _ := decode_ciphertext ciphertext in Ok tt)
  end.

(** The fixed buffer of [json] holds [MAX_FRAME] bytes. *)
Definition json (payload : bytes) : broker_result bytes :=
  if MAX_FRAME <? zlen payload then Err BResponseTooLarge else Ok payload.

Definition dispatch (st : Settings) (req : BrokerRequest) : M bytes :=
  match req with
  | CredentialsOp =>
      let! r := call provide_credentials in
      let! (id, secret, token) := io_lift
        match r with
        | inl error => Err (credential_error error)
        | inr c => Ok c
        end in
      if bool_decide (id = []) || bool_decide (secret = []) then io_lift (Err BConfiguration)
      else io_lift (json (json_credentials id secret (default [] token)))
  | LoadOp _ =>
      let! blob := load st in
      io_lift (json (json_ciphertext (base64_encode <$> blob)))
  | CreateOp _ ciphertext =>
      let! blob := io_lift (decode_ciphertext ciphertext) in
      let! committed := create st blob in
      io_lift (json (json_ciphertext (Some (base64_encode committed))))
  end.

(** *** Admission *)

(** The permits of a peer and of the broker. *)
Record Permits : Type := { global_permits : Z; peer_permits : Z }.

(** [acquire]: both permits or none. *)
Definition acquire (p : Permits) : broker_result Permits :=
  if global_permits p <=? 0 then Err BBusy
  else if peer_permits p <=? 0 then Err BBusy
  else Ok {| global_permits := global_permits p - 1; peer_permits := peer_permits p - 1 |}.

(** [Broker::new]: the peers and the permits. *)
Definition peer_ids (st : Settings) : list Z :=
  match st_tcp st with Some _ => [0] | None => st_cids st end.

Definition new_connections : Permits := {|
  global_permits := MAX_CONNECTIONS; peer_permits := CONNECTIONS_PER_CID |}.

Definition new_operations : Permits := {|
  global_permits := MAX_CONNECTIONS; peer_permits := OPERATIONS_PER_CID |}.

(** One turn of [serve]: whether a connection of [cid] is handled. *)
Definition admit_session (st : Settings) (cid : Z) (connections : Permits) : bool :=
  bool_decide (cid ∈ peer_ids st) &&
  match acquire connections with Ok _ => true | _ => false end.

(** [Broker::response]; [token] is the verdict of [take_token]. *)
Definition response (st : Settings) (operations : Permits) (token : broker_result unit)
    (req : BrokerRequest) : M bytes :=
  let! _ := io_lift (validate st req) in
  let! _ := io_lift (acquire operations) in
  let! _ := io_lift token in
  dispatch st req.

(** [read_request] on the bytes that arrive before its deadline; [closed]: the
    stream ends there. *)
Definition read_request (stream : bytes) (closed : bool) : broker_result BrokerRequest :=
  let short {A} : broker_result A := Err (if closed then BInvalidFrame else BRequestTimeout) in
  if zlen stream <? 4 then short
  else
    let length_ := be_combine (take 4 stream) in
    if (length_ =? 0) || (MAX_FRAME <? length_) then Err BInvalidFrame
    else if zlen (drop 4 stream) <? length_ then short
    else ok_or (json_request (take (Z.to_nat length_) (drop 4 stream))) BInvalidRequest.

Definition error_payload (e : BrokerFailure) : bytes :=
  [x7b; x22] ++ text "error" ++ [x22; x3a; x22] ++ code_of e ++ [x22; x7d].

(** [Broker::handle]: the bytes of the reply. *)
Definition handle (st : Settings) (operations : Permits) (token : broker_result unit)
    (stream : bytes) (closed : bool) (w : W) : W * bytes :=
  let '(w, result) :=
    (let! req := io_lift (read_request stream closed) in response st operations token req) w in
  let payload := match result with
                 | Ok payload => payload
                 | Err e => error_payload e
                 | Panic => []
                 end in
  (w, be_split 4 (zlen payload) ++ payload).

End Broker.
