(* ===== verification/SeedProps.v ===== *)
(** * Theorems on the persistent seed

    [recovered_seed_own]: which seed a launch can activate, whatever the parent
    does.  [launches_agree]: over the broker and a store that keeps its object,
    all launches of one deployment end with the same keys. *)

From stdpp Require Import strings base numbers list relations.
From S2P Require Import Prelude Errors RustText Io ReplayGuard ResultCache RefillRate EnclaveState.
From S2P Require Import SpvTypes AttestedPolicy EvmRelay LaunchConfig KmsClient SeedPersistence SeedBroker.
From S2P Require Import ParentAttestProps.

#[local] Open Scope list_scope.
#[local] Open Scope Z_scope.

Lemma validate_ciphertext_ok b :
  validate_ciphertext b = Ok tt <-> b <> [] /\ zlen b <= MAX_CIPHERTEXT_BYTES.
Proof.
  unfold validate_ciphertext. destruct (bool_decide_reflect (b = [])); [split; [done|by intros [? _]]|]. cbn [orb].
  destruct (Z.ltb_spec MAX_CIPHERTEXT_BYTES (zlen b)); split; try done; intros [_ ?]; lia.
Qed.

(** ** Which seed *)

Section Recovery.
Context {W : Type} {C : KmsCrates W} (R : relation W) {P : PreOrder R}.

(** A successful run, call by call and in order.  A pin: the saved blob, never a
    new one.  No pin: nothing was saved, and the blob is the one this run
    generated and found committed.  [gen x y b] and [dec b x y s] are the calls to KMS
    that take the world from [x] to [y]; [R] is what happens between the calls. *)
Definition seed_run (store : SeedStore) (gen : W -> W -> bytes -> Prop) (dec : bytes -> W -> W -> bytes -> Prop)
    (pin : option bytes) (d : Z) (w w' : W) (blob seed : bytes) : Prop :=
  (exists w0 w1 w2 w3 loaded, R w w0 /\ store_load store d w0 = (w1, Ok loaded) /\ R w1 w2 /\
     match pin with
     | Some _ => loaded = Some blob /\ w2 = w3
     | None => loaded = None /\ exists g0 g1 c0, gen g0 g1 blob /\
                 R w2 g0 /\ R g1 c0 /\ store_create store blob d c0 = (w3, Ok blob)
     end /\ exists w4 w5, R w3 w4 /\ dec blob w4 w5 seed /\ R w5 w') /\
  blob <> [] /\ zlen blob <= MAX_CIPHERTEXT_BYTES.

Lemma remaining_keeps d : (forall w, R w (instant_now w).1) -> io_keeps R (remaining d).
Proof. intros H. unfold remaining. auto with io. Qed.

Context (clock_keeps : forall w, R w (instant_now w).1).

Lemma remaining_after d w w' z : remaining d w = (w', Ok z) -> R w w'.
Proof. intros H. pose proof (remaining_keeps d clock_keeps w) as Hk. by rewrite H in Hk. Qed.

Lemma recover_seed_run store kms pin d w w' seed :
  recover_seed store kms pin d w = (w', Ok seed) ->
  exists blob, seed_run store (fun x y b => kms_generate kms d x = (y, Ok b))
    (fun b x y s => kms_decrypt kms b d x = (y, Ok s)) pin d w w' blob seed.
Proof.
  unfold recover_seed. intros H. io_inv H z0 w0 H0. io_inv H ld w1 Hl. io_inv H blob w3 Hb.
  io_inv H u w3' Hv. apply io_lift_ok in Hv as [-> Hv]. io_inv H z4 w4 H4. io_inv H s w5 Hd.
  io_inv H z6 w6 H6. apply io_lift_ok in H as [-> [= ->]]. apply remaining_after in H0, H4, H6.
  destruct u. apply validate_ciphertext_ok in Hv. exists blob. split; [|done].
  destruct ld as [saved|], pin as [a|].
  - apply io_lift_ok in Hb as [-> [= ->]]. exists w0, w1, w1, w1, (Some blob). 
    split_and!; try done. by exists w4, w5.
  - by apply io_lift_ok in Hb as [_ ?].
  - by apply io_lift_ok in Hb as [_ ?].
  - unfold bootstrap in Hb. io_inv Hb z w2 H2. io_inv Hb b g1 Hg. io_inv Hb u g1' Hu.
    apply io_lift_ok in Hu as [-> _]. io_inv Hb z' c0 Hc0. io_inv Hb cm c1 Hc. apply remaining_after in H2, Hc0.
    case_bool_decide as E; [|by apply io_lift_ok in Hb as [_ ?]]. subst cm.
    apply io_lift_ok in Hb as [-> [= ->]]. exists w0, w1, w2, c1, None. split_and!; try done.
    + exists w2, g1, c0. split_and!; try done.
    + by exists w4, w5.
Qed.

Lemma seed_run_mono store (gen gen' : W -> W -> bytes -> Prop) (dec dec' : bytes -> W -> W -> bytes -> Prop)
    pin d w w' blob seed :
  (forall x y b, gen x y b -> gen' x y b) -> (forall b x y s, dec b x y s -> dec' b x y s) ->
  seed_run store gen dec pin d w w' blob seed -> seed_run store gen' dec' pin d w w' blob seed.
Proof.
  intros Hg Hd [(w0 & w1 & w2 & w3 & ld & H0 & Hl & H1 & Hm & w4 & w5 & H3 & Hx & H5) Hz]. split; [|done].
  exists w0, w1, w2, w3, ld. split_and!; try done; [|exists w4, w5; eauto].
  destruct pin; [done|]. destruct Hm as (-> & g0 & g1 & c0 & Hgen & H). split; [done|]. exists g0, g1, c0. eauto.
Qed.

End Recovery.

(** Between the calls a launch only reads the clock. *)
Definition clock_read {W : Type} {C : KmsCrates W} (x y : W) : Prop := y = (instant_now x).1.

(** ** What KMS released *)

Section Kms.
Context {W : Type} {C : KmsCrates W} {K : Keys} (network_string : BtcNetwork -> bytes).

(** An attested call from the world [w] to [w'], step by step: the call itself draws a
    new RSA key and a nonce, the NSM attests that key, and KMS answers the document
    within the budget, for the pinned key, with no plaintext; the 64 bytes are what
    that key opens. *)
Definition released (c : KmsClient) (d : Z) (action : KmsAction) (out : KmsOutput) (seed : bytes) (w w' : W) : Prop :=
  exists key pub nonce document budget envelope w1 w2 w3 w4 w5 w6,
    rsa_new RECIPIENT_RSA_BITS w = (w1, Some key) /\ public_key_der key = Some pub /\
    getrandom32 w1 = (w2, Some nonce) /\ nsm_document nonce (Some pub) None w2 = (w3, Ok document) /\
    call_budget d w3 = (w4, Ok budget) /\ 0 < budget <= CALL_TIMEOUT /\
    sdk_client w4 = (w5, Ok tt) /\ tokio_runtime w5 = (w6, true) /\
    sdk_send (kms_call network_string c action (Some document) budget) budget w6 = (w', Some (inr out)) /\
    out_key_id out = Some (cfg_key_arn (kms_config c)) /\
    (out_plaintext out = None \/ out_plaintext out = Some []) /\
    out_ciphertext_for_recipient out = Some envelope /\
    open_envelope key envelope = Ok seed /\ zlen seed = SEED_BYTES.

Lemma io_call_ok {E A} (f : W -> W * A) (w w' : W) a : io_call (E := E) f w = (w', Ok a) -> f w = (w', a).
Proof. unfold io_call. destruct (f w). by intros [= -> ->]. Qed.

Lemma recipient_ok w w' r :
  recipient w = (w', Ok r) -> exists pub nonce w1 w2,
    rsa_new RECIPIENT_RSA_BITS w = (w1, Some (rec_key r)) /\ public_key_der (rec_key r) = Some pub /\
    getrandom32 w1 = (w2, Some nonce) /\ nsm_document nonce (Some pub) None w2 = (w', Ok (rec_document r)).
Proof.
  unfold recipient, new_recipient. intros H. io_inv H ok w1 H1. io_inv H key w2 H2. io_inv H pub w3 H3.
  apply io_lift_ok in H2 as [-> H2], H3 as [-> H3]. apply ok_or_ok in H2, H3. subst ok. io_inv H on w4 H4. io_inv H nonce w5 H5.
  apply io_lift_ok in H5 as [-> H5]. apply ok_or_ok in H5. subst on.
  io_inv H doc w6 H6. apply io_lift_ok in H as [-> [= <-]]. apply io_call_ok in H1, H4. by exists pub, nonce, w1, w4.
Qed.

Lemma call_budget_ok d (w w' : W) budget : call_budget d w = (w', Ok budget) -> 0 < budget <= CALL_TIMEOUT.
Proof.
  unfold call_budget, remaining. intros H. io_inv H t w1 H1. apply io_lift_ok in H as [_ [= <-]].
  io_inv H1 now w2 H2. apply io_lift_ok in H1 as [_ H1]. unfold remaining_until, sat_sub in H1.
  destruct (_ =? 0) eqn:E; [done|]. injection H1 as <-. zbool. unfold CALL_TIMEOUT, secs. lia.
Qed.

Lemma block_on_ok budget call (w w' : W) out :
  block_on budget call w = (w', Ok out) ->
  exists w1, tokio_runtime w = (w1, true) /\ sdk_send call budget w1 = (w', Some (inr out)).
Proof.
  unfold block_on. intros H. io_inv H rt w1 H1. io_inv H u w2 H2. io_inv H ans w3 H3.
  apply io_call_ok in H1, H3. apply io_lift_ok in H2 as [-> H2], H as [-> H].
  destruct rt; [|done]. destruct ans as [[e|o]|]; try done. injection H as ->. by exists w1.
Qed.

Lemma checks_ok c out r seed :
  check_key_id c (out_key_id out) = Ok tt -> reject_plaintext (out_plaintext out) = Ok tt ->
  open_recipient r (out_ciphertext_for_recipient out) = Ok seed ->
  out_key_id out = Some (cfg_key_arn (kms_config c)) /\
  (out_plaintext out = None \/ out_plaintext out = Some []) /\
  exists envelope, out_ciphertext_for_recipient out = Some envelope /\
    open_envelope (rec_key r) envelope = Ok seed /\ zlen seed = SEED_BYTES.
Proof.
  unfold check_key_id, reject_plaintext, open_recipient. intros Hk Hp Ho. case_bool_decide; [|done].
  split; [done|]. split; [destruct (out_plaintext out) as [[|b l]|]; [by right|done|by left]|].
  apply rbind_ok in Ho as (env & He & Ho). apply ok_or_ok in He. apply rbind_ok in Ho as (s & Hs & Ho).
  exists env. split; [done|]. destruct (Z.eqb_spec (zlen s) SEED_BYTES); [|done]. injection Ho as <-. by split.
Qed.

(** The common part of the two calls, from its pieces. *)
Lemma released_intro c d action out r budget seed w w1 w2 w3 w4 :
  recipient w = (w1, Ok r) -> call_budget d w1 = (w2, Ok budget) -> sdk_client w2 = (w3, Ok tt) ->
  block_on budget (kms_call network_string c action (Some (rec_document r)) budget) w3 = (w4, Ok out) ->
  check_key_id c (out_key_id out) = Ok tt -> reject_plaintext (out_plaintext out) = Ok tt ->
  open_recipient r (out_ciphertext_for_recipient out) = Ok seed ->
  released c d action out seed w w4.
Proof.
  intros Hr Hb Hs Ho Hk Hp Hopen. apply recipient_ok in Hr as (pub & nonce & a & b & H1 & H2 & H3 & H4).
  pose proof (call_budget_ok _ _ _ _ Hb). apply block_on_ok in Ho as (w5 & Ht & Hsend).
  destruct (checks_ok _ _ _ _ Hk Hp Hopen) as (H5 & H6 & env & H7 & H8 & H9).
  exists (rec_key r), pub, nonce, (rec_document r), budget, env, a, b, w1, w2, w3, w5. split_and!; first [done|tauto|lia].
Qed.

Lemma decrypt_seed_ok c blob d w w' seed :
  decrypt_seed network_string c blob d w = (w', Ok seed) ->
  exists out, released c d (Decrypt blob) out seed w w' /\ out_encryption_algorithm out = Some SymmetricDefault.
Proof.
  unfold decrypt_seed. intros H. io_inv H u0 w0 H0. io_inv H r w1 Hr. io_inv H budget w2 Hb.
  io_inv H u3 w3 H3. io_inv H out w4 Ho. io_inv H u5 w5 H5. io_inv H u6 w6 H6. io_inv H u7 w7 H7.
  apply io_lift_ok in H0 as [-> _], H5 as [-> H5], H6 as [-> H6], H7 as [-> H7], H as [-> H]. destruct u3, u5, u6.
  exists out. split; [by eapply released_intro|]. unfold check_algorithm in H7. by case_bool_decide.
Qed.

Lemma generate_ciphertext_ok c d w w' blob :
  generate_ciphertext network_string c d w = (w', Ok blob) ->
  exists out seed, released c d (GenerateDataKey SEED_BYTES) out seed w w' /\ out_ciphertext_blob out = Some blob.
Proof.
  unfold generate_ciphertext. intros H. io_inv H r w1 Hr. io_inv H budget w2 Hb.
  io_inv H u3 w3 H3. io_inv H out w4 Ho. io_inv H u5 w5 H5. io_inv H u6 w6 H6. io_inv H ct w7 H7.
  io_inv H seed w8 H8.
  apply io_lift_ok in H5 as [-> H5], H6 as [-> H6], H7 as [-> H7], H8 as [-> H8], H as [-> [= <-]]. destruct u3, u5, u6.
  exists out, seed. split; [by eapply released_intro|].
  unfold check_blob in H7. apply rbind_ok in H7 as (x & Hx & H7). apply ok_or_ok in Hx.
  destruct (_ || _); [done|]. injection H7 as ->. done.
Qed.

Context {B : BrokerLink W} {T : TextCodecs}.

Lemma load_keys_ok mock p n d w w' km :
  load_keys network_string mock p n d w = (w', Ok km) ->
  exists creds kms seed w0 w1, credentials (ps_broker p) d w = (w0, Ok creds) /\
    new_client (ps_config p) creds n = Ok kms /\
    recover_seed (broker_store (ps_broker p)) (client_kms network_string mock kms) (ps_expected p) d w0
      = (w1, Ok seed) /\ w' = w1 /\ restore_keys seed n (ps_expected p) = Ok km.
Proof.
  unfold load_keys. intros H. io_inv H creds w0 H0. io_inv H client w1 H1. apply io_lift_ok in H1 as [-> H1].
  io_inv H seed w2 H2. apply io_lift_ok in H as [-> H]. exists creds, client, seed, w0, w2. by split_and!.
Qed.

Lemma restore_keys_ok seed n pin km :
  restore_keys seed n pin = Ok km <->
  from_seed seed n = Ok km /\ (forall a, pin = Some a -> km_evm_address km = a).
Proof.
  unfold restore_keys. destruct (from_seed seed n) as [m| |]; cbn [rbind]; [|split; [done|by intros [? _]]..].
  destruct pin as [a|].
  - case_bool_decide as E; split.
    + intros [= <-]. split; [done|]. by intros ? [= <-].
    + by intros [[= <-] _].
    + done.
    + intros [[= <-] Ha]. by destruct E; apply Ha.
  - split; [intros [= <-]; by split|by intros [[= <-] _]].
Qed.

(** C13: the seed that a launch activates is never one the parent chose.  For any parent
    and any answers: with a pinned address the keys have that address and come from
    the saved blob, and nothing is generated; without one, nothing was saved and the
    blob is the one that this very run had KMS generate and found committed.  In both
    cases KMS decrypted it under the pinned configuration.  The run is given call by
    call, with only readings of the clock between the calls: each of the two calls to
    KMS draws its own RSA key, has the NSM attest that key, gets no plaintext, and
    opens the answer with it. *)
Theorem recovered_seed_own p n d w w' km :
  load_keys network_string false p n d w = (w', Ok km) ->
  exists kms blob seed w0, credentials (ps_broker p) d w = (w0, Ok (kms_credentials kms)) /\
    kms_config kms = ps_config p /\ kms_network kms = n /\ validate_config (ps_config p) = Ok tt /\
    seed_run (rtc clock_read) (broker_store (ps_broker p))
      (fun x y b => exists out s, released kms d (GenerateDataKey SEED_BYTES) out s x y /\ out_ciphertext_blob out = Some b)
      (fun b x y s => exists out, released kms d (Decrypt b) out s x y /\
                                  out_encryption_algorithm out = Some SymmetricDefault)
      (ps_expected p) d w0 w' blob seed /\
    from_seed seed n = Ok km /\ (forall a, ps_expected p = Some a -> km_evm_address km = a).
Proof.
  intros H. apply load_keys_ok in H as (creds & client & seed & w0 & w1 & Hcr & Hc & Hr & -> & Hk).
  apply restore_keys_ok in Hk. unfold new_client in Hc. inv_bind Hc u Hu. destruct u. injection Hc as <-.
  apply (recover_seed_run (rtc clock_read)) in Hr as [blob Hr]; [|intros x; by apply rtc_once].
  exists {| kms_config := ps_config p; kms_credentials := creds; kms_network := n |}, blob, seed, w0.
  split_and!; [done|done|done|exact Hu| |by apply Hk|by apply Hk].
  eapply seed_run_mono; [| |exact Hr].
  - intros x y b. apply generate_ciphertext_ok.
  - intros b x y s'. apply decrypt_seed_ok.
Qed.

End Kms.

(** ** Over the broker *)

(** The socket between enclave and broker: what was sent on it, and the bytes
    of the reply that are still unread. *)
Record Link (W : Type) : Type := {
  lk_world : W;
  lk_sent : bytes;
  lk_reply : option bytes
}.

Arguments lk_world {W} _.
Arguments lk_sent {W} _.
Arguments lk_reply {W} _.
Arguments Build_Link {W} _ _ _.

Section Wire.
Context {W : Type} {C : KmsCrates W} {H : Host W} {T : TextCodecs} (st : Settings).
(** Accepting a connection, and the permits and token of a request. *)
Context (accepts : W -> W * bool) (admission : W -> Permits * broker_result unit).
(** serde_json in the enclave. *)
Context (encode : BrokerRequest -> option bytes) (error_of : bytes -> option bytes)
  (blob_of : bytes -> option JsonValue) (credentials_of : bytes -> option (bytes * bytes * bytes)).

Definition on_world {A : Type} (f : W -> W * A) (l : Link W) : Link W * A :=
  let '(w, a) := f (lk_world l) in (Build_Link w (lk_sent l) (lk_reply l), a).

(** The broker answers when the enclave starts to read. *)
Definition answered (l : Link W) : Link W :=
  match lk_reply l with
  | Some _ => l
  | None =>
      let '(operations, token) := admission (lk_world l) in
      let '(w, reply) := handle st operations token (lk_sent l) false (lk_world l) in
      Build_Link w (lk_sent l) (Some reply)
  end.

Definition read_reply (n : Z) (l : Link W) : Link W * option bytes :=
  let l := answered l in
  let reply := default [] (lk_reply l) in
  if zlen reply <? n then (l, None)
  else (Build_Link (lk_world l) (lk_sent l) (Some (drop (Z.to_nat n) reply)),
        Some (take (Z.to_nat n) reply)).

#[local] Instance wire : BrokerLink (Link W) := {|
  link_connect := fun _ l =>
    let '(w, ok) := accepts (lk_world l) in (Build_Link w [] None, ok);
  link_write := fun _ b l => (Build_Link (lk_world l) (lk_sent l ++ b) (lk_reply l), true);
  link_read := fun _ => read_reply;
  request_to_vec := encode;
  failure_from_slice := error_of;
  blob_from_slice := blob_of;
  credentials_from_slice := credentials_of |}.

#[local] Instance wire_crates : KmsCrates (Link W) := {|
  instant_now := on_world instant_now;
  RsaPrivateKey := RsaPrivateKey;
  rsa_new := fun b => on_world (rsa_new b);
  public_key_der := public_key_der;
  rsa_oaep_decrypt := rsa_oaep_decrypt;
  aes_256_cbc_decrypt := aes_256_cbc_decrypt;
  content_info_from_der := content_info_from_der;
  getrandom32 := on_world getrandom32;
  nsm_document := fun n k u => on_world (nsm_document n k u);
  https_client := on_world https_client;
  async_sleep := on_world async_sleep;
  tokio_runtime := on_world tokio_runtime;
  sdk_send := fun c b => on_world (sdk_send c b) |}.

(** What both ends agree on: the encoding of the messages. *)
Class WireLaws : Prop := {
  wire_error e : error_of (error_payload e) = Some (code_of e);
  wire_request r b : encode r = Some b -> json_request b = Some r;
  wire_blob o : blob_of (json_ciphertext o) =
                Some match o with Some s => JString s | None => JNull end
}.

(** How the worlds change: the calls of both sides keep [R]. *)
Class Keeps (R : relation W) : Prop := {
  keeps_preorder :: PreOrder R;
  keeps_now w : R w (instant_now w).1;
  keeps_accepts w : R w (accepts w).1;
  keeps_get b k w : R w (get_object b k w).1;
  keeps_put b k x w : R w (put_object b k x w).1;
  keeps_provide w : R w (provide_credentials w).1;
  keeps_rsa n w : R w (rsa_new n w).1;
  keeps_random w : R w (getrandom32 w).1;
  keeps_nsm n k u w : R w (nsm_document n k u w).1;
  keeps_https w : R w (https_client w).1;
  keeps_sleep w : R w (async_sleep w).1;
  keeps_runtime w : R w (tokio_runtime w).1;
  keeps_send c b w : R w (sdk_send c b w).1
}.

Context {L : WireLaws} {TL : TextLaws} (R : relation W) {KR : Keeps R}.

Definition RL (l l' : Link W) : Prop := R (lk_world l) (lk_world l').

#[local] Instance RL_preorder : PreOrder RL.
Proof.
  split; [intros l; unfold RL; reflexivity|]. intros a b c Hab Hbc. unfold RL in *. by etransitivity.
Qed.

Lemma on_world_keeps {A} (f : W -> W * A) : (forall w, R w (f w).1) -> forall l, RL l (on_world f l).1.
Proof. intros Hf l. unfold on_world, RL. specialize (Hf (lk_world l)). by destruct (f (lk_world l)). Qed.

#[local] Hint Extern 2 => solve
  [intros; first [apply keeps_get|apply keeps_put|apply keeps_provide|apply keeps_now|apply keeps_accepts
    |apply keeps_rsa|apply keeps_random|apply keeps_nsm|apply keeps_https|apply keeps_sleep
    |apply keeps_runtime|apply keeps_send]] : io.

Lemma call_keeps {A} (f : W -> W * option A) : (forall w, R w (f w).1) -> io_keeps R (call f).
Proof. intros Hf. unfold call. auto with io. Qed.

Lemma load_keeps : io_keeps R (load st).
Proof. unfold load. apply keeps_bind; [apply _|apply call_keeps; auto with io|auto with io]. Qed.

Lemma response_keeps ops token req : io_keeps R (response st ops token req).
Proof.
  unfold response. do 3 (apply keeps_bind; [apply _|auto with io|intros _]).
  destruct req; cbn [dispatch].
  - apply keeps_bind; [apply _|apply call_keeps; auto with io|]. intros r.
    apply keeps_bind; [apply _|auto with io|]. intros [[id secret] token']. destruct (_ || _); auto with io.
  - apply keeps_bind; [apply _|apply load_keeps|auto with io].
  - apply keeps_bind; [apply _|auto with io|]. intros blob. apply keeps_bind; [apply _| |auto with io].
    unfold create. apply keeps_bind; [apply _|apply call_keeps; auto with io|]. intros r.
    apply keeps_bind; [apply _|auto with io|]. intros _. apply keeps_bind; [apply _|apply load_keeps|auto with io].
Qed.

Lemma frame_read z (rest : bytes) :
  0 <= z < 256 ^ 4 -> be_combine (take 4 (be_split 4 z ++ rest)) = z /\ drop 4 (be_split 4 z ++ rest) = rest.
Proof.
  intros Hz. rewrite take_app_length' by (by rewrite be_split_length).
  rewrite drop_app_length' by (by rewrite be_split_length). by rewrite be_combine_split.
Qed.

(** The frame of a request reads back as the request. *)
Lemma read_frame req f :
  encode req = Some f -> zlen f <= MAX_MESSAGE_BYTES -> f <> [] ->
  read_request (be_split 4 (zlen f) ++ f) false = Ok req.
Proof.
  intros Hf Hz Hn. assert (0 < zlen f < 256 ^ 4).
  { unfold MAX_MESSAGE_BYTES in Hz. destruct f; [done|]. unfold zlen in *. cbn [length] in *. lia. }
  unfold read_request. destruct (frame_read (zlen f) f) as [-> ->]; [lia|].
  rewrite zlen_app. replace (zlen (be_split 4 (zlen f))) with 4 by (unfold zlen; by rewrite be_split_length).
  destruct (Z.ltb_spec (4 + zlen f) 4); [lia|]. destruct (Z.eqb_spec (zlen f) 0); [lia|].
  destruct (Z.ltb_spec MAX_FRAME (zlen f)); [unfold MAX_FRAME, MAX_MESSAGE_BYTES in *; lia|]. cbn [orb].
  destruct (Z.ltb_spec (zlen f) (zlen f)); [lia|]. replace (Z.to_nat (zlen f)) with (length f) by (unfold zlen; lia).
  rewrite take_ge by done. by rewrite (wire_request _ _ Hf).
Qed.

Lemma response_size ops token req w w' payload :
  response st ops token req w = (w', Ok payload) -> zlen payload <= MAX_FRAME.
Proof.
  assert (Hj : forall x y, json x = Ok y -> zlen y <= MAX_FRAME).
  { intros x y. unfold json. destruct (Z.ltb_spec MAX_FRAME (zlen x)); [done|]. by intros [= <-]. }
  unfold response. intros Hr. io_inv Hr u1 w1 H1. io_inv Hr u2 w2 H2. io_inv Hr u3 w3 H3.
  destruct req; cbn [dispatch] in Hr.
  - io_inv Hr r w4 H4. io_inv Hr c w5 H5. destruct c as [[id secret] tok].
    destruct (_ || _); apply io_lift_ok in Hr as [_ Hr]; [done|]. by apply Hj in Hr.
  - io_inv Hr r w4 H4. apply io_lift_ok in Hr as [_ Hr]. by apply Hj in Hr.
  - io_inv Hr r w4 H4. io_inv Hr c w5 H5. apply io_lift_ok in Hr as [_ Hr]. by apply Hj in Hr.
Qed.

(** A reply: the frame of the answer, or of the error. *)
Lemma handle_reply ops token stream w w' reply :
  handle st ops token stream false w = (w', reply) ->
  exists payload, reply = be_split 4 (zlen payload) ++ payload /\ zlen payload <= MAX_FRAME /\
    ((exists req, read_request stream false = Ok req /\ response st ops token req w = (w', Ok payload)) \/
     (exists e, payload = error_payload e) \/ payload = []).
Proof.
  unfold handle. set (m := io_bind _ _). destruct (m w) as [w1 r] eqn:Em. intros [= <- <-].
  destruct r as [payload|e|]; eexists; (split; [reflexivity|]).
  - unfold m in Em. io_inv Em req w2 H1. apply io_lift_ok in H1 as [-> H1].
    split; [by eapply response_size|]. left. by exists req.
  - split; [destruct e; by vm_compute|]. right. left. by exists e.
  - split; [by vm_compute|]. by right; right.
Qed.

Lemma connect_ok d l l' b :
  io_call (E := EnclaveError) (link_connect d) l = (l', Ok b) ->
  RL l l' /\ lk_sent l' = [] /\ lk_reply l' = None.
Proof.
  unfold io_call, RL. cbn [link_connect wire]. pose proof (keeps_accepts (lk_world l)) as Hk.
  destruct (accepts (lk_world l)) as [w ok]. by intros [= <- _].
Qed.

Lemma write_ok d x l l' b :
  io_call (E := EnclaveError) (link_write d x) l = (l', Ok b) ->
  lk_world l' = lk_world l /\ lk_sent l' = lk_sent l ++ x /\ lk_reply l' = lk_reply l.
Proof. unfold io_call. cbn. by intros [= <- _]. Qed.

(** The two reads of a reply give its payload. *)
Lemma read_ok d l l1 l2 len resp :
  lk_reply l = None ->
  io_call (E := EnclaveError) (link_read d 4) l = (l1, Ok (Some len)) -> be_combine len <> 0 ->
  io_call (E := EnclaveError) (link_read d (be_combine len)) l1 = (l2, Ok (Some resp)) ->
  (exists e, resp = error_payload e) \/
  exists req, read_request (lk_sent l) false = Ok req /\
    response st (admission (lk_world l)).1 (admission (lk_world l)).2 req (lk_world l)
      = (lk_world l2, Ok resp).
Proof.
  unfold io_call. cbn [link_read wire]. intros Hn H1 Hl H2. unfold read_reply, answered in H1. rewrite Hn in H1.
  destruct (admission (lk_world l)) as [ops token]. destruct (handle _ _ _ _ _ _) as [w reply] eqn:Eh.
  apply handle_reply in Eh as (payload & -> & Hz & Hcases). cbn [lk_reply from_option id lk_world lk_sent] in H1.
  destruct (_ <? 4) in H1; [discriminate H1|]. change (Z.to_nat 4) with 4%nat in H1.
  apply pair_equal_spec in H1 as [<- H1].
  pose proof (f_equal (fun r => match r with Ok (Some x) => x | _ => [] end) H1) as Hlen. cbv beta iota in Hlen.
  destruct (frame_read (zlen payload) payload) as [Hc Hd]; [unfold MAX_FRAME in Hz; pose proof (zlen_nonneg payload); lia|].
  rewrite Hlen in Hc. rewrite Hc in H2. unfold read_reply, answered in H2. cbn [lk_reply from_option id lk_world lk_sent] in H2.
  rewrite Hd in H2. destruct (Z.ltb_spec (zlen payload) (zlen payload)); [lia|]. injection H2 as <- Hresp.
  assert (resp = payload) as ->.
  { rewrite <- Hresp. unfold zlen. rewrite Nat2Z.id. by rewrite take_ge. }
  destruct Hcases as [Hr|[He|He]]; [by right|by left|]. subst payload. by rewrite Hc in Hl.
Qed.

(** An answer that the enclave takes is the answer of the broker. *)
Lemma request_wire {A} (parse : bytes -> option A) req d l l' a :
  request parse req d l = (l', Ok a) ->
  exists w0 payload, R (lk_world l) w0 /\
    response st (admission w0).1 (admission w0).2 req w0 = (lk_world l', Ok payload) /\
    error_of payload = None /\ parse payload = Some a.
Proof.
  unfold request. intros Hr. io_inv Hr now l0 H0. cbv zeta in Hr. io_inv Hr z l1 H1.
  apply io_map_err_ok in H1. io_inv Hr ok l2 H2. io_inv Hr u l2' H3. apply io_lift_ok in H3 as [-> H3].
  io_inv Hr f l3 Hf. apply io_lift_ok in Hf as [-> Hf]. apply ok_or_ok in Hf. cbn [request_to_vec wire] in Hf.
  destruct (Z.ltb_spec MAX_MESSAGE_BYTES (zlen f)) as [|Hz]; [by apply io_lift_ok in Hr as [_ ?]|].
  io_inv Hr ok1 l4 H4. io_inv Hr u4 l4' H5. apply io_lift_ok in H5 as [-> _].
  io_inv Hr ok2 l5 H6. io_inv Hr u6 l5' H7. apply io_lift_ok in H7 as [-> _].
  io_inv Hr lb l6 H8. io_inv Hr len l6' H9. apply io_lift_ok in H9 as [-> H9]. apply ok_or_ok in H9. subst lb.
  destruct (_ || _) eqn:El; [by apply io_lift_ok in Hr as [_ ?]|].
  io_inv Hr rb l7 H10. io_inv Hr resp l7' H11. apply io_lift_ok in H11 as [-> H11]. apply ok_or_ok in H11. subst rb.
  apply connect_ok in H2 as (HR2 & Hs2 & Hn2). apply write_ok in H4 as (Hw4 & Hs4 & Hr4).
  apply write_ok in H6 as (Hw6 & Hs6 & Hr6). apply Bool.orb_false_iff in El as [El _].
  assert (HR : R (lk_world l) (lk_world l5)).
  { rewrite Hw6, Hw4. change (RL l l2). etransitivity; [|exact HR2].
    transitivity l0; [exact (io_call_keeps RL _ _ _ _ (on_world_keeps _ keeps_now) H0)|].
    eapply remaining_after; [apply _|apply on_world_keeps, keeps_now|exact H1]. }
  apply (read_ok _ l5 l6 l7 len resp) in H10; [|congruence|exact H8|lia].
  destruct H10 as [[e ->]|(req' & Hreq & Hresp)].
  { cbn [failure_from_slice wire] in Hr. rewrite wire_error in Hr. by apply io_lift_ok in Hr as [_ ?]. }
  rewrite Hs6, Hs4, Hs2 in Hreq. cbn [app] in Hreq.
  destruct (decide (f = [])) as [->|Hne]; [by vm_compute in Hreq|].
  rewrite (read_frame req) in Hreq by done. injection Hreq as <-.
  cbn [failure_from_slice wire] in Hr. destruct (error_of resp) eqn:Ee; [by apply io_lift_ok in Hr as [_ ?]|].
  apply io_lift_ok in Hr as [-> Hr]. apply ok_or_ok in Hr. by exists (lk_world l5), resp.
Qed.

(** ** The store *)

Lemma request_after {A} (parse : bytes -> option A) req d l l' a :
  request parse req d l = (l', Ok a) -> R (lk_world l) (lk_world l').
Proof.
  intros Hq. apply request_wire in Hq as (w0 & payload & HR & Hresp & _).
  pose proof (response_keeps (admission w0).1 (admission w0).2 req w0) as Hk. rewrite Hresp in Hk.
  by transitivity w0.
Qed.

Lemma load_wire b d l l' x :
  broker_load b d l = (l', Ok x) -> exists w0, R (lk_world l) w0 /\
    sb_seed_id b = st_seed_id st /\ load st w0 = (lk_world l', Ok x).
Proof.
  unfold broker_load. intros Hl. io_inv Hl v l1 Hq. apply io_lift_ok in Hl as [-> Hx].
  apply request_wire in Hq as (w0 & payload & HR & Hresp & _ & Hp). exists w0. split; [done|].
  unfold response in Hresp. io_inv Hresp u1 w1 H1. apply io_lift_ok in H1 as [-> H1].
  io_inv Hresp u2 w2 H2. apply io_lift_ok in H2 as [-> _]. io_inv Hresp u3 w3 H3. apply io_lift_ok in H3 as [-> _].
  cbn [dispatch] in Hresp. io_inv Hresp blob w4 Hb. apply io_lift_ok in Hresp as [-> Hj].
  cbn [validate] in H1. destruct (bool_decide_reflect (sb_seed_id b = st_seed_id st)); [|done].
  split; [done|]. rewrite Hb. f_equal. unfold json in Hj. destruct (_ <? _); [done|]. injection Hj as <-.
  cbn [blob_from_slice wire] in Hp. rewrite wire_blob in Hp. injection Hp as <-.
  destruct blob as [c|]; cbn in Hx; [|congruence]. rewrite base64_roundtrip in Hx. cbn [ok_or rbind] in Hx.
  apply rbind_ok in Hx as (u & _ & Hx). congruence.
Qed.

Lemma create_wire b c d l l' x :
  broker_create b c d l = (l', Ok x) -> exists w0 w1, R (lk_world l) w0 /\ R w0 w1 /\
    load st w1 = (lk_world l', Ok (Some x)).
Proof.
  unfold broker_create. intros Hl. io_inv Hl u0 l0 H0. apply io_lift_ok in H0 as [-> _].
  io_inv Hl v l1 Hq. io_inv Hl ob l2 Hx. apply io_lift_ok in Hx as [-> Hx].
  apply io_lift_ok in Hl as [-> Ho]. apply ok_or_ok in Ho. subst ob.
  apply request_wire in Hq as (w0 & payload & HR & Hresp & _ & Hp). exists w0.
  unfold response in Hresp. io_inv Hresp u1 w1 H1. apply io_lift_ok in H1 as [-> _].
  io_inv Hresp u2 w2 H2. apply io_lift_ok in H2 as [-> _]. io_inv Hresp u3 w3 H3. apply io_lift_ok in H3 as [-> _].
  cbn [dispatch] in Hresp. io_inv Hresp blob w4 Hb. apply io_lift_ok in Hb as [-> _].
  io_inv Hresp cm w5 Hc. apply io_lift_ok in Hresp as [-> Hj]. unfold create in Hc.
  io_inv Hc r w6 H6. io_inv Hc u7 w7 H7. apply io_lift_ok in H7 as [-> _]. io_inv Hc o w8 H8.
  apply io_lift_ok in Hc as [-> Ho]. apply ok_or_ok in Ho. subst o. exists w6. split; [done|].
  split. { pose proof (call_keeps (put_object (st_bucket st) (st_key st) blob) (keeps_put _ _ _) w0) as Hk.
           by rewrite H6 in Hk. }
  rewrite H8. do 2 f_equal. unfold json in Hj. destruct (_ <? _); [done|]. injection Hj as <-.
  cbn [blob_from_slice wire] in Hp. rewrite wire_blob in Hp. injection Hp as <-. cbn in Hx.
  rewrite base64_roundtrip in Hx. cbn [ok_or rbind] in Hx. apply rbind_ok in Hx as (u & _ & Hx). congruence.
Qed.

(** An S3 object under [If-None-Match] in a bucket that deletes nothing: once
    there, it stays; a complete GET returns it. *)
Class S3Laws (object : W -> option bytes) : Prop := {
  s3_stable w w' b : R w w' -> object w = Some b -> object w' = Some b;
  s3_get w w' o : get_object (st_bucket st) (st_key st) w = (w', Some (inr o)) ->
                  s3_body_fails o = false -> object w' = Some (s3_body o)
}.

Lemma loaded_some r b :
  loaded r = Ok (Some b) -> exists o, r = inr o /\ s3_body_fails o = false /\ s3_body o = b.
Proof.
  destruct r as [e|o]; cbn [loaded]; [by destruct (service_error_is _ _ _)|].
  destruct (match s3_content_length o with Some size => _ | None => _ end); [done|]. intros Hb.
  apply rbind_ok in Hb as (x & Hx & Hb). apply ok_or_ok in Hx. unfold read_capped in Hx.
  destruct (s3_body_fails o && _) eqn:Ef; [done|]. injection Hx as <-.
  destruct (bool_decide _ || _) eqn:Es; [done|]. destruct (MAX_CIPHERTEXT <? _) eqn:Ez; [by rewrite Bool.orb_true_r in Es|].
  destruct (match s3_content_length o with Some size => _ | None => _ end); [done|]. injection Hb as <-.
  zbool. exists o. split; [done|].
  assert (zlen (s3_body o) <= MAX_CIPHERTEXT).
  { unfold zlen in *. rewrite length_take in Ez. unfold MAX_CIPHERTEXT in *. lia. }
  split; [|by rewrite take_ge by (unfold zlen, MAX_CIPHERTEXT in *; lia)].
  destruct (s3_body_fails o); [|done]. cbn [andb] in Ef. zbool. unfold MAX_CIPHERTEXT in *. lia.
Qed.

(** Only S3 says that there is no object. *)
Lemma loaded_none r : loaded r = Ok None -> exists e, r = inl e /\ s3_status e = Some 404.
Proof.
  destruct r as [e|o]; cbn [loaded].
  - unfold service_error_is. case_bool_decide; [|done]. intros _. by exists e.
  - destruct (match s3_content_length o with Some size => _ | None => _ end); [done|]. intros Hb.
    apply rbind_ok in Hb as (x & _ & Hb). by destruct (_ || _).
Qed.

Lemma load_object object {S : S3Laws object} w w' b : load st w = (w', Ok (Some b)) -> object w' = Some b.
Proof.
  unfold load, call. intros Hl. io_inv Hl r w1 Hc. apply io_lift_ok in Hl as [-> Hl].
  apply loaded_some in Hl as (o & -> & Hf & <-). io_inv Hc a w2 Hg. apply io_lift_ok in Hc as [-> Ha].
  apply ok_or_ok in Ha. subst a. unfold io_call in Hg. destruct (get_object _ _ w) as [w3 r] eqn:Eg.
  injection Hg as -> ->. by eapply s3_get.
Qed.

(** ** One identity *)

Ltac keeps_step :=
  first [ apply keeps_lift; apply _ | apply keeps_map_err
        | apply keeps_call, on_world_keeps; intros;
            first [apply keeps_now|apply keeps_rsa|apply keeps_random|apply keeps_https|apply keeps_sleep
                  |apply keeps_runtime|apply keeps_send]
        | apply keeps_bind; [apply _| |intros ?] ].

Context {K : Keys} (network_string : BtcNetwork -> bytes).

Lemma decrypt_keeps c blob d : io_keeps RL (decrypt_seed network_string c blob d).
Proof.
  unfold decrypt_seed, recipient, new_recipient, call_budget, remaining, sdk_client, block_on.
  repeat keeps_step. intros l. exact (on_world_keeps _ (keeps_nsm _ _ _) l).
Qed.

(** A launch that succeeded has seen its blob in the store, and it is still there. *)
Lemma launch_blob object {S : S3Laws object} p n d l l' km :
  load_keys network_string false p n d l = (l', Ok km) ->
  exists kms blob seed l4 l5, kms_config kms = ps_config p /\ kms_network kms = n /\
    decrypt_seed network_string kms blob d l4 = (l5, Ok seed) /\ object (lk_world l') = Some blob /\
    restore_keys seed n (ps_expected p) = Ok km.
Proof.
  intros Hk. apply load_keys_ok in Hk as (creds & client & seed & l0 & l1 & _ & Hc & Hr & -> & Hk).
  unfold new_client in Hc. inv_bind Hc u Hu. injection Hc as <-.
  apply (recover_seed_run RL) in Hr as [blob Hr]; [|apply on_world_keeps, keeps_now].
  destruct Hr as [(a & b & c & e & ld & _ & Hl & Hbc & Hm & x & y & Hex & Hd & Hy) _].
  exists {| kms_config := ps_config p; kms_credentials := creds; kms_network := n |}, blob, seed, x, y.
  split_and!; [done|done|exact Hd| |done].
  assert (Hxy : RL x y) by (pose proof (decrypt_keeps
    {| kms_config := ps_config p; kms_credentials := creds; kms_network := n |} blob d x) as H0;
    cbn [client_kms kms_decrypt] in Hd; by rewrite Hd in H0).
  assert (He : object (lk_world e) = Some blob).
  { destruct (ps_expected p).
    - destruct Hm as [-> ->]. apply load_wire in Hl as (w0 & _ & _ & Hl). apply (load_object object) in Hl.
      by eapply s3_stable.
    - destruct Hm as (_ & g0 & g1 & c0 & _ & _ & _ & Hcr). apply create_wire in Hcr as (w0 & w1 & _ & _ & Hcr).
      by apply (load_object object) in Hcr. }
  eapply s3_stable; [|exact He]. change (RL e l1). by transitivity x; [|transitivity y].
Qed.

(** C12: all launches of one deployment end with the same keys.  Over the parent's broker
    and an S3 object that is written once, take any two launches that succeed, pinned
    or not, racing or one long after the other, with any failed attempts between: both
    have decrypted the same committed blob, so the keys are the same, and they have the
    address that either was pinned to.  So the address that a first launch reports can
    be pinned in every later one. *)
Theorem launches_agree object {S : S3Laws object} (plain : bytes -> bytes) p1 p2 n d1 d2 l1 l1' l2 l2' km1 km2 :
  ps_config p1 = ps_config p2 ->
  (forall kms blob d l l' s, kms_config kms = ps_config p1 -> kms_network kms = n ->
     decrypt_seed network_string kms blob d l = (l', Ok s) -> s = plain blob) ->
  load_keys network_string false p1 n d1 l1 = (l1', Ok km1) ->
  load_keys network_string false p2 n d2 l2 = (l2', Ok km2) ->
  RL l1' l2' \/ RL l2' l1' ->
  km1 = km2 /\ object (lk_world l1') = object (lk_world l2') /\
  (forall a, ps_expected p1 = Some a \/ ps_expected p2 = Some a -> km_evm_address km1 = a).
Proof.
  intros Hcfg Hplain H1 H2 Hord.
  destruct (launch_blob object _ _ _ _ _ _ H1) as (k1 & b1 & s1 & x1 & y1 & Hk1 & Hn1 & D1 & O1 & R1).
  destruct (launch_blob object _ _ _ _ _ _ H2) as (k2 & b2 & s2 & x2 & y2 & Hk2 & Hn2 & D2 & O2 & R2).
  assert (b1 = b2) as <-.
  { destruct Hord as [Ho|Ho]; [pose proof (s3_stable _ _ _ Ho O1)|pose proof (s3_stable _ _ _ Ho O2)]; congruence. }
  apply Hplain in D1; [|done|done]. apply Hplain in D2; [|congruence|done]. subst s1 s2.
  apply restore_keys_ok in R1 as [R1 P1]. apply restore_keys_ok in R2 as [R2 P2].
  assert (km1 = km2) as <- by congruence. split_and!; [done|congruence|]. intros a [Ha|Ha]; auto.
Qed.

(** C15: nothing but S3's own "no such key" lets a launch create a seed: over the broker, an
    unpinned launch succeeds only when a GET of this run was answered with 404 for
    the object, never after a failure, a timeout or an answer that does not parse. *)
Theorem bootstrap_only_when_absent p n d l l' km :
  load_keys network_string false p n d l = (l', Ok km) -> ps_expected p = None ->
  exists w w' e, R (lk_world l) w /\ get_object (st_bucket st) (st_key st) w = (w', Some (inl e)) /\
    s3_status e = Some 404 /\ sb_seed_id (ps_broker p) = st_seed_id st.
Proof.
  intros Hk Hp. apply load_keys_ok in Hk as (creds & client & seed & l0 & l1 & Hc & _ & Hr & -> & _).
  apply (recover_seed_run RL) in Hr as [blob Hr]; [|apply on_world_keeps, keeps_now].
  destruct Hr as [(a & b & c & e & ld & Ha & Hl & _ & Hm & _) _]. rewrite Hp in Hm. destruct Hm as [-> _].
  apply load_wire in Hl as (w0 & Hw0 & Hid & Hl). unfold load, call in Hl. io_inv Hl r w1 H1.
  apply io_lift_ok in Hl as [<- Hl]. io_inv H1 o w2 H2. apply io_lift_ok in H1 as [_ H1].
  apply ok_or_ok in H1. subst o. unfold io_call in H2. destruct (get_object _ _ w0) as [w3 r'] eqn:Eg.
  injection H2 as -> ->. apply loaded_none in Hl as (err & -> & Hs). eexists w0, _, err.
  split_and!; [|exact Eg|done|done]. transitivity (lk_world a); [|exact Hw0]. transitivity (lk_world l0); [|exact Ha].
  unfold credentials in Hc. io_inv Hc v l3 Hq. destruct v as [[? ?] ?]. apply io_lift_ok in Hc as [-> _].
  by apply request_after in Hq.
Qed.

End Wire.

(** ** A sample deployment *)

Module Sample.

(** A clock and one S3 object. *)
Record World : Type := { sw_clock : Z; sw_object : option bytes }.

Definition kept (w w' : World) : Prop := forall b, sw_object w = Some b -> sw_object w' = Some b.

Definition here {A : Type} (a : A) (w : World) : World * A := (w, a).

#[local] Instance text_codecs : TextCodecs := {|
  hex_encode := id; hex_decode := Some; base64_encode := id; base64_decode := Some |}.

#[local] Instance text_laws : TextLaws.
Proof. by split. Qed.

(** A key manager is its seed. *)
#[local] Instance seed_keys : Keys := {|
  KeyManager := bytes; Mnemonic := unit; CloneSession := unit; BtcNetwork := unit;
  EnclaveResponse := unit;
  generate := fun e _ => Ok (e, tt);
  from_mnemonic := fun _ _ => Err (InvalidKey "mnemonic");
  from_seed := fun s _ => Ok s;
  expose_seed := id;
  km_evm_address := take 20 |}.

Definition arn : bytes :=
  text "arn:aws:kms:eu-west-1:123456789012:key/01234567-89ab-cdef-0123-456789abcdef".

Definition seed : bytes := replicate 64 x07.

(** KMS answers every call with the same blob and an envelope of the seed. *)
Definition answer (action : KmsAction) : KmsOutput := {|
  out_key_id := Some arn; out_plaintext := None; out_ciphertext_blob := Some [x2a; x2b];
  out_encryption_algorithm := Some SymmetricDefault; out_ciphertext_for_recipient := Some [x05; x00] |}.

Definition enveloped : EnvelopedData := {|
  recip_infos := [Ktri {| ktri_key_enc_alg := ID_RSAES_OAEP;
    ktri_params := Some (Some {| oaep_hash := ID_SHA_256; oaep_mask_gen := ID_MGF_1;
                                 oaep_mgf_hash := Some ID_SHA_256 |}); ktri_enc_key := [] |}];
  encrypted_content := {| eci_content_type := ID_DATA; eci_alg := ID_AES_256_CBC;
    eci_iv := Some (Some (replicate 16 x00)); eci_encrypted_content := Some [] |} |}.

#[local] Instance crates : KmsCrates World := {|
  instant_now := fun w => ({| sw_clock := sw_clock w + 1; sw_object := sw_object w |}, sw_clock w);
  RsaPrivateKey := unit;
  rsa_new := fun _ => here (Some tt);
  public_key_der := fun _ => Some [x30];
  rsa_oaep_decrypt := fun _ _ => Some (replicate 32 x01);
  aes_256_cbc_decrypt := fun _ _ _ => Some seed;
  content_info_from_der := fun _ =>
    Some {| content_type := ID_ENVELOPED_DATA; content := Some enveloped |};
  getrandom32 := here (Some (replicate 32 x00));
  nsm_document := fun _ _ _ => here (Ok [xd2]);
  https_client := here true;
  async_sleep := here true;
  tokio_runtime := here true;
  sdk_send := fun c _ => here (Some (inr (answer (kc_action c)))) |}.

Definition not_found : S3Error := {|
  s3_credentials_cause := None; s3_construction := false; s3_status := Some 404;
  s3_code := Some (text "NoSuchKey") |}.

Definition precondition : S3Error := {|
  s3_credentials_cause := None; s3_construction := false; s3_status := Some 412;
  s3_code := Some (text "PreconditionFailed") |}.

Definition decode_request (b : bytes) : option BrokerRequest :=
  match b with
  | [x00] => Some CredentialsOp
  | x01 :: i => Some (LoadOp i)
  | x02 :: n :: rest => Some (CreateOp (take (Z.to_nat (b2z n)) rest) (drop (Z.to_nat (b2z n)) rest))
  | _ => None
  end.

#[local] Instance host : Host World := {|
  get_object := fun _ _ w =>
    (w, Some match sw_object w with
             | Some b => inr {| s3_content_length := None; s3_body := b; s3_body_fails := false |}
             | None => inl not_found
             end);
  put_object := fun _ _ b w =>
    match sw_object w with
    | Some _ => (w, Some (inl precondition))
    | None => ({| sw_clock := sw_clock w; sw_object := Some b |}, Some (inr tt))
    end;
  provide_credentials := here (Some (inr (text "AKIA", text "secret", None)));
  json_request := decode_request;
  json_credentials := fun _ _ _ => [x20];
  json_ciphertext := fun o => match o with Some s => x11 :: s | None => [x10] end |}.

Definition encode (r : BrokerRequest) : option bytes :=
  match r with
  | CredentialsOp => Some [x00]
  | LoadOp i => Some (x01 :: i)
  | CreateOp i c => if zlen i <? 256 then Some (x02 :: z2b (zlen i) :: i ++ c) else None
  end.

Definition failures : list BrokerFailure :=
  [BConfiguration; BAccessDenied; BAwsUnavailable; BInvalidCiphertext; BBusy; BOperationTimeout;
   BRequestTimeout; BInvalidFrame; BInvalidRequest; BSeedIdNotAllowed; BResponseTooLarge; BInternal].

Definition error_of (p : bytes) : option bytes :=
  code_of <$> List.find (fun e => bool_decide (p = error_payload e)) failures.

Definition blob_of (p : bytes) : option JsonValue :=
  match p with [x10] => Some JNull | x11 :: s => Some (JString s) | _ => None end.

Definition credentials_of (p : bytes) : option (bytes * bytes * bytes) :=
  if bool_decide (p = [x20]) then Some (text "AKIA", text "secret", []) else None.

#[local] Instance wire_laws : WireLaws encode error_of blob_of.
Proof.
  split.
  - intros []; vm_compute; reflexivity.
  - intros [|i|i c] b Hb; cbn in Hb; [by injection Hb as <-|by injection Hb as <-|].
    destruct (Z.ltb_spec (zlen i) 256); [|done]. injection Hb as <-. cbn [json_request host decode_request].
    rewrite b2z_z2b, Z.mod_small by (pose proof (zlen_nonneg i); lia). unfold zlen. rewrite Nat2Z.id.
    by rewrite take_app_length, drop_app_length.
  - by intros [s|].
Qed.

Definition accepts : World -> World * bool := here true.
Definition admission (w : World) : Permits * broker_result unit := (new_operations, Ok tt).

#[local] Instance kept_preorder : PreOrder kept.
Proof. split; [by intros w b|]. intros a b c Hab Hbc x Hx. by apply Hbc, Hab. Qed.

#[local] Instance sample_keeps : Keeps accepts kept.
Proof.
  split; [apply _|..]; intros; intros y Hy; cbn; try done. by rewrite Hy.
Qed.

Definition settings : Settings := {|
  st_seed_id := text "bridge-1"; st_bucket := text "bucket"; st_key := text "seed";
  st_region := text "eu-west-1"; st_cids := [16]; st_tcp := None |}.

#[local] Instance sample_s3 : S3Laws settings kept sw_object.
Proof.
  split; [by intros w w' b Hk Ho; apply Hk|]. intros w w' o Hg Hf. cbn in Hg.
  destruct (sw_object w) eqn:Eo; [|done]. injection Hg as <- <-. by cbn.
Qed.

#[local] Existing Instances wire wire_crates.

Definition persistent (pin : option bytes) : PersistentSeed := {|
  ps_config := {| cfg_key_arn := arn; cfg_region := text "eu-west-1"; cfg_seed_id := text "bridge-1" |};
  ps_broker := {| sb_seed_id := text "bridge-1" |}; ps_expected := pin |}.

Definition launch (pin : option bytes) (l : Link World) : Link World * enclave_result bytes :=
  load_keys (C := wire_crates) (B := wire settings accepts admission encode error_of blob_of credentials_of)
    (fun _ => text "bitcoin") false (persistent pin) tt (secs 20) l.

Definition fresh : Link World := Build_Link {| sw_clock := 0; sw_object := None |} [] None.

Definition first_launch : Link World * enclave_result bytes := launch None fresh.
Definition second_launch : Link World * enclave_result bytes :=
  launch (Some (replicate 20 x07)) first_launch.1.

Lemma first_ok : first_launch = (first_launch.1, Ok seed).
Proof. vm_compute. reflexivity. Qed.

Lemma second_ok : second_launch = (second_launch.1, Ok seed).
Proof. vm_compute. reflexivity. Qed.

Lemma opens_seed (key : RsaPrivateKey (KmsCrates := wire_crates)) e s :
  open_envelope (C := wire_crates) key e = Ok s -> s = seed.
Proof.
  unfold open_envelope. intros Ho. destruct (_ || _); [done|]. inv_bind Ho der Hd. inv_bind Ho info Hi.
  injection Hi as <-. cbn in Ho. by injection Ho as <-.
Qed.

Lemma plain_seed kms blob d l l' s :
  decrypt_seed (C := wire_crates) (fun _ => text "bitcoin") kms blob d l = (l', Ok s) -> s = seed.
Proof.
  intros Hd. apply decrypt_seed_ok in Hd as (out & Hr & _).
  destruct Hr as (key & pub & nonce & document & budget & envelope & w1 & w2 & w3 & w4 & w5 & w6 & Hr).
  destruct Hr as (_ & _ & _ & _ & _ & _ & _ & _ & _ & _ & _ & _ & Ho & _). by apply opens_seed in Ho.
Qed.

Lemma launches_agree_witness :
  first_launch.2 = second_launch.2 /\
  sw_object (lk_world first_launch.1) = sw_object (lk_world second_launch.1) /\
  km_evm_address seed = replicate 20 x07.
Proof.
  destruct (launches_agree (K := seed_keys) settings accepts admission encode error_of blob_of credentials_of kept
    (fun _ => text "bitcoin") sw_object (fun _ => seed) (persistent None)
    (persistent (Some (replicate 20 x07))) tt (secs 20) (secs 20) fresh first_launch.1
    first_launch.1 second_launch.1 seed seed) as (_ & Ho & Ha).
  - reflexivity.
  - intros kms blob d l l' s _ _ Hd. by apply plain_seed in Hd.
  - exact first_ok.
  - exact second_ok.
  - left. intros b Hb. vm_compute in Hb. injection Hb as <-. vm_compute. reflexivity.
  - split; [by rewrite first_ok, second_ok|]. split; [exact Ho|]. apply Ha. by right.
Defined.

Lemma recovered_seed_own_witness :
  exists (blob : bytes) seed', from_seed seed' tt = Ok seed /\ blob <> [] /\ zlen blob <= MAX_CIPHERTEXT_BYTES.
Proof.
  destruct (recovered_seed_own (K := seed_keys) (C := wire_crates)
    (B := wire settings accepts admission encode error_of blob_of credentials_of)
    (fun _ => text "bitcoin") (persistent None) tt (secs 20) fresh first_launch.1 seed first_ok)
    as (kms & blob & seed' & w0 & _ & _ & _ & _ & [_ Hz] & Hs & _).
  exists blob, seed'. by split.
Defined.

Lemma bootstrap_only_when_absent_witness :
  exists w w' e, kept (lk_world fresh) w /\
    get_object (st_bucket settings) (st_key settings) w = (w', Some (inl e)) /\ s3_status e = Some 404.
Proof.
  destruct (bootstrap_only_when_absent (K := seed_keys) settings accepts admission encode error_of blob_of credentials_of
    kept (fun _ => text "bitcoin") (persistent None) tt (secs 20) fresh first_launch.1 seed
    first_ok eq_refl) as (w & w' & e & Hk & Hg & He & _).
  exists w, w', e. by split_and!.
Defined.

End Sample.
