(* ===== verification/RejectList.v ===== *)
(** * The reject list (src/enclave/src/networks/evm/reject_list.rs,
      networks/rgb/validation/reject_list.rs, server/reject_list.rs)

    The issuer's list is an append-only contract on the pinned EVM chain.  It is
    read at the finalized and at the latest block, page by page, under the
    deadline of the request, and turned into the decisions that rgb-lib walks
    the history with.

    The world of the reader is the number of RPC calls made and the slowest of
    them; the clock is two functions of the call. *)

From stdpp Require Import strings base gmap numbers list relations.
From S2P Require Import Prelude Errors Io PsbtTypes RgbCommit EvmRelease EvmEvents.

#[local] Open Scope list_scope.
#[local] Open Scope Z_scope.

Definition PAGE_SIZE : Z := 1000.
Definition MAX_ENTRIES : Z := 20000.
Definition RESPONSE_MARGIN : Z := secs 2.

Record OpoutKey : Type := { ok_op : bytes; ok_ty : Z; ok_no : Z }.

#[export] Instance opout_key_eq_dec : EqDecision OpoutKey.
Proof. solve_decision. Defined.

#[export] Program Instance opout_key_countable : Countable OpoutKey :=
  inj_countable' (fun k => (ok_op k, ok_ty k, ok_no k))
    (fun '(o, t, n) => {| ok_op := o; ok_ty := t; ok_no := n |}) _.
Next Obligation. by intros []. Qed.

Definition key_of_opout (o : Opout) : OpoutKey := {| ok_op := op o; ok_ty := ty o; ok_no := no o |}.
Definition opout_of_key (k : OpoutKey) : Opout := {| op := ok_op k; ty := ok_ty k; no := ok_no k |}.

Record RejectListContract : Type := { rl_chain_id : Z; rl_address : bytes }.

#[export] Instance list_contract_eq_dec : EqDecision RejectListContract.
Proof. solve_decision. Defined.

Record RejectListEntry : Type := { re_opout : OpoutKey; re_reject : bool }.

(** ** Decisions *)

Record Decisions : Type := { d_reject : gset OpoutKey; d_allow : gset OpoutKey }.

Definition rejected_in (es : list RejectListEntry) : list OpoutKey :=
  map re_opout (filter (fun e => re_reject e = true) es).

(** [collect] into a map: the last entry of an opout stays. *)
Definition latest_of (es : list RejectListEntry) : gmap OpoutKey bool :=
  foldl (fun m e => <[re_opout e := re_reject e]> m) ∅ es.

(** The body of the loop over the finalized decisions. *)
Definition decide_one (out : Decisions) (entry : OpoutKey * bool) : Decisions :=
  let '(opout, rejected) := entry in
  if (rejected : bool) then {| d_reject := {[opout]} ∪ d_reject out; d_allow := d_allow out |}
  else if bool_decide (opout ∈ d_reject out) then out
  else {| d_reject := d_reject out; d_allow := {[opout]} ∪ d_allow out |}.

Definition decisions (entries : list RejectListEntry) (finalized : nat) : Decisions :=
  let finalized_entries := take finalized entries in
  let pending := drop finalized entries in
  foldl decide_one {| d_reject := list_to_set (rejected_in pending); d_allow := ∅ |}
    (map_to_list (latest_of finalized_entries)).

(** ** Reading the contract *)

(** [EvmReceiptProvider::call], and the two functions of the ABI. *)
Class ListNode : Type := {
  eth_call : nat -> bytes -> bytes -> Z -> enclave_result bytes;
  length_calldata : bytes;
  entries_calldata : Z -> Z -> bytes;
  decode_length : bytes -> option Z;
  decode_entries : bytes -> option (list RejectListEntry)
}.

Record RejectListLog : Type := { rl_entries : list RejectListEntry; rl_finalized : Z }.

(** The calls made, and the slowest of them. *)
Definition Budget : Type := nat * Z.

Section Read.
Context {P : EvmReceiptProvider} {N : ListNode}.
(** When the call starts and ends. *)
Context (started finished : nat -> Z).
Context (contract : bytes) (deadline : Z).

Abbreviation M := (io Budget EnclaveError).

Definition list_error (detail : string) : EnclaveError := CrossCheck ("reject list " +:+ detail).

(** [Budgeted::run]. *)
Definition run {A : Type} (call : nat -> enclave_result A) : M A :=
  fun '(t, slowest) =>
    if deadline <? started t + slowest + RESPONSE_MARGIN then
      ((t, slowest), Err (list_error "read exceeded the request budget"))
    else ((S t, Z.max slowest (sat_sub (finished t) (started t))), call t).

Definition list_block (tag : EvmFinalityTag) : M Z :=
  let! b := run (fun t => get_block_by_tag t tag) in
  io_lift (ok_or (bd_number <$> b) (CrossCheck "evm-rpc: the node reports no block")).

Definition length_at (block : Z) : M (option Z) :=
  let! raw := run (fun t => eth_call t contract length_calldata block) in
  if bool_decide (raw = []) then io_lift (Ok None)
  else
    let! len := io_lift (ok_or (decode_length raw) (list_error "returned a bad length")) in
    if u64_max <? len then io_lift (Err (list_error "length does not fit u64"))
    else io_lift (Ok (Some len)).

(** The loop over the pages from [start]. *)
Fixpoint read_entries (fuel : nat) (start len block : Z) : M (list RejectListEntry) :=
  if negb (start <? len) then io_lift (Ok [])
  else
    match fuel with
    | O => io_lift Panic
    | S fuel =>
        let end_ := Z.min (start + PAGE_SIZE) len in
        let! raw := run (fun t => eth_call t contract (entries_calldata start end_) block) in
        let! page := io_lift (ok_or (decode_entries raw) (list_error "returned a bad entries page")) in
        if negb (zlen page =? end_ - start) then
          io_lift (Err (list_error "returned another number of entries"))
        else
          let! rest := read_entries fuel end_ len block in
          io_lift (Ok (page ++ rest))
    end.

Definition read_reject_list : M RejectListLog :=
  let! latest := list_block Latest in
  let! f := list_block Finalized in
  let finalized := Z.min f latest in
  let! fl := length_at finalized in
  let finalized_len := default 0 fl in
  let! l := length_at latest in
  let! len := io_lift (ok_or l (list_error "has no contract code at the latest block")) in
  if len <? finalized_len then
    io_lift (Err (list_error "is shorter at the latest block than at the finalized one"))
  else if MAX_ENTRIES <? len then
    io_lift (Err (list_error "holds more entries than this enclave reads"))
  else
    let! entries := read_entries (Z.to_nat len) 0 len latest in
    io_lift (Ok {| rl_entries := entries; rl_finalized := finalized_len |}).

End Read.

(** A call sequence of [EvmEvents] with no budget of its own. *)
Definition from_rpc {A : Type} (c : Rpc A) : io Budget EnclaveError A :=
  fun '(t, slowest) =>
    match c t with
    | Ok (a, t') => ((t', slowest), Ok a)
    | Err e => ((t, slowest), Err e)
    | Panic => ((t, slowest), Panic)
    end.

Section Decide.
Context {P : EvmReceiptProvider} {N : ListNode} (started finished : nat -> Z).

(** [read_decisions]; [client] is whether the launch built an RPC client. *)
Definition read_decisions (chain_id : Z) (launched client : bool) (contract : RejectListContract)
    (deadline : Z) : io Budget EnclaveError Decisions :=
  if negb (rl_chain_id contract =? chain_id) then
    io_lift (Err (CrossCheck "reject list is on another chain"))
  else if negb launched then io_lift (Err (NotReady "endpoints-unset"))
  else if negb client then
    io_lift (Err (CrossCheck "the asset declares a reject list, but the EVM RPC client is unavailable"))
  else
    let! _ := from_rpc (check_node_chain_id chain_id) in
    (** A new [Budgeted]: no call was slow yet. *)
    let! log := fun '(t, _) =>
      read_reject_list started finished (rl_address contract) deadline (t, 0) in
    io_lift (Ok (decisions (rl_entries log) (Z.to_nat (rl_finalized log)))).

(** ** The resolver *)

(** [RejectListSource] of rgb-lib. *)
Inductive RejectListSource : Type := EvmSource (chain_id : Z) (address : bytes) | OtherSource.

Definition source_contract (s : RejectListSource) : option RejectListContract :=
  match s with
  | EvmSource c a => Some {| rl_chain_id := c; rl_address := a |}
  | OtherSource => None
  end.

(** [ListResolver::get_reject_list]: the decisions for rgb-lib, [true] allows; a
    failure is kept. *)
Definition get_reject_list (contract : RejectListContract) (read : enclave_result Decisions)
    (source : RejectListSource) : enclave_result (list (Opout * bool)) :=
  if negb (bool_decide (source_contract source = Some contract)) then
    Err (CrossCheck "rgb-lib asked for another reject list")
  else
    let? d := read in
    Ok (map (fun k => (opout_of_key k, false)) (elements (d_reject d)) ++
        map (fun k => (opout_of_key k, true)) (elements (d_allow d))).

End Decide.

(** * Theorems on the reject list

    [decisions] against the last decision on an opout, and what a read gives
    when the contract is append-only and the node reports it. *)

(** ** Decisions *)

(** The last word on an opout. *)
Definition last_decision (es : list RejectListEntry) (o : OpoutKey) : option bool :=
  re_reject <$> last (filter (fun e => re_opout e = o) es).

Lemma latest_of_lookup es o : latest_of es !! o = last_decision es o.
Proof.
  unfold latest_of, last_decision. induction es as [|e es IH] using rev_ind; [done|].
  rewrite foldl_snoc, filter_app, filter_cons, filter_nil. destruct (decide (re_opout e = o)) as [<-|Hn].
  - by rewrite lookup_insert_eq, last_snoc.
  - by rewrite lookup_insert_ne, IH, app_nil_r.
Qed.

Lemma decide_fold l out k :
  NoDup l.*1 ->
  (k ∈ d_reject (foldl decide_one out l) <-> k ∈ d_reject out \/ (k, true) ∈ l) /\
  (k ∈ d_allow (foldl decide_one out l) <->
   k ∈ d_allow out \/ ((k, false) ∈ l /\ k ∉ d_reject out)).
Proof.
  revert out. induction l as [|[k' r] l IH]; intros out Hn; [set_solver|].
  apply NoDup_cons in Hn as [Hk Hn]. cbn [foldl]. destruct (IH (decide_one out (k', r)) Hn) as [-> ->].
  assert (Hin : forall b, (k', b) ∉ l).
  { intros b Hb. apply Hk. apply list_elem_of_fmap. by exists (k', b). }
  clear IH. unfold decide_one. destruct r.
  - cbn [d_reject d_allow]. destruct (decide (k = k')) as [->|Hne]; set_solver.
  - case_bool_decide; cbn [d_reject d_allow]; destruct (decide (k = k')) as [->|Hne]; set_solver.
Qed.

(** A list decides as its issuer means it: an opout is rejected when its last finalized
    entry rejects it, or any entry after the finalized ones does; it is allowed
    when its last finalized entry allows it and no pending one rejects it.  So an
    entry that could still be reorganised away can only add a rejection, and
    nothing is both rejected and allowed. *)
Theorem decisions_spec entries n o :
  (o ∈ d_reject (decisions entries n) <->
   last_decision (take n entries) o = Some true \/ o ∈ rejected_in (drop n entries)) /\
  (o ∈ d_allow (decisions entries n) <->
   last_decision (take n entries) o = Some false /\ o ∉ rejected_in (drop n entries)) /\
  d_reject (decisions entries n) ## d_allow (decisions entries n).
Proof.
  unfold decisions. cbv zeta. set (l := map_to_list _). set (out := {| d_reject := _; d_allow := _ |}).
  assert (Hl : forall k b, (k, b) ∈ l <-> last_decision (take n entries) k = Some b).
  { intros k b. unfold l. by rewrite elem_of_map_to_list, latest_of_lookup. }
  assert (Hd : forall k,
    (k ∈ d_reject (foldl decide_one out l) <->
     last_decision (take n entries) k = Some true \/ k ∈ rejected_in (drop n entries)) /\
    (k ∈ d_allow (foldl decide_one out l) <->
     last_decision (take n entries) k = Some false /\ k ∉ rejected_in (drop n entries))).
  { intros k. destruct (decide_fold l out k) as [-> ->]; [apply NoDup_fst_map_to_list|].
    rewrite !Hl. unfold out. cbn [d_reject d_allow]. rewrite elem_of_list_to_set. set_solver. }
  split; [apply Hd|]. split; [apply Hd|]. intros k Hr Ha. apply Hd in Hr, Ha.
  destruct Ha as [Ha Hp]. destruct Hr as [Hr|Hr]; congruence.
Qed.

(** ** Reading *)

Section Read.
Context {P : EvmReceiptProvider} {N : ListNode} (started finished : nat -> Z).
Context (contract : bytes) (deadline : Z).

(** The pages left from [start]. *)
Definition pages (start len : Z) : Z := (len - start + PAGE_SIZE - 1) / PAGE_SIZE.

(** At most [n] calls, whatever they answer. *)
Definition calls {A} (n : Z) (c : io Budget EnclaveError A) : Prop :=
  forall w, Z.of_nat (c w).1.1 <= Z.of_nat w.1 + n.

Lemma calls_run {A} (f : nat -> enclave_result A) : calls 1 (run started finished deadline f).
Proof. intros [t s]. unfold run. destruct (_ <? _); cbn [fst]; lia. Qed.

Lemma calls_lift {A} (r : enclave_result A) : calls 0 (io_lift r).
Proof. intros w. cbn. lia. Qed.

Lemma calls_bind {A B} a b (c : io Budget EnclaveError A) (k : A -> io Budget EnclaveError B) :
  0 <= b -> calls a c -> (forall x, calls b (k x)) -> calls (a + b) (io_bind c k).
Proof.
  intros Hb Hc Hk w. unfold io_bind. specialize (Hc w). destruct (c w) as [w1 [x| |]]; cbn [fst] in *; [|lia..].
  specialize (Hk x w1). lia.
Qed.

Lemma calls_weaken {A} a b (c : io Budget EnclaveError A) : a <= b -> calls a c -> calls b c.
Proof. intros Hab Hc w. specialize (Hc w). lia. Qed.

Lemma calls_entries fuel start len block :
  start <= len -> calls (pages start len) (read_entries started finished contract deadline fuel start len block).
Proof.
  revert start. induction fuel as [|fuel IH]; intros start Hs; cbn [read_entries].
  - destruct (Z.ltb_spec start len); cbn [negb]; (eapply calls_weaken; [|apply calls_lift]);
      unfold pages, PAGE_SIZE; apply Z.div_pos; lia.
  - destruct (Z.ltb_spec start len) as [Hlt|Hge]; cbn [negb].
    + set (e := Z.min (start + PAGE_SIZE) len).
      assert (He : start < e <= len /\ 1 + pages e len <= pages start len).
      { unfold e, pages, PAGE_SIZE. split; [lia|]. destruct (Z.min_spec (start + 1000) len) as [[? ->]|[? ->]].
        - replace (len - (start + 1000) + 1000 - 1) with (len - start + 1000 - 1 + (-1) * 1000) by lia.
          rewrite Z.div_add by lia. lia.
        - replace (len - len + 1000 - 1) with 999 by lia. change (999 / 1000) with 0.
          assert (1 <= (len - start + 1000 - 1) / 1000) by (apply Z.div_le_lower_bound; lia). lia. }
      assert (0 <= pages e len) by (unfold pages, PAGE_SIZE; apply Z.div_pos; lia).
      eapply calls_weaken; [apply He|]. apply calls_bind; [done|apply calls_run|]. intros raw.
      change (pages e len) with (0 + pages e len). apply calls_bind; [done|apply calls_lift|]. intros page.
      destruct (negb _); [eapply calls_weaken; [|apply calls_lift]; done|].
      replace (pages e len) with (pages e len + 0) by lia. apply calls_bind; [done|apply IH; lia|].
      intros rest. apply calls_lift.
    + eapply calls_weaken; [|apply calls_lift]. unfold pages, PAGE_SIZE. apply Z.div_pos; lia.
Qed.

Lemma calls_length block : calls 1 (length_at started finished contract deadline block).
Proof.
  unfold length_at. apply (calls_bind 1 0); [done|apply calls_run|]. intros raw.
  destruct (bool_decide _); [apply calls_lift|]. apply (calls_bind 0 0); [done|apply calls_lift|].
  intros n. destruct (_ <? _); apply calls_lift.
Qed.

Lemma calls_block tag : calls 1 (list_block started finished deadline tag).
Proof. unfold list_block. apply (calls_bind 1 0); [done|apply calls_run|]. intros. apply calls_lift. Qed.

(** A read makes 24 calls at most: two blocks, two lengths, twenty pages. *)
Lemma calls_read : calls 24 (read_reject_list started finished contract deadline).
Proof.
  unfold read_reject_list. apply (calls_bind 1 23); [done|apply calls_block|]. intros latest.
  apply (calls_bind 1 22); [done|apply calls_block|]. intros f. cbv zeta.
  apply (calls_bind 1 21); [done|apply calls_length|]. intros fl.
  apply (calls_bind 1 20); [done|apply calls_length|]. intros l.
  apply (calls_bind 0 20); [done|apply calls_lift|]. intros len.
  destruct (_ <? _); [eapply calls_weaken; [|apply calls_lift]; done|].
  destruct (Z.ltb_spec MAX_ENTRIES len); [eapply calls_weaken; [|apply calls_lift]; done|].
  destruct (Z.ltb_spec 0 len) as [Hl|Hl].
  - apply (calls_bind 20 0); [done| |intros; apply calls_lift].
    eapply calls_weaken; [|apply calls_entries; lia]. unfold pages, PAGE_SIZE, MAX_ENTRIES in *.
    apply Z.lt_succ_r, Z.div_lt_upper_bound; lia.
  - replace (Z.to_nat len) with 0%nat by lia. cbn [read_entries].
    destruct (Z.ltb_spec 0 len); [lia|]. cbn [negb]. eapply calls_weaken; [|apply (calls_bind 0 0);
      [done|apply calls_lift|intros; apply calls_lift]]. done.
Qed.

(** An append-only contract, and a node that answers from it; [log b] is the list at
    block [b], [None] before the contract is there. *)
Class HonestList (log : Z -> option (list RejectListEntry)) : Prop := {
  append_only b b' l : b <= b' -> log b = Some l -> exists l', log b' = Some l' /\ l `prefix_of` l';
  call_length t b raw : eth_call t contract length_calldata b = Ok raw ->
    match log b with
    | None => raw = []
    | Some l => raw <> [] /\ decode_length raw = Some (zlen l)
    end;
  call_entries t s e b l raw :
    log b = Some l -> 0 <= s <= e -> e <= zlen l ->
    eth_call t contract (entries_calldata s e) b = Ok raw ->
    decode_entries raw = Some (take (Z.to_nat (e - s)) (drop (Z.to_nat s) l))
}.

Context (log : Z -> option (list RejectListEntry)) {L : HonestList log}.

Lemma run_ok {A} (f : nat -> enclave_result A) w w' a :
  run started finished deadline f w = (w', Ok a) -> f w.1 = Ok a.
Proof. destruct w as [t s]. unfold run. destruct (_ <? _); [done|]. cbn. intros H. by injection H as _ H. Qed.

Lemma length_at_ok b w w' o :
  length_at started finished contract deadline b w = (w', Ok o) -> o = zlen <$> log b.
Proof.
  unfold length_at. intros H. io_inv H raw w1 Hr. apply run_ok, call_length in Hr.
  destruct (log b) as [l|].
  - destruct Hr as [Hne Hd]. rewrite bool_decide_false in H by done. io_inv H n w2 Hn.
    apply io_lift_ok in Hn as [-> Hn]. rewrite Hd in Hn. injection Hn as <-.
    destruct (_ <? _); apply io_lift_ok in H as [_ H]; [done|by injection H as <-].
  - rewrite bool_decide_true in H by done. apply io_lift_ok in H as [_ [= <-]]. done.
Qed.

Lemma read_entries_ok fuel start block l w w' es :
  log block = Some l -> 0 <= start <= zlen l ->
  read_entries started finished contract deadline fuel start (zlen l) block w = (w', Ok es) ->
  es = drop (Z.to_nat start) l.
Proof.
  intros Hl. revert start w w' es. induction fuel as [|fuel IH]; intros start w w' es Hs H; cbn [read_entries] in H.
  all: destruct (Z.ltb_spec start (zlen l)) as [Hlt|Hge]; cbn [negb] in H;
    try (apply io_lift_ok in H as [_ [= <-]]; rewrite drop_ge; [done|unfold zlen in *; lia]).
  - by apply io_lift_ok in H as [_ ?].
  - set (e := Z.min (start + PAGE_SIZE) (zlen l)) in *.
    assert (He : start < e <= zlen l) by (unfold e, PAGE_SIZE; lia).
    io_inv H raw w1 Hr. apply run_ok in Hr. io_inv H page w2 Hp. apply io_lift_ok in Hp as [-> Hp].
    apply ok_or_ok in Hp. rewrite (call_entries w.1 start e block l raw Hl) in Hp by (done || lia). injection Hp as <-.
    destruct (negb _); [by apply io_lift_ok in H as [_ ?]|]. io_inv H rest w3 Hrest.
    apply io_lift_ok in H as [_ [= <-]]. apply IH in Hrest as ->; [|lia].
    replace (Z.to_nat e) with (Z.to_nat start + Z.to_nat (e - start))%nat by lia.
    rewrite <- drop_drop. by rewrite take_drop.
Qed.

(** One call gives the number of the block that the node reports for the tag. *)
Lemma list_block_ok tag w w' n :
  list_block started finished deadline tag w = (w', Ok n) ->
  w'.1 = S w.1 /\ exists b, get_block_by_tag w.1 tag = Ok (Some b) /\ n = bd_number b.
Proof.
  unfold list_block. intros H. io_inv H o w1 Hr. apply io_lift_ok in H as [-> Hn]. pose proof (run_ok _ _ _ _ Hr) as Hb.
  destruct o as [b|]; [|done]. injection Hn as <-. split; [|by exists b].
  destruct w as [t s]. unfold run in Hr. destruct (_ <? _); [done|]. by injection Hr as <- _.
Qed.

Lemma list_read_ok w w' r :
  read_reject_list started finished contract deadline w = (w', Ok r) ->
  exists latest final l,
    get_block_by_tag w.1 Latest = Ok (Some latest) /\ get_block_by_tag (S w.1) Finalized = Ok (Some final) /\
    log (bd_number latest) = Some l /\ zlen l <= MAX_ENTRIES /\ rl_entries r = l /\
    rl_finalized r = zlen (default [] (log (Z.min (bd_number final) (bd_number latest)))).
Proof.
  unfold read_reject_list. cbv zeta. intros H. io_inv H latest w1 H1. io_inv H f w2 H2.
  apply list_block_ok in H1 as (Hw1 & bl & Hbl & ->). apply list_block_ok in H2 as (_ & bf & Hbf & ->).
  io_inv H fl w3 H3. apply length_at_ok in H3. io_inv H ol w4 H4. apply length_at_ok in H4.
  io_inv H len w5 H5. apply io_lift_ok in H5 as [-> H5]. apply ok_or_ok in H5. subst ol fl.
  destruct (log (bd_number bl)) as [l|] eqn:El; [|done]. injection H5 as <-.
  destruct (_ <? _); [by apply io_lift_ok in H as [_ ?]|].
  destruct (Z.ltb_spec MAX_ENTRIES (zlen l)); [by apply io_lift_ok in H as [_ ?]|].
  io_inv H es w6 H6. apply io_lift_ok in H as [_ [= <-]]. exists bl, bf, l. rewrite Hw1 in Hbf.
  apply (read_entries_ok _ _ _ l) in H6 as ->; [|done|unfold zlen; lia].
  split_and!; try done. cbn. by destruct (log (Z.min _ _)).
Qed.

End Read.

(** C30: the decisions that rgb-lib walks a history with are those of the contract: an opout
    is rejected when its last entry at the block that the node reports as finalized rejects
    it, or any entry since then up to the node's latest block does, and allowed only by an
    entry at the finalized block.  The whole list is read at that latest block of the pinned
    chain, whose id the node reports first, with 25 calls at most; a node of another chain, a
    list on another chain, a list that shrank or has more than 20000 entries are refused. *)
Theorem reject_list_current `{P : EvmReceiptProvider, N : ListNode} started finished chain_id launched client
    contract deadline log w w' d :
  HonestList (rl_address contract) log ->
  read_decisions started finished chain_id launched client contract deadline w = (w', Ok d) ->
  rl_chain_id contract = chain_id /\ get_chain_id w.1 = Ok chain_id /\ Z.of_nat w'.1 <= Z.of_nat w.1 + 25 /\
  exists latest final l f pending,
    get_block_by_tag (1 + w.1) Latest = Ok (Some latest) /\
    get_block_by_tag (2 + w.1) Finalized = Ok (Some final) /\
    log (bd_number latest) = Some l /\ zlen l <= 20000 /\
    f = default [] (log (Z.min (bd_number final) (bd_number latest))) /\ l = f ++ pending /\
    forall o,
      (o ∈ d_reject d <-> last_decision f o = Some true \/ o ∈ rejected_in pending) /\
      (o ∈ d_allow d <-> last_decision f o = Some false /\ o ∉ rejected_in pending).
Proof.
  intros L. unfold read_decisions. destruct (Z.eqb_spec (rl_chain_id contract) chain_id) as [Hc|]; cbn [negb];
    [|by intros ?%io_lift_ok%proj2].
  destruct launched; [|by intros ?%io_lift_ok%proj2]. destruct client; [|by intros ?%io_lift_ok%proj2].
  cbn [negb]. intros H. io_inv H c w1 H1. io_inv H r w2 H2. apply io_lift_ok in H as [-> [= <-]].
  destruct w1 as [t1 s1]. split; [done|].
  assert (Ht1 : t1 = S w.1 /\ get_chain_id w.1 = Ok chain_id).
  { destruct w as [t s]. unfold from_rpc, check_node_chain_id, rpc_bind, rpc_call, rpc_lift, rpc_ret in H1.
    destruct (get_chain_id t) as [node| |] eqn:En; cbn in H1; [|done..].
    destruct (Z.eqb_spec node chain_id) as [->|]; cbn in H1; [|done]. by injection H1 as <- _ _. }
  destruct Ht1 as [-> Hid]. split; [done|]. split.
  - pose proof (calls_read started finished (rl_address contract) deadline (S w.1, 0)) as Hr.
    rewrite H2 in Hr. cbn [fst] in Hr. lia.
  - apply (list_read_ok _ _ _ _ log) in H2 as (latest & final & l & Hb & Hf & Hl & Hmax & -> & ->).
    set (fin := Z.min (bd_number final) (bd_number latest)).
    assert (Hpre : default [] (log fin) `prefix_of` l).
    { destruct (log fin) as [f|] eqn:Ef; [|apply prefix_nil]. cbn.
      destruct (append_only _ fin (bd_number latest) f ltac:(unfold fin; lia) Ef) as (l' & Hl' & Hp). congruence. }
    destruct Hpre as [pending ->]. exists latest, final, (default [] (log fin) ++ pending),
      (default [] (log fin)), pending. do 6 (split; [done|]). intros o.
    destruct (decisions_spec (default [] (log fin) ++ pending) (Z.to_nat (zlen (default [] (log fin)))) o)
      as (Hr & Ha & _). unfold zlen in Hr, Ha |- *. rewrite Nat2Z.id in Hr, Ha |- *.
    rewrite take_app_length, drop_app_length in Hr, Ha. by split.
Qed.

(** ** A list of four entries, the last two not final *)

Module Sample.

Definition opout1 : OpoutKey := {| ok_op := [z2b 1]; ok_ty := 4000; ok_no := 0 |}.
Definition opout2 : OpoutKey := {| ok_op := [z2b 2]; ok_ty := 4000; ok_no := 1 |}.
Definition entry (o : OpoutKey) (r : bool) : RejectListEntry := {| re_opout := o; re_reject := r |}.

Definition entries : list RejectListEntry :=
  [entry opout1 true; entry opout1 false; entry opout2 true; entry opout2 false].

(** The contract appears at block 5; blocks 5 to 9 have two entries. *)
Definition log (b : Z) : option (list RejectListEntry) :=
  if b <? 5 then None else Some (if b <? 10 then take 2 entries else entries).

Definition encode_page (s e : Z) : bytes := [z2b s; z2b e].

#[local] Instance provider : EvmReceiptProvider := {|
  get_transaction_receipt _ _ := Ok None;
  get_block_by_tag _ tag :=
    Ok (Some {| bd_number := match tag with Latest => 12 | _ => 7 end; bd_hash := [] |});
  get_block_by_number _ _ := Ok None;
  get_chain_id _ := Ok 1
|}.

(** A calldata of one byte asks for the length; a page is answered with its bounds. *)
#[local] Instance node : ListNode := {|
  eth_call _ _ data b :=
    Ok match log b, data with
       | None, _ => []
       | Some l, [_] => [z2b (zlen l)]
       | Some l, _ => data
       end;
  length_calldata := [z2b 0];
  entries_calldata s e := encode_page s e;
  decode_length raw := match raw with [n] => Some (b2z n) | _ => None end;
  decode_entries raw :=
    match raw with
    | [s; e] => Some (take (Z.to_nat (b2z e - b2z s)) (drop (Z.to_nat (b2z s)) entries))
    | _ => None
    end
|}.

Lemma honest a : HonestList a log.
Proof.
  split; unfold log.
  - intros b b' l Hb. destruct (Z.ltb_spec b 5); [done|]. destruct (Z.ltb_spec b' 5); [lia|].
    intros [= <-]. eexists. split; [done|]. destruct (Z.ltb_spec b 10), (Z.ltb_spec b' 10); try lia; try done.
    by exists (drop 2 entries).
  - intros t b raw [= <-]. unfold log. destruct (b <? 5); [done|]. by destruct (b <? 10).
  - intros t s e b l raw. unfold eth_call, node, log. destruct (b <? 5); [done|]. intros Hl Hs He [= <-].
    assert (Hlen : zlen l <= 4) by (injection Hl as <-; by destruct (b <? 10)).
    cbn [entries_calldata decode_entries encode_page]. rewrite !b2z_small by lia.
    f_equal. destruct (b <? 10); injection Hl as <-; [|done]. rewrite <- (take_drop 2 entries) at 1.
    cbn [entries_calldata] in *. assert (Hc : s = 0 /\ e = 0 \/ s = 0 /\ e = 1 \/ s = 0 /\ e = 2 \/ s = 1 /\ e = 1 \/ s = 1 /\ e = 2 \/ s = 2 /\ e = 2)
      by (unfold zlen in He; cbn in He; lia). naive_solver.
Qed.

Lemma reject_list_current_witness :
  let d := {| d_reject := {[opout2]}; d_allow := {[opout1]} |} in
  snd (read_decisions (fun t => Z.of_nat t) (fun t => Z.of_nat t + 1) 1 true true
    {| rl_chain_id := 1; rl_address := [] |} (secs 60) (0%nat, 0)) = Ok d /\
  exists latest final l f pending,
    get_block_by_tag 1%nat Latest = Ok (Some latest) /\ get_block_by_tag 2%nat Finalized = Ok (Some final) /\
    log (bd_number latest) = Some l /\ l = f ++ pending /\
    (opout1 ∈ d_allow d <-> last_decision f opout1 = Some false /\ opout1 ∉ rejected_in pending).
Proof.
  intros d.
  pose (r := read_decisions (fun t => Z.of_nat t) (fun t => Z.of_nat t + 1) 1 true true
    {| rl_chain_id := 1; rl_address := [] |} (secs 60) (0%nat, 0)).
  assert (Hr : r = (fst r, Ok d)) by (vm_compute; reflexivity).
  split; [exact (f_equal snd Hr)|].
  destruct (reject_list_current _ _ _ _ _ _ _ log _ _ _ (honest _) Hr) 
    as (_ & _ & _ & la & fi & l & f & p & H1 & H2 & H3 & _ & _ & H4 & H5).
  exists la, fi, l, f, p. destruct (H5 opout1) as [_ Ha]. by repeat split; try apply Ha.
Defined.

End Sample.
