(* ===== verification/RgbTransfer.v ===== *)
(** * The parsed consignment (src/enclave/src/networks/rgb/validation/schema.rs,
      consignment.rs)

    The [Transfer] of rgbstd as a record with the fields the code reads, the
    gate on its genesis, and what the enclave reads from its last bundle.  The
    decoder, the ids and the terminal operations are the class [TransferStd]. *)

From stdpp Require Import base numbers list gmap strings.
From S2P Require Import Prelude Errors PsbtTypes RgbCommit SpvCrosscheck EvmEvents RejectList.

#[local] Open Scope list_scope.
#[local] Open Scope Z_scope.

#[export] Instance chain_net_eq_dec : EqDecision ChainNet.
Proof. solve_decision. Defined.

(** ** rgbstd *)

Record Genesis : Type := {
  schema_id : bytes;
  g_chain_net : ChainNet;
  g_globals : gmap Z (list bytes);
  g_assignments : gmap Z TypedAssigns
}.

Inductive TapretNodePartner : Type :=
| LeftNode
| RightLeaf (script : bytes)
| RightBranch.

Inductive DbcProof : Type := Tapret (partner_node : option TapretNodePartner) | Opret.

(** [Anchor<DbcProof>]; the rest of an anchor is of fixed size. *)
Record Anchor : Type := { dbc_proof : DbcProof }.

Record WitnessBundle : Type := {
  wb_tx : Transaction;
  wb_anchor : Anchor;
  wb_bundle : TransitionBundle
}.

Record Transfer : Type := { tr_genesis : Genesis; tr_bundles : list WitnessBundle }.

(** [Transfer::load], [contract_id], [consignment_id] in text, [Genesis::id],
    [WitnessBundle::witness_id], [terminal_ops], [Transaction::total_size], the prefix
    of a chain, and the bridge location of a BFA genesis. *)
Class TransferStd : Type := {
  transfer_load : bytes -> option Transfer;
  transfer_contract_id : Transfer -> bytes;
  consignment_id : Transfer -> string;
  genesis_id : Genesis -> bytes;
  wb_witness_id : WitnessBundle -> bytes;
  terminal_ops : Transfer -> gset bytes;
  tx_total_size : Transaction -> Z;
  chain_net_prefix : ChainNet -> string;
  bridge_location : Genesis -> option (Z * bytes)
}.

(** The rest of the BFA schema. *)
Class BfaBurnSchema : Type := {
  BFA_SCHEMA_ID : bytes;
  TS_BURN : Z;
  TS_TRANSFER : Z;
  TS_INFLATION : Z;
  TS_LINK : Z;
  TS_TRANSFER_INFLATION : Z;
  TS_TRANSFER_LINK : Z;
  GS_BURNED_ASSET : Z;
  GS_BURN_REASON : Z;
  GS_REJECT_LIST : Z
}.

Definition transfer_transitions (t : Transfer) : list KnownTransition :=
  flat_map (fun wb => known_transitions (wb_bundle wb)) (tr_bundles t).

Section Transfer.
Context {R : RgbStd} {T : TransferStd} {F : BfaSchema} {G : BfaBurnSchema} {B : Bitcoin}.

(** ** The genesis gate (schema.rs) *)

Definition assert_bfa_genesis (genesis : Genesis) : enclave_result unit :=
  if negb (bool_decide (schema_id genesis = BFA_SCHEMA_ID)) then
    Err (CrossCheck "consignment uses another RGB schema than BFA")
  else Ok tt.

Definition EVM_LOCATION_LEN : Z := 1 + 8 + 20.
Definition EVM_LOCATION_TAG : Z := 1.

Definition reject_list (genesis : Genesis) : enclave_result (option RejectListContract) :=
  match g_globals genesis !! GS_REJECT_LIST with
  | None => Ok None
  | Some [value] =>
      if negb (zlen value =? EVM_LOCATION_LEN)
         || negb (b2z (default x00 (head value)) =? EVM_LOCATION_TAG) then
        Err (CrossCheck "BFA genesis names a reject list that is not an EVM contract")
      else
        Ok (Some {| rl_chain_id := le_combine (take 8 (drop 1 value)); rl_address := drop 9 value |})
  | Some _ => Err (CrossCheck "BFA genesis carries several reject lists, expected one")
  end.

(** ** The last bundle (consignment.rs) *)

(** [rposition], or the last index. *)
Definition settling_index {A : Type} (transitions : list A) (is_burn : A -> bool) : option nat :=
  match last (filter (fun p => is_burn p.2 = true) (imap pair transitions)) with
  | Some (i, _) => Some i
  | None => match length transitions with O => None | S n => Some n end
  end.

Definition is_mint_transition (transition_type : Z) : bool := transition_type =? TS_MINT.

Record SettlingFacts : Type := {
  sf_opid : bytes;
  sf_transition_type : Z;
  sf_burned_asset : option Z;
  sf_burn_reason : option bytes;
  sf_mint_rights : list OutputSeal
}.

Record LastBundle : Type := {
  lb_witness_txid : bytes;
  lb_prevouts : list OutPoint;
  lb_closed_seals : list OutPoint;
  lb_fully_disclosed : bool;
  lb_settling : SettlingFacts
}.

Definition is_burn (k : KnownTransition) : bool :=
  transition_type (known_transition k) =? TS_BURN.

Definition settling_known_transition (known : list KnownTransition)
    : enclave_result (option KnownTransition) :=
  if 1 <? zlen (filter (fun k => is_burn k = true) known) then
    Err (CrossCheck "the last bundle carries several burns - a release settles exactly one")
  else Ok (settling_index known is_burn ≫= fun i => known !! i).

Definition settling_facts (known : KnownTransition) : enclave_result SettlingFacts :=
  let t := known_transition known in
  let? burned := single_global 8 (globals t) GS_BURNED_ASSET in
  let? reason := single_global 32 (globals t) GS_BURN_REASON in
  Ok {| sf_opid := known_opid known;
        sf_transition_type := transition_type t;
        sf_burned_asset := le_combine <$> burned;
        sf_burn_reason := reason;
        sf_mint_rights :=
          match assignments t !! OS_MINT with
          | Some typed => map output_seal (seals typed)
          | None => []
          end |}.

Definition fully_disclosed (b : WitnessBundle) : bool :=
  bool_decide
    ((list_to_set (map snd (map_to_list (input_map (wb_bundle b)))) : gset bytes)
     = list_to_set (map known_opid (known_transitions (wb_bundle b)))).

(** The operations that made the seals; a transition in two bundles keeps its
    first. *)
Record SealMakers : Type := {
  sm_genesis_id : bytes;
  sm_genesis : gmap Z TypedAssigns;
  sm_transitions : gmap bytes (KnownTransition * bytes)
}.

Definition seal_makers_of (t : Transfer) : SealMakers := {|
  sm_genesis_id := genesis_id (tr_genesis t);
  sm_genesis := g_assignments (tr_genesis t);
  sm_transitions :=
    foldl (fun m wb =>
      foldl (fun m known =>
        match m !! known_opid known with
        | Some _ => m
        | None => <[known_opid known := (known, wb_witness_id wb)]> m
        end) m (known_transitions (wb_bundle wb))) ∅ (tr_bundles t)
|}.

(** The seal of an output that reveals it; [witness_id] is the transaction of a seal
    on its own witness. *)
Definition revealed_seal (assigns : gmap Z TypedAssigns) (input : Opout) (witness : option bytes)
    : option OutPoint :=
  typed ← assigns !! ty input;
  seal ← seal_at typed (no input);
  match seal with
  | SealRevealed s =>
      txid ← match seal_txid s with Some txid => Some txid | None => witness end;
      Some {| op_txid := txid; op_vout := seal_vout s |}
  | SealConcealed _ => None
  end.

Definition seal_outpoint_of (m : SealMakers) (input : Opout) : option OutPoint :=
  if bool_decide (op input = sm_genesis_id m) then revealed_seal (sm_genesis m) input None
  else
    '(known, witness) ← sm_transitions m !! op input;
    revealed_seal (assignments (known_transition known)) input (Some witness).

Definition closed_seals (t : Transfer) (b : WitnessBundle) : enclave_result (list OutPoint) :=
  let makers := seal_makers_of t in
  rmapM (fun input =>
      ok_or (seal_outpoint_of makers input)
        (CrossCheck "input has no revealed seal in the consignment"))
    (flat_map (fun k => t_inputs (known_transition k)) (known_transitions (wb_bundle b))).

Definition read_last_bundle (t : Transfer) : enclave_result (option LastBundle) :=
  match last (tr_bundles t) with
  | None => Ok None
  | Some b =>
      let? settling := settling_known_transition (known_transitions (wb_bundle b)) in
      match settling with
      | None => Ok None
      | Some settling =>
          let? closed := closed_seals t b in
          let? facts := settling_facts settling in
          Ok (Some {| lb_witness_txid := wb_witness_id b;
                      lb_prevouts := map previous_output (tx_input (wb_tx b));
                      lb_closed_seals := closed;
                      lb_fully_disclosed := fully_disclosed b;
                      lb_settling := facts |})
      end
  end.

End Transfer.
