(* ===== verification/RgbCost.v ===== *)
(** * The work rgb-lib does on a consignment (src/enclave/src/networks/rgb/validation/cost.rs)

    The costs in saturating [u64], the walk over the operations graph with its
    stamps and budgets, and the caps.  The lengths of the collections are
    bounded by their types and the file, so the plain sums of the source stay
    below 2^64; the saturating ones are modelled with their bound. *)

From stdpp Require Import base numbers list gmap sorting relations strings.
From S2P Require Import Prelude Errors PsbtTypes RgbCommit RgbTransfer.

#[local] Open Scope list_scope.
#[local] Open Scope Z_scope.

Definition MAX_WITNESS_CHECK_COST : Z := 128 * 1024 * 1024.
Definition MAX_BUNDLE_ID_COST : Z := 256 * 1024.
Definition MAX_REJECT_WALK_COST : Z := 64 * 1024 * 1024.
Definition MAX_RGB_LIB_NS : Z := 18000000000.

Definition NS_PER_FILE_BYTE : Z := 1100.
Definition NS_PER_OPOUT : Z := 55000.
Definition NS_PER_GENESIS_LEAF : Z := 15000.
Definition NS_PER_WITNESS_STEP : Z := 14.
Definition NS_PER_BUNDLE_ID_STEP : Z := 4500.
Definition NS_PER_WALK_STEP : Z := 75.

Definition INSPECT_NS_PER_FILE_BYTE : Z := 650.
Definition INSPECT_NS_PER_OPOUT : Z := 65000.
Definition INSPECT_NS_PER_OPERATION : Z := 90000.
Definition INSPECT_NS_PER_WITNESS_STEP : Z := 8.

Definition sat_mul64 (a b : Z) : Z := Z.min (a * b) u64_max.

(** [Iterator::sum] and the saturating fold. *)
Definition sum_of (l : list Z) : Z := foldr Z.add 0 l.
Definition sat_sum (acc : Z) (l : list Z) : Z := foldl sat_add64 acc l.

Section Costs.
Context {T : TransferStd}.

(** ** Linear costs *)

(** [TypedAssigns::len_u16] over a map of assignments. *)
Definition legs_count (a : gmap Z TypedAssigns) : Z :=
  sum_of (map (fun kv => zlen (seals kv.2)) (map_to_list a)).

Definition opout_count (t : Transfer) : Z :=
  sat_sum (legs_count (g_assignments (tr_genesis t)))
    (map (fun k =>
        sat_add64 (legs_count (assignments (known_transition k))) (zlen (t_inputs (known_transition k))))
      (transfer_transitions t)).

Definition operation_count (t : Transfer) : Z := zlen (transfer_transitions t) + 1.

Definition genesis_leaves (t : Transfer) : Z :=
  sum_of (map (fun kv => zlen kv.2) (map_to_list (g_globals (tr_genesis t))))
  + legs_count (g_assignments (tr_genesis t)).

Definition genesis_hash_cost (t : Transfer) : Z := sat_mul64 (operation_count t) (genesis_leaves t).

Definition partner_leaf_len (a : Anchor) : Z :=
  match dbc_proof a with
  | Tapret (Some (RightLeaf script)) => zlen script
  | _ => 0
  end.

Definition witness_check_cost (t : Transfer) : Z :=
  sat_sum 0 (map (fun wb =>
      let transitions := known_transitions (wb_bundle wb) in
      let seals := sum_of (map (fun k => zlen (t_inputs (known_transition k))) transitions) in
      let witness := sat_add64 (tx_total_size (wb_tx wb)) (partner_leaf_len (wb_anchor wb)) in
      let copies := sat_mul64 (zlen transitions) witness in
      sat_add64 copies (sat_mul64 seals (zlen (tx_input (wb_tx wb)))))
    (tr_bundles t)).

Definition bundle_id_cost (t : Transfer) : Z :=
  sat_sum 0 (map (fun wb =>
      let hashes := zlen (known_transitions (wb_bundle wb)) + 1 in
      sat_mul64 hashes (Z.of_nat (size (input_map (wb_bundle wb)))))
    (tr_bundles t)).

(** ** The walk *)

Record OpGraph : Type := { og_index : gmap bytes nat; og_parents : list (list nat) }.

(** [OpGraph::node]: the node of an operation, added if new. *)
Definition graph_node (g : OpGraph) (o : bytes) : OpGraph * nat :=
  let next := length (og_parents g) in
  let n := default next (og_index g !! o) in
  let index := match og_index g !! o with Some _ => og_index g | None => <[o := next]> (og_index g) end in
  ({| og_index := index;
      og_parents := if (n =? next)%nat then og_parents g ++ [[]] else og_parents g |}, n).

Fixpoint graph_nodes (g : OpGraph) (ops : list bytes) : OpGraph * list nat :=
  match ops with
  | [] => (g, [])
  | o :: ops =>
      let '(g, n) := graph_node g o in
      let '(g, ns) := graph_nodes g ops in
      (g, n :: ns)
  end.

Definition graph_add (g : OpGraph) (known : KnownTransition) : OpGraph :=
  let '(g, n) := graph_node g (known_opid known) in
  let '(g, ns) := graph_nodes g (map op (t_inputs (known_transition known))) in
  {| og_index := og_index g; og_parents := <[n := ns]> (og_parents g) |}.

Definition graph_of (t : Transfer) : OpGraph :=
  foldl graph_add {| og_index := ∅; og_parents := [] |} (transfer_transitions t).

(** The loop of [walk_steps]; the head of [stack] is the end of the [Vec].  A walk
    expands a node once, so it pops no more than one node and every parent:
    [fuel] is that number. *)
Fixpoint walk_loop (fuel : nat) (parents : list (list nat)) (walk budget : Z) (stack : list nat)
    (seen : list Z) (steps : Z) : list Z * Z :=
  match fuel, stack with
  | O, _ | _, [] => (seen, steps)
  | S fuel, node :: stack =>
      let steps := steps + 1 in
      if budget <? steps then (seen, steps)
      else if bool_decide (seen !! node = Some walk) then
        walk_loop fuel parents walk budget stack seen steps
      else
        let ps := default [] (parents !! node) in
        walk_loop fuel parents walk budget (rev ps ++ stack) (<[node := walk]> seen) (steps + zlen ps)
  end.

Definition edge_count (parents : list (list nat)) : nat := foldr (fun ps n => length ps + n)%nat O parents.

Definition walk_steps (g : OpGraph) (from : nat) (walk : Z) (seen : list Z) (budget : Z) : list Z * Z :=
  walk_loop (2 + edge_count (og_parents g)) (og_parents g) walk budget [from] seen 0.

Definition reject_check_origins (t : Transfer) : gset Opout :=
  list_to_set (flat_map (fun k =>
      t_inputs (known_transition k) ++
      flat_map (fun kv =>
          map (fun n => {| op := known_opid k; ty := kv.1; no := Z.of_nat n |}) (seq 0 (length (seals kv.2))))
        (map_to_list (assignments (known_transition k))))
    (filter (fun k => known_opid k ∈ terminal_ops t) (transfer_transitions t))).

(** The loop over the origins: how many each operation has. *)
Fixpoint count_origins (g : OpGraph) (origins : list Opout) (m : gmap nat Z) : OpGraph * gmap nat Z :=
  match origins with
  | [] => (g, m)
  | o :: origins =>
      let '(g, n) := graph_node g (op o) in
      count_origins g origins (<[n := default 0 (m !! n) + 1]> m)
  end.

(** The loop over the operations, in the order of the [BTreeMap]. *)
Fixpoint walk_all (g : OpGraph) (cap walk : Z) (origins : list (nat * Z)) (seen : list Z) (total : Z) : Z :=
  match origins with
  | [] => total
  | (n, count) :: origins =>
      let budget := sat_add64 ((cap - total) / count) 1 in
      let '(seen, steps) := walk_steps g n walk seen budget in
      let total := sat_add64 total (sat_mul64 count steps) in
      if cap <? total then total else walk_all g cap (walk + 1) origins seen total
  end.

Definition node_le (a b : nat * Z) : Prop := (a.1 <= b.1)%nat.

#[local] Instance node_le_dec : RelDecision node_le.
Proof. intros a b. unfold node_le. apply _. Defined.

Definition reject_walk_cost (t : Transfer) (cap : Z) : Z :=
  let g := graph_of t in
  let '(g, origins) := count_origins g (elements (reject_check_origins t)) ∅ in
  walk_all g cap 1 (merge_sort node_le (map_to_list origins)) (replicate (length (og_parents g)) 0) 0.

(** ** The caps *)

Definition weighted_sum (terms : list (Z * Z)) : Z :=
  sat_sum 0 (map (fun '(units, ns) => sat_mul64 units ns) terms).

(** The arrays of three costs. *)
Record Uncapped : Type := { un_opouts : Z; un_genesis : Z; un_operations : Z }.
Record Capped : Type := { ca_witness : Z; ca_ids : Z; ca_walk : Z }.

Definition uncapped_costs (t : Transfer) : Uncapped :=
  {| un_opouts := opout_count t; un_genesis := genesis_hash_cost t; un_operations := operation_count t |}.

Definition validation_ns (file_len : Z) (u : Uncapped) (c : Capped) : Z :=
  weighted_sum [(file_len, NS_PER_FILE_BYTE); (un_opouts u, NS_PER_OPOUT); (un_genesis u, NS_PER_GENESIS_LEAF);
    (ca_witness c, NS_PER_WITNESS_STEP); (ca_ids c, NS_PER_BUNDLE_ID_STEP); (ca_walk c, NS_PER_WALK_STEP)].

Definition inspection_ns (file_len : Z) (u : Uncapped) (c : Capped) : Z :=
  weighted_sum [(file_len, INSPECT_NS_PER_FILE_BYTE); (un_opouts u, INSPECT_NS_PER_OPOUT);
    (un_operations u, INSPECT_NS_PER_OPERATION); (ca_witness c, INSPECT_NS_PER_WITNESS_STEP)].

Definition rgb_lib_ns (file_len : Z) (u : Uncapped) (c : Capped) : Z :=
  sat_add64 (validation_ns file_len u c) (inspection_ns file_len u c).

Definition assert_within (cost cap : Z) (what : string) : enclave_result unit :=
  if cost <=? cap then Ok tt else Err (CrossCheck ("consignment would cost too many " +:+ what)).

Definition capped_costs (t : Transfer) (listed : bool) : enclave_result Capped :=
  let witness := witness_check_cost t in
  let? _ := assert_within witness MAX_WITNESS_CHECK_COST
    "steps to check its transitions against their witness txs" in
  let ids := bundle_id_cost t in
  let? _ := assert_within ids MAX_BUNDLE_ID_COST "steps to hash its bundle ids" in
  if negb listed then Ok {| ca_witness := witness; ca_ids := ids; ca_walk := 0 |}
  else
    let walk := reject_walk_cost t MAX_REJECT_WALK_COST in
    let? _ := assert_within walk MAX_REJECT_WALK_COST "steps to check against its reject list" in
    Ok {| ca_witness := witness; ca_ids := ids; ca_walk := walk |}.

Definition assert_bounded_for_rgb_lib (t : Transfer) (file_len : Z) (listed : bool) : enclave_result unit :=
  let? costs := capped_costs t listed in
  assert_within (rgb_lib_ns file_len (uncapped_costs t) costs) MAX_RGB_LIB_NS
    "ns of rgb-lib time on its file and work together".

End Costs.

(** * Theorems on the work bounds

    The costs are compared with exact numbers: sums in [Z] that never saturate,
    and for the walk the operations that an origin descends from, each
    counted with its inputs.  The stamps, budgets and groups of the walk and
    the saturation change no verdict. *)

(** ** Saturation *)

Definition clamp (x : Z) : Z := Z.min x u64_max.

Lemma clamp_le x cap : cap < u64_max -> clamp x <= cap <-> x <= cap.
Proof. unfold clamp. lia. Qed.

Lemma clamp_add a b : 0 <= a -> 0 <= b -> sat_add64 (clamp a) (clamp b) = clamp (a + b).
Proof. unfold sat_add64, clamp, u64_max. lia. Qed.

Lemma clamp_mul a b : 0 <= a -> 0 <= b -> sat_mul64 (clamp a) (clamp b) = clamp (a * b).
Proof.
  unfold sat_mul64, clamp. intros Ha Hb. assert (Hm : 0 < u64_max) by done. generalize dependent u64_max.
  intros m Hm. destruct (Z.le_gt_cases a m), (Z.le_gt_cases b m).
  - by rewrite (Z.min_l a), (Z.min_l b) by lia.
  - rewrite (Z.min_l a), (Z.min_r b) by lia. destruct (Z.eq_dec a 0) as [->|]; [done|].
    rewrite !Z.min_r by nia. done.
  - rewrite (Z.min_r a), (Z.min_l b) by lia. destruct (Z.eq_dec b 0) as [->|]; [by rewrite !Z.mul_0_r|].
    rewrite !Z.min_r by nia. done.
  - rewrite !(Z.min_r _ m) by nia. done.
Qed.

Lemma clamp_id x : x <= u64_max -> clamp x = x.
Proof. unfold clamp. lia. Qed.

Lemma clamp_nonneg x : 0 <= x -> 0 <= clamp x.
Proof. unfold clamp, u64_max. lia. Qed.

Lemma sum_of_nonneg l : Forall (Z.le 0) l -> 0 <= sum_of l.
Proof. induction 1; cbn; [done|]. unfold sum_of in *. lia. Qed.

Lemma sat_sum_clamp l acc :
  0 <= acc -> Forall (Z.le 0) l -> sat_sum (clamp acc) (map clamp l) = clamp (acc + sum_of l).
Proof.
  intros Hacc Hl. revert acc Hacc. unfold sat_sum. induction Hl as [|x l Hx Hl IH]; intros acc Hacc; cbn.
  - by rewrite Z.add_0_r.
  - rewrite clamp_add by done. rewrite IH by lia. f_equal. unfold sum_of. lia.
Qed.

Lemma sum_of_perm l l' : l ≡ₚ l' -> sum_of l = sum_of l'.
Proof. unfold sum_of. induction 1; cbn; lia. Qed.

(** ** What an operation descends from *)

Section Graph.
Context (ks : list KnownTransition).

(** The operations that [o] spends from, by its last known transition. *)
Definition inputs_of (o : bytes) : list bytes :=
  match last (filter (fun k => known_opid k = o) ks) with
  | Some k => map op (t_inputs (known_transition k))
  | None => []
  end.

Definition spends (o i : bytes) : Prop := i ∈ inputs_of o.

Definition input_ops : gset bytes :=
  list_to_set (flat_map (fun k => map op (t_inputs (known_transition k))) ks).

Definition grow (V : gset bytes) : gset bytes := V ∪ list_to_set (flat_map inputs_of (elements V)).

Fixpoint closure (n : nat) (V : gset bytes) : gset bytes :=
  match n with O => V | S n => closure n (grow V) end.

(** The operations that [o] descends from, with itself. *)
Definition reach (o : bytes) : gset bytes := closure (S (size ({[o]} ∪ input_ops))) {[o]}.

Lemma elem_of_grow V v : v ∈ grow V <-> v ∈ V \/ exists u, u ∈ V /\ spends u v.
Proof.
  unfold grow, spends. rewrite elem_of_union, elem_of_list_to_set, list_elem_of_In, in_flat_map.
  setoid_rewrite <- list_elem_of_In. by setoid_rewrite elem_of_elements.
Qed.

Lemma inputs_of_sub o i : spends o i -> i ∈ input_ops.
Proof.
  unfold spends, inputs_of, input_ops. destruct (last _) as [k|] eqn:E; [|by intros ?%elem_of_nil].
  apply last_Some_elem_of, list_elem_of_filter in E as [_ Hk]. intros Hi.
  rewrite elem_of_list_to_set, list_elem_of_In, in_flat_map. exists k. by rewrite <- !list_elem_of_In.
Qed.

Definition closed (V : gset bytes) : Prop := forall u v, u ∈ V -> spends u v -> v ∈ V.

Lemma closed_grow V : closed V -> grow V = V.
Proof. intros H. apply set_eq. intros v. rewrite elem_of_grow. split; [|by left]. intros [?|(u & ? & ?)]; eauto. Qed.

Lemma grow_closed V : grow V = V -> closed V.
Proof. intros H u v Hu Hs. rewrite <- H. apply elem_of_grow. right. by exists u. Qed.

Lemma closure_fix n V : grow V = V -> closure n V = V.
Proof. intros H. induction n; [done|]. cbn. by rewrite H. Qed.

Lemma closure_closed n U V :
  V ⊆ U -> input_ops ⊆ U -> (size U < size V + n)%nat -> closed (closure n V).
Proof.
  intros HV HU. revert V HV. induction n as [|n IH]; intros V HV Hn.
  - apply subseteq_size in HV. lia.
  - cbn. destruct (decide (grow V = V)) as [E|Hne].
    + rewrite E, closure_fix by done. by apply grow_closed.
    + assert (Hsub : V ⊆ grow V) by (intros v Hv; apply elem_of_grow; by left). apply IH.
      * intros v [?|(u & _ & Hs)]%elem_of_grow; [set_solver|]. by eapply HU, inputs_of_sub.
      * assert (size V < size (grow V))%nat; [|lia]. apply subset_size. set_solver.
Qed.

Lemma closure_sound n V v : v ∈ closure n V -> exists u, u ∈ V /\ rtc spends u v.
Proof.
  revert V. induction n as [|n IH]; intros V Hv; [by exists v|]. cbn in Hv.
  apply IH in Hv as (u & Hu & Huv). apply elem_of_grow in Hu as [Hu|(w & Hw & Hs)]; [by exists u|].
  exists w. split; [done|]. by eapply rtc_l.
Qed.

Lemma closure_mono n V : V ⊆ closure n V.
Proof.
  revert V. induction n as [|n IH]; intros V; [done|]. cbn. etransitivity; [|apply IH].
  intros v Hv. apply elem_of_grow. by left.
Qed.

Lemma closed_reach o : closed (reach o).
Proof. unfold reach. apply (closure_closed _ ({[o]} ∪ input_ops)); [set_solver..|]. rewrite size_singleton. lia. Qed.

Lemma reach_self o : o ∈ reach o.
Proof. apply closure_mono. set_solver. Qed.

Lemma reach_spec o v : v ∈ reach o <-> rtc spends o v.
Proof.
  split.
  - intros (u & ->%elem_of_singleton & H)%closure_sound. exact H.
  - intros H. pose proof (reach_self o) as Ho. pose proof (closed_reach o) as Hc.
    revert Ho. generalize dependent (reach o). intros V HV. induction H as [|x y z Hxy _ IH]; [done|]. intros Hx.
    apply IH. by apply (HV x).
Qed.

(** The inputs of a set of operations. *)
Definition weight (V : gset bytes) : Z := sum_of (map (fun o => zlen (inputs_of o)) (elements V)).

Lemma weight_nonneg V : 0 <= weight V.
Proof. apply sum_of_nonneg, Forall_forall. intros x. rewrite list_elem_of_fmap. intros (o & -> & _). unfold zlen. lia. Qed.

Lemma weight_remove V o : o ∈ V -> weight V = zlen (inputs_of o) + weight (V ∖ {[o]}).
Proof.
  intros Ho. unfold weight. assert (E : V = {[o]} ∪ (V ∖ {[o]})) by (by apply union_difference_singleton_L).
  rewrite E at 1. rewrite (sum_of_perm _ (map (fun o => zlen (inputs_of o)) (o :: elements (V ∖ {[o]})))); [done|].
  apply Permutation_map. rewrite elements_union_singleton; [done|set_solver].
Qed.

(** One walk: each operation descended from is popped once for every input that
    leads to it, and each of its inputs is counted. *)
Definition walk_work (o : bytes) : Z := 1 + 2 * weight (reach o).

End Graph.

(** The walk of every origin, each with its own visited set. *)
Definition reject_walk_work `{TransferStd} (t : Transfer) : Z :=
  sum_of (map (fun o => walk_work (transfer_transitions t) (op o)) (elements (reject_check_origins t))).

(** ** The graph *)

(** Nodes are numbered without a clash, below the number of nodes. *)
Record graph_ok (g : OpGraph) : Prop := {
  index_bound o n : og_index g !! o = Some n -> (n < length (og_parents g))%nat;
  index_inj o o' n : og_index g !! o = Some n -> og_index g !! o' = Some n -> o = o'
}.

(** The operation of a node. *)
Definition named (g : OpGraph) (o : bytes) (n : nat) : Prop := og_index g !! o = Some n.

(** The parents of the nodes are those of [ks]. *)
Definition graph_is (ks : list KnownTransition) (g : OpGraph) : Prop :=
  graph_ok g /\
  forall o n, named g o n -> exists ps, og_parents g !! n = Some ps /\ Forall2 (named g) (inputs_of ks o) ps.

Definition extends_graph (g g' : OpGraph) : Prop :=
  og_index g ⊆ og_index g' /\
  (forall n ps, og_parents g !! n = Some ps -> og_parents g' !! n = Some ps) /\
  (forall o n, named g' o n -> og_index g !! o = None -> og_parents g' !! n = Some []).

Lemma extends_refl g : extends_graph g g.
Proof. split_and!; [done|done|]. unfold named. intros o n H H'. congruence. Qed.

Lemma extends_trans g1 g2 g3 : extends_graph g1 g2 -> extends_graph g2 g3 -> extends_graph g1 g3.
Proof.
  intros (A1 & B1 & C1) (A2 & B2 & C2). split_and!.
  - by etransitivity.
  - intros n ps H. by apply B2, B1.
  - intros o n H H1. destruct (og_index g2 !! o) as [m|] eqn:E.
    + assert (n = m) as -> by (unfold named in H; pose proof (lookup_weaken _ _ _ _ E A2); congruence).
      by apply B2, (C1 o).
    + by apply (C2 o).
Qed.

Lemma graph_node_ok g o :
  graph_ok g ->
  graph_ok (graph_node g o).1 /\ extends_graph g (graph_node g o).1 /\ named (graph_node g o).1 o (graph_node g o).2.
Proof.
  intros Hg. unfold graph_node, named. destruct (og_index g !! o) as [n|] eqn:E; cbn [default fst snd from_option id].
  - pose proof (index_bound _ Hg _ _ E). destruct (Nat.eqb_spec n (length (og_parents g))); [lia|].
    replace {| og_index := og_index g; og_parents := og_parents g |} with g by (by destruct g).
    split; [done|]. split; [apply extends_refl|done].
  - rewrite Nat.eqb_refl. split; [|split; [|cbn; by rewrite lookup_insert_eq]].
    + split; cbn.
      * intros o' n. rewrite length_app. cbn. rewrite lookup_insert_Some. intros [[_ <-]|[_ H]]; [lia|].
        apply (index_bound _ Hg) in H. lia.
      * intros o1 o2 n. rewrite !lookup_insert_Some.
        intros [[<- <-]|[_ H1]] [[<- E2]|[_ H2]]; [done| | |by eapply index_inj].
        -- apply (index_bound _ Hg) in H2. lia.
        -- subst n. apply (index_bound _ Hg) in H1. lia.
    + split_and!; cbn.
      * by apply insert_subseteq.
      * intros n ps H. by apply lookup_app_l_Some.
      * unfold named. cbn. intros o' n. rewrite lookup_insert_Some.
        intros [[_ <-]|[_ H]] Hn; [|congruence]. by rewrite lookup_app_r, Nat.sub_diag by lia.
Qed.

Lemma named_extends g g' o n : extends_graph g g' -> named g o n -> named g' o n.
Proof. intros (H & _) Hn. by eapply lookup_weaken. Qed.

Lemma graph_nodes_ok g ops :
  graph_ok g ->
  graph_ok (graph_nodes g ops).1 /\ extends_graph g (graph_nodes g ops).1 /\
  Forall2 (named (graph_nodes g ops).1) ops (graph_nodes g ops).2.
Proof.
  revert g. induction ops as [|o ops IH]; intros g Hg; [by split; [|split; [apply extends_refl|]]|]. cbn [graph_nodes].
  destruct (graph_node_ok g o Hg) as (H1 & H2 & H3). destruct (graph_node g o) as [g1 n]. cbn [fst snd] in *.
  destruct (IH g1 H1) as (H4 & H5 & H6). destruct (graph_nodes g1 ops) as [g2 ns]. cbn [fst snd] in *.
  split; [done|]. split; [by eapply extends_trans|]. constructor; [|done]. by apply (named_extends g1).
Qed.

Lemma inputs_of_snoc ks k o :
  inputs_of (ks ++ [k]) o =
  if decide (known_opid k = o) then map op (t_inputs (known_transition k)) else inputs_of ks o.
Proof.
  unfold inputs_of. rewrite filter_app, filter_cons, filter_nil. destruct (decide _).
  - by rewrite last_snoc.
  - by rewrite app_nil_r.
Qed.

(** A node added to the graph has no parents, and no transition yet. *)
Lemma graph_is_extends ks g g' :
  graph_ok g' -> extends_graph g g' -> graph_is ks g -> (forall k, k ∈ ks -> is_Some (og_index g !! known_opid k)) ->
  graph_is ks g'.
Proof.
  intros Hok Hx [_ Hg] Hks. split; [done|]. intros o n Hn. destruct (og_index g !! o) as [m|] eqn:E.
  - assert (n = m) as -> by (pose proof (named_extends _ _ _ _ Hx E); unfold named in *; congruence).
    destruct (Hg o m E) as (ps & Hps & Hall). exists ps. split; [by apply Hx|].
    eapply Forall2_impl; [exact Hall|]. intros. by eapply named_extends.
  - exists []. split; [by apply (proj2 (proj2 Hx) o)|]. unfold inputs_of.
    destruct (last _) as [k|] eqn:El; [|constructor]. apply last_Some_elem_of, list_elem_of_filter in El as [<- Hk].
    apply Hks in Hk as [? Hk]. congruence.
Qed.

Definition ops_named (ks : list KnownTransition) (g : OpGraph) : Prop :=
  forall k, k ∈ ks -> is_Some (og_index g !! known_opid k) /\
    Forall (fun i => is_Some (og_index g !! op i)) (t_inputs (known_transition k)).

Lemma graph_add_ok ks g k :
  graph_is ks g -> ops_named ks g -> graph_is (ks ++ [k]) (graph_add g k) /\ ops_named (ks ++ [k]) (graph_add g k).
Proof.
  intros Hg Hn. unfold graph_add. destruct (graph_node_ok g (known_opid k) (proj1 Hg)) as (H1 & X1 & N1).
  destruct (graph_node g (known_opid k)) as [g1 n]. cbn [fst snd] in *.
  destruct (graph_nodes_ok g1 (map op (t_inputs (known_transition k))) H1) as (H2 & X2 & N2).
  destruct (graph_nodes g1 _) as [g2 ns]. cbn [fst snd] in *.
  assert (X : extends_graph g g2) by (by eapply extends_trans).
  assert (Hg2 : graph_is ks g2) by (apply (graph_is_extends _ g); [done..|]; intros k' Hk'; by apply Hn).
  assert (Nk : named g2 (known_opid k) n) by (by apply (named_extends g1)).
  split; [split|].
  - split; cbn; [|apply H2]. intros o m. rewrite length_insert. apply H2.
  - intros o m Ho. unfold named in Ho. cbn in Ho. rewrite inputs_of_snoc. cbn [og_parents].
    destruct (decide (known_opid k = o)) as [<-|Hne].
    + assert (m = n) as -> by (unfold named in Nk; congruence). exists ns. split; [|done].
      apply list_lookup_insert_eq. by eapply index_bound.
    + destruct (proj2 Hg2 o m Ho) as (ps & Hps & Hall). exists ps. split; [|done].
      rewrite list_lookup_insert_ne; [done|]. intros ->. apply Hne. by eapply (index_inj _ H2).
  - intros k' [Hk'|Hk']%elem_of_app; [|apply list_elem_of_singleton in Hk' as ->].
    + destruct (Hn k' Hk') as [[m Hm] Hall]. split; [exists m; by apply (named_extends g g2)|].
      eapply Forall_impl; [exact Hall|]. intros i [x Hx]. exists x. by apply (named_extends g g2).
    + split; [by exists n|]. cbn. apply Forall_forall. intros i Hi.
      assert (Hi' : op i ∈ map op (t_inputs (known_transition k))) by (by apply list_elem_of_fmap_2).
      apply list_elem_of_lookup_1 in Hi' as [j Hj]. eapply Forall2_lookup_l in N2 as (m & _ & Hm); [|exact Hj].
      by exists m.
Qed.

Lemma graph_of_ok (t : Transfer) :
  graph_is (transfer_transitions t) (graph_of t) /\ ops_named (transfer_transitions t) (graph_of t).
Proof.
  unfold graph_of. induction (transfer_transitions t) as [|k ks IH] using rev_ind.
  - split; [split|]; [split; cbn; intros *; by rewrite lookup_empty|intros o n; unfold named; cbn; by rewrite lookup_empty|].
    by intros k ?%elem_of_nil.
  - rewrite foldl_snoc. destruct IH. by apply graph_add_ok.
Qed.

(** ** One walk *)

Section Walk.
Context (ks : list KnownTransition) (g : OpGraph) (Hg : graph_is ks g).
Context (walk budget : Z) (from : bytes).

Abbreviation R := (reach ks from).

(** The state of the loop read on operations: [V] are the expanded ones. *)
Record walk_inv (V : gset bytes) (stack : list bytes) (nodes : list nat) (seen : list Z) : Prop := {
  w_stack : Forall2 (named g) stack nodes;
  w_seen : length seen = length (og_parents g);
  w_stamp o n : named g o n -> seen !! n = Some walk <-> o ∈ V;
  w_sub : V ⊆ R;
  w_stack_sub : Forall (.∈ R) stack;
  w_children u v : u ∈ V -> spends ks u v -> v ∈ V \/ v ∈ stack;
  w_from : from ∈ V \/ from ∈ stack
}.

(** The steps the walk takes in all. *)
Definition walk_total (V : gset bytes) (stack : list bytes) (steps : Z) : Z :=
  steps + zlen stack + 2 * weight ks (R ∖ V).

Lemma walk_inv_seen V o stack n nodes seen :
  walk_inv V (o :: stack) (n :: nodes) seen -> o ∈ V -> walk_inv V stack nodes seen.
Proof.
  intros [H1 H2 H3 H4 H5 H6 H7] Ho. apply Forall2_cons in H1 as [_ H1]. apply Forall_cons in H5 as [_ H5].
  split; [done..| |].
  - intros u v Hu Hs. destruct (H6 u v Hu Hs) as [?|[->|?]%elem_of_cons]; auto.
  - destruct H7 as [?|[->|?]%elem_of_cons]; auto.
Qed.

Lemma walk_inv_expand V o stack n nodes seen ps :
  walk_inv V (o :: stack) (n :: nodes) seen -> o ∉ V -> og_parents g !! n = Some ps ->
  walk_inv ({[o]} ∪ V) (rev (inputs_of ks o) ++ stack) (rev ps ++ nodes) (<[n := walk]> seen).
Proof.
  intros [H1 H2 H3 H4 H5 H6 H7] Ho Hps. apply Forall2_cons in H1 as [Hn H1]. apply Forall_cons in H5 as [Hr H5].
  destruct (proj2 Hg o n Hn) as (ps' & Hps' & Hall). assert (ps' = ps) as -> by congruence.
  split.
  - apply Forall2_app; [|done]. rewrite !rev_alt. by apply Forall2_reverse.
  - by rewrite length_insert.
  - intros o' n' Hn'. destruct (decide (n' = n)) as [->|Hne].
    + assert (o' = o) as -> by (by eapply (index_inj _ (proj1 Hg))).
      rewrite list_lookup_insert_eq by (rewrite H2; by eapply (index_bound _ (proj1 Hg))). set_solver.
    + rewrite list_lookup_insert_ne by done. rewrite (H3 o' n' Hn'). assert (o' <> o); [|set_solver].
      intros ->. unfold named in *. congruence.
  - set_solver.
  - apply Forall_app. split; [|done]. apply Forall_forall. intros i Hi.
    apply (closed_reach ks from o i Hr). unfold spends. by rewrite list_elem_of_In, in_rev, <- list_elem_of_In.
  - intros u v Hu Hs. rewrite elem_of_app. apply elem_of_union in Hu as [->%elem_of_singleton|Hu].
    + right. left. by rewrite list_elem_of_In, <- in_rev, <- list_elem_of_In.
    + destruct (H6 u v Hu Hs) as [?|[->|?]%elem_of_cons]; set_solver.
  - rewrite elem_of_app. destruct H7 as [?|[->|?]%elem_of_cons]; set_solver.
Qed.

Lemma walk_done V seen : walk_inv V [] [] seen -> V = R.
Proof.
  intros [_ _ _ Hs _ Hc Hf]. apply set_eq. intros v. split; [apply Hs|]. rewrite reach_spec.
  assert (Hfrom : from ∈ V) by (by destruct Hf as [?|?%elem_of_nil]).
  assert (Hcl : forall x z, rtc (spends ks) x z -> x ∈ V -> z ∈ V); [|intros Hr; by apply (Hcl from)].
  clear Hf Hfrom. induction 1 as [|x y z Hxy _ IH]; [done|]. intros Hx. apply IH.
  by destruct (Hc x y Hx Hxy) as [?|?%elem_of_nil].
Qed.

(** The steps of a walk that is not cut short, and otherwise more than its budget. *)
Lemma walk_loop_exact fuel V stack nodes seen steps :
  walk_inv V stack nodes seen -> zlen stack + weight ks (R ∖ V) < Z.of_nat fuel ->
  let r := walk_loop fuel (og_parents g) walk budget nodes seen steps in
  length (fst r) = length (og_parents g) /\
  (forall x, x ∈ fst r -> x = walk \/ x ∈ seen) /\
  (walk_total V stack steps <= budget -> snd r = walk_total V stack steps) /\
  (budget < walk_total V stack steps -> budget < snd r).
Proof.
  revert V stack nodes seen steps. induction fuel as [|fuel IH]; intros V stack nodes seen steps Hi Hf.
  { pose proof (weight_nonneg ks (R ∖ V)). unfold zlen in Hf. lia. }
  pose proof (w_seen _ _ _ _ Hi) as Hlen. pose proof (w_stack _ _ _ _ Hi) as Hst. cbv zeta.
  destruct Hst as [|o n stack nodes Hn Hst]; cbn [walk_loop].
  - cbn [fst snd]. unfold walk_total. rewrite (walk_done V seen Hi).
    replace (R ∖ R) with (∅ : gset bytes) by set_solver. unfold weight. rewrite elements_empty. cbn.
    change (zlen []) with 0. split_and!; [done|by right|lia|lia].
  - destruct (Z.ltb_spec budget (steps + 1)) as [Hb|Hb].
    { cbn [fst snd]. split_and!; [done|by right| |lia]. intros H. exfalso.
      pose proof (weight_nonneg ks (R ∖ V)). unfold walk_total, zlen in H. cbn [length] in H. lia. }
    case_bool_decide as Hs; rewrite (w_stamp _ _ _ _ Hi o n Hn) in Hs.
    + assert (Ht : walk_total V (o :: stack) steps = walk_total V stack (steps + 1))
        by (unfold walk_total, zlen; cbn [length]; lia).
      rewrite Ht. apply IH; [by eapply walk_inv_seen|]. unfold zlen in *. cbn [length] in Hf. lia.
    + destruct (proj2 Hg o n Hn) as (ps & Hps & Hall). rewrite Hps. cbn [default from_option].
      assert (Hro : o ∈ R ∖ V) by (pose proof (w_stack_sub _ _ _ _ Hi) as H; apply Forall_cons in H; set_solver).
      assert (Hz : zlen (inputs_of ks o) = zlen ps) by (unfold zlen; by rewrite (Forall2_length _ _ _ Hall)).
      assert (Hw : weight ks (R ∖ V) = zlen ps + weight ks (R ∖ ({[o]} ∪ V))).
      { rewrite (weight_remove ks _ o Hro), Hz. do 2 f_equal. set_solver. }
      assert (Ht : walk_total V (o :: stack) steps =
        walk_total ({[o]} ∪ V) (rev (inputs_of ks o) ++ stack) (steps + 1 + zlen ps)).
      { unfold walk_total. rewrite Hw. unfold zlen in *. rewrite length_app, length_rev. cbn [length]. lia. }
      rewrite Ht. destruct (IH ({[o]} ∪ V) (rev (inputs_of ks o) ++ stack) (rev ps ++ nodes) (<[n:=walk]> seen)
        (steps + 1 + zlen ps)) as (A1 & A2 & A3 & A4).
      * by apply walk_inv_expand.
      * rewrite Hw in Hf. unfold zlen in *. rewrite length_app, length_rev. cbn [length] in Hf. lia.
      * split_and!; [done| |done|done]. intros x Hx. destruct (A2 x Hx) as [->|Hin]; [by left|].
        apply list_elem_of_lookup_1 in Hin as [i [(_ & <- & _)|[_ Hin]]%list_lookup_insert_Some]; [by left|].
        right. by eapply list_elem_of_lookup_2.
Qed.

End Walk.

Lemma edge_count_clear P n :
  (edge_count P = length (default [] (P !! n)) + edge_count (<[n := []]> P))%nat.
Proof.
  unfold edge_count. revert n. induction P as [|ps P IH]; intros [|n]; [done..|].
  change ((ps :: P) !! S n) with (P !! n). change (<[S n:=[]]> (ps :: P)) with (ps :: <[n:=[]]> P).
  cbn [foldr]. rewrite (IH n). lia.
Qed.

Lemma edge_count_sum P ns :
  NoDup ns -> sum_of (map (fun n => zlen (default [] (P !! n))) ns) <= Z.of_nat (edge_count P).
Proof.
  intros H. revert P. induction H as [|n ns Hn _ IH]; intros P; [cbn; lia|].
  rewrite (edge_count_clear P n). specialize (IH (<[n:=[]]> P)).
  replace (map (fun n0 => zlen (default [] (P !! n0))) (n :: ns))
    with (zlen (default [] (P !! n)) :: map (fun m => zlen (default [] (<[n:=[]]> P !! m))) ns).
  - cbn [sum_of foldr]. unfold sum_of in *. unfold zlen at 1. lia.
  - cbn [map]. f_equal. apply map_ext_in. intros m Hm. rewrite list_lookup_insert_ne; [done|].
    intros ->. apply Hn. by apply list_elem_of_In.
Qed.

Section Walks.
Context (ks : list KnownTransition) (g : OpGraph) (Hg : graph_is ks g).

Lemma named_reach o n v : named g o n -> rtc (spends ks) o v -> exists m, named g v m.
Proof.
  intros Hn H. revert n Hn. induction H as [o|o i v Hi _ IH]; intros n Hn; [by exists n|].
  destruct (proj2 Hg o n Hn) as (ps & _ & Hall). apply list_elem_of_lookup_1 in Hi as [j Hj].
  eapply Forall2_lookup_l in Hall as (m & _ & Hm); [|exact Hj]. by apply (IH m).
Qed.

Lemma weight_edges (l : list bytes) :
  NoDup l -> Forall (fun o => exists n, named g o n) l ->
  sum_of (map (fun o => zlen (inputs_of ks o)) l) <= Z.of_nat (edge_count (og_parents g)).
Proof.
  intros Hnd Hl. apply Forall_exists_Forall2_l in Hl as [ns Hns].
  assert (Hnn : NoDup ns).
  { apply NoDup_alt. intros i j n Hi Hj.
    destruct (Forall2_lookup_r _ _ _ _ _ Hns Hi) as (o & Ho & Hon).
    destruct (Forall2_lookup_r _ _ _ _ _ Hns Hj) as (o' & Ho' & Hon').
    assert (o = o') as <- by (by eapply (index_inj _ (proj1 Hg))). by eapply NoDup_lookup. }
  etransitivity; [|by apply (edge_count_sum _ ns)]. apply Z.eq_le_incl. f_equal. clear Hnd Hnn.
  induction Hns as [|o n l ns Ho _ IH]; [done|]. cbn [map]. f_equal; [|exact IH].
  destruct (proj2 Hg o n Ho) as (ps & -> & Hall). cbn. unfold zlen. by rewrite (Forall2_length _ _ _ Hall).
Qed.

Lemma walk_work_pos o : 0 < walk_work ks o.
Proof. unfold walk_work. pose proof (weight_nonneg ks (reach ks o)). lia. Qed.

Lemma walk_steps_exact o n walk seen budget :
  named g o n -> length seen = length (og_parents g) -> Forall (fun x => x < walk) seen ->
  let r := walk_steps g n walk seen budget in
  length (fst r) = length (og_parents g) /\ Forall (fun x => x < walk + 1) (fst r) /\
  (walk_work ks o <= budget -> snd r = walk_work ks o) /\ (budget < walk_work ks o -> budget < snd r).
Proof.
  intros Hn Hlen Hs. cbv zeta. unfold walk_steps.
  assert (Hw : walk_work ks o = walk_total ks o ∅ [o] 0).
  { unfold walk_work, walk_total. rewrite difference_empty_L. change (zlen [o]) with 1. lia. }
  rewrite Hw. destruct (walk_loop_exact ks g Hg walk budget o (2 + edge_count (og_parents g)) ∅ [o] [n] seen 0)
    as (A1 & A2 & A3 & A4).
  - split; [by repeat constructor|done| |set_solver| |set_solver|set_solver].
    + intros o' n' _. split; [|set_solver]. intros H%list_elem_of_lookup_2. rewrite Forall_forall in Hs.
      specialize (Hs walk H). cbn in Hs. lia.
    + constructor; [apply reach_self|constructor].
  - rewrite difference_empty_L. change (zlen [o]) with 1. unfold weight.
    assert (Hb := weight_edges (elements (reach ks o)) (NoDup_elements _)). rewrite Nat2Z.inj_add.
    assert (Hall : Forall (fun o => exists n, named g o n) (elements (reach ks o))); [|specialize (Hb Hall); lia].
    apply Forall_forall. intros v Hv. rewrite elem_of_elements, reach_spec in Hv. by eapply named_reach.
  - split_and!; [done| |done|done]. apply Forall_forall. intros x Hx. destruct (A2 x Hx) as [->|Hin]; [lia|].
    rewrite Forall_forall in Hs. specialize (Hs x Hin). cbn in Hs. lia.
Qed.

(** The work of the operation of a node. *)
Definition node_work (n : nat) : Z :=
  match list_find (fun p => p.2 = n) (map_to_list (og_index g)) with
  | Some (_, (o, _)) => walk_work ks o
  | None => 0
  end.

Lemma node_work_named o n : named g o n -> node_work n = walk_work ks o.
Proof.
  intros Hn. unfold node_work. destruct (list_find _ _) as [[i [o' n']]|] eqn:E.
  - apply list_find_Some in E as (Hi & Heq & _). cbn in Heq. subst n'.
    apply list_elem_of_lookup_2, elem_of_map_to_list in Hi. f_equal. by eapply (index_inj _ (proj1 Hg)).
  - apply list_find_None in E. rewrite Forall_forall in E. destruct (E (o, n)); [|done].
    by apply elem_of_map_to_list.
Qed.

Definition groups_work (l : list (nat * Z)) : Z := sum_of (map (fun p => p.2 * node_work p.1) l).

Definition groups_ok (l : list (nat * Z)) : Prop := Forall (fun p => 0 < p.2 /\ exists o, named g o p.1) l.

Lemma groups_work_nonneg l : groups_ok l -> 0 <= groups_work l.
Proof.
  intros H. apply sum_of_nonneg, Forall_fmap. eapply Forall_impl; [exact H|]. intros [n c] [Hc [o Ho]]. cbn in *.
  rewrite (node_work_named o n Ho). pose proof (walk_work_pos o). nia.
Qed.

Lemma walk_all_exact cap l walk seen total :
  0 <= total <= cap -> cap < u64_max -> groups_ok l ->
  length seen = length (og_parents g) -> Forall (fun x => x < walk) seen ->
  (total + groups_work l <= cap -> walk_all g cap walk l seen total = total + groups_work l) /\
  (cap < total + groups_work l -> cap < walk_all g cap walk l seen total).
Proof.
  intros Ht Hcap Hl. revert walk seen total Ht. induction Hl as [|[n c] l [Hc [o Ho]] Hl IH]; intros walk seen total Ht Hlen Hs.
  { unfold groups_work. cbn. lia. }
  cbn [fst snd] in Hc, Ho. cbn [walk_all].
  set (budget := sat_add64 ((cap - total) / c) 1).
  destruct (walk_steps_exact o n walk seen budget Ho Hlen Hs) as (A1 & A2 & A3 & A4).
  destruct (walk_steps g n walk seen budget) as [seen' steps]. cbn [fst snd] in *.
  change (groups_work ((n, c) :: l)) with (c * node_work n + groups_work l). rewrite (node_work_named o n Ho).
  pose proof (walk_work_pos o) as Hpos. pose proof (groups_work_nonneg l Hl) as Hg0.
  assert (Hbud : budget = (cap - total) / c + 1).
  { unfold budget, sat_add64. apply Z.min_l. assert ((cap - total) / c <= cap - total) by (apply Z.div_le_upper_bound; nia). lia. }
  pose proof (Z.mul_succ_div_gt (cap - total) c Hc) as Hdiv.
  destruct (Z.le_gt_cases (walk_work ks o) budget) as [Hle|Hgt].
  - rewrite (A3 Hle). unfold sat_add64, sat_mul64.
    destruct (Z.ltb_spec cap (Z.min (total + Z.min (c * walk_work ks o) u64_max) u64_max)) as [Hov|Hin]; [split; lia|].
    rewrite !Z.min_l by lia. destruct (IH (walk + 1) seen' (total + c * walk_work ks o)) as [B1 B2]; [nia|done|done|].
    rewrite Z.add_assoc. by split.
  - specialize (A4 Hgt). assert (cap - total < c * steps) by nia. assert (cap - total < c * walk_work ks o) by nia.
    unfold sat_add64, sat_mul64.
    destruct (Z.ltb_spec cap (Z.min (total + Z.min (c * steps) u64_max) u64_max)) as [Hov|Hin]; split; lia.
Qed.

End Walks.

(** ** All walks *)

Section Origins.
Context (ks : list KnownTransition) (g : OpGraph) (Hg : graph_is ks g).

Lemma graph_node_named o n : named g o n -> graph_node g o = (g, n).
Proof.
  unfold named. intros Hn. unfold graph_node. rewrite Hn. cbn [default from_option id].
  pose proof (index_bound _ (proj1 Hg) _ _ Hn). destruct (Nat.eqb_spec n (length (og_parents g))); [lia|].
  by destruct g.
Qed.

Lemma groups_work_insert m n :
  groups_work ks g (map_to_list (<[n := default 0 (m !! n) + 1]> m)) =
  node_work ks g n + groups_work ks g (map_to_list m).
Proof.
  unfold groups_work. destruct (m !! n) as [c|] eqn:E; cbn [default from_option id].
  - rewrite <- (insert_delete_id m n c E) at 2. rewrite <- insert_delete_eq.
    rewrite !(sum_of_perm _ _ (Permutation_map _ (map_to_list_insert _ _ _ (lookup_delete_eq _ _)))).
    cbn [map sum_of foldr fst snd]. unfold sum_of. lia.
  - rewrite (sum_of_perm _ _ (Permutation_map _ (map_to_list_insert _ _ _ E))).
    cbn [map sum_of foldr fst snd]. unfold sum_of. lia.
Qed.

Lemma count_origins_exact (l : list Opout) m :
  Forall (fun o => exists n, named g (op o) n) l -> groups_ok g (map_to_list m) ->
  exists m', count_origins g l m = (g, m') /\ groups_ok g (map_to_list m') /\
    groups_work ks g (map_to_list m') =
      sum_of (map (fun o => walk_work ks (op o)) l) + groups_work ks g (map_to_list m).
Proof.
  intros Hl. revert m. induction Hl as [|o l [n Hn] _ IH]; intros m Hm; [by exists m|]. cbn [count_origins].
  rewrite (graph_node_named _ n Hn). destruct (IH (<[n := default 0 (m !! n) + 1]> m)) as (m' & E & Hok & Hw).
  - unfold groups_ok in *. rewrite Forall_forall in Hm |- *. intros [n' c'] [[<- <-]|[_ Hin]]%elem_of_map_to_list%lookup_insert_Some.
    + cbn. split; [|by exists (op o)]. destruct (m !! n) as [c|] eqn:E; cbn; [|lia].
      apply elem_of_map_to_list, Hm in E as [E _]. cbn in E. lia.
    + by apply Hm, elem_of_map_to_list.
  - exists m'. split_and!; [done|done|]. rewrite Hw, groups_work_insert, (node_work_named ks g Hg (op o) n Hn).
    cbn [map sum_of foldr]. unfold sum_of. lia.
Qed.

End Origins.

Section Work.
Context {T : TransferStd}.

Lemma origins_named (t : Transfer) :
  Forall (fun o => exists n, named (graph_of t) (op o) n) (elements (reject_check_origins t)).
Proof.
  apply Forall_forall. intros o. rewrite elem_of_elements. unfold reject_check_origins.
  rewrite elem_of_list_to_set, list_elem_of_In, in_flat_map. intros (k & Hk & Ho).
  apply list_elem_of_In, list_elem_of_filter in Hk as [_ Hk].
  destruct (proj2 (graph_of_ok t) k Hk) as [[n Hn] Hall]. apply in_app_or in Ho as [Ho|Ho].
  - rewrite Forall_forall in Hall. apply list_elem_of_In in Ho. destruct (Hall o Ho) as [m Hm]. by exists m.
  - apply in_flat_map in Ho as (kv & _ & Ho). apply in_map_iff in Ho as (i & <- & _). by exists n.
Qed.

(** The walk that groups the origins, stops at its budget and stamps what it saw
    gives the verdict of one full walk per origin. *)
Lemma reject_walk_exact (t : Transfer) (cap : Z) :
  0 <= cap < u64_max ->
  (reject_walk_work t <= cap -> reject_walk_cost t cap = reject_walk_work t) /\
  (cap < reject_walk_work t -> cap < reject_walk_cost t cap).
Proof.
  intros Hcap. unfold reject_walk_cost. cbv zeta. destruct (graph_of_ok t) as [Hg _].
  destruct (count_origins_exact _ _ Hg _ ∅ (origins_named t)) as (m & -> & Hok & Hw);
    [unfold groups_ok; rewrite map_to_list_empty; constructor|].
  set (l := merge_sort node_le (map_to_list m)).
  assert (Hperm : l ≡ₚ map_to_list m) by apply merge_sort_Permutation.
  assert (Hl : groups_work (transfer_transitions t) (graph_of t) l = reject_walk_work t).
  { unfold groups_work. rewrite (sum_of_perm _ _ (Permutation_map _ Hperm)). unfold groups_work in Hw. rewrite Hw.
    rewrite map_to_list_empty. cbn. unfold reject_walk_work. lia. }
  rewrite <- Hl. apply (walk_all_exact _ _ Hg cap l 1 _ 0); [lia|lia| |by rewrite length_replicate|].
  - unfold groups_ok. by rewrite Hperm.
  - apply Forall_forall. intros x [-> _]%elem_of_replicate. lia.
Qed.

(** ** The other costs, exactly *)

Definition witness_work (t : Transfer) : Z :=
  sum_of (map (fun wb =>
      zlen (known_transitions (wb_bundle wb)) * (tx_total_size (wb_tx wb) + partner_leaf_len (wb_anchor wb))
      + sum_of (map (fun k => zlen (t_inputs (known_transition k))) (known_transitions (wb_bundle wb)))
        * zlen (tx_input (wb_tx wb)))
    (tr_bundles t)).

Definition bundle_id_work (t : Transfer) : Z :=
  sum_of (map (fun wb =>
      (zlen (known_transitions (wb_bundle wb)) + 1) * Z.of_nat (size (input_map (wb_bundle wb))))
    (tr_bundles t)).

Definition opouts (t : Transfer) : Z :=
  legs_count (g_assignments (tr_genesis t)) +
  sum_of (map (fun k => legs_count (assignments (known_transition k)) + zlen (t_inputs (known_transition k)))
    (transfer_transitions t)).

(** Modelled nanoseconds of validation and inspection. *)
Definition time_work (t : Transfer) (file_len walk : Z) : Z :=
  (1100 + 650) * file_len + (55000 + 65000) * opouts t + 15000 * (operation_count t * genesis_leaves t)
  + 90000 * operation_count t + (14 + 8) * witness_work t + 4500 * bundle_id_work t + 75 * walk.

(** Sizes that fit their types. *)
Record sizes_ok (t : Transfer) : Prop := {
  tx_sizes wb : wb ∈ tr_bundles t -> 0 <= tx_total_size (wb_tx wb);
  bundle_sizes wb : wb ∈ tr_bundles t -> zlen (known_transitions (wb_bundle wb)) <= u64_max;
  genesis_size : legs_count (g_assignments (tr_genesis t)) <= u64_max;
  op_count : operation_count t <= u64_max
}.

Lemma legs_count_nonneg a : 0 <= legs_count a.
Proof. apply sum_of_nonneg, Forall_fmap, Forall_forall. intros kv _. apply zlen_nonneg. Qed.

Lemma sat_sum_map {A} (f e : A -> Z) l acc :
  0 <= acc -> (forall a, a ∈ l -> f a = clamp (e a) /\ 0 <= e a) ->
  sat_sum (clamp acc) (map f l) = clamp (acc + sum_of (map e l)).
Proof.
  intros Hacc Hf. rewrite (map_ext_in f (fun a => clamp (e a))), <- (map_map e clamp).
  - apply sat_sum_clamp; [done|]. apply Forall_fmap, Forall_forall. intros a Ha. by apply Hf.
  - intros a Ha. by apply Hf, list_elem_of_In.
Qed.

Lemma sat_sum_map_0 {A} (f e : A -> Z) l :
  (forall a, a ∈ l -> f a = clamp (e a) /\ 0 <= e a) -> sat_sum 0 (map f l) = clamp (sum_of (map e l)).
Proof. intros H. exact (sat_sum_map f e l 0 (Z.le_refl 0) H). Qed.

Lemma sum_of_map_nonneg {A} (e : A -> Z) l : (forall a, a ∈ l -> 0 <= e a) -> 0 <= sum_of (map e l).
Proof. intros H. apply sum_of_nonneg, Forall_fmap, Forall_forall. exact H. Qed.

Lemma partner_leaf_nonneg a : 0 <= partner_leaf_len a.
Proof. unfold partner_leaf_len. destruct (dbc_proof a) as [[[]|]|]; try done. apply zlen_nonneg. Qed.

Lemma seals_nonneg ks : 0 <= sum_of (map (fun k => zlen (t_inputs (known_transition k))) ks).
Proof. apply sum_of_map_nonneg. intros. apply zlen_nonneg. Qed.

Lemma mul_clamp_r a b : 0 <= a <= u64_max -> 0 <= b -> sat_mul64 a (clamp b) = clamp (a * b).
Proof. intros Ha Hb. rewrite <- (clamp_id a) at 1 by lia. apply clamp_mul; lia. Qed.

Lemma witness_exact t : sizes_ok t -> witness_check_cost t = clamp (witness_work t) /\ 0 <= witness_work t.
Proof.
  intros Ht. unfold witness_check_cost, witness_work.
  assert (Hnn : forall wb, wb ∈ tr_bundles t -> 0 <= zlen (known_transitions (wb_bundle wb)) *
    (tx_total_size (wb_tx wb) + partner_leaf_len (wb_anchor wb)) +
    sum_of (map (fun k => zlen (t_inputs (known_transition k))) (known_transitions (wb_bundle wb)))
      * zlen (tx_input (wb_tx wb))).
  { intros wb Hwb. pose proof (tx_sizes t Ht wb Hwb). pose proof (zlen_nonneg (known_transitions (wb_bundle wb))).
    pose proof (zlen_nonneg (tx_input (wb_tx wb))). pose proof (partner_leaf_nonneg (wb_anchor wb)).
    pose proof (seals_nonneg (known_transitions (wb_bundle wb))). nia. }
  split; [|by apply sum_of_map_nonneg]. apply sat_sum_map_0. intros wb Hwb. split; [|by apply Hnn]. cbv zeta.
  pose proof (tx_sizes t Ht wb Hwb). pose proof (partner_leaf_nonneg (wb_anchor wb)).
  pose proof (zlen_nonneg (known_transitions (wb_bundle wb))). pose proof (zlen_nonneg (tx_input (wb_tx wb))).
  pose proof (seals_nonneg (known_transitions (wb_bundle wb))).
  pose proof (bundle_sizes t Ht wb Hwb). unfold sat_add64 at 2. fold (clamp (tx_total_size (wb_tx wb) + partner_leaf_len (wb_anchor wb))).
  rewrite mul_clamp_r by lia.
  apply clamp_add; nia.
Qed.

Lemma bundle_id_exact t : sizes_ok t -> bundle_id_cost t = clamp (bundle_id_work t) /\ 0 <= bundle_id_work t.
Proof.
  intros Ht. unfold bundle_id_cost, bundle_id_work.
  assert (Hnn : forall wb, 0 <= (zlen (known_transitions (wb_bundle wb)) + 1) * Z.of_nat (size (input_map (wb_bundle wb)))).
  { intros wb. pose proof (zlen_nonneg (known_transitions (wb_bundle wb))). nia. }
  split; [|apply sum_of_map_nonneg; auto]. apply sat_sum_map_0. intros wb Hwb. by split; [|apply Hnn].
Qed.

Lemma opouts_exact t : sizes_ok t -> opout_count t = clamp (opouts t) /\ 0 <= opouts t.
Proof.
  intros Ht. unfold opout_count, opouts.
  assert (Hnn : forall k, 0 <= legs_count (assignments (known_transition k)) + zlen (t_inputs (known_transition k))).
  { intros k. pose proof (legs_count_nonneg (assignments (known_transition k))).
    pose proof (zlen_nonneg (t_inputs (known_transition k))). lia. }
  pose proof (legs_count_nonneg (g_assignments (tr_genesis t))). split.
  - rewrite <- (clamp_id (legs_count (g_assignments (tr_genesis t)))) at 1 by apply Ht. apply sat_sum_map; [done|].
    intros k Hk. by split; [|apply Hnn].
  - assert (0 <= sum_of (map (fun k => legs_count (assignments (known_transition k)) + zlen (t_inputs (known_transition k)))
      (transfer_transitions t))) by (apply sum_of_map_nonneg; auto). lia.
Qed.

Lemma genesis_leaves_nonneg t : 0 <= genesis_leaves t.
Proof.
  unfold genesis_leaves. pose proof (legs_count_nonneg (g_assignments (tr_genesis t))).
  pose proof (sum_of_map_nonneg (fun kv => zlen kv.2) (map_to_list (g_globals (tr_genesis t)))
    (fun kv _ => zlen_nonneg kv.2)). lia.
Qed.

Lemma operation_count_pos t : 0 < operation_count t.
Proof. unfold operation_count. pose proof (zlen_nonneg (transfer_transitions t)). lia. Qed.

(** A weighted sum of saturated units saturates as a whole. *)
Lemma weighted_sum_exact terms :
  Forall (fun p => 0 <= p.1 /\ 0 <= p.2 <= u64_max) terms ->
  weighted_sum (map (fun p => (clamp p.1, p.2)) terms) = clamp (sum_of (map (fun p => p.1 * p.2) terms)).
Proof.
  intros H. unfold weighted_sum. rewrite map_map. apply sat_sum_map_0.
  rewrite Forall_forall in H. intros [u n] Hp. destruct (H _ Hp) as [Hu Hn]. cbn in *. split; [|nia].
  rewrite <- (clamp_id n) at 1 by lia. apply clamp_mul; lia.
Qed.

Lemma weighted_nonneg terms :
  Forall (fun p => 0 <= p.1 /\ 0 <= p.2 <= u64_max) terms -> 0 <= sum_of (map (fun p => p.1 * p.2) terms).
Proof. intros H. apply sum_of_nonneg, Forall_fmap. eapply Forall_impl; [exact H|]. intros [u n] [? ?]. cbn in *. nia. Qed.

Lemma rgb_lib_ns_exact t file_len walk :
  sizes_ok t -> 0 <= file_len <= u64_max -> 0 <= walk <= u64_max ->
  rgb_lib_ns file_len (uncapped_costs t)
    {| ca_witness := witness_check_cost t; ca_ids := bundle_id_cost t; ca_walk := walk |} =
  clamp (time_work t file_len walk).
Proof.
  intros Ht Hf Hw. destruct (witness_exact t Ht) as [Ew Pw], (bundle_id_exact t Ht) as [Ei Pi], (opouts_exact t Ht) as [Eo Po].
  pose proof (genesis_leaves_nonneg t) as Pl. pose proof (operation_count_pos t) as Pc.
  assert (Eg : genesis_hash_cost t = clamp (operation_count t * genesis_leaves t)) by done.
  unfold rgb_lib_ns, validation_ns, inspection_ns, uncapped_costs. cbn [un_opouts un_genesis un_operations ca_witness ca_ids ca_walk].
  rewrite Ew, Ei, Eo, Eg. pose proof (clamp_id file_len (proj2 Hf)) as Ef. pose proof (clamp_id walk (proj2 Hw)) as Ek.
  pose proof (clamp_id (operation_count t) (op_count t Ht)) as Ec.
  set (l1 := [(file_len, NS_PER_FILE_BYTE); (opouts t, NS_PER_OPOUT);
    (operation_count t * genesis_leaves t, NS_PER_GENESIS_LEAF); (witness_work t, NS_PER_WITNESS_STEP);
    (bundle_id_work t, NS_PER_BUNDLE_ID_STEP); (walk, NS_PER_WALK_STEP)]).
  set (l2 := [(file_len, INSPECT_NS_PER_FILE_BYTE); (opouts t, INSPECT_NS_PER_OPOUT);
    (operation_count t, INSPECT_NS_PER_OPERATION); (witness_work t, INSPECT_NS_PER_WITNESS_STEP)]).
  assert (F1 : Forall (fun p => 0 <= p.1 /\ 0 <= p.2 <= u64_max) l1).
  { unfold l1. rewrite !Forall_cons, Forall_nil. cbn [fst snd]. split_and!; try done; nia. }
  assert (F2 : Forall (fun p => 0 <= p.1 /\ 0 <= p.2 <= u64_max) l2).
  { unfold l2. rewrite !Forall_cons, Forall_nil. cbn [fst snd]. split_and!; try done; lia. }
  pose proof (weighted_sum_exact l1 F1) as S1. pose proof (weighted_sum_exact l2 F2) as S2.
  unfold l1 at 1 in S1. unfold l2 at 1 in S2. cbn [map fst snd] in S1, S2. rewrite Ef, Ek in S1. rewrite Ef, Ec in S2.
  rewrite S1, S2, clamp_add by (by apply weighted_nonneg). f_equal. unfold time_work, sum_of, l1, l2. cbn [map foldr fst snd].
  unfold NS_PER_FILE_BYTE, NS_PER_OPOUT, NS_PER_GENESIS_LEAF, NS_PER_WITNESS_STEP, NS_PER_BUNDLE_ID_STEP, NS_PER_WALK_STEP,
    INSPECT_NS_PER_FILE_BYTE, INSPECT_NS_PER_OPOUT, INSPECT_NS_PER_OPERATION, INSPECT_NS_PER_WITNESS_STEP. lia.
Qed.

Lemma assert_within_ok cost cap what : assert_within cost cap what = Ok tt <-> cost <= cap.
Proof. unfold assert_within. destruct (Z.leb_spec cost cap); split; (done || lia). Qed.

Lemma assert_within_cases cost cap what :
  (cost <= cap /\ assert_within cost cap what = Ok tt) \/
  (cap < cost /\ exists e, assert_within cost cap what = Err e).
Proof. unfold assert_within. destruct (Z.leb_spec cost cap); [by left|right]. split; [done|by eexists]. Qed.

(** C31: a consignment reaches rgb-lib exactly when its exact work is within the caps.
    The witness and bundle id work and the modelled time are plain sums of sizes, so no
    saturation hides an excess; the walk is, for each origin by itself, one step and
    two for every input of the operations it descends from, so neither the grouping of
    origins nor the early stop changes a verdict, and the walk always ends. *)
Theorem bounded_for_rgb_lib_iff t file_len listed :
  sizes_ok t -> 0 <= file_len <= u64_max ->
  (assert_bounded_for_rgb_lib t file_len listed = Ok tt <->
   witness_work t <= MAX_WITNESS_CHECK_COST /\ bundle_id_work t <= MAX_BUNDLE_ID_COST /\
   (listed = true -> reject_walk_work t <= MAX_REJECT_WALK_COST) /\
   time_work t file_len (if listed then reject_walk_work t else 0) <= MAX_RGB_LIB_NS) /\
  (forall o v, v ∈ reach (transfer_transitions t) o <-> rtc (spends (transfer_transitions t)) o v).
Proof.
  intros Ht Hf. split; [|intros; apply reach_spec]. unfold assert_bounded_for_rgb_lib, capped_costs. cbv zeta.
  destruct (witness_exact t Ht) as [Ew Pw], (bundle_id_exact t Ht) as [Ei Pi].
  assert (Cw : witness_check_cost t <= MAX_WITNESS_CHECK_COST <-> witness_work t <= MAX_WITNESS_CHECK_COST)
    by (rewrite Ew; by apply clamp_le).
  assert (Ci : bundle_id_cost t <= MAX_BUNDLE_ID_COST <-> bundle_id_work t <= MAX_BUNDLE_ID_COST)
    by (rewrite Ei; by apply clamp_le).
  destruct (assert_within_cases (witness_check_cost t) MAX_WITNESS_CHECK_COST
    "steps to check its transitions against their witness txs") as [[H1 ->]|[H1 [e ->]]]; cbn [rbind]; [|split; [done|lia]].
  destruct (assert_within_cases (bundle_id_cost t) MAX_BUNDLE_ID_COST "steps to hash its bundle ids")
    as [[H2 ->]|[H2 [e ->]]]; cbn [rbind]; [|split; [done|lia]].
  destruct (reject_walk_exact t MAX_REJECT_WALK_COST) as [R1 R2]; [done|].
  destruct listed; cbn [negb rbind].
  - destruct (assert_within_cases (reject_walk_cost t MAX_REJECT_WALK_COST) MAX_REJECT_WALK_COST
      "steps to check against its reject list") as [[H3 ->]|[H3 [e ->]]]; cbn [rbind].
    + assert (Hw : reject_walk_work t <= MAX_REJECT_WALK_COST) by lia. rewrite (R1 Hw), assert_within_ok.
      assert (0 <= reject_walk_work t)
        by (apply sum_of_map_nonneg; intros o _; apply Z.lt_le_incl, walk_work_pos).
      rewrite rgb_lib_ns_exact, clamp_le by (done || unfold MAX_REJECT_WALK_COST, u64_max in *; lia). intuition lia.
    + split; [done|]. intros (_ & _ & Hw & _). specialize (Hw eq_refl). specialize (R1 Hw). lia.
  - rewrite assert_within_ok, rgb_lib_ns_exact, clamp_le by done. intuition (done || lia).
Qed.

End Work.

(** ** A transfer of two mints, listed *)

Module Sample.

Definition opid (n : Z) : bytes := [z2b n].
Definition opout (n ty no : Z) : Opout := {| op := opid n; ty := ty; no := no |}.
Definition seal : BuilderSeal := SealRevealed {| seal_txid := None; seal_vout := 0 |}.

Definition known (n : Z) (ins : list Opout) : KnownTransition := {|
  known_opid := opid n;
  known_transition := {| contract_id := []; transition_type := 8; t_inputs := ins;
    assignments := {[ 4000 := Fungible [(seal, 5)] ]}; globals := ∅; metadata := ∅ |}
|}.

Definition bundle (ks : list KnownTransition) : WitnessBundle := {|
  wb_tx := {| tx_input := []; tx_output := []; tx_rest := [] |};
  wb_anchor := {| dbc_proof := Opret |};
  wb_bundle := {|
    input_map := list_to_map (flat_map (fun k => map (fun i => (i, known_opid k)) (t_inputs (known_transition k))) ks);
    known_transitions := ks |}
|}.

(** Operation 3 spends from 1 and 2, which both spend from 0. *)
Definition transfer : Transfer := {|
  tr_genesis := {| schema_id := []; g_chain_net := SpvCrosscheck.BitcoinMainnet; g_globals := ∅; g_assignments := ∅ |};
  tr_bundles := [bundle [known 1 [opout 0 4010 0]]; bundle [known 2 [opout 0 4010 1]];
                 bundle [known 3 [opout 1 4000 0; opout 2 4000 0]]]
|}.

#[local] Instance std : TransferStd := {|
  transfer_load _ := None;
  transfer_contract_id _ := [];
  consignment_id _ := "";
  genesis_id _ := opid 0;
  wb_witness_id _ := [];
  terminal_ops _ := {[opid 3]};
  tx_total_size _ := 200;
  chain_net_prefix _ := "bc";
  bridge_location _ := None
|}.

(** Three origins: 9 steps from operation 3, 3 from each of 1 and 2. *)
Lemma bounded_for_rgb_lib_witness :
  reject_walk_work transfer = 15 /\ assert_bounded_for_rgb_lib transfer 5000 true = Ok tt.
Proof.
  split; [vm_compute; reflexivity|].
  apply (bounded_for_rgb_lib_iff transfer 5000 true); [|done|vm_compute; split_and!; [done..|intros _; done|done]].
  split.
  - intros wb _. vm_compute. done.
  - intros wb Hwb. cbn [tr_bundles transfer] in Hwb.
    repeat (apply elem_of_cons in Hwb as [->|Hwb]; [vm_compute; done|]). by apply elem_of_nil in Hwb.
  - vm_compute. done.
  - vm_compute. done.
Defined.

End Sample.
