(* ===== verification/Consensus.v ===== *)
(** * RGB consensus over a consignment
      (src/enclave/src/networks/rgb/validation/witness.rs, bfa.rs, consensus.rs,
       consignment.rs, scratch.rs, types.rs)

    rgb-lib is a library that the sources only call.  It asks the enclave back
    through three resolvers, so it is a tree of questions, [Asking], whose
    branches are the answers: the class [RgbLib] gives that tree for a file, and
    [answer_all] runs it against the resolvers with their cells.  The status
    of a witness and the reject list come from outside, as functions of the
    number of lookups made before. *)

From stdpp Require Import base numbers list gmap strings sorting.
From S2P Require Import Prelude Errors PsbtTypes RgbCommit SpvCrosscheck EvmEvents RejectList RgbTransfer RgbCost.
From S2P Require EvmRelease.

#[local] Open Scope list_scope.
#[local] Open Scope Z_scope.

(** ** rgb-lib *)

Record WitnessPos : Type := { wp_height : Z; wp_time : Z }.

(** [WitnessOrd], its unmined values as one. *)
Inductive WitnessOrd : Type := Mined (pos : WitnessPos) | NotMined.

Inductive WitnessStatus : Type :=
| Unresolved
| Resolved (tx : Transaction) (ord : WitnessOrd).

(** [Claim::Lock]. *)
Record Claim : Type := { cl_opid : bytes; cl_witness_id : bytes; cl_amount : Z; cl_before_block : Z }.

#[export] Instance claim_eq_dec : EqDecision Claim.
Proof. solve_decision. Defined.

(** The errors of rgb-lib that [validation_error] names. *)
Inductive RgbLibError : Type :=
| NoClaimResolver
| NoRejectListResolver
| ConsignmentRejected (opouts : list string)
| EvmChainIdMismatch (expected actual : Z)
| MintLockNotFound (opid : string)
| NetworkError (details : string)
| OtherError (details : string).

Record ConsignmentValidation : Type := {
  cv_is_transfer : bool;
  cv_consignment_id : string;
  cv_warnings : list string;
  (** The txid in hex, and whether its status is [Mined]. *)
  cv_witnesses : list (string * bool)
}.

(** What rgb-lib asks while it validates. *)
Inductive Asking (A : Type) : Type :=
| Done (a : A)
| AskWitness (txid : bytes) (k : res string WitnessStatus -> Asking A)
| AskChainNet (net : ChainNet) (k : res string unit -> Asking A)
| AskChainId (k : res string Z -> Asking A)
| AskClaim (c : Claim) (k : res string bool -> Asking A)
| AskList (source : RejectListSource) (k : res string (list (Opout * bool)) -> Asking A).

Arguments Done {A} _.
Arguments AskWitness {A} _ _.
Arguments AskChainNet {A} _ _.
Arguments AskChainId {A} _.
Arguments AskClaim {A} _ _.
Arguments AskList {A} _ _.

(** [TypeOfTransition] and the records of [inspect_consignment]. *)
Inductive TypeOfTransition : Type :=
| TyTransfer | TyInflate | TyBurn | TyLink | TyMint | TyTransferInflation | TyTransferLink | TyPropagate.

Record RgbOutputInfo : Type := {
  (** [Assignment::Fungible], or another. *)
  oi_fungible : option Z;
  oi_is_concealed : bool;
  oi_recipient_id : option string;
  oi_txid : option string;
  oi_vout : option Z
}.

Record RgbTransitionInfo : Type := {
  ti_opid : string;
  ti_type : TypeOfTransition;
  ti_outputs : list RgbOutputInfo
}.

Record RgbInspection : Type := { in_txid : string; in_operations : list (list RgbTransitionInfo) }.

Record Inspection : Type := {
  in_is_transfer : bool;
  in_chain_net : string;
  in_witnesses : list RgbInspection
}.

(** [validate_consignment_with_resolver] on a file, with or without a claim and
    a list resolver, for a Bitcoin network; [inspect_consignment]; the networks that
    [BitcoinNetwork::try_from] knows; and the hex crate. *)
Class RgbLib : Type := {
  validate_with : bytes -> bool -> bool -> ChainNet -> Asking (ConsignmentValidation + RgbLibError);
  inspect_consignment : bytes -> option Inspection;
  network_supported : ChainNet -> bool;
  hex_decode : string -> option bytes
}.

(** ** Plain data (types.rs) *)

Record TransitionOutput : Type := { to_assignment_type : Z; to_amount : Z; to_seal : OutputSeal }.

Record TransitionSummary : Type := {
  ts_op_id : string;
  ts_transition_type : Z;
  ts_total_output_amount : Z;
  ts_asset_output_amount : Z;
  ts_outputs : list TransitionOutput;
  ts_burned_asset_amount : option Z;
  ts_burn_reason : option bytes
}.

Definition Summary : Type := list (bytes * list TransitionSummary).

Record ValidatedConsignment : Type := {
  v_contract_id : string;
  v_chain_net : string;
  v_witness_txids : list bytes;
  v_last_transition : option TransitionSummary;
  v_last_witness_txid : option bytes;
  v_last_transfer_witness_prevouts : list OutPoint;
  v_last_closed_seals : list OutPoint;
  v_last_bundle_fully_disclosed : bool;
  v_last_mint_rights : list OutputSeal;
  v_last_transfer_op_id : option bytes;
  v_non_mined_witness_txids : list bytes;
  v_transitions_by_witness : Summary;
  v_mint_locks : list VerifiedLock
}.

Definition transitions_committed_by (v : ValidatedConsignment) (txid : bytes) : list TransitionSummary :=
  flat_map snd (filter (fun '(w, _) => w = txid) (v_transitions_by_witness v)).

(** ** Mint anchors (bfa.rs) *)

Record MintAnchor : Type := {
  ma_opid : bytes;
  ma_lock_id : bytes;
  ma_amount : Z;
  ma_before_block : Z;
  ma_in_last_bundle : bool
}.

Record BfaBridge : Type := { bb_chain_id : Z; bb_address : bytes }.

Record BoundAnchors : Type := { evm_chain_id : Z; ba_locks : list VerifiedLock }.

Definition AnchorBinder : Type := BfaBridge -> list MintAnchor -> enclave_result BoundAnchors.

Section Consensus.
Context {R : RgbStd} {T : TransferStd} {F : BfaSchema} {G : BfaBurnSchema} {B : Bitcoin} {L : RgbLib}.

Definition bridge_from_genesis (g : Genesis) : enclave_result BfaBridge :=
  match bridge_location g with
  | Some (chain_id, address) => Ok {| bb_chain_id := chain_id; bb_address := address |}
  | None => Err (CrossCheck "BFA genesis bridge location")
  end.

Definition mint_anchor (c : Claim) (last_bundle : gset bytes) : MintAnchor := {|
  ma_opid := cl_opid c;
  ma_lock_id := lock_id_with (cl_opid c) (cl_witness_id c);
  ma_amount := cl_amount c;
  ma_before_block := cl_before_block c;
  ma_in_last_bundle := bool_decide (cl_opid c ∈ last_bundle)
|}.

Definition check_bijection (anchors : list MintAnchor) (locks : list VerifiedLock) : enclave_result unit :=
  let wanted : gset (bytes * Z) := list_to_set (map (fun a => (ma_lock_id a, ma_amount a)) anchors) in
  let bound : gset (bytes * Z) := list_to_set (map (fun l => (vl_lock_id l, minted l)) locks) in
  if negb (size wanted =? length anchors)%nat || negb (size bound =? length locks)%nat
     || negb (bool_decide (wanted = bound)) then
    Err (CrossCheck "every mint needs exactly its own lock")
  else Ok tt.

(** ** The resolvers *)

(** [OnChainResolver], [BindingResolver] and [ListResolver]: what they are built
    from.  [confirmed] is [ConfirmedWitnesses::confirmed], [rs_read] the reader
    of the list. *)
Record Resolvers : Type := {
  rs_txes : gmap bytes Transaction;
  rs_chain_net : ChainNet;
  rs_confirmed : nat -> Transaction -> res string WitnessPos;
  rs_genesis : Genesis;
  rs_last_bundle : gset bytes;
  rs_bind : option AnchorBinder;
  rs_list : option (RejectListContract * (nat -> RejectListContract -> enclave_result Decisions))
}.

(** Their cells: the answers given, the locks bound, the failures kept, and how
    often the list was read. *)
Record Cells : Type := {
  answers : gmap bytes (res string WitnessPos);
  lookups : nat;
  bound : list (MintAnchor * VerifiedLock);
  bind_failure : option EnclaveError;
  list_failure : option EnclaveError;
  reads : nat
}.

Definition new_cells : Cells :=
  {| answers := ∅; lookups := 0; bound := []; bind_failure := None; list_failure := None; reads := 0 |}.

Section Answer.
Context (rs : Resolvers).

(** [OnChainResolver::answer]. *)
Definition witness_answer (st : Cells) (txid : bytes) (tx : Transaction) : Cells * res string WitnessPos :=
  match answers st !! txid with
  | Some known => (st, known)
  | None =>
      let a := rs_confirmed rs (lookups st) tx in
      ({| answers := <[txid := a]> (answers st); lookups := S (lookups st); bound := bound st;
          bind_failure := bind_failure st; list_failure := list_failure st; reads := reads st |}, a)
  end.

Definition resolve_witness (st : Cells) (txid : bytes) : Cells * res string WitnessStatus :=
  match rs_txes rs !! txid with
  | None => (st, Ok Unresolved)
  | Some tx =>
      let '(st, a) := witness_answer st txid tx in
      (st, let? pos := rmap_err (fun reason => "witness tx is not confirmed on chain: " +:+ reason)%string a in
           Ok (Resolved tx (Mined pos)))
  end.

Definition check_chain_net (net : ChainNet) : res string unit :=
  if bool_decide (net = rs_chain_net rs) then Ok tt else Err "wrong chain net".

(** [BindingResolver::fail]. *)
Definition bind_fail {A : Type} (st : Cells) (e : EnclaveError) : Cells * res string A :=
  ({| answers := answers st; lookups := lookups st; bound := bound st;
      bind_failure := Some e; list_failure := list_failure st; reads := reads st |}, Err "resolver issue").

(** [BindingResolver::bind]. *)
Definition bind_anchors (bind : AnchorBinder) (st : Cells) (anchors : list MintAnchor)
    : Cells * res string BoundAnchors :=
  match (let? bridge := bridge_from_genesis (rs_genesis rs) in bind bridge anchors) with
  | Ok b => (st, Ok b)
  | Err e => bind_fail st e
  | Panic => (st, Panic)
  end.

Definition resolve_chain_id (bind : AnchorBinder) (st : Cells) : Cells * res string Z :=
  let '(st, b) := bind_anchors bind st [] in
  (st, let? b := b in Ok (evm_chain_id b)).

Definition is_confirmed (bind : AnchorBinder) (st : Cells) (c : Claim) : Cells * res string bool :=
  let anchor := mint_anchor c (rs_last_bundle rs) in
  match bind_anchors bind st [anchor] with
  | (st, Ok b) =>
      match ba_locks b with
      | [lock] =>
          if bool_decide (vl_lock_id lock = ma_lock_id anchor) && (minted lock =? ma_amount anchor) then
            ({| answers := answers st; lookups := lookups st; bound := bound st ++ [(anchor, lock)];
                bind_failure := bind_failure st; list_failure := list_failure st; reads := reads st |}, Ok true)
          else bind_fail st (CrossCheck "every mint needs exactly its own lock")
      | _ => bind_fail st (CrossCheck "every mint needs exactly its own lock")
      end
  | (st, Err e) => (st, Err e)
  | (st, Panic) => (st, Panic)
  end.

(** [ListResolver::get_reject_list], with the failure it keeps. *)
Definition resolve_list (contract : RejectListContract)
    (read : nat -> RejectListContract -> enclave_result Decisions) (st : Cells) (source : RejectListSource)
    : Cells * res string (list (Opout * bool)) :=
  let asked := bool_decide (source_contract source = Some contract) in
  let reads' := if asked then S (reads st) else reads st in
  let cells f := {| answers := answers st; lookups := lookups st; bound := bound st;
    bind_failure := bind_failure st; list_failure := f; reads := reads' |} in
  match get_reject_list contract (read (reads st) contract) source with
  | Ok l => (cells (list_failure st), Ok l)
  | Err e => (cells (Some e), Err "resolver issue")
  | Panic => (cells (list_failure st), Panic)
  end.

(** An answer handed back; a panic of a resolver unwinds through rgb-lib. *)
Definition reply {A X : Type} (k : res string X -> Cells -> Cells * enclave_result A)
    (a : Cells * res string X) : Cells * enclave_result A :=
  match a with
  | (st, Panic) => (st, Panic)
  | (st, r) => k r st
  end.

(** rgb-lib asked to its end; without a resolver it has nobody to ask. *)
Fixpoint answer_all {A : Type} (s : Asking A) (st : Cells) : Cells * enclave_result A :=
  match s with
  | Done a => (st, Ok a)
  | AskWitness txid k => reply (fun r => answer_all (k r)) (resolve_witness st txid)
  | AskChainNet net k => answer_all (k (check_chain_net net)) st
  | AskChainId k =>
      match rs_bind rs with
      | Some bind => reply (fun r => answer_all (k r)) (resolve_chain_id bind st)
      | None => answer_all (k (Err "no claim resolver")) st
      end
  | AskClaim c k =>
      match rs_bind rs with
      | Some bind => reply (fun r => answer_all (k r)) (is_confirmed bind st c)
      | None => answer_all (k (Err "no claim resolver")) st
      end
  | AskList source k =>
      match rs_list rs with
      | Some (contract, read) => reply (fun r => answer_all (k r)) (resolve_list contract read st source)
      | None => answer_all (k (Err "no list resolver")) st
      end
  end.

End Answer.

(** [Resolvers::take_failure]: the failure of the list first. *)
Definition take_failure (st : Cells) : option EnclaveError :=
  match list_failure st with Some e => Some e | None => bind_failure st end.

(** [BindingResolver::into_locks]. *)
Definition into_locks (st : Cells) : enclave_result (list VerifiedLock) :=
  let? _ := check_bijection (map fst (bound st)) (map snd (bound st)) in
  Ok (map snd (bound st)).

End Consensus.
