(* ===== verification/Validation.v ===== *)
(** * From consignment bytes to validated facts
      (src/enclave/src/networks/rgb/validation/consignment.rs, consensus.rs,
       scratch.rs, source.rs, indexer.rs, networks/rgb/route.rs, server/bfa.rs)

    The inspection of the file, the scratch file, [validate_consignment] and
    the burn path's [validate_source] with its SPV evidence. *)

From stdpp Require Import base numbers list gmap strings sorting.
From S2P Require Import Prelude Errors SpvTypes SpvChain SpvMerkle PsbtTypes RgbCommit AttestedPolicy SpvCrosscheck EvmEvents.
From S2P Require Import Io RejectList RgbTransfer RgbCost Consensus.
From S2P Require EvmRelease.

#[local] Open Scope list_scope.
#[local] Open Scope Z_scope.

(** [str::strip_prefix]. *)
Definition strip_prefix (p s : string) : option string :=
  if String.prefix p s
  then Some (String.substring (String.length p) (String.length s - String.length p) s)
  else None.

Section Validation.
Context {R : RgbStd} {T : TransferStd} {F : BfaSchema} {G : BfaBurnSchema} {B : Bitcoin} {L : RgbLib}.

(** ** The inspection (consignment.rs) *)

Definition decode_hex32 (s : string) (e : EnclaveError) : enclave_result bytes :=
  let? b := ok_or (hex_decode s) e in
  if zlen b =? 32 then Ok b else Err e.

Definition decode_opid (s : string) : enclave_result bytes := decode_hex32 s (CrossCheck "opid hex decode failed").

Definition decode_display_txid (s : string) : enclave_result bytes :=
  decode_hex32 s (CrossCheck "seal txid hex decode failed").

Definition txid_from_display_hex (s : string) : enclave_result bytes :=
  let? raw := decode_display_txid s in Ok (reverse raw).

Definition transition_type_id (t : TypeOfTransition) : Z :=
  match t with
  | TyTransfer => TS_TRANSFER
  | TyInflate => TS_INFLATION
  | TyBurn => TS_BURN
  | TyLink => TS_LINK
  | TyMint => TS_MINT
  | TyTransferInflation => TS_TRANSFER_INFLATION
  | TyTransferLink => TS_TRANSFER_LINK
  | TyPropagate => TS_PROPAGATE
  end.

Definition asset_output (o : RgbOutputInfo) (amount : Z) (witness_txid : bytes) (recipient_prefix : string)
    : enclave_result TransitionOutput :=
  let? seal :=
    if oi_is_concealed o then
      let? secret := ok_or (oi_recipient_id o ≫= strip_prefix recipient_prefix)
        (CrossCheck "concealed output is not a recipient of this chain") in
      Ok (Confidential secret)
    else
      match oi_txid o, oi_vout o with
      | Some txid, Some vout =>
          let? txid := decode_display_txid txid in
          Ok (Revealed (if bool_decide (txid = witness_txid) then None else Some txid) vout)
      | _, _ => Err (CrossCheck "revealed output without a txid and vout")
      end in
  Ok {| to_assignment_type := OS_ASSET; to_amount := amount; to_seal := seal |}.

(** [filter_map] over the fungible outputs, collected. *)
Fixpoint asset_outputs (os : list RgbOutputInfo) (witness_txid : bytes) (recipient_prefix : string)
    : enclave_result (list TransitionOutput) :=
  match os with
  | [] => Ok []
  | o :: os =>
      match oi_fungible o with
      | Some amount =>
          let? out := asset_output o amount witness_txid recipient_prefix in
          let? rest := asset_outputs os witness_txid recipient_prefix in
          Ok (out :: rest)
      | None => asset_outputs os witness_txid recipient_prefix
      end
  end.

(** [try_fold] with [checked_add]. *)
Fixpoint checked_sum (acc : Z) (l : list Z) : option Z :=
  match l with
  | [] => Some acc
  | x :: l => if u64_max <? acc + x then None else checked_sum (acc + x) l
  end.

Definition transition_summary (t : RgbTransitionInfo) (witness_txid : bytes) (recipient_prefix : string)
    : enclave_result TransitionSummary :=
  let? outputs := asset_outputs (ti_outputs t) witness_txid recipient_prefix in
  let? total := ok_or (checked_sum 0 (map to_amount outputs))
    (CrossCheck "consignment transition output amount overflow") in
  Ok {| ts_op_id := ti_opid t;
        ts_transition_type := transition_type_id (ti_type t);
        ts_total_output_amount := total;
        ts_asset_output_amount := total;
        ts_outputs := outputs;
        ts_burned_asset_amount := None;
        ts_burn_reason := None |}.

Definition witness_summary (w : RgbInspection) (recipient_prefix : string)
    : enclave_result (bytes * list TransitionSummary) :=
  match in_operations w with
  | [operation] =>
      let? witness_txid := decode_display_txid (in_txid w) in
      let? summaries := rmapM (fun t => transition_summary t witness_txid recipient_prefix) operation in
      let? txid := txid_from_display_hex (in_txid w) in
      Ok (txid, summaries)
  | _ => Err (CrossCheck "rgb-lib inspected several operations in a witness, expected one")
  end.

Definition extract_transition_summary (file : bytes) : enclave_result Summary :=
  let? inspection := ok_or (inspect_consignment file) (CrossCheck "rgb-lib inspect_consignment failed") in
  if negb (in_is_transfer inspection) then Err (CrossCheck "consignment is a Contract, expected Transfer")
  else
    let recipient_prefix := (in_chain_net inspection +:+ ":")%string in
    rmapM (fun w => witness_summary w recipient_prefix) (in_witnesses inspection).

(** ** The scratch file (scratch.rs) *)

(** What the file system answers: whether the new file is created and written,
    whether it is removed, and whether its path is text. *)
Record Scratch : Type := { sc_create : bool; sc_write : bool; sc_remove : bool; sc_utf8 : bool }.

Definition scratch_error (action : string) : EnclaveError :=
  Internal ("could not " +:+ action +:+ " the consignment scratch file").

Definition with_file_at {A : Type} (fs : Scratch) (read : io Cells EnclaveError A) : io Cells EnclaveError A :=
  if negb (sc_create fs) then io_lift (Err (scratch_error "create"))
  else
    fun st =>
      let '(st, result) := if sc_write fs then read st else (st, Err (scratch_error "write")) in
      match result, sc_remove fs with
      | Ok _, false => (st, Err (scratch_error "remove"))
      | _, _ => (st, result)
      end.

(** ** Consensus (consensus.rs) *)

(** [ListAccess]. *)
Record ListAccess : Type := {
  la_bind_asset : string -> enclave_result unit;
  la_read : option (nat -> RejectListContract -> enclave_result Decisions)
}.

Definition load_bounded (bs : bytes) (lists : ListAccess)
    : enclave_result (Transfer * option RejectListContract) :=
  let? t := ok_or (transfer_load bs) (CrossCheck "consignment deserialization failed") in
  let? _ := assert_bfa_genesis (tr_genesis t) in
  let? _ := la_bind_asset lists (contract_to_string (transfer_contract_id t)) in
  let? list := reject_list (tr_genesis t) in
  let? _ := assert_bounded_for_rgb_lib t (zlen bs) (bool_decide (is_Some list)) in
  Ok (t, list).

Definition validation_error (e : RgbLibError) : EnclaveError :=
  CrossCheck
    match e with
    | NoClaimResolver => "consignment carries BFA mint claims, but this build binds none"
    | NoRejectListResolver => "the asset declares a reject list, but this build cannot read it"
    | ConsignmentRejected _ => "descends from an opout the reject list rejects"
    | EvmChainIdMismatch _ _ => "the mint anchors were bound on another EVM chain"
    | MintLockNotFound _ => "mint has no bound lock that confirms it"
    | NetworkError details => "a witness is not proven on chain: " +:+ details
    | OtherError details => "RGB consignment validation failed: " +:+ details
    end.

Definition resolver_failure_first {A : Type} (validation : A + RgbLibError) (failure : option EnclaveError)
    : enclave_result A :=
  match validation, failure with
  | _, Some failure => Err failure
  | inl v, None => Ok v
  | inr e, None => Err (validation_error e)
  end.

Definition check_validation (v : ConsignmentValidation) (t : Transfer) : enclave_result unit :=
  if negb (cv_is_transfer v) || negb (bool_decide (cv_consignment_id v = consignment_id t)) then
    Err (CrossCheck "rgb-lib validated another consignment")
  else if negb (bool_decide (cv_warnings v = [])) then
    Err (CrossCheck "rgb-lib validated the consignment with a warning")
  else Ok tt.

(** The transactions by witness id; [collect] keeps the last of a key. *)
Definition witness_txes (t : Transfer) : gmap bytes Transaction :=
  foldl (fun m wb => <[wb_witness_id wb := wb_tx wb]> m) ∅ (tr_bundles t).

Definition last_bundle_ops (t : Transfer) : gset bytes :=
  match last (tr_bundles t) with
  | Some wb => list_to_set (map known_opid (known_transitions (wb_bundle wb)))
  | None => ∅
  end.

Definition resolvers_of (net : ChainNet) (t : Transfer) (list : option RejectListContract)
    (bind : option AnchorBinder) (confirmed : nat -> Transaction -> res string WitnessPos)
    (lists : ListAccess) : Resolvers := {|
  rs_txes := witness_txes t;
  rs_chain_net := net;
  rs_confirmed := confirmed;
  rs_genesis := tr_genesis t;
  rs_last_bundle := last_bundle_ops t;
  rs_bind := bind;
  rs_list := c ← list; read ← la_read lists; Some (c, read)
|}.

Definition run_rgb_lib (fs : Scratch) (net : ChainNet) (bs : bytes) (rs : Resolvers) (t : Transfer)
    : io Cells EnclaveError (ConsignmentValidation * Summary) :=
  if negb (network_supported net) then io_lift (Err (CrossCheck "unsupported RGB chain"))
  else
    with_file_at fs (
      if negb (sc_utf8 fs) then io_lift (Err (Internal "scratch path is not UTF-8"))
      else
        let! validation := answer_all rs
          (validate_with bs (bool_decide (is_Some (rs_bind rs))) (bool_decide (is_Some (rs_list rs))) net) in
        let! v := (fun st => (st, resolver_failure_first validation (take_failure st))) in
        let! _ := io_lift (check_validation v t) in
        let! summary := io_lift (extract_transition_summary bs) in
        io_lift (Ok (v, summary))).

(** [BTreeSet] of byte strings, in order. *)
Definition sorted_set (l : list bytes) : list bytes := merge_sort lex_le (elements (list_to_set l : gset bytes)).

Definition non_mined_witnesses (v : ConsignmentValidation) : enclave_result (list bytes) :=
  let? txids := rmapM (fun w : string * bool =>
      decode_hex32 w.1 (CrossCheck "rgb-lib reported a witness txid that is not 32-byte hex"))
    (filter (fun w => w.2 = false) (cv_witnesses v)) in
  Ok (sorted_set txids).

(** [decode_opid(..).is_ok_and(..)]. *)
Definition names_opid (opid : bytes) (t : TransitionSummary) : bool :=
  match decode_opid (ts_op_id t) with Ok id => bool_decide (id = opid) | _ => false end.

Definition settling_summary (by_witness : Summary) (lb : option LastBundle)
    : enclave_result (option TransitionSummary) :=
  match lb with
  | None => Ok None
  | Some lb =>
      let facts := lb_settling lb in
      let? flat := ok_or
        ('(txid, summaries) ← last by_witness;
         if bool_decide (txid = lb_witness_txid lb)
         then snd <$> list_find (fun t => names_opid (sf_opid facts) t = true) summaries
         else None)
        (CrossCheck "consignment settling transition is missing from the inspected last bundle") in
      if negb (ts_transition_type flat =? sf_transition_type facts) then
        Err (CrossCheck "consignment settling transition type disagrees with the inspected type")
      else
        Ok (Some {| ts_op_id := ts_op_id flat;
                    ts_transition_type := ts_transition_type flat;
                    ts_total_output_amount := ts_total_output_amount flat;
                    ts_asset_output_amount := ts_asset_output_amount flat;
                    ts_outputs := ts_outputs flat;
                    ts_burned_asset_amount := sf_burned_asset facts;
                    ts_burn_reason := sf_burn_reason facts |})
  end.

Definition summarize (t : Transfer) (by_witness : Summary) (mint_locks : list VerifiedLock) (non_mined : list bytes)
    : enclave_result ValidatedConsignment :=
  let? lb := read_last_bundle t in
  let? last_transition := settling_summary by_witness lb in
  Ok {| v_contract_id := contract_to_string (transfer_contract_id t);
        v_chain_net := chain_net_prefix (g_chain_net (tr_genesis t));
        v_witness_txids := sorted_set (map (fun wb => reverse (wb_witness_id wb)) (tr_bundles t));
        v_last_transition := last_transition;
        v_last_witness_txid := lb_witness_txid <$> lb;
        v_last_transfer_witness_prevouts := default [] (lb_prevouts <$> lb);
        v_last_closed_seals := default [] (lb_closed_seals <$> lb);
        v_last_bundle_fully_disclosed := default false (lb_fully_disclosed <$> lb);
        v_last_mint_rights := default [] (sf_mint_rights ∘ lb_settling <$> lb);
        v_last_transfer_op_id := sf_opid ∘ lb_settling <$> lb;
        v_non_mined_witness_txids := non_mined;
        v_transitions_by_witness := by_witness;
        v_mint_locks := mint_locks |}.

(** [RgbValidator::validate_consignment], on the chain of the validator. *)
Definition validate_consignment (fs : Scratch) (net : ChainNet) (bs : bytes) (bind : option AnchorBinder)
    (confirmed : nat -> Transaction -> res string WitnessPos) (lists : ListAccess)
    : enclave_result ValidatedConsignment :=
  let? (t, list) := load_bounded bs lists in
  let rs := resolvers_of net t list bind confirmed lists in
  let '(st, r) := run_rgb_lib fs net bs rs t new_cells in
  let? (validation, by_witness) := r in
  let? mint_locks := if bind then into_locks st else Ok [] in
  let? non_mined := non_mined_witnesses validation in
  summarize t by_witness mint_locks non_mined.

(** What the EVM binds read of it. *)
Definition burn_of (v : ValidatedConsignment) : EvmRelease.ValidatedBurn := {|
  EvmRelease.last_transition :=
    (fun t => {| EvmRelease.transition_type := ts_transition_type t;
                 EvmRelease.burned_asset_amount := ts_burned_asset_amount t;
                 EvmRelease.burn_reason := ts_burn_reason t |}) <$> v_last_transition v;
  EvmRelease.last_witness_txid := v_last_witness_txid v;
  EvmRelease.last_transfer_op_id := v_last_transfer_op_id v;
  EvmRelease.non_mined_witness_txids := v_non_mined_witness_txids v;
  EvmRelease.mint_lock_ids := map vl_operation_id (v_mint_locks v)
|}.

Definition anchored_of (v : ValidatedConsignment) : AnchoredConsignment :=
  {| vc_chain_net := v_chain_net v; vc_witness_txids := v_witness_txids v |}.

End Validation.
