(* ===== verification/BurnSource.v ===== *)
(** * The RGB source of a release
      (src/enclave/src/networks/rgb/validation/source.rs, indexer.rs, networks/rgb/route.rs,
       server/bfa.rs)

    [validate_source] of both builds: with SPV the witnesses are proven against
    the header chain, without it the pinned indexer is asked.  The chain is
    locked twice, so the two looks are two arguments. *)

From stdpp Require Import base numbers list gmap strings.
From S2P Require Import Prelude Errors SpvTypes SpvChain SpvMerkle RustText PsbtTypes RgbCommit SpvCrosscheck EvmEvents.
From S2P Require Import Io RejectList RgbTransfer RgbCost Consensus Validation.
From S2P Require EvmRelease.

#[local] Open Scope list_scope.
#[local] Open Scope Z_scope.

(** ** The indexer (indexer.rs) *)

Inductive TxPlace : Type := Unknown | Unmined | MinedAt (pos : WitnessPos).

Definition mined_deep_enough (place : TxPlace) (tip min_confirmations : Z) : res string WitnessPos :=
  match place with
  | Unmined => Err "the indexer reports it unmined"
  | Unknown => Err "the indexer does not know it"
  | MinedAt pos =>
      if tip <? wp_height pos then Err "its block is above the indexer tip"
      else if tip - wp_height pos + 1 <? min_confirmations then Err "too few confirmations"
      else Ok pos
  end.

(** [electrum_client::GetMerkleRes]. *)
Record GetMerkleRes : Type := { gm_block_height : Z; gm_pos : Z; gm_merkle : list bytes }.

(** A block header as the indexer gives it. *)
Record IndexHeader : Type := { ih_hash : bytes; ih_merkle_root : bytes; ih_time : Z }.

(** The answers of an indexer to the calls of one lookup. *)
Class Indexer : Type := {
  electrum_header : nat -> Z -> res string IndexHeader;
  electrum_tip : nat -> res string Z;
  electrum_history : nat -> bytes -> res string (list (bytes * Z));
  electrum_merkle : nat -> bytes -> Z -> res string GetMerkleRes;
  esplora_height : nat -> res string Z;
  esplora_check_net : nat -> ChainNet -> res string unit;
  esplora_resolve : nat -> bytes -> res string WitnessStatus;
  (** [ChainNet::chain_hash], [WitnessPos::bitcoin] and the two hashes. *)
  chain_hash : ChainNet -> bytes;
  witness_pos : Z -> Z -> option WitnessPos;
  node_sha256d : bytes -> bytes
}.

Inductive Backend : Type := Electrum | Esplora.

Record IndexerSession : Type := { is_backend : Backend; is_tip : Z }.

Section Indexer.
Context {I : Indexer} {B : Bitcoin}.

(** [WitnessStatus] of Esplora for [txid]. *)
Definition esplora_place (status : WitnessStatus) (txid : bytes) : res string TxPlace :=
  match status with
  | Unresolved => Ok Unknown
  | Resolved tx ord =>
      if negb (bool_decide (compute_txid tx = txid)) then Err "the indexer answered with another tx"
      else Ok match ord with Mined pos => MinedAt pos | NotMined => Unmined end
  end.

Definition assert_in_block (txid : bytes) (height : Z) (header : IndexHeader) (proof : GetMerkleRes)
    : res string unit :=
  if negb (gm_block_height proof =? height) then Err "the merkle proof is for another block"
  else if negb (gm_pos proof <? 2 ^ 32) then Err "the merkle position is not a u32"
  else if MAX_MERKLE_PATH_DEPTH <? zlen (gm_merkle proof) then Err "its merkle proof has too many siblings"
  else
    rmap_err (fun _ => "its merkle proof does not match the block"%string)
      (verify_merkle_proof node_sha256d txid (gm_pos proof) (map reverse (gm_merkle proof)) (ih_merkle_root header)).

Definition electrum_place (n : nat) (tx : Transaction) : res string TxPlace :=
  let txid := compute_txid tx in
  let? (_, out) := ok_or (list_find (fun o => is_op_return (script_pubkey o) = false) (tx_output tx))
    "it has no output an Electrum server indexes"%string in
  let? history := electrum_history n (script_pubkey out) in
  match list_find (fun h => h.1 = txid) history with
  | None => Ok Unknown
  | Some (_, (_, height)) =>
      if negb ((0 <? height) && (height <? 2 ^ 32)) then Ok Unmined
      else
        let? header := electrum_header n height in
        let? proof := electrum_merkle n txid height in
        let? _ := assert_in_block txid height header proof in
        let? pos := ok_or (witness_pos height (ih_time header)) "block has an invalid time"%string in
        Ok (MinedAt pos)
  end.

Definition electrum_session (n : nat) (net : ChainNet) : res string IndexerSession :=
  let? genesis := electrum_header n 0 in
  if negb (bool_decide (ih_hash genesis = chain_hash net)) then Err "indexer does not serve the chain"
  else
    let? tip := electrum_tip n in
    if negb (tip <? 2 ^ 32) then Err "electrum tip is not a u32"
    else Ok {| is_backend := Electrum; is_tip := tip |}.

Definition esplora_session (n : nat) (net : ChainNet) : res string IndexerSession :=
  let? tip := esplora_height n in
  let? _ := esplora_check_net n net in
  Ok {| is_backend := Esplora; is_tip := tip |}.

Definition is_electrum_url (url : string) : bool := String.prefix "ssl://" url || String.prefix "tcp://" url.

(** [RgbValidator]; [None] for a scheme it does not know. *)
Record RgbValidator : Type := { rv_indexer_url : string; rv_chain_net : ChainNet; rv_timeout_secs : Z }.

Definition ELECTRUM_TIMEOUT_SECS : Z := 15.
Definition ESPLORA_HTTP_TIMEOUT_SECS : Z := 30.

Definition new_validator (indexer_url : string) (network : option Network) : enclave_result RgbValidator :=
  let? timeout :=
    if is_electrum_url indexer_url then Ok ELECTRUM_TIMEOUT_SECS
    else if String.prefix "https://" indexer_url || String.prefix "http://" indexer_url
    then Ok ESPLORA_HTTP_TIMEOUT_SECS
    else Err (Internal "indexer URL is not Electrum or Esplora") in
  let? n := ok_or network (Internal "unknown bitcoin network") in
  Ok {| rv_indexer_url := indexer_url; rv_chain_net := chain_net n; rv_timeout_secs := timeout |}.

Definition connect (v : RgbValidator) (n : nat) : res string IndexerSession :=
  if is_electrum_url (rv_indexer_url v) then electrum_session n (rv_chain_net v)
  else esplora_session n (rv_chain_net v).

(** The [OnceCell]: the first connection that succeeded stays. *)
Fixpoint session_at (v : RgbValidator) (n : nat) : res string IndexerSession :=
  match n with
  | O => connect v O
  | S n => match session_at v n with Ok s => Ok s | _ => connect v (S n) end
  end.

(** [ConfirmedWitnesses] of [IndexerWitnesses]: lookup number [n]. *)
Definition indexer_confirmed (v : RgbValidator) (min_confirmations : Z) (n : nat) (tx : Transaction)
    : res string WitnessPos :=
  let? s := session_at v n in
  let? place :=
    match is_backend s with
    | Electrum => electrum_place n tx
    | Esplora =>
        let? status := esplora_resolve n (compute_txid tx) in
        esplora_place status (compute_txid tx)
    end in
  mined_deep_enough place (is_tip s) min_confirmations.

End Indexer.

(** ** The source (source.rs) *)

Record RgbSource : Type := {
  rsrc_asset_id : string;
  rsrc_consignment : bytes;
  rsrc_consignment_hash : bytes;
  rsrc_merkle_proofs : list MerkleProofEntry
}.

(** The fields of [BridgeConfig] this path reads. *)
Record SourceConfig : Type := {
  sc_max_consignment_bytes : Z;
  sc_max_merkle_proofs : Z;
  sc_max_total_proof_bytes : Z;
  sc_spv_min_confirmations : Z;
  sc_rgb_asset_id : string;
  sc_is_configured : bool;
  sc_pins : DepositPins
}.

Definition assert_consignment_size (consignment : bytes) (cfg : SourceConfig) : enclave_result unit :=
  if sc_max_consignment_bytes cfg <? zlen consignment then Err (CrossCheck "consignment too large") else Ok tt.

Definition proof_bytes (p : MerkleProofEntry) : Z := zlen (mp_txid p) + sum_of (map zlen (mp_merkle_path p)).

Section Source.
Context {R : RgbStd} {T : TransferStd} {F : BfaSchema} {G : BfaBurnSchema} {B : Bitcoin} {L : RgbLib}.
Context {C : BitcoinCrate} {I : Indexer}.
Context (keccak256 sha256d : bytes -> bytes).

Definition validate_source_payload (source : RgbSource) (cfg : SourceConfig) : enclave_result unit :=
  if bool_decide (rsrc_consignment source = []) then Err (CrossCheck "RGB source requires raw consignment bytes")
  else
    let? _ := assert_consignment_size (rsrc_consignment source) cfg in
    if sc_max_merkle_proofs cfg <? zlen (rsrc_merkle_proofs source) then
      Err (CrossCheck "RGB source carries too many merkle proofs")
    else if sc_max_total_proof_bytes cfg <? sum_of (map proof_bytes (rsrc_merkle_proofs source)) then
      Err (CrossCheck "RGB source merkle proofs too large in aggregate")
    else if bool_decide (rsrc_consignment_hash source = []) then
      Err (CrossCheck "consignment present but consignment_hash is missing")
    else if negb (bool_decide (keccak256 (rsrc_consignment source) = rsrc_consignment_hash source)) then
      Err (CrossCheck "consignment hash mismatch")
    else if bool_decide (rsrc_asset_id source = "") then Err (CrossCheck "RGB source asset_id is empty")
    else Ok tt.

Definition lock_chain (m : mutex HeaderChain) : enclave_result HeaderChain :=
  if poisoned m then Err (Internal "SPV header chain lock poisoned") else Ok (contents m).

(** [ConfirmedWitnesses] of a map of proven positions. *)
Definition proven_confirmed (proven : gmap bytes WitnessPos) (_ : nat) (tx : Transaction) : res string WitnessPos :=
  ok_or (proven !! compute_txid tx) "no merkle proof in the request proves it mined"%string.

Definition bind_asset (source : RgbSource) (cfg : SourceConfig) (contract_id : string) : enclave_result unit :=
  assert_asset_binding contract_id (rsrc_asset_id source) (sc_rgb_asset_id cfg) (sc_is_configured cfg) Source.

(** [validate_source]: [spv] is the build; [chain] and [chain'] are the header chain at
    the two locks, [now] the time of the second. *)
Definition validate_source (spv : bool) (fs : Scratch) (source : RgbSource) (cfg : SourceConfig)
    (validator : option RgbValidator) (bind : option AnchorBinder)
    (read : option (nat -> RejectListContract -> enclave_result Decisions))
    (chain chain' : mutex HeaderChain) (now : Z) (pins : ChainPins)
    : ChainPins * enclave_result ValidatedConsignment :=
  let checked :=
    let? _ := validate_source_payload source cfg in
    let? v := ok_or validator (CrossCheck "RGB source validation requires rgb_validator to be configured") in
    let? confirmed :=
      if spv then
        let? c := lock_chain chain in
        let? proven := proven_witnesses sha256d witness_pos c (rsrc_merkle_proofs source) (sc_spv_min_confirmations cfg) in
        Ok (proven_confirmed proven)
      else Ok (indexer_confirmed v (sc_spv_min_confirmations cfg)) in
    let lists := {| la_bind_asset := bind_asset source cfg; la_read := read |} in
    let? validated := validate_consignment fs (rv_chain_net v) (rsrc_consignment source) bind confirmed lists in
    let? _ := bind_asset source cfg (v_contract_id validated) in
    Ok validated in
  match checked with
  | Ok validated =>
      if negb spv then (pins, Ok validated)
      else
        match lock_chain chain' with
        | Ok c =>
            let '(pins, r) :=
              validate_source_chain sha256d chain_net_prefix c (Some (anchored_of validated))
                (rsrc_merkle_proofs source) now pins (sc_spv_min_confirmations cfg) in
            (pins, let? _ := r in Ok validated)
        | Err e => (pins, Err e)
        | Panic => (pins, Panic)
        end
  | r => (pins, r)
  end.

(** ** The route proof (rgb/route.rs) *)

Definition normalize_rgb_operation_id (op_id : bytes) : enclave_result bytes :=
  let normalized := match op_id with x30 :: x78 :: rest => rest | _ => op_id end in
  if negb (zlen normalized =? 64) then Err (CrossCheck "RGB operation_id must be 32-byte hex")
  else if negb (forallb is_ascii_hexdigit normalized) then Err (CrossCheck "RGB operation_id is not hex-decodable")
  else Ok (to_ascii_lowercase normalized).

Definition route_proof_from_validated_consignment (v : ValidatedConsignment)
    : enclave_result EvmRelease.RouteProof :=
  let? lt := ok_or (EvmRelease.last_transition (burn_of v))
    (CrossCheck "RGB source requires a consignment with at least one transition") in
  let? amount := EvmRelease.funds_out_source_amount TS_BURN lt in
  let? id := normalize_rgb_operation_id
    (String.list_byte_of_string (default EmptyString (ts_op_id <$> v_last_transition v))) in
  Ok {| EvmRelease.rp_amount := amount; EvmRelease.rp_operation_id := Some (String.string_of_list_byte id) |}.

(** ** The binder of a history (server/bfa.rs) *)

Definition check_bridge (cfg : DepositPins) (bridge : BfaBridge) : enclave_result unit :=
  if negb (bb_chain_id bridge =? dep_chain_id cfg)
     || negb (bool_decide (bb_address bridge = dep_funds_in_contract cfg)) then
    Err (CrossCheck "asset bridge location is not the pinned funds-in contract")
  else Ok tt.

Definition derive_all (cfg : DepositPins) (anchors : list MintAnchor) : enclave_result (list VerifiedLock) :=
  rmapM (fun a => derived_lock keccak256 cfg (ma_lock_id a) (ma_amount a)) anchors.

Definition derived_locks (cfg : DepositPins) : AnchorBinder := fun bridge anchors =>
  let? _ := check_bridge cfg bridge in
  let? locks := derive_all cfg anchors in
  Ok {| evm_chain_id := dep_chain_id cfg; ba_locks := locks |}.

End Source.
