(* ===== verification/ConsensusProps.v ===== *)
(** * What a validated consignment shows

    The questions of rgb-lib and the cells of the resolvers as a run, and
    the theorem on [validate_consignment].  What rgb-lib promises is the class
    [RgbLibLaws]: it resolves every witness, it has every mint claim confirmed, and it
    refuses what the reject list rejects. *)

From stdpp Require Import base numbers list gmap strings sorting.
From S2P Require Import Prelude Errors PsbtTypes RgbCommit AttestedPolicy SpvCrosscheck EvmEvents.
From S2P Require Import Io RejectList RgbTransfer RgbCost Consensus Validation.

#[local] Open Scope list_scope.
#[local] Open Scope Z_scope.

(** ** Paths through the questions *)

Inductive Event : Type :=
| EvWitness (txid : bytes) (a : res string WitnessStatus)
| EvNet (net : ChainNet) (a : res string unit)
| EvChainId (a : res string Z)
| EvClaim (c : Claim) (a : res string bool)
| EvList (s : RejectListSource) (a : res string (list (Opout * bool))).

Inductive path {A : Type} : Asking A -> list Event -> A -> Prop :=
| path_done a : path (Done a) [] a
| path_witness txid k r tr a : path (k r) tr a -> path (AskWitness txid k) (EvWitness txid r :: tr) a
| path_net net k r tr a : path (k r) tr a -> path (AskChainNet net k) (EvNet net r :: tr) a
| path_chain_id k r tr a : path (k r) tr a -> path (AskChainId k) (EvChainId r :: tr) a
| path_claim c k r tr a : path (k r) tr a -> path (AskClaim c k) (EvClaim c r :: tr) a
| path_list s k r tr a : path (k r) tr a -> path (AskList s k) (EvList s r :: tr) a.

Definition confirmed_claims (tr : list Event) : list Claim :=
  omap (fun e => match e with EvClaim c (Ok true) => Some c | _ => None end) tr.

Section Props.
Context {R : RgbStd} {T : TransferStd} {F : BfaSchema} {G : BfaBurnSchema} {B : Bitcoin} {L : RgbLib}.

(** The amount that a mint issues. *)
Definition issued_supply (t : Transition) : Z :=
  match single_global 8 (globals t) GS_ISSUED_SUPPLY with Ok (Some b) => le_combine b | _ => 0 end.

(** The mints of a consignment: operation, witness transaction, amount. *)
Definition mint_keys (t : Transfer) : list (bytes * bytes * Z) :=
  flat_map (fun wb =>
      map (fun k => (known_opid k, wb_witness_id wb, issued_supply (known_transition k)))
        (filter (fun k => is_mint_transition (transition_type (known_transition k)) = true)
          (known_transitions (wb_bundle wb))))
    (tr_bundles t).

Definition claim_key (c : Claim) : bytes * bytes * Z := (cl_opid c, cl_witness_id c, cl_amount c).

(** rgb-lib, as the enclave relies on it.  A file it accepts had every witness resolved
    and every mint claim confirmed, each once; for an asset with a list it asked for
    that list, and no terminal input or output is rejected by the answer. *)
Class RgbLibLaws : Prop := {
  resolves_witnesses file a l net tr v t wb :
    path (validate_with file a l net) tr (inl v) -> transfer_load file = Some t -> wb ∈ tr_bundles t ->
    exists tx ord, EvWitness (wb_witness_id wb) (Ok (Resolved tx ord)) ∈ tr;
  confirms_mints file a l net tr v t :
    path (validate_with file a l net) tr (inl v) -> transfer_load file = Some t ->
    map claim_key (confirmed_claims tr) ≡ₚ mint_keys t;
  obeys_list file a l net tr v t c :
    path (validate_with file a l net) tr (inl v) -> transfer_load file = Some t ->
    reject_list (tr_genesis t) = Ok (Some c) ->
    exists s ds, EvList s (Ok ds) ∈ tr /\ source_contract s = Some c /\
      forall o, o ∈ reject_check_origins t -> (o, false) ∉ ds
}.

(** ** Runs *)

Section Run.
Context (rs : Resolvers).

Inductive run : Cells -> list Event -> Cells -> Prop :=
| run_nil st : run st [] st
| run_witness st txid st1 r tr st2 :
    resolve_witness rs st txid = (st1, r) -> run st1 tr st2 -> run st (EvWitness txid r :: tr) st2
| run_net st net tr st2 : run st tr st2 -> run st (EvNet net (check_chain_net rs net) :: tr) st2
| run_chain_id st bind st1 r tr st2 :
    rs_bind rs = Some bind -> resolve_chain_id rs bind st = (st1, r) -> run st1 tr st2 -> run st (EvChainId r :: tr) st2
| run_claim st bind c st1 r tr st2 :
    rs_bind rs = Some bind -> is_confirmed rs bind st c = (st1, r) -> run st1 tr st2 -> run st (EvClaim c r :: tr) st2
| run_list st contract read s st1 r tr st2 :
    rs_list rs = Some (contract, read) -> resolve_list contract read st s = (st1, r) ->
    run st1 tr st2 -> run st (EvList s r :: tr) st2
| run_no_chain_id st tr st2 e : rs_bind rs = None -> run st tr st2 -> run st (EvChainId (Err e) :: tr) st2
| run_no_claim st c tr st2 e : rs_bind rs = None -> run st tr st2 -> run st (EvClaim c (Err e) :: tr) st2
| run_no_list st s tr st2 e : rs_list rs = None -> run st tr st2 -> run st (EvList s (Err e) :: tr) st2.

#[local] Hint Constructors run path : core.

Lemma reply_ok {A X} (k : res string X -> Cells -> Cells * enclave_result A) c st' a :
  reply k c = (st', Ok a) -> k c.2 c.1 = (st', Ok a).
Proof. unfold reply. destruct c as [st [x| |]]; cbn; (done || congruence). Qed.

(** Asked to the end, rgb-lib followed one path of its questions. *)
Lemma answer_all_path {A} (s : Asking A) st st' a :
  answer_all rs s st = (st', Ok a) -> exists tr, path s tr a /\ run st tr st'.
Proof.
  revert st. induction s as [a'|txid k IH|net k IH|k IH|c k IH|src k IH]; intros st; cbn [answer_all].
  - intros [= -> ->]. by exists [].
  - intros H%reply_ok. destruct (resolve_witness rs st txid) as [st1 r] eqn:E. apply IH in H as (tr & ? & ?). eauto.
  - intros H. apply IH in H as (tr & ? & ?). eauto.
  - destruct (rs_bind rs) as [bind|] eqn:Eb.
    + intros H%reply_ok. destruct (resolve_chain_id rs bind st) as [st1 r] eqn:E. apply IH in H as (tr & ? & ?). eauto.
    + intros H. apply IH in H as (tr & ? & ?). eauto.
  - destruct (rs_bind rs) as [bind|] eqn:Eb.
    + intros H%reply_ok. destruct (is_confirmed rs bind st c) as [st1 r] eqn:E. apply IH in H as (tr & ? & ?). eauto.
    + intros H. apply IH in H as (tr & ? & ?). eauto.
  - destruct (rs_list rs) as [[contract read]|] eqn:El.
    + intros H%reply_ok. destruct (resolve_list contract read st src) as [st1 r] eqn:E.
      apply IH in H as (tr & ? & ?). eauto.
    + intros H. apply IH in H as (tr & ? & ?). eauto.
Qed.

(** A failure that a resolver kept is never lost. *)
Definition failed (st : Cells) : bool :=
  match take_failure st with Some _ => true | None => false end.

Lemma resolve_witness_cells st txid st1 r :
  resolve_witness rs st txid = (st1, r) ->
  bound st1 = bound st /\ failed st1 = failed st.
Proof.
  unfold resolve_witness, witness_answer. destruct (rs_txes rs !! txid); [|by intros [= <- <-]].
  destruct (answers st !! txid); by intros [= <- <-].
Qed.

Lemma bind_fail_failed {A} st e st1 (r : res string A) : bind_fail st e = (st1, r) -> failed st1 = true.
Proof. intros [= <- _]. unfold failed, take_failure. cbn. by destruct (list_failure st). Qed.

Lemma bind_anchors_cells bind st l st1 r :
  bind_anchors rs bind st l = (st1, r) ->
  bound st1 = bound st /\
  (failed st1 = false -> st1 = st /\ (r = Panic \/
    exists bridge b, bridge_from_genesis (rs_genesis rs) = Ok bridge /\ bind bridge l = Ok b /\ r = Ok b)).
Proof.
  unfold bind_anchors. destruct (bridge_from_genesis (rs_genesis rs)) as [bridge|e|]; cbn [rbind].
  - destruct (bind bridge l) as [b|e|] eqn:E.
    + intros [= <- <-]. split; [done|]. intros _. split; [done|]. right. by exists bridge, b.
    + intros H. split; [by injection H as <- <-|]. intros Hf. apply bind_fail_failed in H. congruence.
    + intros [= <- <-]. split; [done|]. intros _. split; [done|by left].
  - intros H. split; [by injection H as <- <-|]. intros Hf. apply bind_fail_failed in H. congruence.
  - intros [= <- <-]. split; [done|]. intros _. split; [done|by left].
Qed.

(** A lock that the binder bound to a claim. *)
Definition bound_to (bind : AnchorBinder) (c : Claim) (l : VerifiedLock) : Prop :=
  exists bridge b, bridge_from_genesis (rs_genesis rs) = Ok bridge /\
    bind bridge [mint_anchor c (rs_last_bundle rs)] = Ok b /\ ba_locks b = [l] /\
    vl_lock_id l = lock_id_with (cl_opid c) (cl_witness_id c) /\ minted l = cl_amount c.

Lemma is_confirmed_cells bind st c st1 r :
  is_confirmed rs bind st c = (st1, r) -> failed st1 = false ->
  failed st = false /\
  (r = Panic /\ bound st1 = bound st \/
   exists l, r = Ok true /\ bound_to bind c l /\
     bound st1 = bound st ++ [(mint_anchor c (rs_last_bundle rs), l)]).
Proof.
  unfold is_confirmed. destruct (bind_anchors rs bind st _) as [st0 [b|e|]] eqn:E;
    apply bind_anchors_cells in E as [Eb Ef].
  - intros H Hf.
    assert (Hcase : (exists l, ba_locks b = [l] /\ vl_lock_id l = lock_id_with (cl_opid c) (cl_witness_id c) /\
      minted l = cl_amount c /\ r = Ok true /\ failed st1 = failed st0 /\
      bound st1 = bound st0 ++ [(mint_anchor c (rs_last_bundle rs), l)]) \/ failed st1 = true).
    { destruct (ba_locks b) as [|l [|]].
      - right. by eapply bind_fail_failed.
      - case_bool_decide as Hid; cbn [andb] in H.
        + destruct (Z.eqb_spec (minted l) (ma_amount (mint_anchor c (rs_last_bundle rs)))) as [Hm|]; cbn [andb] in H.
          * left. exists l. injection H as <- <-. by split_and!.
          * right. by eapply bind_fail_failed.
        + right. by eapply bind_fail_failed.
      - right. by eapply bind_fail_failed. }
    destruct Hcase as [(l & H1 & H2 & H3 & -> & H4 & H5)|Hx]; [|congruence].
    rewrite H4 in Hf. destruct (Ef Hf) as [-> [|(bridge & b' & Hb & Hbb & [= <-])]]; [done|].
    split; [done|]. right. exists l. split; [done|]. split; [|done]. exists bridge, b. by split_and!.
  - intros [= <- <-] Hf. destruct (Ef Hf) as [_ [|(? & ? & _ & _ & ?)]]; done.
  - intros [= <- <-] Hf. destruct (Ef Hf) as [-> _]. split; [done|]. by left.
Qed.

Lemma resolve_list_cells contract read st s st1 r :
  resolve_list contract read st s = (st1, r) ->
  bound st1 = bound st /\ (failed st1 = false -> failed st = false) /\
  (forall ds, r = Ok ds -> source_contract s = Some contract /\
     exists d, read (reads st) contract = Ok d /\
       ds = map (fun k => (opout_of_key k, false)) (elements (d_reject d)) ++
            map (fun k => (opout_of_key k, true)) (elements (d_allow d))).
Proof.
  unfold resolve_list, get_reject_list. case_bool_decide as Hs; cbn [negb].
  - destruct (read (reads st) contract) as [d|e|]; cbn [rbind]; intros [= <- <-]; (split; [done|]); split; try done.
    intros ds [= <-]. split; [done|]. by exists d.
  - intros [= <- <-]. split; [done|]. split; [done|]. done.
Qed.

Lemma run_failed st tr st' : run st tr st' -> failed st' = false -> failed st = false.
Proof.
  induction 1 as [|st txid st1 r tr st2 H _ IH|st net tr st2 _ IH|st bind st1 r tr st2 _ H _ IH|st bind c st1 r tr st2 _ H _ IH
    |st contract read s st1 r tr st2 _ H _ IH|st tr st2 e _ _ IH|st c tr st2 e _ _ IH|st s tr st2 e _ _ IH];
    intros Hf; try (specialize (IH Hf)); try done.
  - apply resolve_witness_cells in H as [_ H]. congruence.
  - unfold resolve_chain_id in H. destruct (bind_anchors rs bind st []) as [st0 b] eqn:E. injection H as <- _.
    apply bind_anchors_cells in E as [_ E]. by destruct (E IH) as [-> _].
  - by destruct (is_confirmed_cells _ _ _ _ _ H IH).
  - apply resolve_list_cells in H as (_ & H & _). by apply H.
Qed.

Lemma run_bound st tr st' :
  run st tr st' -> failed st' = false ->
  match rs_bind rs with
  | Some bind => exists ls, Forall2 (bound_to bind) (confirmed_claims tr) ls /\
      bound st' = bound st ++ zip (map (fun c => mint_anchor c (rs_last_bundle rs)) (confirmed_claims tr)) ls
  | None => confirmed_claims tr = []
  end.
Proof.
  induction 1 as [st|st txid st1 r tr st2 H _ IH|st net tr st2 _ IH|st bind st1 r tr st2 Hb H Hrun IH|st bind c st1 r tr st2 Hb H Hrun IH
    |st contract read s st1 r tr st2 Hl H _ IH|st tr st2 e Hb _ IH|st c tr st2 e Hb _ IH|st s tr st2 e Hl _ IH]; intros Hf;
    try (specialize (IH Hf)); cbn [confirmed_claims omap list_omap] in *; try exact IH.
  - destruct (rs_bind rs); [|done]. exists []. split; [constructor|]. cbn. by rewrite app_nil_r.
  - apply resolve_witness_cells in H as [<- _]. exact IH.
  - unfold resolve_chain_id in H. destruct (bind_anchors rs bind st []) as [st0 b] eqn:E. injection H as <- _.
    apply bind_anchors_cells in E as [<- _]. exact IH.
  - destruct (is_confirmed_cells _ _ _ _ _ H (run_failed _ _ _ Hrun Hf)) as [_ [[-> <-]|(l & -> & Hl & Hst)]]; [exact IH|].
    rewrite Hb in IH |- *. destruct IH as (ls & Hall & Hbd). exists (l :: ls). split; [by constructor|].
    rewrite Hbd, Hst, <- app_assoc. done.
  - apply resolve_list_cells in H as (<- & _). exact IH.
Qed.

(** The answers in the cache come from the source. *)
Definition answers_ok (st : Cells) : Prop :=
  forall txid a, answers st !! txid = Some a -> exists n tx, rs_txes rs !! txid = Some tx /\ rs_confirmed rs n tx = a.

Lemma new_answers_ok : answers_ok new_cells.
Proof. intros txid a. cbn. by rewrite lookup_empty. Qed.

Lemma resolve_witness_answers st txid st1 r :
  answers_ok st -> resolve_witness rs st txid = (st1, r) ->
  answers_ok st1 /\
  (forall tx ord, r = Ok (Resolved tx ord) ->
    rs_txes rs !! txid = Some tx /\ exists n pos, ord = Mined pos /\ rs_confirmed rs n tx = Ok pos).
Proof.
  intros Ha. unfold resolve_witness, witness_answer. destruct (rs_txes rs !! txid) as [tx|] eqn:Et; [|by intros [= <- <-]].
  destruct (answers st !! txid) as [a|] eqn:Ea; intros [= <- <-].
  - split; [done|]. intros tx' ord H. destruct (Ha txid a Ea) as (n & tx0 & Htx & Hc).
    destruct a as [pos| |]; cbn in H; try done. injection H as <- <-. split; [done|]. exists n, pos. split; [done|]. congruence.
  - split.
    + intros txid' a'. cbn. rewrite lookup_insert_Some. intros [[<- <-]|[_ H]]; [|by apply Ha].
      by exists (lookups st), tx.
    + intros tx' ord H. destruct (rs_confirmed rs (lookups st) tx) as [pos| |] eqn:Ec; cbn in H; try done.
      injection H as <- <-. split; [done|]. by exists (lookups st), pos.
Qed.

Lemma run_witnesses st tr st' txid tx ord :
  run st tr st' -> answers_ok st -> EvWitness txid (Ok (Resolved tx ord)) ∈ tr ->
  rs_txes rs !! txid = Some tx /\ exists n pos, ord = Mined pos /\ rs_confirmed rs n tx = Ok pos.
Proof.
  assert (Hsame : forall st st', answers st' = answers st -> answers_ok st -> answers_ok st')
    by (unfold answers_ok; intros ? ? ->; done).
  induction 1 as [st|st txid' st1 r tr st2 H _ IH|st net tr st2 _ IH|st bind st1 r tr st2 _ H _ IH|st bind c st1 r tr st2 _ H _ IH
    |st contract read s st1 r tr st2 _ H _ IH|st tr st2 e _ _ IH|st c tr st2 e _ _ IH|st s tr st2 e _ _ IH];
    intros Ha Hin; [by apply elem_of_nil in Hin|..]; apply elem_of_cons in Hin as [Heq|Hin]; try done; auto.
  - destruct (resolve_witness_answers _ _ _ _ Ha H) as [_ Hr]. injection Heq as <- <-. by apply Hr.
  - apply IH; [|done]. by destruct (resolve_witness_answers _ _ _ _ Ha H).
  - apply IH; [|done]. apply (Hsame st); [|done]. unfold resolve_chain_id, bind_anchors, bind_fail in H.
    destruct (bridge_from_genesis _); cbn in H; [destruct (bind _ _)|..]; by injection H as <- _.
  - apply IH; [|done]. apply (Hsame st); [|done]. unfold is_confirmed, bind_anchors, bind_fail in H.
    repeat (case_match; simplify_eq/=; try done).
  - apply IH; [|done]. apply (Hsame st); [|done]. unfold resolve_list in H. by case_match; injection H as <- _.
Qed.

Lemma run_lists st tr st' s ds :
  run st tr st' -> EvList s (Ok ds) ∈ tr ->
  exists contract read n d, rs_list rs = Some (contract, read) /\ source_contract s = Some contract /\
    read n contract = Ok d /\
    ds = map (fun k => (opout_of_key k, false)) (elements (d_reject d)) ++
         map (fun k => (opout_of_key k, true)) (elements (d_allow d)).
Proof.
  induction 1 as [st|st txid' st1 r tr st2 H _ IH|st net tr st2 _ IH|st bind st1 r tr st2 _ H _ IH|st bind c st1 r tr st2 _ H _ IH
    |st contract read s' st1 r tr st2 Hl H _ IH|st tr st2 e _ _ IH|st c tr st2 e _ _ IH|st s' tr st2 e _ _ IH];
    intros Hin; [by apply elem_of_nil in Hin|..]; apply elem_of_cons in Hin as [Heq|Hin]; try done; auto.
  injection Heq as <- <-. apply resolve_list_cells in H as (_ & _ & H). destruct (H ds eq_refl) as [Hs (d & Hd & Hds)].
  by exists contract, read, (reads st), d.
Qed.

End Run.
(** ** The last bundle *)

Lemma settling_unique known k :
  settling_known_transition known = Ok (Some k) ->
  k ∈ known /\ (forall b, b ∈ known -> is_burn b = true -> b = k).
Proof.
  unfold settling_known_transition. destruct (Z.ltb_spec 1 (zlen (filter (fun k => is_burn k = true) known))) as [|Hc]; [done|].
  intros [= H]. destruct (settling_index known is_burn) as [i|] eqn:Ei; [|done]. cbn in H.
  split; [by eapply list_elem_of_lookup_2|]. intros b Hb Hburn. unfold settling_index in Ei.
  assert (Hbf : b ∈ filter (fun k => is_burn k = true) known) by (by apply list_elem_of_filter).
  destruct (last (filter _ (imap pair known))) as [[j x]|] eqn:El.
  - injection Ei as <-. apply last_Some_elem_of, list_elem_of_filter in El as [Hx Hin]. cbn in Hx.
    apply list_elem_of_lookup_1 in Hin as [m Hm]. rewrite list_lookup_imap in Hm.
    destruct (known !! m) as [y|] eqn:Ey; [|done]. injection Hm as -> ->.
    assert (x = k) as -> by congruence.
    assert (Hkf : k ∈ filter (fun k => is_burn k = true) known)
      by (apply list_elem_of_filter; split; [done|by eapply list_elem_of_lookup_2]).
    destruct (filter (fun k => is_burn k = true) known) as [|z [|]]; [by apply elem_of_nil in Hbf| |unfold zlen in Hc; cbn in Hc; lia].
    apply list_elem_of_singleton in Hbf, Hkf. congruence.
  - exfalso. apply last_None in El. apply list_elem_of_lookup_1 in Hb as [m Hm].
    assert (Hin : (m, b) ∈ filter (fun p => is_burn p.2 = true) (imap pair known)).
    { apply list_elem_of_filter. split; [done|]. apply (list_elem_of_lookup_2 _ m). by rewrite list_lookup_imap, Hm. }
    rewrite El in Hin. by apply elem_of_nil in Hin.
Qed.

(** What [read_last_bundle] reads is of the last bundle, whose one burn, if any, is
    the settling transition. *)
Record settles (t : Transfer) (wb : WitnessBundle) (k : KnownTransition) (lb : LastBundle) : Prop := {
  st_last : last (tr_bundles t) = Some wb;
  st_known : k ∈ known_transitions (wb_bundle wb);
  st_one_burn b : b ∈ known_transitions (wb_bundle wb) -> is_burn b = true -> b = k;
  st_witness : lb_witness_txid lb = wb_witness_id wb;
  st_opid : sf_opid (lb_settling lb) = known_opid k;
  st_type : sf_transition_type (lb_settling lb) = transition_type (known_transition k);
  st_burned : exists b, single_global 8 (globals (known_transition k)) GS_BURNED_ASSET = Ok b /\
    sf_burned_asset (lb_settling lb) = le_combine <$> b;
  st_reason : single_global 32 (globals (known_transition k)) GS_BURN_REASON = Ok (sf_burn_reason (lb_settling lb))
}.

Lemma read_last_bundle_ok t lb : read_last_bundle t = Ok (Some lb) -> exists wb k, settles t wb k lb.
Proof.
  unfold read_last_bundle. destruct (last (tr_bundles t)) as [wb|] eqn:El; [|done]. intros H. inv_bind H o Ho.
  destruct o as [k|]; [|done]. inv_bind H cls Hcl. inv_bind H facts Hfa. injection H as <-. exists wb, k.
  apply settling_unique in Ho as [Hk Hu]. unfold settling_facts in Hfa. inv_bind Hfa burned Hb. inv_bind Hfa reason Hr.
  injection Hfa as <-. split; cbn; eauto.
Qed.

(** ** Locks *)

Lemma size_set_NoDup {A} `{Countable A} (l : list A) : size (list_to_set l : gset A) = length l -> NoDup l.
Proof.
  assert (Hle : forall l : list A, (size (list_to_set l : gset A) <= length l)%nat).
  { clear l. induction l as [|x l IH]; [done|]. cbn [list_to_set length].
    destruct (decide (x ∈ l)).
    - replace ({[x]} ∪ list_to_set l : gset A) with (list_to_set l : gset A) by set_solver. lia.
    - rewrite size_union, size_singleton by set_solver. lia. }
  induction l as [|x l IH]; [constructor|]. cbn [list_to_set length]. intros Hs.
  destruct (decide (x ∈ l)) as [Hx|Hx].
  - exfalso. specialize (Hle l). replace ({[x]} ∪ list_to_set l : gset A) with (list_to_set l : gset A) in Hs by set_solver. lia.
  - constructor; [done|]. apply IH. rewrite size_union, size_singleton in Hs by set_solver. lia.
Qed.

Lemma check_bijection_ok anchors locks :
  check_bijection anchors locks = Ok tt -> NoDup (map (fun l => (vl_lock_id l, minted l)) locks).
Proof.
  unfold check_bijection. cbv zeta. destruct (_ || _) eqn:E; [done|]. intros _.
  apply orb_false_iff in E as [E _]. apply orb_false_iff in E as [_ E]. apply negb_false_iff, Nat.eqb_eq in E.
  apply size_set_NoDup. by rewrite E, length_map.
Qed.

(** ** The theorem *)

(** A consignment that the enclave takes facts from: its own lines of the statement. *)
Record validated_from (net : ChainNet) (bs : bytes) (bind : AnchorBinder)
    (confirmed : nat -> Transaction -> res string WitnessPos) (lists : ListAccess) (t : Transfer)
    (v : ValidatedConsignment) : Prop := {
  (** The bytes are a BFA transfer of the bound asset, within the work bounds. *)
  vf_load : transfer_load bs = Some t;
  vf_schema : schema_id (tr_genesis t) = BFA_SCHEMA_ID;
  vf_asset : la_bind_asset lists (v_contract_id v) = Ok tt /\ v_contract_id v = contract_to_string (transfer_contract_id t);
  vf_bounded : exists listed, assert_bounded_for_rgb_lib t (zlen bs) listed = Ok tt;
  (** Every witness is mined where the source says it is. *)
  vf_witnesses wb : wb ∈ tr_bundles t ->
    reverse (wb_witness_id wb) ∈ v_witness_txids v /\
    exists tx n pos, witness_txes t !! wb_witness_id wb = Some tx /\ confirmed n tx = Ok pos;
  (** The locks are those of the mints in the history, one for each and no other. *)
  vf_locks : map (fun l => (vl_lock_id l, minted l)) (v_mint_locks v) ≡ₚ
    map (fun '(o, w, a) => (lock_id_with o w, a)) (mint_keys t);
  vf_locks_once : NoDup (map (fun l => (vl_lock_id l, minted l)) (v_mint_locks v));
  vf_bound l : l ∈ v_mint_locks v -> exists bridge a b, bridge_from_genesis (tr_genesis t) = Ok bridge /\
    bind bridge [a] = Ok b /\ ba_locks b = [l] /\ ma_lock_id a = vl_lock_id l /\ ma_amount a = minted l;
  (** The settling transition is the one of the last bundle. *)
  vf_settling s : v_last_transition v = Some s ->
    exists wb k lb, settles t wb k lb /\ v_last_witness_txid v = Some (wb_witness_id wb) /\
      v_last_transfer_op_id v = Some (known_opid k) /\ ts_transition_type s = transition_type (known_transition k) /\
      ts_burned_asset_amount s = sf_burned_asset (lb_settling lb) /\ ts_burn_reason s = sf_burn_reason (lb_settling lb);
  (** A listed asset had its list read, and it rejects no terminal input or output. *)
  vf_list c : reject_list (tr_genesis t) = Ok (Some c) ->
    exists read n d, la_read lists = Some read /\ read n c = Ok d /\
      forall o, o ∈ reject_check_origins t -> key_of_opout o ∉ d_reject d
}.

Lemma summarize_ok t by_witness locks nm v :
  summarize t by_witness locks nm = Ok v ->
  v_mint_locks v = locks /\ v_contract_id v = contract_to_string (transfer_contract_id t) /\
  (forall wb, wb ∈ tr_bundles t -> reverse (wb_witness_id wb) ∈ v_witness_txids v) /\
  (forall x, x ∈ v_witness_txids v -> exists wb, wb ∈ tr_bundles t /\ x = reverse (wb_witness_id wb)) /\
  v_non_mined_witness_txids v = nm /\
  (forall s, v_last_transition v = Some s ->
    exists wb k lb, settles t wb k lb /\ v_last_witness_txid v = Some (wb_witness_id wb) /\
      v_last_transfer_op_id v = Some (known_opid k) /\ ts_transition_type s = transition_type (known_transition k) /\
      ts_burned_asset_amount s = sf_burned_asset (lb_settling lb) /\ ts_burn_reason s = sf_burn_reason (lb_settling lb)).
Proof.
  unfold summarize. intros H. inv_bind H lb Hlb. inv_bind H lst Hlt. injection H as <-. cbn.
  assert (Hset : forall x, x ∈ sorted_set (map (fun wb => reverse (wb_witness_id wb)) (tr_bundles t)) <->
    exists wb, wb ∈ tr_bundles t /\ x = reverse (wb_witness_id wb)).
  { intros x. unfold sorted_set. rewrite (merge_sort_Permutation lex_le), elem_of_elements, elem_of_list_to_set, list_elem_of_fmap. naive_solver. }
  split_and!; [done|done|intros wb Hwb; apply Hset; by exists wb|apply Hset|done|].
  intros s ->. destruct lb as [lb|]; [|done]. destruct (read_last_bundle_ok t lb Hlb) as (wb & k & Hs).
  exists wb, k, lb. unfold settling_summary in Hlt. inv_bind Hlt flat Hflat.
  destruct (Z.eqb_spec (ts_transition_type flat) (sf_transition_type (lb_settling lb))) as [Ht|]; cbn [negb] in Hlt; [|done].
  injection Hlt as <-. cbn. split_and!; try done; [by rewrite <- (st_witness _ _ _ _ Hs)|by rewrite <- (st_opid _ _ _ _ Hs)|].
  by rewrite Ht, (st_type _ _ _ _ Hs).
Qed.

Lemma with_file_at_ok {A} fs (read : io Cells EnclaveError A) st st' a :
  with_file_at fs read st = (st', Ok a) -> read st = (st', Ok a).
Proof.
  unfold with_file_at. destruct (sc_create fs); [|done]. cbn [negb]. destruct (sc_write fs); [|by destruct (sc_remove fs)].
  destruct (read st) as [st1 [x| |]], (sc_remove fs); done.
Qed.

Lemma run_rgb_lib_ok fs net bs rs t st r :
  run_rgb_lib fs net bs rs t new_cells = (st, Ok r) ->
  exists tr, path (validate_with bs (bool_decide (is_Some (rs_bind rs))) (bool_decide (is_Some (rs_list rs))) net) tr (inl r.1)
    /\ run rs new_cells tr st /\ failed st = false.
Proof.
  unfold run_rgb_lib. destruct (network_supported net); [|done]. cbn [negb]. intros H%with_file_at_ok.
  destruct (sc_utf8 fs); [|done]. cbn [negb] in H. io_inv H val w1 Hval. apply answer_all_path in Hval as (tr & Hp & Hrun).
  io_inv H v w2 Hv. io_inv H u w3 Hu. io_inv H summary w4 Hsu. apply io_lift_ok in H as [-> [= <-]].
  apply io_lift_ok in Hu as [-> _]. apply io_lift_ok in Hsu as [-> _]. injection Hv as <- Hv.
  exists tr. unfold resolver_failure_first in Hv. unfold failed.
  destruct val as [val|e], (take_failure w1) eqn:Ef; try done. injection Hv as ->. done.
Qed.

Lemma run_rgb_lib_summary fs net bs rs t cells st v sum :
  run_rgb_lib fs net bs rs t cells = (st, Ok (v, sum)) -> extract_transition_summary bs = Ok sum.
Proof.
  unfold run_rgb_lib. destruct (network_supported net); [|done]. cbn [negb]. intros H%with_file_at_ok.
  destruct (sc_utf8 fs); [|done]. cbn [negb] in H. io_inv H val w1 Hval. io_inv H v' w2 Hv. io_inv H u w3 Hu.
  io_inv H summary w4 Hsu. apply io_lift_ok in H as [_ [= _ <-]]. by apply io_lift_ok in Hsu as [_ ?].
Qed.

Lemma locks_of_claims rs bind (cs : list Claim) ls :
  Forall2 (bound_to rs bind) cs ls ->
  map (fun l => (vl_lock_id l, minted l)) ls =
  map (fun '(o, w, a) => (lock_id_with o w, a)) (map claim_key cs).
Proof.
  induction 1 as [|c l cs ls (? & ? & _ & _ & _ & Hid & Hm) _ IH]; [done|]. cbn [map]. rewrite IH, Hid, Hm. done.
Qed.

Lemma opout_key_inv o : opout_of_key (key_of_opout o) = o.
Proof. by destruct o. Qed.

Lemma assert_bfa_ok g : assert_bfa_genesis g = Ok tt -> schema_id g = BFA_SCHEMA_ID.
Proof. unfold assert_bfa_genesis. by case_bool_decide. Qed.

Lemma consignment_sound `{RgbLibLaws} fs net bs bind confirmed lists v :
  validate_consignment fs net bs (Some bind) confirmed lists = Ok v ->
  exists t, validated_from net bs bind confirmed lists t v.
Proof.
  unfold validate_consignment. intros Hv. inv_bind Hv loaded Hload. destruct loaded as [t list].
  unfold load_bounded in Hload. inv_bind Hload t' Ht. apply ok_or_ok in Ht. inv_bind Hload u1 Hbfa.
  inv_bind Hload u2 Hasset. inv_bind Hload list' Hlist. inv_bind Hload u3 Hcost. injection Hload as -> ->.
  set (rs := resolvers_of _ _ _ _ _ _) in Hv. destruct (run_rgb_lib _ _ _ _ _ _) as [st [[val by_witness]| |]] eqn:Erun; [|done..].
  cbn [rbind] in Hv. apply run_rgb_lib_ok in Erun as (tr & Hp & Hrun & Hf). cbn [fst] in Hp.
  inv_bind Hv locks Hlocks. inv_bind Hv nm Hnm. apply summarize_ok in Hv as (Hml & Hcid & Hw & _ & _ & Hset).
  unfold into_locks in Hlocks. inv_bind Hlocks u4 Hbij. destruct u1, u2, u3, u4. injection Hlocks as Hlocks. subst locks.
  pose proof (run_bound rs _ _ _ Hrun Hf) as Hb. cbn [rs_bind rs resolvers_of] in Hb.
  destruct Hb as (ls & Hall & Hbound). cbn [bound new_cells app] in Hbound.
  assert (Hsnd : map snd (bound st) = ls).
  { rewrite Hbound. apply snd_zip. rewrite length_map. by rewrite (Forall2_length _ _ _ Hall). }
  rewrite Hsnd in Hml. exists t. split.
  - done.
  - by apply assert_bfa_ok.
  - rewrite Hcid. done.
  - eauto.
  - intros wb Hwb. split; [by apply Hw|]. destruct (resolves_witnesses _ _ _ _ _ _ _ _ Hp Ht Hwb) as (tx & ord & Hev).
    destruct (run_witnesses rs _ _ _ _ _ _ Hrun (new_answers_ok rs) Hev) as (Htx & n & pos & _ & Hc).
    by exists tx, n, pos.
  - rewrite Hml, (locks_of_claims rs bind _ _ Hall). by apply Permutation_map, (confirms_mints _ _ _ _ _ _ _ Hp).
  - rewrite Hml, <- Hsnd. by eapply check_bijection_ok.
  - rewrite Hml. intros l Hl. apply list_elem_of_lookup_1 in Hl as [i Hi].
    destruct (Forall2_lookup_r _ _ _ _ _ Hall Hi) as (c & _ & (bridge & b & H1 & H2 & H3 & H4 & H5)).
    exists bridge, (mint_anchor c (rs_last_bundle rs)), b. by split_and!.
  - exact Hset.
  - intros c Hc. destruct (obeys_list _ _ _ _ _ _ _ _ Hp Ht Hc) as (s & ds & Hev & Hs & Hno).
    destruct (run_lists rs _ _ _ _ _ Hrun Hev) as (c' & read & n & d & Hl & Hs' & Hr & ->).
    cbn [rs_list rs resolvers_of] in Hl. rewrite Hlist in Hc. injection Hc as ->. cbn in Hl.
    destruct (la_read lists) as [read'|]; [|done]. injection Hl as <- ->. exists read, n, d. split_and!; [done|done|].
    intros o Ho Hin. apply (Hno o Ho). apply elem_of_app. left. apply list_elem_of_fmap.
    exists (key_of_opout o). by rewrite opout_key_inv, elem_of_elements.
Qed.

Lemma unbound_has_no_mints `{RgbLibLaws} fs net bs confirmed lists v :
  validate_consignment fs net bs None confirmed lists = Ok v ->
  exists t, transfer_load bs = Some t /\ mint_keys t = [] /\ v_mint_locks v = [].
Proof.
  unfold validate_consignment. intros Hv. inv_bind Hv loaded Hload. destruct loaded as [t list].
  unfold load_bounded in Hload. inv_bind Hload t' Ht. apply ok_or_ok in Ht. inv_bind Hload u1 Hbfa.
  inv_bind Hload u2 Hasset. inv_bind Hload list' Hlist. inv_bind Hload u3 Hcost. injection Hload as -> ->.
  set (rs := resolvers_of _ _ _ _ _ _) in Hv. destruct (run_rgb_lib _ _ _ _ _ _) as [st [[val by_witness]| |]] eqn:Erun; [|done..].
  cbn [rbind] in Hv. apply run_rgb_lib_ok in Erun as (tr & Hp & Hrun & Hf). inv_bind Hv nm Hnm.
  apply summarize_ok in Hv as (Hml & _). pose proof (run_bound rs _ _ _ Hrun Hf) as Hb. cbn [rs_bind rs resolvers_of] in Hb.
  exists t. split_and!; [done| |done]. pose proof (confirms_mints _ _ _ _ _ _ _ Hp Ht) as Hc. rewrite Hb in Hc.
  by apply Permutation_nil in Hc.
Qed.

(** C5: what the enclave takes from a consignment it validated is what the consignment
    proves, whatever the host sent: a BFA transfer of the bound asset within the work
    bounds; every witness confirmed by the chain source; the mint locks exactly those
    of the mints in its history, each bound once by the binder; the settling
    transition the one of the last bundle, its only burn when it has one; and no
    terminal input or output that the reject list rejects.  A build that binds
    no mint takes no consignment with one. *)
Theorem validate_consignment_sound `{RgbLibLaws} fs net bs bind confirmed lists v :
  validate_consignment fs net bs bind confirmed lists = Ok v ->
  match bind with
  | Some bind => exists t, validated_from net bs bind confirmed lists t v
  | None => exists t, transfer_load bs = Some t /\ mint_keys t = [] /\ v_mint_locks v = []
  end.
Proof. destruct bind; [apply consignment_sound|apply unbound_has_no_mints]. Qed.

(** ** Types *)

(** The invariant of a flat summary: its totals are the exact sum of its outputs. *)
Record summary_ok (s : TransitionSummary) : Prop := {
  so_total : ts_total_output_amount s = sum_of (map to_amount (ts_outputs s));
  so_asset : ts_asset_output_amount s = ts_total_output_amount s;
  so_fits : ts_total_output_amount s <= u64_max;
  so_types : Forall (fun o => to_assignment_type o = OS_ASSET) (ts_outputs s)
}.

Lemma checked_sum_ok l acc total :
  checked_sum acc l = Some total -> total = acc + sum_of l /\ (l <> [] -> total <= u64_max).
Proof.
  revert acc. induction l as [|x l IH]; intros acc H; cbn [checked_sum] in H.
  - injection H as <-. cbn. split; [lia|done].
  - destruct (Z.ltb_spec u64_max (acc + x)); [done|]. destruct l as [|y l].
    + injection H as <-. cbn. split; lia.
    + destruct (IH _ H) as [-> Hle]. change (sum_of (x :: y :: l)) with (x + sum_of (y :: l)). split; [lia|].
      intros _. by apply Hle.
Qed.

Lemma asset_outputs_types os w p outs :
  asset_outputs os w p = Ok outs -> Forall (fun o => to_assignment_type o = OS_ASSET) outs.
Proof.
  revert outs. induction os as [|o os IH]; intros outs H; cbn [asset_outputs] in H; [by injection H as <-|].
  destruct (oi_fungible o) as [a|]; [|by apply IH]. inv_bind H out Ho. inv_bind H rest Hr. injection H as <-.
  constructor; [|by apply IH]. unfold asset_output in Ho. inv_bind Ho sl Hs. by injection Ho as <-.
Qed.

Lemma transition_summary_ok t w p s :
  transition_summary t w p = Ok s -> summary_ok s /\ ts_burned_asset_amount s = None /\ ts_burn_reason s = None.
Proof.
  unfold transition_summary. intros H. inv_bind H outs Ho. inv_bind H tot Ht. apply ok_or_ok in Ht. injection H as <-.
  apply checked_sum_ok in Ht as [Hsum Hle]. split; [|done]. split; [exact Hsum|done| |by eapply asset_outputs_types].
  cbn [ts_total_output_amount]. destruct outs; [by rewrite Hsum|]. by apply Hle.
Qed.

Lemma decode_hex32_len s e b : decode_hex32 s e = Ok b -> zlen b = 32.
Proof. unfold decode_hex32. intros H. inv_bind H x Hx. destruct (Z.eqb_spec (zlen x) 32); [|done]. by injection H as <-. Qed.

Lemma extract_summary_ok file sum :
  extract_transition_summary file = Ok sum -> Forall (fun w => zlen w.1 = 32 /\ Forall summary_ok w.2) sum.
Proof.
  unfold extract_transition_summary. intros H. inv_bind H i Hi. destruct (in_is_transfer i); [|done]. cbn [negb] in H.
  apply rmapM_ok in H. apply Forall_forall. intros [txid ts] Hin. apply list_elem_of_lookup_1 in Hin as [j Hj].
  destruct (Forall2_lookup_r _ _ _ _ _ H Hj) as (w & _ & Hw). unfold witness_summary in Hw.
  destruct (in_operations w) as [|op []]; try done. inv_bind Hw d Hd. inv_bind Hw ss Hss. inv_bind Hw x Hx. injection Hw as <- <-.
  cbn. split.
  - unfold txid_from_display_hex in Hx. inv_bind Hx raw Hraw. injection Hx as <-. unfold zlen. rewrite length_reverse.
    by apply decode_hex32_len in Hraw.
  - apply rmapM_ok in Hss. apply Forall_forall. intros s Hs. apply list_elem_of_lookup_1 in Hs as [n Hn].
    destruct (Forall2_lookup_r _ _ _ _ _ Hss Hn) as (t & _ & Ht). by apply transition_summary_ok in Ht as [? _].
Qed.

Lemma sorted_set_ok l : Sorted lex_le (sorted_set l) /\ NoDup (sorted_set l) /\ (forall x, x ∈ sorted_set l <-> x ∈ l).
Proof.
  unfold sorted_set. split_and!.
  - apply Sorted_merge_sort, _.
  - rewrite (merge_sort_Permutation lex_le). apply NoDup_elements.
  - intros x. by rewrite (merge_sort_Permutation lex_le), elem_of_elements, elem_of_list_to_set.
Qed.

Lemma settling_typed by_witness lb s :
  Forall (fun w : bytes * list TransitionSummary => zlen w.1 = 32 /\ Forall summary_ok w.2) by_witness ->
  settling_summary by_witness (Some lb) = Ok (Some s) ->
  summary_ok s /\ decode_opid (ts_op_id s) = Ok (sf_opid (lb_settling lb)).
Proof.
  intros Hall. unfold settling_summary. intros H. inv_bind H flat Hf. apply ok_or_ok in Hf.
  destruct (last by_witness) as [[txid ss]|] eqn:El; [|done]. cbn in Hf. case_bool_decide; [|done].
  destruct (list_find _ ss) as [[i t]|] eqn:Ei; [|done]. injection Hf as ->.
  apply list_find_Some in Ei as (Hi & Hn & _). apply last_Some_elem_of in El. rewrite Forall_forall in Hall.
  destruct (Hall _ El) as [_ Hss]. cbn in Hss. rewrite Forall_forall in Hss.
  pose proof (Hss _ (list_elem_of_lookup_2 _ _ _ Hi)) as [H1 H2 H3 H4]. destruct (negb _); [done|]. injection H as <-.
  split; [by split|]. cbn. unfold names_opid in Hn. destruct (decode_opid _) as [id| |]; try done.
  apply bool_decide_eq_true in Hn. by subst.
Qed.

Lemma single_global_len n gs key b : single_global n gs key = Ok (Some b) -> zlen b = n.
Proof.
  unfold single_global. destruct (gs !! key) as [[|v []]|]; try done. destruct (Z.eqb_spec (zlen v) n); cbn; [|done].
  by intros [= <-].
Qed.

Lemma le_combine_range bs : 0 <= le_combine bs < 256 ^ zlen bs.
Proof.
  induction bs as [|b bs IH]; [done|]. cbn [le_combine]. rewrite zlen_cons, Z.pow_add_r by (lia || apply zlen_nonneg).
  pose proof (b2z_range b). lia.
Qed.

(** C32: the facts have the types their readers rely on, with no help from rgb-lib: the
    witness txids are sorted and each once; a txid is 32 bytes; the totals of a summary
    are the exact sums of its asset outputs and fit a [u64]; and the operation id in the
    text of the settling summary is the one of the validated transition, whose burned
    amount fits a [u64] and whose reason is 32 bytes. *)
Theorem validated_facts_typed fs net bs bind confirmed lists v :
  validate_consignment fs net bs bind confirmed lists = Ok v ->
  (Sorted lex_le (v_witness_txids v) /\ NoDup (v_witness_txids v)) /\
  (NoDup (v_non_mined_witness_txids v) /\ Forall (fun x => zlen x = 32) (v_non_mined_witness_txids v)) /\
  Forall (fun w => zlen w.1 = 32 /\ Forall summary_ok w.2) (v_transitions_by_witness v) /\
  (forall s, v_last_transition v = Some s ->
    summary_ok s /\ (exists id, decode_opid (ts_op_id s) = Ok id /\ v_last_transfer_op_id v = Some id /\ zlen id = 32) /\
    (forall a, ts_burned_asset_amount s = Some a -> 0 <= a <= u64_max) /\
    (forall reason, ts_burn_reason s = Some reason -> zlen reason = 32)).
Proof.
  unfold validate_consignment. intros Hv. inv_bind Hv loaded Hload. destruct loaded as [t list].
  destruct (run_rgb_lib _ _ _ _ _ _) as [st [[val by_witness]| |]] eqn:Erun; [|done..].
  cbn [rbind] in Hv. inv_bind Hv locks Hlocks. inv_bind Hv nm Hnm.
  assert (Hsum : Forall (fun w : bytes * Datatypes.list TransitionSummary => zlen w.1 = 32 /\ Forall summary_ok w.2) by_witness).
  { by eapply extract_summary_ok, run_rgb_lib_summary. }
  pose proof Hv as Hv2. apply summarize_ok in Hv2 as (_ & _ & _ & _ & Hnm2 & Hset).
  unfold summarize in Hv. inv_bind Hv lb Hlb. inv_bind Hv lst Hlst. injection Hv as <-. cbn in *.
  unfold non_mined_witnesses in Hnm. inv_bind Hnm raw Hraw. injection Hnm as <-. split_and!.
  - apply sorted_set_ok.
  - apply sorted_set_ok.
  - apply sorted_set_ok.
  - apply Forall_forall. intros x Hx. apply (proj2 (proj2 (sorted_set_ok raw))) in Hx. apply rmapM_ok in Hraw.
    apply list_elem_of_lookup_1 in Hx as [i Hi]. destruct (Forall2_lookup_r _ _ _ _ _ Hraw Hi) as (w & _ & Hw).
    by apply decode_hex32_len in Hw.
  - done.
  - intros s ->. destruct lb as [lb|]; [|done]. destruct (settling_typed _ _ _ Hsum Hlst) as [Hok Hid].
    destruct (Hset s eq_refl) as (wb & k & lb' & Hst & _ & _ & _ & Hb & Hr). split; [done|]. split; [|split].
    + exists (sf_opid (lb_settling lb)). split_and!; [done|done|]. by apply decode_hex32_len in Hid.
    + intros a Ha. rewrite Hb in Ha. destruct (st_burned _ _ _ _ Hst) as (g & Hg & Hgb). rewrite Hgb in Ha.
      destruct g as [g|]; [|done]. injection Ha as <-. apply single_global_len in Hg. pose proof (le_combine_range g) as Hl.
      rewrite Hg in Hl. unfold u64_max. lia.
    + intros reason Hre. rewrite Hr in Hre. pose proof (st_reason _ _ _ _ Hst) as Hg. rewrite Hre in Hg.
      by apply single_global_len in Hg.
Qed.

End Props.
