(* ===== verification/BurnSourceProps.v ===== *)
(** * From the consignment to the signed release

    [validate_source], the binds of the release and the check before the key,
    composed: what a signed release rests on. *)

From stdpp Require Import base numbers list gmap strings sorting.
From S2P Require Import Prelude Errors EvmEvents SpvTypes SpvChain SpvChainSpec SpvChainFacts SpvMerkle PsbtTypes RgbCommit.
From S2P Require Import AttestedPolicy SpvCrosscheck Io RejectList RgbTransfer RgbCost Consensus Validation BurnSource ConsensusProps.
From S2P Require EvmRelease EvmReleaseProps EvmRelay EvmRelayProps.

#[local] Open Scope list_scope.
#[local] Open Scope Z_scope.

Section Source.
Context {R : RgbStd} {T : TransferStd} {F : BfaSchema} {G : BfaBurnSchema} {B : Bitcoin} {L : RgbLib}.
Context {C : BitcoinCrate} {I : Indexer} {A : EvmRelease.AbiCodec}.
Context (keccak256 sha256d : bytes -> bytes) (serialize_header : Header -> bytes).
Context (eip712_hash_struct : EvmRelease.UtexoBurnDestinationV1 -> bytes).

Lemma bind_asset_pinned source cfg id :
  bind_asset source cfg id = Ok tt -> sc_is_configured cfg = true -> id = sc_rgb_asset_id cfg.
Proof.
  unfold bind_asset, assert_asset_binding. intros H Hc. rewrite Hc in H. cbn [negb] in H.
  repeat (case_bool_decide; cbn [negb] in H; try done).
Qed.

Lemma validate_source_ok fs source cfg validator bind read chain chain' now pins pins' v :
  validate_source keccak256 sha256d true fs source cfg validator bind read chain chain' now pins = (pins', Ok v) ->
  exists net confirmed,
    validate_consignment fs net (rsrc_consignment source) bind confirmed
      {| la_bind_asset := bind_asset source cfg; la_read := read |} = Ok v /\
    validate_source_chain sha256d chain_net_prefix (contents chain') (Some (anchored_of v))
      (rsrc_merkle_proofs source) now pins (sc_spv_min_confirmations cfg) = (pins', Ok tt).
Proof.
  unfold validate_source. cbv zeta. destruct (let? _ := validate_source_payload _ _ _ in _) as [v'| |] eqn:E; [|done..].
  cbn [negb]. unfold lock_chain at 1. destruct (poisoned chain'); [done|].
  destruct (validate_source_chain _ _ _ _ _ _ _ _) as [p r] eqn:Ec. intros [= -> H].
  inv_bind E u Hu. inv_bind E val Hval. inv_bind E confirmed Hconf. inv_bind E v2 Hv2. inv_bind E u2 Hu2. injection E as ->.
  inv_bind H u3 Hu3. injection H as ->. destruct u3. subst r. by exists (rv_chain_net val), confirmed.
Qed.

(** The deposit that a mint of the history is bound to. *)
Definition deposit_of (cfg : DepositPins) (key : bytes * bytes * Z) : bytes :=
  let '(o, w, a) := key in keccak256 (deposit_preimage keccak256 cfg (lock_id_with o w) a).

Lemma derived_bound cfg bridge a b l :
  derived_locks keccak256 cfg bridge [a] = Ok b -> ba_locks b = [l] ->
  bb_chain_id bridge = dep_chain_id cfg /\ bb_address bridge = dep_funds_in_contract cfg /\
  vl_operation_id l = keccak256 (deposit_preimage keccak256 cfg (ma_lock_id a) (ma_amount a)).
Proof.
  unfold derived_locks, check_bridge. intros H Hl. inv_bind H u Hu. inv_bind H locks Hlocks. injection H as <-.
  cbn in Hl. subst locks. cbn [derive_all rmapM] in Hlocks. unfold derive_all in Hlocks. cbn [rmapM] in Hlocks.
  inv_bind Hlocks l' Hd. inv_bind Hlocks u' Hnil. injection Hnil as <-. injection Hlocks as ->.
  unfold derived_lock, rgb_mint_deposit_id in Hd. inv_bind Hd dep Hid. injection Hd as <-. cbn.
  destruct (_ || _) eqn:Ep in Hid; [done|]. destruct (_ =? 0) in Hid; [done|]. injection Hid as <-.
  destruct (_ || _) eqn:Eb in Hu; [done|]. apply orb_false_iff in Eb as [E1 E2]. apply negb_false_iff in E1, E2.
  apply Z.eqb_eq in E1. by apply bool_decide_eq_true in E2.
Qed.

(** The mint locks cite the deposits of the history. *)
Lemma locks_are_deposits cfg net bs confirmed lists t v :
  validated_from net bs (derived_locks keccak256 cfg) confirmed lists t v ->
  forall x, x ∈ map vl_operation_id (v_mint_locks v) <-> exists key, key ∈ mint_keys t /\ x = deposit_of cfg key.
Proof.
  intros Hv. pose proof (vf_locks _ _ _ _ _ _ _ Hv) as Hperm.
  assert (Hop : forall l, l ∈ v_mint_locks v ->
    vl_operation_id l = keccak256 (deposit_preimage keccak256 cfg (vl_lock_id l) (minted l))).
  { intros l Hl. destruct (vf_bound _ _ _ _ _ _ _ Hv l Hl) as (bridge & a & b & _ & Hb & Hls & <- & <-).
    by destruct (derived_bound _ _ _ _ _ Hb Hls) as (_ & _ & ?). }
  intros x. rewrite list_elem_of_fmap. split.
  - intros (l & -> & Hl). rewrite (Hop l Hl).
    assert (Hin : (vl_lock_id l, minted l) ∈ map (fun '(o, w, a) => (lock_id_with o w, a)) (mint_keys t)).
    { rewrite <- Hperm. apply list_elem_of_fmap. by exists l. }
    apply list_elem_of_fmap in Hin as ([[o w] a] & [= -> ->] & Hk). by exists (o, w, a).
  - intros ([[o w] a] & Hk & ->).
    assert (Hin : (lock_id_with o w, a) ∈ map (fun l => (vl_lock_id l, minted l)) (v_mint_locks v)).
    { rewrite Hperm. apply list_elem_of_fmap. by exists (o, w, a). }
    apply list_elem_of_fmap in Hin as (l & [= Hid Ha] & Hl). exists l. split; [|done]. by rewrite (Hop l Hl), <- Hid, <- Ha.
Qed.

Lemma amount_of_burn r v :
  EvmRelease.validate_funds_out_amount TS_BURN r v = Ok tt ->
  exists s, EvmRelease.last_transition v = Some s /\ EvmRelease.transition_type s = TS_BURN /\
    EvmRelease.burned_asset_amount s = Some (EvmRelease.amount r).
Proof.
  intros H. pose proof (EvmReleaseProps.amount_ok TS_BURN r v H) as Hb.
  unfold EvmReleaseProps.burned in Hb. destruct (EvmRelease.last_transition v) as [s|] eqn:E; [|done]. cbn in Hb.
  exists s. split_and!; [done| |done]. unfold EvmRelease.validate_funds_out_amount in H. rewrite E in H. cbn [ok_or rbind] in H.
  inv_bind H a Ha. unfold EvmRelease.funds_out_source_amount in Ha.
  by destruct (Z.eqb_spec (EvmRelease.transition_type s) TS_BURN).
Qed.

(** The pins after the binds still hold those before them. *)
Lemma agree_keeps_pins r v proofs c pins mode k pins' :
  poisoned (pinned pins) = false ->
  EvmRelay.verify_btc_relay_agreement sha256d keccak256 serialize_header r v proofs c pins mode k = (pins', Ok tt) ->
  pins_is_empty pins' = false /\
  forall j p, contents (pinned pins) !! j = Some p ->
    exists p', contents (pinned pins') !! j = Some p' /\ pin_hash p' = pin_hash p /\ pin_depth p <= pin_depth p'.
Proof.
  intros Hpo (s & l & a & pins1 & _ & _ & _ & Hp1 & _ & _ & Hp2 & _)%EvmRelayProps.agree_ok.
  apply pin_recorded in Hp1 as (Hpo1 & _ & Hk1 & _). apply pin_recorded in Hp2 as (Hpo2 & (p & Hp & _) & Hk2 & _). split.
  - unfold pins_is_empty, pins_len. rewrite Hpo2, Hpo1, Hpo. apply Z.eqb_neq. intros E.
    assert (size (contents (pinned pins')) = 0%nat) as E0%map_size_empty_inv by lia. by rewrite E0, lookup_empty in Hp.
  - intros j q Hq. destruct (Hk1 j q Hq) as (q1 & Hq1 & ? & ?). destruct (Hk2 j q1 Hq1) as (q2 & Hq2 & ? & ?).
    exists q2. split_and!; [done|congruence|lia].
Qed.

(** Every witness of the history is still where it was proven when the pins hold. *)
Lemma witnesses_stay c c' v proofs now k pins pins' :
  chain_wf c -> chain_wf c' -> hc_checkpoint c' = hc_checkpoint c ->
  Forall (fun p => is_u32 (mp_block_height p)) proofs ->
  validate_source_chain sha256d chain_net_prefix c (Some v) proofs now new_pins k = (pins, Ok tt) ->
  (forall j p, contents (pinned pins) !! j = Some p ->
    exists p', contents (pinned pins') !! j = Some p' /\ pin_hash p' = pin_hash p /\ pin_depth p <= pin_depth p') ->
  assert_unchanged pins' c' = Ok tt ->
  forall x, x ∈ vc_witness_txids v ->
  exists p h h', p ∈ proofs /\ mp_txid p = x /\ header_at c (mp_block_height p) = Some h /\
    verify_merkle_proof sha256d (reverse x) (mp_tx_position p) (reverse <$> mp_merkle_path p)
      (header_merkle_root h) = Ok tt /\
    header_at c' (mp_block_height p) = Some h' /\ block_hash h' = block_hash h /\
    k <= tip_height c' - mp_block_height p + 1.
Proof.
  intros W W' Hcp Hh H Hkeep Hu x Hx. apply validate_source_chain_ok in H as (cons' & [= <-] & Hv & Hpin).
  apply validate_spv_proofs_ok in Hv as (_ & Hcov & Hok); [|done|done]. rewrite Forall_forall in Hh, Hok.
  apply Hcov in Hx as (p & -> & Hp)%list_elem_of_fmap. destruct (Hok p Hp) as [_ _ _ (h & Hhd & Hm) _].
  apply assert_unchanged_ok in Hu as [_ Hu]. apply pin_all_records in Hpin as (_ & _ & Hrec).
  rewrite Forall_forall in Hrec. destruct (Hrec p Hp) as (q0 & Hq0 & Hhq0 & Hkq0).
  destruct (Hkeep _ _ Hq0) as (q & Hq & Hqh & Hqd). apply Hu in Hq as [Hq Hd]. pose proof (Hh p Hp) as Hhp.
  rewrite (hash_at_header c _ h) in Hhq0 by done. injection Hhq0 as Hhq.
  destruct (chain_held c' (mp_block_height p) (pin_hash q) W' Hhp) as (h' & Hh' & Hb & Ht'); [|done|].
  { pose proof (header_at_range c _ h W Hhp Hhd) as [Hb _]. rewrite (wf_height c' W'), Hcp, <- (wf_height c W). done. }
  exists p, h, h'. split_and!; try done; [congruence|]. rewrite depth_wrap in Hd by done. lia.
Qed.

(** What a signed release rests on, read from the consignment alone. *)
Record release_backed (source : RgbSource) (cfg : SourceConfig)
    (read : option (nat -> RejectListContract -> enclave_result Decisions)) (r : EvmRelease.ReleaseIdentity)
    (record : option EvmRelease.BurnDestinationRecord)
    (c c' : HeaderChain) (t : Transfer) (wb : WitnessBundle) (k : KnownTransition) : Prop := {
  (** The one burn of the last bundle, for its amount. *)
  rb_load : transfer_load (rsrc_consignment source) = Some t;
  rb_asset : sc_is_configured cfg = true -> contract_to_string (transfer_contract_id t) = sc_rgb_asset_id cfg;
  rb_last : last (tr_bundles t) = Some wb;
  rb_burn : k ∈ known_transitions (wb_bundle wb) /\ is_burn k = true;
  rb_one b : b ∈ known_transitions (wb_bundle wb) -> is_burn b = true -> b = k;
  rb_opid : EvmRelease.source_burn_tx_id r = known_opid k;
  rb_amount : exists raw, single_global 8 (globals (known_transition k)) GS_BURNED_ASSET = Ok (Some raw) /\
    le_combine raw = EvmRelease.amount r;
  (** The payee, route and chain are those that the reason of this burn names. *)
  rb_payee : exists reason target,
    single_global 32 (globals (known_transition k)) GS_BURN_REASON = Ok (Some reason) /\
    EvmReleaseProps.names_target eip712_hash_struct reason record target /\
    EvmRelease.bt_dst_eid target = EvmRelease.dst_eid r /\ EvmRelease.bt_recipient target = EvmRelease.recipient r /\
    (forall ch, EvmRelease.bt_destination_chain_id target = Some ch -> EvmRelease.destination_chain_id r = ch);
  (** The deposits of every mint in the history, at the pinned bridge. *)
  rb_bridge : bridge_from_genesis (tr_genesis t) =
    Ok {| bb_chain_id := dep_chain_id (sc_pins cfg); bb_address := dep_funds_in_contract (sc_pins cfg) |};
  rb_deposits : exists ids, EvmRelease.abi_encode_settlement ids = EvmRelease.settlement_data r /\
    forall x, x ∈ ids <-> exists key, key ∈ mint_keys t /\ x = deposit_of (sc_pins cfg) key;
  (** Every witness is still mined and deep. *)
  rb_witnesses b : b ∈ tr_bundles t -> exists p h h', p ∈ rsrc_merkle_proofs source /\
    mp_txid p = reverse (wb_witness_id b) /\ header_at c (mp_block_height p) = Some h /\
    verify_merkle_proof sha256d (wb_witness_id b) (mp_tx_position p) (reverse <$> mp_merkle_path p)
      (header_merkle_root h) = Ok tt /\
    header_at c' (mp_block_height p) = Some h' /\ block_hash h' = block_hash h /\
    sc_spv_min_confirmations cfg <= tip_height c' - mp_block_height p + 1;
  (** A listed asset: its list was read and rejects no terminal input or output. *)
  rb_list l : reject_list (tr_genesis t) = Ok (Some l) ->
    exists rd n d, read = Some rd /\ rd n l = Ok d /\
      forall o, o ∈ reject_check_origins t -> key_of_opout o ∉ d_reject d
}.

(** From the bytes of the host to the signature.  When [validate_source] accepts a
    consignment on the chain [chain'], the binds accept the release, and the key is
    used on the chain [hc'], then the release pays the amount of the one burn in the
    last bundle of that consignment, which is of the pinned asset, under its operation
    id and to the payee its reason names; the settlement cites exactly the deposits that the mints of the history derive
    at the pinned bridge; and every transaction of the history is still in the block
    its proof named, at the required depth. *)
Lemma release_backed_by_history {Laws : RgbLibLaws} fs source cfg validator read chain chain' now v hc hc' mode r
    record pins pins' {X : Type} (sign : enclave_result X) signature :
  chain_inv (contents chain') -> chain_inv (contents hc') ->
  hc_checkpoint (contents hc') = hc_checkpoint (contents chain') ->
  Forall (fun p => is_u32 (mp_block_height p)) (rsrc_merkle_proofs source) ->
  validate_source keccak256 sha256d true fs source cfg validator (Some (derived_locks keccak256 (sc_pins cfg))) read
    chain chain' now new_pins = (pins, Ok v) ->
  EvmRelay.apply_funds_out_binding sha256d keccak256 serialize_header TS_BURN eip712_hash_struct hc mode
    (sc_spv_min_confirmations cfg) r (Some (burn_of v)) (rsrc_merkle_proofs source) pins record = (pins', Ok tt) ->
  EvmRelay.sign_with_chain_pins_unchanged hc' pins' sign = Ok signature ->
  exists t wb k, release_backed source cfg read r record (contents chain') (contents hc') t wb k.
Proof.
  intros [W _] [W' _] Hcp Hh Hsrc Hbind Hsign. apply validate_source_ok in Hsrc as (net & confirmed & Hv & Hchain).
  apply consignment_sound in Hv as [t Hv].
  apply EvmRelayProps.apply_binding_ok in Hbind as (v' & [= <-] & _ & _ & Hag & Ham & Hop & Hrec & Hset).
  apply EvmReleaseProps.op_id_ok in Hop. apply EvmReleaseProps.burn_recipient_ok in Hrec as (ls & reason & target & Hls & Hrs & Hpay). apply amount_of_burn in Ham as (s & Hs & Hty & Hamt).
  apply EvmRelayProps.settlement_ok in Hset as (Hne & ids & Henc & _ & Hids).
  cbn in Hs, Hls. destruct (v_last_transition v) as [lt|] eqn:Elt; [|done]. injection Hs as <-. injection Hls as <-.
  cbn in Hty, Hamt, Hrs.
  destruct (vf_settling _ _ _ _ _ _ _ Hv lt Elt) as (wb & k & lb & Hst & _ & Hid & Hkt & Hkb & Hkr).
  assert (Hpo : poisoned (pinned pins) = false).
  { apply validate_source_chain_ok in Hchain as (? & _ & _ & Hpin). by apply pin_all_records in Hpin as (-> & _). }
  destruct (agree_keeps_pins _ _ _ _ _ _ _ _ Hpo Hag) as [Hnonempty Hkeep].
  unfold EvmRelay.sign_with_chain_pins_unchanged in Hsign. rewrite Hnonempty in Hsign.
  destruct (poisoned hc'); [done|]. inv_bind Hsign u Hu. destruct u.
  pose proof (witnesses_stay _ _ _ _ _ _ _ _ W W' Hcp Hh Hchain Hkeep Hu) as Hstay.
  pose proof (locks_are_deposits _ _ _ _ _ _ _ Hv) as Hdep. cbn in Hids. exists t, wb, k. split.
  - apply Hv.
  - intros Hc. destruct (vf_asset _ _ _ _ _ _ _ Hv) as [Ha <-]. by eapply bind_asset_pinned.
  - apply Hst.
  - split; [apply Hst|]. unfold is_burn. apply Z.eqb_eq. congruence.
  - apply Hst.
  - cbn in Hop. congruence.
  - destruct (st_burned _ _ _ _ Hst) as (raw & Hraw & Hb). rewrite Hamt, Hb in Hkb. destruct raw as [raw|]; [|done].
    exists raw. split; [done|]. by injection Hkb.
  - exists reason, target. split; [|done]. rewrite (st_reason _ _ _ _ Hst). congruence.
  - cbn in Hne. destruct (v_mint_locks v) as [|l ls] eqn:El; [done|].
    destruct (vf_bound _ _ _ _ _ _ _ Hv l) as ([ci ad] & a & b & Hg & Hb & Hls & _); [rewrite El; by left|].
    destruct (derived_bound _ _ _ _ _ Hb Hls) as (H1 & H2 & _). cbn in H1, H2. by subst.
  - exists ids. split; [done|]. intros x. by rewrite Hids, Hdep.
  - intros b Hb. destruct (vf_witnesses _ _ _ _ _ _ _ Hv b Hb) as [Hw _].
    destruct (Hstay _ Hw) as (p & h & h' & H1 & H2 & H3 & H4 & H5). exists p, h, h'. rewrite reverse_involutive in H4. done.
  - apply (vf_list _ _ _ _ _ _ _ Hv).
Qed.

End Source.
