(* ===== verification/ConsensusSample.v ===== *)
(** * A small rgb-lib, and a consignment with a mint and a burn

    The questions of [RgbLib] in the simplest order that keeps [RgbLibLaws]: the
    chain, every witness, every mint claim, the list.  On it the theorems of
    [ConsensusProps] and [BurnSourceProps] apply to a concrete release. *)

From stdpp Require Import base numbers list gmap strings.
From S2P Require Import Prelude Errors PsbtTypes RgbCommit EvmEvents SpvTypes SpvChain SpvConcrete SpvChainSpec SpvCrosscheck.
From S2P Require Import Io RejectList RgbTransfer RgbCost Consensus Validation BurnSource ConsensusProps BurnSourceProps.
From S2P Require EvmRelease EvmReleaseProps EvmRelay EvmRelayProps PsbtSample RgbSample.

#[local] Open Scope list_scope.
#[local] Open Scope Z_scope.

(** ** rgb-lib in small *)

Section Small.
Context {R : RgbStd} {T : TransferStd} {F : BfaSchema} {G : BfaBurnSchema} {B : Bitcoin}.

Abbreviation Verdict := (ConsignmentValidation + RgbLibError)%type.

Fixpoint ask_witnesses (ids : list bytes) (k : Asking Verdict) : Asking Verdict :=
  match ids with
  | [] => k
  | id :: ids =>
      AskWitness id (fun r =>
        match r with Ok (Resolved _ _) => ask_witnesses ids k | _ => Done (inr (NetworkError "witness")) end)
  end.

Fixpoint ask_claims (cs : list Claim) (k : Asking Verdict) : Asking Verdict :=
  match cs with
  | [] => k
  | c :: cs =>
      AskClaim c (fun r => match r with Ok true => ask_claims cs k | _ => Done (inr (MintLockNotFound "mint")) end)
  end.

Definition ask_list (t : Transfer) (k : Asking Verdict) : Asking Verdict :=
  match reject_list (tr_genesis t) with
  | Ok (Some c) =>
      AskList (EvmSource (rl_chain_id c) (rl_address c)) (fun r =>
        match r with
        | Ok ds =>
            if existsb (fun o => bool_decide ((o, false) ∈ ds)) (elements (reject_check_origins t))
            then Done (inr (ConsignmentRejected [])) else k
        | _ => Done (inr (NetworkError "list"))
        end)
  | _ => k
  end.

Definition mint_claims (t : Transfer) : list Claim :=
  map (fun '(o, w, a) => {| cl_opid := o; cl_witness_id := w; cl_amount := a; cl_before_block := 0 |}) (mint_keys t).

Definition small_validate (file : bytes) : Asking Verdict :=
  match transfer_load file with
  | None => Done (inr (OtherError "file"))
  | Some t =>
      ask_witnesses (map wb_witness_id (tr_bundles t)) (ask_claims (mint_claims t) (ask_list t
        (Done (inl {| cv_is_transfer := true; cv_consignment_id := consignment_id t; cv_warnings := [];
                      cv_witnesses := [] |}))))
  end.

(** Hex, lower case. *)
Definition digits : bytes := String.list_byte_of_string "0123456789abcdef".

Definition to_hex (bs : bytes) : string :=
  String.string_of_list_byte
    (concat (map (fun b => map (fun z => default x30 (digits !! Z.to_nat z)) [b2z b / 16; b2z b mod 16]) bs)).

Fixpoint read_hex (s : bytes) : option bytes :=
  match s with
  | [] => Some []
  | h :: l :: s =>
      '(hi, _) ← list_find (fun d => d = h) digits;
      '(lo, _) ← list_find (fun d => d = l) digits;
      rest ← read_hex s;
      Some (z2b (16 * Z.of_nat hi + Z.of_nat lo) :: rest)
  | _ => None
  end.

(** [inspect] is a table. *)
Definition small_lib (inspect : bytes -> option Inspection) : RgbLib := {|
  validate_with file _ _ _ := small_validate file;
  inspect_consignment := inspect;
  network_supported _ := true;
  hex_decode s := read_hex (String.list_byte_of_string s)
|}.

Lemma ask_witnesses_path ids k tr v :
  path (ask_witnesses ids k) tr (inl v) ->
  exists tr1 tr2, tr = tr1 ++ tr2 /\ path k tr2 (inl v) /\ confirmed_claims tr1 = [] /\
    forall id, id ∈ ids -> exists tx ord, EvWitness id (Ok (Resolved tx ord)) ∈ tr1.
Proof.
  revert tr. induction ids as [|id ids IH]; intros tr H; cbn in H.
  - exists [], tr. split_and!; [done..|]. by intros id ?%elem_of_nil.
  - inversion H as [|? ? r tr' ? Hk| | | |]; subst. destruct r as [[|tx ord]| |]; try by inversion Hk.
    apply IH in Hk as (tr1 & tr2 & -> & Hp & Hc & Hall). eexists (_ :: tr1), tr2. split; [done|]. split; [done|]. split; [done|].
    intros id' [->|Hin]%elem_of_cons; [exists tx, ord; by left|]. destruct (Hall id' Hin) as (tx' & ord' & ?).
    exists tx', ord'. by right.
Qed.

Lemma ask_claims_path cs k tr v :
  path (ask_claims cs k) tr (inl v) ->
  exists tr1 tr2, tr = tr1 ++ tr2 /\ path k tr2 (inl v) /\ confirmed_claims tr1 = cs.
Proof.
  revert tr. induction cs as [|c cs IH]; intros tr H; cbn in H; [by exists [], tr|].
  inversion H as [| | | |? ? r tr' ? Hk|]; subst. destruct r as [[]| |]; try by inversion Hk.
  apply IH in Hk as (tr1 & tr2 & -> & Hp & Hc). eexists (_ :: tr1), tr2. split; [done|]. split; [done|].
  unfold confirmed_claims in *. cbn [omap list_omap]. by rewrite Hc.
Qed.

Lemma ask_list_path t v0 tr v :
  path (ask_list t (Done (inl v0))) tr (inl v) ->
  confirmed_claims tr = [] /\
  forall c, reject_list (tr_genesis t) = Ok (Some c) ->
    exists s ds, EvList s (Ok ds) ∈ tr /\ source_contract s = Some c /\
      forall o, o ∈ reject_check_origins t -> (o, false) ∉ ds.
Proof.
  unfold ask_list. destruct (reject_list (tr_genesis t)) as [[c|]| |]; try (intros H; by inversion H).
  intros H. inversion H as [| | | | |s k r tr' a Hk]; subst. destruct r as [ds| |]; try by inversion Hk.
  destruct (existsb _ _) eqn:Ee; [by inversion Hk|]. inversion Hk; subst. split; [done|]. intros c' [= <-].
  eexists _, ds. split; [by left|]. split; [by destruct c|]. intros o Ho Hin.
  assert (Ht : existsb (fun o => bool_decide ((o, false) ∈ ds)) (elements (reject_check_origins t)) = true); [|congruence].
  apply existsb_exists. exists o. split; [by apply list_elem_of_In, elem_of_elements|by apply bool_decide_eq_true].
Qed.

Lemma claims_app tr1 tr2 : confirmed_claims (tr1 ++ tr2) = confirmed_claims tr1 ++ confirmed_claims tr2.
Proof. apply omap_app. Qed.

(** What [RgbLibLaws] says, of an accepted file. *)
Lemma small_validate_path file tr v t :
  path (small_validate file) tr (inl v) -> transfer_load file = Some t ->
  exists tr1 tr2 tr3, tr = tr1 ++ tr2 ++ tr3 /\
    (forall id, id ∈ map wb_witness_id (tr_bundles t) -> exists tx ord, EvWitness id (Ok (Resolved tx ord)) ∈ tr1) /\
    confirmed_claims tr = mint_claims t /\
    (forall c, reject_list (tr_genesis t) = Ok (Some c) ->
      exists s ds, EvList s (Ok ds) ∈ tr3 /\ source_contract s = Some c /\
        forall o, o ∈ reject_check_origins t -> (o, false) ∉ ds).
Proof.
  unfold small_validate. intros H Ht. rewrite Ht in H.
  apply ask_witnesses_path in H as (tr1 & tr' & -> & H & Hc1 & Hw).
  apply ask_claims_path in H as (tr2 & tr3 & -> & H & Hc2). apply ask_list_path in H as [Hc3 Hl].
  exists tr1, tr2, tr3. split_and!; [done..| |done]. by rewrite !claims_app, Hc1, Hc2, Hc3, app_nil_r.
Qed.

#[export] Instance small_lib_laws inspect : RgbLibLaws (L := small_lib inspect).
Proof.
  split; cbn.
  - intros file _ _ _ tr v t wb H Ht Hwb. destruct (small_validate_path _ _ _ _ H Ht) as (tr1 & tr2 & tr3 & -> & Hw & _).
    destruct (Hw (wb_witness_id wb)) as (tx & ord & Hin); [by apply list_elem_of_fmap_2|]. exists tx, ord. set_solver.
  - intros file _ _ _ tr v t H Ht. destruct (small_validate_path _ _ _ _ H Ht) as (_ & _ & _ & _ & _ & -> & _).
    unfold mint_claims. rewrite map_map. rewrite (map_ext _ id); [by rewrite map_id|]. by intros [[o w] a].
  - intros file _ _ _ tr v t c H Ht Hc. destruct (small_validate_path _ _ _ _ H Ht) as (tr1 & tr2 & tr3 & -> & _ & _ & Hl).
    destruct (Hl c Hc) as (s & ds & Hin & Hs & Ho). exists s, ds. split_and!; [set_solver|done|done].
Qed.

End Small.

(** ** A mint and its burn *)

Module Release.
Import PsbtSample RgbSample.

#[local] Instance schema : BfaBurnSchema := {|
  BFA_SCHEMA_ID := [x0b; x0f; x0a];
  TS_BURN := 8000; TS_TRANSFER := 10000; TS_INFLATION := 8001; TS_LINK := 8002;
  TS_TRANSFER_INFLATION := 10001; TS_TRANSFER_LINK := 10002;
  GS_BURNED_ASSET := 2011; GS_BURN_REASON := 2012; GS_REJECT_LIST := 2013
|}.

Definition mint_id : bytes := replicate 32 x08.
Definition burn_id : bytes := replicate 32 x09.
Definition reason : bytes := EvmReleaseProps.sample_hash (EvmRelease.to_sol_v1 EvmReleaseProps.sample_record).

Definition mint : KnownTransition := {|
  known_opid := mint_id;
  known_transition := {| contract_id := pin_id; transition_type := 8013;
    t_inputs := [{| op := [x01]; ty := 4010; no := 0 |}];
    assignments := {[ 4000 := Fungible [(our_seal 0, 5000)] ]};
    globals := {[ 2010 := [rev (be_split 8 5000)] ]}; metadata := ∅ |}
|}.

Definition burn : KnownTransition := {|
  known_opid := burn_id;
  known_transition := {| contract_id := pin_id; transition_type := 8000;
    t_inputs := [{| op := mint_id; ty := 4000; no := 0 |}];
    assignments := ∅;
    globals := <[2011 := [rev (be_split 8 5000)]]> {[ 2012 := [reason] ]}; metadata := ∅ |}
|}.

Definition bundle (outs : list TxOut) (k : KnownTransition) : WitnessBundle := {|
  wb_tx := {| tx_input := []; tx_output := outs; tx_rest := [] |};
  wb_anchor := {| dbc_proof := Opret |};
  wb_bundle := {| input_map := list_to_map (map (fun i => (i, known_opid k)) (t_inputs (known_transition k)));
                  known_transitions := [k] |}
|}.

Definition transfer : Transfer := {|
  tr_genesis := {| schema_id := [x0b; x0f; x0a]; g_chain_net := BitcoinMainnet; g_globals := ∅; g_assignments := ∅ |};
  tr_bundles := [bundle [{| value := 0; script_pubkey := [x6a] |}] mint; bundle [] burn]
|}.

Definition file : bytes := [xcc].

#[local] Instance std : TransferStd := {|
  transfer_load bs := if bool_decide (bs = file) then Some transfer else None;
  transfer_contract_id _ := pin_id;
  consignment_id _ := "id";
  genesis_id _ := [x01];
  wb_witness_id wb := compute_txid (wb_tx wb);
  terminal_ops _ := {[burn_id]};
  tx_total_size _ := 150;
  chain_net_prefix _ := "bc";
  bridge_location _ := Some (42161, replicate 20 x11)
|}.

(** The txid of the mint, in display order. *)
Definition mint_txid : bytes := replicate 31 x00 ++ [x01].

Definition inspection : Inspection := {|
  in_is_transfer := true;
  in_chain_net := "bc";
  in_witnesses :=
    [{| in_txid := to_hex mint_txid;
        in_operations := [[{| ti_opid := to_hex mint_id; ti_type := TyMint; ti_outputs := [] |}]] |};
     {| in_txid := to_hex sample_txid;
        in_operations := [[{| ti_opid := to_hex burn_id; ti_type := TyBurn; ti_outputs := [] |}]] |}]
|}.

#[local] Instance lib : RgbLib := small_lib (fun bs => if bool_decide (bs = file) then Some inspection else None).

#[local] Instance indexer : Indexer := {|
  electrum_header _ _ := Err "no node";
  electrum_tip _ := Err "no node";
  electrum_history _ _ := Err "no node";
  electrum_merkle _ _ _ := Err "no node";
  esplora_height _ := Err "no node";
  esplora_check_net _ _ := Err "no node";
  esplora_resolve _ _ := Err "no node";
  chain_hash _ := [];
  witness_pos h t := Some {| wp_height := h; wp_time := t |};
  node_sha256d := EvmRelayProps.relay_sha
|}.

Definition proofs : list MerkleProofEntry :=
  [EvmRelayProps.relay_proof;
   {| mp_txid := mint_txid; mp_block_height := 2026; mp_tx_position := 1; mp_merkle_path := [replicate 32 x00] |}].

Definition source : RgbSource := {|
  rsrc_asset_id := "rgb:asset"; rsrc_consignment := file;
  rsrc_consignment_hash := replicate 32 x07; rsrc_merkle_proofs := proofs
|}.

Definition config : SourceConfig := {|
  sc_max_consignment_bytes := 1000; sc_max_merkle_proofs := 10; sc_max_total_proof_bytes := 1000;
  sc_spv_min_confirmations := 2; sc_rgb_asset_id := "rgb:asset"; sc_is_configured := true;
  sc_pins := {| dep_funds_in_contract := replicate 20 x11; dep_chain_id := 42161; dep_token_contract := replicate 20 x22 |}
|}.

Definition validator : RgbValidator :=
  {| rv_indexer_url := "ssl://indexer"; rv_chain_net := BitcoinMainnet; rv_timeout_secs := 15 |}.

Definition scratch : Scratch := {| sc_create := true; sc_write := true; sc_remove := true; sc_utf8 := true |}.

Definition chain : mutex (HeaderChain (B := small_crate)) := new_mutex EvmRelayProps.relay_chain.

Definition validated : ChainPins * enclave_result ValidatedConsignment :=
  validate_source (C := small_crate) EvmRelayProps.relay_keccak EvmRelayProps.relay_sha true scratch source config
    (Some validator) (Some (derived_locks EvmRelayProps.relay_keccak (sc_pins config))) None chain chain
    (secs 18000) new_pins.

(** [ValidatedConsignment::default]. *)
Definition no_facts : ValidatedConsignment := {|
  v_contract_id := ""; v_chain_net := ""; v_witness_txids := []; v_last_transition := None; v_last_witness_txid := None;
  v_last_transfer_witness_prevouts := []; v_last_closed_seals := []; v_last_bundle_fully_disclosed := false;
  v_last_mint_rights := []; v_last_transfer_op_id := None; v_non_mined_witness_txids := [];
  v_transitions_by_witness := []; v_mint_locks := []
|}.

Definition facts : ValidatedConsignment := match validated.2 with Ok v => v | _ => no_facts end.

(** The same consignment, its one mint bound to its lock. *)
Lemma validate_consignment_sound_witness :
  exists bind confirmed lists t,
    validate_consignment scratch BitcoinMainnet file (Some bind) confirmed lists = Ok facts /\
    validated_from BitcoinMainnet file bind confirmed lists t facts /\
    map minted (v_mint_locks facts) = [5000].
Proof.
  pose (bind := derived_locks EvmRelayProps.relay_keccak (sc_pins config)).
  pose (confirmed := proven_confirmed (list_to_map (map (fun wb => (wb_witness_id wb, {| wp_height := 2026; wp_time := 0 |}))
    (tr_bundles transfer)))).
  pose (lists := {| la_bind_asset := bind_asset source config; la_read := None |}).
  assert (Hv : validate_consignment scratch BitcoinMainnet file (Some bind) confirmed lists = Ok facts) by (by vm_compute).
  destruct (validate_consignment_sound scratch BitcoinMainnet file (Some bind) confirmed lists facts Hv) as [t Ht].
  exists bind, confirmed, lists, t. split_and!; [exact Hv|exact Ht|by vm_compute].
Defined.

Lemma validated_facts_typed_witness :
  exists s, v_last_transition facts = Some s /\ summary_ok s /\ ts_burned_asset_amount s = Some 5000 /\
    NoDup (v_witness_txids facts).
Proof.
  destruct (validated_facts_typed scratch BitcoinMainnet file
    (Some (derived_locks EvmRelayProps.relay_keccak (sc_pins config)))
    (proven_confirmed (list_to_map (map (fun wb => (wb_witness_id wb, {| wp_height := 2026; wp_time := 0 |}))
      (tr_bundles transfer))))
    {| la_bind_asset := bind_asset source config; la_read := None |} facts) as ([_ Hn] & _ & _ & Hs); [by vm_compute|].
  destruct (v_last_transition facts) as [s|] eqn:E; [|by vm_compute in E].
  exists s. split_and!; [done|by apply Hs| |done]. vm_compute in E. injection E as <-. reflexivity.
Defined.

End Release.
