(* ===== verification/EvmDigest.v ===== *)
(** * The EIP-712 digests of a release (src/enclave/src/networks/evm/signing.rs)

    The domain separator, the struct hashes of the two release calls and the
    digest the key signs; [lz_funds_out_digest] also compares the LayerZero
    fields of the request with the calldata.  Keccak-256 is a parameter. *)

From stdpp Require Import base numbers list strings.
From S2P Require Import Prelude Errors SpvMerkle EvmRelease.

#[local] Open Scope list_scope.
#[local] Open Scope Z_scope.

Definition DOMAIN_TYPE_HASH_STR : string :=
  "EIP712Domain(string name,string version,uint256 chainId,address verifyingContract)".

Definition TEE_FUNDS_OUT_TYPE_HASH_STR : string :=
  "TeeFundsOut(address recipient,uint256 amount,uint256 burnId,uint256 sourceChainId,uint256 destinationChainId,string sourceAddress,bytes proof,bytes settlementData,bytes32 sourceBurnTxId,uint256 nonce,uint256 deadline)".

Definition TEE_LZ_FUNDS_OUT_TYPE_HASH_STR : string :=
  "TeeLzFundsOut(uint256 amount,uint256 burnId,uint256 sourceChainId,uint256 destinationChainId,string sourceAddress,bytes proof,bytes settlementData,uint32 dstEid,bytes32 recipient,uint256 minAmountLD,bytes extraOptions,bytes32 sourceBurnTxId,uint256 nonce,uint256 deadline)".

Record Eip712Domain : Type := {
  dom_name : string;
  dom_version : string;
  dom_chain_id : Z;
  dom_verifying_contract : bytes
}.

(** [LzReleaseParams] and the whole [EvmDestination] message. *)
Record LzReleaseParams : Type := {
  lzr_dst_eid : Z;
  lzr_min_amount_ld : Z;
  lzr_recipient : bytes
}.

Record EvmDestinationMsg : Type := {
  ed_call_data : bytes;
  ed_nonce : Z;
  ed_deadline : Z;
  ed_chain_id : Z;
  ed_proxy_contract : bytes;
  ed_calldata_amount : Z;
  ed_lz_release : option LzReleaseParams;
  ed_burn_destination : option BurnDestinationRecord
}.

(** What the destination validation reads of it. *)
Definition destination_of (m : EvmDestinationMsg) : EvmDestination := {|
  call_data := ed_call_data m;
  deadline := ed_deadline m;
  dest_chain_id := ed_chain_id m;
  proxy_contract := ed_proxy_contract m;
  calldata_amount := ed_calldata_amount m;
  lz_release_present := bool_decide (is_Some (ed_lz_release m))
|}.

(** ** Words *)

Definition abi_encode_u256 (val : Z) : bytes := replicate 24 x00 ++ be_split 8 val.
Definition abi_encode_u32 (val : Z) : bytes := replicate 28 x00 ++ be_split 4 val.
Definition abi_encode_address (addr : bytes) : bytes := replicate 12 x00 ++ addr.

Section Digest.
Context {A : AbiCodec} (keccak256 : bytes -> bytes).

Definition hash_text (s : string) : bytes := keccak256 (String.list_byte_of_string s).

(** The words [separator_hash] hashes. *)
Definition separator_words (d : Eip712Domain) : list bytes :=
  [hash_text DOMAIN_TYPE_HASH_STR; hash_text (dom_name d); hash_text (dom_version d);
   abi_encode_u256 (dom_chain_id d); abi_encode_address (dom_verifying_contract d)].

Definition separator_hash (d : Eip712Domain) : bytes := keccak256 (concat (separator_words d)).

Definition build_evm_domain (req : EvmDestinationMsg) : enclave_result Eip712Domain :=
  if ed_chain_id req =? 0 then Err (CrossCheck "chain_id must be > 0")
  else if negb (zlen (ed_proxy_contract req) =? ADDRESS_LEN)
  then Err (CrossCheck "proxy_contract must be 20 bytes")
  else Ok {| dom_name := "MultisigProxy"; dom_version := "1"; dom_chain_id := ed_chain_id req;
             dom_verifying_contract := ed_proxy_contract req |}.

Definition eip712_digest (d : Eip712Domain) (struct_hash : bytes) : bytes :=
  keccak256 ([x19; x01] ++ separator_hash d ++ struct_hash).

(** The words of the struct hash of [funds_out_digest]. *)
Definition funds_out_words (p : FundsOutParams) (nonce deadline : Z) : list bytes :=
  [hash_text TEE_FUNDS_OUT_TYPE_HASH_STR;
   abi_encode_address (fo_recipient p);
   be_split 32 (fo_amount p);
   be_split 32 (fo_burnId p);
   be_split 32 (fo_sourceChainId p);
   be_split 32 (fo_destinationChainId p);
   keccak256 (fo_sourceAddress p);
   keccak256 (fo_proof p);
   keccak256 (fo_settlementData p);
   fo_sourceBurnTxId p;
   abi_encode_u256 nonce;
   abi_encode_u256 deadline].

Definition funds_out_digest (d : Eip712Domain) (p : FundsOutParams) (nonce deadline : Z)
    : enclave_result bytes :=
  Ok (eip712_digest d (keccak256 (concat (funds_out_words p nonce deadline)))).

(** The words of the struct hash of [lz_funds_out_digest]. *)
Definition lz_funds_out_words (p : lzFundsOutCall) (nonce deadline : Z) : list bytes :=
  [hash_text TEE_LZ_FUNDS_OUT_TYPE_HASH_STR;
   be_split 32 (lz_amount p);
   be_split 32 (lz_burnId p);
   be_split 32 (lz_sourceChainId p);
   be_split 32 (lz_destinationChainId p);
   keccak256 (lz_sourceAddress p);
   keccak256 (lz_proof p);
   keccak256 (lz_settlementData p);
   abi_encode_u32 (lz_dstEid p);
   lz_recipient p;
   be_split 32 (lz_minAmountLD p);
   keccak256 (lz_extraOptions p);
   lz_sourceBurnTxId p;
   abi_encode_u256 nonce;
   abi_encode_u256 deadline].

(** The LayerZero fields of the request against the calldata. *)
Definition check_lz_release (r : LzReleaseParams) (p : lzFundsOutCall) : enclave_result unit :=
  if negb (lzr_dst_eid r =? lz_dstEid p) then Err (CrossCheck "lz_release.dst_eid != calldata dstEid")
  else if negb (bool_decide (lzr_recipient r = lz_recipient p))
  then Err (CrossCheck "lz_release.recipient does not match calldata recipient")
  else
    let? min_amount_ld := u256_to_u64 (lz_minAmountLD p) "lzFundsOut minAmountLD exceeds u64 range" in
    if negb (lzr_min_amount_ld r =? min_amount_ld)
    then Err (CrossCheck "lz_release.min_amount_ld != calldata minAmountLD")
    else Ok tt.

Definition lz_funds_out_digest (d : Eip712Domain) (cd : bytes) (r : LzReleaseParams) (nonce deadline : Z)
    : enclave_result bytes :=
  if zlen cd <? 4 then Err (CrossCheck "lzFundsOut call_data must be at least 4 bytes")
  else
    let? params := decode_lz_funds_out_params cd in
    let? _ := check_lz_release r params in
    Ok (eip712_digest d (keccak256 (concat (lz_funds_out_words params nonce deadline)))).

(** The digest of [handle_sign_evm] (server/signers.rs): the route comes from
    the validation. *)
Definition release_digest (req : EvmDestinationMsg) (params : option FundsOutParams)
    : enclave_result bytes :=
  let? domain := build_evm_domain req in
  match params, ed_lz_release req with
  | Some params, None => funds_out_digest domain params (ed_nonce req) (ed_deadline req)
  | None, Some lz_release =>
      lz_funds_out_digest domain (ed_call_data req) lz_release (ed_nonce req) (ed_deadline req)
  | _, _ => Err (CrossCheck "EVM route mismatch: lz_release does not match the calldata selector")
  end.

End Digest.

(** * What a release digest commits to

    Equal digests are of the same call: the words of a struct hash determine
    its fields, and the two routes hash structs of different lengths. *)

(** ** Words *)

Definition is_word (w : bytes) : Prop := length w = 32%nat.
Definition is_u256 (z : Z) : Prop := 0 <= z < 2 ^ 256.

(** A string of words is read in one way. *)
Lemma concat_words_inj ws ws' :
  Forall is_word ws -> Forall is_word ws' -> concat ws = concat ws' -> ws = ws'.
Proof.
  intros H. revert ws'. induction H as [|w ws Hw Hs IH]; intros ws' H' E.
  - destruct H' as [|w' ws' Hw' _]; [done|]. destruct w'; [done|]. by cbn in E.
  - destruct H' as [|w' ws' Hw' Hs']; [destruct w; [done|by cbn in E]|].
    cbn in E. apply app_inj_1 in E as [-> E]; [|unfold is_word in *; congruence]. f_equal. by apply IH.
Qed.

Lemma be_split_inj n z z' :
  0 <= z < 256 ^ Z.of_nat n -> 0 <= z' < 256 ^ Z.of_nat n -> be_split n z = be_split n z' -> z = z'.
Proof. intros Hz Hz' E. apply (f_equal be_combine) in E. by rewrite !be_combine_split in E. Qed.

Lemma u256_word z : is_word (be_split 32 z).
Proof. apply be_split_length. Qed.

Lemma u256_word_inj z z' : is_u256 z -> is_u256 z' -> be_split 32 z = be_split 32 z' -> z = z'.
Proof. apply (be_split_inj 32). Qed.

Lemma u64_word z : is_word (abi_encode_u256 z).
Proof. unfold is_word, abi_encode_u256. by rewrite length_app, length_replicate, be_split_length. Qed.

Lemma u64_word_inj z z' : is_u64 z -> is_u64 z' -> abi_encode_u256 z = abi_encode_u256 z' -> z = z'.
Proof.
  intros Hz Hz' E%app_inv_head. revert E. apply (be_split_inj 8); unfold is_u64, u64_max in *; cbn; lia.
Qed.

Lemma u32_word z : is_word (abi_encode_u32 z).
Proof. unfold is_word, abi_encode_u32. by rewrite length_app, length_replicate, be_split_length. Qed.

Lemma u32_word_inj z z' : is_u32 z -> is_u32 z' -> abi_encode_u32 z = abi_encode_u32 z' -> z = z'.
Proof.
  intros Hz Hz' E%app_inv_head. revert E. apply (be_split_inj 4); unfold is_u32, u32_max in *; cbn; lia.
Qed.

Lemma address_word a : length a = 20%nat -> is_word (abi_encode_address a).
Proof. intros H. unfold is_word, abi_encode_address. by rewrite length_app, length_replicate, H. Qed.

Lemma address_word_inj a a' : abi_encode_address a = abi_encode_address a' -> a = a'.
Proof. by intros E%app_inv_head. Qed.

Create HintDb words.
#[export] Hint Resolve u256_word u64_word u32_word address_word : words.

(** ** The Solidity types of the calldata *)

Record funds_out_typed (p : FundsOutParams) : Prop := {
  fot_recipient : length (fo_recipient p) = 20%nat;
  fot_amount : is_u256 (fo_amount p);
  fot_burn_id : is_u256 (fo_burnId p);
  fot_source_chain : is_u256 (fo_sourceChainId p);
  fot_destination_chain : is_u256 (fo_destinationChainId p);
  fot_burn_tx : length (fo_sourceBurnTxId p) = 32%nat
}.

Record lz_funds_out_typed (p : lzFundsOutCall) : Prop := {
  lzt_amount : is_u256 (lz_amount p);
  lzt_burn_id : is_u256 (lz_burnId p);
  lzt_source_chain : is_u256 (lz_sourceChainId p);
  lzt_destination_chain : is_u256 (lz_destinationChainId p);
  lzt_dst_eid : is_u32 (lz_dstEid p);
  lzt_recipient : length (lz_recipient p) = 32%nat;
  lzt_min_amount : is_u256 (lz_minAmountLD p);
  lzt_burn_tx : length (lz_sourceBurnTxId p) = 32%nat
}.

(** A decoded call has the types of its signature. *)
Class AbiTyped {A : AbiCodec} : Prop := {
  decoded_funds_out_typed cd p : abi_decode_funds_out cd = Some p -> funds_out_typed p;
  decoded_lz_funds_out_typed cd p : abi_decode_lz_funds_out cd = Some p -> lz_funds_out_typed p
}.

(** The types of the request's integers. *)
Record destination_typed (m : EvmDestinationMsg) : Prop := {
  edt_nonce : is_u64 (ed_nonce m);
  edt_deadline : is_u64 (ed_deadline m);
  edt_chain_id : is_u64 (ed_chain_id m)
}.

Section Digest.
Context {A : AbiCodec} (keccak256 : bytes -> bytes).
Hypothesis keccak_len : forall x, length (keccak256 x) = 32%nat.

Lemma keccak_word x : is_word (keccak256 x).
Proof. apply keccak_len. Qed.
#[local] Hint Resolve keccak_word : words.

(** ** What is hashed *)

(** The call a digest is of. *)
Inductive ReleaseCall : Type :=
| DirectCall (p : FundsOutParams)
| LzCall (p : lzFundsOutCall).

Definition call_typed (c : ReleaseCall) : Prop :=
  match c with DirectCall p => funds_out_typed p | LzCall p => lz_funds_out_typed p end.

Definition call_words (c : ReleaseCall) (nonce deadline : Z) : list bytes :=
  match c with
  | DirectCall p => funds_out_words keccak256 p nonce deadline
  | LzCall p => lz_funds_out_words keccak256 p nonce deadline
  end.

Definition dynamic_fields (c : ReleaseCall) : list bytes :=
  match c with
  | DirectCall p => [fo_sourceAddress p; fo_proof p; fo_settlementData p]
  | LzCall p => [lz_sourceAddress p; lz_proof p; lz_settlementData p; lz_extraOptions p]
  end.

(** Every string hashed on the way to a digest, the constants apart. *)
Definition hashed (d : Eip712Domain) (c : ReleaseCall) (nonce deadline : Z) : list bytes :=
  dynamic_fields c ++
  [concat (separator_words keccak256 d); concat (call_words c nonce deadline);
   [x19; x01] ++ separator_hash keccak256 d ++ keccak256 (concat (call_words c nonce deadline))].

Definition call_digest (d : Eip712Domain) (c : ReleaseCall) (nonce deadline : Z) : bytes :=
  eip712_digest keccak256 d (keccak256 (concat (call_words c nonce deadline))).

Lemma call_words_ok c nonce deadline : call_typed c -> Forall is_word (call_words c nonce deadline).
Proof.
  destruct c as [p|p]; intros H; cbn.
  - unfold funds_out_words, hash_text. pose proof (fot_burn_tx p H) as ?. pose proof (fot_recipient p H) as ?.
    repeat constructor; auto with words.
  - unfold lz_funds_out_words, hash_text. pose proof (lzt_burn_tx p H) as ?. pose proof (lzt_recipient p H) as ?.
    repeat constructor; auto with words.
Qed.

Lemma separator_words_ok d : length (dom_verifying_contract d) = 20%nat -> Forall is_word (separator_words keccak256 d).
Proof. intros H. unfold separator_words, hash_text. repeat constructor; auto with words. Qed.

Lemma cons_parts (w w' : bytes) ws ws' : w :: ws = w' :: ws' -> w = w' /\ ws = ws'.
Proof. by intros [= -> ->]. Qed.

(** One equation per word. *)
#[local] Ltac words_parts E := repeat (let H := fresh "Ew" in apply cons_parts in E as [H E]).

#[local] Ltac in_list := cbn [app]; rewrite ?elem_of_app, ?elem_of_cons; tauto.

(** The fields behind the words. *)
#[local] Ltac words_eq :=
  repeat match goal with
  | H : abi_encode_address _ = abi_encode_address _ |- _ => apply address_word_inj in H
  | H : be_split 32 _ = be_split 32 _ |- _ => apply u256_word_inj in H; [|assumption..]
  | H : abi_encode_u256 _ = abi_encode_u256 _ |- _ => apply u64_word_inj in H; [|assumption..]
  | H : abi_encode_u32 _ = abi_encode_u32 _ |- _ => apply u32_word_inj in H; [|assumption..]
  | Hf : collision_free _ _, H : keccak256 _ = keccak256 _ |- _ => apply Hf in H; [|in_list..]
  end.

(** The words of a call determine it, when its dynamic fields do not collide. *)
Lemma call_words_inj c c' nonce nonce' deadline deadline' :
  call_typed c -> call_typed c' -> is_u64 nonce -> is_u64 nonce' -> is_u64 deadline -> is_u64 deadline' ->
  collision_free keccak256 (dynamic_fields c ++ dynamic_fields c') ->
  call_words c nonce deadline = call_words c' nonce' deadline' ->
  c = c' /\ nonce = nonce' /\ deadline = deadline'.
Proof.
  intros Hc Hc' Hn Hn' Hd Hd' Hcf E. pose proof (f_equal length E) as Hl.
  destruct c as [p|p], c' as [p'|p']; try by discriminate Hl.
  - destruct Hc, Hc'. unfold call_words, funds_out_words in E. words_parts E. cbn [dynamic_fields] in Hcf. words_eq.
    destruct p, p'. cbn in *. by subst.
  - destruct Hc, Hc'. unfold call_words, lz_funds_out_words in E. words_parts E. cbn [dynamic_fields] in Hcf. words_eq.
    destruct p, p'. cbn in *. by subst.
Qed.

Lemma separator_words_inj d d' :
  is_u64 (dom_chain_id d) -> is_u64 (dom_chain_id d') ->
  separator_words keccak256 d = separator_words keccak256 d' ->
  dom_chain_id d = dom_chain_id d' /\ dom_verifying_contract d = dom_verifying_contract d'.
Proof. intros Hc Hc' E. unfold separator_words in E. words_parts E. by words_eq. Qed.

(** A digest determines its domain and its call. *)
Lemma call_digest_inj d d' c c' nonce nonce' deadline deadline' :
  length (dom_verifying_contract d) = 20%nat -> length (dom_verifying_contract d') = 20%nat ->
  is_u64 (dom_chain_id d) -> is_u64 (dom_chain_id d') ->
  call_typed c -> call_typed c' -> is_u64 nonce -> is_u64 nonce' -> is_u64 deadline -> is_u64 deadline' ->
  collision_free keccak256 (hashed d c nonce deadline ++ hashed d' c' nonce' deadline') ->
  call_digest d c nonce deadline = call_digest d' c' nonce' deadline' ->
  (dom_chain_id d = dom_chain_id d' /\ dom_verifying_contract d = dom_verifying_contract d') /\
  c = c' /\ nonce = nonce' /\ deadline = deadline'.
Proof.
  intros Hv Hv' Hi Hi' Hc Hc' Hn Hn' Hd Hd' Hcf E. unfold hashed in Hcf.
  apply Hcf in E; [|in_list..]. apply app_inv_head in E.
  apply app_inj_1 in E as [Es Ec]; [|unfold separator_hash; by rewrite !keccak_len].
  apply Hcf in Es; [|in_list..]. apply Hcf in Ec; [|in_list..].
  apply concat_words_inj in Es; [|by apply separator_words_ok..].
  apply concat_words_inj in Ec; [|by apply call_words_ok..].
  split; [by apply separator_words_inj|]. apply call_words_inj in Ec; try done.
  intros x y Hx Hy. apply Hcf; rewrite !elem_of_app in *; tauto.
Qed.

(** ** The digest of a request *)

(** The call of a request whose route the validation found. *)
Definition request_call (req : EvmDestinationMsg) (params : option FundsOutParams) : option ReleaseCall :=
  match params with
  | Some p => Some (DirectCall p)
  | None => match decode_lz_funds_out_params (ed_call_data req) with Ok p => Some (LzCall p) | _ => None end
  end.

Definition request_domain (req : EvmDestinationMsg) : Eip712Domain :=
  {| dom_name := "MultisigProxy"; dom_version := "1"; dom_chain_id := ed_chain_id req;
     dom_verifying_contract := ed_proxy_contract req |}.

(** The strings hashed for it. *)
Definition digest_strings (req : EvmDestinationMsg) (params : option FundsOutParams) : list bytes :=
  match request_call req params with
  | Some c => hashed (request_domain req) c (ed_nonce req) (ed_deadline req)
  | None => []
  end.

(** The parameters a validated request hands to the signer. *)
Definition params_from_calldata (req : EvmDestinationMsg) (params : option FundsOutParams) : Prop :=
  forall p, params = Some p -> decode_funds_out_params (ed_call_data req) = Ok p.

Definition call_bytes (c : ReleaseCall) : bytes :=
  match c with DirectCall p => abi_encode_funds_out p | LzCall p => abi_encode_lz_funds_out p end.

Lemma release_digest_ok {H : AbiTyped} req params h :
  params_from_calldata req params -> release_digest keccak256 req params = Ok h ->
  length (ed_proxy_contract req) = 20%nat /\
  exists c, request_call req params = Some c /\ call_typed c /\ call_bytes c = ed_call_data req /\
    h = call_digest (request_domain req) c (ed_nonce req) (ed_deadline req).
Proof.
  intros Hp Hd. unfold release_digest in Hd. inv_bind Hd domain Hdom. unfold build_evm_domain in Hdom.
  destruct (_ =? 0); [done|]. destruct (negb _) eqn:El; [done|]. injection Hdom as <-. zbool.
  split; [unfold zlen, ADDRESS_LEN in El; lia|]. destruct params as [p|].
  - destruct (ed_lz_release req); [done|]. injection Hd as <-. specialize (Hp p eq_refl).
    unfold decode_funds_out_params in Hp. inv_bind Hp q Hq. destruct (abi_decode_funds_out _) eqn:Ed; [|done].
    injection Hq as ->. case_bool_decide as Ee; [|done]. injection Hp as ->. exists (DirectCall p).
    split_and!; [done| |done|done]. by apply decoded_funds_out_typed in Ed.
  - destruct (ed_lz_release req) as [r|]; [|done]. unfold lz_funds_out_digest in Hd. destruct (_ <? 4); [done|].
    inv_bind Hd p Hdec. inv_bind Hd u Hu. injection Hd as <-. exists (LzCall p). unfold request_call. rewrite Hdec.
    unfold decode_lz_funds_out_params in Hdec. inv_bind Hdec q Hq. destruct (abi_decode_lz_funds_out _) eqn:Ed; [|done].
    injection Hq as ->. case_bool_decide as Ee; [|done]. injection Hdec as ->.
    split_and!; [done| |done|done]. by apply decoded_lz_funds_out_typed in Ed.
Qed.

(** C4: a signature on a release digest authorizes one call only: two requests with the
    same digest have the same calldata, nonce, deadline, chain and proxy, whichever
    of the two routes each took, unless two of the strings hashed for them collide. *)
Theorem release_digest_binds {H : AbiTyped} req req' params params' h :
  destination_typed req -> destination_typed req' ->
  params_from_calldata req params -> params_from_calldata req' params' ->
  collision_free keccak256 (digest_strings req params ++ digest_strings req' params') ->
  release_digest keccak256 req params = Ok h -> release_digest keccak256 req' params' = Ok h ->
  ed_call_data req = ed_call_data req' /\ ed_nonce req = ed_nonce req' /\ ed_deadline req = ed_deadline req' /\
  ed_chain_id req = ed_chain_id req' /\ ed_proxy_contract req = ed_proxy_contract req' /\ params = params'.
Proof.
  intros [Hn Hd Hi] [Hn' Hd' Hi'] Hp Hp' Hcf H1 H2.
  apply release_digest_ok in H1 as (Hl & c & Hc & Hty & Hb & ->); [|done].
  apply release_digest_ok in H2 as (Hl' & c' & Hc' & Hty' & Hb' & E); [|done].
  unfold digest_strings in Hcf. rewrite Hc, Hc' in Hcf.
  apply call_digest_inj in E as ([E1 E2] & <- & E3 & E4); try done.
  split_and!; try done; [congruence|].
  unfold request_call in Hc, Hc'. destruct params as [p|], params' as [p'|]; [congruence| | |done].
  - injection Hc as <-. by destruct (decode_lz_funds_out_params _).
  - injection Hc' as <-. by destruct (decode_lz_funds_out_params _).
Qed.

End Digest.
