(* ===== verification/BurnSign.v ===== *)
(** * The burn signer's [handle_sign]
      (src/enclave/src/server/sign.rs, signers.rs, networks/route.rs)

    The whole handler of a build with [rgb-validation], [bfa-validation],
    [bfa-mint] and the RGB to EVM direction only, with SPV or without it: the
    source, the destination, the route, the binds of the release and the key.
    Other requests run between its looks at the shared state, so each look is
    its own field of [BurnLooks]. *)

From stdpp Require Import base numbers list gmap strings.
From S2P Require Import Prelude Errors EvmEvents SpvTypes SpvChain EnclaveState PsbtTypes RgbCommit SpvCrosscheck.
From S2P Require Import EvmRelease EvmRelay LaunchConfig Io RejectList RgbTransfer RgbCost Consensus Validation BurnSource EvmDigest.
From S2P Require MintSign GasTx.

#[local] Open Scope list_scope.
#[local] Open Scope Z_scope.

(** ** The request *)

Inductive BurnSourceNetwork : Type := FromEvm | FromRgb (s : RgbSource) (commission : Z) | FromCcd.
Inductive BurnDestinationNetwork : Type := ToEvm (m : EvmDestinationMsg) | ToRgb.

Record BurnRequest : Type := {
  bq_source_network : option BurnSourceNetwork;
  bq_destination_network : option BurnDestinationNetwork
}.

Record EvmSignatureResponse : Type := { es_signature : bytes; es_call_data : bytes }.

(** ** The configuration the path reads *)

Definition release_pins (cfg : BridgeConfig) : ReleasePins := {|
  rel_chain_id := bc_chain_id cfg;
  rel_bridge_contract := bc_bridge_contract cfg;
  rel_rgb_asset_id := bc_rgb_asset_id cfg;
  rel_funds_in_contract := bc_funds_in_contract cfg;
  rel_token_contract := bc_token_contract cfg
|}.

Definition source_config (cfg : BridgeConfig) : SourceConfig := {|
  sc_max_consignment_bytes := bc_max_consignment_bytes cfg;
  sc_max_merkle_proofs := bc_max_merkle_proofs cfg;
  sc_max_total_proof_bytes := bc_max_total_proof_bytes cfg;
  sc_spv_min_confirmations := bc_spv_min_confirmations cfg;
  sc_rgb_asset_id := String.string_of_list_byte (bc_rgb_asset_id cfg);
  sc_is_configured := config_is_configured cfg;
  sc_pins := {| dep_funds_in_contract := bc_funds_in_contract cfg; dep_chain_id := bc_chain_id cfg;
                dep_token_contract := bc_token_contract cfg |}
|}.

(** [Launch], the fields of this path. *)
Record BurnLaunch : Type := { bl_rgb_validator : option RgbValidator; bl_rpc_client : bool }.

(** ** The role and the route *)

(** [check_signer_role] of a build without the EVM to RGB direction. *)
Definition check_burn_signer_role (source : BurnSourceNetwork) (destination : BurnDestinationNetwork)
    : enclave_result unit :=
  match source, destination with
  | FromEvm, _ | _, ToRgb => Err MintSign.wrong_signer_role
  | _, _ => Ok tt
  end.

(** [source_commission] of a build without [ccd]. *)
Definition burn_source_commission (source : BurnSourceNetwork) : enclave_result Z :=
  match source with
  | FromRgb _ commission => Ok commission
  | _ => Err (InvalidRequest "enclave was not built with `ccd` support")
  end.

Definition validate_burn_route (source : BurnSourceNetwork) (destination : BurnDestinationNetwork)
    (source_proof destination_proof : RouteProof) : enclave_result unit :=
  match source, destination with
  | FromRgb _ _, ToEvm _ =>
      MintSign.validate_amount_covers_destination (rp_amount source_proof) (rp_amount destination_proof)
  | _, _ => Err (InvalidRequest "unsupported source/destination network pair")
  end.

Section Burn.
Context {K : Keys} {R : RgbStd} {T : TransferStd} {F : BfaSchema} {G : BfaBurnSchema} {B : Bitcoin} {L : RgbLib}.
Context {C : BitcoinCrate} {I : Indexer} {A : AbiCodec} {P : EvmReceiptProvider} {N : ListNode}.
Context (keccak256 sha256d : bytes -> bytes) (serialize_header : Header -> bytes).
Context (eip712_hash_struct : UtexoBurnDestinationV1 -> bytes).
(** [KeyManager::sign_evm]. *)
Context (km_sign_evm : KeyManager -> bytes -> enclave_result bytes).

(** What the handler sees of the shared state and of the outside, in order. *)
Record BurnLooks : Type := {
  at_start : EnclaveState;
  at_proofs : mutex HeaderChain;
  at_source : mutex HeaderChain;
  at_source_time : Z;
  at_files : Scratch;
  at_list_call : nat -> nat;
  at_started : nat -> Z;
  at_finished : nat -> Z;
  at_destination_time : Z;
  at_binding : mutex HeaderChain;
  at_pins : mutex HeaderChain;
  at_key : EnclaveState
}.

(** [reject_list_reader]: the answer to its [n]-th call. *)
Definition reject_list_reader (cfg : BridgeConfig) (launch : option BurnLaunch) (looks : BurnLooks) (deadline : Z)
    (n : nat) (c : RejectListContract) : enclave_result Decisions :=
  (read_decisions (at_started looks) (at_finished looks) (bc_chain_id cfg) (bool_decide (is_Some launch))
     (default false (bl_rpc_client <$> launch)) c deadline (at_list_call looks n, 0)).2.

(** [networks::validate_source]. *)
Definition validate_burn_source (spv : bool) (cfg : BridgeConfig) (source : BurnSourceNetwork)
    (validator : option RgbValidator) (read : nat -> RejectListContract -> enclave_result Decisions)
    (looks : BurnLooks) : ChainPins * enclave_result (RouteProof * ValidatedConsignment) :=
  match source with
  | FromRgb s _ =>
      let '(pins, r) :=
        validate_source keccak256 sha256d spv (at_files looks) s (source_config cfg) validator
          (Some (derived_locks keccak256 (sc_pins (source_config cfg)))) (Some read)
          (at_proofs looks) (at_source looks) (at_source_time looks) new_pins in
      (pins,
       let? validated := r in
       let? pr := route_proof_from_validated_consignment validated in
       Ok (pr, validated))
  | FromEvm | FromCcd => (new_pins, Err (InvalidRequest "source network not supported by this build"))
  end.

(** [apply_funds_out_binding] of the build without SPV. *)
Definition bind_without_spv (r : ReleaseIdentity) (v : ValidatedBurn) (proofs : list MerkleProofEntry)
    (record : option BurnDestinationRecord) : enclave_result unit :=
  let? _ := assert_witnesses_confirmed v in
  if negb (zlen proofs =? 0)
  then Err (CrossCheck "fundsOut signing without SPV requires empty RGB merkle_proofs")
  else if negb (zlen (proof r) =? 0)
  then Err (CrossCheck "fundsOut signing without SPV requires an empty release proof")
  else
    let? _ := validate_funds_out_amount TS_BURN r v in
    let? _ := validate_funds_out_source_burn_tx_id r v in
    let? _ := validate_funds_out_burn_recipient eip712_hash_struct r v record in
    validate_funds_out_settlement r (mint_lock_ids v).

(** Burn identity first, then the binds to the consignment. *)
Definition bind_release (spv : bool) (cfg : BridgeConfig) (r : ReleaseIdentity) (v : ValidatedBurn)
    (proofs : list MerkleProofEntry) (record : option BurnDestinationRecord) (pins : ChainPins)
    (chain : mutex HeaderChain) : ChainPins * enclave_result unit :=
  and_then (pins, validate_rgb_source_identity r) (fun pins =>
  and_then (pins, validate_burn_id keccak256 (release_pins cfg) r) (fun pins =>
  if spv then
    apply_funds_out_binding sha256d keccak256 serialize_header TS_BURN eip712_hash_struct chain
      (bc_btc_relay_mode cfg) (bc_spv_min_confirmations cfg) r (Some v) proofs pins record
  else (pins, bind_without_spv r v proofs record))).

(** [handle_sign_evm]. *)
Definition handle_sign_evm (looks : BurnLooks) (req : EvmDestinationMsg) (params : option FundsOutParams)
    (pins : ChainPins) : enclave_result EvmSignatureResponse :=
  let? digest := release_digest keccak256 req params in
  let? signature := sign_with_chain_pins_unchanged (at_pins looks) pins
    (with_active (at_key looks) (fun km => km_sign_evm km digest)) in
  Ok {| es_signature := signature; es_call_data := ed_call_data req |}.

(** After the source: the destination, the route, the binds and the signature. *)
Definition sign_release (spv : bool) (b : ReleaseBuild) (cfg : BridgeConfig) (looks : BurnLooks)
    (source : BurnSourceNetwork) (destination : BurnDestinationNetwork) (pins : ChainPins)
    (validated : RouteProof * ValidatedConsignment) : enclave_result EvmSignatureResponse :=
  let '(source_proof, v) := validated in
  let? _ := burn_source_commission source in
  match destination with
  | ToRgb => Err (InvalidRequest "destination network not signed by this signer role")
  | ToEvm m =>
      let? (destination_proof, params, release) :=
        validate_destination b (release_pins cfg) (destination_of m) (at_destination_time looks) in
      let? _ := validate_burn_route source destination source_proof destination_proof in
      let proofs := match source with FromRgb s _ => rsrc_merkle_proofs s | _ => [] end in
      let '(pins, bound) :=
        bind_release spv cfg release (burn_of v) proofs (ed_burn_destination m) pins (at_binding looks) in
      let? _ := bound in
      handle_sign_evm looks m params pins
  end.

(** The whole handler; a burn reserves no operation. *)
Definition handle_burn_sign (spv : bool) (b : ReleaseBuild) (cfg : BridgeConfig) (launch : option BurnLaunch)
    (looks : BurnLooks) (req : BurnRequest) (deadline : Z) : enclave_result EvmSignatureResponse :=
  let? source := ok_or (bq_source_network req) (InvalidRequest "sign request has no source_network") in
  let? destination := ok_or (bq_destination_network req) (InvalidRequest "sign request has no destination_network") in
  let? _ := check_burn_signer_role source destination in
  let? _ := with_active (at_start looks) (fun _ => Ok tt) in
  let? l := ok_or launch (NotReady "endpoints-unset") in
  let '(pins, r) :=
    validate_burn_source spv cfg source (bl_rgb_validator l) (reject_list_reader cfg launch looks deadline) looks in
  let? validated := r in
  sign_release spv b cfg looks source destination pins validated.

End Burn.

(** ** The gas and Concordium keys (server/signers.rs) *)

(** The pins [validate_gas_tx_request] reads. *)
Definition gas_pins (cfg : BridgeConfig) : GasTx.GasTxPins := {|
  GasTx.cfg_chain_id := bc_chain_id cfg;
  GasTx.cfg_bridge_contract := bc_bridge_contract cfg;
  GasTx.gas_tx_allowed_to := bc_gas_tx_allowed_to cfg;
  GasTx.gas_tx_max_gas_limit := bc_gas_tx_max_gas_limit cfg;
  GasTx.gas_tx_max_fee_per_gas := bc_gas_tx_max_fee_per_gas cfg;
  GasTx.gas_tx_allowed_selectors := bc_gas_tx_allowed_selectors cfg;
  GasTx.gas_tx_max_value_wei := bc_gas_tx_max_value_wei cfg
|}.

(** [validate_source] of networks/ccd.rs: the node's word is taken for the rest. *)
Definition validate_ccd_source (amount : Z) (tx_hash : bytes) : enclave_result RouteProof :=
  if negb (zlen tx_hash =? 32) then Err (CrossCheck "CCD source tx_hash must be 32 bytes")
  else Ok {| rp_amount := amount; rp_operation_id := None |}.

Section OtherKeys.
Context {K : Keys} (keccak256 : bytes -> bytes).
(** [KeyManager::sign_evm_gas_tx] and [sign_ccd]. *)
Context (km_sign_evm_gas_tx : KeyManager -> bytes -> enclave_result bytes).
Context (km_sign_ccd : KeyManager -> bytes -> enclave_result (bytes * bytes)).

Definition handle_sign_raw_digest (cfg : BridgeConfig) (state : EnclaveState) (req : GasTx.SignRawDigestRequest)
    : enclave_result bytes :=
  let? digest := GasTx.validate_gas_tx_request keccak256 req (gas_pins cfg) in
  with_active state (fun km => km_sign_evm_gas_tx km digest).

Definition handle_sign_ccd (state : EnclaveState) (hash : bytes) : enclave_result (bytes * bytes) :=
  if negb (zlen hash =? 32) then Err (InvalidRequest "hash must be exactly 32 bytes")
  else with_active state (fun km => km_sign_ccd km hash).

End OtherKeys.

