(* ===== verification/BurnSignProps.v ===== *)
(** * Theorems on the burn signer

    What a signature of [handle_burn_sign] rests on, from the bytes of the
    request to the digest the key signed, and a concrete run. *)

From stdpp Require Import base numbers list gmap strings sorting.
From S2P Require Import Prelude Errors EvmEvents SpvTypes SpvChain SpvChainSpec SpvConcrete EnclaveState PsbtTypes RgbCommit.
From S2P Require Import SpvCrosscheck SpvMerkle EvmRelease EvmReleaseProps EvmRelay EvmRelayProps LaunchConfig Io RejectList.
From S2P Require Import RgbTransfer RgbCost Consensus Validation BurnSource ConsensusProps BurnSourceProps EvmDigest BurnSign.
From S2P Require AttestedPolicy EnclaveStateProps GasTx PsbtSample RgbSample ConsensusSample.

#[local] Open Scope list_scope.
#[local] Open Scope Z_scope.

(** A key operation succeeds exactly with a loaded key. *)
Lemma active_key_iff {K : Keys} {A} (s : EnclaveState) (f : KeyManager -> enclave_result A) a :
  with_active s f = Ok a <->
  exists km, poisoned (inner s) = false /\ contents (inner s) = Active km /\ f km = Ok a.
Proof.
  unfold with_active, lock_phase. destruct (poisoned (inner s)); cbn [rbind]; [split; [done|by intros (? & ? & _)]|].
  destruct (contents (inner s)) as [| |cs|km]; try (split; [done|by intros (? & _ & ? & _)]).
  split; [by exists km|]. intros (km' & _ & Hkm & Hf). injection Hkm as <-. done.
Qed.

Section Burn.
Context {K : Keys} {R : RgbStd} {T : TransferStd} {F : BfaSchema} {G : BfaBurnSchema} {B : Bitcoin} {L : RgbLib}.
Context {C : BitcoinCrate} {I : Indexer} {A : AbiCodec} {P : EvmReceiptProvider} {N : ListNode}.
Context (keccak256 sha256d : bytes -> bytes) (serialize_header : Header -> bytes).
Context (eip712_hash_struct : UtexoBurnDestinationV1 -> bytes).
Context (km_sign_evm : KeyManager -> bytes -> enclave_result bytes).

(** The release the calldata of [m] makes, and the digest over it. *)
Record authorized_call (cfg : BridgeConfig) (looks : BurnLooks) (m : EvmDestinationMsg)
    (release : ReleaseIdentity) (digest : bytes) : Prop := {
  ac_chain : ed_chain_id m = bc_chain_id cfg;
  ac_proxy : ed_proxy_contract m = bc_bridge_contract cfg;
  ac_deadline : at_destination_time looks / secs 1 < ed_deadline m <=
    sat_add64 (at_destination_time looks / secs 1) MAX_TEE_DEADLINE_SECS;
  ac_digest : exists params, params_from_calldata m params /\ release_digest keccak256 m params = Ok digest /\
    match params with
    | Some p => release = from_funds_out p /\ fo_destinationChainId p = bc_chain_id cfg
    | None => exists c, decode_lz_funds_out_params (ed_call_data m) = Ok c /\ release = from_lz_funds_out c /\
        lz_destinationChainId c <> bc_chain_id cfg /\ lz_minAmountLD c <> 0
    end;
  ac_source : source_chain_id release = RGB_CHAIN_ID /\ source_address release = [];
  ac_burn_id : bc_token_contract cfg <> zero_address ->
    burn_id release = expected_burn_id keccak256 (release_pins cfg) release
}.

Lemma burn_id_ok cfg r :
  validate_burn_id keccak256 cfg r = Ok tt ->
  rel_token_contract cfg <> zero_address -> burn_id r = expected_burn_id keccak256 cfg r.
Proof.
  unfold validate_burn_id. case_bool_decide; [done|]. destruct (negb _) eqn:E; [done|]. by zbool.
Qed.

Lemma source_identity_ok r :
  validate_rgb_source_identity r = Ok tt -> source_chain_id r = RGB_CHAIN_ID /\ source_address r = [].
Proof.
  unfold validate_rgb_source_identity. destruct (negb _) eqn:E; [done|].
  destruct (negb (zlen _ =? 0)) eqn:E2; [done|]. zbool. split; [done|]. by destruct (source_address r).
Qed.

(** The call that the validated destination names. *)
Lemma destination_authorizes b cfg m now pr params release digest :
  EvmRelease.rgb_validation b = true -> test_build b = false ->
  validate_destination b (release_pins cfg) (destination_of m) now = Ok (pr, params, release) ->
  release_digest keccak256 m params = Ok digest ->
  ed_chain_id m = bc_chain_id cfg /\ ed_proxy_contract m = bc_bridge_contract cfg /\
  now / secs 1 < ed_deadline m <= sat_add64 (now / secs 1) MAX_TEE_DEADLINE_SECS /\
  params_from_calldata m params /\
  match params with
  | Some p => release = from_funds_out p /\ fo_destinationChainId p = bc_chain_id cfg
  | None => exists c, decode_lz_funds_out_params (ed_call_data m) = Ok c /\ release = from_lz_funds_out c /\
      lz_destinationChainId c <> bc_chain_id cfg /\ lz_minAmountLD c <> 0
  end.
Proof.
  intros Hb Ht Hd Hg. apply destination_spec in Hd as ((_ & Hch & Hpr & _ & _ & _ & Hdl) & _ & Hroute); [|done|done].
  split_and!; try done; cbn in Hdl; try lia.
  - intros q ->. destruct Hroute as [(p & Hr & [= <-] & ->)|(c & _ & ? & _)]; [|done].
    pose proof (dr_decoded _ _ _ Hr) as Hp. cbn in Hp. unfold decode_funds_out_params. rewrite Hp. cbn.
    by rewrite bool_decide_true by apply Hr.
  - destruct Hroute as [(p & Hr & -> & ->)|(c & Hr & -> & ->)]; [by split; [|apply Hr]|].
    exists c. pose proof (lr_decoded _ _ _ Hr) as Hp. cbn in Hp. unfold decode_lz_funds_out_params. rewrite Hp. cbn.
    rewrite bool_decide_true by apply Hr. destruct (lr_chain _ _ _ Hr), (lr_floor _ _ _ Hr). done.
Qed.

Lemma bind_release_ok cfg r v proofs record pins pins' chain :
  bind_release keccak256 sha256d serialize_header eip712_hash_struct true cfg r v proofs record pins chain = (pins', Ok tt) ->
  validate_rgb_source_identity r = Ok tt /\ validate_burn_id keccak256 (release_pins cfg) r = Ok tt /\
  apply_funds_out_binding sha256d keccak256 serialize_header TS_BURN eip712_hash_struct chain
    (bc_btc_relay_mode cfg) (bc_spv_min_confirmations cfg) r (Some v) proofs pins record = (pins', Ok tt).
Proof.
  unfold bind_release. intros (p1 & H1 & H)%and_then_ok. injection H1 as -> H1.
  apply and_then_ok in H as (p2 & H2 & H). by injection H2 as -> H2.
Qed.

(** A signature comes from the active key. *)
Lemma key_used hc pins s (f : KeyManager -> enclave_result bytes) signature :
  sign_with_chain_pins_unchanged hc pins (with_active s f) = Ok signature ->
  exists km, contents (inner s) = Active km /\ f km = Ok signature.
Proof.
  intros H. assert (Hk : with_active s f = Ok signature).
  { unfold sign_with_chain_pins_unchanged in H. destruct (pins_is_empty pins); [done|].
    destruct (poisoned hc); [done|]. by inv_bind H u Hu. }
  apply active_key_iff in Hk as (km & _ & Hkm & Hf). by exists km.
Qed.

(** C2: everything a release signature rests on.  When the burn signer answers with a
    signature, the request goes from RGB to EVM; the key signed the digest of the call
    in the request, for the pinned chain and proxy and at most a day ahead; the call
    releases the amount of the one burn that closes the consignment, of the pinned
    asset, under its operation id and burn id, to the payee, route and chain its reason
    names, citing exactly the deposits of its mint ancestry; every transaction of the
    history is still in its block and deep when the key is used; and the reject list
    of the asset was read from the pinned chain and rejects none of it. *)
Theorem burn_sign_sound {Laws : RgbLibLaws} b cfg launch looks req deadline resp :
  EvmRelease.rgb_validation b = true -> test_build b = false ->
  chain_inv (contents (at_source looks)) -> chain_inv (contents (at_pins looks)) ->
  hc_checkpoint (contents (at_pins looks)) = hc_checkpoint (contents (at_source looks)) ->
  (forall s c, bq_source_network req = Some (FromRgb s c) ->
     Forall (fun p => is_u32 (mp_block_height p)) (rsrc_merkle_proofs s)) ->
  handle_burn_sign keccak256 sha256d serialize_header eip712_hash_struct km_sign_evm true b cfg launch looks req
    deadline = Ok resp ->
  exists s commission m release digest km t wb k,
    bq_source_network req = Some (FromRgb s commission) /\ bq_destination_network req = Some (ToEvm m) /\
    contents (inner (at_key looks)) = Active km /\ km_sign_evm km digest = Ok (es_signature resp) /\
    es_call_data resp = ed_call_data m /\
    authorized_call cfg looks m release digest /\
    release_backed keccak256 sha256d eip712_hash_struct s (source_config cfg)
      (Some (reject_list_reader cfg launch looks deadline)) release (ed_burn_destination m)
      (contents (at_source looks)) (contents (at_pins looks)) t wb k.
Proof.
  intros Hb Ht Hi Hi' Hcp Hu H. unfold handle_burn_sign in H. inv_bind H source Hs. inv_bind H destination Hd.
  inv_bind H u1 Hrole. inv_bind H u2 Hk. inv_bind H l Hl.
  destruct source as [|s commission|]; [by destruct destination|
    |destruct destination; [by cbn in H|done]]. destruct destination as [m|]; [|done].
  cbn [validate_burn_source] in H. destruct (validate_source _ _ _ _ _ _ _ _ _ _ _ _ _) as [pins r] eqn:Esrc.
  inv_bind H validated Hr. inv_bind Hr v Hv. inv_bind Hr pr Hpr. injection Hr as <-. subst r.
  unfold sign_release in H. inv_bind H u3 Hcom. inv_bind H x Hdest. destruct x as [[dp params] release].
  inv_bind H u4 Hroute. destruct (bind_release _ _ _ _ _ _ _ _ _ _ _ _) as [pins' bound] eqn:Ebind.
  inv_bind H u5 Hbound. destruct u5. subst bound. apply bind_release_ok in Ebind as (Hid & Hbid & Hbind).
  unfold handle_sign_evm in H. inv_bind H digest Hdig. inv_bind H signature Hsig. injection H as <-.
  destruct (bq_source_network req) eqn:Es; [|done]. injection Hs as ->.
  destruct (bq_destination_network req) eqn:Ed; [|done]. injection Hd as ->.
  destruct (release_backed_by_history keccak256 sha256d serialize_header eip712_hash_struct _ _ _ _ _ _ _ _ _ _ _ _ _ _ _ _
    _ _ Hi Hi' Hcp (Hu _ _ eq_refl) Esrc Hbind Hsig) as (t & wb & k & Hback).
  pose proof (destination_authorizes _ _ _ _ _ _ _ _ Hb Ht Hdest Hdig) as (Hc & Hp & Hdl & Hpc & Hcall).
  apply key_used in Hsig as (km & Hkm & Hsign).
  exists s, commission, m, release, digest, km, t, wb, k. split_and!; try done.
  split; try done; [by exists params|by apply source_identity_ok|exact (burn_id_ok _ _ Hbid)].
Qed.

End Burn.

(** ** A concrete burn *)

(** ** The gas key *)

(** C35: the gas key signs exactly the canonical transactions the pins allow.  The handler
    answers with a signature exactly when a key is loaded and the preimage, of at most
    [MAX_GAS_TX_BYTES], is the canonical EIP-1559 or legacy body of a transaction to the
    pinned destination on the pinned chain within the caps; the signature is that of
    the preimage's own hash, and a digest in the request must be the same. *)
Theorem gas_signature_iff {K : Keys} keccak256 km_sign cfg state req signature :
  handle_sign_raw_digest keccak256 km_sign cfg state req = Ok signature <->
  exists km tx, poisoned (inner state) = false /\ contents (inner state) = Active km /\
    1 <= zlen (GasTx.unsigned_tx req) <= GasTx.MAX_GAS_TX_BYTES /\
    (GasTx.req_digest req = [] \/ GasTx.req_digest req = keccak256 (GasTx.unsigned_tx req)) /\
    GasTx.gas_preimage tx (GasTx.unsigned_tx req) /\ GasTx.gas_allowed (gas_pins cfg) tx /\
    km_sign km (keccak256 (GasTx.unsigned_tx req)) = Ok signature.
Proof.
  unfold handle_sign_raw_digest. rewrite rbind_ok. split.
  - intros (digest & Hd & Hk). apply GasTx.validate_gas_tx_request_iff in Hd as (Hz & -> & Hr & tx & Hp & Ha).
    apply active_key_iff in Hk as (km & Hpo & Hkm & Hs). by exists km, tx.
  - intros (km & tx & Hpo & Hkm & Hz & Hr & Hp & Ha & Hs). exists (keccak256 (GasTx.unsigned_tx req)). split.
    + apply GasTx.validate_gas_tx_request_iff. split; [done|]. split; [done|]. split; [done|]. by exists tx.
    + apply active_key_iff. by exists km.
Qed.

Module Sample.
Import ConsensusSample.Release.
#[local] Existing Instances EnclaveStateProps.toy_keys PsbtSample.sample_bitcoin RgbSample.sample_rgb
  RgbSample.sample_schema schema std lib indexer RejectList.Sample.provider RejectList.Sample.node.

(** The LayerZero call that releases the burn. *)
Definition call : lzFundsOutCall := {|
  lz_amount := 5000; lz_burnId := be_combine (replicate 32 x07); lz_sourceChainId := RGB_CHAIN_ID;
  lz_destinationChainId := 1; lz_sourceAddress := []; lz_proof := proof relay_release;
  lz_settlementData := replicate 32 x07; lz_dstEid := 30101; lz_recipient := recipient relay_release;
  lz_minAmountLD := 4900; lz_extraOptions := []; lz_sourceBurnTxId := ConsensusSample.Release.burn_id
|}.

Definition calldata : bytes := [x01; x02; x03; x04; x05].

#[local] Instance codec : AbiCodec := {|
  LZ_FUNDS_OUT_SELECTOR := [x01; x02; x03; x04];
  abi_decode_funds_out := fun _ => None;
  abi_encode_funds_out := fun _ => [];
  abi_decode_lz_funds_out := fun cd => if bool_decide (cd = calldata) then Some call else None;
  abi_encode_lz_funds_out := fun _ => calldata;
  abi_decode_settlement := fun d => Some [d];
  abi_encode_settlement := fun ids => concat ids
|}.

Definition message : EvmDestinationMsg := {|
  ed_call_data := calldata; ed_nonce := 3; ed_deadline := 18600; ed_chain_id := 42161;
  ed_proxy_contract := replicate 20 x33; ed_calldata_amount := 5000;
  ed_lz_release := Some {| lzr_dst_eid := 30101; lzr_min_amount_ld := 4900; lzr_recipient := recipient relay_release |};
  ed_burn_destination := Some sample_record
|}.

Definition bridge : BridgeConfig := {|
  bc_chain_id := 42161; bc_bridge_contract := replicate 20 x33; bc_rgb_asset_id := String.list_byte_of_string "rgb:asset";
  bc_gas_tx_allowed_to := None; bc_gas_tx_max_gas_limit := 0; bc_gas_tx_max_fee_per_gas := 0;
  bc_gas_tx_allowed_selectors := []; bc_gas_tx_max_value_wei := None; bc_btc_max_total_sats := 0;
  bc_btc_max_unowned_sats := 0; bc_funds_in_contract := replicate 20 x11; bc_evm_finality_tag := Finalized;
  bc_token_contract := replicate 20 x22; bc_bitcoin_network := AttestedPolicy.BnMainnet; bc_btc_relay_mode := Required;
  bc_max_consignment_bytes := 1000; bc_max_merkle_proofs := 10; bc_max_total_proof_bytes := 1000;
  bc_spv_min_confirmations := 2; bc_mint_witness_sat := 0; bc_endpoints_sha256 := None; bc_kms_allowed_accounts := []
|}.

Definition active : EnclaveState := set_phase EnclaveStateProps.toy_state (Active 7).

Definition looks : BurnLooks := {|
  at_start := active; at_proofs := chain; at_source := chain; at_source_time := secs 18000; at_files := scratch;
  at_list_call := fun n => n; at_started := fun _ => 0; at_finished := fun _ => 0;
  at_destination_time := secs 18000; at_binding := chain; at_pins := chain; at_key := active
|}.

Definition request : BurnRequest := {|
  bq_source_network := Some (FromRgb source 0); bq_destination_network := Some (ToEvm message) |}.

Definition production : ReleaseBuild :=
  {| EvmRelease.rgb_validation := true; debug_build := false; test_build := false |}.

(** The key signs by naming itself before the digest. *)
Definition sign_with (km : Z) (digest : bytes) : enclave_result bytes := Ok (z2b km :: digest).

Definition answer : enclave_result EvmSignatureResponse :=
  handle_burn_sign (C := small_crate) relay_keccak relay_sha relay_serialize sample_hash sign_with true production bridge
    (Some {| bl_rgb_validator := Some validator; bl_rpc_client := true |}) looks request (secs 20000).

Lemma burn_sign_sound_witness :
  exists resp s m release digest t wb k,
    answer = Ok resp /\ es_signature resp = z2b 7 :: digest /\ es_call_data resp = calldata /\
    authorized_call relay_keccak bridge looks m release digest /\ amount release = 5000 /\
    release_backed (C := small_crate) relay_keccak relay_sha sample_hash s (source_config bridge)
      (Some (reject_list_reader bridge (Some {| bl_rgb_validator := Some validator; bl_rpc_client := true |}) looks (secs 20000)))
      release (ed_burn_destination m) (contents chain) (contents chain) t wb k.
Proof.
  destruct (burn_sign_sound (K := EnclaveStateProps.toy_keys) (T := std) (F := RgbSample.sample_schema) (G := schema) (L := lib)
    (Laws := ConsensusSample.small_lib_laws _) (C := small_crate) relay_keccak relay_sha relay_serialize sample_hash sign_with production bridge
    (Some {| bl_rgb_validator := Some validator; bl_rpc_client := true |}) looks request (secs 20000)
    {| es_signature := x07 :: replicate 32 x07; es_call_data := calldata |})
    as (s & c & m & release & digest & km & t & wb & k & _ & [= <-] & [= <-] & Hsig & _ & Hac & Hb).
  - done.
  - done.
  - exact relay_chain_inv.
  - exact relay_chain_inv.
  - done.
  - intros s c [= <- <-]. repeat constructor; done.
  - vm_compute. reflexivity.
  - assert (Ha : amount release = 5000).
    { destruct (ac_digest _ _ _ _ _ _ Hac) as ([p|] & Hp & _ & Hm).
      - specialize (Hp p eq_refl). discriminate Hp.
      - destruct Hm as (c' & Hd & -> & _). vm_compute in Hd. by injection Hd as <-. }
    exists {| es_signature := x07 :: replicate 32 x07; es_call_data := calldata |}, s, message, release, digest, t, wb, k.
    split_and!; [vm_compute; reflexivity|injection Hsig as ->; reflexivity|reflexivity|exact Hac|exact Ha|exact Hb].
Defined.

(** A hash of 32 bytes. *)
Definition mod_hash (x : bytes) : bytes := be_split 32 (be_combine (x01 :: x) mod (2 ^ 255 - 19)).

#[local] Instance codec_typed : AbiTyped.
Proof.
  split; [done|]. intros cd p. cbn. case_bool_decide; [|done]. intros [= <-].
  split; try reflexivity; split; by vm_compute.
Qed.

(** The burn destination record is not signed: the burn binds it. *)
Definition other : EvmDestinationMsg := {|
  ed_call_data := calldata; ed_nonce := 3; ed_deadline := 18600; ed_chain_id := 42161;
  ed_proxy_contract := replicate 20 x33; ed_calldata_amount := 4; ed_lz_release := ed_lz_release message;
  ed_burn_destination := None
|}.

Lemma release_digest_binds_witness :
  message <> other /\ release_digest mod_hash message None = release_digest mod_hash other None /\
  ed_call_data message = ed_call_data other.
Proof.
  split; [done|]. split; [vm_compute; reflexivity|].
  destruct (release_digest mod_hash message None) as [h| |] eqn:E; [|by vm_compute in E..].
  apply (release_digest_binds mod_hash (fun x => be_split_length 32 _) message other None None h).
  - split; by vm_compute.
  - split; by vm_compute.
  - done.
  - done.
  - apply collision_freeb_ok. vm_compute. reflexivity.
  - exact E.
  - rewrite <- E. vm_compute. reflexivity.
Defined.

End Sample.
