(* ===== verification/SignedResponses.v ===== *)
(** * The replies the parent keeps for a retried sign
      (src/parent/src/signed_responses.rs, the exchange of grpc_server.rs)

    [SignedResponses] with its watch channels: a retry gets the kept reply,
    joins the exchange in flight, or leads a new one.  Every lock recovers from
    poison, so the state is a plain record; a task is preempted between its
    locked sections, and [step] is one such section of one task. *)

From stdpp Require Import base numbers list gmap strings relations.
From S2P Require Import Prelude.

#[local] Open Scope list_scope.
#[local] Open Scope Z_scope.

Definition DEFAULT_REPLY_TTL : Z := secs (60 * 60).
Definition DEFAULT_MAX_REPLIES : Z := 1024.
Definition DEFAULT_MAX_REPLY_BYTES : Z := Z.shiftl 16 20.

Record Reply : Type := { rp_signed_psbt : bytes; rp_inputs_signed : Z }.

Definition reply_size (r : Reply) : Z := zlen (rp_signed_psbt r).

(** A channel is named by a number. *)
Inductive Slot : Type :=
| InFlight (rx : nat)
| DoneSlot (r : Reply).

Record Kept : Type := {
  k_slots : gmap bytes Slot;
  k_order : list (bytes * Z);
  k_bytes : Z
}.

Record Limits : Type := { l_ttl : Z; l_max_entries : Z; l_max_bytes : Z }.

Definition default_limits : Limits := {|
  l_ttl := DEFAULT_REPLY_TTL; l_max_entries := DEFAULT_MAX_REPLIES; l_max_bytes := DEFAULT_MAX_REPLY_BYTES |}.

Definition no_replies : Kept := {| k_slots := ∅; k_order := []; k_bytes := 0 |}.

(** ** Eviction *)

(** [evict_oldest] of a state whose order starts with [old]. *)
Definition evict_front (s : Kept) (old : bytes) (rest : list (bytes * Z)) : Kept := {|
  k_slots := delete old (k_slots s);
  k_order := rest;
  k_bytes := match k_slots s !! old with
             | Some (DoneSlot r) => k_bytes s - reply_size r
             | _ => k_bytes s
             end
|}.

Definition evict_oldest (s : Kept) : Kept * bool :=
  match k_order s with
  | (old, _) :: rest => (evict_front s old rest, true)
  | [] => (s, false)
  end.

(** The loop of [evict_expired], along the order. *)
Fixpoint evict_expired_along (order : list (bytes * Z)) (ttl now : Z) (s : Kept) : Kept :=
  match order with
  | (old, stored_at) :: rest =>
      if ttl <=? sat_sub now stored_at then evict_expired_along rest ttl now (evict_front s old rest) else s
  | [] => s
  end.

Definition evict_expired (ttl now : Z) (s : Kept) : Kept := evict_expired_along (k_order s) ttl now s.

(** The capacity loop of [store]: it stops when the order is empty. *)
Fixpoint make_room_along (order : list (bytes * Z)) (l : Limits) (size : Z) (s : Kept) : Kept :=
  if (l_max_entries l <=? zlen (k_order s)) || (l_max_bytes l <? k_bytes s + size) then
    match order with
    | (old, _) :: rest => make_room_along rest l size (evict_front s old rest)
    | [] => s
    end
  else s.

Definition make_room (l : Limits) (size : Z) (s : Kept) : Kept := make_room_along (k_order s) l size s.

(** ** The operations *)

Definition store (l : Limits) (key : bytes) (r : Reply) (now : Z) (s : Kept) : Kept :=
  let size := reply_size r in
  let s := {| k_slots := delete key (k_slots s); k_order := k_order s; k_bytes := k_bytes s |} in
  if l_max_bytes l <? size then s
  else
    let s := make_room l size (evict_expired (l_ttl l) now s) in
    {| k_slots := <[key := DoneSlot r]> (k_slots s);
       k_order := k_order s ++ [(key, now)];
       k_bytes := k_bytes s + size |}.

Inductive Look : Type := Serve (r : Reply) | WaitOn (rx : nat) | TakeLead (tx : nat).

(** One turn of [claim]: [fresh] names the channel of a new lead. *)
Definition claim_once (l : Limits) (key : bytes) (fresh : nat) (now : Z) (s : Kept) : Kept * Look :=
  let s := evict_expired (l_ttl l) now s in
  match k_slots s !! key with
  | Some (DoneSlot r) => (s, Serve r)
  | Some (InFlight rx) => (s, WaitOn rx)
  | None =>
      ({| k_slots := <[key := InFlight fresh]> (k_slots s); k_order := k_order s; k_bytes := k_bytes s |},
       TakeLead fresh)
  end.

(** The locked part of [Lead::drop]. *)
Definition release (key : bytes) (s : Kept) : Kept :=
  match k_slots s !! key with
  | Some (InFlight _) =>
      {| k_slots := delete key (k_slots s); k_order := k_order s; k_bytes := k_bytes s |}
  | _ => s
  end.

Definition stored (s : Kept) : Z := zlen (k_order s).

(** ** The tasks *)

(** What the receivers of a watch channel see. *)
Inductive Channel : Type :=
| Quiet
| Sent (r : Reply)
| Closed.

(** Where a task of [sign] is: before [claim] looks, waiting for the exchange in
    flight, in the exchange, after the store, after the release of a failed
    lead, or at its end. *)
Inductive Task : Type :=
| Asking (key : bytes)
| Waiting (key : bytes) (rx : nat)
| Leading (key : bytes) (tx : nat)
| Sending (key : bytes) (tx : nat) (r : Reply)
| Dropping (key : bytes) (tx : nat)
| Answered (key : bytes) (r : Reply)
| Ended (key : bytes).

Record System : Type := {
  sy_kept : Kept;
  sy_channels : gmap nat Channel;
  sy_tasks : gmap nat Task
}.

Definition initial : System := {| sy_kept := no_replies; sy_channels := ∅; sy_tasks := ∅ |}.

Definition with_task (y : System) (i : nat) (t : Task) : System :=
  {| sy_kept := sy_kept y; sy_channels := sy_channels y; sy_tasks := <[i := t]> (sy_tasks y) |}.

Definition with_kept (y : System) (s : Kept) : System :=
  {| sy_kept := s; sy_channels := sy_channels y; sy_tasks := sy_tasks y |}.

Definition with_channel (y : System) (c : nat) (v : Channel) : System :=
  {| sy_kept := sy_kept y; sy_channels := <[c := v]> (sy_channels y); sy_tasks := sy_tasks y |}.

Section Steps.
Context (l : Limits).
(** The enclave may answer the request of [key] with [r]. *)
Context (enclave_signs : bytes -> Reply -> Prop).

Inductive step : System -> System -> Prop :=
| st_arrive y i key :
    sy_tasks y !! i = None ->
    step y (with_task y i (Asking key))
| st_serve y i key fresh now s r :
    sy_tasks y !! i = Some (Asking key) ->
    claim_once l key fresh now (sy_kept y) = (s, Serve r) ->
    step y (with_task (with_kept y s) i (Answered key r))
| st_wait y i key fresh now s rx :
    sy_tasks y !! i = Some (Asking key) ->
    claim_once l key fresh now (sy_kept y) = (s, WaitOn rx) ->
    step y (with_task (with_kept y s) i (Waiting key rx))
| st_lead y i key fresh now s tx :
    sy_tasks y !! i = Some (Asking key) -> sy_channels y !! fresh = None ->
    claim_once l key fresh now (sy_kept y) = (s, TakeLead tx) ->
    step y (with_task (with_channel (with_kept y s) fresh Quiet) i (Leading key tx))
| st_woken y i key rx r :
    sy_tasks y !! i = Some (Waiting key rx) -> sy_channels y !! rx = Some (Sent r) ->
    step y (with_task y i (Answered key r))
| st_look_again y i key rx :
    sy_tasks y !! i = Some (Waiting key rx) -> sy_channels y !! rx = Some Closed ->
    step y (with_task y i (Asking key))
| st_store y i key tx r now :
    sy_tasks y !! i = Some (Leading key tx) -> enclave_signs key r ->
    step y (with_task (with_kept y (store l key r now (sy_kept y))) i (Sending key tx r))
| st_send y i key tx r :
    sy_tasks y !! i = Some (Sending key tx r) ->
    step y (with_task (with_channel y tx (Sent r)) i (Answered key r))
| st_fail y i key tx :
    sy_tasks y !! i = Some (Leading key tx) ->
    step y (with_task (with_kept y (release key (sy_kept y))) i (Dropping key tx))
| st_close y i key tx :
    sy_tasks y !! i = Some (Dropping key tx) ->
    step y (with_task (with_channel y tx Closed) i (Ended key))
(** The gRPC future of a task that does not lead is dropped. *)
| st_cancel y i key :
    sy_tasks y !! i = Some (Asking key) \/ (exists rx, sy_tasks y !! i = Some (Waiting key rx)) ->
    step y (with_task y i (Ended key)).

End Steps.

(** * Theorems on the kept replies of the parent

    The store keeps its books, and over every interleaving of tasks one request
    has one exchange in flight, no waiter is stranded, and what is served is
    what the enclave signed. *)

(** ** The books *)

Definition slot_size (m : gmap bytes Slot) (k : bytes) : Z :=
  match m !! k with Some (DoneSlot r) => reply_size r | _ => 0 end.

Definition sizes (m : gmap bytes Slot) (ks : list bytes) : Z := foldr (fun k n => slot_size m k + n) 0 ks.

(** The order lists the finished replies once each, and the bytes are theirs. *)
Record books (s : Kept) : Prop := {
  bk_once : NoDup (k_order s).*1;
  bk_done k : k ∈ (k_order s).*1 <-> exists r, k_slots s !! k = Some (DoneSlot r);
  bk_bytes : k_bytes s = sizes (k_slots s) (k_order s).*1
}.

Definition within (l : Limits) (s : Kept) : Prop :=
  zlen (k_order s) <= Z.max 1 (l_max_entries l) /\ k_bytes s <= l_max_bytes l.

(** The exchanges in flight are the same. *)
Definition same_flights (s s' : Kept) : Prop :=
  forall k c, k_slots s' !! k = Some (InFlight c) <-> k_slots s !! k = Some (InFlight c).

(** Every reply of [s'] is one of [s]. *)
Definition fewer_replies (s s' : Kept) : Prop :=
  forall k r, k_slots s' !! k = Some (DoneSlot r) -> k_slots s !! k = Some (DoneSlot r).

#[local] Arguments sizes : simpl never.

Lemma sizes_cons m k ks : sizes m (k :: ks) = slot_size m k + sizes m ks.
Proof. done. Qed.

Lemma sizes_ext m m' ks : (forall k, k ∈ ks -> slot_size m k = slot_size m' k) -> sizes m ks = sizes m' ks.
Proof.
  induction ks as [|k ks IH]; intros H; [done|]. rewrite !sizes_cons, (H k) by set_solver. f_equal. apply IH. set_solver.
Qed.

Lemma sizes_app m ks ks' : sizes m (ks ++ ks') = sizes m ks + sizes m ks'.
Proof. unfold sizes. induction ks as [|k ks IH]; [done|]. cbn. rewrite IH. lia. Qed.

Lemma slot_size_nonneg m k : 0 <= slot_size m k.
Proof. unfold slot_size, reply_size. destruct (m !! k) as [[]|]; try lia. apply zlen_nonneg. Qed.

Lemma sizes_nonneg m ks : 0 <= sizes m ks.
Proof. induction ks as [|k ks IH]; [done|]. rewrite sizes_cons. pose proof (slot_size_nonneg m k). lia. Qed.

Lemma slot_size_ne m k k' v : k <> k' -> slot_size (<[k' := v]> m) k = slot_size m k.
Proof. intros H. unfold slot_size. by rewrite lookup_insert_ne. Qed.

Lemma slot_size_delete_ne m k k' : k <> k' -> slot_size (delete k' m) k = slot_size m k.
Proof. intros H. unfold slot_size. by rewrite lookup_delete_ne. Qed.

Lemma evict_front_books s old t rest :
  books s -> k_order s = (old, t) :: rest ->
  books (evict_front s old rest) /\ same_flights s (evict_front s old rest) /\ fewer_replies s (evict_front s old rest) /\
  k_bytes (evict_front s old rest) <= k_bytes s.
Proof.
  intros [Hn Hd Hb] Ho. rewrite Ho in Hn, Hd, Hb. cbn in Hn. rewrite fmap_cons, sizes_cons in Hb. cbn in Hb. apply NoDup_cons in Hn as [Hold Hn].
  destruct (proj1 (Hd old)) as [r Hr]; [by left|].
  assert (Hsz : sizes (delete old (k_slots s)) rest.*1 = sizes (k_slots s) rest.*1).
  { apply sizes_ext. intros k Hk. apply slot_size_delete_ne. by intros ->. }
  assert (Hrest : forall k, k ∈ rest.*1 -> k <> old) by (by intros k Hk ->).
  split_and!.
  - split; cbn.
    + done.
    + intros k. setoid_rewrite lookup_delete_Some. split.
      * intros Hk. destruct (proj1 (Hd k)) as [r' Hr']; [by right|]. exists r'. split; [|done].
        intros <-. by apply (Hrest old).
      * intros (r' & Hne & Hr'). assert (Hk : k ∈ old :: rest.*1) by (apply Hd; by exists r').
        apply elem_of_cons in Hk as [->|Hk]; done.
    + rewrite Hr, Hb, Hsz. unfold slot_size at 1. rewrite Hr. lia.
  - intros k c. cbn. rewrite lookup_delete_Some. split; [tauto|]. intros H. split; [|done]. intros <-. congruence.
  - intros k r' H. cbn in H. by apply lookup_delete_Some in H as [_ H].
  - cbn. rewrite Hr. unfold reply_size. pose proof (zlen_nonneg (rp_signed_psbt r)). lia.
Qed.

Lemma same_flights_trans s1 s2 s3 : same_flights s1 s2 -> same_flights s2 s3 -> same_flights s1 s3.
Proof. intros H1 H2 k c. rewrite (H2 k c). apply H1. Qed.

Lemma fewer_trans s1 s2 s3 : fewer_replies s1 s2 -> fewer_replies s2 s3 -> fewer_replies s1 s3.
Proof. intros H1 H2 k r H. auto. Qed.

(** What eviction keeps. *)
Record evicted (s s' : Kept) : Prop := {
  ev_books : books s';
  ev_flights : same_flights s s';
  ev_fewer : fewer_replies s s';
  ev_count : zlen (k_order s') <= zlen (k_order s);
  ev_bytes : k_bytes s' <= k_bytes s
}.

Lemma evicted_refl s : books s -> evicted s s.
Proof. intros H. split; [done|by intros k c|by intros k r|lia|lia]. Qed.

Lemma evicted_front s s' old t rest :
  books s -> k_order s = (old, t) :: rest -> evicted (evict_front s old rest) s' -> evicted s s'.
Proof.
  intros Hb Ho [H1 H2 H3 H4 H5]. destruct (evict_front_books s old t rest Hb Ho) as (_ & Hf & Hw & Hy).
  split; [done|by eapply same_flights_trans|by eapply fewer_trans| |lia].
  cbn in H4. rewrite Ho, zlen_cons. lia.
Qed.

Lemma evict_expired_ok ttl now s : books s -> evicted s (evict_expired ttl now s).
Proof.
  unfold evict_expired. remember (k_order s) as o eqn:Ho. revert s Ho.
  induction o as [|[old t] rest IH]; intros s Ho Hb; cbn; [by apply evicted_refl|].
  destruct (_ <=? _); [|by apply evicted_refl].
  eapply evicted_front; [done|done|]. apply IH; [done|]. by eapply evict_front_books.
Qed.

Lemma make_room_ok l size s :
  books s -> size <= l_max_bytes l ->
  evicted s (make_room l size s) /\ zlen (k_order (make_room l size s)) < Z.max 1 (l_max_entries l) /\
  k_bytes (make_room l size s) + size <= l_max_bytes l.
Proof.
  intros Hb Hs. unfold make_room. remember (k_order s) as o eqn:Ho. revert s Ho Hb.
  induction o as [|[old t] rest IH]; intros s Ho Hb; cbn [make_room_along].
  - assert (Hz : k_bytes s = 0) by (by rewrite (bk_bytes s Hb), <- Ho).
    destruct (_ || _); rewrite Hz, <- Ho; (split; [by apply evicted_refl|]); rewrite zlen_nil; lia.
  - destruct (_ || _) eqn:E.
    + destruct (IH (evict_front s old rest)) as [H1 H2]; [done|by eapply evict_front_books|].
      split; [|done]. by eapply evicted_front.
    + apply orb_false_iff in E as [E1 E2]. zbool. split; [by apply evicted_refl|]. lia.
Qed.

(** ** The operations *)

Lemma books_without s key c :
  books s -> k_slots s !! key = Some (InFlight c) ->
  books {| k_slots := delete key (k_slots s); k_order := k_order s; k_bytes := k_bytes s |}.
Proof.
  intros [Hn Hd Hb] Hc. assert (Hk : key ∉ (k_order s).*1).
  { intros H. apply Hd in H as [r Hr]. congruence. }
  split; cbn; [done| |].
  - intros k. rewrite Hd. setoid_rewrite lookup_delete_Some. split; [|naive_solver].
    intros [r Hr]. exists r. split; [|done]. congruence.
  - rewrite Hb. apply sizes_ext. intros k Hi. rewrite slot_size_delete_ne; [done|]. by intros ->.
Qed.

Lemma store_ok l key r now s c :
  books s -> within l s -> k_slots s !! key = Some (InFlight c) ->
  let s' := store l key r now s in
  books s' /\ within l s' /\
  (forall k c', k_slots s' !! k = Some (InFlight c') <-> k <> key /\ k_slots s !! k = Some (InFlight c')) /\
  (forall k r', k_slots s' !! k = Some (DoneSlot r') -> k = key /\ r' = r \/ k_slots s !! k = Some (DoneSlot r')) /\
  (reply_size r <= l_max_bytes l -> k_slots s' !! key = Some (DoneSlot r)).
Proof.
  intros Hb Hw Hc s'. unfold s', store. clear s'. pose proof (books_without s key c Hb Hc) as Hb1.
  set (s1 := {| k_slots := delete key (k_slots s) |}) in *.
  destruct (Z.ltb_spec (l_max_bytes l) (reply_size r)) as [Hs|Hs].
  { split_and!; [done|done| | |lia]; intros k x; cbn; rewrite lookup_delete_Some; naive_solver. }
  pose proof (evict_expired_ok (l_ttl l) now s1 Hb1) as He. set (s2 := evict_expired _ _ s1) in *.
  destruct (make_room_ok l (reply_size r) s2) as (Hm & Hcount & Hbytes); [apply He|lia|].
  set (s3 := make_room _ _ s2) in *.
  assert (Hk3 : k_slots s3 !! key = None).
  { destruct (k_slots s3 !! key) as [[c'|r']|] eqn:E; [| |done].
    - apply (ev_flights _ _ Hm), (ev_flights _ _ He) in E. cbn in E. by rewrite lookup_delete_eq in E.
    - apply (ev_fewer _ _ Hm), (ev_fewer _ _ He) in E. cbn in E. by rewrite lookup_delete_eq in E. }
  pose proof (ev_books _ _ Hm) as [Hn3 Hd3 Hb3].
  assert (Hko : key ∉ (k_order s3).*1) by (intros [r' Hr']%Hd3; congruence).
  split_and!.
  - split; cbn.
    + rewrite fmap_app. apply NoDup_app. split; [done|]. split; [|apply NoDup_singleton].
      intros k Hk ->%list_elem_of_singleton. done.
    + intros k. rewrite fmap_app, elem_of_app. cbn [fmap list_fmap fst]. rewrite list_elem_of_singleton, Hd3.
      destruct (decide (k = key)) as [->|Hne]; [rewrite lookup_insert_eq; naive_solver|].
      rewrite lookup_insert_ne by done. naive_solver.
    + rewrite fmap_app, sizes_app, Hb3. cbn [fmap list_fmap fst]. rewrite sizes_cons.
      unfold slot_size at 1. rewrite lookup_insert_eq. change (sizes _ []) with 0.
      rewrite (sizes_ext (<[key := _]> _) (k_slots s3)); [lia|]. intros k Hk. apply slot_size_ne. by intros ->.
  - unfold within. cbn. rewrite zlen_app, zlen_cons, zlen_nil. lia.
  - intros k c'. cbn. destruct (decide (k = key)) as [->|Hne]; [rewrite lookup_insert_eq; naive_solver|].
    rewrite lookup_insert_ne by done. rewrite (ev_flights _ _ Hm k c'), (ev_flights _ _ He k c'). cbn.
    rewrite lookup_delete_ne by done. naive_solver.
  - intros k r'. cbn. destruct (decide (k = key)) as [->|Hne]; [rewrite lookup_insert_eq; naive_solver|].
    rewrite lookup_insert_ne by done. intros H%(ev_fewer _ _ Hm)%(ev_fewer _ _ He). cbn in H.
    rewrite lookup_delete_ne in H by done. by right.
  - intros _. cbn. apply lookup_insert_eq.
Qed.

Lemma claim_ok l key fresh now s s' look :
  books s -> within l s -> claim_once l key fresh now s = (s', look) ->
  books s' /\ within l s' /\ fewer_replies s s' /\
  match look with
  | Serve r => k_slots s !! key = Some (DoneSlot r) /\ same_flights s s'
  | WaitOn rx => k_slots s !! key = Some (InFlight rx) /\ same_flights s s'
  | TakeLead tx => tx = fresh /\ (forall c, k_slots s !! key <> Some (InFlight c)) /\
      forall k c, k_slots s' !! k = Some (InFlight c) <-> k = key /\ c = fresh \/ k_slots s !! k = Some (InFlight c)
  end.
Proof.
  intros Hb [Hw1 Hw2] H. unfold claim_once in H. pose proof (evict_expired_ok (l_ttl l) now s Hb) as [He1 He2 He3 He4 He5].
  set (s1 := evict_expired _ _ s) in *. assert (Hw : within l s1) by (split; lia).
  destruct (k_slots s1 !! key) as [[rx|r]|] eqn:E; injection H as <- <-.
  - split_and!; try done. by apply He2.
  - split_and!; try done. by apply He3.
  - assert (Hno : forall c, k_slots s !! key <> Some (InFlight c)) by (intros c Hc%He2; congruence).
    destruct He1 as [Hn Hd Hy]. assert (Hk : key ∉ (k_order s1).*1) by (intros [r Hr]%Hd; congruence).
    split_and!; try done.
    + split; cbn; [done| |].
      * intros k. rewrite Hd. destruct (decide (k = key)) as [->|Hne]; [|by rewrite lookup_insert_ne].
        rewrite lookup_insert_eq. naive_solver.
      * rewrite Hy. apply sizes_ext. intros k Hi. symmetry. apply slot_size_ne. by intros ->.
    + intros k r Hr. cbn in Hr. apply lookup_insert_Some in Hr as [[_ ?]|[_ Hr]]; [done|by apply He3].
    + intros k c. cbn. rewrite lookup_insert_Some, (He2 k c). split; [naive_solver|].
      intros [[-> ->]|Hc]; [by left|]. right. split; [|done]. intros ->. by eapply Hno.
Qed.

Lemma release_ok l key s c :
  books s -> within l s -> k_slots s !! key = Some (InFlight c) ->
  books (release key s) /\ within l (release key s) /\ fewer_replies s (release key s) /\
  (forall k c', k_slots (release key s) !! k = Some (InFlight c') <-> k <> key /\ k_slots s !! k = Some (InFlight c')).
Proof.
  intros Hb Hw Hc. unfold release. rewrite Hc. split_and!; [by eapply books_without|done| |].
  - intros k r Hr. cbn in Hr. by apply lookup_delete_Some in Hr as [_ Hr].
  - intros k c'. cbn. rewrite lookup_delete_Some. naive_solver.
Qed.

(** ** The tasks *)

(** The channel a task will answer on, and the key it leads or led. *)
Definition owner_of (t : Task) : option (nat * bytes) :=
  match t with
  | Leading k c | Sending k c _ | Dropping k c => Some (c, k)
  | _ => None
  end.

Section System.
Context (l : Limits) (enclave_signs : bytes -> Reply -> Prop).

Definition reply_of (t : Task) : option (bytes * Reply) :=
  match t with Sending k _ r | Answered k r => Some (k, r) | _ => None end.

Definition owns (y : System) (i c : nat) (k : bytes) : Prop := exists t, sy_tasks y !! i = Some t /\ owner_of t = Some (c, k).

Record sys_inv (y : System) : Prop := {
  si_books : books (sy_kept y);
  si_within : within l (sy_kept y);
  si_flight k c : k_slots (sy_kept y) !! k = Some (InFlight c) <-> exists i, sy_tasks y !! i = Some (Leading k c);
  si_owner i j c k k' : owns y i c k -> owns y j c k' -> i = j;
  si_quiet c : sy_channels y !! c = Some Quiet <-> exists i k, owns y i c k;
  si_wait i k c : sy_tasks y !! i = Some (Waiting k c) ->
    (exists j, owns y j c k) \/ (exists r, sy_channels y !! c = Some (Sent r) /\ enclave_signs k r) \/
    sy_channels y !! c = Some Closed;
  si_reply i t k r : sy_tasks y !! i = Some t -> reply_of t = Some (k, r) -> enclave_signs k r;
  si_kept k r : k_slots (sy_kept y) !! k = Some (DoneSlot r) -> enclave_signs k r
}.

Lemma owns_with_task y i t j c k :
  owns (with_task y i t) j c k <-> j = i /\ owner_of t = Some (c, k) \/ j <> i /\ owns y j c k.
Proof.
  unfold owns. cbn. destruct (decide (j = i)) as [->|Hne]; [rewrite lookup_insert_eq|rewrite lookup_insert_ne by done].
  - naive_solver.
  - naive_solver.
Qed.

Lemma owns_channel y c0 v i c k : owns (with_channel y c0 v) i c k <-> owns y i c k.
Proof. done. Qed.

Lemma owns_kept y s i c k : owns (with_kept y s) i c k <-> owns y i c k.
Proof. done. Qed.

Lemma with_kept_id y : with_kept y (sy_kept y) = y.
Proof. by destruct y. Qed.

(** Lookups in the changed tasks. *)
#[local] Ltac at_task H :=
  cbn in H; apply lookup_insert_Some in H as [[<- H]|[? H]]; [simplify_eq|].

(** A task that owns no channel moves on; the flights stay. *)
Lemma move_free y i t s :
  sys_inv y -> (forall t0, sy_tasks y !! i = Some t0 -> owner_of t0 = None) -> owner_of t = None ->
  books s -> within l s -> same_flights (sy_kept y) s -> fewer_replies (sy_kept y) s ->
  (forall k c, t = Waiting k c -> exists j, owns y j c k) ->
  (forall k r, reply_of t = Some (k, r) -> enclave_signs k r) ->
  sys_inv (with_task (with_kept y s) i t).
Proof.
  intros [Ib Iw If Io Iq Iwt Ir Ik] H0 Ht Hb Hw Hf Hr Hwait Hrep.
  assert (Hown : forall j c k, owns (with_task (with_kept y s) i t) j c k <-> owns y j c k).
  { intros j c k. rewrite owns_with_task, owns_kept, Ht. split; [naive_solver|]. intros Ho. right. split; [|done].
    intros ->. destruct Ho as (t0 & Ht0 & Hc). rewrite (H0 t0 Ht0) in Hc. done. }
  split; try done.
  - intros k c. cbn [sy_kept with_task with_kept]. rewrite (Hf k c), If. cbn. split; intros [j Hj]; exists j.
    + rewrite lookup_insert_ne; [done|]. intros <-. by apply H0 in Hj.
    + at_task Hj; done.
  - intros j j' c k k'. rewrite !Hown. apply Io.
  - intros c. cbn. rewrite Iq. setoid_rewrite Hown. done.
  - intros j k c Hj. setoid_rewrite Hown. at_task Hj; [left; by apply Hwait|by apply Iwt in Hj].
  - intros j t' k r Hj Hk. at_task Hj; [by apply Hrep|by eapply Ir].
  - intros k r Hk. by apply Ik, Hr.
Qed.

(** A lead ends its flight and keeps its channel: a store or a release. *)
Lemma move_landed y i key tx t s :
  sys_inv y -> sy_tasks y !! i = Some (Leading key tx) ->
  owner_of t = Some (tx, key) -> (forall k c, t <> Leading k c /\ t <> Waiting k c) ->
  books s -> within l s ->
  (forall k c, k_slots s !! k = Some (InFlight c) <-> k <> key /\ k_slots (sy_kept y) !! k = Some (InFlight c)) ->
  (forall k r, k_slots s !! k = Some (DoneSlot r) -> enclave_signs k r) ->
  (forall k r, reply_of t = Some (k, r) -> enclave_signs k r) ->
  sys_inv (with_task (with_kept y s) i t).
Proof.
  intros [Ib Iw If Io Iq Iwt Ir Ik] Hi Ht Hnl Hb Hw Hf Hk Hrep.
  assert (Hown : forall j c k, owns (with_task (with_kept y s) i t) j c k <-> owns y j c k).
  { intros j c k. rewrite owns_with_task, owns_kept, Ht. destruct (decide (j = i)) as [->|]; [|naive_solver].
    unfold owns. rewrite Hi. naive_solver. }
  assert (Hs : k_slots (sy_kept y) !! key = Some (InFlight tx)) by (apply If; by exists i).
  split; try done.
  - intros k c. cbn [sy_kept with_task with_kept]. rewrite Hf, If. cbn. split.
    + intros (Hne & j & Hj). exists j. rewrite lookup_insert_ne; [done|]. intros <-. congruence.
    + intros [j Hj]. at_task Hj; [by destruct (Hnl k c)|]. split; [|by exists j]. intros ->.
      assert (Hs' : k_slots (sy_kept y) !! key = Some (InFlight c)) by (apply If; by exists j).
      assert (c = tx) as -> by congruence. apply H. apply (Io _ _ tx key key); by eexists.
  - intros j j' c k k'. rewrite !Hown. apply Io.
  - intros c. cbn. rewrite Iq. setoid_rewrite Hown. done.
  - intros j k c Hj. setoid_rewrite Hown. at_task Hj. by apply Iwt in Hj.
  - intros j t' k r Hj Hr. at_task Hj; [by apply Hrep|by eapply Ir].
Qed.

(** The owner of a channel sends or closes it and owns it no more. *)
Lemma move_done y i key tx t0 t v :
  sys_inv y -> sy_tasks y !! i = Some t0 -> owner_of t0 = Some (tx, key) -> (forall k c, t0 <> Leading k c) ->
  owner_of t = None -> (forall k c, t <> Waiting k c) ->
  (v = Closed \/ exists r, v = Sent r /\ enclave_signs key r) ->
  (forall k r, reply_of t = Some (k, r) -> enclave_signs k r) ->
  sys_inv (with_task (with_channel y tx v) i t).
Proof.
  intros [Ib Iw If Io Iq Iwt Ir Ik] Hi H0 Hnl Ht Hnw Hv Hrep.
  assert (Ho : owns y i tx key) by (by exists t0).
  assert (Hown : forall j c k, owns (with_task (with_channel y tx v) i t) j c k <-> c <> tx /\ owns y j c k).
  { intros j c k. rewrite owns_with_task, owns_channel, Ht. split.
    - intros [[_ ?]|[Hne Hj]]; [done|]. split; [|done]. intros ->. by apply Hne, (Io _ _ tx k key).
    - intros [Hne Hj]. right. split; [|done]. intros ->. destruct Hj as (t1 & Ht1 & Hc). congruence. }
  split; try done.
  - intros k c. cbn. rewrite If. split; intros [j Hj]; exists j.
    + rewrite lookup_insert_ne; [done|]. intros <-. rewrite Hi in Hj. injection Hj as ->. by apply (Hnl k c).
    + at_task Hj; done.
  - intros j j' c k k'. rewrite !Hown. intros [_ ?] [_ ?]. by eapply Io.
  - intros c. setoid_rewrite Hown. cbn. destruct (decide (c = tx)) as [->|Hne].
    + rewrite lookup_insert_eq. split; [|naive_solver]. intros [= ->]. naive_solver.
    + rewrite lookup_insert_ne, Iq by done. naive_solver.
  - intros j k c Hj. setoid_rewrite Hown. at_task Hj; [by destruct (Hnw k c)|].
    cbn. destruct (decide (c = tx)) as [->|Hne]; [|rewrite lookup_insert_ne by done; apply Iwt in Hj; naive_solver].
    rewrite lookup_insert_eq. right. apply Iwt in Hj as [[j' Hj']|[(r & Hr & _)|Hc]].
    + assert (j' = i) as -> by (by eapply Io). destruct Ho as (t1 & Ht1 & Hc1), Hj' as (t2 & Ht2 & Hc2).
      assert (k = key) as -> by congruence. destruct Hv as [->|(r & -> & Hr)]; [by right|left; by exists r].
    + assert (Hq : sy_channels y !! tx = Some Quiet) by (apply Iq; by exists i, key). congruence.
    + assert (Hq : sy_channels y !! tx = Some Quiet) by (apply Iq; by exists i, key). congruence.
  - intros j t' k r Hj Hr. at_task Hj; [by apply Hrep|by eapply Ir].
Qed.

(** A task takes the lead on a channel of its own. *)
Lemma move_lead y i key c0 s :
  sys_inv y -> sy_tasks y !! i = Some (Asking key) -> sy_channels y !! c0 = None ->
  books s -> within l s -> fewer_replies (sy_kept y) s ->
  (forall c, k_slots (sy_kept y) !! key <> Some (InFlight c)) ->
  (forall k c, k_slots s !! k = Some (InFlight c) <-> k = key /\ c = c0 \/ k_slots (sy_kept y) !! k = Some (InFlight c)) ->
  sys_inv (with_task (with_channel (with_kept y s) c0 Quiet) i (Leading key c0)).
Proof.
  intros [Ib Iw If Io Iq Iwt Ir Ik] Hi Hc Hb Hw Hr Hno Hf.
  assert (Hfree : forall j k, ~ owns y j c0 k).
  { intros j k Hj. assert (Hq : sy_channels y !! c0 = Some Quiet) by (apply Iq; by exists j, k). congruence. }
  assert (Hown : forall j c k, owns (with_task (with_channel (with_kept y s) c0 Quiet) i (Leading key c0)) j c k <->
    j = i /\ c = c0 /\ k = key \/ j <> i /\ owns y j c k).
  { intros j c k. rewrite owns_with_task, owns_channel, owns_kept. cbn. naive_solver. }
  assert (Hasking : forall c k, ~ owns y i c k) by (intros c k (t0 & Ht0 & Hco); rewrite Hi in Ht0; by injection Ht0 as <-).
  split; try done.
  - intros k c. cbn. rewrite Hf, If. split.
    + intros [[-> ->]|[j Hj]]; [exists i; by rewrite lookup_insert_eq|]. exists j. rewrite lookup_insert_ne; [done|].
      intros <-. congruence.
    + intros [j Hj]. at_task Hj; [by left|]. right. by exists j.
  - intros j j' c k k'. rewrite !Hown. intros [(? & ? & ?)|[Hj Hoj]] [(? & ? & ?)|[Hj' Hoj']]; subst.
    + done.
    + by apply Hfree in Hoj'.
    + by apply Hfree in Hoj.
    + by eapply Io.
  - intros c. setoid_rewrite Hown. cbn. destruct (decide (c = c0)) as [->|Hne].
    + rewrite lookup_insert_eq. naive_solver.
    + rewrite lookup_insert_ne, Iq by done. split; [|naive_solver]. intros (j & k & Hj). exists j, k. right.
      split; [|done]. intros ->. by apply Hasking in Hj.
  - intros j k c Hj. setoid_rewrite Hown. at_task Hj. cbn. apply Iwt in Hj as [[j' Hj']|Hch].
    + left. exists j'. right. split; [|done]. intros ->. by apply Hasking in Hj'.
    + right. rewrite lookup_insert_ne; [done|]. intros E. subst c. rewrite Hc in Hch. naive_solver.
  - intros j t' k r Hj Hrp. at_task Hj. by eapply Ir.
  - intros k r Hk. by apply Ik, Hr.
Qed.

Lemma step_inv y y' : sys_inv y -> step l enclave_signs y y' -> sys_inv y'.
Proof.
  intros I H. destruct H as [y i key Hi|y i key fresh now s r Hi Hc|y i key fresh now s rx Hi Hc|y i key fresh now s tx Hi Hf Hc
    |y i key rx r Hi Hch|y i key rx Hi Hch|y i key tx r now Hi Hs|y i key tx r Hi|y i key tx Hi|y i key tx Hi|y i key Hi].
  - rewrite <- (with_kept_id y) at 1. apply move_free; try done; try apply I; try (by intros ? ?); by intros; simplify_eq.
  - apply claim_ok in Hc as (Hb & Hw & Hr & Hd & Hsf); [|apply I..]. apply move_free; try done; [by intros; simplify_eq|].
    intros k r' [= <- <-]. by apply (si_kept _ I).
  - apply claim_ok in Hc as (Hb & Hw & Hr & Hd & Hsf); [|apply I..]. apply move_free; try done; [by intros; simplify_eq|].
    intros k c [= <- <-]. apply (si_flight _ I) in Hd as [j Hj]. exists j. by eexists.
  - apply claim_ok in Hc as (Hb & Hw & Hr & -> & Hno & Hfl); [|apply I..]. by apply move_lead.
  - rewrite <- (with_kept_id y) at 1. apply move_free; try done; try apply I; try (by intros ? ?); [by intros; simplify_eq|].
    intros k r' [= <- <-]. destruct (si_wait _ I _ _ _ Hi) as [[j Hj]|[(r' & Hr' & Hs)|Hcl]]; [| |congruence].
    + assert (Hq : sy_channels y !! rx = Some Quiet) by (apply (si_quiet _ I); by exists j, key). congruence.
    + congruence.
  - rewrite <- (with_kept_id y) at 1. apply move_free; try done; try apply I; try (by intros ? ?); by intros; simplify_eq.
  - assert (Hfl : k_slots (sy_kept y) !! key = Some (InFlight tx)) by (apply (si_flight _ I); by exists i).
    destruct (store_ok l key r now (sy_kept y) tx) as (Hb & Hw & Hf & Hd & _); [apply I..|done|].
    eapply move_landed; try done; [|by intros k r' [= <- <-]].
    intros k r' Hk. apply Hd in Hk as [[-> ->]|Hk]; [done|by apply (si_kept _ I)].
  - eapply move_done; try done; [|by intros k r' [= <- <-]; apply (si_reply _ I _ _ _ _ Hi)].
    right. exists r. split; [done|]. by apply (si_reply _ I _ _ _ _ Hi).
  - assert (Hfl : k_slots (sy_kept y) !! key = Some (InFlight tx)) by (apply (si_flight _ I); by exists i).
    destruct (release_ok l key (sy_kept y) tx) as (Hb & Hw & Hr & Hf); [apply I..|done|].
    eapply move_landed; try done. intros k r' Hk. by apply (si_kept _ I), Hr.
  - eapply move_done; try done. by left.
  - rewrite <- (with_kept_id y) at 1. apply move_free; try done; try apply I; try (by intros ? ?).
    intros t0 Ht. destruct Hi as [Hi|[rx Hi]]; rewrite Hi in Ht; by injection Ht as <-.
Qed.

Lemma initial_inv : 0 <= l_max_bytes l -> sys_inv initial.
Proof.
  intros Hl. split; try done.
  - split; [constructor| |done]. intros k. cbn. rewrite elem_of_nil, lookup_empty. naive_solver.
  - split; cbn; [change (zlen []) with 0; lia|done].
  - intros k c. cbn. rewrite lookup_empty. split; [done|]. intros [i Hi]. by rewrite lookup_empty in Hi.
  - intros i j c k k' (t & Ht & _). done.
  - intros c. cbn. rewrite lookup_empty. split; [done|]. by intros (i & k & t & Ht & _).
Qed.

Lemma replies_reachable_inv y : 0 <= l_max_bytes l -> rtc (step l enclave_signs) initial y -> sys_inv y.
Proof.
  intros Hl H. revert H. apply (rtc_ind_r (R := step l enclave_signs) sys_inv); [by apply initial_inv|].
  intros y1 y2 _ Hs I. by eapply step_inv.
Qed.

(** The signal that wakes the waiters of a channel. *)
Definition signalled (y : System) (k : bytes) (c : nat) : Prop :=
  (exists r, sy_channels y !! c = Some (Sent r) /\ enclave_signs k r) \/ sy_channels y !! c = Some Closed.

(** A waiter that goes on: it has its answer, or looks again. *)
Definition goes_on (y : System) (i : nat) (k : bytes) : Prop :=
  (exists r, sy_tasks y !! i = Some (Answered k r)) \/ sy_tasks y !! i = Some (Asking k).

Lemma signalled_goes_on y i k c :
  sy_tasks y !! i = Some (Waiting k c) -> signalled y k c ->
  exists y', rtc (step l enclave_signs) y y' /\ goes_on y' i k.
Proof.
  intros Hi [(r & Hr & _)|Hc]; eexists; (split; [apply rtc_once|]).
  - by eapply st_woken.
  - left. exists r. cbn. apply lookup_insert_eq.
  - by eapply st_look_again.
  - right. cbn. apply lookup_insert_eq.
Qed.

(** The owner of a channel can always signal it: its own next steps do. *)
Lemma owner_signals y i k c :
  sys_inv y -> sy_tasks y !! i = Some (Waiting k c) -> (exists j, owns y j c k) ->
  exists y', rtc (step l enclave_signs) y y' /\ sy_tasks y' !! i = Some (Waiting k c) /\ signalled y' k c.
Proof.
  intros I Hi (j & t & Hj & Ho). assert (Hne : j <> i) by (intros ->; rewrite Hi in Hj; by injection Hj as <-).
  destruct t as [|?|k' c'|k' c' r|k' c'| |]; try done; injection Ho as -> ->; eexists.
  - split; [|split].
    + eapply rtc_l; [by eapply st_fail|]. apply rtc_once. eapply (st_close _ _ _ j k c). cbn. apply lookup_insert_eq.
    + cbn. by rewrite !lookup_insert_ne.
    + right. cbn. apply lookup_insert_eq.
  - split; [|split].
    + apply rtc_once. by eapply st_send.
    + cbn. by rewrite lookup_insert_ne.
    + left. exists r. split; [cbn; apply lookup_insert_eq|]. by apply (si_reply _ I _ _ _ _ Hj).
  - split; [|split].
    + apply rtc_once. by eapply st_close.
    + cbn. by rewrite lookup_insert_ne.
    + right. cbn. apply lookup_insert_eq.
Qed.

(** C26: over every interleaving of requests, retries, failures and cancelled calls, the
    parent has at most one exchange in flight per request.  For a retry that waits, either
    its channel has been sent a reply the enclave signed for that request, or has been
    closed, or some task still owns the channel, which is then quiet: it leads the
    exchange, whose slot is in flight, or is about to send the reply or to close; so the
    waiter can always go on, to an answer or to another look.  An answer is one the
    enclave signed for that request, and the store stays within its count and bytes. *)
Theorem single_flight y :
  0 <= l_max_bytes l -> rtc (step l enclave_signs) initial y ->
  (forall i j k c c', sy_tasks y !! i = Some (Leading k c) -> sy_tasks y !! j = Some (Leading k c') -> i = j) /\
  (forall i k c, sy_tasks y !! i = Some (Waiting k c) ->
     (signalled y k c \/
      sy_channels y !! c = Some Quiet /\ exists j,
        sy_tasks y !! j = Some (Leading k c) /\ k_slots (sy_kept y) !! k = Some (InFlight c) \/
        (exists r, sy_tasks y !! j = Some (Sending k c r) /\ enclave_signs k r) \/
        sy_tasks y !! j = Some (Dropping k c)) /\
     exists y', rtc (step l enclave_signs) y y' /\ goes_on y' i k) /\
  (forall i k r, sy_tasks y !! i = Some (Answered k r) -> enclave_signs k r) /\
  (stored (sy_kept y) <= Z.max 1 (l_max_entries l) /\ 0 <= k_bytes (sy_kept y) <= l_max_bytes l).
Proof.
  intros Hl Hy. pose proof (replies_reachable_inv y Hl Hy) as I. split_and!.
  - intros i j k c c' Hi Hj.
    assert (Hc : k_slots (sy_kept y) !! k = Some (InFlight c)) by (apply (si_flight _ I); by exists i).
    assert (Hc' : k_slots (sy_kept y) !! k = Some (InFlight c')) by (apply (si_flight _ I); by exists j).
    assert (c' = c) as -> by congruence. eapply (si_owner _ I); by eexists.
  - intros i k c Hi. destruct (si_wait _ I _ _ _ Hi) as [Ho|Hs]; [|by split; [left|eapply signalled_goes_on]].
    split.
    + right. destruct Ho as (j & t & Hj & Ht). split; [apply (si_quiet _ I); by exists j, k, t|]. exists j.
      destruct t as [|?|k' c'|k' c' r|k' c'| |]; try done; injection Ht as -> ->.
      * left. split; [done|]. apply (si_flight _ I). by exists j.
      * right. left. exists r. split; [done|]. by apply (si_reply _ I _ _ _ _ Hj).
      * by right; right.
    + destruct (owner_signals y i k c I Hi Ho) as (y1 & Hr & Hi1 & Hs).
      destruct (signalled_goes_on y1 i k c Hi1 Hs) as (y2 & Hr2 & Hg). exists y2. split; [by etrans|done].
  - intros i k r Hi. by apply (si_reply _ I _ _ _ _ Hi).
  - apply I.
  - rewrite (bk_bytes _ (si_books _ I)). apply sizes_nonneg.
  - apply I.
Qed.

End System.

(** ** A run: a retry joins the exchange of its request *)

Module Sample.

Definition limits : Limits := {| l_ttl := 10; l_max_entries := 2; l_max_bytes := 100 |}.
Definition key : bytes := [x01].
Definition reply : Reply := {| rp_signed_psbt := [x02; x03]; rp_inputs_signed := 1 |}.
Definition signs (k : bytes) (r : Reply) : Prop := k = key /\ r = reply.

(** Two tasks ask; one leads, one waits; the reply answers both. *)
Definition y1 : System := with_task (with_task initial 0 (Asking key)) 1 (Asking key).
Definition y2 : System :=
  with_task (with_channel (with_kept y1 (fst (claim_once limits key 0 5 (sy_kept y1)))) 0 Quiet) 0 (Leading key 0).
Definition y3 : System := with_task (with_kept y2 (fst (claim_once limits key 1 6 (sy_kept y2)))) 1 (Waiting key 0).
Definition y4 : System := with_task (with_kept y3 (store limits key reply 7 (sy_kept y3))) 0 (Sending key 0 reply).
Definition y5 : System := with_task (with_channel y4 0 (Sent reply)) 0 (Answered key reply).
Definition y6 : System := with_task y5 1 (Answered key reply).

Lemma waiting_reached : rtc (step limits signs) initial y3.
Proof.
  eapply rtc_l; [by apply (st_arrive _ _ _ 0 key)|].
  eapply rtc_l; [by apply (st_arrive _ _ _ 1 key)|].
  eapply rtc_l; [by eapply (st_lead _ _ y1 0 key 0 5 _ 0)|].
  eapply rtc_l; [by eapply (st_wait _ _ y2 1 key 1 6 _ 0)|]. apply rtc_refl.
Qed.

Lemma reached : rtc (step limits signs) initial y6.
Proof.
  etrans; [apply waiting_reached|].
  eapply rtc_l; [by apply (st_store _ _ y3 0 key 0 reply 7)|].
  eapply rtc_l; [by apply (st_send _ _ y4 0 key 0 reply)|].
  eapply rtc_l; [by apply (st_woken _ _ y5 1 key 0 reply)|]. apply rtc_refl.
Qed.

Lemma single_flight_witness :
  signs key reply /\ stored (sy_kept y6) = 1 /\ 0 <= k_bytes (sy_kept y6) <= 100 /\
  exists y', rtc (step limits signs) y3 y' /\ goes_on y' 1 key.
Proof.
  destruct (single_flight limits signs y6) as (_ & _ & Ha & _ & Hb); [done|apply reached|].
  destruct (single_flight limits signs y3) as (_ & Hw & _); [done|apply waiting_reached|].
  split; [apply (Ha 1%nat); reflexivity|]. split; [reflexivity|]. split; [exact Hb|].
  exact (proj2 (Hw 1%nat key 0%nat eq_refl)).
Defined.

End Sample.
