(* ===== verification/HeaderSync.v ===== *)
(** * The header sync of the parent
      (src/parent/src/header_sync.rs, the session of header_source.rs)

    One step: the enclave's tip, the missing headers from one Electrum session,
    the submission; then the status and the rate discipline.  The enclave's
    answers are arguments, so the handlers of [SpvServer] can be put in. *)

From stdpp Require Import base numbers list strings sorting.
From S2P Require Import Prelude Errors SpvTypes SpvValidation SpvChain SpvChainSpec SpvChainFacts SpvChainProps SpvServer RustText.

#[local] Open Scope list_scope.
#[local] Open Scope Z_scope.

Definition REWIND : Z := 99.
Definition RATE_LIMIT : Z := 50000.
Definition RATE_WINDOW : Z := secs 60.
Definition STALL_AFTER : Z := 3.
Definition TIP_AGE_WARN_SECS : Z := 3600.
Definition TIP_AGE_ERROR_SECS : Z := 7200.
Definition BELOW_CHECKPOINT : bytes := text "below checkpoint ".
Definition MAX_HEADERS : Z := 2016.

Abbreviation any_result A := (res string A) (only parsing).

Definition ensure (b : bool) (m : string) : any_result unit := if b then Ok tt else Err m.

(** ** The session (header_source.rs) *)

(** JSON replies: a field is [None] when it is absent or of another type. *)
Record TipReply : Type := { tp_height : option Z; tp_hex : option bytes }.
Record HeadersReply : Type := { hr_count : option Z; hr_hex : option bytes }.

(** The server, by the number of the call on the session, and the [hex] and
    [bitcoin] crates. *)
Class ElectrumServer {B : BitcoinCrate} : Type := {
  session_connect : any_result unit;
  subscribe_call : nat -> any_result TipReply;
  headers_call : nat -> Z -> Z -> any_result HeadersReply;
  hex_digits : bytes -> option bytes;
  serialize_block_header : Header -> bytes
}.

(** What comes back from [send_to_enclave]. *)
Inductive Answer (A : Type) : Type :=
| AnswerOk (a : A)
| AnswerError (code : Z) (message : bytes)
| AnswerLost (status : string)
| AnswerOther.
Arguments AnswerOk {A} a.
Arguments AnswerError {A} code message.
Arguments AnswerLost {A} status.
Arguments AnswerOther {A}.

Section Session.
Context {B : BitcoinCrate} {E : ElectrumServer}.

Definition parse_header (raw : bytes) (m : string) : any_result Header :=
  match deserialize_header raw with inl h => Ok h | inr _ => Err m end.

Definition session_tip (n : nat) : any_result (Z * Header) :=
  let? reply := subscribe_call n in
  let? height := ok_or (h ← tp_height reply; if h <=? u32_max then Some h else None)
    "source tip height is not a u32" in
  let? header := ok_or (tp_hex reply) "source tip has no header" in
  let? raw := ok_or (hex_digits header) "source tip header hex is bad" in
  let? _ := ensure (zlen raw =? 80) "source tip header is not 80 bytes" in
  let? h := parse_header raw "source tip header does not parse" in
  Ok (height, h).

(** [raw.chunks_exact(80)] of a string of [n] chunks. *)
Fixpoint chunks (n : nat) (raw : bytes) : list bytes :=
  match n with O => [] | S n => take 80 raw :: chunks n (drop 80 raw) end.

(** One reply of [blockchain.block.headers]. *)
Definition headers_reply (reply : HeadersReply) (remaining : Z) : any_result (list Header) :=
  let? n := ok_or (hr_count reply) "source reply has no count" in
  let? hex := ok_or (hr_hex reply) "source reply has no hex" in
  let? raw := ok_or (hex_digits hex) "source reply hex is bad" in
  let? _ := ensure ((zlen raw mod 80 =? 0) && (zlen raw / 80 =? n)) "source reply count does not match" in
  let? _ := ensure (n <=? remaining) "source sent more headers than asked" in
  rmapM (fun c => parse_header c "source header does not parse") (chunks (Z.to_nat n) raw).

(** The loop of [Session::headers]; every turn but the last adds a header. *)
Fixpoint headers_loop (fuel : nat) (call : nat) (from count : Z) (out : list Header) : any_result (list Header) :=
  if zlen out <? count then
    match fuel with
    | O => Panic
    | S fuel =>
        let remaining := count - zlen out in
        let? start := ok_or (if from + zlen out <=? u32_max then Some (from + zlen out) else None)
          "header height overflows" in
        let? reply := headers_call call start remaining in
        let? page := headers_reply reply remaining in
        if bool_decide (page = []) then Ok out
        else headers_loop fuel (S call) from count (out ++ page)
    end
  else Ok out.

Definition session_headers (call : nat) (from count : Z) : any_result (list Header) :=
  let? _ := ensure ((1 <=? count) && (count <=? MAX_HEADERS)) "bad header count" in
  headers_loop (Z.to_nat count) call from count [].

(** ** One fetch *)

(** [windows(2)]: every header links to the one before. *)
Fixpoint linked (hs : list Header) : bool :=
  match hs with
  | a :: ((b :: _) as rest) => bool_decide (prev_blockhash b = block_hash a) && linked rest
  | _ => true
  end.

Definition fetch (h : Z) (hash : bytes) (rewind_to : Z) : any_result (Z * option (Z * list Header)) :=
  let? _ := session_connect in
  let? (s, tip_header) := session_tip 0 in
  let? _ := ensure (h <=? s) "source tip is below the enclave tip" in
  let? at_h :=
    if s =? h then Ok tip_header
    else
      let? hs := session_headers 1 h 1 in
      ok_or (head hs) "source has no header at the enclave tip" in
  let missing (start : Z) (prev : option bytes) :=
    let count := Z.min (s - start + 1) MAX_HEADERS in
    let? headers := session_headers 2 start count in
    let? first := ok_or (head headers) "source sent no headers" in
    let? _ :=
      match prev with
      | Some prev => ensure (bool_decide (prev_blockhash first = prev)) "source header does not link to the enclave tip"
      | None => Ok tt
      end in
    let? _ := ensure (linked headers) "source header does not link to the one before" in
    Ok (s, Some (start, headers)) in
  if bool_decide (block_hash at_h = hash) then
    if s =? h then Ok (s, None) else missing (h + 1) (Some hash)
  else
    let? _ := ensure (h <? s) "source header differs from the enclave; waiting for the source to get ahead" in
    let? _ := ensure (rewind_to <=? h) "the chains do not meet" in
    missing rewind_to None.

(** ** The rate discipline *)

Fixpoint prune (now : Z) (sent : list (Z * Z)) : list (Z * Z) :=
  match sent with
  | (t, n) :: rest => if RATE_WINDOW <=? now - t then prune now rest else sent
  | [] => []
  end.

Definition used (sent : list (Z * Z)) : Z := foldr (fun '(_, n) acc => n + acc) 0 sent.

(** One turn of the loop of [wait_for_rate]: how long to sleep, or none. *)
Definition rate_turn (n now : Z) (sent : list (Z * Z)) : list (Z * Z) * option Z :=
  let sent := prune now sent in
  match sent with
  | (oldest, _) :: _ => if RATE_LIMIT <? used sent + n then (sent, Some (RATE_WINDOW - (now - oldest))) else (sent, None)
  | [] => (sent, None)
  end.

(** The loop of [wait_for_rate] from [now]: a sleep lasts as long as asked, and
    [late] longer.  Every sleep lets the oldest entry leave, so [sent] has
    turns enough. *)
Fixpoint rate_loop (fuel : nat) (n now : Z) (late : nat -> Z) (sent : list (Z * Z)) : option (Z * list (Z * Z)) :=
  match rate_turn n now sent with
  | (sent, None) => Some (now, sent)
  | (sent, Some d) =>
      match fuel with O => None | S fuel => rate_loop fuel n (now + d + late fuel) late sent end
  end.

(** [wait_for_rate]; the clock is read again for the entry, [after] later. *)
Definition wait_for_rate (n now : Z) (late : nat -> Z) (after : Z) (sent : list (Z * Z)) : option (Z * list (Z * Z)) :=
  '(t, sent) ← rate_loop (length sent) n now late sent;
  Some (t + after, sent ++ [(t + after, n)]).

(** ** The status *)

Inductive SyncState : Type := SOff | SUnconfigured | SSyncing | SSynced | SStalled.

Record SyncStatus : Type := {
  ss_state : SyncState;
  ss_source_tip : option Z;
  ss_enclave_tip : option Z;
  ss_lag_blocks : option Z;
  ss_tip_age_secs : option Z;
  ss_last_ok_unix : option Z;
  ss_last_error : option string
}.

Record HeaderSync : Type := {
  hs_has_source : bool;
  hs_source_error : option string;
  hs_status : SyncStatus;
  hs_pending : bool;
  hs_failures : Z;
  hs_sent : list (Z * Z);
  hs_age_level : Z;
  hs_floor : option Z
}.

Definition new_sync (source : res string bool) : HeaderSync := {|
  hs_has_source := match source with Ok b => b | _ => false end;
  hs_source_error := match source with Err e => Some e | _ => None end;
  hs_status := {| ss_state := SSyncing; ss_source_tip := None; ss_enclave_tip := None; ss_lag_blocks := None;
                  ss_tip_age_secs := None; ss_last_ok_unix := None; ss_last_error := None |};
  hs_pending := false; hs_failures := 0; hs_sent := []; hs_age_level := 0; hs_floor := None
|}.

Definition set_status (y : HeaderSync) (s : SyncStatus) : HeaderSync := {|
  hs_has_source := hs_has_source y; hs_source_error := hs_source_error y; hs_status := s;
  hs_pending := hs_pending y; hs_failures := hs_failures y; hs_sent := hs_sent y;
  hs_age_level := hs_age_level y; hs_floor := hs_floor y |}.

(** [record]: [now] is the Unix time in seconds. *)
Definition record (y : HeaderSync) (result : any_result SyncState) (now : Z) : HeaderSync :=
  let s := hs_status y in
  let set_failures n y := {|
    hs_has_source := hs_has_source y; hs_source_error := hs_source_error y; hs_status := hs_status y;
    hs_pending := hs_pending y; hs_failures := n; hs_sent := hs_sent y;
    hs_age_level := hs_age_level y; hs_floor := hs_floor y |} in
  match result with
  | Ok state =>
      set_failures 0 (set_status y {|
        ss_state := state; ss_source_tip := ss_source_tip s; ss_enclave_tip := ss_enclave_tip s;
        ss_lag_blocks := ss_lag_blocks s; ss_tip_age_secs := ss_tip_age_secs s;
        ss_last_ok_unix := match state with SSynced | SSyncing => Some now | _ => ss_last_ok_unix s end;
        ss_last_error := match state with SUnconfigured => hs_source_error y | _ => None end |})
  | Err e =>
      let failures := hs_failures y + 1 in
      set_failures failures (set_status y {|
        ss_state := if STALL_AFTER <=? failures then SStalled else ss_state s;
        ss_source_tip := ss_source_tip s; ss_enclave_tip := ss_enclave_tip s;
        ss_lag_blocks := ss_lag_blocks s; ss_tip_age_secs := ss_tip_age_secs s;
        ss_last_ok_unix := ss_last_ok_unix s; ss_last_error := Some e |})
  | Panic => y
  end.

Definition log_tip_age (age : Z) : Z :=
  if TIP_AGE_ERROR_SECS <=? age then 2 else if TIP_AGE_WARN_SECS <=? age then 1 else 0.

(** ** The enclave's answers *)

Fixpoint find_after (fuel : nat) (needle s : bytes) : option bytes :=
  if starts_with needle s then Some (drop (length needle) s)
  else match fuel, s with S fuel, _ :: s => find_after fuel needle s | _, _ => None end.

(** The digits up to the first other byte. *)
Fixpoint leading_digits (s : bytes) : bytes :=
  match s with b :: s => if is_ascii_digit b then b :: leading_digits s else [] | [] => [] end.

Definition checkpoint_in (message : bytes) : option Z :=
  rest ← find_after (length message) BELOW_CHECKPOINT message;
  parse_uint u32_max (leading_digits rest).

Definition enclave_tip (a : Answer GetLastSavedBlockResponse) : any_result (Z * bytes) :=
  match a with
  | AnswerOk r =>
      let? _ := ensure (zlen (gls_block_hash r) =? 32) "enclave tip hash is not 32 bytes" in
      Ok (gls_block_height r, gls_block_hash r)
  | AnswerError _ _ => Err "enclave error"
  | AnswerLost _ => Err "enclave: "
  | AnswerOther => Err "unexpected enclave response"
  end.

(** [submit]: a refusal that names the checkpoint sets the floor. *)
Definition submit (floor : option Z) (a : Answer SubmitHeadersResponse) : option Z * any_result SubmitHeadersResponse :=
  match a with
  | AnswerOk r => (floor, Ok r)
  | AnswerError _ m =>
      (match checkpoint_in m with Some c => Some c | None => floor end, Err "enclave refused headers")
  | AnswerLost _ => (floor, Err "enclave: ")
  | AnswerOther => (floor, Err "unexpected enclave response")
  end.

(** The part of the health answer a step reads. *)
Record ProbedHealth : Type := { ph_tip_age_secs : Z; ph_max_tip_age_secs : Z }.

(** What runs outside a step: the probe, the tip, whether an earlier source call
    still runs, how this one ends, the rate clock and the submission. *)
Inductive SourceRun : Type := RunEnds | RunTimesOut | RunPanics.

Record StepWorld : Type := {
  sw_health : any_result ProbedHealth;
  sw_tip : Answer GetLastSavedBlockResponse;
  sw_pending_finished : bool;
  sw_run : SourceRun;
  sw_rate_now : Z;
  sw_late : nat -> Z;
  sw_after : Z;
  sw_submit : SubmitHeadersRequest -> Answer SubmitHeadersResponse
}.

(** The request of a batch. *)
Definition batch_request (start : Z) (headers : list Header) : SubmitHeadersRequest :=
  {| shr_start_height := start; shr_headers := map serialize_block_header headers |}.

(** From the batch on: rate, submission, and the comparison with the reply. *)
Definition send_batch (y : HeaderSync) (w : StepWorld) (s start : Z) (headers : list Header)
    : HeaderSync * any_result SyncState :=
  let len := zlen headers in
  let last_height := start + len - 1 in
  match last headers with
  | None => (y, Err "source sent no headers")
  | Some last_header =>
      match wait_for_rate len (sw_rate_now w) (sw_late w) (sw_after w) (hs_sent y) with
      | None => (y, Panic)
      | Some (_, sent) =>
          let '(floor, reply) := submit (hs_floor y) (sw_submit w (batch_request start headers)) in
          let y := {| hs_has_source := hs_has_source y; hs_source_error := hs_source_error y;
                      hs_status := hs_status y; hs_pending := hs_pending y; hs_failures := hs_failures y;
                      hs_sent := sent; hs_age_level := hs_age_level y; hs_floor := floor |} in
          match reply with
          | Ok reply =>
              if (shs_headers_accepted reply =? len) && (shs_last_block_height reply =? last_height) &&
                 bool_decide (shs_last_block_hash reply = block_hash last_header)
              then
                let st := hs_status y in
                (set_status y {| ss_state := ss_state st; ss_source_tip := ss_source_tip st;
                   ss_enclave_tip := Some last_height; ss_lag_blocks := Some (sat_sub s last_height);
                   ss_tip_age_secs := ss_tip_age_secs st; ss_last_ok_unix := ss_last_ok_unix st;
                   ss_last_error := ss_last_error st |},
                 Ok (if s <=? last_height then SSynced else SSyncing))
              else (y, Err "enclave reply does not match the batch")
          | Err e => (y, Err e)
          | Panic => (y, Panic)
          end
      end
  end.

(** [rewind_to]; the addition of [f + 1] wraps in a release build. *)
Definition rewind_to (floor : option Z) (h : Z) : Z :=
  Z.max (sat_sub h REWIND) (match floor with Some f => wrap32 (f + 1) | None => 1 end).

(** [source_call] around a fetch: the new [pending] flag and the result. *)
Definition source_call {A : Type} (y : HeaderSync) (w : StepWorld) (r : any_result A) : bool * any_result A :=
  if hs_pending y && negb (sw_pending_finished w) then (true, Err "source call still running")
  else
    match sw_run w with
    | RunEnds => (false, r)
    | RunPanics => (false, Err "source call failed")
    | RunTimesOut => (true, Err "source call timed out")
    end.

Definition step_sync (y : HeaderSync) (w : StepWorld) : HeaderSync * any_result SyncState :=
  match sw_health w with
  | Err e => (y, Err e)
  | Panic => (y, Panic)
  | Ok health =>
      let st := hs_status y in
      let y := set_status y {| ss_state := ss_state st; ss_source_tip := ss_source_tip st;
        ss_enclave_tip := ss_enclave_tip st; ss_lag_blocks := ss_lag_blocks st;
        ss_tip_age_secs := Some (ph_tip_age_secs health); ss_last_ok_unix := ss_last_ok_unix st;
        ss_last_error := ss_last_error st |} in
      if ph_max_tip_age_secs health =? 0 then (y, Ok SOff)
      else if negb (hs_has_source y) then (y, Ok SUnconfigured)
      else
        let y := {| hs_has_source := hs_has_source y; hs_source_error := hs_source_error y;
                    hs_status := hs_status y; hs_pending := hs_pending y; hs_failures := hs_failures y;
                    hs_sent := hs_sent y; hs_age_level := log_tip_age (ph_tip_age_secs health);
                    hs_floor := hs_floor y |} in
        match enclave_tip (sw_tip w) with
        | Err e => (y, Err e)
        | Panic => (y, Panic)
        | Ok (h, hash) =>
            let st := hs_status y in
            let y := set_status y {| ss_state := ss_state st; ss_source_tip := ss_source_tip st;
              ss_enclave_tip := Some h; ss_lag_blocks := ss_lag_blocks st;
              ss_tip_age_secs := ss_tip_age_secs st; ss_last_ok_unix := ss_last_ok_unix st;
              ss_last_error := ss_last_error st |} in
            let '(pending, fetched) := source_call y w (fetch h hash (rewind_to (hs_floor y) h)) in
            let y := {| hs_has_source := hs_has_source y; hs_source_error := hs_source_error y;
                        hs_status := hs_status y; hs_pending := pending; hs_failures := hs_failures y;
                        hs_sent := hs_sent y; hs_age_level := hs_age_level y; hs_floor := hs_floor y |} in
            match fetched with
            | Err e => (y, Err e)
            | Panic => (y, Panic)
            | Ok (s, batch) =>
                let st := hs_status y in
                let y := set_status y {| ss_state := ss_state st; ss_source_tip := Some s;
                  ss_enclave_tip := ss_enclave_tip st; ss_lag_blocks := Some (sat_sub s h);
                  ss_tip_age_secs := ss_tip_age_secs st; ss_last_ok_unix := ss_last_ok_unix st;
                  ss_last_error := ss_last_error st |} in
                match batch with
                | None => (y, Ok SSynced)
                | Some (start, headers) => send_batch y w s start headers
                end
            end
        end
  end.

End Session.

(** * Theorems on the header sync

    An honest Electrum server brings the enclave to its tip, a batch per step,
    and the rate discipline of the parent is never refused by the enclave. *)

(** ** The rate discipline *)

Lemma prune_suffix now sent : exists old, sent = old ++ prune now sent /\ Forall (fun e => RATE_WINDOW <= now - e.1) old.
Proof.
  induction sent as [|[t n] sent (old & Ho & Hf)]; [by exists []|]. cbn.
  destruct (_ <=? _) eqn:E; zbool; [|by exists []]. exists ((t, n) :: old). cbn. split; [by f_equal|].
  by constructor.
Qed.

(** A sleep lets the oldest entry leave. *)
Lemma prune_after_sleep n now d sent sent' late :
  rate_turn n now sent = (sent', Some d) -> 0 <= late ->
  (length (prune (now + d + late) sent') < length sent')%nat.
Proof.
  unfold rate_turn. destruct (prune now sent) as [|[t m] rest]; [done|]. destruct (_ <? _); [|done].
  intros [= <- <-] Hl. cbn [prune]. replace (now + (RATE_WINDOW - (now - t)) + late - t) with (RATE_WINDOW + late) by lia.
  destruct (Z.leb_spec RATE_WINDOW (RATE_WINDOW + late)); [|lia].
  destruct (prune_suffix (now + (RATE_WINDOW - (now - t)) + late) rest) as (old & Ho & _).
  cbn. rewrite Ho at 2. rewrite length_app. lia.
Qed.

Lemma turn_length n now sent sent' o : rate_turn n now sent = (sent', o) -> sent' = prune now sent.
Proof.
  unfold rate_turn. destruct (prune now sent) as [|[t m] rest]; [by intros [= <- _]|].
  destruct (_ <? _); by intros [= <- _].
Qed.

(** The loop ends: a sleep for every entry is enough. *)
Lemma rate_loop_ends fuel n late : (forall k, 0 <= late k) -> forall now sent,
  (length (prune now sent) <= fuel)%nat -> is_Some (rate_loop fuel n now late sent).
Proof.
  intros Hl. induction fuel as [|fuel IH]; intros now sent Hf; cbn.
  - unfold rate_turn. destruct (prune now sent) as [|e l]; [by eexists|cbn in Hf; lia].
  - destruct (rate_turn n now sent) as [sent' [d|]] eqn:E; [|by eexists]. apply IH.
    pose proof (prune_after_sleep _ _ _ _ _ (late fuel) E (Hl fuel)). apply turn_length in E. subst. lia.
Qed.

Lemma wait_for_rate_ends n now late after sent :
  (forall k, 0 <= late k) -> is_Some (wait_for_rate n now late after sent).
Proof.
  intros Hl. unfold wait_for_rate. destruct (rate_loop_ends (length sent) n late Hl now sent) as [[t s] Hs].
  { destruct (prune_suffix now sent) as (old & Ho & _). rewrite Ho at 2. rewrite length_app. lia. }
  rewrite Hs. by eexists.
Qed.

Lemma prune_prune now t sent : now <= t -> prune t (prune now sent) = prune t sent.
Proof.
  intros Ht. induction sent as [|[e n] sent IH]; [done|]. cbn. destruct (Z.leb_spec RATE_WINDOW (now - e)).
  - rewrite IH. destruct (Z.leb_spec RATE_WINDOW (t - e)); [done|lia].
  - done.
Qed.

Lemma turn_sleep n now sent sent' d : rate_turn n now sent = (sent', Some d) -> 0 < d.
Proof.
  unfold rate_turn. destruct (prune now sent) as [|[t m] rest] eqn:E; [done|]. destruct (_ <? _); [|done].
  intros [= _ <-]. assert (Hf : ~ RATE_WINDOW <= now - t); [|lia]. intros Ht.
  revert E. induction sent as [|[e k] sent IH]; [done|]. cbn. destruct (Z.leb_spec RATE_WINDOW (now - e)); [done|].
  intros [= -> _ _]. lia.
Qed.

Lemma rate_loop_ok fuel n late : (forall k, 0 <= late k) -> forall now sent t s,
  rate_loop fuel n now late sent = Some (t, s) ->
  now <= t /\ s = prune t sent /\ (s = [] \/ used s + n <= RATE_LIMIT).
Proof.
  intros Hl. induction fuel as [|fuel IH]; intros now sent t s H; cbn in H.
  - destruct (rate_turn n now sent) as [s' [d|]] eqn:E; [done|]. injection H as <- <-. split; [lia|].
    pose proof (turn_length _ _ _ _ _ E) as ->. split; [done|]. unfold rate_turn in E.
    destruct (prune now sent) as [|[e k] rest]; [by left|]. destruct (Z.ltb_spec RATE_LIMIT (used ((e, k) :: rest) + n)); [done|].
    right. lia.
  - destruct (rate_turn n now sent) as [s' [d|]] eqn:E.
    + pose proof (turn_sleep _ _ _ _ _ E) as Hd. pose proof (turn_length _ _ _ _ _ E) as ->. pose proof (Hl fuel) as Hf.
      apply IH in H as (H1 & H2 & H3). rewrite prune_prune in H2 by lia. split; [lia|done].
    + injection H as <- <-. split; [lia|]. pose proof (turn_length _ _ _ _ _ E) as ->. split; [done|]. unfold rate_turn in E.
      destruct (prune now sent) as [|[e k] rest]; [by left|]. destruct (Z.ltb_spec RATE_LIMIT (used ((e, k) :: rest) + n)); [done|].
      right. lia.
Qed.

Lemma wait_for_rate_ok n now late after sent p sent' :
  (forall k, 0 <= late k) -> 0 <= after -> wait_for_rate n now late after sent = Some (p, sent') ->
  exists t, now <= t <= p /\ sent' = prune t sent ++ [(p, n)] /\
    (prune t sent = [] \/ used (prune t sent) + n <= RATE_LIMIT).
Proof.
  intros Hl Ha H. unfold wait_for_rate in H. destruct (rate_loop _ _ _ _ _) as [[t s]|] eqn:E; [|done]. injection H as <- <-.
  apply rate_loop_ok in E as (H1 & -> & H3); [|done]. exists t. split_and!; [lia|lia|done|done].
Qed.

(** One batch: its size, when the wait starts, how late the sleeps and the
    entry are, and when the enclave checks it. *)
Record Send : Type := {
  sn_count : Z; sn_now : Z; sn_late : nat -> Z; sn_after : Z; sn_arrival : Z }.

(** Batches of the worker: each waits for the rate after the reply to the one before. *)
Inductive paced : list (Z * Z) -> Z -> list Send -> Prop :=
| paced_nil sent before : paced sent before []
| paced_cons sent before s p sent' rest :
    0 <= sn_count s <= MAX_HEADERS -> (forall k, 0 <= sn_late s k) -> 0 <= sn_after s -> before <= sn_now s ->
    wait_for_rate (sn_count s) (sn_now s) (sn_late s) (sn_after s) sent = Some (p, sent') ->
    p <= sn_arrival s -> paced sent' (sn_arrival s) rest ->
    paced sent before (s :: rest).

(** Headers of the entries made at [w] or later. *)
Definition used_since (w : Z) (sent : list (Z * Z)) : Z :=
  foldr (fun '(t, n) acc => (if w <=? t then n else 0) + acc) 0 sent.

Lemma used_app l l' : used (l ++ l') = used l + used l'.
Proof. unfold used. induction l as [|[t n] l IH]; [done|]. cbn. rewrite IH. lia. Qed.

Lemma used_since_app w l l' : used_since w (l ++ l') = used_since w l + used_since w l'.
Proof. unfold used_since. induction l as [|[t n] l IH]; [done|]. cbn. rewrite IH. lia. Qed.

Lemma used_since_le w l : Forall (fun e => 0 <= e.2) l -> used_since w l <= used l.
Proof. unfold used_since, used. induction 1 as [|[t n] l Hn _ IH]; [done|]. cbn in *. destruct (w <=? t); lia. Qed.

(** Entries that leave were made before an open window. *)
Lemma used_since_prune w t l : t < w + RATE_WINDOW -> used_since w (prune t l) = used_since w l.
Proof.
  intros Ht. destruct (prune_suffix t l) as (old & Ho & Hf). rewrite Ho at 2. rewrite used_since_app.
  enough (used_since w old = 0) by lia. clear Ho. unfold used_since. induction Hf as [|[e n] old He _ IH]; [done|]. cbn in *.
  destruct (Z.leb_spec w e); lia.
Qed.

(** The limiter counts at most one batch more than the entries since its window began. *)
Definition limiter_ok (lim : SubmitRateLimiter) (sent : list (Z * Z)) (before : Z) : Prop :=
  0 <= headers_in_window lim /\
  match window_start lim with
  | None => True
  | Some w => w <= before /\ headers_in_window lim <= MAX_HEADERS + used_since w sent
  end.

Lemma check_admits lim sent before s p sent' :
  limiter_ok lim sent before -> Forall (fun e => 0 <= e.2) sent ->
  0 <= sn_count s <= MAX_HEADERS -> (forall k, 0 <= sn_late s k) -> 0 <= sn_after s -> before <= sn_now s ->
  wait_for_rate (sn_count s) (sn_now s) (sn_late s) (sn_after s) sent = Some (p, sent') -> p <= sn_arrival s ->
  exists lim', check lim (sn_count s) (sn_arrival s) = (lim', Ok tt) /\ limiter_ok lim' sent' (sn_arrival s) /\
    Forall (fun e => 0 <= e.2) sent'.
Proof.
  intros [Hh Hw] Hpos Hn Hl Ha Hb Hwait Hp. apply wait_for_rate_ok in Hwait as (t & Ht & -> & Hrate); [|done|done].
  assert (Hpos' : Forall (fun e => 0 <= e.2) (prune t sent ++ [(p, sn_count s)])).
  { destruct (prune_suffix t sent) as (old & Ho & _). rewrite Ho in Hpos. apply Forall_app in Hpos as [_ Hpos].
    apply Forall_app. split; [done|]. repeat constructor. cbn. lia. }
  assert (Hused : used (prune t sent ++ [(p, sn_count s)]) <= RATE_LIMIT).
  { rewrite used_app. cbn. unfold RATE_LIMIT, MAX_HEADERS in *. destruct Hrate as [->|Hr]; cbn; lia. }
  pose proof (used_since_le) as Hle.
  destruct (check_cases lim (sn_count s) (sn_arrival s)) as (w & n & Hf & Hwin & Hen & Hok & _); [lia|done|].
  destruct (check lim (sn_count s) (sn_arrival s)) as [lim' r]. cbn in Hf, Hok. subst lim'.
  assert (Hbound : 0 <= n /\ w <= sn_arrival s /\
    n <= MAX_HEADERS + used_since w (prune t sent ++ [(p, sn_count s)]) /\ n <= MAX_HEADERS + RATE_LIMIT).
  { destruct (in_window lim (sn_arrival s)) eqn:Ei.
    - unfold in_window in Ei. rewrite Hwin in Ei, Hw. apply andb_true_iff in Ei as [E1 E2]. zbool. destruct Hw as [Hw1 Hw2].
      pose proof (Hle w _ Hpos') as Hle'. rewrite used_since_app, used_since_prune in * by (unfold RATE_WINDOW, RATE_LIMIT_WINDOW in *; lia).
      cbn in *. destruct (Z.leb_spec w p); [|lia]. unfold u64_max in Hen. lia.
    - subst w. pose proof (Hle (sn_arrival s) _ Hpos'). assert (Hz : 0 <= used_since (sn_arrival s) (prune t sent ++ [(p, sn_count s)])).
      { clear - Hpos'. unfold used_since. induction Hpos' as [|[e m] l Hm _ IH]; [done|]. cbn in *. destruct (_ <=? e); lia. }
      unfold u64_max, RATE_LIMIT in *. lia. }
  destruct Hbound as (Hb0 & Hb1 & Hb2 & Hb3).
  exists {| window_start := Some w; headers_in_window := n |}. split; [|split; [by split|done]].
  f_equal. apply Hok. unfold MAX_HEADERS, RATE_LIMIT, MAX_HEADERS_PER_RATE_WINDOW in *. lia.
Qed.

(** C28: the enclave never refuses the worker for its rate.  Whatever the sizes of its
    batches, the delays of its sleeps and the time until the enclave sees a batch, the
    pace of [wait_for_rate] keeps every one of them within the limit of
    [SubmitRateLimiter]; and each wait ends. *)
Theorem sync_never_rate_limited start sends :
  paced [] start sends ->
  Forall (fun '(_, _, admitted) => admitted = true)
    (run_checks default_limiter (map (fun s => (sn_count s, sn_arrival s)) sends)) /\
  forall n now late after sent, (forall k, 0 <= late k) -> is_Some (wait_for_rate n now late after sent).
Proof.
  intros H. split; [|intros; by apply wait_for_rate_ends].
  assert (Hl : limiter_ok default_limiter [] start) by (by split).
  assert (Hp : Forall (fun e : Z * Z => 0 <= e.2) []) by constructor. revert Hl Hp. generalize default_limiter.
  induction H as [|sent before s p sent' rest Hn Hlate Ha Hb Hw Hp Hrest IH]; intros lim Hl Hpos; [constructor|].
  destruct (check_admits lim sent before s p sent') as (lim' & Hc & Hl' & Hpos'); try done.
  cbn [map run_checks]. rewrite Hc. constructor; [done|]. by apply IH.
Qed.

(** ** Headers that the enclave accepts *)

Section Acceptance.
Context {B : BitcoinCrate} {L : BitcoinCrateLaws B}.

(** A header that was valid once is valid at every clock that it is not too far ahead of. *)
Lemma header_ok_at c below h now now' :
  header_ok c below h now -> time h <= now' + MAX_FUTURE_BLOCK_TIME_SECS -> header_ok c below h now'.
Proof. intros [] H. by constructor. Qed.

(** The staging loop takes every batch that follows the consensus rules. *)
Lemma stage_headers_valid c start now raws new :
  Forall2 (fun raw h => deserialize_header raw = inl h) raws new ->
  Forall (fun h => time h <= now + MAX_FUTURE_BLOCK_TIME_SECS) new -> forall hs,
  chain_wf c -> start_ok c start -> start + zlen hs + zlen raws <= 2 ^ 32 ->
  valid_chain c (kept_headers c start ++ hs ++ new) ->
  stage_headers c start (top_block c (kept_headers c start)) now (zlen hs) raws (stage hs) = Ok (stage (hs ++ new)).
Proof.
  induction 1 as [|raw h raws new Hd _ IH]; intros Ht hs W Hs Hr V; [by rewrite app_nil_r|].
  apply Forall_cons in Ht as [Hth Ht]. rewrite zlen_cons in Hr. pose proof (zlen_nonneg raws).
  rewrite stage_headers_step, Hd by (done || lia).
  destruct (valid_chain_lookup c _ (length (kept_headers c start ++ hs)) h V) as [now' Hok].
  { rewrite app_assoc, lookup_app_r, Nat.sub_diag; done. }
  rewrite app_assoc, take_app_length in Hok.
  rewrite (proj2 (next_check_ok_iff c _ h now W)) by (by eapply header_ok_at). cbn [rbind].
  rewrite IH; [by rewrite <- app_assoc|done|done|done| |by rewrite <- app_assoc].
  rewrite zlen_app, zlen_cons, zlen_nil. lia.
Qed.

(** A batch on top of the tip that follows the rules is accepted, if it fits. *)
Lemma extension_accepted c raws new now :
  chain_inv c -> Forall2 (fun raw h => deserialize_header raw = inl h) raws new ->
  valid_chain c (hc_headers c ++ new) -> Forall (fun h => time h <= now + MAX_FUTURE_BLOCK_TIME_SECS) new ->
  1 <= zlen new <= MAX_HEADERS_PER_SUBMIT -> zlen (hc_headers c) + zlen new <= hc_max_stored_headers c ->
  exists o, submit_headers c (tip_height c + 1) raws now = (extend_chain c (hc_headers c ++ new), Ok o) /\
    last_block_height o = tip_height c + zlen new /\ last_block_hash o = tip_hash (extend_chain c (hc_headers c ++ new)) /\
    headers_accepted o = zlen new.
Proof.
  intros [W V] Hd Vn Ht Hn Hroom. pose proof (Forall2_length _ _ _ Hd) as Hl.
  assert (Hz : zlen raws = zlen new) by (unfold zlen; by rewrite Hl).
  pose proof (wf_room c W) as Hw. pose proof (wf_base c W) as Hb. pose proof (zlen_nonneg (hc_headers c)) as Hz0.
  rewrite tip_height_eq by done. set (start := hc_base_height c + zlen (hc_headers c) + 1).
  assert (Hs : start_ok c start) by (unfold start, start_ok; lia).
  assert (Hk : kept_headers c start = hc_headers c).
  { unfold kept_headers, start, zlen in *. apply take_ge. lia. }
  rewrite submit_headers_eq by done. unfold submit_guard. rewrite Hz.
  rewrite !(proj2 (Z.ltb_ge _ _)) by (unfold start, MAX_REORG_DEPTH; lia).
  rewrite (proj2 (Z.eqb_neq (zlen new) 0)), (proj2 (Z.leb_gt start _)) by (unfold start; lia).
  pose proof (stage_headers_valid c start now raws new Hd Ht [] W Hs) as Hst. cbn [app] in Hst.
  change (zlen []) with 0 in Hst. change (stage []) with (@nil (Header * bytes)) in Hst.
  rewrite Hst by (rewrite ?Hk; (done || (unfold start; lia))).
  rewrite stage_fst, stage_snd, stage_zlen, Hk. unfold weaker_reorg.
  rewrite drop_ge by (unfold start, zlen in *; lia). cbn [sum_work]. rewrite <- fmap_app.
  eexists. split; [reflexivity|]. cbn [last_block_height last_block_hash headers_accepted].
  split_and!; [|done|apply wrap32_small; unfold is_u32; lia].
  change (set_headers _ _ _) with (extend_chain c (hc_headers c ++ new)).
  unfold tip_height, extend_chain. cbn [set_headers hc_base_height hc_headers]. rewrite zlen_app.
  rewrite (wrap32_small (_ + zlen new)), wrap32_small by (unfold is_u32; lia). lia.
Qed.
End Acceptance.

(** ** An honest server *)

Section Honest.
Context {B : BitcoinCrate} {E : ElectrumServer}.

(** Serves the chain [srv], header [i] at height [i], in pages of its own size. *)
Class HonestServer (srv : list Header) : Prop := {
  ho_connect : session_connect = Ok tt;
  ho_length : 1 <= zlen srv <= 2 ^ 32;
  ho_size h : zlen (serialize_block_header h) = 80;
  ho_round h : deserialize_header (serialize_block_header h) = inl h;
  ho_linked : linked srv = true;
  ho_tip n : exists hex h, subscribe_call n = Ok {| tp_height := Some (zlen srv - 1); tp_hex := Some hex |} /\
    last srv = Some h /\ hex_digits hex = Some (serialize_block_header h);
  ho_headers n from count : 0 <= from < zlen srv -> 1 <= count -> exists k hex,
    1 <= Z.of_nat k <= count /\ from + Z.of_nat k <= zlen srv /\
    headers_call n from count = Ok {| hr_count := Some (Z.of_nat k); hr_hex := Some hex |} /\
    hex_digits hex = Some (concat (map serialize_block_header (take k (drop (Z.to_nat from) srv))))
}.

Context (srv : list Header) {Ho : HonestServer srv}.

Definition slice (from count : Z) : list Header := take (Z.to_nat count) (drop (Z.to_nat from) srv).

Lemma slice_zlen from count : 0 <= from -> 0 <= count -> from + count <= zlen srv -> zlen (slice from count) = count.
Proof. intros Hf Hc Hs. unfold slice, zlen in *. rewrite length_take, length_drop. lia. Qed.

Lemma chunks_concat hs :
  chunks (length hs) (concat (map serialize_block_header hs)) = map serialize_block_header hs.
Proof.
  induction hs as [|h hs IH]; [done|]. cbn. pose proof (ho_size h) as Hs. unfold zlen in Hs.
  rewrite take_app_length' by lia. rewrite drop_app_length' by lia. by rewrite IH.
Qed.

Lemma parse_all hs m : rmapM (fun c => parse_header c m) (map serialize_block_header hs) = Ok hs.
Proof. induction hs as [|h hs IH]; [done|]. cbn. unfold parse_header at 1. rewrite ho_round. cbn. by rewrite IH. Qed.

Lemma concat_zlen hs : zlen (concat (map serialize_block_header hs)) = 80 * zlen hs.
Proof. induction hs as [|h hs IH]; [done|]. cbn [map concat]. rewrite zlen_app, ho_size, IH, zlen_cons. lia. Qed.

(** A reply is a page of the chain. *)
Lemma reply_honest n from count :
  0 <= from < zlen srv -> 1 <= count -> exists k, 1 <= k <= count /\ from + k <= zlen srv /\
    (let? reply := headers_call n from count in headers_reply reply count) = Ok (slice from k).
Proof.
  intros Hf Hc. destruct (ho_headers n from count Hf Hc) as (k & hex & Hk & Hl & Hcall & Hhex).
  exists (Z.of_nat k). split_and!; [lia..|]. rewrite Hcall. unfold headers_reply. cbn [rbind hr_count hr_hex ok_or].
  rewrite Hhex. cbn [ok_or rbind]. pose proof (slice_zlen from (Z.of_nat k)) as Hz. unfold slice in *. rewrite Nat2Z.id in *.
  specialize (Hz ltac:(lia) ltac:(lia) Hl). rewrite concat_zlen, Hz.
  replace (80 * Z.of_nat k) with (Z.of_nat k * 80) by lia. rewrite Z_mod_mult, Z_div_mult by lia. rewrite !Z.eqb_refl.
  cbn [ensure andb rbind]. destruct (Z.leb_spec (Z.of_nat k) count); [|lia]. cbn [ensure rbind].
  unfold zlen in Hz. replace k with (length (take k (drop (Z.to_nat from) srv))) at 1 by lia. rewrite chunks_concat.
  apply parse_all.
Qed.

Lemma segment_app from a b : 0 <= a -> 0 <= b -> 0 <= from -> slice from a ++ slice (from + a) b = slice from (a + b).
Proof.
  intros Ha Hb Hf. unfold slice. rewrite !Z2Nat.inj_add by lia. rewrite <- drop_drop, take_take_drop. done.
Qed.

Lemma loop_honest fuel : forall call from count done,
  0 <= from -> 0 <= done <= count -> from + count <= zlen srv -> count - done <= Z.of_nat fuel ->
  headers_loop fuel call from count (slice from done) = Ok (slice from count).
Proof.
  induction fuel as [|fuel IH]; intros call from count n Hf Hn Hc Hfuel; cbn [headers_loop];
    rewrite slice_zlen by lia; destruct (Z.ltb_spec n count).
  - lia.
  - by replace count with n by lia.
  - destruct (reply_honest call (from + n) (count - n)) as (k & Hk & Hl & Hr); [lia|lia|].
    pose proof ho_length as Hlen. destruct (Z.leb_spec (from + n) u32_max); [|unfold u32_max in *; lia].
    cbn [ok_or rbind]. unfold rbind in Hr |- *. destruct (headers_call call (from + n) (count - n)); [|done..].
    rewrite Hr. assert (Hz : zlen (slice (from + n) k) = k) by (apply slice_zlen; lia). rewrite bool_decide_false.
    2: { intros E0. rewrite E0 in Hz. change (zlen []) with 0 in Hz. lia. }
    rewrite segment_app by lia. apply IH; lia.
  - by replace count with n by lia.
Qed.

Lemma session_headers_honest call from count :
  0 <= from -> 1 <= count <= MAX_HEADERS -> from + count <= zlen srv ->
  session_headers call from count = Ok (slice from count).
Proof.
  intros Hf Hc Hl. unfold session_headers. destruct (Z.leb_spec 1 count), (Z.leb_spec count MAX_HEADERS); try lia.
  cbn [andb ensure rbind]. change [] with (slice from 0). apply loop_honest; lia.
Qed.

Lemma session_tip_honest call : exists h, last srv = Some h /\ session_tip call = Ok (zlen srv - 1, h).
Proof.
  destruct (ho_tip call) as (hex & h & Hc & Hl & Hx). exists h. split; [done|]. unfold session_tip. rewrite Hc.
  cbn [rbind tp_height tp_hex mbind option_bind]. pose proof ho_length as Hlen.
  destruct (Z.leb_spec (zlen srv - 1) u32_max); [|unfold u32_max in *; lia]. cbn [ok_or rbind]. rewrite Hx. cbn [ok_or rbind].
  rewrite ho_size. cbn. unfold parse_header. by rewrite ho_round.
Qed.

Lemma headers_linked_cons a b hs :
  linked (a :: b :: hs) = bool_decide (prev_blockhash b = block_hash a) && linked (b :: hs).
Proof. done. Qed.

Lemma linked_drop n hs : linked hs = true -> linked (drop n hs) = true.
Proof.
  revert hs. induction n as [|n IH]; intros [|a hs] H; cbn; try done. apply IH.
  destruct hs as [|b hs]; [done|]. rewrite headers_linked_cons in H. by apply andb_true_iff in H as [_ H].
Qed.

Lemma linked_take n hs : linked hs = true -> linked (take n hs) = true.
Proof.
  revert hs. induction n as [|n IH]; intros [|a hs] H; try done.
  destruct hs as [|b hs]; [by destruct n|]. rewrite headers_linked_cons in H. apply andb_true_iff in H as [H1 H2].
  apply IH in H2. destruct n as [|n]; [done|]. cbn [take] in *. by rewrite headers_linked_cons, H1.
Qed.

Lemma linked_slice from count : linked (slice from count) = true.
Proof. apply linked_take, linked_drop, ho_linked. Qed.

Lemma linked_next i a b : linked srv = true -> srv !! i = Some a -> srv !! S i = Some b -> prev_blockhash b = block_hash a.
Proof.
  intros H Ha Hb. apply (linked_drop i) in H. rewrite (drop_S _ _ _ Ha) in H.
  rewrite (drop_S _ _ _ Hb), headers_linked_cons in H. apply andb_true_iff in H as [H _]. by apply bool_decide_eq_true in H.
Qed.

Lemma slice_head from count : 0 <= from < zlen srv -> 1 <= count -> head (slice from count) = srv !! Z.to_nat from.
Proof.
  intros Hf Hc. unfold slice. assert (Hlt : (Z.to_nat from < length srv)%nat) by (unfold zlen in Hf; lia).
  apply lookup_lt_is_Some in Hlt as [x Hx]. rewrite (drop_S _ _ _ Hx), Hx. by destruct (Z.to_nat count) eqn:Ec; [lia|].
Qed.

(** The batch of a fetch from a tip that is on the server's chain. *)
Lemma fetch_honest h hash rewind x :
  0 <= h < zlen srv -> srv !! Z.to_nat h = Some x -> block_hash x = hash ->
  fetch h hash rewind = Ok (zlen srv - 1,
    if h =? zlen srv - 1 then None
    else Some (h + 1, slice (h + 1) (Z.min (zlen srv - 1 - h) MAX_HEADERS))).
Proof.
  intros Hh Hx Hhash. unfold fetch. rewrite ho_connect. cbn [rbind].
  destruct (session_tip_honest 0) as (tip & Hl & ->). cbn [rbind].
  destruct (Z.leb_spec h (zlen srv - 1)); [|lia]. cbn [ensure rbind]. rewrite (Z.eqb_sym _ h).
  destruct (Z.eqb_spec h (zlen srv - 1)) as [E0|E0].
  - cbn [rbind]. assert (tip = x) as ->; [|by rewrite bool_decide_true].
    rewrite last_lookup in Hl. replace (pred (length srv)) with (Z.to_nat h) in Hl by (unfold zlen in *; lia). congruence.
  - rewrite session_headers_honest by (unfold MAX_HEADERS; lia). cbn [rbind]. rewrite slice_head by lia. rewrite Hx.
    cbn [ok_or rbind]. rewrite bool_decide_true by done. replace (zlen srv - 1 - (h + 1) + 1) with (zlen srv - 1 - h) by lia.
    rewrite session_headers_honest by (unfold MAX_HEADERS; lia). cbn [rbind]. rewrite slice_head by (unfold MAX_HEADERS; lia).
    assert (Hn : is_Some (srv !! Z.to_nat (h + 1))) by (apply lookup_lt_is_Some; unfold zlen in *; lia).
    destruct Hn as [y Hy]. rewrite Hy. cbn [ok_or rbind]. rewrite bool_decide_true.
    2: { rewrite <- Hhash. eapply linked_next; [apply ho_linked|done|]. by replace (S (Z.to_nat h)) with (Z.to_nat (h + 1)) by lia. }
    cbn [ensure rbind]. by rewrite linked_slice.
Qed.

(** ** The worker and the enclave *)

Context {BL : BitcoinCrateLaws B}.

(** The enclave's clock at the submission, the parent's clock and delays, and
    the health answer. *)
Record StepTimes : Type := {
  st_enclave_now : Z; st_rate_now : Z; st_late : nat -> Z; st_after : Z; st_health : ProbedHealth }.

Definition answer_of {A : Type} (render : EnclaveError -> bytes) (r : enclave_result A) : Answer A :=
  match r with
  | Ok a => AnswerOk a
  | Err e => AnswerError (error_code e) (render e)
  | Panic => AnswerLost "enclave read failed"
  end.

Context (render : EnclaveError -> bytes).

(** A step whose calls reach the enclave [ctx]. *)
Definition world (ctx : SpvContext) (t : StepTimes) : StepWorld := {|
  sw_health := Ok (st_health t);
  sw_tip := AnswerOk (handle_get_last_saved_block ctx);
  sw_pending_finished := true;
  sw_run := RunEnds;
  sw_rate_now := st_rate_now t; sw_late := st_late t; sw_after := st_after t;
  sw_submit := fun req => answer_of render (handle_submit_headers ctx req (st_enclave_now t)).2
|}.

(** The enclave after the step: the batch of the fetch is submitted. *)
Definition enclave_after (y : HeaderSync) (ctx : SpvContext) (t : StepTimes) : SpvContext :=
  let tip := handle_get_last_saved_block ctx in
  match fetch (gls_block_height tip) (gls_block_hash tip) (rewind_to (hs_floor y) (gls_block_height tip)) with
  | Ok (_, Some (start, headers)) => (handle_submit_headers ctx (batch_request start headers) (st_enclave_now t)).1
  | _ => ctx
  end.

Fixpoint sync_run (y : HeaderSync) (ctx : SpvContext) (ts : list StepTimes) : SpvContext * list (any_result SyncState) :=
  match ts with
  | [] => (ctx, [])
  | t :: ts =>
      let '(y', r) := step_sync y (world ctx t) in
      let '(ctx', rs) := sync_run y' (enclave_after y ctx t) ts in
      (ctx', r :: rs)
  end.

(** The enclave holds the server's headers, from its checkpoint up to its tip. *)
Record tracks (ctx : SpvContext) : Prop := {
  tk_inv : chain_inv (contents (header_chain ctx));
  tk_base : exists x, srv !! Z.to_nat (hc_base_height (contents (header_chain ctx))) = Some x /\
    block_hash x = hc_base_hash (contents (header_chain ctx));
  tk_headers : hc_headers (contents (header_chain ctx)) =
    slice (hc_base_height (contents (header_chain ctx)) + 1) (zlen (hc_headers (contents (header_chain ctx))));
  tk_tip : tip_height (contents (header_chain ctx)) < zlen srv
}.

(** The server's chain follows the consensus rules above the enclave's checkpoint, and
    the enclave has room for it. *)
Record acceptable (ctx : SpvContext) : Prop := {
  ac_valid : valid_chain (contents (header_chain ctx))
    (drop (Z.to_nat (hc_base_height (contents (header_chain ctx)) + 1)) srv);
  ac_room : zlen srv - 1 - hc_base_height (contents (header_chain ctx)) <= hc_max_stored_headers (contents (header_chain ctx));
  ac_hashes x : x ∈ srv -> zlen (block_hash x) = 32
}.

Definition next_batch (ctx : SpvContext) : SubmitHeadersRequest :=
  let h := tip_height (contents (header_chain ctx)) in
  batch_request (h + 1) (slice (h + 1) (Z.min (zlen srv - 1 - h) MAX_HEADERS)).

(** A step at sane clocks: no header of the server is more than two hours ahead of the
    enclave's. *)
Definition times_ok (t : StepTimes) : Prop :=
  (forall k, 0 <= st_late t k) /\ 0 <= st_after t /\ ph_max_tip_age_secs (st_health t) <> 0 /\
  0 <= st_enclave_now t /\
  Forall (fun x => time x <= st_enclave_now t / secs 1 + MAX_FUTURE_BLOCK_TIME_SECS) srv.

(** The order of events: a step starts after the answer to the one before, and the
    enclave sees its batch after the worker has entered it in its log. *)
Fixpoint timed (y : HeaderSync) (ctx : SpvContext) (before : Z) (ts : list StepTimes) : Prop :=
  match ts with
  | [] => True
  | t :: ts =>
      before <= st_rate_now t <= st_enclave_now t /\
      (forall p sent,
         wait_for_rate (zlen (shr_headers (next_batch ctx))) (st_rate_now t) (st_late t) (st_after t) (hs_sent y) =
           Some (p, sent) -> p <= st_enclave_now t) /\
      timed (step_sync y (world ctx t)).1 (enclave_after y ctx t) (st_enclave_now t) ts
  end.

(** The limiter has seen nothing that the log of the worker does not cover. *)
Definition logged (y : HeaderSync) (ctx : SpvContext) (before : Z) : Prop :=
  limiter_ok (contents (submit_rate_limiter ctx)) (hs_sent y) before /\ Forall (fun e => 0 <= e.2) (hs_sent y).

Lemma logged_later y y' ctx before before' :
  logged y ctx before -> hs_sent y' = hs_sent y -> before <= before' -> logged y' ctx before'.
Proof.
  intros [[H0 H1] H2] Hsent Hb. unfold logged. rewrite Hsent. split; [|done]. split; [done|].
  destruct (window_start _); [|done]. destruct H1. split; [lia|done].
Qed.

Lemma lookup_slice_last from count x :
  0 <= from -> 1 <= count -> from + count <= zlen srv -> last (slice from count) = Some x ->
  srv !! Z.to_nat (from + count - 1) = Some x.
Proof.
  intros Hf Hc Hl H. rewrite last_lookup in H. pose proof (slice_zlen from count ltac:(lia) ltac:(lia) Hl) as Hz.
  unfold zlen in Hz. replace (pred (length (slice from count))) with (Z.to_nat (count - 1)) in H by lia.
  unfold slice in H. rewrite lookup_take in H. destruct (decide _); [|done]. rewrite lookup_drop in H.
  by replace (Z.to_nat (from + count - 1)) with (Z.to_nat from + Z.to_nat (count - 1))%nat by lia.
Qed.

(** The tip of a tracking enclave is the server's header at that height. *)
Lemma tracks_tip ctx :
  tracks ctx ->
  let c := contents (header_chain ctx) in
  tip_height c = hc_base_height c + zlen (hc_headers c) /\ 0 <= tip_height c < zlen srv /\
  exists x, srv !! Z.to_nat (tip_height c) = Some x /\ block_hash x = tip_hash c.
Proof.
  intros [[W V] (b & Hb & Hbh) Hh Ht] c. fold c in W, Hb, Hbh, Hh, Ht. pose proof (tip_height_eq c W) as Htip.
  pose proof (wf_base c W) as Hb0. pose proof (zlen_nonneg (hc_headers c)) as Hz. split; [done|]. split; [lia|].
  unfold tip_hash. rewrite (wf_hashes c W), fmap_last. destruct (last (hc_headers c)) as [x|] eqn:El; cbn [fmap option_fmap option_map].
  - exists x. split; [|done]. rewrite Hh in El. rewrite Htip.
    assert (Hpos : hc_headers c <> []) by (intros E0; rewrite <- Hh, E0 in El; done).
    assert (0 < zlen (hc_headers c)) by (unfold zlen; destruct (hc_headers c); [done|cbn; lia]).
    replace (hc_base_height c + zlen (hc_headers c))
      with (hc_base_height c + 1 + zlen (hc_headers c) - 1) by lia. by apply lookup_slice_last; [lia..|].
  - apply last_None in El. rewrite El in Htip. change (zlen []) with 0 in Htip.
    exists b. rewrite Htip, Z.add_0_r. split; [done|]. by rewrite <- (wf_hash c W).
Qed.

Lemma deserialize_serialized hs :
  Forall2 (fun raw h => deserialize_header raw = inl h) (map serialize_block_header hs) hs.
Proof. induction hs as [|h hs IH]; cbn; constructor; [apply ho_round|done]. Qed.

Lemma map_serialize_deserialize hs new :
  Forall2 (fun raw h => deserialize_header raw = inl h) (map serialize_block_header hs) new -> new = hs.
Proof.
  revert new. induction hs as [|h hs IH]; intros new H; inversion H as [|? x ? new' Hx Hn]; subst; [done|].
  rewrite ho_round in Hx. injection Hx as <-. f_equal. by apply IH.
Qed.

(** The enclave accepts the next batch: the limiter admits it and the chain takes it. *)
Lemma next_batch_accepted y ctx before t :
  tracks ctx -> acceptable ctx -> times_ok t -> logged y ctx before ->
  tip_height (contents (header_chain ctx)) <> zlen srv - 1 ->
  before <= st_rate_now t ->
  (forall p sent,
     wait_for_rate (zlen (shr_headers (next_batch ctx))) (st_rate_now t) (st_late t) (st_after t) (hs_sent y) =
       Some (p, sent) -> p <= st_enclave_now t) ->
  let c := contents (header_chain ctx) in
  let h := tip_height c in
  let n := Z.min (zlen srv - 1 - h) MAX_HEADERS in
  exists x p sent ctx',
    last (slice (h + 1) n) = Some x /\
    wait_for_rate n (st_rate_now t) (st_late t) (st_after t) (hs_sent y) = Some (p, sent) /\
    handle_submit_headers ctx (next_batch ctx) (st_enclave_now t) =
      (ctx', Ok {| shs_last_block_height := h + n; shs_last_block_hash := block_hash x; shs_headers_accepted := n |}) /\
    limiter_ok (contents (submit_rate_limiter ctx')) sent (st_enclave_now t) /\ Forall (fun e => 0 <= e.2) sent /\
    contents (header_chain ctx') = extend_chain c (hc_headers c ++ slice (h + 1) n).
Proof.
  intros Htr [Hv Hroom Hw] (Hl & Ha & _ & Hnow & Hfut) [Hlim Hpos] Hne Hbefore Hp c h n.
  destruct (tracks_tip ctx Htr) as (Htip & Hh & _). destruct Htr as [I _ Hhd _]. fold c in Htip, Hh, Hv, Hroom, I, Hhd. fold h in Htip, Hh, Hne.
  assert (Hn : 1 <= n <= MAX_HEADERS /\ h + 1 + n <= zlen srv) by (unfold n, MAX_HEADERS; fold c h in Hne; lia).
  assert (Hz : zlen (slice (h + 1) n) = n) by (apply slice_zlen; lia).
  assert (Hlen : zlen (shr_headers (next_batch ctx)) = n).
  { unfold next_batch, batch_request. cbn [shr_headers]. fold c h n. unfold zlen in *. by rewrite length_map. }
  rewrite Hlen in Hp.
  destruct (wait_for_rate_ends n (st_rate_now t) (st_late t) (st_after t) (hs_sent y) Hl) as [[p sent] Hrate].
  pose (s := {| sn_count := n; sn_now := st_rate_now t; sn_late := st_late t; sn_after := st_after t; sn_arrival := st_enclave_now t |}).
  destruct (check_admits _ _ before s p sent Hlim Hpos) as (lim' & Hc & Hlim' & Hpos'); try done; [cbn; lia|by apply (Hp p sent)|].
  cbn [s sn_count sn_arrival] in Hc, Hlim'.
  destruct (last (slice (h + 1) n)) as [x|] eqn:El; [|apply last_None in El; rewrite El in Hz; change (zlen []) with 0 in Hz; lia].
  pose proof (wf_base c (proj1 I)) as Hb0. pose proof (zlen_nonneg (hc_headers c)) as Hz0.
  assert (Happ : hc_headers c ++ slice (h + 1) n = slice (hc_base_height c + 1) (zlen (hc_headers c) + n)).
  { rewrite Hhd at 1. replace (h + 1) with (hc_base_height c + 1 + zlen (hc_headers c)) by lia. apply segment_app; lia. }
  destruct (extension_accepted c (map serialize_block_header (slice (h + 1) n)) (slice (h + 1) n) (st_enclave_now t / secs 1) I)
    as (o & Hsub & O1 & O2 & O3).
  - apply deserialize_serialized.
  - rewrite Happ. unfold slice. by apply valid_chain_take.
  - unfold slice. by apply Forall_take, Forall_drop.
  - rewrite Hz. unfold MAX_HEADERS, MAX_HEADERS_PER_SUBMIT in *. lia.
  - rewrite Hz. lia.
  - exists x, p, sent, {| submit_rate_limiter := set_contents (submit_rate_limiter ctx) lim';
      header_chain := set_contents (header_chain ctx) (extend_chain c (hc_headers c ++ slice (h + 1) n)) |}.
    split; [done|]. split; [done|]. split; [|by split_and!].
    unfold handle_submit_headers. rewrite Hlen, Hc. cbn [header_chain].
      destruct (Z.ltb_spec (st_enclave_now t) 0); [lia|]. unfold next_batch, batch_request. cbn [shr_start_height shr_headers].
      fold c. fold h. fold n. fold h in Hsub. rewrite Hsub. cbn [rmap_err rbind]. rewrite O1, O2, O3, Hz. f_equal. do 2 f_equal.
      unfold tip_hash, extend_chain, set_headers. cbn [hc_hashes]. by rewrite fmap_app, last_app, fmap_last, El.
Qed.

(** The fetch of a tracking enclave. *)
Lemma fetch_tracks ctx rewind :
  tracks ctx ->
  let h := tip_height (contents (header_chain ctx)) in
  fetch h (tip_hash (contents (header_chain ctx))) rewind = Ok (zlen srv - 1,
    if h =? zlen srv - 1 then None
    else Some (h + 1, slice (h + 1) (Z.min (zlen srv - 1 - h) MAX_HEADERS))).
Proof. intros Ht h. destruct (tracks_tip ctx Ht) as (_ & Hh & x & Hx & Hb). by apply (fetch_honest h _ rewind x). Qed.

Lemma tracks_hash ctx : tracks ctx -> acceptable ctx -> zlen (tip_hash (contents (header_chain ctx))) = 32.
Proof.
  intros Ht Ha. destruct (tracks_tip ctx Ht) as (_ & _ & x & Hx & <-). apply (ac_hashes _ Ha). by eapply list_elem_of_lookup_2.
Qed.

(** One step at the tip. *)
Lemma step_at_tip y ctx t :
  hs_has_source y = true -> times_ok t -> tracks ctx -> acceptable ctx ->
  tip_height (contents (header_chain ctx)) = zlen srv - 1 ->
  exists y', step_sync y (world ctx t) = (y', Ok SSynced) /\ hs_has_source y' = true /\ hs_sent y' = hs_sent y /\
    enclave_after y ctx t = ctx.
Proof.
  intros Hs (_ & _ & Hm & _) Ht Ha He. pose proof (tracks_hash ctx Ht Ha) as H32.
  pose proof (fetch_tracks ctx) as Hf. cbv zeta in Hf.
  unfold step_sync, enclave_after. cbn [sw_health world]. apply Z.eqb_neq in Hm. rewrite Hm. cbn. rewrite Hs. cbn.
  rewrite H32. cbn. unfold source_call. cbn [sw_pending_finished sw_run world negb hs_pending].
  rewrite andb_false_r. rewrite !Hf by done. rewrite He, Z.eqb_refl. eexists. by split_and!.
Qed.

(** The enclave with the next batch on top still holds the server's headers. *)
Lemma tracks_extended ctx ctx' :
  tracks ctx -> acceptable ctx ->
  let c := contents (header_chain ctx) in
  let h := tip_height c in
  let n := Z.min (zlen srv - 1 - h) MAX_HEADERS in
  h <> zlen srv - 1 -> contents (header_chain ctx') = extend_chain c (hc_headers c ++ slice (h + 1) n) ->
  tracks ctx' /\ acceptable ctx' /\ tip_height (contents (header_chain ctx')) = h + n.
Proof.
  intros Htr [Hv Hroom Hw] c h n Hne Hc'. destruct (tracks_tip ctx Htr) as (Htip & Hh & _).
  destruct Htr as [I Hbase Hhd _]. fold c in Htip, Hh, Hv, Hroom, I, Hbase, Hhd. fold h in Htip, Hh.
  assert (Hn : 1 <= n /\ h + 1 + n <= zlen srv) by (unfold n, MAX_HEADERS; lia).
  pose proof (wf_base c (proj1 I)) as Hb0. pose proof (zlen_nonneg (hc_headers c)) as Hz0.
  assert (Happ : hc_headers c ++ slice (h + 1) n = slice (hc_base_height c + 1) (zlen (hc_headers c) + n)).
  { rewrite Hhd at 1. replace (h + 1) with (hc_base_height c + 1 + zlen (hc_headers c)) by lia. apply segment_app; lia. }
  assert (Hz : zlen (hc_headers c ++ slice (h + 1) n) = zlen (hc_headers c) + n).
  { rewrite zlen_app. f_equal. apply slice_zlen; lia. }
  assert (I' : chain_inv (extend_chain c (hc_headers c ++ slice (h + 1) n))).
  { destruct I as [[]]. split; [constructor; cbn; try done; rewrite Hz; lia|]. cbn. apply valid_chain_set_headers.
    rewrite Happ. unfold slice. by apply valid_chain_take. }
  assert (Ht' : tip_height (extend_chain c (hc_headers c ++ slice (h + 1) n)) = h + n).
  { rewrite (tip_height_eq _ (proj1 I')). cbn. rewrite Hz. lia. }
  rewrite Hc'. split_and!; [| |done].
  - constructor; rewrite Hc'; [done|done| |rewrite Ht'; lia]. cbn. by rewrite Hz, Happ.
  - constructor; rewrite ?Hc'; [by apply valid_chain_set_headers|done|done].
Qed.

(** One step below the tip: the enclave takes the batch. *)
Lemma step_below_tip y ctx before t :
  hs_has_source y = true -> times_ok t -> tracks ctx -> acceptable ctx -> logged y ctx before ->
  let h := tip_height (contents (header_chain ctx)) in
  let h' := h + Z.min (zlen srv - 1 - h) MAX_HEADERS in
  h <> zlen srv - 1 -> before <= st_rate_now t ->
  (forall p sent,
     wait_for_rate (zlen (shr_headers (next_batch ctx))) (st_rate_now t) (st_late t) (st_after t) (hs_sent y) =
       Some (p, sent) -> p <= st_enclave_now t) ->
  exists y', step_sync y (world ctx t) = (y', Ok (if zlen srv - 1 <=? h' then SSynced else SSyncing)) /\
    hs_has_source y' = true /\ tracks (enclave_after y ctx t) /\ acceptable (enclave_after y ctx t) /\
    logged y' (enclave_after y ctx t) (st_enclave_now t) /\
    tip_height (contents (header_chain (enclave_after y ctx t))) = h'.
Proof.
  intros Hs Ht Htr Ha Hlog h h' Hne Hbefore Hp. pose proof (tracks_hash ctx Htr Ha) as H32.
  pose proof (fetch_tracks ctx) as Hf. cbv zeta in Hf. fold h in Hf. destruct (tracks_tip ctx Htr) as (_ & Hh & _). fold h in Hh.
  destruct (next_batch_accepted y ctx before t) as (x & p & sent & ctx' & Hx & Hrate & Hr & Hlim & Hpos & Hc'); try done.
  fold h in Hx, Hrate, Hr, Hc'. set (n := Z.min (zlen srv - 1 - h) MAX_HEADERS) in *.
  assert (Hz : zlen (slice (h + 1) n) = n) by (apply slice_zlen; unfold n, MAX_HEADERS; lia).
  destruct (tracks_extended ctx ctx' Htr Ha Hne Hc') as (Htr' & Ha' & Hth).
  apply Z.eqb_neq in Hne.
  assert (Hafter : enclave_after y ctx t = ctx').
  { unfold enclave_after. cbn [gls_block_height gls_block_hash handle_get_last_saved_block]. fold h. rewrite Hf by done.
    rewrite Hne. fold n. unfold next_batch in Hr. fold h in Hr. fold n in Hr. by rewrite Hr. }
  rewrite Hafter. destruct Ht as (_ & _ & Hm & _). apply Z.eqb_neq in Hm.
  eexists. split; [|split; [|split; [exact Htr'|split; [exact Ha'|split; [|exact Hth]]]]].
  - unfold step_sync. cbn [sw_health world]. rewrite Hm. cbn. rewrite Hs. cbn. rewrite H32. cbn. unfold source_call.
    cbn [sw_pending_finished sw_run world negb hs_pending]. rewrite andb_false_r. fold h. rewrite Hf by done. rewrite Hne. fold n.
    unfold send_batch. rewrite Hx, Hz. cbn [hs_sent set_status sw_rate_now sw_late sw_after world]. rewrite Hrate.
    cbn [sw_submit world]. unfold next_batch in Hr. fold h in Hr. fold n in Hr. rewrite Hr. cbn [snd answer_of submit].
    cbn [shs_headers_accepted shs_last_block_height shs_last_block_hash].
    replace (h + 1 + n - 1) with h' by (unfold h'; fold n; lia). rewrite !Z.eqb_refl, bool_decide_true by done.
    cbn [andb]. reflexivity.
  - done.
  - by split.
Qed.

(** C27: an honest server brings the enclave to its tip.  The enclave holds the server's
    headers from its checkpoint on, and the server's chain follows the consensus rules
    above it, fits the enclave, and is nowhere more than two hours ahead of its clock; the
    steps come one after the other, and a batch reaches the enclave after the worker has
    logged it.  Then the handler of the enclave accepts every batch: each step succeeds,
    advances by a full batch or to the end, and keeps the enclave on that chain; once the
    steps cover the distance the enclave has the server's tip and the last step says so. *)
Theorem sync_catches_up y ctx before ts :
  hs_has_source y = true -> tracks ctx -> acceptable ctx -> logged y ctx before ->
  Forall times_ok ts -> timed y ctx before ts ->
  let '(ctx', rs) := sync_run y ctx ts in
  let h := tip_height (contents (header_chain ctx)) in
  Forall (fun r => r = Ok SSynced \/ r = Ok SSyncing) rs /\ length rs = length ts /\ tracks ctx' /\
  tip_height (contents (header_chain ctx')) = Z.min (zlen srv - 1) (h + MAX_HEADERS * zlen ts) /\
  (ts <> [] -> last rs = Some (Ok SSynced) <-> zlen srv - 1 <= h + MAX_HEADERS * zlen ts).
Proof.
  intros Hs Htr Ha Hlog Hts. revert y ctx before Hs Htr Ha Hlog.
  induction Hts as [|t ts Ht Hts IH]; intros y ctx before Hs Htr Ha Hlog Htime;
    destruct (tracks_tip ctx Htr) as (_ & Hh & _).
  { cbn. split_and!; try done. change (zlen []) with 0. lia. }
  cbn [sync_run]. cbn [timed] in Htime. destruct Htime as ([Hb1 Hb2] & Hp & Htime). rewrite zlen_cons.
  pose proof (zlen_nonneg ts) as Hz.
  destruct (Z.eq_dec (tip_height (contents (header_chain ctx))) (zlen srv - 1)) as [E0|E0].
  - destruct (step_at_tip y ctx t Hs Ht Htr Ha E0) as (y' & Hstep & Hs' & Hsent & Hafter). rewrite Hstep, Hafter in *.
    cbn [fst] in Htime. specialize (IH y' ctx _ Hs' Htr Ha (logged_later _ _ _ _ (st_enclave_now t) Hlog Hsent ltac:(lia)) Htime).
    destruct (sync_run y' ctx ts) as [ctx' rs]. destruct IH as (IH1 & IH2 & IH3 & IH4 & IH5).
    unfold MAX_HEADERS in *. split_and!; try done.
    + constructor; [by left|done].
    + cbn. lia.
    + lia.
    + intros _. split; [lia|]. intros _. destruct ts as [|t' ts]; [by destruct rs|].
      rewrite last_cons. rewrite (proj2 (IH5 ltac:(done))) by lia. done.
  - destruct (step_below_tip y ctx before t Hs Ht Htr Ha Hlog E0 Hb1 Hp) as (y' & Hstep & Hs' & Htr' & Ha' & Hlog' & Htip).
    rewrite Hstep in *. cbn [fst] in Htime. specialize (IH y' _ _ Hs' Htr' Ha' Hlog' Htime). rewrite Htip in IH.
    destruct (sync_run y' (enclave_after y ctx t) ts) as [ctx' rs]. destruct IH as (IH1 & IH2 & IH3 & IH4 & IH5).
    unfold MAX_HEADERS in *. split_and!; try done.
    + constructor; [|done]. destruct (_ <=? _); [by left|by right].
    + cbn. lia.
    + lia.
    + intros _. destruct ts as [|t' ts].
      * destruct rs; [|done]. cbn. change (zlen []) with 0. destruct (Z.leb_spec (zlen srv - 1)
          (tip_height (contents (header_chain ctx)) + Z.min (zlen srv - 1 - tip_height (contents (header_chain ctx))) 2016));
          (split; [|intros; try done; lia]); [intros _; lia|intros [=]].
      * rewrite last_cons. destruct (last rs) as [r|] eqn:El; [|by apply last_None in El; subst].
        rewrite (IH5 ltac:(done)). lia.
Qed.

End Honest.

(** ** A server with five headers above the checkpoint *)

Module Sample.

Record wide_header : Type := { wh_prev : byte; wh_time : byte * byte; wh_id : byte }.

Definition pad : bytes := replicate 76 x00.
Definition wide_hash (b : byte) : bytes := replicate 31 x00 ++ [b].

#[local] Instance wide_crate : BitcoinCrate := {|
  Header := wide_header;
  Params := bool;
  deserialize_header := fun raw =>
    match raw with
    | p :: t1 :: t0 :: i :: rest =>
        if bool_decide (rest = pad) then inl {| wh_prev := p; wh_time := (t1, t0); wh_id := i |} else inr "bad header"
    | _ => inr "bad length"
    end;
  prev_blockhash := fun h => wide_hash (wh_prev h);
  header_merkle_root := fun h => [wh_id h];
  time := fun h => b2z (wh_time h).1 * 256 + b2z (wh_time h).2;
  bits := fun _ => 7;
  block_hash := fun h => wide_hash (wh_id h);
  validate_pow := fun _ => true;
  work := fun _ => 1;
  work_add := fun a b => (a + b) mod 2 ^ 256;
  from_next_work_required := fun base _ _ => base;
  MAINNET := false; SIGNET := false; TESTNET3 := true; TESTNET4 := true; REGTEST := true;
  pow_target_spacing := fun _ => 600;
  allow_min_difficulty_blocks := fun b => b;
  max_attainable_bits := fun _ => 255
|}.

#[local] Instance wide_laws : BitcoinCrateLaws wide_crate.
Proof.
  constructor; try done.
  - intros [p [t1 t0] i]. cbn. pose proof (b2z_range t1). pose proof (b2z_range t0). unfold is_u32. lia.
  - intros a b Ha Hb Hab. apply Z.mod_small. lia.
Qed.

(** Header [i], ten minutes after the one before. *)
Definition block (i : Z) : wide_header :=
  {| wh_prev := z2b (i - 1); wh_time := (z2b ((10000 + 600 * i) / 256), z2b (10000 + 600 * i)); wh_id := z2b i |}.

Definition srv : list Header := map block (seqZ 0 6).

Definition wide_serialize (h : wide_header) : bytes := wh_prev h :: (wh_time h).1 :: (wh_time h).2 :: wh_id h :: pad.

Definition page (from count : Z) : list Header := take (Z.to_nat (Z.min count 2)) (drop (Z.to_nat from) srv).

(** Pages of two headers; text is its own hex. *)
#[local] Instance server : ElectrumServer := {|
  session_connect := Ok tt;
  subscribe_call := fun _ => Ok {| tp_height := Some 5; tp_hex := Some (wide_serialize (block 5)) |};
  headers_call := fun _ from count =>
    Ok {| hr_count := Some (zlen (page from count)); hr_hex := Some (concat (map wide_serialize (page from count))) |};
  hex_digits := fun s => Some s;
  serialize_block_header := wide_serialize
|}.

#[local] Instance honest : HonestServer srv.
Proof.
  split; try done.
  - by intros [p [t1 t0] i].
  - intros n. by exists (wide_serialize (block 5)), (block 5).
  - intros n from count Hf Hc. exists (length (page from count)), (concat (map wide_serialize (page from count))).
    assert (Hl : length srv = 6%nat) by done.
    assert (Hp : length (page from count) = Nat.min (Z.to_nat (Z.min count 2)) (6 - Z.to_nat from)).
    { unfold page. by rewrite length_take, length_drop, Hl. }
    unfold zlen in Hf. rewrite Hl in Hf. split; [lia|]. split; [unfold zlen; lia|]. split; [done|]. f_equal. do 2 f_equal.
    unfold page at 1. rewrite Hp. rewrite <- (firstn_all (drop (Z.to_nat from) srv)) at 1. rewrite length_drop, Hl, take_take.
    done.
Qed.

Definition checkpoint : Checkpoint := {|
  cp_height := 0; cp_hash := wide_hash x00; cp_bits := 7; cp_time := 10000; cp_is_real := true; cp_chain_work := None |}.

Definition enclave : SpvContext := {|
  submit_rate_limiter := new_mutex default_limiter; header_chain := new_mutex (new_chain Mainnet checkpoint) |}.

Definition worker : HeaderSync := new_sync (Ok true).

Definition at_second (n : Z) : StepTimes := {|
  st_enclave_now := secs (n + 1); st_rate_now := secs n; st_late := fun _ => 0; st_after := 0;
  st_health := {| ph_tip_age_secs := 10; ph_max_tip_age_secs := 7200 |} |}.

Lemma at_second_ok n : 65535 <= n -> times_ok srv (at_second n).
Proof.
  intros Hn. split_and!; try done; unfold at_second; cbn [st_enclave_now]; [unfold secs; lia|].
  replace (secs (n + 1) / secs 1) with (n + 1) by (unfold secs; rewrite Z.div_mul; lia).
  apply Forall_forall. intros x _. cbn. pose proof (b2z_range (wh_time x).1). pose proof (b2z_range (wh_time x).2).
  unfold MAX_FUTURE_BLOCK_TIME_SECS. lia.
Qed.

Lemma enclave_tracks : tracks srv enclave.
Proof.
  constructor; [apply new_chain_inv; by vm_compute|exists (block 0); by vm_compute|done|done].
Qed.

(** The server's chain is one that the enclave accepts in a single batch. *)
Lemma enclave_acceptable : acceptable srv enclave.
Proof.
  constructor.
  - assert (Hok : match (submit_headers (new_chain Mainnet checkpoint) 1 (map wide_serialize (drop 1 srv)) 20000).2 with
                  | Ok _ => true | _ => false end = true) by (vm_compute; reflexivity).
    destruct (submit_headers_cases (new_chain Mainnet checkpoint) 1 (map wide_serialize (drop 1 srv)) 20000)
      as [(e & He)|[[He _]|(_ & new & c' & o & _ & Hacc)]]; [apply new_chain_inv; by vm_compute|by rewrite He in Hok|done|].
    pose proof (acc_valid _ _ _ _ _ _ Hacc) as V. apply acc_new in Hacc.
    rewrite (map_serialize_deserialize (E := server) srv (drop 1 srv) new Hacc) in V. exact V.
  - by vm_compute.
  - intros x Hx. unfold srv in Hx. apply list_elem_of_fmap in Hx as (i & -> & _). done.
Qed.

Lemma sync_catches_up_witness :
  exists ctx', (sync_run (fun _ => []) worker enclave [at_second 70000; at_second 70010]).1 = ctx' /\
    tip_height (contents (header_chain ctx')) = 5.
Proof.
  pose proof (sync_catches_up srv (fun _ => []) worker enclave 0 [at_second 70000; at_second 70010]) as H.
  destruct (sync_run _ worker enclave [at_second 70000; at_second 70010]) as [ctx' rs] eqn:Er. exists ctx'. split; [reflexivity|].
  assert (Htip : tip_height (contents (header_chain enclave)) = 0) by reflexivity. rewrite Htip in H.
  destruct H as (_ & _ & _ & Ht & _); [| | | | | |rewrite Ht; reflexivity].
  - done.
  - apply enclave_tracks.
  - apply enclave_acceptable.
  - by repeat split.
  - apply Forall_cons. split; [by apply at_second_ok|]. apply Forall_cons. split; [by apply at_second_ok|]. constructor.
  - cbn [timed]. split; [by split|]. split; [intros p sent Hw; vm_compute in Hw; injection Hw as <- _; by vm_compute|].
    split; [by split|]. split; [|exact I].
    intros p sent Hw. vm_compute in Hw. injection Hw as <- _. by vm_compute.
Defined.

Lemma sync_never_rate_limited_witness :
  let one := {| sn_count := 2016; sn_now := 0; sn_late := fun _ => 0; sn_after := 0; sn_arrival := 5 |} in
  Forall (fun '(_, _, admitted) => admitted = true) (run_checks default_limiter [(2016, 5)]) /\
  is_Some (wait_for_rate 2016 0 (fun _ => 0) 0 []).
Proof.
  intros one. destruct (sync_never_rate_limited 0 [one]) as [H1 H2].
  - eapply paced_cons; [by unfold one, MAX_HEADERS; cbn; lia|done|done|done|vm_compute; reflexivity|done|constructor].
  - split; [exact H1|by apply H2].
Defined.

End Sample.
