(* ===== verification/Dispatch.v ===== *)
(** * Requests over a connection
      (src/enclave/src/server/dispatch.rs, wire.rs, health.rs)

    The router, over an interface [Handlers] of the request handlers: their
    world is shared state, and a handler may change it and fail.  The router
    gates by build and launch, turns an error into a response of bounded text,
    and hands an uncommitted reservation to the connection, which commits it
    after the response is written.  [handle_health] is written out. *)

From stdpp Require Import base numbers list strings gmap.
From S2P Require Import Prelude Errors SpvTypes SpvChain SpvCrosscheck EnclaveState ReplayGuard ResultCache RustText PsbtTypes PsbtKeys PsbtPolicy.
From S2P Require Import RgbCommit EvmRelease EvmEvents RgbMint MintSign MintSignProps.
From S2P Require PsbtSample RgbSample EvmEventsProps.

#[local] Open Scope list_scope.
#[local] Open Scope Z_scope.

(** ** Builds and requests *)

Record ServerBuild : Type := {
  sb_evm_to_rgb : bool;
  sb_rgb_to_evm : bool;
  sb_mint_signer : bool;
  sb_burn_signer : bool;
  sb_ccd : bool;
  sb_bfa_mint : bool;
  sb_kms_persistence : bool;
  sb_rgb_validation : bool
}.

(** [enclave_request::Request]; [M] is the type of the bodies. *)
Inductive Request (M : Type) : Type :=
| InitializeKey (m : M)
| GetPublicKey (m : M)
| Sign (m : M)
| SignBtc (m : M)
| SignRawMessage (m : M)
| SignRawDigest (m : M)
| SignCcd (m : M)
| SignRightsRefill (m : M)
| InitiateCloning (m : M)
| GetClone (m : M)
| SetClone (m : M)
| SubmitHeaders (m : M)
| GetLastSavedBlock (m : M)
| GetAttestedPublicKey (m : M)
| SetEndpoints (m : M)
| Health (m : M).

Arguments InitializeKey {M} m.
Arguments GetPublicKey {M} m.
Arguments Sign {M} m.
Arguments SignBtc {M} m.
Arguments SignRawMessage {M} m.
Arguments SignRawDigest {M} m.
Arguments SignCcd {M} m.
Arguments SignRightsRefill {M} m.
Arguments InitiateCloning {M} m.
Arguments GetClone {M} m.
Arguments SetClone {M} m.
Arguments SubmitHeaders {M} m.
Arguments GetLastSavedBlock {M} m.
Arguments GetAttestedPublicKey {M} m.
Arguments SetEndpoints {M} m.
Arguments Health {M} m.

Inductive EnclaveReply (R : Type) : Type :=
| Reply (r : R)
| ErrorReply (code : Z) (message : bytes).
Arguments Reply {R} r.
Arguments ErrorReply {R} code message.

(** ** The handlers *)

(** What the router asks of the rest of the server.  [display] is
    [EnclaveError]'s [Display]. *)
Class Handlers (W M R : Type) : Type := {
  h_launched : W -> bool;
  h_initialize : M -> Z -> W -> W * enclave_result R;
  h_get_public_key : M -> W -> W * enclave_result R;
  h_sign : M -> Z -> W -> W * enclave_result (R * option ReplayReservation);
  h_sign_btc : M -> W -> W * enclave_result R;
  h_sign_raw_digest : M -> W -> W * enclave_result R;
  h_sign_ccd : M -> W -> W * enclave_result R;
  h_sign_rights_refill : M -> W -> W * enclave_result R;
  h_initiate_cloning : M -> W -> W * enclave_result R;
  h_get_clone : M -> W -> W * enclave_result R;
  h_set_clone : M -> W -> W * enclave_result R;
  h_submit_headers : M -> W -> W * enclave_result R;
  h_get_last_saved_block : M -> W -> W * enclave_result R;
  h_get_attested_public_key : M -> W -> W * enclave_result R;
  h_set_endpoints : M -> W -> W * enclave_result R;
  h_health : W -> W * enclave_result R;
  (** [Drop] of a reservation that was not committed. *)
  h_drop : ReplayReservation -> W -> W;
  display : EnclaveError -> bytes
}.

(** ** The text of an error *)

Definition MAX_ERROR_TEXT_BYTES : Z := 1024.

(** [str::is_char_boundary]: the start, the end, or not before a continuation byte. *)
Definition is_char_boundary (s : bytes) (i : nat) : bool :=
  (i =? 0)%nat ||
  match s !! i with
  | Some b => negb ((128 <=? b2z b) && (b2z b <=? 191))
  | None => (i =? length s)%nat
  end.

(** The loop that moves the cut back. *)
Fixpoint boundary_below (s : bytes) (i : nat) : nat :=
  if is_char_boundary s i then i else match i with O => O | S i => boundary_below s i end.

(** [n] in decimal. *)
Fixpoint decimal (fuel : nat) (n : Z) : bytes :=
  match fuel with
  | O => []
  | S fuel => (if n <? 10 then [] else decimal fuel (n / 10)) ++ [z2b (48 + n mod 10)]
  end.

Definition error_text (s : bytes) : bytes :=
  if zlen s <=? MAX_ERROR_TEXT_BYTES then s
  else
    take (boundary_below s (Z.to_nat MAX_ERROR_TEXT_BYTES)) s ++
    text "... (" ++ decimal 20 (zlen s) ++ text " bytes)".

(** ** The router *)

Section Dispatch.
#[local] Open Scope string_scope.
Context {W M R : Type} {H : Handlers W M R}.

Definition unsupported_build (network : string) : EnclaveError :=
  InvalidRequest
    ("enclave was not built with `" +:+ network +:+ "` support: this binary does not handle " +:+ network +:+
     " requests (rebuild with `--features " +:+ network +:+ "`)").

Definition wrong_signer_role (b : ServerBuild) (what : string) : EnclaveError :=
  let role :=
    if sb_mint_signer b then "the mint signer (EVM -> RGB)"
    else if sb_burn_signer b then "the burn signer (RGB -> EVM)"
    else "a combined signer" in
  InvalidRequest ("this enclave is " +:+ role +:+ ": it does not sign " +:+ what).

Definition no_cloning : EnclaveError :=
  InvalidRequest "cloning is disabled with KMS persistence; initialize each replica from its configured seed".

Definition error_response (code : Z) (e : EnclaveError) : EnclaveReply R := ErrorReply code (error_text (display e)).

(** [ctx.launch().and_then(...)]. *)
Definition after_launch {A : Type} (w : W) (k : W -> W * enclave_result A) : W * enclave_result A :=
  if h_launched w then k w else (w, Err (NotReady "endpoints-unset")).

(** A handler compiled in under [on], with the refusal of the other builds. *)
Definition built {A : Type} (on : bool) (e : EnclaveError) (w : W) (k : W -> W * enclave_result A)
    : W * enclave_result A :=
  if on then k w else (w, Err e).

(** The handler's result with no reservation. *)
Definition plain (r : W * enclave_result R) : W * enclave_result (R * option ReplayReservation) :=
  let '(w, r) := r in (w, let? x := r in Ok (x, None)).

(** The match of [dispatch], [GetClone] and the empty request apart. *)
Definition route (b : ServerBuild) (req : Request M) (w : W) (deadline : Z)
    : W * enclave_result (R * option ReplayReservation) :=
  match req with
  | InitializeKey m => plain (h_initialize m deadline w)
  | GetPublicKey m => plain (h_get_public_key m w)
  | Sign m => after_launch w (h_sign m deadline)
  | SignBtc m =>
      plain (built (sb_evm_to_rgb b) (wrong_signer_role b "plain-BTC PSBTs") w (fun w => after_launch w (h_sign_btc m)))
  | SignRawMessage _ => (w, Err (InvalidRequest "SignRawMessage is removed; no replacement"))
  | SignRawDigest m =>
      plain (built (sb_rgb_to_evm b) (wrong_signer_role b "EVM gas transactions") w (fun w => after_launch w (h_sign_raw_digest m)))
  | SignCcd m => plain (built (sb_ccd b) (unsupported_build "ccd") w (fun w => after_launch w (h_sign_ccd m)))
  | SignRightsRefill m =>
      plain (built (sb_bfa_mint b && sb_evm_to_rgb b) (wrong_signer_role b "rights refills") w
               (fun w => after_launch w (h_sign_rights_refill m)))
  | InitiateCloning m =>
      plain (built (negb (sb_kms_persistence b)) no_cloning w
               (h_initiate_cloning m))
  | GetClone m =>
      plain (built (negb (sb_kms_persistence b)) no_cloning w
               (h_get_clone m))
  | SetClone m =>
      plain (built (negb (sb_kms_persistence b)) no_cloning w
               (h_set_clone m))
  | SubmitHeaders m => plain (built (sb_rgb_validation b) (unsupported_build "rgb") w (h_submit_headers m))
  | GetLastSavedBlock m => plain (built (sb_rgb_validation b) (unsupported_build "rgb") w (h_get_last_saved_block m))
  | GetAttestedPublicKey m => plain (h_get_attested_public_key m w)
  | SetEndpoints m => plain (h_set_endpoints m w)
  | Health _ => plain (h_health w)
  end.

(** The code of an error: a clone request has codes of its own. *)
Definition reply_code (b : ServerBuild) (req : Request M) (e : EnclaveError) : Z :=
  match req with
  | GetClone _ => if sb_kms_persistence b then error_code e else clone_error_code e
  | _ => error_code e
  end.

(** [dispatch]: the world, the response, and a reservation for the caller.  A
    panic aborts the enclave. *)
Definition dispatch (b : ServerBuild) (req : option (Request M)) (w : W) (deadline : Z)
    : W * res unit (EnclaveReply R * option ReplayReservation) :=
  match req with
  | None => (w, Ok (ErrorReply 1 (text "empty request"), None))
  | Some req =>
      let '(w, r) := route b req w deadline in
      (w, match r with
          | Ok (x, reservation) => Ok (Reply x, reservation)
          | Err e => Ok (error_response (reply_code b req e) e, None)
          | Panic => Panic
          end)
  end.

(** [process_connection]: [read] is the request read from the stream, [write]
    how the write of a response ends. *)
Definition process_connection (b : ServerBuild) (read : enclave_result (option (Request M)))
    (write : EnclaveReply R -> enclave_result unit) (w : W) (deadline : Z) : W * enclave_result unit :=
  match read with
  | Err e => (w, Err e)
  | Panic => (w, Panic)
  | Ok req =>
      match dispatch b req w deadline with
      | (w, Ok (response, reservation)) =>
          match write response, reservation with
          | Ok _, Some r => (h_drop (commit r) w, Ok tt)
          | Ok _, None => (w, Ok tt)
          | Err e, Some r => (h_drop r w, Err e)
          | Err e, None => (w, Err e)
          | Panic, _ => (w, Panic)
          end
      | (w, _) => (w, Panic)
      end
  end.

End Dispatch.

(** ** Health (health.rs) *)

Record HealthResponse : Type := {
  hp_ready : bool;
  hp_key_loaded : bool;
  hp_spv_synced : bool;
  hp_phase : string;
  hp_spv_tip_height : Z;
  hp_spv_tip_time : Z;
  hp_spv_tip_age_secs : Z;
  hp_spv_max_tip_age_secs : Z;
  hp_endpoints_set : bool
}.

Section Health.
Context {K : Keys} {B : BitcoinCrate}.

(** The SPV part at the clock reading [now]; the lock recovers from poison. *)
Definition spv_health (spv : bool) (header_chain : mutex HeaderChain) (min_confirmations now : Z)
    : bool * Z * Z * Z * Z :=
  if negb spv then (true, 0, 0, 0, 0)
  else
    let chain := contents header_chain in
    let synced := match assert_chain_ready chain now min_confirmations with Ok _ => true | _ => false end in
    let age := sat_sub (if now <? 0 then 0 else now / secs 1) (tip_time chain) in
    (synced, tip_height chain, tip_time chain, Z.min age u32_max, SPV_MAX_TIP_AGE_SECS).

Definition handle_health (spv rgb_to_evm endpoints_set : bool) (state : EnclaveState) (header_chain : mutex HeaderChain)
    (min_confirmations now : Z) : HealthResponse :=
  let key_loaded := is_initialized state in
  let '(synced, height, tip_time, age, max_age) := spv_health spv header_chain min_confirmations now in
  {| hp_ready := endpoints_set && key_loaded && (synced || negb rgb_to_evm);
     hp_key_loaded := key_loaded; hp_spv_synced := synced; hp_phase := phase_name state;
     hp_spv_tip_height := height; hp_spv_tip_time := tip_time; hp_spv_tip_age_secs := age;
     hp_spv_max_tip_age_secs := max_age; hp_endpoints_set := endpoints_set |}.

End Health.

(** * Theorems on requests over a connection

    Which requests can reach a signing handler, how long an error text gets,
    and what a lost reply does to a mint. *)

(** ** The router *)

(** The requests that use a key, and the builds that serve them. *)
Definition signing_build {M : Type} (b : ServerBuild) (req : Request M) : option bool :=
  match req with
  | Sign _ => Some true
  | SignBtc _ => Some (sb_evm_to_rgb b)
  | SignRawDigest _ => Some (sb_rgb_to_evm b)
  | SignCcd _ => Some (sb_ccd b)
  | SignRightsRefill _ => Some (sb_bfa_mint b && sb_evm_to_rgb b)
  | SignRawMessage _ => Some false
  | _ => None
  end.

Section Router.
Context {W M R : Type} {H : Handlers W M R}.

(** No key is used before the launch, by a build of another role, or for a raw
    message: such a request changes nothing and gets an error. *)
Theorem signing_gated b req w deadline :
  forall on, signing_build b req = Some on -> on && h_launched w = false ->
  exists code message, dispatch b (Some req) w deadline = (w, Ok (ErrorReply code message, None)).
Proof.
  intros on Hs Hg. unfold dispatch.
  destruct req; cbn in Hs; try discriminate Hs; injection Hs as <-; cbn [route]; unfold plain, built, after_launch;
    repeat match goal with |- context [if ?c then _ else _] => destruct c eqn:?; cbn [andb] in Hg; try discriminate Hg end;
    cbn; by do 2 eexists.
Qed.

Lemma plain_none (r : W * enclave_result R) w x o : plain r = (w, Ok (x, o)) -> o = None.
Proof. unfold plain. destruct r as [w' [y|e|]]; cbn; congruence. Qed.

(** Only a signed bridge request carries a reservation. *)
Lemma reservation_of_sign b req w deadline w' r res :
  dispatch b req w deadline = (w', Ok (r, Some res)) ->
  exists m x, req = Some (Sign m) /\ r = Reply x /\ h_launched w = true /\
    h_sign m deadline w = (w', Ok (x, Some res)).
Proof.
  unfold dispatch. destruct req as [req|]; [|done]. destruct (route b req w deadline) as [w1 r1] eqn:E.
  destruct r1 as [[x o]|e|]; [|done..]. intros [= -> <- ->].
  destruct req as [m|m|m|m|m|m|m|m|m|m|m|m|m|m|m|m]; cbn [route] in E; try (by apply plain_none in E); [|done].
  unfold after_launch in E. destruct (h_launched w) eqn:Hl; [|done]. by exists m, x.
Qed.

End Router.

(** ** The text of an error *)

Lemma boundary_below_le s i : (boundary_below s i <= i)%nat.
Proof.
  induction i as [|i IH]; [done|]. cbn [boundary_below]. destruct (is_char_boundary s (S i)); lia.
Qed.

Lemma boundary_below_ok s i : is_char_boundary s (boundary_below s i) = true.
Proof.
  induction i as [|i IH]; [done|]. cbn [boundary_below]. by destruct (is_char_boundary s (S i)) eqn:E.
Qed.

Lemma decimal_length fuel n : (length (decimal fuel n) <= fuel)%nat.
Proof.
  revert n. induction fuel as [|fuel IH]; intros n; cbn; [lia|]. rewrite length_app. cbn.
  specialize (IH (n / 10)). destruct (n <? 10); cbn; lia.
Qed.

(** An error text has at most 1024 bytes of the message, cut at a character, and 32 more. *)
Theorem error_text_bounded s :
  zlen (error_text s) <= MAX_ERROR_TEXT_BYTES + 32 /\
  (error_text s = s \/
   exists k, is_char_boundary s k = true /\ take k (error_text s) = take k s /\ Z.of_nat k <= MAX_ERROR_TEXT_BYTES).
Proof.
  unfold error_text. destruct (Z.leb_spec (zlen s) MAX_ERROR_TEXT_BYTES); [split; [lia|by left]|].
  pose proof (boundary_below_le s (Z.to_nat MAX_ERROR_TEXT_BYTES)) as Hle. pose proof (decimal_length 20 (zlen s)) as Hd.
  pose proof (boundary_below_ok s (Z.to_nat MAX_ERROR_TEXT_BYTES)) as Hk.
  set (k := boundary_below s (Z.to_nat MAX_ERROR_TEXT_BYTES)) in *. unfold MAX_ERROR_TEXT_BYTES, zlen in *. split.
  - rewrite !length_app, length_take. change (length (text "... (")) with 5%nat. change (length (text " bytes)")) with 7%nat. lia.
  - right. exists k. split_and!; [done| |lia]. rewrite take_app_le by (rewrite length_take; lia). by rewrite take_take, Nat.min_id.
Qed.

(** ** Readiness *)

(** [ready] says exactly that the endpoints are set, a key is loaded and, on a
    release build with SPV, that the chain passes [assert_chain_ready]; the
    diagnostics fit their 32 bits. *)
Theorem health_ready_iff {K : Keys} {B : BitcoinCrate} spv rgb_to_evm endpoints state chain min_conf now :
  0 <= tip_time (contents chain) ->
  let h := handle_health spv rgb_to_evm endpoints state chain min_conf now in
  (hp_ready h = true <->
     endpoints = true /\ is_initialized state = true /\
     (rgb_to_evm = true -> spv = true -> assert_chain_ready (contents chain) now min_conf = Ok tt)) /\
  0 <= hp_spv_tip_age_secs h <= u32_max /\ hp_spv_max_tip_age_secs h <= SPV_MAX_TIP_AGE_SECS.
Proof.
  intros Ht. unfold handle_health, spv_health.
  destruct spv; cbn [negb]; cbn; rewrite !andb_true_iff.
  - split; [|split; [unfold sat_sub; pose proof (eq_refl : u32_max = 4294967295); lia|done]].
    destruct (assert_chain_ready _ _ _) as [[]|e|], rgb_to_evm; cbn; naive_solver.
  - split; [naive_solver|done].
Qed.

(** ** A mint over the wire *)

Section Mint.
Context {R : RgbStd} {F : BfaSchema} {K : Bip32} {B : Bitcoin} {C : PsbtCodec} {T : @TapSigner K} {P : EvmReceiptProvider}.
Context (keccak256 sha256 : bytes -> bytes) (invoice : bytes -> option Beneficiary) (cfg : MintPins).
Context (keys : enclave_result (KeyManager K)) (launch : enclave_result bool).

(** A sign request with the clock readings and the calls made before it. *)
#[local] Abbreviation MintBody := (SignRequest * Clock * nat)%type.

(** The server of a mint signer: [handle_sign] over the part of the world that
    holds the operation guard and the kept replies. *)
Class MintServer {W : Type} (H : Handlers W MintBody (bytes * Z)) : Type := {
  state_of : W -> SignState;
  set_state : SignState -> W -> W;
  get_set st w : state_of (set_state st w) = st;
  launched_set st w : h_launched (set_state st w) = h_launched w;
  serves_sign req clk t deadline w :
    h_sign (req, clk, t) deadline w =
    let '(st, r) := handle_sign keccak256 sha256 invoice cfg keys launch (state_of w) req deadline clk t in
    (set_state st w, r);
  serves_drop r w :
    h_drop r w = set_state {| op_replay_guard := drop_reservation (op_replay_guard (state_of w)) r;
                              signed_results := signed_results (state_of w) |} w
}.

Context {W : Type} {H : Handlers W MintBody (bytes * Z)} {S : MintServer H}.

Lemma unseen_passes g n now :
  poisoned (g_inner g) = false -> seen (contents (g_inner g)) !! n = None -> guard_check g n now = Ok tt.
Proof.
  intros Hp Hn. unfold guard_check. rewrite Hp, Hn. by rewrite bool_decide_false by (by intros [? ?]).
Qed.

(** A rollback finds the lock as the reservation left it. *)
Lemma rollback_unpoisoned g n now g' r :
  reserve_at g n now = (g', Ok r) -> poisoned (g_inner (drop_reservation g' r)) = false.
Proof.
  intros (Hr & _)%reserve_at_ok.
  assert (Hp : poisoned (g_inner g') = false).
  { destruct (run_op_frame g (OpRecord n now)) as (_ & _ & Ep). cbn [run_op] in Ep. rewrite Hr in Ep. cbn [fst] in Ep.
    rewrite Ep. unfold check_and_record_at in Hr. by destruct (poisoned (g_inner g)). }
  unfold drop_reservation. destruct (rr_committed r); [done|].
  destruct (run_op_frame g' (OpRemove (rr_nonce r) (rr_generation r))) as (_ & _ & Ep). cbn [run_op] in Ep. by rewrite Ep.
Qed.

(** The error of a replayed operation. *)
Definition replayed : EnclaveError := CrossCheck "duplicate bridge operation: refusing to sign a replay".

(** What a request for an operation that has a kept reply gets while the guard
    refuses the operation: the kept reply, or the refusal; never a signature. *)
Lemma kept_or_refused st c g key req kept_at resp req2 deadline clk t s d km :
  st = {| op_replay_guard := g;
          signed_results := put_at c key (request_digest sha256 req) resp kept_at |} ->
  keys = Ok km -> source_network req2 = Some (SEvm s) -> destination_network req2 = Some (DRgb d) ->
  operation_key keccak256 cfg (SEvm s) (DRgb d) = Some key ->
  let kept := bool_decide (request_digest sha256 req = request_digest sha256 req2) &&
              (sat_sub (at_lookup clk) kept_at <? c_ttl c) in
  (kept = true \/ guard_check g key (at_lookup clk) = Err NonceReplay) ->
  handle_sign keccak256 sha256 invoice cfg keys launch st req2 deadline clk t =
  (st, if kept then Ok (resp, None) else Err replayed).
Proof.
  intros -> Hk Hs Hd Hkey kept Hg. unfold handle_sign, sign_prologue. rewrite Hs, Hd, Hk.
  cbn [ok_or rbind check_signer_role]. rewrite Hkey. cbn [mbind option_bind signed_results].
  rewrite get_after_put. fold kept. destruct kept; [done|]. destruct Hg as [|Hg]; [done|].
  unfold precheck_operation. rewrite Hkey. cbn [op_replay_guard]. by rewrite Hg.
Qed.

(** The answer of a launched server to a sign request is the handler's. *)
Lemma dispatch_sign b w req clk t deadline st r :
  h_launched w = true ->
  handle_sign keccak256 sha256 invoice cfg keys launch (state_of w) req deadline clk t = (st, r) ->
  dispatch b (Some (Sign (req, clk, t))) w deadline =
  (set_state st w, match r with
                   | Ok (x, reservation) => Ok (Reply x, reservation)
                   | Err e => Ok (error_response (error_code e) e, None)
                   | Panic => Panic
                   end).
Proof.
  intros Hl Hr. unfold dispatch, route, after_launch. rewrite Hl, serves_sign, Hr. by destruct r as [[]| |].
Qed.

(** C25: a signed mint over a connection.  When the reply is written, the operation
    stays reserved: while the reservation lives, the server answers every further
    request for that operation without signing and without a change of state, a
    byte-identical one with the kept reply while the cache keeps it, and every other
    one with the refusal of a replay.  When the write fails, the reservation is rolled
    back, so the deposit is not locked out, and the same request again is answered with
    the same signature without signing twice. *)
Theorem mint_over_the_wire b write w deadline req clk t st' resp res s d key :
  h_launched w = true -> guard_inv (op_replay_guard (state_of w)) ->
  handle_sign keccak256 sha256 invoice cfg keys launch (state_of w) req deadline clk t = (st', Ok (resp, Some res)) ->
  source_network req = Some (SEvm s) -> destination_network req = Some (DRgb d) ->
  operation_key keccak256 cfg (SEvm s) (DRgb d) = Some key -> rr_generation res + 1 < u64_max ->
  let '(w', r) := process_connection b (Ok (Some (Sign (req, clk, t)))) write w deadline in
  let kept req2 clk2 := bool_decide (request_digest sha256 req = request_digest sha256 req2) &&
    (sat_sub (at_lookup clk2) (at_store clk) <? c_ttl (signed_results (state_of w))) in
  match write (Reply resp) with
  | Ok _ => r = Ok tt /\ state_of w' = st' /\
      forall req2 deadline2 clk2 t2 s2 d2,
        source_network req2 = Some (SEvm s2) -> destination_network req2 = Some (DRgb d2) ->
        operation_key keccak256 cfg (SEvm s2) (DRgb d2) = Some key ->
        sat_sub (at_lookup clk2) (at_reserve clk) < g_ttl (op_replay_guard (state_of w)) ->
        exists w2, state_of w2 = st' /\
          dispatch b (Some (Sign (req2, clk2, t2))) w' deadline2 =
          (w2, Ok (if kept req2 clk2 then Reply resp else error_response 3 replayed, None))
  | Err e => r = Err e /\
      (forall now, guard_check (op_replay_guard (state_of w')) key now = Ok tt) /\
      forall deadline2 clk2 t2, kept req clk2 = true ->
        exists w2, state_of w2 = state_of w' /\
          dispatch b (Some (Sign (req, clk2, t2))) w' deadline2 = (w2, Ok (Reply resp, None))
  | Panic => r = Panic
  end.
Proof.
  intros Hl I Hsign Hs Hd Hkey Hgen. unfold process_connection. rewrite (dispatch_sign _ _ _ _ _ _ _ _ Hl Hsign).
  destruct (handle_sign_fresh _ _ _ _ _ _ _ _ _ _ _ _ _ _ Hsign)
    as (s' & d' & km & key' & g & t' & Hs' & Hd' & Hk & Hkey' & _ & Hr & _ & ->).
  rewrite Hs in Hs'. injection Hs' as <-. rewrite Hd in Hd'. injection Hd' as <-. rewrite Hkey in Hkey'. injection Hkey' as <-.
  destruct (rollback_releases _ _ _ _ _ 0 I Hr Hgen) as (Hun & _ & Hcommit).
  destruct (write (Reply resp)) as [u|e|]; [| |done]; rewrite serves_drop, !get_set; cbn [op_replay_guard signed_results].
  - rewrite Hcommit. split; [done|]. split; [done|]. intros req2 deadline2 clk2 t2 s2 d2 Hs2 Hd2 Hk2 Hnow.
    eexists. split; [|erewrite dispatch_sign; [| |rewrite get_set; eapply kept_or_refused; try done]].
    + by rewrite get_set.
    + by destruct (_ && _).
    + by rewrite !launched_set.
    + right. apply reserve_at_ok in Hr as (Hrec & _). by eapply record_then_check.
  - split; [done|]. split.
    + intros now. apply unseen_passes; [by eapply rollback_unpoisoned|done].
    + intros deadline2 clk2 t2 Hc. eexists.
      split; [|erewrite dispatch_sign; [| |rewrite get_set; eapply kept_or_refused; try done]].
      * by rewrite get_set.
      * by rewrite Hc.
      * by rewrite !launched_set.
      * by left.
Qed.

End Mint.

Arguments state_of {R F K B C T P keccak256 sha256 invoice cfg keys launch W H _} _.
Arguments set_state {R F K B C T P keccak256 sha256 invoice cfg keys launch W H _} _ _.

(** ** A mint server *)

Module Sample.

(** A launched server whose world is the state of the mint handler. *)
Definition world : Type := SignState * bool.

Definition no_reply (w : world) : world * enclave_result (bytes * Z) := (w, Err (InvalidRequest "not served")).

Definition sample_handle (st : SignState) (req : SignRequest) (deadline : Z) (clk : Clock) (t : nat) :=
  handle_sign (C := RgbSample.rgb_codec) (P := mint_provider) EvmEventsProps.sample_keccak id (fun _ => None) sample_pins
    (Ok PsbtSample.sample_keys) (Ok true) st req deadline clk t.

#[global] Instance mint_handlers : Handlers world (SignRequest * Clock * nat) (bytes * Z) := {
  h_launched w := w.2;
  h_initialize _ _ := no_reply;
  h_get_public_key _ := no_reply;
  h_sign m deadline w :=
    let '(st, r) := sample_handle w.1 m.1.1 deadline m.1.2 m.2 in ((st, w.2), r);
  h_sign_btc _ := no_reply;
  h_sign_raw_digest _ := no_reply;
  h_sign_ccd _ := no_reply;
  h_sign_rights_refill _ := no_reply;
  h_initiate_cloning _ := no_reply;
  h_get_clone _ := no_reply;
  h_set_clone _ := no_reply;
  h_submit_headers _ := no_reply;
  h_get_last_saved_block _ := no_reply;
  h_get_attested_public_key _ := no_reply;
  h_set_endpoints _ := no_reply;
  h_health := no_reply;
  h_drop r w :=
    ({| op_replay_guard := drop_reservation (op_replay_guard w.1) r; signed_results := signed_results w.1 |}, w.2);
  display _ := []
}.

#[global] Instance mint_server :
  MintServer (C := RgbSample.rgb_codec) (P := mint_provider) EvmEventsProps.sample_keccak id (fun _ => None) sample_pins
    (Ok PsbtSample.sample_keys) (Ok true) mint_handlers.
Proof.
  refine {| state_of := fst; set_state := fun st (w : world) => (st, w.2) |}; [done|done| |done].
  intros req clk t deadline w. cbn. unfold sample_handle. by destruct (handle_sign _ _ _ _ _ _ _ _ _ _ _).
Defined.

Definition mint_build : ServerBuild := {|
  sb_evm_to_rgb := true; sb_rgb_to_evm := false; sb_mint_signer := true; sb_burn_signer := false; sb_ccd := false;
  sb_bfa_mint := true; sb_kms_persistence := true; sb_rgb_validation := true |}.

Definition broken_pipe (r : EnclaveReply (bytes * Z)) : enclave_result unit := Err Io.

Definition written (r : EnclaveReply (bytes * Z)) : enclave_result unit := Ok tt.

Definition after_mint (write : EnclaveReply (bytes * Z) -> enclave_result unit) : world :=
  (process_connection mint_build (Ok (Some (Sign (mint_request, mint_clock 0, 0%nat)))) write (empty_state, true) (secs 100)).1.

(** A reply that is lost on a broken connection leaves the operation free; after a written
    one, a request with other bytes for the same operation is refused a minute later. *)
Lemma mint_over_the_wire_witness :
  (exists s d key,
    source_network mint_request = Some (SEvm s) /\ destination_network mint_request = Some (DRgb d) /\
    operation_key EvmEventsProps.sample_keccak sample_pins (SEvm s) (DRgb d) = Some key /\
    guard_check (op_replay_guard (after_mint broken_pipe).1) key (secs 5) = Ok tt) /\
  (dispatch mint_build (Some (Sign (other_request, mint_clock (secs 60), 0%nat))) (after_mint written) (secs 100)).2 =
  Ok (error_response 3 replayed, None).
Proof.
  split.
  - do 3 eexists. split; [reflexivity|]. split; [reflexivity|]. split; [reflexivity|].
    pose proof (mint_over_the_wire (S := mint_server) _ _ _ _ _ _ mint_build broken_pipe (empty_state, true) (secs 100)
      mint_request (mint_clock 0) 0%nat _ _ _ _ _ _ eq_refl (with_capacity_inv _ _) sample_sign_ok eq_refl eq_refl eq_refl)
      as Hw. unfold after_mint.
    destruct (process_connection _ _ _ _ _) as [w' r]. cbn in Hw. destruct Hw as (_ & Hw & _); [by vm_compute|]. apply Hw.
  - pose proof (mint_over_the_wire (S := mint_server) _ _ _ _ _ _ mint_build written (empty_state, true) (secs 100)
      mint_request (mint_clock 0) 0%nat _ _ _ _ _ _ eq_refl (with_capacity_inv _ _) sample_sign_ok eq_refl eq_refl eq_refl)
      as Hw. unfold after_mint.
    destruct (process_connection _ _ _ _ _) as [w' r]. cbn zeta in Hw. destruct Hw as (_ & _ & Hw); [by vm_compute|].
    destruct (Hw other_request (secs 100) (mint_clock (secs 60)) 0%nat _ _ eq_refl eq_refl eq_refl) as (w2 & _ & E);
      [by vm_compute|]. cbn [fst]. rewrite E. reflexivity.
Defined.

End Sample.
