(* ===== verification/Perimeter.v ===== *)
(** * The gRPC perimeter of the parent (src/parent/src/transport_security.rs)

    Which settings the server starts with, the access list by the hash of the
    client certificate, the roles of the methods, the shared budgets of the two
    expensive calls, the limit on open sockets and the client's own rule on
    plaintext.  Reading a file, the URI and hex crates, the name of the gRPC
    service and SHA-256 are parameters; the IP addresses of the standard library are written out. *)

From stdpp Require Import strings base numbers list gmap relations.
From S2P Require Import Prelude Errors RustText LaunchConfig.

#[local] Open Scope list_scope.
#[local] Open Scope Z_scope.

(** ** Status (tonic) *)

Inductive StatusCode : Type :=
| InvalidArgument | DeadlineExceeded | AlreadyExists | PermissionDenied | ResourceExhausted
| FailedPrecondition | StatusInternal | StatusUnavailable | Unauthenticated.

Record Status : Type := { st_code : StatusCode; st_message : bytes }.

Abbreviation grpc_result A := (res Status A) (only parsing).

Definition status (code : StatusCode) (m : string) : Status := {| st_code := code; st_message := text m |}.

(** ** IP addresses (std::net) *)

Inductive IpAddr : Type := V4 (octets : list Z) | V6 (segments : list Z).

Definition is_loopback (ip : IpAddr) : bool :=
  match ip with
  | V4 o => bool_decide (head o = Some 127)
  | V6 s => bool_decide (s = [0; 0; 0; 0; 0; 0; 0; 1])
  end.

(** [Parser::read_number]: at most [width] digits of the base, the value and the rest. *)
Fixpoint number_go (base : Z) (width : nat) (acc : Z) (any : bool) (s : bytes) : option (Z * nat * bytes) :=
  let stop := if any then Some (acc, width, s) else None in
  match s with
  | b :: rest =>
      match hex_value b with
      | Some d =>
          if base <=? d then stop
          else match width with O => None | S width => number_go base width (acc * base + d) true rest end
      | None => stop
      end
  | [] => stop
  end.

Definition read_octet (s : bytes) : option (Z * bytes) :=
  '(v, left_over, rest) ← number_go 10 3 0 false s;
  if (bool_decide (head s = Some x30) && (left_over <? 2)%nat) || (255 <? v) then None else Some (v, rest).

Definition read_group (s : bytes) : option (Z * bytes) :=
  '(v, _, rest) ← number_go 16 4 0 false s; Some (v, rest).

Definition read_char (c : byte) (s : bytes) : option bytes :=
  match s with b :: rest => if bool_decide (b = c) then Some rest else None | [] => None end.

(** [read_separator]: the separator is before every item but the first. *)
Definition separated (c : byte) (i : nat) (s : bytes) : option bytes :=
  match i with O => Some s | S _ => read_char c s end.

Definition read_ipv4 (s : bytes) : option (list Z * bytes) :=
  '(a, s) ← read_octet s; s ← read_char x2e s; '(b, s) ← read_octet s; s ← read_char x2e s;
  '(c, s) ← read_octet s; s ← read_char x2e s; '(d, s) ← read_octet s;
  Some ([a; b; c; d], s).

(** [read_groups] from item [i], with [room] items left: the groups, whether an
    IPv4 address ends them, and the rest. *)
Fixpoint read_groups (room i : nat) (s : bytes) : list Z * bool * bytes :=
  match room with
  | O => ([], false, s)
  | S room =>
      match (if (room =? 0)%nat then None else s' ← separated x3a i s; read_ipv4 s') with
      | Some ([a; b; c; d], rest) => ([a * 256 + b; c * 256 + d], true, rest)
      | _ =>
          match s' ← separated x3a i s; read_group s' with
          | Some (g, rest) => let '(gs, v4, rest) := read_groups room (S i) rest in (g :: gs, v4, rest)
          | None => ([], false, s)
          end
      end
  end.

Definition read_ipv6 (s : bytes) : option (list Z * bytes) :=
  let '(head_groups, v4, rest) := read_groups 8 0 s in
  if (length head_groups =? 8)%nat then Some (head_groups, rest)
  else if v4 then None
  else
    rest ← read_char x3a rest; rest ← read_char x3a rest;
    let '(tail_groups, _, rest) := read_groups (8 - (length head_groups + 1)) 0 rest in
    Some (head_groups ++ replicate (8 - length head_groups - length tail_groups) 0 ++ tail_groups, rest).

(** [str::parse::<IpAddr>]: all of the text. *)
Definition parse_ip (s : bytes) : option IpAddr :=
  match read_ipv4 s with
  | Some (o, []) => Some (V4 o)
  | Some (_, _ :: _) => None
  | None => match read_ipv6 s with Some (g, []) => Some (V6 g) | _ => None end
  end.

(** ** Settings *)

Definition value (env : Env) (key : string) : str_result (option bytes) :=
  match env key with
  | Ok v => if bool_decide (v = []) then Err (key +:+ " must not be empty") else Ok (Some v)
  | Err NotPresent => Ok None
  | Err NotUnicode => Err key
  | Panic => Panic
  end.

Definition per_minute (env : Env) (key dflt : string) : str_result Z :=
  let? v := value env key in
  let? limit := ok_or (parse_uint u32_max (default (text dflt) v)) ("invalid " +:+ key) in
  if (1 <=? limit) && (limit <=? 10000) then Ok limit else Err (key +:+ " must be 1..10000").

Definition max_connections (env : Env) : str_result Z :=
  let? v := value env "GRPC_MAX_CONNECTIONS" in
  let? n := ok_or (parse_uint u64_max (default (text "64") v)) "invalid GRPC_MAX_CONNECTIONS" in
  if (1 <=? n) && (n <=? 4096) then Ok n else Err "GRPC_MAX_CONNECTIONS must be 1..4096".

(** ** Roles and budgets *)

Inductive Role : Type := CloneOperator | Listener | Observer.

#[export] Instance Role_eq_dec : EqDecision Role.
Proof. solve_decision. Defined.

Record Window : Type := { win_start : Z; win_used : Z }.
Record Budget : Type := { b_limit : Z; b_window : mutex Window }.

Definition new_budget (limit now : Z) : Budget :=
  {| b_limit := limit; b_window := new_mutex {| win_start := now; win_used := 0 |} |}.

(** [Budget::charge] at the clock reading [now]; [restart] is the reading for a new window. *)
Definition charge (b : Budget) (period : Z) (name : string) (now restart : Z) : Budget * grpc_result unit :=
  if poisoned (b_window b) then (b, Err (status StatusUnavailable (name +:+ " budget unavailable")))
  else
    let w := contents (b_window b) in
    let w := if period <=? sat_sub now (win_start w) then {| win_start := restart; win_used := 0 |} else w in
    let put w := {| b_limit := b_limit b; b_window := set_contents (b_window b) w |} in
    if b_limit b <=? win_used w then (put w, Err (status ResourceExhausted (name +:+ " rate limit")))
    else (put {| win_start := win_start w; win_used := win_used w + 1 |}, Ok tt).

Record Policy : Type := {
  p_roles : gmap bytes Role;
  p_period : Z;
  p_clone : Budget;
  p_attest : Budget
}.

Definition AccessLayer : Type := option Policy.

(** ** The access list *)

(** [str::lines]. *)
Definition chomp (l : bytes) : bytes := default l (strip_suffix [x0d] l).

Definition lines (s : bytes) : list bytes :=
  let pieces := split x0a s in
  map chomp (if bool_decide (last pieces = Some []) then removelast pieces else pieces).

(** [str::split_whitespace]; [cur] is the word so far, reversed. *)
Fixpoint words_go (fuel : nat) (cur : bytes) (s : bytes) : list bytes :=
  let word := if bool_decide (cur = []) then [] else [reverse cur] in
  match fuel, s with
  | S fuel, b :: rest =>
      match List.find (fun p => starts_with p s) white_space with
      | Some p => word ++ words_go fuel [] (drop (length p) s)
      | None => words_go fuel (b :: cur) rest
      end
  | _, _ => word
  end.

Definition split_whitespace (s : bytes) : list bytes := words_go (length s) [] s.

Definition parse_role (s : bytes) : option Role :=
  if bool_decide (s = text "clone-operator") then Some CloneOperator
  else if bool_decide (s = text "listener") then Some Listener
  else if bool_decide (s = text "observer") then Some Observer
  else None.

Section Access.
Context {T : TextCodecs}.

(** One line: nothing, or a certificate hash with its role. *)
Definition acl_line (line : bytes) : str_result (option (bytes * Role)) :=
  let line := trim (default [] (head (split x23 line))) in
  if bool_decide (line = []) then Ok None
  else
    match split_whitespace line with
    | [pin; role] =>
        let? pin := ok_or (hex_decode pin) "hex" in
        let? _ := if zlen pin =? 32 then Ok tt else Err "ACL fingerprint must be 32 bytes" in
        let? role := ok_or (parse_role role) "unknown ACL role" in
        Ok (Some (pin, role))
    | _ => Err "expected leaf_sha256 role"
    end.

(** The loop over the lines. *)
Fixpoint acl_lines (ls : list bytes) (roles : gmap bytes Role) : str_result (gmap bytes Role) :=
  match ls with
  | [] => Ok roles
  | line :: ls =>
      let? entry := acl_line line in
      match entry with
      | None => acl_lines ls roles
      | Some (pin, role) =>
          if bool_decide (is_Some (roles !! pin)) then Err "duplicate ACL fingerprint"
          else
            let roles := <[pin := role]> roles in
            if (512 <? size roles)%nat then Err "ACL exceeds 512 identities" else acl_lines ls roles
      end
  end.

Definition from_acl (acl : bytes) (clone_limit attest_limit period now : Z) : str_result AccessLayer :=
  if clone_limit =? 0 then Err "invalid Clone budget"
  else if attest_limit =? 0 then Err "invalid AttestedPublicKey budget"
  else if period =? 0 then Err "invalid budget period"
  else
    let? roles := acl_lines (lines acl) ∅ in
    if bool_decide (roles = ∅) then Err "empty ACL"
    else Ok (Some {| p_roles := roles; p_period := period; p_clone := new_budget clone_limit now;
                     p_attest := new_budget attest_limit now |}).

(** ** Authorization *)

(** [ParentServiceServer::NAME], of the crate with the gRPC messages. *)
Context (service_name : bytes).

Definition method_prefix : bytes := [x2f] ++ service_name ++ [x2f].

Definition is_read (method : bytes) : bool :=
  bool_decide (method ∈ [text "PublicKey"; text "AttestedPublicKey"; text "GetLastSavedBlock"]).

Definition role_allows (role : Role) (method : bytes) : bool :=
  is_read method ||
  match role with
  | CloneOperator => bool_decide (method = text "Clone")
  | Listener => bool_decide (method = text "Sign")
  | Observer => false
  end.

Context (sha256 : bytes -> bytes).

(** [AccessLayer::authorize] of a call on a connection with the client
    certificates [certs], at the clock readings of a charge. *)
Definition authorize (a : AccessLayer) (certs : option (list bytes)) (path : bytes) (now restart : Z)
    : AccessLayer * grpc_result unit :=
  match a with
  | None => (a, Ok tt)
  | Some p =>
      let checked :=
        let? certs := ok_or certs (status Unauthenticated "client certificate required") in
        let? leaf := ok_or (head certs) (status Unauthenticated "client certificate required") in
        let? role := ok_or (p_roles p !! sha256 leaf) (status PermissionDenied "client not authorized") in
        let? method := ok_or (strip_prefix method_prefix path) (status PermissionDenied "RPC not authorized") in
        if role_allows role method then Ok method else Err (status PermissionDenied "RPC not authorized") in
      match checked with
      | Err e => (a, Err e)
      | Panic => (a, Panic)
      | Ok method =>
          if bool_decide (method = text "Clone") then
            let '(b, r) := charge (p_clone p) (p_period p) "clone" now restart in
            (Some {| p_roles := p_roles p; p_period := p_period p; p_clone := b; p_attest := p_attest p |}, r)
          else if bool_decide (method = text "AttestedPublicKey") then
            let '(b, r) := charge (p_attest p) (p_period p) "attestation" now restart in
            (Some {| p_roles := p_roles p; p_period := p_period p; p_clone := p_clone p; p_attest := b |}, r)
          else (a, Ok tt)
      end
  end.

(** ** The settings of the server *)

(** The files of [ServerTlsConfig]; a client certificate is always required. *)
Record ServerTls : Type := { tls_cert : bytes; tls_key : bytes; tls_client_ca : bytes }.

Record ServerSecurity : Type := {
  ss_tls : option ServerTls;
  ss_access : AccessLayer;
  ss_max_connections : Z
}.

(** [std::fs::read] and [read_to_string]. *)
Context (read_file read_text : bytes -> option bytes).

Definition read (path : bytes) : str_result bytes := ok_or (read_file path) "reading TLS file".

Definition tls_vars : list string :=
  ["GRPC_TLS_CERT_FILE"; "GRPC_TLS_KEY_FILE"; "GRPC_TLS_CLIENT_CA_FILE"; "GRPC_TLS_ACL_FILE"].

(** [ServerSecurity::from_env] of an [insecure-dev] build. *)
Definition server_from_env_dev (env : Env) : str_result ServerSecurity :=
  let? _ := rmapM (fun key =>
    let? v := value env key in
    if bool_decide (is_Some v) then Err "insecure-dev build takes no TLS settings" else Ok tt) tls_vars in
  let? n := max_connections env in
  Ok {| ss_tls := None; ss_access := None; ss_max_connections := n |}.

(** [ServerSecurity::from_env]. *)
Definition server_from_env (env : Env) (bind : IpAddr) (now : Z) : str_result ServerSecurity :=
  let? n := max_connections env in
  let? cert := value env "GRPC_TLS_CERT_FILE" in
  let? key := value env "GRPC_TLS_KEY_FILE" in
  let? ca := value env "GRPC_TLS_CLIENT_CA_FILE" in
  let? acl := value env "GRPC_TLS_ACL_FILE" in
  let? insecure := value env "GRPC_ALLOW_INSECURE_LOOPBACK" in
  match insecure with
  | Some v =>
      if negb (bool_decide (v = text "true")) then Err "GRPC_ALLOW_INSECURE_LOOPBACK must be true or absent"
      else
        match is_loopback bind, cert, key, ca, acl with
        | true, None, None, None, None => Ok {| ss_tls := None; ss_access := None; ss_max_connections := n |}
        | _, _, _, _, _ => Err "insecure mode requires loopback bind and no TLS settings"
        end
  | None =>
      match cert, key, ca, acl with
      | Some cert, Some key, Some ca, Some acl =>
          let? clone_limit := per_minute env "GRPC_CLONE_MAX_PER_MINUTE" "30" in
          let? attest_limit := per_minute env "GRPC_ATTEST_MAX_PER_MINUTE" "6" in
          let? acl := ok_or (read_text acl) "reading the ACL" in
          let? access := from_acl acl clone_limit attest_limit (secs 60) now in
          let? cert := read cert in
          let? key := read key in
          let? ca := read ca in
          Ok {| ss_tls := Some {| tls_cert := cert; tls_key := key; tls_client_ca := ca |};
                ss_access := access; ss_max_connections := n |}
      | _, _, _, _ => Err "mTLS requires all four TLS settings"
      end
  end.

(** ** The client *)

(** [Endpoint::from_shared] and [Uri]: the scheme and the host. *)
Context (uri_parts : bytes -> option (option bytes * option bytes)).

Record ClientTls : Type := { ct_ca : bytes; ct_cert : bytes; ct_key : bytes; ct_name : option bytes }.
Record ClientEndpoint : Type := { ce_url : bytes; ce_tls : option ClientTls }.

Definition plaintext_allowed (insecure_dev : bool) (host : bytes) : bool :=
  insecure_dev || match parse_ip host with Some ip => is_loopback ip | None => false end.

(** [trim_matches(['[', ']'])]. *)
Definition trim_brackets (s : bytes) : bytes :=
  let strip s := strip_all (length s) [[x5b]; [x5d]] s in reverse (strip (reverse (strip s))).

Definition client_endpoint (insecure_dev : bool) (env : Env) (url : bytes) : str_result ClientEndpoint :=
  let? (scheme, host) := ok_or (uri_parts url) "invalid uri" in
  let? ca := value env "PARENT_TLS_CA_FILE" in
  let? cert := value env "PARENT_TLS_CERT_FILE" in
  let? key := value env "PARENT_TLS_KEY_FILE" in
  let? name := value env "PARENT_TLS_SERVER_NAME" in
  if bool_decide (scheme = Some (text "http")) then
    match plaintext_allowed insecure_dev (trim_brackets (default [] host)), ca, cert, key, name with
    | true, None, None, None, None => Ok {| ce_url := url; ce_tls := None |}
    | _, _, _, _, _ => Err "plaintext is allowed only for explicit loopback IP without TLS settings"
    end
  else if negb (bool_decide (scheme = Some (text "https"))) then Err "Parent endpoint requires https"
  else
    match ca, cert, key with
    | Some ca, Some cert, Some key =>
        let? ca := read ca in
        let? cert := read cert in
        let? key := read key in
        Ok {| ce_url := url; ce_tls := Some {| ct_ca := ca; ct_cert := cert; ct_key := key; ct_name := name |} |}
    | _, _, _ => Err "https Parent requires the TLS settings"
    end.

End Access.

(** ** Open sockets *)

(** [LimitedIncoming]: the permits left; a socket holds one until it is dropped. *)
Record Incoming : Type := { in_limit : Z; in_permits : Z }.

Definition bind_incoming (limit : Z) : option Incoming :=
  if limit =? 0 then None else Some {| in_limit := limit; in_permits := limit |}.

(** [poll_next] with a connection ready: served, or dropped at once. *)
Definition accept_socket (i : Incoming) : Incoming * bool :=
  if 0 <? in_permits i then ({| in_limit := in_limit i; in_permits := in_permits i - 1 |}, true) else (i, false).

Definition drop_socket (i : Incoming) : Incoming :=
  {| in_limit := in_limit i; in_permits := in_permits i + 1 |}.

(** ** The [Sign] requests at once (request_shape.rs, [ShapeService]) *)

Record ShapeLayer : Type := { sl_max_sign : Z; sl_permits : Z }.

Definition new_shape_layer (max_sign : Z) : ShapeLayer := {| sl_max_sign := max_sign; sl_permits := max_sign |}.

(** [method_of]: the method of a path of this service, or nothing. *)
Definition method_of (service path : bytes) : bytes :=
  default [] ((strip_prefix [x2f] path ≫= strip_prefix service) ≫= strip_prefix [x2f]).

(** [call] before the body is read: whether the request holds a permit. *)
Definition shape_call (l : ShapeLayer) (service path : bytes) : ShapeLayer * grpc_result bool :=
  if bool_decide (method_of service path = text "Sign") then
    if 0 <? sl_permits l then ({| sl_max_sign := sl_max_sign l; sl_permits := sl_permits l - 1 |}, Ok true)
    else (l, Err (status StatusUnavailable "the parent serves a limited number of Sign requests at once"))
  else (l, Ok false).

(** The end of a request that holds a permit. *)
Definition shape_done (l : ShapeLayer) : ShapeLayer :=
  {| sl_max_sign := sl_max_sign l; sl_permits := sl_permits l + 1 |}.

(** [LimitedSocket::poll_deadline] at [now]: the deadline is set after the handshake. *)
Definition poll_deadline (deadline : option Z) (now : Z) : bool :=
  match deadline with Some d => d <=? now | None => false end.

(** ** The access list, declaratively *)

Section AccessProps.
Context {T : TextCodecs}.

(** The entries of a text whose lines all parse. *)
Definition acl_entries (ls : list bytes) : list (bytes * Role) :=
  omap (fun l => match acl_line l with Ok e => e | _ => None end) ls.

Lemma acl_entries_cons l ls :
  acl_entries (l :: ls) = match acl_line l with Ok (Some e) => e :: acl_entries ls | _ => acl_entries ls end.
Proof. unfold acl_entries. cbn. by destruct (acl_line l) as [[?|]|?|]. Qed.

(** Adding the first entry of a list of distinct ones. *)
Lemma list_to_map_cons_union (pin : bytes) (role : Role) (es : list (bytes * Role)) (roles : gmap bytes Role) :
  pin ∉ es.*1 -> list_to_map ((pin, role) :: es) ∪ roles = list_to_map es ∪ <[pin := role]> roles.
Proof.
  intros Hni. cbn. rewrite <- insert_union_l. apply insert_union_r. by apply not_elem_of_list_to_map_1.
Qed.

Lemma acl_lines_ok ls roles roles' :
  (size roles <= 512)%nat ->
  acl_lines ls roles = Ok roles' <->
  Forall (fun l => exists e, acl_line l = Ok e) ls /\ NoDup (acl_entries ls).*1 /\
  (forall pin, pin ∈ (acl_entries ls).*1 -> roles !! pin = None) /\
  roles' = list_to_map (acl_entries ls) ∪ roles /\ (size roles' <= 512)%nat.
Proof.
  revert roles. induction ls as [|l ls IH]; intros roles Hs.
  { cbn. rewrite (left_id_L ∅ (∪)). split; [|naive_solver]. intros [= <-]. split_and!; try done; [apply NoDup_nil_2|].
    intros pin Hin. by apply not_elem_of_nil in Hin. }
  cbn [acl_lines]. rewrite Forall_cons, acl_entries_cons. destruct (acl_line l) as [[[pin role]|]|e|]; cbn [rbind].
  - rewrite fmap_cons, NoDup_cons. cbn [fst]. case_bool_decide as Hd.
    { split; [done|]. intros (_ & _ & Hn & _). rewrite (Hn pin) in Hd by (by left). by destruct Hd. }
    apply eq_None_not_Some in Hd. destruct (_ <? _)%nat eqn:Esz.
    + split; [done|]. intros (_ & [Hni _] & _ & -> & Hsz). rewrite list_to_map_cons_union in Hsz by done. exfalso.
      apply Nat.ltb_lt in Esz. apply (Nat.lt_irrefl 512). eapply Nat.lt_le_trans; [exact Esz|]. etrans; [|exact Hsz].
      rewrite <- !size_dom. apply subseteq_size. rewrite (dom_union_L (M := gmap bytes)). apply union_subseteq_r.
    + apply Nat.ltb_ge in Esz. rewrite IH by done. split.
      * intros (Hf & Hnd & Hn & -> & Hsz). assert (Hni : pin ∉ (acl_entries ls).*1).
        { intros Hin. specialize (Hn _ Hin). by rewrite lookup_insert_eq in Hn. }
        rewrite list_to_map_cons_union by done. split_and!; try done; [by eexists|].
        intros q [->|Hq]%elem_of_cons; [done|]. specialize (Hn _ Hq). by apply lookup_insert_None in Hn as [? _].
      * intros ((_ & Hf) & (Hni & Hnd) & Hn & -> & Hsz). rewrite list_to_map_cons_union in * by done. split_and!; try done.
        intros q Hq. rewrite lookup_insert_ne by (by intros ->). apply Hn. by right.
  - rewrite IH by done. split; [|naive_solver]. intros (Hf & ?). split; [|done]. split; [by eexists|done].
  - split; [done|]. by intros (([? ?] & _) & _).
  - split; [done|]. by intros (([? ?] & _) & _).
Qed.

(** Exactly which access lists are taken, and the roles they give: every line is
    blank, a comment or a 32-byte hash with a role, no hash comes twice, and there
    are between 1 and 512 of them. *)
Theorem from_acl_iff acl clone_limit attest_limit period now access :
  0 < clone_limit -> 0 < attest_limit -> 0 < period ->
  from_acl acl clone_limit attest_limit period now = Ok access <->
  let es := acl_entries (lines acl) in
  Forall (fun l => exists e, acl_line l = Ok e) (lines acl) /\ NoDup es.*1 /\ (1 <= length es <= 512)%nat /\
  access = Some {| p_roles := list_to_map es; p_period := period; p_clone := new_budget clone_limit now;
                   p_attest := new_budget attest_limit now |}.
Proof.
  intros H1 H2 H3. unfold from_acl. rewrite !(proj2 (Z.eqb_neq _ _)) by lia. cbn zeta.
  pose proof (acl_lines_ok (lines acl) ∅) as Hl. setoid_rewrite (right_id_L ∅ (∪)) in Hl.
  set (es := acl_entries (lines acl)) in *.
  assert (Hsz : NoDup es.*1 -> size (list_to_map es : gmap bytes Role) = length es).
  { intros Hnd. rewrite <- (length_fmap fst es), <- size_dom, dom_list_to_map_L.
    by rewrite size_list_to_set. }
  assert (He : NoDup es.*1 -> (list_to_map es : gmap bytes Role) = ∅ <-> length es = 0%nat).
  { intros Hnd. rewrite <- Hsz by done. symmetry. apply map_size_empty_iff. }
  split.
  - intros H. inv_bind H roles Hr. apply Hl in Hr as (Hf & Hnd & _ & -> & Hs); [|rewrite map_size_empty; lia].
    case_bool_decide as Hb; [done|]. injection H as <-. rewrite He in Hb by done. rewrite Hsz in Hs by done.
    split_and!; try done; lia.
  - intros (Hf & Hnd & Hs & ->). rewrite (proj2 (Hl (list_to_map es) ltac:(rewrite map_size_empty; lia))).
    + cbn [rbind]. rewrite bool_decide_false; [done|]. rewrite He by done. lia.
    + split_and!; try done. rewrite Hsz by done. lia.
Qed.

(** ** Who gets through *)

Context (service_name : bytes) (sha256 : bytes -> bytes) (read_file read_text : bytes -> option bytes).

#[local] Abbreviation auth := (authorize service_name sha256).

Lemma strip_prefix_ok pre str rest : strip_prefix pre str = Some rest -> str = pre ++ rest.
Proof.
  unfold strip_prefix, starts_with. case_bool_decide as Hp; [|done]. intros [= <-]. rewrite <- Hp at 1. by rewrite take_drop.
Qed.

(** A call keeps the roles, the period and the limits. *)
Lemma authorize_frame p certs path now restart a' r :
  auth (Some p) certs path now restart = (a', r) ->
  exists p', a' = Some p' /\ p_roles p' = p_roles p /\ p_period p' = p_period p /\
    b_limit (p_clone p') = b_limit (p_clone p) /\ b_limit (p_attest p') = b_limit (p_attest p).
Proof.
  assert (Hb : forall b period name b' x, charge b period name now restart = (b', x) -> b_limit b' = b_limit b).
  { intros b period name b' x. unfold charge. destruct (poisoned _); [by intros [= <- _]|].
    destruct (_ <=? win_used _); by intros [= <- _]. }
  unfold authorize. destruct (rbind _ _) as [method|e|]; [|by intros [= <- <-]; eexists|by intros [= <- <-]; eexists].
  repeat case_bool_decide; try (intros [= <- <-]; by eexists).
  all: match goal with |- context [charge ?b ?q ?n ?t ?u] => destruct (charge b q n t u) as [b' x] eqn:Ec end.
  all: intros [= <- <-]; eexists; split_and!; try done; by eapply Hb.
Qed.

Lemma authorize_ok p certs path now restart a' :
  auth (Some p) certs path now restart = (a', Ok tt) ->
  exists leaf rest role method,
    certs = Some (leaf :: rest) /\ p_roles p !! sha256 leaf = Some role /\
    path = method_prefix service_name ++ method /\ role_allows role method = true.
Proof.
  unfold authorize. destruct (rbind _ _) as [method|e|] eqn:E; [|done|done]. intros _.
  inv_bind E cs Hc. inv_bind E leaf Hl. inv_bind E role Hr. inv_bind E m Hm.
  apply ok_or_ok in Hc, Hl, Hr, Hm. destruct cs as [|leaf' rest]; [done|]. injection Hl as ->.
  apply strip_prefix_ok in Hm. exists leaf, rest, role, m. split_and!; try done. by destruct (role_allows _ _).
Qed.

(** One call, whoever makes it. *)
Definition auth_step (a a' : AccessLayer) : Prop :=
  exists certs path now restart r, auth a certs path now restart = (a', r).

Lemma auth_steps_roles p a :
  rtc auth_step (Some p) a -> exists p', a = Some p' /\ p_roles p' = p_roles p.
Proof.
  intros H. remember (Some p) as a0 eqn:E0. revert p E0. induction H as [a|a a1 a2 Hs _ IH]; intros p ->; [by exists p|].
  destruct Hs as (certs & path & now & restart & r & Hs). apply authorize_frame in Hs as (p1 & -> & E1 & _).
  destruct (IH p1 eq_refl) as (p2 & -> & E2). exists p2. split; [done|congruence].
Qed.

(** A setting that is there is not empty. *)
Lemma value_some env key v : value env key = Ok (Some v) -> env key = Ok v /\ v <> [].
Proof. unfold value. destruct (env key) as [x|[]|]; try done. case_bool_decide; [done|]. by intros [= ->]. Qed.

Lemma per_minute_bounds env key d n : per_minute env key d = Ok n -> 1 <= n <= 10000.
Proof.
  unfold per_minute. intros H. inv_bind H v Hv. inv_bind H m Hm. destruct (_ && _) eqn:E; [|done]. injection H as <-.
  zbool. lia.
Qed.

(** The settings of a server that does not listen on a loopback address. *)
Lemma server_from_env_open env bind now s :
  server_from_env read_file read_text env bind now = Ok s -> is_loopback bind = false ->
  is_Some (ss_tls s) /\ 1 <= ss_max_connections s <= 4096 /\
  exists file acl clone attest p,
    env "GRPC_TLS_ACL_FILE" = Ok file /\ read_text file = Some acl /\
    (per_minute env "GRPC_CLONE_MAX_PER_MINUTE" "30" = Ok clone /\ 1 <= clone <= 10000) /\
    (per_minute env "GRPC_ATTEST_MAX_PER_MINUTE" "6" = Ok attest /\ 1 <= attest <= 10000) /\
    from_acl acl clone attest (secs 60) now = Ok (Some p) /\ ss_access s = Some p.
Proof.
  unfold server_from_env. intros H Hb. inv_bind H n Hn. inv_bind H cert H1. inv_bind H key H2. inv_bind H ca H3.
  inv_bind H acl H4. inv_bind H insecure H5. rewrite Hb in H. destruct insecure as [v|].
  { by destruct (negb _). }
  destruct cert as [cert|]; [|done]. destruct key as [key|]; [|done]. destruct ca as [ca|]; [|done].
  destruct acl as [file|]; [|done]. inv_bind H clone Hc. inv_bind H attest Ha. inv_bind H acl Hacl. inv_bind H access Hacc.
  inv_bind H c Hc'. inv_bind H k Hk. inv_bind H r Hr. injection H as <-. cbn. apply per_minute_bounds in Hc as Hc2, Ha as Ha2.
  apply value_some in H4 as [H4 _]. apply ok_or_ok in Hacl.
  assert (Hp : exists p, access = Some p) by (apply from_acl_iff in Hacc as (_ & _ & _ & ->); [by eexists|lia..|done]).
  destruct Hp as [p ->]. split; [by eexists|]. split.
  - unfold max_connections in Hn. inv_bind Hn v Hv. inv_bind Hn m Hm. destruct (_ && _) eqn:E; [|done].
    injection Hn as <-. zbool. lia.
  - by exists file, acl, clone, attest, p.
Qed.

(** C18: the perimeter is closed.  A server that listens beyond the loopback takes only
    TLS with client certificates, and whatever calls came before, a call reaches a handler
    only from a client whose leaf certificate hashes to a line of the access list, with
    a role that this line gives: the three read methods for every role, [Clone] for the
    clone operator, [Sign] for the listener, and no other method. *)
Theorem perimeter_closed env bind now0 s a certs path now restart a' :
  server_from_env read_file read_text env bind now0 = Ok s -> is_loopback bind = false ->
  rtc auth_step (ss_access s) a -> auth a certs path now restart = (a', Ok tt) ->
  is_Some (ss_tls s) /\
  exists file acl line leaf rest role method,
    env "GRPC_TLS_ACL_FILE" = Ok file /\ read_text file = Some acl /\
    line ∈ lines acl /\ acl_line line = Ok (Some (sha256 leaf, role)) /\ certs = Some (leaf :: rest) /\
    path = method_prefix service_name ++ method /\
    (method ∈ [text "PublicKey"; text "AttestedPublicKey"; text "GetLastSavedBlock"] \/
     role = CloneOperator /\ method = text "Clone" \/ role = Listener /\ method = text "Sign").
Proof.
  intros Hs Hb Hr Ha. destruct (server_from_env_open _ _ _ _ Hs Hb) as (Htls & _ & file & acl & cl & at' & p & Hf & Hacl & Hcl & Hat & Hp & E).
  split; [done|]. rewrite E in Hr. apply auth_steps_roles in Hr as (p1 & -> & Er).
  apply authorize_ok in Ha as (leaf & rest & role & method & Hc & Hrole & Hpath & Hallow).
  apply from_acl_iff in Hp as (Hall & Hnd & _ & Ep); [|lia..|done]. injection Ep as ->. rewrite Er in Hrole. cbn in Hrole.
  apply elem_of_list_to_map_2 in Hrole. unfold acl_entries in Hrole. apply list_elem_of_omap in Hrole as (line & Hl & Hline).
  exists file, acl, line, leaf, rest, role, method. split_and!; try done.
  - destruct (acl_line line) as [e| |]; [by rewrite Hline|done|done].
  - unfold role_allows, is_read in Hallow. apply orb_true_iff in Hallow as [Hm|Hm]; [left; by apply bool_decide_eq_true in Hm|].
    right. destruct role; [left|right|done]; apply bool_decide_eq_true in Hm; done.
Qed.

(** ** How often the two expensive calls get through *)

Record Call : Type := { c_certs : option (list bytes); c_path : bytes; c_now : Z; c_restart : Z }.

(** The calls of the method that pass, in order. *)
Fixpoint granted (method : bytes) (a : AccessLayer) (calls : list Call) : Z :=
  match calls with
  | [] => 0
  | c :: calls =>
      let '(a, r) := auth a (c_certs c) (c_path c) (c_now c) (c_restart c) in
      (match r with
       | Ok _ => if bool_decide (c_path c = method_prefix service_name ++ method) then 1 else 0
       | _ => 0
       end) + granted method a calls
  end.

(** The budget a method is charged to. *)
Definition budget_of (method : bytes) (p : Policy) : Budget :=
  if bool_decide (method = text "Clone") then p_clone p else p_attest p.

(** Its limit in the settings. *)
Definition configured_limit (env : Env) (method : bytes) : str_result Z :=
  if bool_decide (method = text "Clone") then per_minute env "GRPC_CLONE_MAX_PER_MINUTE" "30"
  else per_minute env "GRPC_ATTEST_MAX_PER_MINUTE" "6".

Definition metered (method : bytes) : Prop := method = text "Clone" \/ method = text "AttestedPublicKey".

(** One call, seen from the budget of a metered method: it is left alone, or charged. *)
Lemma authorize_budget method p c a' r :
  metered method -> auth (Some p) (c_certs c) (c_path c) (c_now c) (c_restart c) = (a', r) ->
  exists p', a' = Some p' /\ p_period p' = p_period p /\
    (budget_of method p' = budget_of method p /\
       (forall u, r = Ok u -> c_path c <> method_prefix service_name ++ method) \/
     exists name, charge (budget_of method p) (p_period p) name (c_now c) (c_restart c) = (budget_of method p', r)).
Proof.
  intros Hm H. destruct (authorize_frame _ _ _ _ _ _ _ H) as (p' & -> & _ & Ep & _). exists p'. split_and!; [done..|].
  unfold authorize in H. destruct (rbind _ _) as [m|e|] eqn:E;
    [|injection H as <- <-; by left..].
  assert (Hpath : c_path c = method_prefix service_name ++ m).
  { inv_bind E cs Hc. inv_bind E leaf Hl. inv_bind E role Hr. inv_bind E m' Hm'. apply ok_or_ok in Hm'.
    apply strip_prefix_ok in Hm'. destruct (role_allows _ _); [|done]. by injection E as <-. }
  case_bool_decide as H1; [|case_bool_decide as H2].
  - subst m. destruct (charge _ _ _ _ _) as [b x] eqn:Ec. injection H as <- <-. destruct Hm as [->| ->].
    + right. exists "clone". unfold budget_of. by rewrite bool_decide_true by done.
    + left. split; [done|]. rewrite Hpath. intros _ _ Heq%app_inv_head. vm_compute in Heq. discriminate Heq.
  - subst m. destruct (charge _ _ _ _ _) as [b x] eqn:Ec. injection H as <- <-. destruct Hm as [->| ->].
    + left. split; [done|]. rewrite Hpath. intros _ _ Heq%app_inv_head. vm_compute in Heq. discriminate Heq.
    + right. exists "attestation". done.
  - injection H as <- <-. left. split; [done|]. rewrite Hpath. intros _ _ ->%app_inv_head. by destruct Hm.
Qed.

Definition passed (r : grpc_result unit) : Z := match r with Ok _ => 1 | _ => 0 end.

Definition window_ok (b : Budget) : Prop := 0 <= win_used (contents (b_window b)) <= b_limit b.

(** One charge: in its window, in a new one, or refused for a poisoned lock. *)
Lemma charge_cases b period name now restart b' r :
  0 < period -> 0 < b_limit b -> window_ok b -> charge b period name now restart = (b', r) ->
  let w := contents (b_window b) in
  let w' := contents (b_window b') in
  b_limit b' = b_limit b /\ window_ok b' /\
  (win_start w' = win_start w /\ win_used w' = win_used w + passed r \/
   win_start w' = restart /\ win_start w + period <= now /\ win_used w' = passed r) /\
  (win_start w + period <= now -> w' = w /\ passed r = 0 \/ win_start w' = restart /\ win_used w' = passed r).
Proof.
  unfold charge, window_ok. intros Hp Hl Hw. destruct (poisoned _).
  { intros [= <- <-]. cbn. split_and!; try lia. by left. }
  destruct (Z.leb_spec period (sat_sub now (win_start (contents (b_window b))))) as [Hr|Hr]; unfold sat_sub in Hr.
  - cbn [win_used win_start]. rewrite (proj2 (Z.leb_gt (b_limit b) 0)) by lia. intros [= <- <-]. cbn. split_and!; try lia.
  - destruct (Z.leb_spec (b_limit b) (win_used (contents (b_window b)))); intros [= <- <-]; cbn; split_and!; lia.
Qed.

Section Span.
Context (method : bytes) (Hmethod : metered method) (lim period from until : Z).

Definition in_span (c : Call) : Prop := from <= c_now c < until /\ c_now c <= c_restart c.

(** A policy whose budget for the method is sound, with its last window from [start] and [used] of it. *)
Definition policy_at (p : Policy) (start used : Z) : Prop :=
  p_period p = period /\ b_limit (budget_of method p) = lim /\ window_ok (budget_of method p) /\
  win_start (contents (b_window (budget_of method p))) = start /\
  win_used (contents (b_window (budget_of method p))) = used.

(** One call of a span: the window goes on, or a new one starts with it. *)
Lemma call_in_span p start used c calls :
  0 < period -> 0 < lim -> in_span c -> policy_at p start used ->
  exists p' start' used' n, granted method (Some p) (c :: calls) = n + granted method (Some p') calls /\
    policy_at p' start' used' /\ 0 <= n /\
    (start' = start /\ n <= used' - used \/ start + period <= c_now c /\ c_now c <= start' /\ n <= used') /\
    (start + period <= from -> n = 0 /\ start' = start \/ c_now c <= start' /\ n <= used').
Proof.
  intros Hp Hl [Hc Hrs] (Ep & El & Hw & Es & Eu). cbn [granted].
  destruct (auth _ _ _ _ _) as [a' r] eqn:Ha. pose proof (authorize_budget _ _ _ _ _ Hmethod Ha) as (p' & -> & Ep' & Hcase).
  set (n := match r with Ok _ => _ | _ => 0 end).
  assert (Hn : 0 <= n <= passed r) by (subst n; unfold passed; destruct r; [case_bool_decide; lia|lia|lia]).
  destruct Hcase as [[Eb Hno]|(name & Hch)].
  - assert (n = 0) as ->. { subst n. destruct r as [u|?|]; [|done|done]. rewrite bool_decide_false by (by eapply Hno). done. }
    exists p', start, used, 0. unfold policy_at. rewrite Eb, Ep'. split_and!; try done; lia.
  - apply charge_cases in Hch as (El' & Hw' & Hcs & Hold); [|lia|lia|done].
    exists p', (win_start (contents (b_window (budget_of method p')))), (win_used (contents (b_window (budget_of method p')))), n.
    rewrite Es, Eu, Ep in Hcs. rewrite Es, Ep in Hold. split; [done|]. split; [by split_and!; rewrite ?Ep', ?El'|].
    split; [lia|]. split; [lia|]. intros Hf. destruct (Hold ltac:(lia)) as [[Ew Hz]|[Hr Hu]]; [left|right; lia].
    rewrite Ew. lia.
Qed.

(** From a window whose successors [n] more periods cover. *)
Lemma granted_in_windows calls p start used n :
  0 < period -> 0 < lim -> Forall in_span calls -> policy_at p start used -> 0 <= n -> until <= start + (n + 1) * period ->
  granted method (Some p) calls <= lim - used + n * lim.
Proof.
  intros Hp Hl Hf. revert p start used n. induction Hf as [|c calls Hc Hf IH]; intros p start used n Hpol Hn Hu.
  { cbn. destruct Hpol as (_ & E & Hw & _ & Eu). unfold window_ok in Hw. nia. }
  destruct (call_in_span p start used c calls Hp Hl Hc Hpol) as (p' & start' & used' & k & -> & Hpol' & Hk & [[-> Hle]|(Hnew & Hs & Hle)] & _).
  - specialize (IH p' start used' n Hpol' Hn Hu). lia.
  - destruct Hc as [Hc _]. assert (1 <= n) by nia. specialize (IH p' start' used' (n - 1) Hpol' ltac:(lia) ltac:(nia)).
    destruct Hpol as (_ & E & Hw & _ & Eu). unfold window_ok in Hw. nia.
Qed.

Lemma granted_bounded calls p start used k :
  0 < period -> 0 < lim -> Forall in_span calls -> policy_at p start used -> 0 <= k -> until <= from + k * period ->
  granted method (Some p) calls <= (k + 1) * lim.
Proof.
  intros Hp Hl Hf Hpol Hk Hu. destruct (Z.lt_ge_cases from (start + period)) as [Hs|Hs].
  { pose proof (granted_in_windows calls p start used k Hp Hl Hf Hpol Hk ltac:(nia)).
    destruct Hpol as (_ & E & Hw & _ & Eu). unfold window_ok in Hw. nia. }
  revert p start used Hpol Hs. induction Hf as [|c calls Hc Hf IH]; intros p start used Hpol Hs; [cbn; nia|].
  destruct (call_in_span p start used c calls Hp Hl Hc Hpol) as (p' & start' & used' & j & -> & Hpol' & Hj & _ & Hcase).
  destruct (Hcase Hs) as [[-> ->]|[Hst Hle]]; [specialize (IH p' start used' Hpol' Hs); lia|].
  destruct Hc as [Hc _]. assert (1 <= k) by nia.
  pose proof (granted_in_windows calls p' start' used' (k - 1) Hp Hl Hf Hpol' ltac:(lia) ltac:(nia)). nia.
Qed.

End Span.

(** C21: the enclave is not flooded through the perimeter.  Whatever clients call, and in
    whatever order, a server with an access list lets at most [(k + 1)] times the
    configured limit of [Clone] calls, and of [AttestedPublicKey] calls, through in any
    [k] minutes: both need the attestation module of the enclave. *)
Theorem expensive_calls_bounded env bind now0 s a method k from calls :
  server_from_env read_file read_text env bind now0 = Ok s -> is_loopback bind = false ->
  rtc auth_step (ss_access s) a -> metered method -> 0 <= k ->
  Forall (in_span from (from + k * secs 60)) calls ->
  exists lim, configured_limit env method = Ok lim /\ 1 <= lim <= 10000 /\ granted method a calls <= (k + 1) * lim.
Proof.
  intros Hs Hb Hr Hm Hk Hf.
  destruct (server_from_env_open _ _ _ _ Hs Hb) as (_ & _ & file & acl & cl & at' & p & _ & _ & [Ecl Hcl] & [Eat Hat] & Hp & E).
  apply from_acl_iff in Hp as (_ & _ & _ & Ep); [|lia..|done]. injection Ep as ->. rewrite E in Hr.
  set (lim := if bool_decide (method = text "Clone") then cl else at').
  assert (Hlim : configured_limit env method = Ok lim /\ 1 <= lim <= 10000)
    by (unfold configured_limit, lim; by case_bool_decide).
  assert (Hinv : exists p, a = Some p /\ p_period p = secs 60 /\ b_limit (budget_of method p) = lim /\
                   window_ok (budget_of method p)).
  { clear Hf. remember (Some _) as a0 eqn:E0 in Hr. assert (H0 : exists p, a0 = Some p /\ p_period p = secs 60 /\
      b_limit (budget_of method p) = lim /\ window_ok (budget_of method p)).
    { eexists. split; [exact E0|]. unfold budget_of, window_ok, lim. case_bool_decide; cbn; split_and!; try done; lia. }
    clear E0 E. induction Hr as [|a0 a1 a2 Hstep _ IH]; [done|]. apply IH. destruct H0 as (p & -> & Hper & Hl & Hw).
    destruct Hstep as (certs & path & now & restart & r & Hstep).
    destruct (authorize_budget method p {| c_certs := certs; c_path := path; c_now := now; c_restart := restart |} _ _ Hm Hstep)
      as (p' & -> & Ep' & [[Eb _]|(name & Hch)]); exists p'; rewrite Ep'.
    - by rewrite Eb.
    - apply charge_cases in Hch as (-> & Hw' & _); [done|by rewrite Hper|lia|done]. }
  destruct Hinv as (p & -> & Hper & Hl & Hw). exists lim. split; [by apply Hlim|]. split; [by apply Hlim|]. rewrite <- Hl in *.
  eapply (granted_bounded method Hm _ (secs 60) from); [done|lia|exact Hf|by split_and!|done|done].
Qed.

(** A call arrives, or one of the [Sign] requests in flight ends. *)
Inductive shape_step : ShapeLayer * Z -> ShapeLayer * Z -> Prop :=
| shape_arrives l l' held service path r :
    shape_call l service path = (l', r) -> shape_step (l, held) (l', match r with Ok true => held + 1 | _ => held end)
| shape_ends l held : 0 < held -> shape_step (l, held) (shape_done l, held - 1).

(** At most the configured number of [Sign] requests runs, a [Sign] is refused only when
    all of them run, and no other call is ever refused. *)
Lemma sign_requests_bounded max l held service path l' r :
  0 <= max -> rtc shape_step (new_shape_layer max, 0) (l, held) -> shape_call l service path = (l', r) ->
  0 <= held <= max /\
  match r with
  | Ok permit => permit = bool_decide (method_of service path = text "Sign")
  | _ => method_of service path = text "Sign" /\ held = max
  end.
Proof.
  intros Hm Hr Hc.
  assert (Hinv : forall c, rtc shape_step (new_shape_layer max, 0) c -> 0 <= sl_permits c.1 /\ 0 <= c.2 /\ sl_permits c.1 + c.2 = max).
  { clear Hr Hc. intros c H. remember (new_shape_layer max, 0) as c0 eqn:E.
    assert (H0 : 0 <= sl_permits c0.1 /\ 0 <= c0.2 /\ sl_permits c0.1 + c0.2 = max) by (subst; cbn; lia). clear E.
    induction H as [|x y z Hs _ IH]; [done|]. apply IH. destruct Hs as [l0 l1 h s0 p0 r0 Hcall|l0 h Hh]; cbn [fst snd] in *;
      [|cbn [shape_done sl_permits]; lia].
    unfold shape_call in Hcall. case_bool_decide; [|injection Hcall as <- <-; done].
    destruct (Z.ltb_spec 0 (sl_permits l0)); injection Hcall as <- <-; cbn [sl_permits]; lia. }
  destruct (Hinv _ Hr) as (H1 & H2 & H3). cbn in *. split; [lia|].
  unfold shape_call in Hc. destruct (bool_decide _) eqn:E; [|by injection Hc as <- <-].
  destruct (Z.ltb_spec 0 (sl_permits l)); injection Hc as <- <-; [done|]. apply bool_decide_eq_true in E. split; [done|lia].
Qed.

(** The most sockets are open that the setting allows. *)
Lemma sockets_bounded limit i0 i :
  0 <= limit -> bind_incoming limit = Some i0 ->
  rtc (fun a b => b = (accept_socket a).1 \/ in_permits a < in_limit a /\ b = drop_socket a) i0 i ->
  0 <= in_limit i - in_permits i <= limit.
Proof.
  unfold bind_incoming. intros Hl. destruct (Z.eqb_spec limit 0); [done|]. intros [= <-] H.
  enough (in_limit i = limit /\ 0 <= in_permits i <= limit) by lia.
  revert H. apply (rtc_ind_r (fun i => in_limit i = limit /\ 0 <= in_permits i <= limit)); [cbn; lia|].
  intros a b _ Hs [H1 H2]. destruct Hs as [->|[Hlt ->]]; [|cbn; lia]. unfold accept_socket.
  destruct (Z.ltb_spec 0 (in_permits a)); cbn; lia.
Qed.

(** A client talks plaintext only to an explicit loopback address, and only when no TLS
    setting is there. *)
Theorem client_never_downgrades uri_parts env url e :
  client_endpoint read_file uri_parts false env url = Ok e -> ce_tls e = None ->
  exists host ip, uri_parts url = Some (Some (text "http"), host) /\
    parse_ip (trim_brackets (default [] host)) = Some ip /\ is_loopback ip = true /\
    Forall (fun key => env key = Err NotPresent)
      ["PARENT_TLS_CA_FILE"; "PARENT_TLS_CERT_FILE"; "PARENT_TLS_KEY_FILE"; "PARENT_TLS_SERVER_NAME"].
Proof.
  assert (Hv : forall key, value env key = Ok None -> env key = Err NotPresent).
  { intros key. unfold value. destruct (env key) as [x|[]|]; try done. by case_bool_decide. }
  unfold client_endpoint. intros H Ht. inv_bind H x Hx. destruct x as [scheme host]. apply ok_or_ok in Hx.
  inv_bind H ca H1. inv_bind H cert H2. inv_bind H key H3. inv_bind H name H4. case_bool_decide as Hs.
  - subst scheme. unfold plaintext_allowed in H. cbn [orb] in H. destruct (parse_ip _) as [ip|] eqn:Eip; [|done].
    destruct (is_loopback ip) eqn:El; [|done]. destruct ca, cert, key, name; try done.
    exists host, ip. split_and!; try done. by repeat constructor; apply Hv.
  - destruct (negb _); [done|]. destruct ca; [|done]. destruct cert; [|done]. destruct key; [|done].
    inv_bind H c Hc. inv_bind H c' Hc'. inv_bind H k Hk. injection H as <-. done.
Qed.

End AccessProps.

(** ** A server with one listener and one clone operator *)

Module Sample.

Fixpoint read_hex (s : bytes) : option bytes :=
  match s with
  | [] => Some []
  | a :: b :: s => h ← hex_value a; l ← hex_value b; rest ← read_hex s; Some (z2b (16 * h + l) :: rest)
  | _ => None
  end.

#[global] Instance codecs : TextCodecs := {
  hex_encode := id; hex_decode := read_hex; base64_encode := id; base64_decode := Some
}.

Definition fingerprint (cert : bytes) : bytes := take 32 (cert ++ replicate 32 x11).

Definition env (key : string) : res VarError bytes :=
  if bool_decide (key = "GRPC_TLS_CERT_FILE"%string) then Ok (text "cert.pem")
  else if bool_decide (key = "GRPC_TLS_KEY_FILE"%string) then Ok (text "key.pem")
  else if bool_decide (key = "GRPC_TLS_CLIENT_CA_FILE"%string) then Ok (text "ca.pem")
  else if bool_decide (key = "GRPC_TLS_ACL_FILE"%string) then Ok (text "acl")
  else if bool_decide (key = "GRPC_CLONE_MAX_PER_MINUTE"%string) then Ok (text "1")
  else Err NotPresent.

Definition pin (b : string) : bytes := concat (replicate 32 (text b)).

Definition acl : bytes :=
  text "# signers" ++ [x0d; x0a] ++ pin "11" ++ text " listener # node 1" ++ [x0a; x0a] ++
  text "  " ++ pin "2a" ++ [x09] ++ text "clone-operator" ++ [x0a].

Definition no_file (path : bytes) : option bytes := Some [].
Definition acl_file (path : bytes) : option bytes := if bool_decide (path = text "acl") then Some acl else None.

Definition service : bytes := text "parent.ParentService".

Definition security : str_result ServerSecurity := server_from_env no_file acl_file env (V4 [10; 0; 0; 1]) 0.

Definition access : AccessLayer := match security with Ok s => ss_access s | _ => None end.

Definition server : ServerSecurity :=
  {| ss_tls := Some {| tls_cert := []; tls_key := []; tls_client_ca := [] |}; ss_access := access;
     ss_max_connections := 64 |}.

Definition clone_call (now : Z) : Call :=
  {| c_certs := Some [replicate 32 x2a]; c_path := method_prefix service ++ text "Clone";
     c_now := secs now; c_restart := secs now |}.

(** The roles by method, the budget, and the loopback addresses. *)
Example sample_calls :
  let call certs method now := (authorize service fingerprint access certs (method_prefix service ++ text method) (secs now) (secs now)).2 in
  call (Some [[]]) "Sign" 1 = Ok tt /\ call (Some [[]]) "Clone" 1 = Err (status PermissionDenied "RPC not authorized") /\
  call None "PublicKey" 1 = Err (status Unauthenticated "client certificate required") /\
  call (Some [[x01]]) "PublicKey" 1 = Err (status PermissionDenied "client not authorized") /\
  granted service fingerprint (text "Clone") access [clone_call 1; clone_call 2; clone_call 61; clone_call 62] = 2 /\
  is_loopback <$> parse_ip (text "127.0.0.1") = Some true /\ is_loopback <$> parse_ip (text "::1") = Some true /\
  is_loopback <$> parse_ip (text "::ffff:127.0.0.1") = Some false /\ parse_ip (text "127.0.0.01") = None.
Proof. by vm_compute. Qed.

Lemma server_starts : server_from_env no_file acl_file env (V4 [10; 0; 0; 1]) 0 = Ok server.
Proof. vm_compute. reflexivity. Qed.

Lemma listener_signs :
  authorize service fingerprint access (Some [[]]) (method_prefix service ++ text "Sign") 0 0 = (access, Ok tt).
Proof. vm_compute. reflexivity. Qed.

Lemma perimeter_closed_witness :
  exists role, acl_line (pin "11" ++ text " listener # node 1") = Ok (Some (fingerprint [], role)) /\
    is_Some (ss_tls server) /\ role = Listener.
Proof.
  destruct (perimeter_closed service fingerprint no_file acl_file env (V4 [10; 0; 0; 1]) 0 server access (Some [[]])
    (method_prefix service ++ text "Sign") 0 0 access) as (Htls & file & acl' & line & leaf & rest & role & m & Hf & Ha & Hl & He & Hc & Hp & Hm);
    [exact server_starts|reflexivity|apply rtc_refl|exact listener_signs|].
  exists Listener. split; [by vm_compute|]. by split.
Defined.

Lemma expensive_calls_bounded_witness :
  exists lim, configured_limit env (text "Clone") = Ok lim /\ 1 <= lim <= 10000 /\
    granted service fingerprint (text "Clone") access [clone_call 1; clone_call 2; clone_call 61; clone_call 62] <= 3 * lim.
Proof.
  apply (expensive_calls_bounded service fingerprint no_file acl_file env (V4 [10; 0; 0; 1]) 0 server access (text "Clone") 2 0);
    [exact server_starts|reflexivity|apply rtc_refl|by left|done|].
  repeat constructor; by vm_compute.
Defined.

End Sample.
