(* ===== verification/GrpcServer.v ===== *)
(** * The gRPC service of the parent (src/parent/src/grpc_server.rs)

    Every call becomes one enclave request, and the enclave's answer a gRPC
    answer or a status.  The gRPC messages are those of a crate outside the
    repository: the records below have the fields that the service reads, and
    the numbers of [DataType] are a parameter.  A socket failure is an argument
    of the exchange. *)

From stdpp Require Import strings base numbers list gmap.
From S2P Require Import Dispatch LaunchConfig.
From S2P Require Import Prelude Errors RustText SpvTypes SpvServer SpvCrosscheck Attestation AttestedKeys ParentAttest.
From S2P Require Import Cloning EvmRelease GasTx RgbMint EvmDigest SignedResponses Perimeter.

#[local] Open Scope list_scope.
#[local] Open Scope Z_scope.

(** ** The messages of the enclave (enclave-proto) *)

Record WireEvmSource : Type := {
  ws_tx_hash : bytes;
  ws_event_valid : bool;
  ws_event_finalized : bool;
  ws_token : bytes;
  ws_recipient : bytes;
  ws_commission : Z;
  ws_funds_in_operation_id : bytes
}.

Record WireRgbSource : Type := {
  wr_consignment_valid : bool;
  wr_asset_id : string;
  wr_consignment : bytes;
  wr_consignment_hash : bytes;
  wr_merkle_proofs : list MerkleProofEntry;
  wr_commission : Z
}.

Record WireCcdSource : Type := { wc_tx_hash : bytes; wc_commission : Z }.

Record WireRgbDestination : Type := {
  wd_operation_idx : Z;
  wd_psbt_bytes : bytes;
  wd_psbt_output_amount : Z;
  wd_asset_id : string;
  wd_consignment : bytes;
  wd_consignment_hash : bytes;
  wd_fascia : bytes;
  wd_parent_fascia : bytes
}.

(** [EvmDestination] with the field that no handler reads. *)
Record WireEvmDestination : Type := { we_message : EvmDestinationMsg; we_calldata_commission : Z }.

Inductive WireSource : Type := EvmSourceMsg (s : WireEvmSource) | RgbSourceMsg (s : WireRgbSource) | CcdSourceMsg (s : WireCcdSource).
Inductive WireDestination : Type := EvmDest (d : WireEvmDestination) | RgbDest (d : WireRgbDestination).

Record WireSignRequest : Type := {
  wq_amount : Z;
  wq_source_network : option WireSource;
  wq_destination_network : option WireDestination
}.

(** [enclave_request::Request], the variants that the parent sends. *)
Inductive EnclaveRequest : Type :=
| AskSign (r : WireSignRequest)
| AskSignCcd (hash : bytes)
| AskSignRawDigest (r : SignRawDigestRequest)
| AskSignBtc (psbt_bytes : bytes)
| AskSignRightsRefill (r : SignRightsRefillRequest)
| AskGetPublicKey
| AskInitializeKey (r : InitializeKeyRequest)
| AskGetClone (r : GetCloneRequest)
| AskGetLastSavedBlock
| AskGetAttestedPublicKey (nonce : bytes)
| AskInitiateCloning (r : InitiateCloningRequest)
| AskSetClone (r : SetCloneRequest)
| AskHealth
| AskSetEndpoints (r : SetEndpointsRequest).

Inductive EnclaveResponse : Type :=
| GotInitializeKey (r : PublicKeysResponse)
| GotPublicKeys (r : PublicKeysResponse)
| GotEvmSignature (signature call_data : bytes)
| GotSignedPsbt (r : SignedResponses.Reply)
| GotRawDigestSig (signature : bytes)
| GotCcdSignature (signature public_key : bytes)
| GotGetClone (r : GetCloneResponse)
| GotLastSavedBlock (r : GetLastSavedBlockResponse)
| GotAttestedPublicKey (r : GetAttestedPublicKeyResponse)
| GotInitiateCloning (r : InitiateCloningResponse)
| GotSetClone
| GotHealth (r : HealthResponse)
| GotSetEndpoints
| GotError (code : Z) (message : bytes)
| GotOther.

(** ** The messages of the node *)

Inductive DataType : Type :=
| Transaction | EvmGasTx | BtcUtxo | RgbRightsRefill | CcdGovernance | Unspendable | OtherDataType.

#[export] Instance DataType_eq_dec : EqDecision DataType.
Proof. solve_decision. Defined.

Record CommonSignRequest : Type := { cm_src_network_id : Z; cm_dst_network_id : Z; cm_data_type : Z }.

(** [grpc_proto::MerkleProofEntry]. *)
Record NodeMerkleProof : Type := {
  nm_txid : bytes;
  nm_block_height : Z;
  nm_tx_position : Z;
  nm_merkle_path : list bytes
}.

Inductive Chain : Type :=
| ChainEvm (tx_hash funds_in_operation_id : bytes)
| ChainRgb (rgb_asset_id : string) (consignment consignment_hash : bytes) (merkle_proofs : list NodeMerkleProof)
| ChainCcd (tx_hash : bytes).

Record SourceProof : Type := {
  sp_amount : Z;
  sp_finalized : bool;
  sp_token : bytes;
  sp_recipient : bytes;
  sp_commission : Z;
  sp_chain : option Chain
}.

Record NodeLzRelease : Type := { nl_dst_eid : Z; nl_min_amount_ld : Z; nl_recipient : bytes }.

Record NodeBurnDestination : Type := {
  nb_version : Z;
  nb_destination_chain_id : Z;
  nb_dst_eid : Z;
  nb_recipient : bytes
}.

Record EvmPayload : Type := {
  ep_call_data : bytes;
  ep_nonce : Z;
  ep_deadline : Z;
  ep_chain_id : Z;
  ep_proxy_contract : bytes;
  ep_calldata_amount : Z;
  ep_calldata_commission : Z;
  ep_lz_release : option NodeLzRelease;
  ep_burn_destination : option NodeBurnDestination;
  ep_unsigned_tx : bytes
}.

Record RgbPayload : Type := {
  np_operation_idx : Z;
  np_psbt_bytes : bytes;
  np_psbt_output_amount : Z;
  np_rgb_asset_id : string;
  np_consignment : bytes;
  np_consignment_hash : bytes;
  np_fascia : bytes;
  np_parent_fascia : bytes
}.

Inductive Data : Type :=
| EvmData (p : EvmPayload)
| RgbData (p : RgbPayload)
| BtcData (psbt_bytes : bytes)
| CcdData (hash : bytes).

Record GrpcSignRequest : Type := {
  gq_common : option CommonSignRequest;
  gq_source : option SourceProof;
  gq_data : option Data
}.

Record SignatureResponse : Type := {
  sg_signer_network_id : Z;
  sg_signature : bytes;
  sg_call_data : bytes;
  sg_public_key : bytes
}.

(** ** Errors *)

Definition invalid {A : Type} (m : string) : grpc_result A := Err (status InvalidArgument m).

Definition FINALITY_PREFIX : bytes :=
  text "evm event pending finality: 1 signer node(s) have not seen the deposit finalized yet (".

(** [enclave_error_to_status]. *)
Definition enclave_error_to_status (code : Z) (message : bytes) : Status :=
  let with_code c := {| st_code := c; st_message := message |} in
  if code =? 2 then with_code StatusUnavailable
  else if code =? 3 then with_code FailedPrecondition
  else if code =? 4 then with_code InvalidArgument
  else if code =? 5 then with_code PermissionDenied
  else if code =? 6 then with_code AlreadyExists
  else if code =? 7 then with_code ResourceExhausted
  else if code =? 8 then {| st_code := FailedPrecondition; st_message := FINALITY_PREFIX ++ message ++ text ")" |}
  else {| st_code := StatusInternal; st_message := text "enclave error" |}.

Definition unexpected {A : Type} (rpc : string) : grpc_result A :=
  Err (status StatusInternal ("unexpected enclave response for " +:+ rpc)).

(** ** The exchange *)

Definition ENCLAVE_TIMEOUT : Z := secs 40.

Definition timed_out : Status := status DeadlineExceeded "enclave request timed out".

(** A failed socket call, or a message that does not decode. *)
Inductive ParentError : Type := IoTimeout | IoOther | NotIo.

Definition io_status (e : ParentError) (context : string) : Status :=
  match e with
  | IoTimeout => timed_out
  | IoOther => status StatusUnavailable context
  | NotIo => status StatusInternal context
  end.

(** [remaining]: at least a microsecond, or the deadline has passed. *)
Definition remaining (deadline now : Z) : option Z :=
  let left_over := sat_sub deadline now in
  if left_over =? 0 then None else Some (Z.max left_over 1000).

(** How an exchange of the worker goes. *)
Inductive Exchange : Type :=
| NoAddress
| ConnectFails (e : ParentError)
| WriteFails (e : ParentError)
| ReadFails (e : ParentError)
| Answers (r : option EnclaveResponse).

(** [exchange], from the start of the worker at [now]. *)
Definition exchange (deadline now : Z) (x : Exchange) : grpc_result (option EnclaveResponse) :=
  match x with
  | NoAddress => Err (status StatusUnavailable "enclave addr resolve failed")
  | _ =>
      match remaining deadline now with
      | None => Err timed_out
      | Some _ =>
          match x with
          | ConnectFails IoTimeout => Err timed_out
          | ConnectFails _ => Err (status StatusUnavailable "enclave connection failed")
          | WriteFails e => Err (io_status e "enclave write failed")
          | ReadFails e => Err (io_status e "enclave read failed")
          | Answers r => Ok r
          | NoAddress => Err (status StatusUnavailable "enclave addr resolve failed")
          end
      end
  end.

(** [send_within]: the worker ends in time, panics, or the outer timer fires. *)
Inductive Worker : Type := Ends (now : Z) (x : Exchange) | JoinFails | TimerFires.

Definition send_within (start : Z) (w : Worker) : grpc_result (option EnclaveResponse) :=
  match w with
  | Ends now x => exchange (start + ENCLAVE_TIMEOUT) now x
  | JoinFails => Err (status StatusInternal "spawn_blocking join failed")
  | TimerFires => Err timed_out
  end.

(** ** Sign *)

Section Service.
Context {T : TextCodecs}.
(** [DataType::try_from]. *)
Context (data_type_of : Z -> option DataType).

Definition decode_hex_field (field : string) (v : bytes) : grpc_result bytes :=
  if bool_decide (v = []) then Ok []
  else ok_or (hex_decode (strip_0x v)) (status InvalidArgument (field +:+ " must be hex bytes")).

Definition decode_hex_or_raw_field (v : bytes) : bytes := default v (hex_decode (strip_0x v)).

Definition enclave_merkle_proof (proof : NodeMerkleProof) : MerkleProofEntry := {|
  mp_txid := nm_txid proof;
  mp_block_height := nm_block_height proof;
  mp_tx_position := nm_tx_position proof;
  mp_merkle_path := nm_merkle_path proof
|}.

Definition enclave_source_network (source : SourceProof) : grpc_result WireSource :=
  match sp_chain source with
  | Some (ChainEvm tx operation_id) =>
      if negb (zlen operation_id =? 32) then invalid "EvmSource.funds_in_operation_id must be 32 bytes"
      else
        let? token := decode_hex_field "SourceProof.token" (sp_token source) in
        Ok (EvmSourceMsg {|
          ws_tx_hash := tx; ws_event_valid := true; ws_event_finalized := sp_finalized source; ws_token := token;
          ws_recipient := decode_hex_or_raw_field (sp_recipient source); ws_commission := sp_commission source;
          ws_funds_in_operation_id := operation_id |})
  | Some (ChainRgb asset consignment hash proofs) =>
      Ok (RgbSourceMsg {|
        wr_consignment_valid := true; wr_asset_id := asset; wr_consignment := consignment;
        wr_consignment_hash := hash; wr_merkle_proofs := map enclave_merkle_proof proofs; wr_commission := sp_commission source |})
  | Some (ChainCcd tx) => Ok (CcdSourceMsg {| wc_tx_hash := tx; wc_commission := sp_commission source |})
  | None => invalid "source proof has no chain-specific evidence"
  end.

Definition enclave_lz_release (lr : NodeLzRelease) : LzReleaseParams := {|
  lzr_dst_eid := nl_dst_eid lr;
  lzr_min_amount_ld := nl_min_amount_ld lr;
  lzr_recipient := nl_recipient lr
|}.

Definition enclave_burn_destination (bd : NodeBurnDestination) : BurnDestinationRecord := {|
  bd_version := nb_version bd;
  bd_destination_chain_id := nb_destination_chain_id bd;
  bd_dst_eid := nb_dst_eid bd;
  bd_recipient := nb_recipient bd
|}.

(** [unreachable!] for the data of the other routes. *)
Definition enclave_destination_network (d : Data) : grpc_result WireDestination :=
  match d with
  | EvmData p => Ok (EvmDest {|
      we_message := {|
        ed_call_data := ep_call_data p; ed_nonce := ep_nonce p; ed_deadline := ep_deadline p;
        ed_chain_id := ep_chain_id p; ed_proxy_contract := ep_proxy_contract p;
        ed_calldata_amount := ep_calldata_amount p;
        ed_lz_release := enclave_lz_release <$> ep_lz_release p;
        ed_burn_destination := enclave_burn_destination <$> ep_burn_destination p |};
      we_calldata_commission := ep_calldata_commission p |})
  | RgbData p => Ok (RgbDest {|
      wd_operation_idx := np_operation_idx p; wd_psbt_bytes := np_psbt_bytes p;
      wd_psbt_output_amount := np_psbt_output_amount p; wd_asset_id := np_rgb_asset_id p;
      wd_consignment := np_consignment p; wd_consignment_hash := np_consignment_hash p;
      wd_fascia := np_fascia p; wd_parent_fascia := np_parent_fascia p |})
  | BtcData _ | CcdData _ => Panic
  end.

Definition validate_cross_network_route (source : WireSource) (destination : WireDestination) : grpc_result unit :=
  match source, destination with
  | EvmSourceMsg _, EvmDest _ | RgbSourceMsg _, RgbDest _ => invalid "source and destination networks must be different"
  | _, _ => Ok tt
  end.

(** [rights_refill_request]. *)
Definition rights_refill_request (req : GrpcSignRequest) : grpc_result EnclaveRequest :=
  if bool_decide (is_Some (gq_source req)) then invalid "RGB_RIGHTS_REFILL carries no source proof"
  else
    match gq_data req with
    | Some (RgbData p) =>
        Ok (AskSignRightsRefill {| rr_psbt_bytes := np_psbt_bytes p; rr_asset_id := np_rgb_asset_id p;
                                   rr_fascia := np_fascia p; rr_parent_fascia := np_parent_fascia p |})
    | _ => invalid "RGB_RIGHTS_REFILL sign requires RgbData with the PSBT, its fascia and its parent fascia"
    end.

(** The enclave request of a bridge transaction. *)
Definition transaction_request (req : GrpcSignRequest) : grpc_result EnclaveRequest :=
  let? source := ok_or (gq_source req) (status InvalidArgument "SignRequest.source is missing") in
  let? destination :=
    match gq_data req with
    | Some (EvmData p) => enclave_destination_network (EvmData p)
    | Some (RgbData p) => enclave_destination_network (RgbData p)
    | Some (BtcData _) => invalid "TRANSACTION data_type must not carry BtcData"
    | Some (CcdData _) => Err (status StatusInternal "CCD sign request should have been handled before destination dispatch")
    | None => invalid "SignRequest.data is missing"
    end in
  let? src := enclave_source_network source in
  let? _ := validate_cross_network_route src destination in
  Ok (AskSign {| wq_amount := sp_amount source; wq_source_network := Some src;
                 wq_destination_network := Some destination |}).

(** [sign] up to the enclave: its request and the network id of the answer. *)
Definition sign_request (req : GrpcSignRequest) : grpc_result (EnclaveRequest * Z) :=
  let? common := ok_or (gq_common req) (status InvalidArgument "SignRequest.common is missing") in
  let? data_type := ok_or (data_type_of (cm_data_type common)) (status InvalidArgument "unknown data_type") in
  let? ask :=
    match gq_data req, data_type with
    | Some (CcdData hash), Transaction => Ok (AskSignCcd hash)
    | Some (CcdData _), _ => invalid "CCD signing requires TRANSACTION data_type"
    | _, Transaction => transaction_request req
    | Some (EvmData p), EvmGasTx =>
        Ok (AskSignRawDigest {| req_digest := ep_call_data p; unsigned_tx := ep_unsigned_tx p |})
    | _, EvmGasTx => invalid "EVM_GAS_TX sign requires EvmData with the unsigned tx in unsigned_tx"
    | Some (BtcData psbt), BtcUtxo => Ok (AskSignBtc psbt)
    | _, BtcUtxo => invalid "BTC_UTXO sign requires BtcData with the PSBT in psbt_bytes"
    | _, RgbRightsRefill => rights_refill_request req
    | _, _ => invalid "unsupported data_type"
    end in
  Ok (ask, cm_dst_network_id common).

Definition signature (id : Z) (sig : bytes) : SignatureResponse :=
  {| sg_signer_network_id := id; sg_signature := sig; sg_call_data := []; sg_public_key := [] |}.

(** [signed_psbt_reply]. *)
Definition signed_psbt_reply (resp : option EnclaveResponse) (id : Z) (rpc : string) : grpc_result SignatureResponse :=
  match resp with
  | Some (GotSignedPsbt r) => Ok (signature id (rp_signed_psbt r))
  | Some (GotError code m) => Err (enclave_error_to_status code m)
  | _ => unexpected rpc
  end.

Definition expects_evm (r : WireSignRequest) : bool :=
  match wq_destination_network r with Some (EvmDest _) => true | _ => false end.

(** [sign] from the answer of the enclave. *)
Definition sign_reply (ask : EnclaveRequest) (id : Z) (resp : option EnclaveResponse) : grpc_result SignatureResponse :=
  match ask with
  | AskSign r =>
      match resp with
      | Some (GotSignedPsbt p) =>
          if expects_evm r then Err (status StatusInternal "enclave reply type mismatch for Sign: expected EvmSignature, got SignedPsbt")
          else Ok (signature id (rp_signed_psbt p))
      | Some (GotEvmSignature sig call_data) =>
          if negb (expects_evm r) then Err (status StatusInternal "enclave reply type mismatch for Sign: expected SignedPsbt, got EvmSignature")
          else Ok {| sg_signer_network_id := id; sg_signature := sig; sg_call_data := call_data; sg_public_key := [] |}
      | Some (GotError code m) => Err (enclave_error_to_status code m)
      | _ => unexpected "Sign"
      end
  | AskSignCcd _ =>
      match resp with
      | Some (GotCcdSignature sig key) =>
          Ok {| sg_signer_network_id := id; sg_signature := sig; sg_call_data := []; sg_public_key := key |}
      | Some (GotError code m) => Err (enclave_error_to_status code m)
      | _ => unexpected "CCD Sign"
      end
  | AskSignRawDigest _ =>
      match resp with
      | Some (GotRawDigestSig sig) => Ok (signature id sig)
      | Some (GotError code m) => Err (enclave_error_to_status code m)
      | _ => unexpected "SignRawDigest"
      end
  | AskSignBtc _ => signed_psbt_reply resp id "SignBtc"
  | _ => signed_psbt_reply resp id "SignRightsRefill"
  end.

(** The whole [sign].  [claim] is the answer of the kept replies to a request
    whose destination is RGB: the kept reply, or [None] for the lead; [send] the
    exchange with the enclave. *)
Definition grpc_sign (claim : EnclaveRequest -> option SignedResponses.Reply)
    (send : EnclaveRequest -> grpc_result (option EnclaveResponse)) (req : GrpcSignRequest)
    : grpc_result SignatureResponse :=
  let? (ask, id) := sign_request req in
  match (match ask with AskSign r => if expects_evm r then None else claim ask | _ => None end) with
  | Some kept => Ok (signature id (rp_signed_psbt kept))
  | None =>
      let? resp := send ask in
      sign_reply ask id resp
  end.

(** ** The other calls *)

Definition public_key (data_type : Z) (send : EnclaveRequest -> grpc_result (option EnclaveResponse)) : grpc_result bytes :=
  let? data_type := ok_or (data_type_of data_type) (status InvalidArgument "unknown data_type") in
  let? resp := send AskGetPublicKey in
  match resp with
  | Some (GotPublicKeys r) =>
      match data_type with
      | EvmGasTx => Ok (pk_evm_gas_tx_uncompressed_pub r)
      | CcdGovernance => Ok (pk_ccd_ed25519_pub r)
      | Transaction | Unspendable => Ok (pk_btc_compressed_pub r)
      | _ => invalid "PublicKey not supported for data_type"
      end
  | Some (GotError code m) => Err (enclave_error_to_status code m)
  | _ => unexpected "PublicKey"
  end.

(** [initialize]: no seed and no mnemonic go through this call. *)
Definition initialize (cloning_secret : bytes) (send : EnclaveRequest -> grpc_result (option EnclaveResponse)) : grpc_result bytes :=
  let? resp := send (AskInitializeKey {| ik_seed := []; ik_mnemonic := String.EmptyString; ik_cloning_secret := cloning_secret |}) in
  match resp with
  | Some (GotInitializeKey r) => Ok (pk_btc_compressed_pub r)
  | Some (GotError code m) => Err (enclave_error_to_status code m)
  | _ => unexpected "Initialize"
  end.

Definition grpc_clone (req : GetCloneRequest) (send : EnclaveRequest -> grpc_result (option EnclaveResponse)) : grpc_result GetCloneResponse :=
  let? resp := send (AskGetClone req) in
  match resp with
  | Some (GotGetClone r) => Ok r
  | Some (GotError code m) => Err (enclave_error_to_status code m)
  | _ => unexpected "Clone"
  end.

Definition get_last_saved_block (send : EnclaveRequest -> grpc_result (option EnclaveResponse)) : grpc_result GetLastSavedBlockResponse :=
  let? resp := send AskGetLastSavedBlock in
  match resp with
  | Some (GotLastSavedBlock r) => Ok r
  | Some (GotError code m) => Err (enclave_error_to_status code m)
  | _ => unexpected "GetLastSavedBlock"
  end.

(** Always refused: the sync of the parent is the only header writer. *)
Definition grpc_submit_headers : grpc_result SubmitHeadersResponse :=
  Err (status PermissionDenied "SubmitHeaders is closed; the parent syncs headers itself").

Definition attested_public_key (nonce : bytes) (send : EnclaveRequest -> grpc_result (option EnclaveResponse))
    : grpc_result AttestedPublicKeyResponse :=
  if negb (zlen nonce =? 32) then invalid "nonce must be 32 bytes"
  else
    let? resp := send (AskGetAttestedPublicKey nonce) in
    match resp with
    | Some (GotAttestedPublicKey r) => rmap_err (fun m => {| st_code := StatusInternal; st_message := text m |}) (attested_response r)
    | Some (GotError code m) => Err (enclave_error_to_status code m)
    | _ => unexpected "AttestedPublicKey"
    end.

End Service.
