(* ===== verification/GrpcProps.v ===== *)
(** * Theorems on the gRPC service

    What a status tells the node, when a signature is returned, and that a mint
    over gRPC is [handle_sign] on the very fields the node sent. *)

From stdpp Require Import strings base numbers list gmap.
From S2P Require Import Prelude Errors RustText ReplayGuard ResultCache.
From S2P Require Import PsbtTypes PsbtKeys PsbtPolicy RgbCommit EvmRelease EvmEvents RgbMint MintSign MintSignProps.
From S2P Require Import EvmDigest SignedResponses Dispatch Perimeter GrpcServer.
From S2P Require PsbtSample RgbSample EvmEventsProps.

#[local] Open Scope list_scope.
#[local] Open Scope Z_scope.

(** ** What a status tells *)

(** The class of a refused sign: to be retried later, refused by a check, or a fault. *)
Definition sign_error_class (e : EnclaveError) : StatusCode :=
  match e with
  | NotReady _ | Custody _ Unavailable => StatusUnavailable
  | CrossCheck _ | Spv _ | EvmFinalityPending _ _ _ => FailedPrecondition
  | _ => StatusInternal
  end.

(** A node reads from the status alone why the enclave refused, and a deposit that is
    only not final yet by the prefix of the message. *)
Theorem sign_status_tells e m :
  let s := enclave_error_to_status (error_code e) m in
  st_code s = sign_error_class e /\
  (forall block tag final, e = EvmFinalityPending block tag final ->
   st_message s = FINALITY_PREFIX ++ m ++ text ")") /\
  ((exists rest, st_message s = FINALITY_PREFIX ++ rest) /\ (forall rest, m <> FINALITY_PREFIX ++ rest) ->
   exists block tag final, e = EvmFinalityPending block tag final).
Proof.
  destruct e as [? []| | | | | | | | | | | | | | | | | | | | | |]; (split; [reflexivity|split; [by intros|]]);
    cbn; intros [(rest & Hr) Hm]; try (by destruct (Hm rest)); try (by do 3 eexists).
  all: exfalso; vm_compute in Hr; discriminate Hr.
Qed.

(** The three classes of a transport failure. *)
Lemma send_within_status start w e :
  send_within start w = Err e ->
  st_code e = DeadlineExceeded \/ st_code e = StatusUnavailable \/ st_code e = StatusInternal.
Proof.
  destruct w as [now x| |]; cbn; [|intros [= <-]; by right; right|intros [= <-]; by left]. unfold exchange.
  destruct x as [|[]|[]|[]|r]; [intros [= <-]; by right; left|..];
    (destruct (remaining _ _); [|intros [= <-]; by left]); try done; intros [= <-]; cbn; auto.
Qed.

(** ** Sign *)

Section SignProps.
Context {X : TextCodecs} (data_type_of : Z -> option DataType).

#[local] Abbreviation ask_of := (sign_request data_type_of).

(** The [unreachable!] of the destination is not reached. *)
Lemma transaction_request_total req : transaction_request req <> Panic.
Proof.
  unfold transaction_request. destruct (gq_source req) as [src|]; [|done]. cbn [ok_or rbind].
  assert (Hs : enclave_source_network src <> Panic).
  { unfold enclave_source_network. destruct (sp_chain src) as [[tx op|asset c h ps|tx]|]; try done.
    destruct (negb _); [done|]. unfold decode_hex_field. case_bool_decide; [done|]. by destruct (hex_decode _). }
  destruct (gq_data req) as [[p|p|p|p]|]; cbn [enclave_destination_network rbind]; try done.
  all: destruct (enclave_source_network src) as [s|e|]; [|done|done]; cbn [rbind]; by destruct s.
Qed.

Lemma sign_request_total req : ask_of req <> Panic.
Proof.
  unfold sign_request. destruct (gq_common req) as [c|]; [|done]. cbn [ok_or rbind].
  destruct (data_type_of _) as [d|]; [|done]. cbn [ok_or rbind]. pose proof (transaction_request_total req) as Ht.
  assert (Hr : rights_refill_request req <> Panic).
  { unfold rights_refill_request. case_bool_decide; [done|]. by destruct (gq_data req) as [[]|]. }
  destruct (gq_data req) as [[p|p|p|p]|], d; try done.
  all: first [by destruct (transaction_request req)|by destruct (rights_refill_request req)].
Qed.

(** What the signature of an answer is. *)
Definition signature_of (resp : EnclaveResponse) : option (bytes * bytes * bytes) :=
  match resp with
  | GotSignedPsbt r => Some (rp_signed_psbt r, [], [])
  | GotEvmSignature sig call_data => Some (sig, call_data, [])
  | GotRawDigestSig sig => Some (sig, [], [])
  | GotCcdSignature sig key => Some (sig, [], key)
  | _ => None
  end.

(** Whether an answer is of the kind that the request asks for. *)
Definition answers (ask : EnclaveRequest) (resp : EnclaveResponse) : bool :=
  match ask, resp with
  | AskSign r, GotSignedPsbt _ => negb (expects_evm r)
  | AskSign r, GotEvmSignature _ _ => expects_evm r
  | AskSignCcd _, GotCcdSignature _ _ => true
  | AskSignRawDigest _, GotRawDigestSig _ => true
  | AskSignBtc _, GotSignedPsbt _ | AskSignRightsRefill _, GotSignedPsbt _ => true
  | _, _ => false
  end.

(** The requests of [sign]. *)
Definition is_signing (ask : EnclaveRequest) : bool :=
  match ask with
  | AskSign _ | AskSignCcd _ | AskSignRawDigest _ | AskSignBtc _ | AskSignRightsRefill _ => true
  | _ => false
  end.

Lemma sign_request_signs req ask id : ask_of req = Ok (ask, id) -> is_signing ask = true.
Proof.
  unfold sign_request. intros H. inv_bind H c Hc. inv_bind H d Hd. inv_bind H a Ha. injection H as -> _.
  assert (Ht : transaction_request req = Ok ask -> is_signing ask = true).
  { unfold transaction_request. intros E. inv_bind E s Hs. inv_bind E x Hx. inv_bind E y Hy. inv_bind E u Hu. by injection E as <-. }
  assert (Hr : rights_refill_request req = Ok ask -> is_signing ask = true).
  { unfold rights_refill_request. case_bool_decide; [done|]. destruct (gq_data req) as [[]|]; try done. by intros [= <-]. }
  destruct (gq_data req) as [[p|p|p|p]|], d; try discriminate Ha; try (by injection Ha as <-); auto.
Qed.

Lemma sign_reply_ok ask id resp r :
  is_signing ask = true ->
  sign_reply ask id resp = Ok r <->
  exists a sig call_data key, resp = Some a /\ answers ask a = true /\ signature_of a = Some (sig, call_data, key) /\
    r = {| sg_signer_network_id := id; sg_signature := sig; sg_call_data := call_data; sg_public_key := key |}.
Proof.
  intros Hs. split.
  - destruct ask; try done; cbn; destruct resp as [[]|]; try done; try destruct (expects_evm _) eqn:E; try done;
      intros [= <-]; do 4 eexists; split_and!; try done; cbn; by rewrite E.
  - intros (a & sig & cd & key & -> & Ha & Hsig & ->).
    destruct ask; try done; destruct a; try done; cbn in *; injection Hsig as <- <- <-; try done;
      by destruct (expects_evm _).
Qed.

(** Exactly when [sign] returns a signature, and whose: the enclave's own for this
    request, or the kept reply of a bridge request whose destination is RGB. *)
Theorem grpc_sign_iff claim send req r :
  grpc_sign data_type_of claim send req = Ok r <->
  exists ask id, ask_of req = Ok (ask, id) /\
    let kept := match ask with AskSign w => if expects_evm w then None else claim ask | _ => None end in
    match kept with
    | Some k => r = signature id (rp_signed_psbt k)
    | None => exists a sig call_data key, send ask = Ok (Some a) /\ answers ask a = true /\
        signature_of a = Some (sig, call_data, key) /\
        r = {| sg_signer_network_id := id; sg_signature := sig; sg_call_data := call_data; sg_public_key := key |}
    end.
Proof.
  unfold grpc_sign. split.
  - intros H. inv_bind H x Hx. destruct x as [ask id]. exists ask, id. split; [done|]. cbn zeta.
    apply sign_request_signs in Hx. destruct (match ask with AskSign _ => _ | _ => _ end) as [k|]; [by injection H as <-|].
    inv_bind H resp Hr. apply (sign_reply_ok _ _ _ _ Hx) in H as (a & sig & cd & key & -> & Ha). by exists a, sig, cd, key.
  - intros (ask & id & Hx & H). rewrite Hx. cbn [rbind]. cbn zeta in H. apply sign_request_signs in Hx.
    destruct (match ask with AskSign _ => _ | _ => _ end) as [k|]; [by subst r|].
    destruct H as (a & sig & cd & key & -> & Ha). cbn [rbind]. apply (sign_reply_ok _ _ _ _ Hx). by exists a, sig, cd, key.
Qed.

End SignProps.

(** ** A mint over gRPC *)

Section Mint.
Context {R : RgbStd} {F : BfaSchema} {K : Bip32} {B : Bitcoin} {C : PsbtCodec} {T : @TapSigner K} {P : EvmReceiptProvider}.
Context (keccak256 sha256 : bytes -> bytes) (invoice : bytes -> option Beneficiary) (cfg : MintPins).
Context (keys : enclave_result (KeyManager K)) (launch : enclave_result bool).
Context {W : Type} {H : Handlers W (SignRequest * Clock * nat) (bytes * Z)}.
Context {S : MintServer keccak256 sha256 invoice cfg keys launch H}.
Context {X : TextCodecs} (data_type_of : Z -> option DataType).
(** The protobuf encoding of a request. *)
Context (encode : WireSignRequest -> bytes).

(** What the mint handler reads of a request. *)
Definition mint_source (s : WireSource) : SourceNetwork :=
  match s with
  | EvmSourceMsg s => SEvm {| tx_hash := ws_tx_hash s; commission := ws_commission s;
                              funds_in_operation_id := ws_funds_in_operation_id s |}
  | RgbSourceMsg _ => SRgb
  | CcdSourceMsg _ => SCcd
  end.

Definition mint_destination (d : WireDestination) : DestinationNetwork :=
  match d with
  | RgbDest d => DRgb {| psbt_bytes := wd_psbt_bytes d; asset_id := wd_asset_id d; fascia := wd_fascia d;
                         parent_fascia := wd_parent_fascia d |}
  | EvmDest _ => DEvm
  end.

Definition mint_request_of (r : WireSignRequest) : SignRequest := {|
  sr_amount := wq_amount r;
  source_network := mint_source <$> wq_source_network r;
  destination_network := mint_destination <$> wq_destination_network r;
  sr_encoded := encode r
|}.

Definition to_response (r : EnclaveReply (bytes * Z)) : EnclaveResponse :=
  match r with
  | Reply (psbt, n) => GotSignedPsbt {| rp_signed_psbt := psbt; rp_inputs_signed := n |}
  | ErrorReply code message => GotError code message
  end.

(** An exchange with the enclave on a good connection; a panic ends it without an answer. *)
Definition mint_exchange (b : ServerBuild) (w : W) (deadline : Z) (clk : Clock) (t : nat) (ask : EnclaveRequest)
    : W * grpc_result (option EnclaveResponse) :=
  match ask with
  | AskSign r =>
      let req := Some (Sign (mint_request_of r, clk, t)) in
      ((process_connection b (Ok req) (fun _ => Ok tt) w deadline).1,
       match (dispatch b req w deadline).2 with
       | Ok (resp, _) => Ok (Some (to_response resp))
       | _ => Err (io_status IoOther "enclave read failed")
       end)
  | _ => (w, Ok None)
  end.

(** C24: a mint over gRPC is the enclave's handler on what the node sent.  For an EVM
    source and an RGB destination the parent hands over amount, transaction, commission,
    deposit id, PSBT, asset and fascias unchanged, each in the field of the enclave's
    message that the handler reads it from; the node gets the signature that
    [handle_sign] answers, or the status of its error, and the enclave ends in the state
    the handler leaves, its reservation kept. *)
Theorem grpc_mint_refines b w deadline clk t req common source tx operation p r id :
  h_launched w = true -> gq_common req = Some common -> data_type_of (cm_data_type common) = Some Transaction ->
  gq_source req = Some source -> sp_chain source = Some (ChainEvm tx operation) -> gq_data req = Some (RgbData p) ->
  sign_request data_type_of req = Ok (AskSign r, id) ->
  let sr := mint_request_of r in
  let '(st', res) := handle_sign keccak256 sha256 invoice cfg keys launch (state_of w) sr deadline clk t in
  let '(w', reply) := mint_exchange b w deadline clk t (AskSign r) in
  sr_amount sr = sp_amount source /\
  source_network sr = Some (SEvm {| tx_hash := tx; commission := sp_commission source; funds_in_operation_id := operation |}) /\
  destination_network sr = Some (DRgb {| psbt_bytes := np_psbt_bytes p; asset_id := np_rgb_asset_id p;
                                          fascia := np_fascia p; parent_fascia := np_parent_fascia p |}) /\
  wq_destination_network r = Some (RgbDest {|
    wd_operation_idx := np_operation_idx p; wd_psbt_bytes := np_psbt_bytes p;
    wd_psbt_output_amount := np_psbt_output_amount p; wd_asset_id := np_rgb_asset_id p;
    wd_consignment := np_consignment p; wd_consignment_hash := np_consignment_hash p;
    wd_fascia := np_fascia p; wd_parent_fascia := np_parent_fascia p |}) /\
  state_of w' = st' /\
  grpc_sign data_type_of (fun _ => None) (fun ask => (mint_exchange b w deadline clk t ask).2) req =
    match res with
    | Ok ((psbt, _), _) => Ok (signature id psbt)
    | Err e => Err (enclave_error_to_status (error_code e) (error_text (display e)))
    | Panic => Err (status StatusUnavailable "enclave read failed")
    end.
Proof.
  intros Hl Hcm Hdt Hsrc Hch Hdata Hask. cbn zeta.
  destruct (handle_sign keccak256 sha256 invoice cfg keys launch (state_of w) (mint_request_of r) deadline clk t) as [st' res] eqn:Hs.
  pose proof Hask as Hr. unfold sign_request in Hr. rewrite Hcm, Hdata in Hr. cbn [ok_or rbind] in Hr. rewrite Hdt in Hr.
  cbn [ok_or rbind] in Hr. unfold transaction_request in Hr. rewrite Hsrc, Hdata in Hr. cbn [ok_or rbind enclave_destination_network] in Hr.
  unfold enclave_source_network in Hr. rewrite Hch in Hr. destruct (negb _); [done|].
  destruct (decode_hex_field _ _) as [token|e|]; [|done|done]. cbn [rbind validate_cross_network_route] in Hr.
  injection Hr as <- <-. unfold grpc_sign. rewrite Hask. cbn [rbind expects_evm wq_destination_network].
  unfold mint_exchange, process_connection, dispatch, route, after_launch.
  rewrite Hl, (serves_sign keccak256 sha256 invoice cfg keys launch), Hs.
  split_and!; try done.
  - destruct res as [[resp [rs|]]|e|]; cbn;
      rewrite ?(serves_drop keccak256 sha256 invoice cfg keys launch), ?(get_set keccak256 sha256 invoice cfg keys launch); cbn; try done.
    by destruct st'.
  - destruct res as [[[psbt n] rs]|e|]; cbn; done.
Qed.

End Mint.

(** ** The sample mint, over gRPC *)

Module Sample.

Definition data_type_of (n : Z) : option DataType := if n =? 0 then Some Transaction else None.

Definition source : SourceProof := {|
  sp_amount := 500; sp_finalized := true; sp_token := text "0x0d"; sp_recipient := text "utxob:x"; sp_commission := 10;
  sp_chain := Some (ChainEvm (replicate 32 x77) mint_deposit_id) |}.

Definition payload : RgbPayload := {|
  np_operation_idx := 1; np_psbt_bytes := [x02]; np_psbt_output_amount := 600; np_rgb_asset_id := "rgb:asset"; np_consignment := [];
  np_consignment_hash := []; np_fascia := [x02]; np_parent_fascia := [x01] |}.

Definition node_request : GrpcSignRequest := {|
  gq_common := Some {| cm_src_network_id := 1; cm_dst_network_id := 7; cm_data_type := 0 |};
  gq_source := Some source; gq_data := Some (RgbData payload) |}.

Definition wire_request : WireSignRequest := {|
  wq_amount := 500;
  wq_source_network := Some (EvmSourceMsg {|
    ws_tx_hash := replicate 32 x77; ws_event_valid := true; ws_event_finalized := true; ws_token := [x0d];
    ws_recipient := text "utxob:x"; ws_commission := 10; ws_funds_in_operation_id := mint_deposit_id |});
  wq_destination_network := Some (RgbDest {|
    wd_operation_idx := 1; wd_psbt_bytes := [x02]; wd_psbt_output_amount := 600; wd_asset_id := "rgb:asset"; wd_consignment := [];
    wd_consignment_hash := []; wd_fascia := [x02]; wd_parent_fascia := [x01] |}) |}.

Definition encode (r : WireSignRequest) : bytes := [x2a].

Lemma wire_ok : sign_request (T := Perimeter.Sample.codecs) data_type_of node_request = Ok (AskSign wire_request, 7).
Proof. vm_compute. reflexivity. Qed.

(** The node gets the signature of the sample mint. *)
Lemma grpc_mint_refines_witness :
  grpc_sign (T := Perimeter.Sample.codecs) data_type_of (fun _ => None)
    (fun ask => (mint_exchange encode Dispatch.Sample.mint_build (empty_state, true) (secs 100) (mint_clock 0) 0%nat ask).2)
    node_request = Ok (signature 7 (replicate 64 x01)).
Proof.
  pose proof (grpc_mint_refines (C := RgbSample.rgb_codec) (P := mint_provider) EvmEventsProps.sample_keccak id (fun _ => None)
    sample_pins (Ok PsbtSample.sample_keys) (Ok true) (S := Dispatch.Sample.mint_server) (X := Perimeter.Sample.codecs) data_type_of encode
    Dispatch.Sample.mint_build (empty_state, true) (secs 100) (mint_clock 0) 0%nat node_request _ source _ _ payload
    wire_request 7 eq_refl eq_refl eq_refl eq_refl eq_refl eq_refl wire_ok) as Hm.
  cbn zeta in Hm. change (mint_request_of encode wire_request) with mint_request in Hm.
  cbn [state_of] in Hm.
  match type of Hm with context [handle_sign ?a ?b ?c ?d ?e ?f ?g ?h ?i ?j ?k] =>
    change (handle_sign a b c d e f g h i j k) with (sample_sign empty_state mint_request 0) in Hm end.
  rewrite sample_sign_ok in Hm. destruct (mint_exchange _ _ _ _ _ _ (AskSign wire_request)) as [w' reply]. apply Hm.
Defined.

End Sample.
