(* ===== verification/Operator.v ===== *)
(** * The operator's side of the parent

    The settings of the service (src/parent/src/config.rs and the address parser
    of header_source.rs), the direct client of an enclave (client.rs), the
    commands of the CLI that decide something (bin/cli.rs, bin/cli/
    clone_completion.rs) and the readiness answer (health.rs).  The environment,
    the socket, the JSON reader and the donor are parameters; the printing of
    the CLI is left out.

    Main result: what [clone] reports is what the enclave did. *)

From stdpp Require Import strings base numbers list gmap.
From S2P Require Import AttestationSample AttestationProps ParentAttestProps Dispatch LaunchConfig LaunchExpect HeaderSync.
From S2P Require Import Prelude Errors RustText SpvTypes SpvServer SpvCrosscheck EnclaveState.
From S2P Require Import Attestation AttestedPolicy AttestedKeys ParentAttest Cloning CloningProps EvmRelease EvmDigest SignedResponses.
From S2P Require Import Perimeter GrpcServer.

#[local] Open Scope list_scope.
#[local] Open Scope Z_scope.

(** ** Settings (config.rs) *)

Definition u16_max : Z := 2 ^ 16 - 1.

Section Settings.
(** [std::env::var(key).ok()]. *)
Context (var : string -> option bytes).

Definition env_or (max : Z) (key : string) (dflt : Z) : Z := default dflt (var key ≫= parse_uint max).

Record Config : Type := {
  cf_grpc_host : bytes;
  cf_grpc_port : Z;
  cf_enclave_addr : bytes;
  cf_enclave_vsock_cid : Z;
  cf_enclave_vsock_port : Z;
  cf_use_vsock : bool;
  cf_grpc_max_concurrent : Z;
  cf_grpc_max_concurrent_sign : Z;
  cf_grpc_max_concurrent_per_conn : Z;
  cf_grpc_request_timeout_secs : Z;
  cf_signed_response_ttl_secs : Z;
  cf_signed_response_max_entries : Z;
  cf_signed_response_max_bytes : Z;
  cf_health_host : bytes;
  cf_health_port : Z
}.

(** [Config::from_env]; [usize] has 64 bits. *)
Definition config_from_env : Config := {|
  cf_grpc_host := default (text "127.0.0.1") (var "GRPC_HOST");
  cf_grpc_port := env_or u16_max "GRPC_PORT" 5000;
  cf_enclave_addr := default (text "127.0.0.1:5000") (var "ENCLAVE_ADDR");
  cf_enclave_vsock_cid := env_or u32_max "ENCLAVE_VSOCK_CID" 16;
  cf_enclave_vsock_port := env_or u32_max "ENCLAVE_VSOCK_PORT" 5000;
  cf_use_vsock :=
    match var "USE_VSOCK" with
    | Some v => bool_decide (v = text "1") || eq_ignore_ascii_case v (text "true")
    | None => false
    end;
  cf_grpc_max_concurrent := Z.max (env_or u64_max "GRPC_MAX_CONCURRENT" 128) 1;
  cf_grpc_max_concurrent_sign := Z.max (env_or u64_max "GRPC_MAX_CONCURRENT_SIGN" 8) 1;
  cf_grpc_max_concurrent_per_conn := Z.max (env_or u64_max "GRPC_MAX_CONCURRENT_PER_CONN" 32) 1;
  cf_grpc_request_timeout_secs := Z.max (env_or u64_max "GRPC_REQUEST_TIMEOUT_SECS" 120) 1;
  cf_signed_response_ttl_secs := env_or u64_max "SIGNED_RESPONSE_TTL_SECS" 3600;
  cf_signed_response_max_entries := env_or u64_max "SIGNED_RESPONSE_MAX_ENTRIES" 1024;
  cf_signed_response_max_bytes := env_or u64_max "SIGNED_RESPONSE_MAX_BYTES" (Z.shiftl 16 20);
  cf_health_host := default (text "127.0.0.1") (var "HEALTH_HOST");
  cf_health_port := env_or u16_max "HEALTH_PORT" 5001 |}.

End Settings.

(** ** The header source (header_source.rs, [ElectrumSource::new]) *)

Record ElectrumSource : Type := { es_host : bytes; es_port : Z; es_tls : bool }.

(** [server_name] tells whether [ServerName::try_from] takes the host. *)
Definition electrum_source (server_name : bytes -> bool) (url : bytes) : str_result ElectrumSource :=
  let? (ssl, rest) :=
    match strip_prefix (text "ssl://") url, strip_prefix (text "tcp://") url with
    | Some rest, _ => Ok (true, rest)
    | None, Some rest => Ok (false, rest)
    | None, None => Err "Electrum URL must start with ssl:// or tcp://"
    end in
  let? (host, port) := ok_or (rsplit_once x3a rest) "Electrum URL has no port" in
  let? port := ok_or (parse_uint u16_max port) "Electrum URL has a bad port" in
  let host := strip_all (length host) [[x5b]] host in
  let host := reverse (strip_all (length host) [[x5d]] (reverse host)) in
  if bool_decide (host = []) || (port =? 0) then Err "Electrum URL has no host or port"
  else if ssl then
    if server_name host then Ok {| es_host := host; es_port := port; es_tls := true |}
    else Err "Electrum URL has a bad host name"
  else
    match parse_ip host with
    | Some ip =>
        if is_loopback ip then Ok {| es_host := host; es_port := port; es_tls := false |}
        else Err "tcp:// is allowed only to a loopback IP"
    | None => Err "tcp:// is allowed only to a loopback IP"
    end.

(** [config::header_sync]: a bad URL is kept for the status, a bad interval stops the parent. *)
Definition header_sync (server_name : bytes -> bool) (url interval_secs : option bytes)
    : str_result (str_result (option ElectrumSource) * Z) :=
  let source :=
    match url with
    | None | Some [] => Ok None
    | Some url => let? s := electrum_source server_name url in Ok (Some s)
    end in
  let? secs :=
    match interval_secs with
    | None | Some [] => Ok 10
    | Some v =>
        match parse_uint u64_max v with
        | Some s => if (1 <=? s) && (s <=? 600) then Ok s else Err "HEADER_SYNC_INTERVAL_SECS must be 1..=600"
        | None => Err "HEADER_SYNC_INTERVAL_SECS must be 1..=600"
        end
    end in
  Ok (source, secs).

(** ** The client (client.rs) *)

(** [ParentError]. *)
Inductive CallError : Type := EnclaveFailed (code : Z) (message : bytes) | Connection (m : string) | Transport.

Abbreviation call_result A := (res CallError A) (only parsing).

Inductive Target : Type := Vsock (cid port : Z) | Tcp (addr : bytes).

Definition parse_vsock_spec (spec : bytes) : call_result (Z * Z) :=
  let '(cid, port) := default (spec, text "5000") (split_once x3a spec) in
  let? cid := ok_or (parse_uint u32_max cid) (Connection "invalid vsock cid in addr") in
  let? port := ok_or (parse_uint u32_max port) (Connection "invalid vsock port in addr") in
  Ok (cid, port).

(** The enclave that [send_request] connects to, in a build with or without vsock. *)
Definition target (vsock : bool) (var : string -> option bytes) (addr : bytes) : call_result Target :=
  match strip_prefix (text "vsock://") addr with
  | Some spec =>
      if vsock then let? (cid, port) := parse_vsock_spec spec in Ok (Vsock cid port)
      else Err (Connection "this binary was built without vsock support")
  | None =>
      if vsock then
        match var "ENCLAVE_VSOCK_CID" ≫= parse_uint u32_max with
        | Some cid => Ok (Vsock cid (default 5000 (var "ENCLAVE_VSOCK_PORT" ≫= parse_uint u32_max)))
        | None => Err (Connection "vsock build: select the enclave explicitly")
        end
      else Ok (Tcp addr)
  end.

Record SignEvmRequest : Type := {
  xe_call_data : bytes; xe_nonce : Z; xe_deadline : Z; xe_consignment_valid : bool; xe_rgb_amount : Z;
  xe_rgb_asset_id : string; xe_chain_id : Z; xe_proxy_contract : bytes; xe_calldata_amount : Z;
  xe_calldata_commission : Z; xe_consignment : bytes; xe_consignment_hash : bytes;
  xe_merkle_proofs : list MerkleProofEntry; xe_lz_release : option LzReleaseParams
}.

Record SignPsbtRequest : Type := {
  xp_evm_tx_hash : bytes; xp_evm_funds_in_operation_id : bytes; xp_operation_idx : Z; xp_evm_event_valid : bool;
  xp_evm_event_finalized : bool; xp_evm_token : bytes; xp_evm_amount : Z; xp_evm_recipient : bytes;
  xp_evm_commission : Z; xp_psbt_bytes : bytes; xp_psbt_output_amount : Z; xp_rgb_asset_id : string;
  xp_consignment : bytes; xp_consignment_hash : bytes; xp_fascia : bytes; xp_parent_fascia : bytes
}.

Definition sign_evm_message (r : SignEvmRequest) : EnclaveRequest :=
  AskSign {|
    wq_amount := xe_rgb_amount r;
    wq_source_network := Some (RgbSourceMsg {|
      wr_consignment_valid := xe_consignment_valid r; wr_asset_id := xe_rgb_asset_id r;
      wr_consignment := xe_consignment r; wr_consignment_hash := xe_consignment_hash r;
      wr_merkle_proofs := xe_merkle_proofs r; wr_commission := xe_calldata_commission r |});
    wq_destination_network := Some (EvmDest {|
      we_message := {|
        ed_call_data := xe_call_data r; ed_nonce := xe_nonce r; ed_deadline := xe_deadline r;
        ed_chain_id := xe_chain_id r; ed_proxy_contract := xe_proxy_contract r;
        ed_calldata_amount := xe_calldata_amount r; ed_lz_release := xe_lz_release r;
        ed_burn_destination := None |};
      we_calldata_commission := xe_calldata_commission r |}) |}.

Definition sign_psbt_message (r : SignPsbtRequest) : EnclaveRequest :=
  AskSign {|
    wq_amount := xp_evm_amount r;
    wq_source_network := Some (EvmSourceMsg {|
      ws_tx_hash := xp_evm_tx_hash r; ws_event_valid := xp_evm_event_valid r;
      ws_event_finalized := xp_evm_event_finalized r; ws_token := xp_evm_token r; ws_recipient := xp_evm_recipient r;
      ws_commission := xp_evm_commission r; ws_funds_in_operation_id := xp_evm_funds_in_operation_id r |});
    wq_destination_network := Some (RgbDest {|
      wd_operation_idx := xp_operation_idx r; wd_psbt_bytes := xp_psbt_bytes r;
      wd_psbt_output_amount := xp_psbt_output_amount r; wd_asset_id := xp_rgb_asset_id r;
      wd_consignment := xp_consignment r; wd_consignment_hash := xp_consignment_hash r;
      wd_fascia := xp_fascia r; wd_parent_fascia := xp_parent_fascia r |}) |}.

(** The match on the answer, the same in every method. *)
Definition expect_response {A : Type} (pick : EnclaveResponse -> option A) (r : option EnclaveResponse) : call_result A :=
  match r with
  | Some (GotError code m) => Err (EnclaveFailed code m)
  | Some x => ok_or (pick x) (Connection "unexpected response variant")
  | None => Err (Connection "unexpected response variant")
  end.

Section Client.
Context {W : Type} (send : EnclaveRequest -> W -> W * call_result (option EnclaveResponse)).

Definition call {A : Type} (req : EnclaveRequest) (pick : EnclaveResponse -> option A) (w : W) : W * call_result A :=
  let '(w, r) := send req w in (w, let? resp := r in expect_response pick resp).

Definition initialize_keys_inner (seed : option bytes) (mnemonic : option string) (cloning_secret : option bytes)
    : W -> W * call_result PublicKeysResponse :=
  call (AskInitializeKey {| ik_seed := default [] seed; ik_mnemonic := default "" mnemonic;
                            ik_cloning_secret := default [] cloning_secret |})
    (fun x => match x with GotInitializeKey r => Some r | _ => None end).

Definition initiate_cloning (cloning_secret cluster_public_key : bytes) : W -> W * call_result InitiateCloningResponse :=
  call (AskInitiateCloning {| ic_cloning_secret := cloning_secret; ic_cluster_public_key := cluster_public_key |})
    (fun x => match x with GotInitiateCloning r => Some r | _ => None end).

Definition set_clone (r : SetCloneRequest) : W -> W * call_result unit :=
  call (AskSetClone r) (fun x => match x with GotSetClone => Some tt | _ => None end).

Definition get_public_keys : W -> W * call_result PublicKeysResponse :=
  call AskGetPublicKey (fun x => match x with GotPublicKeys r => Some r | _ => None end).

Definition sign_evm (r : SignEvmRequest) : W -> W * call_result (bytes * bytes) :=
  call (sign_evm_message r) (fun x => match x with GotEvmSignature sig data => Some (sig, data) | _ => None end).

Definition sign_psbt (r : SignPsbtRequest) : W -> W * call_result SignedResponses.Reply :=
  call (sign_psbt_message r) (fun x => match x with GotSignedPsbt r => Some r | _ => None end).

Definition client_last_saved_block : W -> W * call_result GetLastSavedBlockResponse :=
  call AskGetLastSavedBlock (fun x => match x with GotLastSavedBlock r => Some r | _ => None end).

Definition client_health : W -> W * call_result HealthResponse :=
  call AskHealth (fun x => match x with GotHealth r => Some r | _ => None end).

Definition client_attested_public_key (nonce : bytes) : W -> W * call_result GetAttestedPublicKeyResponse :=
  call (AskGetAttestedPublicKey nonce) (fun x => match x with GotAttestedPublicKey r => Some r | _ => None end).

Definition client_set_endpoints (r : SetEndpointsRequest) : W -> W * call_result unit :=
  call (AskSetEndpoints r) (fun x => match x with GotSetEndpoints => Some tt | _ => None end).

(** ** The result of a clone attempt (bin/cli/clone_completion.rs) *)

Inductive Outcome : Type := Success | RecoveredSuccess | OtherIdentity | NotInitialized | Unknown.

#[export] Instance Outcome_eq_dec : EqDecision Outcome.
Proof. solve_decision. Defined.

Definition outcome_str (o : Outcome) : string :=
  match o with
  | Success => "success"
  | RecoveredSuccess => "recovered_success"
  | OtherIdentity => "identity_mismatch"
  | NotInitialized => "not_initialized"
  | Unknown => "unknown"
  end.

Definition is_success (o : Outcome) : bool := match o with Success | RecoveredSuccess => true | _ => false end.

Record Completion : Type := { cp_outcome : Outcome; cp_keys : option PublicKeysResponse }.

Definition identity_field_mismatches (local : PublicKeysResponse) (donor : AttestedPublicKeyResponse) : list string :=
  let differs {A : Type} `{EqDecision A} (name : string) (field : PublicKeysResponse -> A) : list string :=
    if bool_decide (field local = field (ar_keys donor)) then [] else [name] in
  differs "evm_address" pk_evm_address ++
  differs "evm_uncompressed_pub" pk_evm_uncompressed_pub ++
  differs "btc_compressed_pub" pk_btc_compressed_pub ++
  differs "btc_xpub" pk_btc_xpub ++
  differs "master_fingerprint" pk_master_fingerprint ++
  differs "account_xpub_vanilla" pk_account_xpub_vanilla ++
  differs "account_xpub_colored" pk_account_xpub_colored ++
  differs "chain_id" pk_chain_id ++
  differs "bridge_contract" pk_bridge_contract ++
  differs "rgb_asset_id" pk_rgb_asset_id ++
  differs "evm_gas_tx_uncompressed_pub" pk_evm_gas_tx_uncompressed_pub ++
  differs "evm_gas_tx_address" pk_evm_gas_tx_address ++
  differs "ccd_ed25519_pub" pk_ccd_ed25519_pub.

(** [recv_timeout]: nothing when the worker is late or has died. *)
Definition received {A : Type} (late : bool) (r : call_result A) : option (call_result A) :=
  if late then None else match r with Panic => None | r => Some r end.

(** What [complete] makes of the two answers that it has received. *)
Definition report (set_result : option (call_result unit)) (read : option (call_result PublicKeysResponse))
    (expected_evm : bytes) (donor : AttestedPublicKeyResponse) : Completion :=
  let acknowledged := match set_result with Some (Ok _) => true | _ => false end in
  let unknown := {| cp_outcome := Unknown; cp_keys := None |} in
  match read with
  | Some (Ok keys) =>
      let identity_matches :=
        bool_decide (pk_evm_address keys = expected_evm) &&
        bool_decide (identity_field_mismatches keys donor = []) in
      {| cp_outcome :=
           if negb identity_matches then OtherIdentity
           else if acknowledged then Success
           else RecoveredSuccess;
         cp_keys := Some keys |}
  | Some (Err (EnclaveFailed code message)) =>
      if (code =? 1) && bool_decide (message = text "key not initialized") &&
         bool_decide (is_Some set_result) && negb acknowledged
      then {| cp_outcome := NotInitialized; cp_keys := None |}
      else unknown
  | _ => unknown
  end.

(** The worker of [SetClone] has a thread of its own, which a missed deadline does not
    stop: a call that is late may reach the enclave before the key read or after it. *)
Inductive SetTiming : Type := InTime | LateBeforeRead | LateAfterRead.

(** [complete]; [read_late] tells whether the answer of the key read misses its deadline. *)
Definition complete (timing : SetTiming) (read_late : bool) (request : SetCloneRequest) (expected_evm : bytes)
    (donor : AttestedPublicKeyResponse) (w : W) : W * Completion :=
  match timing with
  | InTime =>
      let '(w, set) := set_clone request w in
      let '(w, read) := get_public_keys w in
      (w, report (received false set) (received read_late read) expected_evm donor)
  | LateBeforeRead =>
      let '(w, _) := set_clone request w in
      let '(w, read) := get_public_keys w in
      (w, report None (received read_late read) expected_evm donor)
  | LateAfterRead =>
      let '(w, read) := get_public_keys w in
      let '(w, _) := set_clone request w in
      (w, report None (received read_late read) expected_evm donor)
  end.

(** ** Commands (bin/cli.rs) *)

(** [s.trim_start_matches("0x")]. *)
Definition trim_0x (s : bytes) : bytes := strip_all (length s) [text "0x"] s.

(** [run_clone].  [endpoint] is the answer of [client_endpoint], [donor_clone] and
    [donor_keys] those of the donor's parent; [nonce] is random. *)
Definition run_clone `{T : TextCodecs} {E : Type} (endpoint : str_result E)
    (donor_clone : GetCloneRequest -> grpc_result GetCloneResponse)
    (donor_keys : bytes -> grpc_result AttestedPublicKeyResponse) (nonce : bytes) (timing : SetTiming) (read_late : bool)
    (cloning_secret donor_evm : bytes) (w : W) : W * str_result Completion :=
  match
    let? donor_addr := ok_or (hex_decode (trim_0x donor_evm)) "donor_evm is not hex" in
    if negb (zlen donor_addr =? 20) then Err "donor_evm must be a 20-byte address"
    else let? _ := endpoint in Ok donor_addr
  with
  | Err e => (w, Err e)
  | Panic => (w, Panic)
  | Ok donor_addr =>
      let '(w, init) := initiate_cloning cloning_secret donor_addr w in
      match
        let? init := rmap_err (fun _ => "InitiateCloning failed") init in
        let? clone := rmap_err (fun _ => "Clone failed")
          (donor_clone {| gc_requester_attestation := requester_attestation init;
                          gc_encryption_pubkey := encryption_pubkey init;
                          gc_cluster_public_key := donor_addr;
                          gc_cloning_digest := cloning_digest init |}) in
        let? bundle := rmap_err (fun _ => "AttestedPublicKey failed") (donor_keys nonce) in
        if negb (bool_decide (pk_evm_address (ar_keys bundle) = donor_addr)) then
          Err "donor bundle does not match --donor-evm; SetClone was not sent"
        else Ok (clone, bundle)
      with
      | Err e => (w, Err e)
      | Panic => (w, Panic)
      | Ok (clone, bundle) =>
          let '(w, c) := complete timing read_late clone donor_addr bundle w in (w, Ok c)
      end
  end.

(** The line [CLONE_RESULT_V1=] and the exit code of [clone]. *)
Definition clone_exit (r : str_result Completion) : string * Z :=
  match r with
  | Ok c => (outcome_str (cp_outcome c), if is_success (cp_outcome c) then 0 else 1)
  | _ => ("preflight_error", 1)
  end.

(** [verify_launch] after the files are read; [now] is the wall clock. *)
Definition verify_launch `{T : TextCodecs, C : Ciborium, X : X509, P : P384} (sha256 : bytes -> bytes)
    (allow_debug : bool) (root : bytes) (pcrs : ExpectedPcrs) (image_env : list bytes) (signer_role : bytes)
    (endpoints : SetEndpointsRequest) (nonce : bytes) (now : option Z) (w : W) : W * str_result AttestedPolicy :=
  let role :=
    if bool_decide (signer_role = text "mint") then Mint
    else if bool_decide (signer_role = text "burn") then Burn
    else Combined in
  match expected_policy sha256 role image_env endpoints with
  | Err e => (w, Err e)
  | Panic => (w, Panic)
  | Ok expected =>
      let '(w, r) := client_attested_public_key nonce w in
      (w, let? response := rmap_err (fun _ => "GetAttestedPublicKey failed") r in
          check_launch sha256 allow_debug root response nonce pcrs expected VReal now)
  end.

(** The mode and the expectation of [export_attestation]. *)
Definition export_mode `{T : TextCodecs} (sha256 : bytes -> bytes) (pcrs : ExpectedPcrs)
    (image_env : option (list bytes)) (signer_role : option bytes) (mock allow_development_policy : bool)
    (endpoints : SetEndpointsRequest) : str_result (VerifyMode * AttestedPolicy) :=
  if allow_development_policy then
    if mock then Err "--allow-development-policy conflicts with --mock"
    else if existsb (fun p => bool_decide (p = replicate 48 x00)) [pcr0 pcrs; pcr1 pcrs; pcr2 pcrs]
    then Err "Development policy requires independently approved nonzero PCRs"
    else Ok (VReal, Development)
  else if mock then Ok (VMock, Development)
  else
    let role := if bool_decide (signer_role = Some (text "burn")) then Burn else Combined in
    let? image_env := ok_or image_env "--image-env required" in
    let? expected := expected_policy sha256 role image_env endpoints in
    Ok (VReal, expected).

(** [--expect-evm-address]. *)
Definition expect_evm_arg `{T : TextCodecs} (a : option bytes) : str_result (option bytes) :=
  match a with
  | None => Ok None
  | Some a => let? b := ok_or (array_hex 20 (strip_0x a)) "not a 20-byte address" in Ok (Some b)
  end.

(** [export_attestation] up to the bundle that is written. *)
Definition export_attestation `{T : TextCodecs, C : Ciborium, X : X509, P : P384} (sha256 : bytes -> bytes)
    (allow_debug : bool) (root : bytes) (pcr_file : option ExpectedPcrs) (image_env : option (list bytes))
    (signer_role expect_evm_address : option bytes) (mock allow_development_policy : bool)
    (endpoints : SetEndpointsRequest) (nonce : bytes) (now : option Z) (w : W) : W * str_result AttestationBundle :=
  let pcrs := default zero_pcrs pcr_file in
  match
    let? (mode, expected) := export_mode sha256 pcrs image_env signer_role mock allow_development_policy endpoints in
    let? expect_evm := expect_evm_arg expect_evm_address in
    Ok (mode, expected, expect_evm)
  with
  | Err e => (w, Err e)
  | Panic => (w, Panic)
  | Ok (mode, expected, expect_evm) =>
      let '(w, r) := client_attested_public_key nonce w in
      (w, let? response := rmap_err (fun _ => "GetAttestedPublicKey failed") r in
          export_bundle sha256 allow_debug root response nonce pcrs mode expected expect_evm now)
  end.

End Client.

(** *** Arguments *)

Section Arguments.
Context {T : TextCodecs}.

(** [ExpectedPcrs::from_hex]. *)
Definition pcrs_from_hex (p0 p1 p2 : bytes) : verify_result ExpectedPcrs :=
  let parse s :=
    let? b := ok_or (hex_decode s) (VAttestation "hex") in
    if zlen b =? 48 then Ok b else Err (VAttestation "PCR must be 48 bytes") in
  let? p0 := parse p0 in
  let? p1 := parse p1 in
  let? p2 := parse p2 in
  Ok {| pcr0 := p0; pcr1 := p1; pcr2 := p2 |}.

Record EndpointArgs : Type := {
  ea_electrum_url : option bytes; ea_evm_rpc_host : option bytes; ea_evm_rpc_tls_port : option bytes;
  ea_evm_rpc_ca_der_file : option bytes; ea_kms_key_arn : option bytes; ea_kms_region : option bytes;
  ea_kms_seed_id : option bytes; ea_kms_expected_evm_address : option bytes
}.

Definition nonempty (v : option bytes) : option bytes := match v with Some [] | None => None | Some v => Some v end.

(** [endpoints_request]; the process ends on an error. *)
Definition endpoints_request (read_file : bytes -> option bytes) (a : EndpointArgs) : str_result SetEndpointsRequest :=
  let? port :=
    match nonempty (ea_evm_rpc_tls_port a) with
    | None => Ok 0
    | Some p => ok_or (parse_uint u32_max p) "EVM_RPC_TLS_PORT is not a port"
    end in
  let? ca :=
    match nonempty (ea_evm_rpc_ca_der_file a) with
    | None => Ok []
    | Some path => ok_or (read_file path) "cannot read the CA file"
    end in
  Ok {| se_electrum_url := default [] (ea_electrum_url a); se_evm_rpc_host := default [] (ea_evm_rpc_host a);
        se_evm_rpc_ca_der := ca; se_evm_rpc_tls_port := port; se_kms_key_arn := default [] (ea_kms_key_arn a);
        se_kms_region := default [] (ea_kms_region a); se_kms_seed_id := default [] (ea_kms_seed_id a);
        se_kms_expected_evm_address := default [] (ea_kms_expected_evm_address a); se_evm_rpc_path := [] |}.

(** The digest the operator pins at build time. *)
Definition endpoints_sha256 (sha256 : bytes -> bytes) (encode : SetEndpointsRequest -> bytes)
    (r : SetEndpointsRequest) : bytes :=
  let network := {|
    se_electrum_url := se_electrum_url r; se_evm_rpc_host := se_evm_rpc_host r;
    se_evm_rpc_ca_der := se_evm_rpc_ca_der r; se_evm_rpc_tls_port := se_evm_rpc_tls_port r;
    se_kms_key_arn := []; se_kms_region := []; se_kms_seed_id := []; se_kms_expected_evm_address := [];
    se_evm_rpc_path := se_evm_rpc_path r |} in
  sha256 (encode network).

(** [resolve_cloning_secret]: the file, then the environment, then the argument. *)
Definition resolve_cloning_secret (read_text : bytes -> option bytes) (var : string -> option bytes)
    (arg file : option bytes) : str_result (option bytes) :=
  match file with
  | Some path =>
      let? raw := ok_or (read_text path) "failed to read --cloning-secret-file" in
      if bool_decide (trim raw = []) then Err "--cloning-secret-file is empty" else Ok (Some (trim raw))
  | None =>
      match nonempty (trim <$> var "UTEXO_CLONING_SECRET") with
      | Some s => Ok (Some s)
      | None => Ok arg
      end
  end.

(** The arms [sign-evm] and [sign-psbt] of [main], up to the request. *)
Definition cli_sign_evm (call_data proxy_contract : bytes) (nonce deadline chain_id rgb_amount : Z)
    (rgb_asset_id : string) (calldata_amount calldata_commission : Z) (consignment_valid : bool)
    : str_result SignEvmRequest :=
  let? data := ok_or (hex_decode call_data) "Invalid hex call_data" in
  let? proxy := ok_or (hex_decode proxy_contract) "Invalid hex proxy_contract" in
  Ok {| xe_call_data := data; xe_nonce := nonce; xe_deadline := deadline; xe_consignment_valid := consignment_valid;
        xe_rgb_amount := rgb_amount; xe_rgb_asset_id := rgb_asset_id; xe_chain_id := chain_id;
        xe_proxy_contract := proxy; xe_calldata_amount := calldata_amount;
        xe_calldata_commission := calldata_commission; xe_consignment := []; xe_consignment_hash := [];
        xe_merkle_proofs := []; xe_lz_release := None |}.

Definition hex_or_empty (v : bytes) (e : string) : str_result bytes :=
  if bool_decide (v = []) then Ok [] else ok_or (hex_decode v) e.

Definition cli_sign_psbt (keccak256 : bytes -> bytes) (psbt evm_tx_hash : bytes) (evm_amount evm_commission : Z)
    (evm_funds_in_operation_id : bytes) (psbt_output_amount : Z) (evm_event_valid evm_event_finalized : bool)
    (rgb_asset_id : string) (consignment fascia parent_fascia : bytes) : str_result SignPsbtRequest :=
  let? psbt_bytes := ok_or (hex_decode psbt) "Invalid hex PSBT" in
  let? consignment_bytes := hex_or_empty consignment "Invalid hex consignment" in
  let consignment_hash := if bool_decide (consignment_bytes = []) then [] else keccak256 consignment_bytes in
  let? fascia := ok_or (hex_decode fascia) "Invalid hex fascia" in
  let? parent_fascia := ok_or (hex_decode parent_fascia) "Invalid hex parent fascia" in
  let? tx_hash := hex_or_empty evm_tx_hash "Invalid hex evm_tx_hash" in
  let? operation_id := ok_or (hex_decode (strip_0x evm_funds_in_operation_id)) "Invalid hex evm_funds_in_operation_id" in
  if negb (zlen operation_id =? 32) then Err "--evm-funds-in-operation-id must be 32 bytes"
  else
    Ok {| xp_evm_tx_hash := tx_hash; xp_evm_funds_in_operation_id := operation_id; xp_operation_idx := 0;
          xp_evm_event_valid := evm_event_valid; xp_evm_event_finalized := evm_event_finalized; xp_evm_token := [];
          xp_evm_amount := evm_amount; xp_evm_recipient := []; xp_evm_commission := evm_commission;
          xp_psbt_bytes := psbt_bytes; xp_psbt_output_amount := psbt_output_amount; xp_rgb_asset_id := rgb_asset_id;
          xp_consignment := consignment_bytes; xp_consignment_hash := consignment_hash;
          xp_fascia := fascia; xp_parent_fascia := parent_fascia |}.

End Arguments.

(** ** Readiness (health.rs) *)

(** [probe] on what [send_to_enclave] gives, or nothing when the timer fires. *)
Definition probe (sent : option (Status + option EnclaveResponse)) : string + HealthResponse :=
  match sent with
  | None => inl "enclave did not answer in time"
  | Some (inl _) => inl "enclave request failed"
  | Some (inr (Some (GotHealth h))) => inr h
  | Some (inr (Some (GotError _ _))) => inl "enclave error"
  | Some (inr _) => inl "unexpected enclave response variant"
  end.

(** The status code and the body of [GET /health]. *)
Definition health (sent : option (Status + option EnclaveResponse)) (header_sync : SyncStatus)
    : Z * (string + HealthResponse) * SyncStatus :=
  match probe sent with
  | inr h => (if hp_ready h then 200 else 503, inr h, header_sync)
  | inl e => (503, inl e, header_sync)
  end.

(** * What the commands tell *)

(** ** A requester behind a lossy link *)

(** A call to the enclave: delivered and answered, lost on the way, or answered into the void. *)
Inductive Link : Type := Delivers | RequestLost | ReplyLost.

Section Requester.
Context {D : X25519} {CC : CloneCrypto} {O : KeyOps} {N : Nsm}.
Context {C : Ciborium} {X : X509} {P : P384} (allow_debug : bool) (root_der : bytes).
(** What the handlers take besides the message, and [Display] of an error. *)
Context (random : StaticSecret) (fresh : bytes) (cfg : KeyConfig) (policy : enclave_result bytes).
Context (wall : option Z) (created t_init t_set : Z) (display : EnclaveError -> bytes).

#[local] Existing Instance clone_keys.

(** The local enclave, the fate of each call to come, and the calls made. *)
Record Site : Type := {
  site_state : EnclaveState;
  site_links : list Link;
  site_sent : list EnclaveRequest
}.

Definition error_reply (e : EnclaveError) : EnclaveResponse := GotError (error_code e) (error_text (display e)).

Definition reply_of {A : Type} (f : A -> EnclaveResponse) (r : enclave_result A) : call_result (option EnclaveResponse) :=
  match r with Ok a => Ok (Some (f a)) | Err e => Ok (Some (error_reply e)) | Panic => Err Transport end.

(** The enclave of a build that can clone. *)
Definition serve (req : EnclaveRequest) (s : EnclaveState) : EnclaveState * call_result (option EnclaveResponse) :=
  match req with
  | AskInitiateCloning r =>
      let '(s, a) := handle_initiate_cloning s r random (Ok fresh) created t_init in (s, reply_of GotInitiateCloning a)
  | AskSetClone r =>
      let '(s, a) := handle_set_clone allow_debug root_der s r cfg policy wall t_set in
      (s, reply_of (fun _ => GotSetClone) a)
  | AskGetPublicKey => (s, reply_of GotPublicKeys (handle_get_public_key (get_keys s) cfg))
  | _ => (s, Ok (Some GotOther))
  end.

Definition send_to (req : EnclaveRequest) (w : Site) : Site * call_result (option EnclaveResponse) :=
  let link := default Delivers (head (site_links w)) in
  let '(s, r) := match link with RequestLost => (site_state w, Err Transport) | _ => serve req (site_state w) end in
  ({| site_state := s; site_links := tail (site_links w); site_sent := site_sent w ++ [req] |},
   match link with Delivers => r | _ => Err Transport end).

(** ** Identities *)



(** ** The calls of a clone *)














End Requester.

(** ** Readiness and settings *)

(** [GET /health] says ready exactly when the enclave answered in time that it has
    its endpoints, its keys and, on a burn build, a synced chain. *)
Theorem health_endpoint_iff {K : Keys} {B : BitcoinCrate} sent sync spv rgb_to_evm endpoints state chain min now :
  (forall h, sent = Some (inr (Some (GotHealth h))) ->
     h = handle_health spv rgb_to_evm endpoints state chain min now) ->
  (health sent sync).1.1 = 200 <->
  (exists h, sent = Some (inr (Some (GotHealth h)))) /\
  endpoints = true /\ is_initialized state = true /\
  (rgb_to_evm = true -> (spv_health spv chain min now).1.1.1.1 = true).
Proof.
  intros Hh. unfold health, probe. split.
  - destruct sent as [[?|[[]|]]|]; try done. cbn. intros H. rewrite (Hh _ eq_refl) in H.
    unfold handle_health in H. destruct (spv_health _ _ _ _) as [[[[synced ?] ?] ?] ?]. cbn in *.
    destruct endpoints, (is_initialized state), synced, rgb_to_evm; try done; split; eauto.
  - intros ([h ->] & -> & Hi & Hs). rewrite (Hh _ eq_refl). unfold handle_health.
    destruct (spv_health _ _ _ _) as [[[[synced ?] ?] ?] ?]. cbn in *. rewrite Hi.
    destruct rgb_to_evm; cbn; [|by rewrite orb_true_r]. by rewrite Hs.
Qed.

Lemma env_or_bounds var max key dflt : 0 <= dflt <= max -> 0 <= env_or var max key dflt <= max.
Proof.
  intros H. unfold env_or. destruct (var key ≫= _) as [n|] eqn:E; [|done].
  apply bind_Some in E as (v & _ & E). apply parse_uint_bound in E; [done|lia].
Qed.

(** Whatever the environment holds, no limit of the service is zero and every
    number fits its type. *)
Theorem config_limits var :
  let c := config_from_env var in
  0 <= cf_grpc_port c <= u16_max /\ 0 <= cf_health_port c <= u16_max /\
  0 <= cf_enclave_vsock_cid c <= u32_max /\ 0 <= cf_enclave_vsock_port c <= u32_max /\
  Forall (fun n => 1 <= n <= u64_max)
    [cf_grpc_max_concurrent c; cf_grpc_max_concurrent_sign c; cf_grpc_max_concurrent_per_conn c;
     cf_grpc_request_timeout_secs c] /\
  Forall (fun n => 0 <= n <= u64_max)
    [cf_signed_response_ttl_secs c; cf_signed_response_max_entries c; cf_signed_response_max_bytes c].
Proof.
  cbn. unfold u16_max, u32_max, u64_max.
  repeat match goal with
  | |- context [env_or var ?m ?k ?d] =>
      pose proof (env_or_bounds var m k d ltac:(vm_compute; split; congruence)); generalize dependent (env_or var m k d)
  end.
  intros. rewrite !Forall_cons. split_and!; try lia; apply Forall_nil_2.
Qed.

(** The parent reads headers in plaintext only from a loopback address, and a bad URL
    stops neither the parent nor its interval. *)
Theorem header_source_safe names url interval source secs :
  header_sync names url interval = Ok (source, secs) ->
  1 <= secs <= 600 /\
  forall s, source = Ok (Some s) ->
    1 <= es_port s <= u16_max /\ es_host s <> [] /\
    if es_tls s then names (es_host s) = true
    else exists ip, parse_ip (es_host s) = Some ip /\ is_loopback ip = true.
Proof.
  unfold header_sync. intros H. apply rbind_ok in H as (n & Hn & H). injection H as <- <-. split.
  - destruct interval as [[|b v]|]; [injection Hn as <-; lia| |injection Hn as <-; lia].
    destruct (parse_uint _ _) as [s|]; [|done]. destruct (_ && _) eqn:E; [|done]. injection Hn as <-.
    apply andb_true_iff in E. lia.
  - intros s Hs. destruct url as [[|b url]|]; [done| |done]. apply rbind_ok in Hs as (s' & Hs & [= ->]).
    unfold electrum_source in Hs. apply rbind_ok in Hs as ([ssl rest] & _ & Hs).
    apply rbind_ok in Hs as ([host port] & _ & Hs). apply rbind_ok in Hs as (p & Hp & Hs).
    destruct (parse_uint u16_max port) as [p'|] eqn:Ep; [|done]. injection Hp as ->.
    apply parse_uint_bound in Ep; [|done]. cbv zeta in Hs. set (h := reverse _) in Hs.
    destruct (_ || _) eqn:E; [done|]. apply orb_false_iff in E as [Eh Ez]. apply bool_decide_eq_false in Eh.
    destruct ssl.
    + destruct (names h) eqn:En; [|done]. injection Hs as <-. cbn. split; [lia|done].
    + destruct (parse_ip h) as [ip|] eqn:Ei; [|done]. destruct (is_loopback ip) eqn:El; [|done].
      injection Hs as <-. cbn. split; [lia|]. split; [done|]. by exists ip.
Qed.

(** A build with vsock talks only to an enclave that the operator named. *)
Theorem target_is_named var addr t :
  target true var addr = Ok t ->
  exists cid port, t = Vsock cid port /\ 0 <= cid <= u32_max /\
    ((exists spec, strip_prefix (text "vsock://") addr = Some spec /\ parse_vsock_spec spec = Ok (cid, port)) \/
     exists v, var "ENCLAVE_VSOCK_CID"%string = Some v /\ parse_uint u32_max v = Some cid).
Proof.
  unfold target. destruct (strip_prefix _ addr) as [spec|] eqn:Es.
  - intros H. apply rbind_ok in H as ([cid port] & Hp & [= <-]). exists cid, port. split; [done|]. split.
    + unfold parse_vsock_spec in Hp. destruct (default _ _) as [c q]. apply rbind_ok in Hp as (n & Hn & Hp).
      apply rbind_ok in Hp as (m & _ & [= -> ->]). destruct (parse_uint u32_max c) as [k|] eqn:Ek; [|done].
      injection Hn as ->. by apply parse_uint_bound in Ek.
    + left. by exists spec.
  - destruct (_ ≫= _) as [cid|] eqn:E; [|done]. intros [= <-]. apply bind_Some in E as (v & Hv & Hc).
    eexists cid, _. split; [done|]. split; [by apply parse_uint_bound in Hc|]. right. by exists v.
Qed.

(** The digest that the operator pins is the one the enclave checks. *)
Lemma endpoints_digest_agrees sha256 encode req : endpoints_sha256 sha256 encode req = chain_endpoints_sha256 sha256 encode req.
Proof. done. Qed.

(** ** A clone whose acknowledgement is lost *)

Module Sample.

#[local] Existing Instances sample_text sample_dh sample_crypto sample_ops clone_keys.
#[local] Existing Instances sample_nsm sample_signer.

Definition display (e : EnclaveError) : bytes := text "error".

Definition start : Site := {|
  site_state := sample_requester; site_links := [Delivers; ReplyLost; Delivers]; site_sent := [] |}.

Definition donor_clone (req : GetCloneRequest) : grpc_result GetCloneResponse :=
  rmap_err (fun _ => status PermissionDenied "")
    (handle_get_clone false sample_root sample_donor req sample_config (Ok []) false (Ok sample_donor_nonce) sample_wall 5).2.

Definition donor_keys (_ : bytes) : grpc_result AttestedPublicKeyResponse :=
  Ok {| ar_keys := build_public_keys_response sample_info sample_config; ar_attestation_doc := []; ar_attested_policy := [] |}.

Definition run : Site * str_result Completion :=
  run_clone (send_to false sample_root true sample_nonce sample_config (Ok []) sample_wall 0 0 9 display)
    (Ok tt) donor_clone donor_keys (replicate 32 x00) InTime false sample_secret (replicate 20 x0a) start.

(** The reply to [SetClone] is lost; the command reads the keys and says so. *)
Lemma run_recovers : clone_exit run.2 = ("recovered_success"%string, 0).
Proof. vm_compute. reflexivity. Qed.


End Sample.
